(* ===== verification/_CoqProject ===== *)
-Q . S2P
Prelude.v
DataModel.v
Resources.v
Updates.v
InMemoryState.v
Blocked.v
SchedulerState.v
Placement.v
ContainerScheduler.v
SchedulerUpdates.v
BufferReconciler.v
FunctionRuns.v
FunctionAllocator.v
SchedulerSteps.v
SandboxProcessor.v
ContainerReconciler.v
StateChanges.v
RequestEvents.v
StateMachine.v
Scanner.v
Recovery.v
Listing.v
ApplicationProcessor.v
Outbox.v
StateStore.v
Delivery.v
ProtoConvert.v
CommandEmission.v
EventLoop.v
CronProcessor.v
ExecutorManager.v
ResultRouting.v
ExecutorApi.v
StateReporter.v
AllocationController.v
CommandHandling.v
