(* ===== verification/Prelude.v ===== *)
(** * Indexify server: verification of the scheduling core

    Indexify runs applications made of functions on a fleet of executors.  The
    server ([src/crates/server]) decides which containers exist, on which executor,
    and which function run or sandbox uses them; it stores requests and results in
    a database and keeps an in-memory state derived from it.  This library models
    that decision-making code and the state it works on, and proves what makes it
    correct.

    ** Parts of the program and where they are modelled

    Shared definitions:
    - [Prelude]: results, record update, machine integers, iteration of hash
      collections, inverted indexes, ordered pairs, loop lemmas, tactics.
    - [DataModel] ([data_model/mod.rs], [data_model/filter.rs], [config.rs]): the
      structs and enums, failure reasons and their conversions, keys, label filters
      and allowlists.
    - [Resources] ([HostResources], [ExecutorServerMetadata],
      [Application::can_be_scheduled], [ContainerPool::validate]): accounting of
      CPU, memory, disk and GPUs, with the wrap-around of [u32] and [u64].
    - [Updates] ([state_store/requests.rs], the histograms of
      [state_store/in_memory_state.rs]): [SchedulerUpdateRequest], the value every
      scheduling operation returns, how updates are merged, and the requests.

    The container scheduler:
    - [Blocked] ([scheduler/blocked.rs], [scheduler/executor_class.rs]): work that
      could not be placed, and which of it is woken when capacity appears.
    - [SchedulerState] ([processor/container_scheduler.rs]): the state of the
      container scheduler, a table of containers with four indexes, executor
      classes with two, a free-memory index; the primitive operations on them.
    - [Placement] ([scheduler/placement.rs]): choosing an executor.
    - [ContainerScheduler]: creating containers, reaping idle ones, restoring them.
    - [SchedulerUpdates]: the requests that reach the scheduler.
    - [SchedulerSteps]: the transition system [step] over all operations on the
      scheduler, those of the processors included.
    - [BufferReconciler] ([processor/buffer_reconciler.rs]): keeping pools between
      their minimum and maximum with a buffer of idle containers.

    Requests and the processors:
    - [InMemoryState] ([state_store/in_memory_state.rs]): the tables of requests,
      runs, allocations, sandboxes and snapshots with their indexes.
    - [FunctionRuns] ([processor/function_run_creator.rs],
      [processor/retry_policy.rs]): what the result of an allocation does to its
      request: retries, new calls and reductions, propagation of outputs.
    - [FunctionAllocator] ([processor/function_run_processor.rs]): giving pending
      runs a container.
    - [SandboxProcessor] ([processor/sandbox_processor.rs]): the same for sandboxes.
    - [ContainerReconciler] ([processor/container_reconciler.rs]): what a heartbeat
      or the loss of an executor means for containers, runs and sandboxes.
    - [StateChanges] ([state_store/state_changes.rs]): the events a request raises.
    - [ApplicationProcessor] ([processor/application_processor.rs]): the reaction to
      every event, built from the processors above.
    - [EventLoop] (the same file): the batch that takes the pending payloads, the
      retry at startup, the idle pool reconciliation and the validation of
      applications, with the writes other tasks make meanwhile.
    - [CronProcessor] ([processor/cron_processor.rs]): firing schedules.

    Persistence:
    - [RequestEvents] ([state_store/request_events]): the events of a write.
    - [StateMachine] ([state_store/state_machine.rs]): what every write does to the
      column families of the database.
    - [Scanner], [Listing] ([state_store/scanner.rs], [state_store/driver]): reads.
    - [Recovery] ([InMemoryState::new]): the in-memory state after a restart.
    - [StateStore] ([state_store/mod.rs]): transactions, sequences, the payload queue.

    Executors:
    - [ProtoConvert] ([proto_convert.rs], [pb_helpers.rs], [blob-store/src/uri.rs]):
      protobuf messages from and to the data model.
    - [CommandEmission] ([executors/command_emission.rs], [executors.rs]): the
      commands that bring an executor to its desired state.
    - [Outbox] ([state_store/mod.rs]): the persisted command queues.
    - [Delivery] ([state_store/executor_connection.rs], [executor_api/polling.rs],
      [dataplane/src/service.rs]): buffers, long polls and the dataplane's loops.
    - [ExecutorManager] ([executors.rs], [executor_api.rs]): registration, heartbeat
      deadlines, deregistration.
    - [ResultRouting] ([executor_api/result_routing.rs], [state_store/mod.rs]): which
      allocation waits for which call, and the delivery of results to it.
    - [ExecutorApi] ([executor_api.rs], [executor_api/report_processing.rs],
      [executor_api/heartbeat_helpers.rs]): the heartbeat and its reports.
    - [StateReporter] ([dataplane/src/state_reporter.rs], [dataplane/src/service.rs]):
      the heartbeat loop of the dataplane, proved against the interface
      [ReportServer], of which [ExecutorApi] is the instance.
    - [AllocationController] ([dataplane/src/allocation_controller],
      [dataplane/src/gpu_allocator.rs]): the task that owns the function containers and
      the allocations of an executor, as a state machine.
    - [CommandHandling] ([dataplane/src/service.rs], [validation.rs],
      [state_reconciler.rs]): how a command of the server is checked and routed.

    ** Conventions

    A method on [&mut self] is a function from the state to the new state, paired
    with its result; an error return keeps the state reached so far.  [anyhow]
    errors are constructors that keep the values the message would show.  Hash maps
    and sets are [gmap] and [gset]; what iterates one does so in an order given by
    the class [HashOrder], of which only that it enumerates each element once is
    known, so the theorems hold for every order.  Random draws, fresh identifiers
    and clocks are arguments, or the fields of an oracle where a component asks for
    many.  SHA-256, the database read of an allocation and the cron parser are
    parameters.  Loops whose bound is not an argument run on fuel:
    [reconcile_respects_max] shows that some fuel is always enough for the buffer
    reconciler (more than [u32_max], and more than the room left in the pools), and
    [output_reaches_waiting_runs] the same for the propagation of an output (more
    than its rank in the graph of calls).

    ** What the theorems show

    - Accounting: free and claimed resources add up to the capacity along every
      error-free run.
    - Indexes: in every reachable state of the scheduler the derived indexes agree
      with the tables they are derived from; the same for the in-memory state.  The
      index of idle containers is the exception: the allocator changes the idle timer
      in place, which leaves stale entries behind ([stale_idle_entry_reaps_early]).
      The class [IdleIndex] says how much is claimed of that index: [idle_exact] is true
      for the operations of the scheduler alone, and false, every idle container is in
      the index but not conversely, when the allocator takes part.
    - Placement: a selected executor may run the workload and has the resources,
      and selection succeeds when such an executor is in the index, as long as the
      feasibility cache is right for the workload ([cache_sound]).
    - Reaping, claiming, deleting and merging: what each changes, and that nothing
      else changes.
    - Reconciliation: terminates, and no pool passes its maximum.
    - Blocked work: waking stays within the budget; every run and sandbox that is
      offered is placed, or recorded so that freed capacity wakes it.
    - Requests: retries are counted exactly, reductions are left folds, outputs
      reach the runs that wait for them, a request succeeds exactly when all its
      runs are done and a failed one leaves nothing running.
    - Loss: a lost container requeues or fails its runs; a lost executor has its
      containers and active sandboxes ended, and no others, and its allocations closed.
    - Persistence: no allocation is billed twice; deleting an application removes all
      its rows, queues its payloads for garbage collection and touches nothing else;
      a restart finds the unfinished requests and the state derived from them, and also
      the open allocations of requests that failed ([failed_request_leaves_allocation]);
      listing pages through every request once; the payload queue is first in, first
      out across commits, failures and restarts.
    - Batches: a batch consumes exactly the payloads that were pending when it
      started, also when other tasks write during it.
    - Commands: the commands of an update and of a full synchronisation are exactly
      those the state calls for; the outbox refines one log per executor, and between
      two registrations every command that fits a poll response reaches the dataplane
      once, in the order the scheduler decided on it, under lost responses.
    - Executors and schedules: a silent executor is deregistered; no schedule is
      queued twice or fires twice.
    - Reports and results: a heartbeat queues exactly the payloads its reports stand
      for; the buffers of the dataplane are bounded queues that lose nothing below their
      capacity, and a turn of its loop sends them in fragments and ends; the value at the end of a chain of tail calls reaches the
      allocation that waits for it, and the cache of routes cannot be observed.
    - The allocation controller: concurrency, queues and GPUs are accounted for in every
      reachable state, every allocation is reported exactly once, also across a
      shutdown, and events run out after a number given by a potential.  The dataplane
      accepts and applies every command the server emits.
    - Defects: theorems whose statement is a concrete run of the code that goes
      wrong, listed as findings.

    ** Not modelled

    RocksDB, the row encoding and schema migrations, the HTTP layer, metrics and
    logging, the wake-ups of the asynchronous loops, and the parts of the dataplane
    that manage processes, containers and networks. *)

From Stdlib Require Export ZArith Lia.
From stdpp Require Export base gmap fin_maps sets list strings sorting.

#[global] Set Default Proof Using "Type".

Open Scope Z_scope.

(** ** Results

    [anyhow::Result<A>] with an error type that keeps what the source formats
    into the message.  A Rust method that takes [&mut self] and returns a
    [Result] is a function to a pair: the (possibly modified) receiver and the
    result, because an early [return Err(..)] does not undo earlier writes. *)
Inductive result (E A : Type) : Type :=
| Ok (a : A)
| Err (e : E).
Arguments Ok {E A} a.
Arguments Err {E A} e.

Definition is_ok {E A} (r : result E A) : bool :=
  match r with Ok _ => true | Err _ => false end.

(** ** Record update

    [r <| f ::= g |>] applies [g] to the field [f] of [r]; [r <| f := v |>]
    assigns it.  A record becomes updatable by giving its eta expansion once
    ([Eta]); the setter of each field is derived from it. *)
Class Eta (R : Type) := eta : R → R.
Class Setter {R T : Type} (f : R → T) := set_field : (T → T) → R → R.
Arguments set_field {R T} f {_} _ _ /.

Ltac derive_setter :=
  match goal with
  | |- @Setter ?R ?T ?f =>
      let e := constr:(_ : Eta R) in
      let e' := eval red in e in
      exact (λ (g : T → T) (r : R),
        ltac:(let t := eval cbv beta in (e' r) in
              match eval pattern (f r) in t with
              | ?F _ => let t' := eval cbv beta in (F (g (f r))) in exact t'
              end))
  end.
#[export] Hint Extern 1 (Setter _) => derive_setter : typeclass_instances.

Declare Scope indexify_scope.
Delimit Scope indexify_scope with indexify.
Notation "r '<|' f '::=' g '|>'" := (set_field f g r)
  (at level 12, f at next level, g at level 200, left associativity) : indexify_scope.
Notation "r '<|' f ':=' v '|>'" := (set_field f (λ _, v) r)
  (at level 12, f at next level, v at level 200, left associativity) : indexify_scope.
Open Scope indexify_scope.

(** ** Machine integers

    [u32] and [u64] are [Z] with the wrap-around of the release profile (the
    workspace sets no [overflow-checks]). *)
Definition u32_max : Z := 2 ^ 32 - 1.
Definition u64_max : Z := 2 ^ 64 - 1.
Definition wrap32 (z : Z) : Z := z mod 2 ^ 32.
Definition wrap64 (z : Z) : Z := z mod 2 ^ 64.
Definition saturating_sub (a b : Z) : Z := Z.max 0 (a - b).
Definition in_u32 (z : Z) : Prop := 0 ≤ z < 2 ^ 32.
Definition in_u64 (z : Z) : Prop := 0 ≤ z < 2 ^ 64.
(** [ids.len() as u32]. *)
Definition len_u32 (n : nat) : Z := wrap32 (Z.of_nat n).

Lemma wrap32_id z : in_u32 z → wrap32 z = z.
Proof. apply Z.mod_small. Qed.
Lemma wrap64_id z : in_u64 z → wrap64 z = z.
Proof. apply Z.mod_small. Qed.
Lemma wrap32_range z : in_u32 (wrap32 z).
Proof. apply Z.mod_pos_bound. lia. Qed.
Lemma wrap64_range z : in_u64 (wrap64 z).
Proof. apply Z.mod_pos_bound. lia. Qed.
Lemma wrap32_sub_add a b : in_u32 a → wrap32 (wrap32 (a - b) + b) = a.
Proof.
  intros Ha. unfold wrap32. rewrite Zplus_mod_idemp_l.
  replace (a - b + b) with a by lia. by apply wrap32_id.
Qed.
Lemma wrap64_sub_add a b : in_u64 a → wrap64 (wrap64 (a - b) + b) = a.
Proof.
  intros Ha. unfold wrap64. rewrite Zplus_mod_idemp_l.
  replace (a - b + b) with a by lia. by apply wrap64_id.
Qed.

(** ** Unordered iteration

    [std::collections::HashMap]/[HashSet] and [imbl::HashMap]/[HashSet] iterate
    in an unspecified order.  The order is a parameter of every operation that
    iterates one of them; all that is known of it is that each element is
    produced exactly once. *)
Class HashOrder := {
  set_iter : ∀ {K} `{Countable K}, gset K → list K;
  set_iter_perm : ∀ {K} `{Countable K} (X : gset K), set_iter X ≡ₚ elements X;
  map_iter : ∀ {K} `{Countable K} {A : Type}, gmap K A → list (K * A);
  map_iter_perm : ∀ {K} `{Countable K} {A : Type} (m : gmap K A),
    map_iter m ≡ₚ map_to_list m;
}.

(** One admissible order, used to run the model on concrete inputs. *)
Definition canonical_order : HashOrder :=
  {| set_iter := λ K _ _ X, elements X;
     set_iter_perm := λ K _ _ X, reflexivity _;
     map_iter := λ K _ _ A m, map_to_list m;
     map_iter_perm := λ K _ _ A m, reflexivity _ |}.

Section iteration.
Context `{HO : HashOrder}.

Lemma elem_of_set_iter `{Countable K} (X : gset K) x : x ∈ set_iter X ↔ x ∈ X.
Proof. by rewrite set_iter_perm, elem_of_elements. Qed.
Lemma NoDup_set_iter `{Countable K} (X : gset K) : NoDup (set_iter X).
Proof. rewrite set_iter_perm. apply NoDup_elements. Qed.
Lemma length_set_iter `{Countable K} (X : gset K) : length (set_iter X) = size X.
Proof. by rewrite set_iter_perm. Qed.
Lemma elem_of_map_iter `{Countable K} {A} (m : gmap K A) k x :
  (k, x) ∈ map_iter m ↔ m !! k = Some x.
Proof. by rewrite map_iter_perm, elem_of_map_to_list. Qed.
Lemma NoDup_map_iter_fst `{Countable K} {A} (m : gmap K A) : NoDup (map_iter m).*1.
Proof. rewrite map_iter_perm. apply NoDup_fst_map_to_list. Qed.
End iteration.

(** ** Inverted indexes

    The scheduler keeps many maps from a key to a non-empty set of members.
    [idx_insert] is [map.entry(k).or_default().insert(x)], and [idx_remove] is
    [if let Some(ids) = map.get_mut(k) { ids.remove(x); if ids.is_empty()
    { map.remove(k) } }]. *)
Section index.
Context `{Countable K} `{Countable X}.
Implicit Types (m : gmap K (gset X)) (k : K) (x : X).

Definition idx_get m k : gset X := default ∅ (m !! k).
Definition idx_insert k x m : gmap K (gset X) := <[k := {[x]} ∪ idx_get m k]> m.
Definition idx_remove k x m : gmap K (gset X) :=
  match m !! k with
  | Some ids =>
      if decide (ids ∖ {[x]} = ∅) then delete k m else <[k := ids ∖ {[x]}]> m
  | None => m
  end.
(** No key is bound to an empty set. *)
Definition idx_wf m : Prop := ∀ k ids, m !! k = Some ids → ids ≠ ∅.

Lemma idx_get_insert k x m k' :
  idx_get (idx_insert k x m) k' = if decide (k = k') then {[x]} ∪ idx_get m k' else idx_get m k'.
Proof.
  unfold idx_get, idx_insert. rewrite lookup_insert.
  case_decide; by subst.
Qed.
Lemma idx_get_remove k x m k' :
  idx_get (idx_remove k x m) k' = if decide (k = k') then idx_get m k' ∖ {[x]} else idx_get m k'.
Proof.
  unfold idx_get, idx_remove. destruct (m !! k) as [ids|] eqn:E.
  - repeat case_decide; subst; rewrite ?lookup_delete, ?lookup_insert;
      repeat case_decide; try congruence; rewrite ?E; simpl; set_solver.
  - case_decide; subst; rewrite ?E; set_solver.
Qed.
Lemma elem_of_idx_insert k x m k' x' :
  x' ∈ idx_get (idx_insert k x m) k' ↔ (k' = k ∧ x' = x) ∨ x' ∈ idx_get m k'.
Proof. rewrite idx_get_insert. case_decide; set_solver. Qed.
Lemma elem_of_idx_remove k x m k' x' :
  x' ∈ idx_get (idx_remove k x m) k' ↔ x' ∈ idx_get m k' ∧ ¬ (k' = k ∧ x' = x).
Proof. rewrite idx_get_remove. case_decide; set_solver. Qed.
Lemma idx_insert_wf k x m : idx_wf m → idx_wf (idx_insert k x m).
Proof.
  intros Hwf k' ids. unfold idx_insert. rewrite lookup_insert.
  case_decide; [|by apply Hwf]. intros [= <-]. set_solver.
Qed.
Lemma idx_remove_wf k x m : idx_wf m → idx_wf (idx_remove k x m).
Proof.
  intros Hwf k' ids. unfold idx_remove. destruct (m !! k) eqn:E; [|by apply Hwf].
  case_decide.
  - rewrite lookup_delete. case_decide; [done|]. apply Hwf.
  - rewrite lookup_insert. case_decide; [by intros [= <-]|]. apply Hwf.
Qed.
Lemma idx_delete_wf k m : idx_wf m → idx_wf (delete k m).
Proof. intros Hwf k' ids. rewrite lookup_delete. case_decide; [done|]. apply Hwf. Qed.
Lemma idx_empty_wf : idx_wf ∅.
Proof. intros k ids. by rewrite lookup_empty. Qed.
Lemma elem_of_idx_delete k m k' x' :
  x' ∈ idx_get (delete k m) k' ↔ x' ∈ idx_get m k' ∧ k' ≠ k.
Proof.
  unfold idx_get. rewrite lookup_delete. case_decide; subst; simpl; set_solver.
Qed.
Lemma idx_get_empty k : idx_get (∅ : gmap K (gset X)) k = ∅.
Proof. done. Qed.
End index.

Create HintDb indexify.
#[export] Hint Resolve idx_insert_wf idx_remove_wf idx_delete_wf idx_empty_wf : indexify.
#[export] Hint Rewrite @elem_of_idx_insert @elem_of_idx_remove @elem_of_idx_delete : idx.

(** ** Ordered pairs

    [imbl::OrdSet<(u64, ExecutorId)>] and [imbl::OrdSet<(Instant, ContainerId)>]
    iterate in the lexicographic order of the pair. *)
Definition pair_le (p q : Z * string) : Prop :=
  p.1 < q.1 ∨ (p.1 = q.1 ∧ String.le p.2 q.2).
#[export] Instance pair_le_dec : RelDecision pair_le.
Proof. intros p q. unfold pair_le. apply _. Defined.
#[export] Instance pair_le_trans : Transitive pair_le.
Proof.
  intros [a x] [b y] [c z]; unfold pair_le; simpl.
  intros [?|[-> ?]] [?|[-> ?]]; [left; lia|left; lia|left; lia|right].
  split; [done|]. by transitivity y.
Qed.
#[export] Instance pair_le_total : Total pair_le.
Proof.
  intros [a x] [b y]; unfold pair_le; simpl.
  destruct (Z.lt_trichotomy a b) as [?|[->|?]]; [by left; left| |by right; left].
  destruct (total String.le x y); [left|right]; by right.
Qed.
Definition sorted_elements (X : gset (Z * string)) : list (Z * string) :=
  merge_sort pair_le (elements X).
Lemma elem_of_sorted_elements X p : p ∈ sorted_elements X ↔ p ∈ X.
Proof. unfold sorted_elements. by rewrite merge_sort_Permutation, elem_of_elements. Qed.
Lemma NoDup_sorted_elements X : NoDup (sorted_elements X).
Proof. unfold sorted_elements. rewrite merge_sort_Permutation. apply NoDup_elements. Qed.
Lemma StronglySorted_sorted_elements X : StronglySorted pair_le (sorted_elements X).
Proof. apply StronglySorted_merge_sort; apply _. Qed.

(** ** Loops

    Invariants of left folds, the shape of every [for] loop below. *)
Lemma foldl_ind {A B} (P : A → Prop) (f : A → B → A) l a :
  P a → (∀ a b, b ∈ l → P a → P (f a b)) → P (foldl f a l).
Proof.
  revert a. induction l as [|b l IH]; intros a Ha Hf; simpl; [done|].
  apply IH; [apply Hf; set_solver|]. intros; apply Hf; set_solver.
Qed.
(** An invariant that also tracks which elements are already processed. *)
Lemma foldl_ind_prefix {A B} (P : list B → A → Prop) (f : A → B → A) l a :
  P [] a → (∀ pre b a, (∃ post, l = pre ++ b :: post) → P pre a → P (pre ++ [b]) (f a b)) →
  P l (foldl f a l).
Proof.
  intros H0 Hs.
  cut (∀ l2 l1 a, l = l1 ++ l2 → P l1 a → P l (foldl f a l2)).
  { intros Hc. by apply (Hc l []). }
  induction l2 as [|b l2 IH]; intros l1 a' Hl Ha; simpl.
  - by rewrite Hl, app_nil_r.
  - apply (IH (l1 ++ [b])); [by rewrite <-app_assoc|]. apply Hs; eauto.
Qed.

(** A field of the state of a loop that only depends on itself. *)
Lemma foldl_proj {A B C} (p : A → C) (g : A → B → A) (h : C → B → C) l a :
  (∀ a b, p (g a b) = h (p a) b) → p (foldl g a l) = foldl h (p a) l.
Proof. intros Hp. revert a. induction l as [|b l IH]; intros a; simpl; [done|]. by rewrite IH, Hp. Qed.
(** A field that the loop does not change. *)
Lemma foldl_keeps {A B C} (p : A → C) (g : A → B → A) l a :
  (∀ a b, p (g a b) = p a) → p (foldl g a l) = p a.
Proof. intros Hp. revert a. induction l as [|b l IH]; intros a; simpl; [done|]. by rewrite IH. Qed.

(** Removing a list of entries from an inverted index. *)
Lemma elem_of_foldl_idx_remove `{Countable K, Countable X} (l : list (K * X)) (m : gmap K (gset X)) k x :
  x ∈ idx_get (foldl (λ m p, idx_remove p.1 p.2 m) m l) k ↔ x ∈ idx_get m k ∧ (k, x) ∉ l.
Proof.
  revert m. induction l as [|[k0 x0] l IH]; intros m; simpl; [set_solver|].
  rewrite IH, elem_of_idx_remove, not_elem_of_cons. simpl. naive_solver.
Qed.
Lemma foldl_idx_remove_all_wf `{Countable K, Countable X} (l : list (K * X)) (m : gmap K (gset X)) :
  idx_wf m → idx_wf (foldl (λ m p, idx_remove p.1 p.2 m) m l).
Proof. intros Hm. apply (foldl_ind idx_wf); auto with indexify. Qed.
#[export] Hint Resolve foldl_idx_remove_all_wf : indexify.

Lemma and_proper_l (P Q R : Prop) : (P → Q ↔ R) → P ∧ Q ↔ P ∧ R.
Proof. tauto. Qed.

(** ** Tactics *)

(** Reduce projections of updated records. *)
Ltac rsimpl := cbn [set_field] in *; simpl in *.
(** Case split on the scrutinee of every [match] of the goal or of [H]. *)
Ltac break_match :=
  match goal with
  | |- context [match ?x with _ => _ end] =>
      lazymatch x with context [match _ with _ => _ end] => fail | _ => destruct x eqn:? end
  end.
Ltac break_match_in H :=
  match type of H with
  | context [match ?x with _ => _ end] =>
      lazymatch x with context [match _ with _ => _ end] => fail | _ => destruct x eqn:? end
  end.
(** Membership goals over inverted indexes. *)
Ltac idx_solver := autorewrite with idx in *; naive_solver.

Lemma length_omap_le {A B} (f : A → option B) l : (length (omap f l) ≤ length l)%nat.
Proof. induction l as [|x l IH]; [done|]. cbn. destruct (f x); cbn; lia. Qed.

(** ** Strings *)

Lemma string_app_assoc (a b c : string) : ((a +:+ b) +:+ c = a +:+ (b +:+ c))%string.
Proof. induction a as [|x a IH]; [done|]. exact (f_equal (String x) IH). Qed.
