(* ===== verification/DataModel.v ===== *)
(** * Data model

    The records and enumerations of [crates/server/src/data_model/mod.rs], the
    executor catalog entry of [config.rs] and the profile and histogram types of
    [state_store/in_memory_state.rs].  Newtypes over [String] are strings (the
    bytes of the UTF-8 text); [u32], [u64] and [u128] fields are [Z]; [HashMap]
    and [HashSet] fields are [gmap] and [gset]; [tokio::time::Instant] is a [Z]
    of nanoseconds; [bytes::Bytes] is the string of its bytes and [JsonValue] is
    the JSON text it serialises to. *)
From S2P Require Import Prelude.

Notation ExecutorId := string (only parsing).
Notation ContainerId := string (only parsing).
Notation AllocationId := string (only parsing).
Notation FunctionCallId := string (only parsing).
Notation SandboxId := string (only parsing).
Notation SandboxKey := string (only parsing).
Notation SnapshotId := string (only parsing).
Notation ContainerPoolId := string (only parsing).
Notation RequestCtxKey := string (only parsing).
Notation FunctionRunKey := string (only parsing).
Notation JsonValue := string (only parsing).
Notation Bytes := string (only parsing).
Notation Instant := Z (only parsing).

(** ** Resources *)

Record GPUResources := MkGPU { gpu_count : Z; gpu_model : string }.

Record FunctionResources := MkFunctionResources {
  fres_cpu_ms_per_sec : Z;
  fres_memory_mb : Z;
  fres_ephemeral_disk_mb : Z;
  fres_gpu_configs : list GPUResources;
}.

Record HostResources := MkHostResources {
  host_cpu_ms_per_sec : Z;
  host_memory_bytes : Z;
  host_disk_bytes : Z;
  host_gpu : option GPUResources;
}.

Record ContainerResources := MkContainerResources {
  cres_cpu_ms_per_sec : Z;
  cres_memory_mb : Z;
  cres_ephemeral_disk_mb : Z;
  cres_gpu : option GPUResources;
}.

(** [config::GpuModel] and [config::ExecutorCatalogEntry]. *)
Record GpuModel := MkGpuModel { catalog_gpu_name : string; catalog_gpu_count : Z }.
Record ExecutorCatalogEntry := MkCatalogEntry {
  cat_name : string;
  cat_cpu_cores : Z;
  cat_memory_gb : Z;
  cat_disk_gb : Z;
  cat_gpu_model : option GpuModel;
  cat_labels : gmap string string;
}.

(** ** Functions and applications *)

Inductive Operator := OpEq | OpNeq.
Record Expression := MkExpression { expr_key : string; expr_value : string; expr_operator : Operator }.
Notation LabelsFilter := (list Expression) (only parsing).

Record FunctionRetryPolicy := MkFunctionRetryPolicy {
  retry_max_retries : Z;
  retry_initial_delay_ms : Z;
  retry_max_delay_ms : Z;
  retry_delay_multiplier : Z;
}.

Record ParameterMetadata := MkParameterMetadata {
  param_name : string;
  param_description : option string;
  param_required : bool;
  param_data_type : JsonValue;
}.

Record Function_ := MkFunction {
  fn_name : string;
  fn_description : string;
  fn_placement_constraints : LabelsFilter;
  fn_input_encoder : string;
  fn_output_encoder : string;
  fn_secret_names : option (list string);
  fn_initialization_timeout : Z;
  fn_timeout : Z;
  fn_resources : FunctionResources;
  fn_retry_policy : FunctionRetryPolicy;
  fn_cache_key : option string;
  fn_parameters : list ParameterMetadata;
  fn_return_type : option JsonValue;
  fn_max_concurrency : Z;
  fn_min_containers : option Z;
  fn_max_containers : option Z;
  fn_warm_containers : option Z;
}.

Inductive ApplicationState := AppActive | AppDisabled (reason : string).

Record DataPayload := MkDataPayload {
  dp_id : string;
  dp_path : string;
  dp_metadata_size : Z;
  dp_offset : Z;
  dp_size : Z;
  dp_sha256_hash : string;
  dp_encoding : string;
}.

Record ApplicationEntryPoint := MkEntryPoint {
  ep_function_name : string;
  ep_input_serializer : string;
  ep_inputs_base64 : string;
  ep_output_serializer : string;
  ep_output_type_hints_base64 : string;
}.

Record Application := MkApplication {
  app_namespace : string;
  app_name : string;
  app_tombstoned : bool;
  app_description : string;
  app_tags : gmap string string;
  app_created_at : Z;
  app_version : string;
  app_code : option DataPayload;
  app_functions : gmap string Function_;
  app_state : ApplicationState;
  app_created_at_clock : option Z;
  app_updated_at_clock : option Z;
  app_entrypoint : option ApplicationEntryPoint;
}.

Record ApplicationVersion := MkApplicationVersion {
  av_namespace : string;
  av_name : string;
  av_created_at : Z;
  av_version : string;
  av_code : option DataPayload;
  av_entrypoint : option ApplicationEntryPoint;
  av_functions : gmap string Function_;
  av_edges : gmap string (list string);
  av_state : ApplicationState;
  av_created_at_clock : option Z;
  av_updated_at_clock : option Z;
}.

(** ** Requests, function calls and runs *)

Inductive FunctionRunFailureReason :=
| FRF_Unknown
| FRF_InternalError
| FRF_FunctionError
| FRF_FunctionTimeout
| FRF_RequestError
| FRF_FunctionRunCancelled
| FRF_FunctionExecutorTerminated
| FRF_ConstraintUnsatisfiable
| FRF_ExecutorRemoved
| FRF_ContainerStartupFunctionError
| FRF_ContainerStartupFunctionTimeout
| FRF_ContainerStartupInternalError
| FRF_OutOfMemory
| FRF_ContainerStartupBadImage.

Inductive FunctionRunOutcome :=
| FRO_Unknown
| FRO_Success
| FRO_Failure (reason : FunctionRunFailureReason).

Inductive RequestFailureReason :=
| RF_Unknown
| RF_InternalError
| RF_FunctionError
| RF_FunctionTimeout
| RF_RequestError
| RF_ConstraintUnsatisfiable
| RF_Cancelled
| RF_OutOfMemory.

Inductive RequestOutcome :=
| RO_Unknown
| RO_Success
| RO_Failure (reason : RequestFailureReason).

(** [FunctionRunStatus]; [Running] carries [RunningFunctionRunStatus]. *)
Inductive FunctionRunStatus :=
| FRS_Pending
| FRS_Running (allocation_id : AllocationId)
| FRS_Completed.

Record InputArgs := MkInputArgs {
  ia_function_call_id : option FunctionCallId;
  ia_data_payload : DataPayload;
}.

Inductive FunctionArgs :=
| FA_FunctionRunOutput (id : FunctionCallId)
| FA_DataPayload (payload : DataPayload).

Record FunctionCall := MkFunctionCall {
  fc_function_call_id : FunctionCallId;
  fc_inputs : list FunctionArgs;
  fc_fn_name : string;
  fc_call_metadata : Bytes;
  fc_parent_function_call_id : option FunctionCallId;
}.

Record ReduceOperation := MkReduceOperation {
  ro_function_call_id : FunctionCallId;
  ro_collection : list FunctionArgs;
  ro_fn_name : string;
  ro_call_metadata : Bytes;
}.

Inductive ComputeOp :=
| CO_Reduce (op : ReduceOperation)
| CO_FunctionCall (call : FunctionCall).

Record FunctionRun := MkFunctionRun {
  fr_id : FunctionCallId;
  fr_request_id : string;
  fr_namespace : string;
  fr_application : string;
  fr_version : string;
  fr_name : string;
  fr_compute_op : ComputeOp;
  fr_input_args : list InputArgs;
  fr_child_function_call : option FunctionCallId;
  fr_output : option DataPayload;
  fr_status : FunctionRunStatus;
  fr_cache_hit : bool;
  fr_outcome : option FunctionRunOutcome;
  fr_attempt_number : Z;
  fr_creation_time_ns : Z;
  fr_created_at_clock : option Z;
  fr_updated_at_clock : option Z;
  fr_call_metadata : Bytes;
  fr_request_error : option DataPayload;
}.

Record AllocationTarget := MkAllocationTarget {
  at_executor_id : ExecutorId;
  at_container_id : ContainerId;
}.

Record Allocation := MkAllocation {
  al_id : AllocationId;
  al_target : AllocationTarget;
  al_function_call_id : FunctionCallId;
  al_namespace : string;
  al_application : string;
  al_application_version : string;
  al_function : string;
  al_request_id : string;
  al_created_at : Z;
  al_outcome : FunctionRunOutcome;
  al_attempt_number : Z;
  al_execution_duration_ms : option Z;
  al_input_args : list InputArgs;
  al_vector_clock : Z;
  al_call_metadata : Bytes;
}.

Record RequestError := MkRequestError {
  re_function_name : string;
  re_payload : DataPayload;
}.

(** [RequestCtx.child_function_calls] is never filled outside deserialisation
    and [from_persisted] resets it, so it is not carried. *)
Record RequestCtx := MkRequestCtx {
  rc_namespace : string;
  rc_application_name : string;
  rc_application_version : string;
  rc_request_id : string;
  rc_outcome : option RequestOutcome;
  rc_created_at : Z;
  rc_request_error : option RequestError;
  rc_created_at_clock : option Z;
  rc_updated_at_clock : option Z;
  rc_function_runs : gmap FunctionCallId FunctionRun;
  rc_function_calls : gmap FunctionCallId FunctionCall;
}.

Record GraphUpdates := MkGraphUpdates {
  gu_graph_updates : list ComputeOp;
  gu_output_function_call_id : FunctionCallId;
}.

Record AllocationOutputIngestedEvent := MkAllocationOutputIngestedEvent {
  ao_namespace : string;
  ao_application : string;
  ao_function : string;
  ao_request_id : string;
  ao_function_call_id : FunctionCallId;
  ao_data_payload : option DataPayload;
  ao_graph_updates : option GraphUpdates;
  ao_request_exception : option DataPayload;
  ao_allocation_id : AllocationId;
  ao_allocation_target : AllocationTarget;
  ao_allocation_outcome : FunctionRunOutcome;
  ao_execution_duration_ms : option Z;
}.

Record FunctionCallEvent := MkFunctionCallEvent {
  fce_namespace : string;
  fce_application : string;
  fce_request_id : string;
  fce_source_function_call_id : FunctionCallId;
  fce_graph_updates : GraphUpdates;
}.

(** ** Containers *)

Inductive ContainerTerminationReason :=
| CTR_Unknown
| CTR_StartupFailedInternalError
| CTR_StartupFailedFunctionError
| CTR_StartupFailedFunctionTimeout
| CTR_Unhealthy
| CTR_InternalError
| CTR_FunctionError
| CTR_FunctionTimeout
| CTR_FunctionCancelled
| CTR_DesiredStateRemoved
| CTR_ExecutorRemoved
| CTR_Oom
| CTR_ProcessCrash
| CTR_StartupFailedBadImage.

Inductive ContainerState :=
| CS_Unknown
| CS_Pending
| CS_Running
| CS_Terminated (reason : ContainerTerminationReason).

Inductive ContainerType := CT_Sandbox | CT_Function.

Record NetworkPolicy := MkNetworkPolicy {
  np_allow_internet_access : bool;
  np_allow_out : list string;
  np_deny_out : list string;
}.

Record Container := MkContainer {
  ctr_id : ContainerId;
  ctr_namespace : string;
  ctr_application_name : string;
  ctr_function_name : string;
  ctr_version : string;
  ctr_state : ContainerState;
  ctr_resources : ContainerResources;
  ctr_max_concurrency : Z;
  ctr_container_type : ContainerType;
  ctr_image : option string;
  ctr_secret_names : list string;
  ctr_timeout_secs : Z;
  ctr_entrypoint : list string;
  ctr_network_policy : option NetworkPolicy;
  ctr_sandbox_id : option SandboxId;
  ctr_pool_id : option ContainerPoolId;
  ctr_snapshot_uri : option string;
  ctr_created_at_clock : option Z;
  ctr_updated_at_clock : option Z;
}.

Record ContainerServerMetadata := MkContainerServerMetadata {
  csm_executor_id : ExecutorId;
  csm_function_container : Container;
  csm_desired_state : ContainerState;
  csm_container_type : ContainerType;
  csm_allocations : gset AllocationId;
  csm_idle_since : option Instant;
}.

Record FunctionURI := MkFunctionURI {
  uri_namespace : string;
  uri_application : string;
  uri_function : string;
  uri_version : string;
}.

(** ** Executors *)

Inductive ExecutorState := ES_Unknown | ES_StartingUp | ES_Running | ES_Drained | ES_Stopped.

Record FunctionAllowlist := MkFunctionAllowlist {
  fa_namespace : option string;
  fa_application : option string;
  fa_function : option string;
}.

Record ExecutorMetadata := MkExecutorMetadata {
  em_id : ExecutorId;
  em_executor_version : string;
  em_function_allowlist : option (list FunctionAllowlist);
  em_addr : string;
  em_labels : gmap string string;
  em_containers : gmap ContainerId Container;
  em_host_resources : HostResources;
  em_state : ExecutorState;
  em_tombstoned : bool;
  em_state_hash : string;
  em_clock : Z;
  em_catalog_name : option string;
  em_created_at_clock : option Z;
  em_updated_at_clock : option Z;
  em_proxy_address : option string;
}.

Record ExecutorServerMetadata := MkExecutorServerMetadata {
  esm_executor_id : ExecutorId;
  esm_function_container_ids : gset ContainerId;
  esm_free_resources : HostResources;
  esm_resource_claims : gmap ContainerId ContainerResources;
}.

(** ** Pools and sandboxes *)

Record ContainerPoolKey := MkContainerPoolKey {
  cpk_namespace : string;
  cpk_pool_id : ContainerPoolId;
}.

Inductive ContainerPoolType := CPT_Function | CPT_Sandbox.

Record ContainerPool := MkContainerPool {
  cp_id : ContainerPoolId;
  cp_namespace : string;
  cp_pool_type : ContainerPoolType;
  cp_image : string;
  cp_resources : ContainerResources;
  cp_entrypoint : option (list string);
  cp_network_policy : option NetworkPolicy;
  cp_secret_names : list string;
  cp_timeout_secs : Z;
  cp_min_containers : option Z;
  cp_max_containers : option Z;
  cp_buffer_containers : option Z;
  cp_created_at : Z;
  cp_tombstoned : bool;
  cp_created_at_clock : option Z;
  cp_updated_at_clock : option Z;
  cp_allow_unauthenticated_access : bool;
  cp_exposed_ports : option (list Z);
}.

Inductive SandboxPendingReason :=
| SPR_Scheduling | SPR_WaitingForContainer | SPR_NoExecutorsAvailable
| SPR_NoResourcesAvailable | SPR_PoolAtCapacity.
Inductive SandboxStatus :=
| SS_Pending (reason : SandboxPendingReason)
| SS_Running
| SS_Terminated
| SS_Snapshotting (snapshot_id : SnapshotId).
Inductive SandboxSuccessReason := SSR_Unknown | SSR_UserTerminated | SSR_Timeout.
Inductive SandboxFailureReason :=
| SFR_Unknown | SFR_InternalError | SFR_Reserved | SFR_ConstraintUnsatisfiable
| SFR_ExecutorRemoved | SFR_OutOfMemory | SFR_ContainerStartupFailed
| SFR_ContainerTerminated (reason : ContainerTerminationReason) | SFR_PoolDeleted.
Inductive SandboxOutcome :=
| SO_Unknown | SO_Success (reason : SandboxSuccessReason) | SO_Failure (reason : SandboxFailureReason).

Record Sandbox := MkSandbox {
  sb_id : SandboxId;
  sb_namespace : string;
  sb_image : string;
  sb_status : SandboxStatus;
  sb_outcome : option SandboxOutcome;
  sb_creation_time_ns : Z;
  sb_created_at_clock : option Z;
  sb_updated_at_clock : option Z;
  sb_resources : ContainerResources;
  sb_secret_names : list string;
  sb_timeout_secs : Z;
  sb_allow_unauthenticated_access : bool;
  sb_executor_id : option ExecutorId;
  sb_entrypoint : option (list string);
  sb_network_policy : option NetworkPolicy;
  sb_pool_id : option ContainerPoolId;
  sb_container_id : option ContainerId;
  sb_snapshot_id : option SnapshotId;
  sb_exposed_ports : option (list Z);
}.

Inductive SnapshotStatus := SnapInProgress | SnapCompleted | SnapFailed (error : string).
Record Snapshot := MkSnapshot {
  snap_id : SnapshotId;
  snap_namespace : string;
  snap_sandbox_id : SandboxId;
  snap_base_image : string;
  snap_status : SnapshotStatus;
  snap_uri : option string;
  snap_size_bytes : option Z;
  snap_creation_time_ns : Z;
  snap_resources : ContainerResources;
  snap_entrypoint : option (list string);
  snap_secret_names : list string;
  snap_upload_uri : option string;
}.

(** ** Decidable equality and countability *)

#[export] Instance GPUResources_eq_dec : EqDecision GPUResources.
Proof. solve_decision. Defined.
#[export] Instance ContainerResources_eq_dec : EqDecision ContainerResources.
Proof. solve_decision. Defined.
#[export] Instance HostResources_eq_dec : EqDecision HostResources.
Proof. solve_decision. Defined.
#[export] Instance Operator_eq_dec : EqDecision Operator.
Proof. solve_decision. Defined.
#[export] Instance Expression_eq_dec : EqDecision Expression.
Proof. solve_decision. Defined.
#[export] Instance FunctionRunFailureReason_eq_dec : EqDecision FunctionRunFailureReason.
Proof. solve_decision. Defined.
#[export] Instance FunctionRunOutcome_eq_dec : EqDecision FunctionRunOutcome.
Proof. solve_decision. Defined.
#[export] Instance RequestFailureReason_eq_dec : EqDecision RequestFailureReason.
Proof. solve_decision. Defined.
#[export] Instance RequestOutcome_eq_dec : EqDecision RequestOutcome.
Proof. solve_decision. Defined.
#[export] Instance FunctionRunStatus_eq_dec : EqDecision FunctionRunStatus.
Proof. solve_decision. Defined.
#[export] Instance ContainerTerminationReason_eq_dec : EqDecision ContainerTerminationReason.
Proof. solve_decision. Defined.
#[export] Instance ContainerState_eq_dec : EqDecision ContainerState.
Proof. solve_decision. Defined.
#[export] Instance ContainerType_eq_dec : EqDecision ContainerType.
Proof. solve_decision. Defined.
#[export] Instance ContainerPoolType_eq_dec : EqDecision ContainerPoolType.
Proof. solve_decision. Defined.
#[export] Instance AllocationTarget_eq_dec : EqDecision AllocationTarget.
Proof. solve_decision. Defined.
#[export] Instance DataPayload_eq_dec : EqDecision DataPayload.
Proof. solve_decision. Defined.

#[export] Instance FunctionURI_eq_dec : EqDecision FunctionURI.
Proof. solve_decision. Defined.
#[export] Instance FunctionURI_countable : Countable FunctionURI.
Proof.
  apply (inj_countable' (λ u, (uri_namespace u, uri_application u, uri_function u, uri_version u))
    (λ '(a, b, c, d), MkFunctionURI a b c d)). by intros [].
Defined.
#[export] Instance ContainerPoolKey_eq_dec : EqDecision ContainerPoolKey.
Proof. solve_decision. Defined.
#[export] Instance ContainerPoolKey_countable : Countable ContainerPoolKey.
Proof.
  apply (inj_countable' (λ k, (cpk_namespace k, cpk_pool_id k))
    (λ '(a, b), MkContainerPoolKey a b)). by intros [].
Defined.
#[export] Instance FunctionAllowlist_eq_dec : EqDecision FunctionAllowlist.
Proof. solve_decision. Defined.
#[export] Instance FunctionAllowlist_countable : Countable FunctionAllowlist.
Proof.
  apply (inj_countable' (λ k, (fa_namespace k, fa_application k, fa_function k))
    (λ '(a, b, c), MkFunctionAllowlist a b c)). by intros [].
Defined.

(** ** Updatable records *)

#[export] Instance eta_GPUResources : Eta GPUResources := λ r, MkGPU (gpu_count r) (gpu_model r).
#[export] Instance eta_HostResources : Eta HostResources := λ r,
  MkHostResources (host_cpu_ms_per_sec r) (host_memory_bytes r) (host_disk_bytes r) (host_gpu r).
#[export] Instance eta_ContainerResources : Eta ContainerResources := λ r,
  MkContainerResources (cres_cpu_ms_per_sec r) (cres_memory_mb r) (cres_ephemeral_disk_mb r) (cres_gpu r).
#[export] Instance eta_FunctionRun : Eta FunctionRun := λ r,
  MkFunctionRun (fr_id r) (fr_request_id r) (fr_namespace r) (fr_application r) (fr_version r)
    (fr_name r) (fr_compute_op r) (fr_input_args r) (fr_child_function_call r) (fr_output r)
    (fr_status r) (fr_cache_hit r) (fr_outcome r) (fr_attempt_number r) (fr_creation_time_ns r)
    (fr_created_at_clock r) (fr_updated_at_clock r) (fr_call_metadata r) (fr_request_error r).
#[export] Instance eta_Allocation : Eta Allocation := λ r,
  MkAllocation (al_id r) (al_target r) (al_function_call_id r) (al_namespace r) (al_application r)
    (al_application_version r) (al_function r) (al_request_id r) (al_created_at r) (al_outcome r)
    (al_attempt_number r) (al_execution_duration_ms r) (al_input_args r) (al_vector_clock r)
    (al_call_metadata r).
#[export] Instance eta_FunctionCall : Eta FunctionCall := λ r,
  MkFunctionCall (fc_function_call_id r) (fc_inputs r) (fc_fn_name r) (fc_call_metadata r)
    (fc_parent_function_call_id r).
#[export] Instance eta_RequestCtx : Eta RequestCtx := λ r,
  MkRequestCtx (rc_namespace r) (rc_application_name r) (rc_application_version r)
    (rc_request_id r) (rc_outcome r) (rc_created_at r) (rc_request_error r)
    (rc_created_at_clock r) (rc_updated_at_clock r) (rc_function_runs r) (rc_function_calls r).
#[export] Instance eta_Container : Eta Container := λ r,
  MkContainer (ctr_id r) (ctr_namespace r) (ctr_application_name r) (ctr_function_name r)
    (ctr_version r) (ctr_state r) (ctr_resources r) (ctr_max_concurrency r)
    (ctr_container_type r) (ctr_image r) (ctr_secret_names r) (ctr_timeout_secs r)
    (ctr_entrypoint r) (ctr_network_policy r) (ctr_sandbox_id r) (ctr_pool_id r)
    (ctr_snapshot_uri r) (ctr_created_at_clock r) (ctr_updated_at_clock r).
#[export] Instance eta_ContainerServerMetadata : Eta ContainerServerMetadata := λ r,
  MkContainerServerMetadata (csm_executor_id r) (csm_function_container r) (csm_desired_state r)
    (csm_container_type r) (csm_allocations r) (csm_idle_since r).
#[export] Instance eta_ExecutorMetadata : Eta ExecutorMetadata := λ r,
  MkExecutorMetadata (em_id r) (em_executor_version r) (em_function_allowlist r) (em_addr r)
    (em_labels r) (em_containers r) (em_host_resources r) (em_state r) (em_tombstoned r)
    (em_state_hash r) (em_clock r) (em_catalog_name r) (em_created_at_clock r)
    (em_updated_at_clock r) (em_proxy_address r).
#[export] Instance eta_ExecutorServerMetadata : Eta ExecutorServerMetadata := λ r,
  MkExecutorServerMetadata (esm_executor_id r) (esm_function_container_ids r)
    (esm_free_resources r) (esm_resource_claims r).
#[export] Instance eta_Application : Eta Application := λ r,
  MkApplication (app_namespace r) (app_name r) (app_tombstoned r) (app_description r)
    (app_tags r) (app_created_at r) (app_version r) (app_code r) (app_functions r)
    (app_state r) (app_created_at_clock r) (app_updated_at_clock r) (app_entrypoint r).

(** ** Conversions and classifications of outcomes *)

(** [From<&FunctionRunFailureReason> for RequestFailureReason]. *)
Definition request_failure_reason_from (r : FunctionRunFailureReason) : RequestFailureReason :=
  match r with
  | FRF_Unknown => RF_Unknown
  | FRF_InternalError => RF_InternalError
  | FRF_FunctionError => RF_FunctionError
  | FRF_ContainerStartupFunctionError => RF_FunctionError
  | FRF_ContainerStartupFunctionTimeout => RF_FunctionTimeout
  | FRF_ContainerStartupInternalError => RF_InternalError
  | FRF_FunctionTimeout => RF_FunctionTimeout
  | FRF_RequestError => RF_RequestError
  | FRF_FunctionRunCancelled => RF_Cancelled
  | FRF_FunctionExecutorTerminated | FRF_ExecutorRemoved => RF_InternalError
  | FRF_ConstraintUnsatisfiable => RF_ConstraintUnsatisfiable
  | FRF_OutOfMemory => RF_OutOfMemory
  | FRF_ContainerStartupBadImage => RF_InternalError
  end.

(** [From<FunctionRunOutcome> for RequestOutcome]. *)
Definition request_outcome_from (o : FunctionRunOutcome) : RequestOutcome :=
  match o with
  | FRO_Success => RO_Success
  | FRO_Failure r => RO_Failure (request_failure_reason_from r)
  | FRO_Unknown => RO_Unknown
  end.

(** [From<&ContainerTerminationReason> for FunctionRunFailureReason]. *)
Definition failure_reason_from_termination (r : ContainerTerminationReason)
    : FunctionRunFailureReason :=
  match r with
  | CTR_Unknown => FRF_FunctionExecutorTerminated
  | CTR_StartupFailedInternalError => FRF_ContainerStartupInternalError
  | CTR_StartupFailedFunctionError => FRF_ContainerStartupFunctionError
  | CTR_StartupFailedFunctionTimeout => FRF_ContainerStartupFunctionTimeout
  | CTR_StartupFailedBadImage => FRF_ContainerStartupBadImage
  | CTR_Unhealthy => FRF_FunctionTimeout
  | CTR_InternalError => FRF_InternalError
  | CTR_FunctionError => FRF_FunctionError
  | CTR_FunctionTimeout => FRF_FunctionTimeout
  | CTR_FunctionCancelled => FRF_FunctionRunCancelled
  | CTR_DesiredStateRemoved => FRF_FunctionExecutorTerminated
  | CTR_ExecutorRemoved => FRF_ExecutorRemoved
  | CTR_Oom => FRF_OutOfMemory
  | CTR_ProcessCrash => FRF_FunctionError
  end.

(** [FunctionRunFailureReason::is_retriable]. *)
Definition is_retriable (r : FunctionRunFailureReason) : bool :=
  match r with
  | FRF_InternalError | FRF_FunctionError | FRF_FunctionTimeout
  | FRF_FunctionExecutorTerminated | FRF_ExecutorRemoved | FRF_OutOfMemory
  | FRF_ContainerStartupFunctionError | FRF_ContainerStartupFunctionTimeout
  | FRF_ContainerStartupInternalError => true
  | _ => false
  end.

(** [FunctionRunFailureReason::should_count_against_function_run_retry_attempts]. *)
Definition should_count_against_function_run_retry_attempts
    (r : FunctionRunFailureReason) : bool :=
  match r with
  | FRF_InternalError | FRF_FunctionError | FRF_FunctionTimeout | FRF_OutOfMemory
  | FRF_ContainerStartupFunctionError | FRF_ContainerStartupFunctionTimeout
  | FRF_ContainerStartupInternalError => true
  | _ => false
  end.

(** [Allocation::is_terminal]. *)
Definition allocation_is_terminal (a : Allocation) : bool :=
  match al_outcome a with FRO_Success | FRO_Failure _ => true | FRO_Unknown => false end.

(** [matches!(state, ContainerState::Terminated { .. })]. *)
Definition is_terminated (st : ContainerState) : bool :=
  match st with CS_Terminated _ => true | _ => false end.

(** ** Keys of containers and pools *)

(** [From<&Container> for FunctionURI]. *)
Definition function_uri_of_container (c : Container) : FunctionURI :=
  MkFunctionURI (ctr_namespace c) (ctr_application_name c) (ctr_function_name c) (ctr_version c).
(** [From<&FunctionRun> for FunctionURI]. *)
Definition function_uri_of_run (r : FunctionRun) : FunctionURI :=
  MkFunctionURI (fr_namespace r) (fr_application r) (fr_name r) (fr_version r).
(** [From<&ContainerPool> for ContainerPoolKey]. *)
Definition pool_key_of_pool (p : ContainerPool) : ContainerPoolKey :=
  MkContainerPoolKey (cp_namespace p) (cp_id p).
(** [Container::pool_key]. *)
Definition container_pool_key (c : Container) : option ContainerPoolKey :=
  (λ pid, MkContainerPoolKey (ctr_namespace c) pid) <$> ctr_pool_id c.
(** [ContainerPool::is_function_pool]. *)
Definition is_function_pool (p : ContainerPool) : bool :=
  bool_decide (cp_pool_type p = CPT_Function).
(** [ContainerPoolId::for_function]: [{app}|{fn}|{ver}]. *)
Definition for_function (app function version : string) : ContainerPoolId :=
  (app +:+ "|" +:+ function +:+ "|" +:+ version)%string.
(** [ContainerPool::DEFAULT_MAX_CONTAINERS]. *)
Definition DEFAULT_MAX_CONTAINERS : Z := 10.
(** [ContainerPool::from_function]; [now] is the creation time in milliseconds. *)
Definition pool_from_function (namespace app_name version : string) (f : Function_) (now : Z)
    : ContainerPool :=
  MkContainerPool (for_function app_name (fn_name f) version) namespace CPT_Function ""
    (MkContainerResources (fres_cpu_ms_per_sec (fn_resources f)) (fres_memory_mb (fn_resources f))
       (fres_ephemeral_disk_mb (fn_resources f)) (head (fres_gpu_configs (fn_resources f))))
    None None (default [] (fn_secret_names f)) (fn_timeout f / 1000) (fn_min_containers f)
    (Some (default DEFAULT_MAX_CONTAINERS (fn_max_containers f))) (fn_warm_containers f) now false
    None None false None.
(** [ContainerServerMetadata::can_be_removed]. *)
Definition can_be_removed (m : ContainerServerMetadata) : bool :=
  bool_decide (csm_container_type m = CT_Function) && bool_decide (csm_allocations m = ∅).

(** ** Labels, allowlists *)

(** [LabelsFilter::matches]. *)
Definition labels_match (f : LabelsFilter) (values : gmap string string) : bool :=
  forallb (λ e,
    match values !! expr_key e with
    | Some v =>
        match expr_operator e with
        | OpEq => bool_decide (v = expr_value e)
        | OpNeq => negb (bool_decide (v = expr_value e))
        end
    | None => false
    end) f.

Definition is_none_or {A} (p : A → bool) (o : option A) : bool :=
  match o with Some a => p a | None => true end.
Definition is_some_and {A} (p : A → bool) (o : option A) : bool :=
  match o with Some a => p a | None => false end.

(** [FunctionAllowlist::matches_function]. *)
Definition matches_function (a : FunctionAllowlist) (ns app : string) (f : Function_) : bool :=
  is_none_or (λ n, bool_decide (n = ns)) (fa_namespace a) &&
  is_none_or (λ n, bool_decide (n = app)) (fa_application a) &&
  is_none_or (λ n, bool_decide (n = fn_name f)) (fa_function a).

(** [ExecutorMetadata::is_function_allowed]. *)
Definition is_function_allowed (e : ExecutorMetadata) (ns app : string) (f : Function_) : bool :=
  match em_function_allowlist e with
  | Some l => existsb (λ a, matches_function a ns app f) l
  | None => true
  end.

(** [ExecutorMetadata::is_namespace_allowed]. *)
Definition is_namespace_allowed (e : ExecutorMetadata) (ns : string) : bool :=
  match em_function_allowlist e with
  | Some l => existsb (λ a, is_some_and (λ n, bool_decide (n = ns)) (fa_namespace a)) l
  | None => true
  end.

(** A failure that is retried without using an attempt is an infrastructure
    failure, and every failure that uses an attempt is retriable. *)
Lemma counted_is_retriable r :
  should_count_against_function_run_retry_attempts r = true → is_retriable r = true.
Proof. by destruct r. Qed.
