(* ===== verification/Resources.v ===== *)
(** * Resource accounting

    [HostResources], [ExecutorServerMetadata] and the catalog check of
    [crates/server/src/data_model/mod.rs]: what an executor has free, the claim
    each container holds on it, and which workloads fit. *)
From S2P Require Import Prelude DataModel.

(** The error messages of the resource checks, with the values they print. *)
Inductive ResourceError :=
| NotEnoughCpu (available requested : Z)
| NotEnoughMemory (available requested : Z)
| NotEnoughDisk (available requested : Z)
| NotEnoughGpu (available requested : GPUResources)
| NoGpuAvailable (requested : GPUResources)
| NoGpuConfigFits (requested : list GPUResources) (available : option GPUResources)
| GpuModelMismatch (available allocated : string)
| NoGpuToFree.

(** [x * 1024 * 1024] on [u64], as the source writes it. *)
Definition mb_to_bytes (mb : Z) : Z := wrap64 (wrap64 (mb * 1024) * 1024).

(** [GPUResources::can_handle]. *)
Definition gpu_can_handle (avail req : GPUResources) : bool :=
  bool_decide (gpu_count req ≤ gpu_count avail) && bool_decide (gpu_model avail = gpu_model req).

(** [HostResources::can_handle_gpu]. *)
Definition can_handle_gpu (h : HostResources) (req : option GPUResources)
    : result ResourceError unit :=
  match req with
  | Some g =>
      match host_gpu h with
      | Some a => if gpu_can_handle a g then Ok tt else Err (NotEnoughGpu a g)
      | None => Err (NoGpuAvailable g)
      end
  | None => Ok tt
  end.

(** [HostResources::can_handle_fe_resources]. *)
Definition can_handle_fe_resources (h : HostResources) (r : ContainerResources)
    : result ResourceError unit :=
  let mem := mb_to_bytes (cres_memory_mb r) in
  let disk := mb_to_bytes (cres_ephemeral_disk_mb r) in
  if bool_decide (host_cpu_ms_per_sec h < cres_cpu_ms_per_sec r)
  then Err (NotEnoughCpu (host_cpu_ms_per_sec h) (cres_cpu_ms_per_sec r))
  else if bool_decide (host_memory_bytes h < mem)
  then Err (NotEnoughMemory (host_memory_bytes h) mem)
  else if bool_decide (host_disk_bytes h < disk)
  then Err (NotEnoughDisk (host_disk_bytes h) disk)
  else can_handle_gpu h (cres_gpu r).

(** The container resources of a function request, without a GPU. *)
Definition fe_resources_no_gpu (f : FunctionResources) : ContainerResources :=
  MkContainerResources (fres_cpu_ms_per_sec f) (fres_memory_mb f) (fres_ephemeral_disk_mb f) None.

(** The loop of [can_handle_function_resources]: [result] is overwritten by each
    configuration and the first success returns. *)
Fixpoint can_handle_gpu_configs (h : HostResources) (base : ContainerResources)
    (res : result ResourceError unit) (gpus : list GPUResources) : result ResourceError unit :=
  match gpus with
  | [] => res
  | g :: gpus =>
      match can_handle_fe_resources h (base <| cres_gpu := Some g |>) with
      | Ok _ => Ok tt
      | Err e => can_handle_gpu_configs h base (Err e) gpus
      end
  end.

(** [HostResources::can_handle_function_resources]. *)
Definition can_handle_function_resources (h : HostResources) (f : FunctionResources)
    : result ResourceError unit :=
  let base := fe_resources_no_gpu f in
  can_handle_gpu_configs h base (can_handle_fe_resources h base) (fres_gpu_configs f).

(** [HostResources::consume_fe_resources]: the receiver and the result. *)
Definition consume_fe_resources (h : HostResources) (r : ContainerResources)
    : HostResources * result ResourceError unit :=
  match can_handle_fe_resources h r with
  | Err e => (h, Err e)
  | Ok _ =>
      let gpu :=
        match cres_gpu r, host_gpu h with
        | Some rg, Some ag => Some (ag <| gpu_count ::= λ c, wrap32 (c - gpu_count rg) |>)
        | _, g => g
        end in
      (MkHostResources
         (wrap32 (host_cpu_ms_per_sec h - cres_cpu_ms_per_sec r))
         (wrap64 (host_memory_bytes h - mb_to_bytes (cres_memory_mb r)))
         (wrap64 (host_disk_bytes h - mb_to_bytes (cres_ephemeral_disk_mb r)))
         gpu, Ok tt)
  end.

(** [HostResources::force_consume_fe_resources]. *)
Definition force_consume_fe_resources (h : HostResources) (r : ContainerResources)
    : HostResources :=
  MkHostResources
    (saturating_sub (host_cpu_ms_per_sec h) (cres_cpu_ms_per_sec r))
    (saturating_sub (host_memory_bytes h) (mb_to_bytes (cres_memory_mb r)))
    (saturating_sub (host_disk_bytes h) (mb_to_bytes (cres_ephemeral_disk_mb r)))
    (match cres_gpu r, host_gpu h with
     | Some rg, Some ag => Some (ag <| gpu_count ::= λ c, saturating_sub c (gpu_count rg) |>)
     | _, g => g
     end).

(** The loop of [consume_function_resources] over the GPU configurations. *)
Fixpoint consume_gpu_configs (h : HostResources) (base : ContainerResources)
    (gpus : list GPUResources) : option (HostResources * ContainerResources) :=
  match gpus with
  | [] => None
  | g :: gpus =>
      let r := base <| cres_gpu := Some g |> in
      match consume_fe_resources h r with
      | (h', Ok _) => Some (h', r)
      | (h', Err _) => consume_gpu_configs h' base gpus
      end
  end.

(** [HostResources::consume_function_resources]. *)
Definition consume_function_resources (h : HostResources) (f : FunctionResources)
    : HostResources * result ResourceError ContainerResources :=
  let base := fe_resources_no_gpu f in
  if bool_decide (fres_gpu_configs f = [])
  then match consume_fe_resources h base with
       | (h', Ok _) => (h', Ok base)
       | (h', Err e) => (h', Err e)
       end
  else match consume_gpu_configs h base (fres_gpu_configs f) with
       | Some (h', r) => (h', Ok r)
       | None => (h, Err (NoGpuConfigFits (fres_gpu_configs f) (host_gpu h)))
       end.

(** [HostResources::free].  CPU, memory and disk are given back before the GPU
    model is checked, so an error leaves them freed. *)
Definition free_resources (h : HostResources) (r : ContainerResources)
    : HostResources * result ResourceError unit :=
  let h1 := MkHostResources
    (wrap32 (host_cpu_ms_per_sec h + cres_cpu_ms_per_sec r))
    (wrap64 (host_memory_bytes h + mb_to_bytes (cres_memory_mb r)))
    (wrap64 (host_disk_bytes h + mb_to_bytes (cres_ephemeral_disk_mb r)))
    (host_gpu h) in
  match cres_gpu r with
  | Some ag =>
      match host_gpu h with
      | Some g =>
          if bool_decide (gpu_model g = gpu_model ag)
          then (h1 <| host_gpu := Some (g <| gpu_count ::= λ c, wrap32 (c + gpu_count ag) |>) |>, Ok tt)
          else (h1, Err (GpuModelMismatch (gpu_model g) (gpu_model ag)))
      | None => (h1, Err NoGpuToFree)
      end
  | None => (h1, Ok tt)
  end.

(** ** Executor-side ledger *)

(** [ExecutorServerMetadata::remove_container]. *)
Definition remove_container (e : ExecutorServerMetadata) (c : Container)
    : ExecutorServerMetadata * result ResourceError unit :=
  let e1 := e <| esm_function_container_ids ::= λ ids, ids ∖ {[ctr_id c]} |> in
  match esm_resource_claims e1 !! ctr_id c with
  | Some claim =>
      match free_resources (esm_free_resources e1) claim with
      | (h, Ok _) =>
          (e1 <| esm_free_resources := h |> <| esm_resource_claims ::= delete (ctr_id c) |>, Ok tt)
      | (h, Err err) => (e1 <| esm_free_resources := h |>, Err err)
      end
  | None => (e1 <| esm_resource_claims ::= delete (ctr_id c) |>, Ok tt)
  end.

(** [ExecutorServerMetadata::add_container]. *)
Definition add_container (e : ExecutorServerMetadata) (c : Container)
    : ExecutorServerMetadata * result ResourceError unit :=
  let e1 := e <| esm_function_container_ids ::= λ ids, {[ctr_id c]} ∪ ids |> in
  match esm_resource_claims e1 !! ctr_id c with
  | Some _ => (e1, Ok tt)
  | None =>
      let e2 := e1 <| esm_resource_claims ::= <[ctr_id c := ctr_resources c]> |> in
      match consume_fe_resources (esm_free_resources e2) (ctr_resources c) with
      | (h, r) => (e2 <| esm_free_resources := h |>, r)
      end
  end.

(** [ExecutorServerMetadata::force_add_container]. *)
Definition force_add_container (e : ExecutorServerMetadata) (c : Container)
    : ExecutorServerMetadata :=
  let e1 := e <| esm_function_container_ids ::= λ ids, {[ctr_id c]} ∪ ids |> in
  match esm_resource_claims e1 !! ctr_id c with
  | Some _ => e1
  | None =>
      e1 <| esm_resource_claims ::= <[ctr_id c := ctr_resources c]> |>
         <| esm_free_resources ::= λ h, force_consume_fe_resources h (ctr_resources c) |>
  end.

(** ** Catalog *)

(** [HostResources::from_catalog_entry]. *)
Definition from_catalog_entry (e : ExecutorCatalogEntry) : HostResources :=
  MkHostResources
    (wrap32 (cat_cpu_cores e * 1000))
    (wrap64 (wrap64 (wrap64 (cat_memory_gb e * 1024) * 1024) * 1024))
    (wrap64 (wrap64 (wrap64 (cat_disk_gb e * 1024) * 1024) * 1024))
    ((λ m, MkGPU (catalog_gpu_count m) (catalog_gpu_name m)) <$> cat_gpu_model e).

(** [FunctionResources::can_be_handled_by_catalog_entry]. *)
Definition can_be_handled_by_catalog_entry (f : FunctionResources) (e : ExecutorCatalogEntry)
    : bool :=
  is_ok (can_handle_function_resources (from_catalog_entry e) f).

(** The five flags of the per-function loop of [Application::can_be_scheduled]. *)
Record CatalogFlags := MkCatalogFlags {
  has_cpu : bool; has_mem : bool; has_disk : bool; has_gpu_models : bool;
  met_placement_constraints : bool;
}.
Definition flags_all (fl : CatalogFlags) : bool :=
  met_placement_constraints fl && has_cpu fl && has_mem fl && has_disk fl && has_gpu_models fl.

(** One iteration over a catalog entry.  The resource flags are assigned; the
    placement flag is only ever set. *)
Definition catalog_entry_flags (n : Function_) (fl : CatalogFlags) (e : ExecutorCatalogEntry)
    : CatalogFlags :=
  MkCatalogFlags
    (bool_decide (fres_cpu_ms_per_sec (fn_resources n) / 1000 ≤ cat_cpu_cores e))
    (bool_decide (fres_memory_mb (fn_resources n) ≤ wrap64 (cat_memory_gb e * 1024)))
    (bool_decide (fres_ephemeral_disk_mb (fn_resources n) ≤ wrap64 (cat_disk_gb e * 1024)))
    (if bool_decide (fres_gpu_configs (fn_resources n) = []) then true
     else is_some_and (λ cg, existsb (λ g, bool_decide (gpu_model g = catalog_gpu_name cg) &&
                                            bool_decide (gpu_count g ≤ catalog_gpu_count cg))
                               (fres_gpu_configs (fn_resources n))) (cat_gpu_model e))
    (met_placement_constraints fl || labels_match (fn_placement_constraints n) (cat_labels e)).

Fixpoint catalog_scan (n : Function_) (fl : CatalogFlags) (es : list ExecutorCatalogEntry)
    : CatalogFlags :=
  match es with
  | [] => fl
  | e :: es =>
      let fl' := catalog_entry_flags n fl e in
      if flags_all fl' then fl' else catalog_scan n fl' es
  end.

Inductive CatalogError :=
| LabelsUnsatisfied (fn : string)
| CpuUnsatisfied (fn : string)
| MemoryUnsatisfied (fn : string)
| DiskUnsatisfied (fn : string)
| GpuUnsatisfied (fn : string).

(** The body of the loop over [self.functions.values()] for one function. *)
Definition function_can_be_scheduled (catalog : list ExecutorCatalogEntry) (n : Function_)
    : result CatalogError unit :=
  let fl := catalog_scan n (MkCatalogFlags false false false false false) catalog in
  if negb (met_placement_constraints fl) then Err (LabelsUnsatisfied (fn_name n))
  else if negb (has_cpu fl) then Err (CpuUnsatisfied (fn_name n))
  else if negb (has_mem fl) then Err (MemoryUnsatisfied (fn_name n))
  else if negb (has_disk fl) then Err (DiskUnsatisfied (fn_name n))
  else if negb (has_gpu_models fl) then Err (GpuUnsatisfied (fn_name n))
  else Ok tt.

Fixpoint all_functions_can_be_scheduled (catalog : list ExecutorCatalogEntry)
    (ns : list Function_) : result CatalogError unit :=
  match ns with
  | [] => Ok tt
  | n :: ns =>
      if bool_decide (catalog = []) then Ok tt
      else match function_can_be_scheduled catalog n with
           | Ok _ => all_functions_can_be_scheduled catalog ns
           | Err e => Err e
           end
  end.

(** [Application::can_be_scheduled]. *)
Definition can_be_scheduled `{HashOrder} (a : Application) (catalog : list ExecutorCatalogEntry)
    : result CatalogError unit :=
  all_functions_can_be_scheduled catalog (map_iter (app_functions a)).*2.

(** ** Pool configuration *)

Inductive PoolError :=
| MinExceedsMax (min max : Z)
| BufferExceedsMax (buffer max : Z)
| ImageRequired
| CpuZero
| MemoryZero.

(** [ContainerPool::validate]. *)
Definition pool_validate (p : ContainerPool) : result PoolError unit :=
  let min := default 0 (cp_min_containers p) in
  let max := default u32_max (cp_max_containers p) in
  let buffer := default 0 (cp_buffer_containers p) in
  if bool_decide (max < min) then Err (MinExceedsMax min max)
  else if bool_decide (max < buffer) then Err (BufferExceedsMax buffer max)
  else if bool_decide (cp_image p = ""%string) && negb (is_function_pool p) then Err ImageRequired
  else if bool_decide (cres_cpu_ms_per_sec (cp_resources p) = 0) then Err CpuZero
  else if bool_decide (cres_memory_mb (cp_resources p) = 0) then Err MemoryZero
  else Ok tt.

(** ** Well-formed quantities *)

Definition gpu_wf (g : option GPUResources) : Prop :=
  match g with Some g => in_u32 (gpu_count g) | None => True end.
Definition host_wf (h : HostResources) : Prop :=
  in_u32 (host_cpu_ms_per_sec h) ∧ in_u64 (host_memory_bytes h) ∧
  in_u64 (host_disk_bytes h) ∧ gpu_wf (host_gpu h).
Definition cres_wf (r : ContainerResources) : Prop :=
  in_u32 (cres_cpu_ms_per_sec r) ∧ in_u64 (cres_memory_mb r) ∧
  in_u64 (cres_ephemeral_disk_mb r) ∧ gpu_wf (cres_gpu r).

(** The requested GPU count, 0 without a GPU. *)
Definition cres_gpu_count (r : ContainerResources) : Z :=
  match cres_gpu r with Some g => gpu_count g | None => 0 end.
Definition host_gpu_count (h : HostResources) : Z :=
  match host_gpu h with Some g => gpu_count g | None => 0 end.

(** What a host must offer for a request: the meaning of the check. *)
Definition fits (h : HostResources) (r : ContainerResources) : Prop :=
  cres_cpu_ms_per_sec r ≤ host_cpu_ms_per_sec h ∧
  mb_to_bytes (cres_memory_mb r) ≤ host_memory_bytes h ∧
  mb_to_bytes (cres_ephemeral_disk_mb r) ≤ host_disk_bytes h ∧
  match cres_gpu r with
  | None => True
  | Some g => ∃ a, host_gpu h = Some a ∧ gpu_count g ≤ gpu_count a ∧ gpu_model a = gpu_model g
  end.

Lemma mb_to_bytes_range mb : in_u64 (mb_to_bytes mb).
Proof. apply wrap64_range. Qed.
Lemma mb_to_bytes_exact mb : 0 ≤ mb < 2 ^ 44 → mb_to_bytes mb = mb * 1048576.
Proof.
  intros Hmb. unfold mb_to_bytes. rewrite !wrap64_id; unfold in_u64; rewrite ?wrap64_id;
    unfold in_u64; lia.
Qed.

Lemma can_handle_fe_resources_fits h r :
  can_handle_fe_resources h r = Ok tt ↔ fits h r.
Proof.
  unfold can_handle_fe_resources, fits, can_handle_gpu, gpu_can_handle.
  repeat (case_bool_decide; [split; [done|lia]|]).
  destruct (cres_gpu r) as [g|]; [|split; [lia|done]].
  destruct (host_gpu h) as [a|].
  - split.
    + repeat case_bool_decide; simpl; try done. intros _. repeat split; try lia. eauto.
    + intros (_ & _ & _ & a' & [= <-] & Hc & Hm). by rewrite !bool_decide_eq_true_2.
  - split; [done|]. by intros (_ & _ & _ & a & ? & _).
Qed.

Lemma can_handle_fe_resources_cases h r :
  can_handle_fe_resources h r = Ok tt ∨ ∃ e, can_handle_fe_resources h r = Err e.
Proof. destruct (can_handle_fe_resources h r) as [[]|]; eauto. Qed.

(** The state a successful consumption leaves, without wrap-around. *)
Definition consumed (h : HostResources) (r : ContainerResources) : HostResources :=
  MkHostResources (host_cpu_ms_per_sec h - cres_cpu_ms_per_sec r)
    (host_memory_bytes h - mb_to_bytes (cres_memory_mb r))
    (host_disk_bytes h - mb_to_bytes (cres_ephemeral_disk_mb r))
    (match cres_gpu r, host_gpu h with
     | Some rg, Some ag => Some (MkGPU (gpu_count ag - gpu_count rg) (gpu_model ag))
     | _, g => g
     end).

Lemma in_u32_sub a b : in_u32 a → in_u32 b → b ≤ a → in_u32 (a - b).
Proof. unfold in_u32. lia. Qed.
Lemma in_u64_sub a b : in_u64 a → in_u64 b → b ≤ a → in_u64 (a - b).
Proof. unfold in_u64. lia. Qed.

Lemma consume_fits h r :
  host_wf h → cres_wf r → fits h r → consume_fe_resources h r = (consumed h r, Ok tt).
Proof.
  intros (Hc & Hm & Hd & Hg) (Rc & _ & _ & Rg) Hf. pose proof Hf as (Fc & Fm & Fd & Fg).
  unfold consume_fe_resources. apply can_handle_fe_resources_fits in Hf as ->.
  unfold consumed. f_equal.
  rewrite wrap32_id, !wrap64_id by auto using in_u32_sub, in_u64_sub, mb_to_bytes_range.
  destruct (cres_gpu r) as [rg|]; [|done].
  destruct Fg as (a & Ha & Hcnt & Hmod). rewrite Ha in *. simpl in *.
  by rewrite wrap32_id by auto using in_u32_sub.
Qed.

Lemma consume_cases h r :
  host_wf h → cres_wf r →
  (fits h r ∧ consume_fe_resources h r = (consumed h r, Ok tt)) ∨
  (¬ fits h r ∧ ∃ e, consume_fe_resources h r = (h, Err e)).
Proof.
  intros Hh Hr. destruct (can_handle_fe_resources_cases h r) as [Hok|[e He]].
  - left. apply can_handle_fe_resources_fits in Hok. auto using consume_fits.
  - right. split; [by rewrite <-can_handle_fe_resources_fits, He|].
    exists e. unfold consume_fe_resources. by rewrite He.
Qed.

Lemma consumed_wf h r : host_wf h → cres_wf r → fits h r → host_wf (consumed h r).
Proof.
  intros (Hc & Hm & Hd & Hg) (Rc & _ & _ & Rg) (Fc & Fm & Fd & Fg).
  unfold host_wf, consumed; simpl.
  split_and!; [by apply in_u32_sub|by apply in_u64_sub; auto using mb_to_bytes_range..|].
  destruct (cres_gpu r) as [rg|]; [|done]. destruct Fg as (a & Ha & Hcnt & _).
  rewrite Ha in *. simpl in *. auto using in_u32_sub.
Qed.

(** ** Consuming and freeing *)

(** Consuming resources for a container and then freeing the same
    resources restores the host exactly, GPU included, and the free succeeds. *)
Theorem consume_free_roundtrip h r h' :
  host_wf h → consume_fe_resources h r = (h', Ok tt) → free_resources h' r = (h, Ok tt).
Proof.
  intros (Hc & Hm & Hd & Hg) Hcons.
  assert (Hf : fits h r).
  { apply can_handle_fe_resources_fits. revert Hcons. unfold consume_fe_resources.
    by destruct (can_handle_fe_resources h r) as [[]|]. }
  pose proof Hf as Hok. apply can_handle_fe_resources_fits in Hok.
  unfold consume_fe_resources in Hcons. rewrite Hok in Hcons. injection Hcons as <-.
  destruct Hf as (_ & _ & _ & Fg). unfold free_resources; simpl.
  rewrite wrap32_sub_add, !wrap64_sub_add by done.
  destruct h as [c m d g], (cres_gpu r) as [rg|]; simpl in *; [|done].
  destruct Fg as (a & -> & _ & Hmod). simpl in *.
  rewrite bool_decide_eq_true_2 by done. rewrite wrap32_sub_add by done. by destruct a.
Qed.

Definition host_ex : HostResources := MkHostResources 4000 (8 * 1073741824) (100 * 1073741824) (Some (MkGPU 2 "H100")).
Definition cres_ex : ContainerResources := MkContainerResources 1000 1024 2048 (Some (MkGPU 1 "H100")).

Lemma consume_free_roundtrip_witness :
  free_resources (consumed host_ex cres_ex) cres_ex = (host_ex, Ok tt).
Proof.
  apply (consume_free_roundtrip host_ex cres_ex).
  - repeat split; vm_compute; congruence.
  - reflexivity.
Defined.

(** Consumption is all or nothing.  It succeeds exactly when the request
    fits, it then subtracts each quantity without wrap-around and leaves a host
    whose quantities are in range; when the request does not fit, the host is
    unchanged. *)
Theorem consume_fe_resources_spec h r :
  host_wf h → cres_wf r →
  (fits h r → consume_fe_resources h r = (consumed h r, Ok tt) ∧ host_wf (consumed h r)) ∧
  (¬ fits h r → ∃ e, consume_fe_resources h r = (h, Err e)).
Proof.
  intros Hh Hr. split.
  - intros Hf. split; [by apply consume_fits|by apply consumed_wf].
  - intros Hn. destruct (consume_cases h r Hh Hr) as [[? _]|[_ ?]]; [done|done].
Qed.

Lemma consume_fe_resources_spec_witness :
  consume_fe_resources host_ex cres_ex = (consumed host_ex cres_ex, Ok tt).
Proof.
  refine (proj1 (proj1 (consume_fe_resources_spec host_ex cres_ex _ _) _)).
  - repeat split; vm_compute; congruence.
  - repeat split; vm_compute; congruence.
  - apply can_handle_fe_resources_fits. reflexivity.
Defined.

Lemma can_handle_gpu_configs_nonempty h base gpus : ∀ res,
  can_handle_gpu_configs h base res gpus = Ok tt ↔
  (gpus = [] ∧ res = Ok tt) ∨
  Exists (λ g, can_handle_fe_resources h (base <| cres_gpu := Some g |>) = Ok tt) gpus.
Proof.
  induction gpus as [|g gpus IH]; intros res; rsimpl.
  - rewrite Exists_nil. naive_solver.
  - rewrite Exists_cons. rsimpl.
    destruct (can_handle_fe_resources h _) as [[]|e]; [naive_solver|].
    rewrite IH. naive_solver.
Qed.

Lemma consume_gpu_configs_some h base gpus :
  (∃ h' r, consume_gpu_configs h base gpus = Some (h', r)) ↔
  Exists (λ g, can_handle_fe_resources h (base <| cres_gpu := Some g |>) = Ok tt) gpus.
Proof.
  induction gpus as [|g gpus IH]; rsimpl.
  - rewrite Exists_nil. naive_solver.
  - rewrite Exists_cons. rsimpl. unfold consume_fe_resources at 1.
    destruct (can_handle_fe_resources h _) as [[]|e]; [naive_solver|].
    rewrite IH. naive_solver.
Qed.

(** The placement check and the consumption agree: a function request can
    be handled by a host exactly when consuming it succeeds, whatever its list of
    GPU configurations; a failed consumption leaves the host as it was. *)
Theorem can_handle_function_iff_consume h f :
  (can_handle_function_resources h f = Ok tt ↔
   is_ok (consume_function_resources h f).2 = true) ∧
  (is_ok (consume_function_resources h f).2 = false → (consume_function_resources h f).1 = h).
Proof.
  unfold can_handle_function_resources, consume_function_resources.
  rewrite can_handle_gpu_configs_nonempty. case_bool_decide as Hg.
  - rewrite Hg, Exists_nil. unfold consume_fe_resources.
    destruct (can_handle_fe_resources h _) as [[]|e]; simpl; naive_solver.
  - rewrite <-consume_gpu_configs_some.
    destruct (consume_gpu_configs h _ _) as [[h' r]|]; simpl; naive_solver.
Qed.

(** The megabyte-to-byte conversion of the check wraps: a container that
    asks for 2^44 MB passes the memory check of a host with no memory at all.
    Below that bound the conversion is exact. *)
Theorem memory_check_wraps :
  (∀ mb, 0 ≤ mb < 2 ^ 44 → mb_to_bytes mb = mb * 1048576) ∧
  can_handle_fe_resources (MkHostResources 1000 0 0 None)
    (MkContainerResources 1000 (2 ^ 44) 0 None) = Ok tt.
Proof. split; [exact mb_to_bytes_exact|reflexivity]. Qed.

(** ** The ledger of an executor

    [ledger cap e]: what is free plus what is claimed is exactly the capacity
    [cap], for CPU, memory, disk and GPUs, and nothing is negative. *)
Definition claimed (f : ContainerResources → Z) (claims : gmap ContainerId ContainerResources) : Z :=
  map_fold (λ _ c acc, f c + acc) 0 claims.

Definition claim_gpu_ok (model : option string) (r : ContainerResources) : Prop :=
  match cres_gpu r with Some g => model = Some (gpu_model g) | None => True end.

Definition ledger (cap : HostResources) (e : ExecutorServerMetadata) : Prop :=
  let h := esm_free_resources e in
  let cl := esm_resource_claims e in
  host_wf cap ∧ host_wf h ∧ map_Forall (λ _ r, cres_wf r ∧ claim_gpu_ok (gpu_model <$> host_gpu cap) r) cl ∧
  host_cpu_ms_per_sec h + claimed cres_cpu_ms_per_sec cl = host_cpu_ms_per_sec cap ∧
  host_memory_bytes h + claimed (λ r, mb_to_bytes (cres_memory_mb r)) cl = host_memory_bytes cap ∧
  host_disk_bytes h + claimed (λ r, mb_to_bytes (cres_ephemeral_disk_mb r)) cl = host_disk_bytes cap ∧
  gpu_model <$> host_gpu h = gpu_model <$> host_gpu cap ∧
  host_gpu_count h + claimed cres_gpu_count cl = host_gpu_count cap.

Lemma claimed_insert f cl i r :
  cl !! i = None → claimed f (<[i := r]> cl) = f r + claimed f cl.
Proof. intros Hi. unfold claimed. by rewrite map_fold_insert_L; [|intros; lia|]. Qed.
Lemma claimed_delete f cl i r :
  cl !! i = Some r → claimed f cl = f r + claimed f (delete i cl).
Proof.
  intros Hi. rewrite <-(insert_id cl i r Hi) at 1. rewrite <-insert_delete_eq.
  apply claimed_insert, lookup_delete_eq.
Qed.
Lemma claimed_nonneg f cl :
  map_Forall (λ _ r, 0 ≤ f r) cl → 0 ≤ claimed f cl.
Proof.
  unfold claimed. induction cl as [|i r cl Hi IH] using map_ind.
  - rewrite map_fold_empty. lia.
  - rewrite map_Forall_insert by done. intros [Hr Hcl].
    rewrite map_fold_insert_L; [|intros; lia|done]. specialize (IH Hcl). lia.
Qed.

Lemma cres_gpu_count_range r : cres_wf r → in_u32 (cres_gpu_count r).
Proof.
  intros (_ & _ & _ & Hg). unfold cres_gpu_count. destruct (cres_gpu r); [done|].
  unfold in_u32. lia.
Qed.

(** Releasing one claim, for one quantity of the ledger. *)
Lemma claim_release f cl i r x c :
  map_Forall (λ _ r, 0 ≤ f r) cl → cl !! i = Some r → x + claimed f cl = c →
  x + f r ≤ c ∧ (x + f r) + claimed f (delete i cl) = c.
Proof.
  intros Hf Hi Hx. rewrite (claimed_delete _ _ i r Hi) in Hx.
  assert (0 ≤ claimed f (delete i cl)) by (by apply claimed_nonneg, map_Forall_delete). lia.
Qed.

Lemma ledger_claims_nonneg cap e :
  ledger cap e →
  map_Forall (λ _ r, 0 ≤ cres_cpu_ms_per_sec r) (esm_resource_claims e) ∧
  map_Forall (λ _ r, 0 ≤ mb_to_bytes (cres_memory_mb r)) (esm_resource_claims e) ∧
  map_Forall (λ _ r, 0 ≤ mb_to_bytes (cres_ephemeral_disk_mb r)) (esm_resource_claims e) ∧
  map_Forall (λ _ r, 0 ≤ cres_gpu_count r) (esm_resource_claims e).
Proof.
  intros (_ & _ & Hcl & _). split_and!; intros i r Hi; try apply mb_to_bytes_range.
  - apply (Hcl i r Hi).
  - apply cres_gpu_count_range, (Hcl i r Hi).
Qed.

(** Giving back one recorded claim succeeds and stays within the capacity. *)
Lemma ledger_free cap e i r :
  ledger cap e → esm_resource_claims e !! i = Some r →
  ∃ h, free_resources (esm_free_resources e) r = (h, Ok tt) ∧
    ledger cap (e <| esm_free_resources := h |> <| esm_resource_claims ::= delete i |>).
Proof.
  intros Hl Hi. destruct (ledger_claims_nonneg cap e Hl) as (Nc & Nm & Nd & Ng).
  destruct Hl as (Hcap & Hh & Hcl & Ec & Em & Ed & Egm & Eg).
  destruct (Hcl i r Hi) as [(Rc & _ & _ & Rg) Hgr].
  pose proof (map_Forall_delete _ _ i Hcl) as Hcl'.
  apply (claim_release _ _ i r) in Ec as [Bc Ec], Em as [Bm Em], Ed as [Bd Ed], Eg as [Bg Eg]; try done.
  pose proof Hcap as (Cc & Cm & Cd & Cg). pose proof Hh as (Fc & Fm & Fd & Fg).
  pose proof (mb_to_bytes_range (cres_memory_mb r)).
  pose proof (mb_to_bytes_range (cres_ephemeral_disk_mb r)).
  unfold free_resources.
  rewrite wrap32_id, !wrap64_id by (unfold in_u32, in_u64 in *; lia).
  revert Bg Eg Hgr. unfold cres_gpu_count at 1 2, claim_gpu_ok, host_gpu_count.
  destruct (cres_gpu r) as [rg|]; intros Bg Eg Hgr; [|eexists; split; [reflexivity|]].
  - destruct (host_gpu (esm_free_resources e)) as [a|]; simpl in Egm; [|congruence].
    rewrite bool_decide_eq_true_2 by congruence. rsimpl.
    destruct (host_gpu cap) as [cg|] eqn:Ecap; simpl in *; [|congruence].
    rewrite wrap32_id by (unfold in_u32 in *; lia). eexists. split; [reflexivity|].
    unfold ledger, host_wf, host_gpu_count; rsimpl. rewrite Ecap; simpl. unfold in_u32, in_u64 in *.
    split_and!; try done; lia.
  - unfold ledger, host_wf, host_gpu_count; rsimpl. unfold in_u32, in_u64 in *.
    split_and!; try done; lia.
Qed.

Lemma gpu_fits_model cap h r :
  fits h r → gpu_model <$> host_gpu h = gpu_model <$> host_gpu cap →
  claim_gpu_ok (gpu_model <$> host_gpu cap) r.
Proof.
  intros (_ & _ & _ & Fg) Hm. unfold claim_gpu_ok. destruct (cres_gpu r) as [g|]; [|done].
  destruct Fg as (a & Ha & _ & Hmod). rewrite <-Hm, Ha. simpl. congruence.
Qed.

(** Recording a new claim that fits keeps the ledger balanced. *)
Lemma ledger_consume cap e i r :
  ledger cap e → cres_wf r → esm_resource_claims e !! i = None → fits (esm_free_resources e) r →
  ledger cap (e <| esm_free_resources := consumed (esm_free_resources e) r |>
                <| esm_resource_claims ::= <[i := r]> |>).
Proof.
  intros (Hcap & Hh & Hcl & Ec & Em & Ed & Egm & Eg) Hr Hi Hf.
  pose proof (consumed_wf _ _ Hh Hr Hf). pose proof (gpu_fits_model _ _ _ Hf Egm).
  unfold ledger; rsimpl. rewrite !claimed_insert by done. destruct Hf as (_ & _ & _ & Fg).
  split_and!; try done; try lia.
  - by apply map_Forall_insert_2.
  - rewrite <-Egm. destruct (cres_gpu r) as [g|]; [|done]. by destruct (host_gpu (esm_free_resources e)).
  - unfold host_gpu_count in *; simpl.
    assert (Hg : cres_gpu_count r = match cres_gpu r with Some g => gpu_count g | None => 0 end) by done.
    destruct (cres_gpu r) as [g|]; [|lia]. destruct Fg as (a & Ha & _). rewrite Ha in *. simpl. lia.
Qed.

Lemma ledger_ids cap e ids :
  ledger cap e → ledger cap (e <| esm_function_container_ids := ids |>).
Proof. done. Qed.

(** On a balanced executor, removing a container always succeeds and keeps
    free + claimed = capacity for CPU, memory, disk and GPUs. *)
Lemma remove_container_ledger cap e c :
  ledger cap e → ∃ e', remove_container e c = (e', Ok tt) ∧ ledger cap e' ∧
    esm_resource_claims e' = delete (ctr_id c) (esm_resource_claims e) ∧
    esm_function_container_ids e' = esm_function_container_ids e ∖ {[ctr_id c]}.
Proof.
  intros Hl. unfold remove_container; rsimpl.
  destruct (esm_resource_claims e !! ctr_id c) as [r|] eqn:Hi.
  - destruct (ledger_free cap e (ctr_id c) r Hl Hi) as (h & -> & Hl').
    eexists. split; [reflexivity|]. split; [exact Hl'|done].
  - eexists. split; [reflexivity|]. rsimpl. rewrite delete_id by done.
    split; [exact Hl|]. done.
Qed.

(** Freeing without wrap-around leaves room for the same request again. *)
Lemma free_then_consume h r h1 :
  host_wf h → cres_wf r → free_resources h r = (h1, Ok tt) →
  host_cpu_ms_per_sec h + cres_cpu_ms_per_sec r < 2 ^ 32 →
  host_memory_bytes h + mb_to_bytes (cres_memory_mb r) < 2 ^ 64 →
  host_disk_bytes h + mb_to_bytes (cres_ephemeral_disk_mb r) < 2 ^ 64 →
  host_gpu_count h + cres_gpu_count r < 2 ^ 32 →
  host_wf h1 ∧ fits h1 r ∧ consumed h1 r = h.
Proof.
  intros (Hc & Hm & Hd & Hg) (Rc & _ & _ & Rg) Hf Bc Bm Bd Bg.
  pose proof (mb_to_bytes_range (cres_memory_mb r)). pose proof (mb_to_bytes_range (cres_ephemeral_disk_mb r)).
  unfold free_resources in Hf.
  rewrite wrap32_id, !wrap64_id in Hf by (unfold in_u32, in_u64 in *; lia).
  unfold cres_gpu_count, host_gpu_count in Bg. unfold host_wf, fits, consumed.
  revert Rg Hf Bg. destruct h as [hc hm hd hg], (cres_gpu r) as [rg|]; simpl in *; intros Rg Hf Bg.
  - destruct hg as [a|]; [|done]. destruct (bool_decide (gpu_model a = gpu_model rg)) eqn:Emod; [|done].
    apply bool_decide_eq_true in Emod. unfold gpu_wf in Hg. rewrite wrap32_id in Hf by (unfold in_u32 in *; lia).
    injection Hf as <-. destruct a as [ac am]. simpl in *. unfold in_u32, in_u64 in *.
    split_and!; try lia; [by eexists; split_and!; [reflexivity|simpl; lia|]|]. repeat f_equal; lia.
  - injection Hf as <-. simpl. unfold in_u32, in_u64 in *. split_and!; try lia; try done. f_equal; lia.
Qed.

(** On a balanced executor, removing a container that holds its claim and adding
    it back is the identity. *)
Lemma remove_add_roundtrip cap e c :
  ledger cap e → ctr_id c ∈ esm_function_container_ids e →
  esm_resource_claims e !! ctr_id c = Some (ctr_resources c) →
  ∃ e1, remove_container e c = (e1, Ok tt) ∧ add_container e1 c = (e, Ok tt).
Proof.
  intros Hl Hin Hi. destruct (ledger_free cap e (ctr_id c) _ Hl Hi) as (h & Hfree & _).
  destruct (ledger_claims_nonneg cap e Hl) as (Nc & Nm & Nd & Ng).
  destruct Hl as ((Cc & Cm & Cd & Cg) & Hh & Hcl & Ec & Em & Ed & Egm & Eg).
  destruct (Hcl _ _ Hi) as [Hr _].
  apply (claim_release _ _ _ _ _ _ Nc Hi) in Ec as [Bc _]. apply (claim_release _ _ _ _ _ _ Nm Hi) in Em as [Bm _].
  apply (claim_release _ _ _ _ _ _ Nd Hi) in Ed as [Bd _]. apply (claim_release _ _ _ _ _ _ Ng Hi) in Eg as [Bg _].
  destruct (free_then_consume _ _ h Hh Hr Hfree) as (Hw & Hf & Hcons); try (unfold in_u32, in_u64 in *; lia).
  { unfold host_gpu_count in Bg at 2. unfold gpu_wf, in_u32 in *. destruct (host_gpu cap); lia. }
  unfold remove_container; rsimpl. rewrite Hi, Hfree. eexists. split; [reflexivity|].
  unfold add_container; rsimpl. rewrite lookup_delete_eq. rsimpl.
  rewrite (consume_fits h _ Hw Hr Hf), Hcons, insert_delete_id by done. destruct e; simpl in *. do 3 f_equal.
  apply set_eq. intros x. destruct (decide (x = ctr_id c)); set_solver.
Qed.

(** Adding a container to a balanced executor keeps it balanced whenever
    it reports success, and then the container holds a claim; a container whose
    request does not fit is reported as an error. *)
Lemma add_container_ledger cap e c :
  ledger cap e → cres_wf (ctr_resources c) →
  let '(e', res) := add_container e c in
  (res = Ok tt → ledger cap e' ∧ is_Some (esm_resource_claims e' !! ctr_id c)) ∧
  (is_ok res = false ↔
     esm_resource_claims e !! ctr_id c = None ∧ ¬ fits (esm_free_resources e) (ctr_resources c)).
Proof.
  intros Hl Hr. unfold add_container; rsimpl.
  destruct (esm_resource_claims e !! ctr_id c) as [r|] eqn:Hi; [by rsimpl; rewrite Hi; naive_solver|].
  pose proof Hl as (_ & Hh & _). rsimpl.
  destruct (consume_cases _ _ Hh Hr) as [[Hf ->]|[Hf [err ->]]]; rsimpl.
  - split; [|naive_solver]. intros _. rewrite lookup_insert_eq. split; [|by eauto].
    apply (ledger_ids _ _ ({[ctr_id c]} ∪ esm_function_container_ids e)) in Hl.
    by apply (ledger_consume _ _ (ctr_id c) _ Hl).
  - naive_solver.
Qed.

Definition ctr_ex (id : ContainerId) (r : ContainerResources) : Container :=
  MkContainer id "ns" "app" "fn" "v1" CS_Pending r 1 CT_Function None [] 0 [] None None
    (Some "app|fn|v1"%string) None None None.
Definition esm_ex : ExecutorServerMetadata := MkExecutorServerMetadata "e1" ∅ host_ex ∅.
(** An executor without containers is balanced. *)
Lemma ledger_fresh id ids h : host_wf h → ledger h (MkExecutorServerMetadata id ids h ∅).
Proof.
  intros Hh. unfold ledger, claimed; rsimpl. rewrite !map_fold_empty.
  split_and!; try done; lia.
Qed.
Lemma esm_ex_ledger : ledger host_ex esm_ex.
Proof. apply ledger_fresh. repeat split; vm_compute; congruence. Qed.

(** When adding a container fails, the claim is recorded although nothing
    was consumed: removing the container afterwards gives its whole request back
    on top of what was free, so the executor then advertises more CPU, memory and
    disk than before the two calls. *)
Theorem failed_add_then_remove_inflates cap e c e1 err :
  ledger cap e → cres_wf (ctr_resources c) → cres_gpu (ctr_resources c) = None →
  add_container e c = (e1, Err err) →
  esm_resource_claims e1 !! ctr_id c = Some (ctr_resources c) ∧
  esm_free_resources e1 = esm_free_resources e ∧
  ∃ e2, remove_container e1 c = (e2, Ok tt) ∧
    host_memory_bytes (esm_free_resources e2) =
      wrap64 (host_memory_bytes (esm_free_resources e) + mb_to_bytes (cres_memory_mb (ctr_resources c))) ∧
    host_cpu_ms_per_sec (esm_free_resources e2) =
      wrap32 (host_cpu_ms_per_sec (esm_free_resources e) + cres_cpu_ms_per_sec (ctr_resources c)).
Proof.
  intros (_ & Hh & _) Hr Hg. unfold add_container; rsimpl.
  destruct (esm_resource_claims e !! ctr_id c) as [r|] eqn:Hi; [done|].
  destruct (consume_cases _ _ Hh Hr) as [[_ ->]|[_ [err' ->]]]; [done|]. intros [= <- _]. rsimpl.
  rewrite lookup_insert_eq. split_and!; [done..|].
  unfold remove_container, free_resources; rsimpl. rewrite lookup_insert_eq, Hg. eauto.
Qed.

Definition cres_big : ContainerResources := MkContainerResources 64000 1024 0 None.
Lemma failed_add_then_remove_inflates_witness :
  host_cpu_ms_per_sec (esm_free_resources
    (remove_container (add_container esm_ex (ctr_ex "c1" cres_big)).1 (ctr_ex "c1" cres_big)).1) = 68000.
Proof.
  destruct (failed_add_then_remove_inflates host_ex esm_ex (ctr_ex "c1" cres_big)
    (add_container esm_ex (ctr_ex "c1" cres_big)).1 (NotEnoughCpu 4000 64000) esm_ex_ledger)
    as (_ & _ & e2 & E & _ & Hc); [repeat split; vm_compute; congruence|reflexivity..|].
  rewrite E. simpl. rewrite Hc. reflexivity.
Defined.

(** ** Sequences of ledger operations *)

Inductive LedgerOp := LAdd (c : Container) | LRemove (c : Container).
(** Run a sequence, stopping at the first error. *)
Fixpoint run_ledger (ops : list LedgerOp) (e : ExecutorServerMetadata)
    : option ExecutorServerMetadata :=
  match ops with
  | [] => Some e
  | op :: ops =>
      let '(e', res) := match op with LAdd c => add_container e c | LRemove c => remove_container e c end in
      match res with Ok _ => run_ledger ops e' | Err _ => None end
  end.
Definition ledger_op_wf (op : LedgerOp) : Prop :=
  match op with LAdd c => cres_wf (ctr_resources c) | LRemove _ => True end.

Lemma run_ledger_preserves cap ops : ∀ e e',
  ledger cap e → Forall ledger_op_wf ops → run_ledger ops e = Some e' → ledger cap e'.
Proof.
  induction ops as [|[c|c] ops IH]; intros e e' Hl Hwf; simpl; [by intros [= <-]| |];
    apply Forall_cons in Hwf as [Hop Hwf].
  - pose proof (add_container_ledger cap e c Hl Hop) as Hadd.
    destruct (add_container e c) as [e1 [[]|]]; [|done]. apply IH; [|done]. by apply Hadd.
  - destruct (remove_container_ledger cap e c Hl) as (e1 & -> & Hl1 & _). by apply IH.
Qed.

(** Along any sequence of container additions and removals that reports no
    error, starting from a balanced executor, free + claimed stays equal to the
    capacity, so the claims never exceed the executor's CPU, memory, disk or GPU
    count and nothing free is negative. *)
Theorem executor_never_oversubscribed cap ops e e' :
  ledger cap e → Forall ledger_op_wf ops → run_ledger ops e = Some e' →
  ledger cap e' ∧
  claimed cres_cpu_ms_per_sec (esm_resource_claims e') ≤ host_cpu_ms_per_sec cap ∧
  claimed (λ r, mb_to_bytes (cres_memory_mb r)) (esm_resource_claims e') ≤ host_memory_bytes cap ∧
  claimed (λ r, mb_to_bytes (cres_ephemeral_disk_mb r)) (esm_resource_claims e') ≤ host_disk_bytes cap ∧
  claimed cres_gpu_count (esm_resource_claims e') ≤ host_gpu_count cap.
Proof.
  intros Hl Hwf Hrun. pose proof (run_ledger_preserves cap ops e e' Hl Hwf Hrun) as Hl'.
  split; [done|]. destruct Hl' as (_ & ((? & ?) & (? & ?) & (? & ?) & Hg) & _ & ? & ? & ? & _ & ?).
  assert (0 ≤ host_gpu_count (esm_free_resources e')).
  { unfold host_gpu_count. destruct (host_gpu (esm_free_resources e')); [apply Hg|lia]. }
  split_and!; lia.
Qed.

Definition ledger_ops_ex : list LedgerOp :=
  [LAdd (ctr_ex "c1" cres_ex); LAdd (ctr_ex "c2" cres_ex); LRemove (ctr_ex "c1" cres_ex)].
Lemma executor_never_oversubscribed_witness :
  ∃ e', run_ledger ledger_ops_ex esm_ex = Some e' ∧ ledger host_ex e'.
Proof.
  eexists. split; [reflexivity|].
  refine (proj1 (executor_never_oversubscribed host_ex ledger_ops_ex esm_ex _ esm_ex_ledger _ _)).
  - repeat constructor; vm_compute; congruence.
  - reflexivity.
Defined.

(** ** Catalog check *)

Definition no_flags : CatalogFlags := MkCatalogFlags false false false false false.
(** One catalog entry that meets every requirement of the function. *)
Definition entry_satisfies (n : Function_) (e : ExecutorCatalogEntry) : bool :=
  flags_all (catalog_entry_flags n no_flags e).

Lemma entry_satisfies_mono n fl e :
  entry_satisfies n e = true → flags_all (catalog_entry_flags n fl e) = true.
Proof.
  unfold entry_satisfies, flags_all; simpl. rewrite !andb_true_iff.
  intros ((((Hm & ?) & ?) & ?) & ?). rewrite Hm, orb_true_r. done.
Qed.

Lemma catalog_scan_complete n es : ∀ fl e,
  e ∈ es → entry_satisfies n e = true → flags_all (catalog_scan n fl es) = true.
Proof.
  induction es as [|e' es IH]; intros fl e He Hs; [set_solver|].
  change (flags_all (let fl' := catalog_entry_flags n fl e' in
    if flags_all fl' then fl' else catalog_scan n fl' es) = true). cbv zeta.
  destruct (flags_all (catalog_entry_flags n fl e')) eqn:E; [done|].
  apply elem_of_cons in He as [->|He]; [|by eapply IH].
  by rewrite (entry_satisfies_mono n fl e') in E.
Qed.

Lemma function_can_be_scheduled_ok catalog n :
  function_can_be_scheduled catalog n = Ok tt ↔ flags_all (catalog_scan n no_flags catalog) = true.
Proof.
  unfold function_can_be_scheduled. fold no_flags.
  destruct (catalog_scan n no_flags catalog) as [[] [] [] [] []]; simpl; split; done.
Qed.

Lemma all_functions_ok catalog ns :
  Forall (λ n, function_can_be_scheduled catalog n = Ok tt) ns →
  all_functions_can_be_scheduled catalog ns = Ok tt.
Proof. induction 1 as [|n ns Hn _ IH]; simpl; [done|]. case_bool_decide; [done|]. by rewrite Hn. Qed.

(** An application each of whose functions is satisfied by some catalog
    entry (labels, CPU, memory, disk and GPU all on that entry) passes the
    catalog check. *)
Theorem can_be_scheduled_complete `{HashOrder} a catalog :
  map_Forall (λ _ n, ∃ e, e ∈ catalog ∧ entry_satisfies n e = true) (app_functions a) →
  can_be_scheduled a catalog = Ok tt.
Proof.
  intros Hall. apply all_functions_ok, Forall_fmap, Forall_forall. intros [k n] Hn.
  apply elem_of_map_iter in Hn. destruct (Hall k n Hn) as (e & He & Hs). simpl.
  apply function_can_be_scheduled_ok. by eapply catalog_scan_complete.
Qed.

Definition fn_ex (name : string) (r : FunctionResources) (pc : list Expression) : Function_ :=
  MkFunction name "" pc "" "" None 0 300000 r (MkFunctionRetryPolicy 0 1000 1000 1000) None [] None 1
    None None None.
Definition app_ex (f : Function_) : Application :=
  MkApplication "ns" "app" false "" ∅ 0 "v1" None {[fn_name f := f]} AppActive None None None.
Definition entry_ex (name : string) (cores : Z) (labels : gmap string string) : ExecutorCatalogEntry :=
  MkCatalogEntry name cores 64 100 None labels.
Definition fn_zone_ex : Function_ :=
  fn_ex "f" (MkFunctionResources 8000 1024 1024 []) [MkExpression "zone" "a" OpEq].

Lemma can_be_scheduled_complete_witness :
  @can_be_scheduled canonical_order (app_ex fn_zone_ex) [entry_ex "big" 16 {["zone" := "a"]}]%string = Ok tt.
Proof.
  apply (@can_be_scheduled_complete canonical_order). intros k n Hn.
  unfold app_ex in Hn; simpl in Hn. apply lookup_singleton_Some in Hn as [_ <-].
  exists (entry_ex "big" 16 {["zone" := "a"]})%string. split; [apply list_elem_of_singleton|]; reflexivity.
Defined.

(** The catalog check is not sound over entries.  The placement flag is
    never reset between entries, so labels found on one entry combine with the
    resources of a later one: the function below is accepted although no single
    entry satisfies it. *)
Theorem catalog_check_mixes_entries :
  ∃ (n : Function_) (catalog : list ExecutorCatalogEntry),
    function_can_be_scheduled catalog n = Ok tt ∧
    Forall (λ e, entry_satisfies n e = false) catalog.
Proof.
  exists fn_zone_ex, [entry_ex "small" 1 {["zone" := "a"]}; entry_ex "big" 16 {["zone" := "b"]}]%string.
  split; [reflexivity|]. repeat constructor.
Qed.

(** ** Pool configuration *)

(** A pool configuration that validates has a floor and a buffer that its
    ceiling allows, positive CPU and memory, and an image unless it is a function
    pool; and every such configuration validates. *)
Theorem pool_validate_spec p :
  pool_validate p = Ok tt ↔
  default 0 (cp_min_containers p) ≤ default u32_max (cp_max_containers p) ∧
  default 0 (cp_buffer_containers p) ≤ default u32_max (cp_max_containers p) ∧
  (cp_image p ≠ ""%string ∨ is_function_pool p = true) ∧
  cres_cpu_ms_per_sec (cp_resources p) ≠ 0 ∧ cres_memory_mb (cp_resources p) ≠ 0.
Proof.
  unfold pool_validate. repeat case_bool_decide; destruct (is_function_pool p); simpl;
    split; intros; try done; try lia; naive_solver lia.
Qed.
