(* ===== verification/Updates.v ===== *)
(** * Scheduler updates

    [SchedulerUpdateRequest] of [state_store/requests.rs] with the operations
    that merge updates, the state-change types it carries, and the resource
    profile histograms of [state_store/in_memory_state.rs]. *)
From S2P Require Import Prelude DataModel.

(** ** State changes *)

Record ContainerStateUpdateInfo := MkContainerStateUpdateInfo {
  csu_container_id : ContainerId;
  csu_termination_reason : option ContainerTerminationReason;
}.
Record DataplaneResultsIngestedEvent := MkDataplaneResultsIngestedEvent {
  dr_executor_id : ExecutorId;
  dr_allocation_events : list AllocationOutputIngestedEvent;
  dr_container_state_updates : list ContainerStateUpdateInfo;
  dr_container_started_ids : list ContainerId;
}.
(** [ChangeType], with the fields of each event struct as arguments. *)
Inductive ChangeType :=
| CH_InvokeApplication (request_id namespace application : string)
| CH_CreateFunctionCall (ev : FunctionCallEvent)
| CH_AllocationOutputsIngested (ev : AllocationOutputIngestedEvent)
| CH_TombstoneApplication (namespace application : string)
| CH_TombstoneRequest (namespace application request_id : string)
| CH_ExecutorUpserted (executor_id : ExecutorId)
| CH_TombStoneExecutor (executor_id : ExecutorId)
| CH_CreateSandbox (namespace : string) (sandbox_id : SandboxId)
| CH_TerminateSandbox (namespace : string) (sandbox_id : SandboxId)
| CH_SnapshotSandbox (namespace : string) (sandbox_id : SandboxId) (snapshot_id : SnapshotId) (upload_uri : string)
| CH_CreateContainerPool (namespace : string) (pool_id : ContainerPoolId)
| CH_UpdateContainerPool (namespace : string) (pool_id : ContainerPoolId)
| CH_DeleteContainerPool (namespace : string) (pool_id : ContainerPoolId)
| CH_DataplaneResultsIngested (ev : DataplaneResultsIngestedEvent).

Record StateChange := MkStateChange {
  sc_id : Z;
  sc_object_id : string;
  sc_change_type : ChangeType;
  sc_created_at : Z;
  sc_processed_at : option Z;
  sc_namespace : option string;
  sc_application : option string;
}.

(** [SchedulerCommandIntent]; the protobuf command is kept as its bytes. *)
Record SchedulerCommandIntent := MkSchedulerCommandIntent {
  sci_executor_id : ExecutorId;
  sci_command : Bytes;
}.

(** ** Resource profiles *)

Record ResourceProfile := MkResourceProfile {
  rp_cpu_ms_per_sec : Z;
  rp_memory_mb : Z;
  rp_disk_mb : Z;
  rp_gpu_count : Z;
  rp_gpu_model : option string;
  rp_placement_constraints : list string;
}.
#[export] Instance ResourceProfile_eq_dec : EqDecision ResourceProfile.
Proof. solve_decision. Defined.
#[export] Instance ResourceProfile_countable : Countable ResourceProfile.
Proof.
  apply (inj_countable'
    (λ p, (rp_cpu_ms_per_sec p, rp_memory_mb p, rp_disk_mb p, rp_gpu_count p, rp_gpu_model p,
           rp_placement_constraints p))
    (λ '(a, b, c, d, e, f), MkResourceProfile a b c d e f)). by intros [].
Defined.

(** [Display for Operator] and [Display for Expression]. *)
Definition operator_to_string (o : Operator) : string :=
  match o with OpEq => "==" | OpNeq => "!=" end.
Definition expression_to_string (e : Expression) : string :=
  (expr_key e +:+ operator_to_string (expr_operator e) +:+ expr_value e)%string.

(** [ResourceProfile::from_function]. *)
Definition profile_from_function (f : Function_) : ResourceProfile :=
  let '(cnt, model) :=
    match head (fres_gpu_configs (fn_resources f)) with
    | Some g => (gpu_count g, Some (gpu_model g))
    | None => (0, None)
    end in
  MkResourceProfile (fres_cpu_ms_per_sec (fn_resources f)) (fres_memory_mb (fn_resources f))
    (fres_ephemeral_disk_mb (fn_resources f)) cnt model
    (merge_sort String.le (expression_to_string <$> fn_placement_constraints f)).

(** [ResourceProfile::from_container_resources]. *)
Definition profile_from_container_resources (r : ContainerResources) : ResourceProfile :=
  let '(cnt, model) :=
    match cres_gpu r with
    | Some g => (gpu_count g, Some (gpu_model g))
    | None => (0, None)
    end in
  MkResourceProfile (cres_cpu_ms_per_sec r) (cres_memory_mb r) (cres_ephemeral_disk_mb r) cnt model [].

(** [ResourceProfileHistogram]: the [profiles] map. *)
Notation ResourceProfileHistogram := (gmap ResourceProfile Z) (only parsing).

(** [ResourceProfileHistogram::increment_by]. *)
Definition hist_increment_by (h : ResourceProfileHistogram) (p : ResourceProfile) (count : Z)
    : ResourceProfileHistogram :=
  if bool_decide (0 < count) then <[p := wrap64 (default 0 (h !! p) + count)]> h else h.
(** [ResourceProfileHistogram::increment]. *)
Definition hist_increment (h : ResourceProfileHistogram) (p : ResourceProfile)
    : ResourceProfileHistogram :=
  <[p := wrap64 (default 0 (h !! p) + 1)]> h.
(** [ResourceProfileHistogram::decrement]. *)
Definition hist_decrement (h : ResourceProfileHistogram) (p : ResourceProfile)
    : ResourceProfileHistogram :=
  match h !! p with
  | Some c => if bool_decide (saturating_sub c 1 = 0) then delete p h
              else <[p := saturating_sub c 1]> h
  | None => h
  end.
(** [ResourceProfileHistogram::subtract]. *)
Definition hist_subtract (h other : ResourceProfileHistogram) : ResourceProfileHistogram :=
  filter (λ pc, 0 < pc.2) (map_imap (λ p c,
    Some (match other !! p with Some b => saturating_sub c b | None => c end)) h).

(** ** [SchedulerUpdateRequest] *)

Record SchedulerUpdateRequest := MkSchedulerUpdateRequest {
  su_new_allocations : list Allocation;
  su_updated_allocations : list Allocation;
  su_updated_function_runs : gmap string (gset FunctionCallId);
  su_updated_function_calls : gmap string (gset FunctionCallId);
  su_updated_request_states : gmap string RequestCtx;
  su_remove_executors : list ExecutorId;
  su_updated_executor_states : gmap ExecutorId ExecutorServerMetadata;
  su_containers : gmap ContainerId ContainerServerMetadata;
  su_new_state_changes : list StateChange;
  su_updated_sandboxes : gmap SandboxKey Sandbox;
  su_updated_snapshots : gmap string Snapshot;
  su_updated_pools : gmap ContainerPoolKey ContainerPool;
  su_deleted_pools : gset ContainerPoolKey;
  su_function_pool_deficits : option ResourceProfileHistogram;
  su_sandbox_pool_deficits : option ResourceProfileHistogram;
  su_newly_blocked_pools : gset ContainerPoolKey;
  su_scheduler_command_intents : list SchedulerCommandIntent;
}.
#[export] Instance eta_SchedulerUpdateRequest : Eta SchedulerUpdateRequest := λ u,
  MkSchedulerUpdateRequest (su_new_allocations u) (su_updated_allocations u)
    (su_updated_function_runs u) (su_updated_function_calls u) (su_updated_request_states u)
    (su_remove_executors u) (su_updated_executor_states u) (su_containers u)
    (su_new_state_changes u) (su_updated_sandboxes u) (su_updated_snapshots u)
    (su_updated_pools u) (su_deleted_pools u) (su_function_pool_deficits u)
    (su_sandbox_pool_deficits u) (su_newly_blocked_pools u) (su_scheduler_command_intents u).

Definition empty_update : SchedulerUpdateRequest :=
  MkSchedulerUpdateRequest [] [] ∅ ∅ ∅ [] ∅ ∅ [] ∅ ∅ ∅ ∅ None None ∅ [].

(** The choice [merge_request_state] makes between the stored and the incoming
    snapshot of a request. *)
Definition newer_request_state (existing incoming : RequestCtx) : RequestCtx :=
  match rc_outcome existing, rc_outcome incoming with
  | Some _, None => existing
  | _, _ => incoming
  end.

(** [merge_request_state]. *)
Definition merge_request_state (u : SchedulerUpdateRequest) (key : string) (ctx : RequestCtx)
    : SchedulerUpdateRequest :=
  u <| su_updated_request_states ::= λ m,
         <[key := match m !! key with Some old => newer_request_state old ctx | None => ctx end]> m |>.

Definition last_some {A} (a b : option A) : option A := match b with Some _ => b | None => a end.

(** [SchedulerUpdateRequest::extend]. *)
Definition extend (u o : SchedulerUpdateRequest) : SchedulerUpdateRequest :=
  MkSchedulerUpdateRequest
    (su_new_allocations u ++ su_new_allocations o)
    (su_updated_allocations u ++ su_updated_allocations o)
    (union_with (λ a b, Some (a ∪ b)) (su_updated_function_runs u) (su_updated_function_runs o))
    (union_with (λ a b, Some (a ∪ b)) (su_updated_function_calls u) (su_updated_function_calls o))
    (union_with (λ a b, Some (newer_request_state a b))
       (su_updated_request_states u) (su_updated_request_states o))
    (su_remove_executors u ++ su_remove_executors o)
    (su_updated_executor_states o ∪ su_updated_executor_states u)
    (su_containers o ∪ su_containers u)
    (su_new_state_changes u ++ su_new_state_changes o)
    (su_updated_sandboxes o ∪ su_updated_sandboxes u)
    (su_updated_snapshots o ∪ su_updated_snapshots u)
    (su_updated_pools o ∪ su_updated_pools u)
    (su_deleted_pools u ∪ su_deleted_pools o)
    (last_some (su_function_pool_deficits u) (su_function_pool_deficits o))
    (last_some (su_sandbox_pool_deficits u) (su_sandbox_pool_deficits o))
    (su_newly_blocked_pools u ∪ su_newly_blocked_pools o)
    (su_scheduler_command_intents u ++ su_scheduler_command_intents o).

(** [RequestCtx::key]. *)
Definition request_ctx_key (c : RequestCtx) : string :=
  (rc_namespace c +:+ "|" +:+ rc_application_name c +:+ "|" +:+ rc_request_id c)%string.

(** [SchedulerUpdateRequest::cancel_allocation]: the update and the allocation. *)
Definition cancel_allocation (u : SchedulerUpdateRequest) (a : Allocation)
    : SchedulerUpdateRequest * Allocation :=
  let a' := a <| al_outcome := FRO_Failure FRF_FunctionRunCancelled |> in
  (u <| su_updated_allocations ::= λ l, l ++ [a'] |>, a').

(** [add_function_run]: the update and the request context. *)
Definition add_function_run (u : SchedulerUpdateRequest) (r : FunctionRun) (c : RequestCtx)
    : SchedulerUpdateRequest * RequestCtx :=
  (u <| su_updated_function_runs ::= idx_insert (request_ctx_key c) (fr_id r) |>,
   c <| rc_function_runs ::= <[fr_id r := r]> |>).

(** [add_request_state]. *)
Definition add_request_state (u : SchedulerUpdateRequest) (c : RequestCtx) : SchedulerUpdateRequest :=
  merge_request_state u (request_ctx_key c) c.

(** [add_function_call]: the update and the request context. *)
Definition add_function_call (u : SchedulerUpdateRequest) (f : FunctionCall) (c : RequestCtx)
    : SchedulerUpdateRequest * RequestCtx :=
  (u <| su_updated_function_calls ::= idx_insert (request_ctx_key c) (fc_function_call_id f) |>,
   c <| rc_function_calls ::= <[fc_function_call_id f := f]> |>).

(** [unallocated_function_runs]. *)
Definition unallocated_function_runs `{HashOrder} (u : SchedulerUpdateRequest) : list FunctionRun :=
  flat_map (λ '(key, ids),
    match su_updated_request_states u !! key with
    | Some ctx =>
        omap (λ id, match rc_function_runs ctx !! id with
                    | Some r => match fr_status r with FRS_Pending => Some r | _ => None end
                    | None => None
                    end) (set_iter ids)
    | None => []
    end) (map_iter (su_updated_function_runs u)).

(** ** Requests to the state machine *)

Record RequestUpdates := MkRequestUpdates {
  ru_request_updates : list ComputeOp;
  ru_output_function_call_id : FunctionCallId;
}.
Record AllocationOutput := MkAllocationOutput {
  aout_request_id : string;
  aout_allocation : Allocation;
  aout_data_payload : option DataPayload;
  aout_executor_id : ExecutorId;
  aout_request_exception : option DataPayload;
  aout_graph_updates : option RequestUpdates;
}.

(** [RequestPayload], with the fields of each request struct as arguments. *)
Inductive RequestPayload :=
| RP_InvokeApplication (namespace application_name : string) (ctx : RequestCtx)
| RP_CreateFunctionCall (namespace application_name request_id : string) (graph_updates : RequestUpdates)
    (source_function_call_id : FunctionCallId)
| RP_CreateNameSpace (name : string) (blob_storage_bucket blob_storage_region : option string)
| RP_CreateOrUpdateApplication (namespace : string) (application : Application)
    (upgrade_requests_to_current_version : bool) (container_pools : list ContainerPool)
| RP_TombstoneApplication (namespace name : string)
| RP_TombstoneRequest (namespace application request_id : string)
| RP_UpsertExecutor (executor : ExecutorMetadata) (allocation_outputs : list AllocationOutput)
    (update_executor_state : bool) (state_changes : list StateChange)
| RP_DeregisterExecutor (executor_id : ExecutorId) (state_changes : list StateChange)
| RP_CreateSandbox (sandbox : Sandbox)
| RP_TerminateSandbox (namespace : string) (sandbox_id : SandboxId)
| RP_SnapshotSandbox (snapshot : Snapshot) (upload_uri : string)
| RP_CompleteSnapshot (snapshot_id : SnapshotId) (snapshot_uri : string) (size_bytes : Z)
| RP_FailSnapshot (snapshot_id : SnapshotId) (error : string)
| RP_DeleteSnapshot (namespace : string) (snapshot_id : SnapshotId)
| RP_CreateContainerPool (pool : ContainerPool)
| RP_UpdateContainerPool (pool : ContainerPool)
| RP_DataplaneResults (event : DataplaneResultsIngestedEvent)
| RP_CreateCronSchedule (id namespace application_name cron_expression : string) (input : option DataPayload)
| RP_DeleteCronSchedule (namespace application_name schedule_id : string)
| RP_AdvanceCronSchedule (namespace application_name schedule_id cron_expression : string) (fired_at_ms : Z)
| RP_SchedulerUpdate (update : SchedulerUpdateRequest)
| RP_DeleteApplicationRequest (namespace name : string)
| RP_DeleteRequestRequest (namespace application request_id : string)
| RP_TombstoneContainerPool (namespace : string) (pool_id : ContainerPoolId)
| RP_DeleteContainerPool (namespace : string) (pool_id : ContainerPoolId).

(** ** The update monoid *)

Lemma newer_request_state_assoc a b c :
  newer_request_state (newer_request_state a b) c = newer_request_state a (newer_request_state b c).
Proof.
  unfold newer_request_state. by destruct a as [? ? ? ? []], b as [? ? ? ? []], c as [? ? ? ? []].
Qed.
Lemma union_with_assoc_f `{Countable K} {A} (f : A → A → A) (m1 m2 m3 : gmap K A) :
  (∀ a b c, f (f a b) c = f a (f b c)) →
  let g a b := Some (f a b) in union_with g (union_with g m1 m2) m3 = union_with g m1 (union_with g m2 m3).
Proof.
  intros Hf g. apply map_eq. intros i. rewrite !lookup_union_with.
  unfold g.
  destruct (m1 !! i), (m2 !! i), (m3 !! i); simpl; try done. by rewrite Hf.
Qed.
Lemma union_with_empty `{Countable K} {A} (f : A → A → option A) (m : gmap K A) :
  union_with f ∅ m = m ∧ union_with f m ∅ = m.
Proof.
  split; apply map_eq; intros i; rewrite lookup_union_with, lookup_empty; by destruct (m !! i).
Qed.
Lemma last_some_none {A} (a : option A) : last_some None a = a.
Proof. by destruct a. Qed.
Lemma last_some_assoc {A} (a b c : option A) : last_some (last_some a b) c = last_some a (last_some b c).
Proof. by destruct a, b, c. Qed.

(** Merging scheduler updates is associative with the empty update as unit,
    so a batch of updates can be folded in any grouping: allocation and
    state-change lists are concatenated, per-key entries are decided by the latest
    update, and request snapshots by the latest terminal one. *)
Theorem extend_monoid u v w :
  extend (extend u v) w = extend u (extend v w) ∧ extend empty_update u = u ∧ extend u empty_update = u.
Proof.
  split_and!.
  - unfold extend; simpl. f_equal;
      first [ by rewrite app_assoc | by rewrite (assoc_L union) | apply last_some_assoc
            | apply (union_with_assoc_f newer_request_state), newer_request_state_assoc
            | apply (union_with_assoc_f (∪)); intros; by rewrite (assoc_L union) ].
  - destruct u. unfold extend; simpl.
    f_equal; first [ by rewrite (left_id_L ∅ union) | by rewrite (right_id_L ∅ union)
                   | apply union_with_empty | apply last_some_none ].
  - destruct u. unfold extend; simpl.
    f_equal; first [ by rewrite app_nil_r | by rewrite (left_id_L ∅ union) | by rewrite (right_id_L ∅ union)
                   | apply union_with_empty ].
Qed.

(** Request completion is monotone under merging: once an update holds a
    terminal snapshot of a request, no later update merged into it makes the
    snapshot non-terminal, whether it arrives through [extend] or through
    [add_request_state]; and a terminal snapshot always replaces an earlier one. *)
Theorem request_completion_monotone u o ctx key :
  (is_Some (su_updated_request_states u !! key ≫= rc_outcome) →
   is_Some (su_updated_request_states (extend u o) !! key ≫= rc_outcome) ∧
   is_Some (su_updated_request_states (add_request_state u ctx) !! key ≫= rc_outcome)) ∧
  (is_Some (su_updated_request_states o !! key ≫= rc_outcome) →
   su_updated_request_states (extend u o) !! key = su_updated_request_states o !! key).
Proof.
  split.
  - intros [out Hu]. destruct (su_updated_request_states u !! key) as [old|] eqn:E; [|done]. simpl in Hu.
    split.
    + unfold extend; simpl. rewrite lookup_union_with, E.
      destruct (su_updated_request_states o !! key) as [new|]; simpl; [|by rewrite Hu].
      unfold newer_request_state. rewrite Hu. destruct (rc_outcome new) eqn:En; simpl; rewrite ?En, ?Hu; eauto.
    + unfold add_request_state, merge_request_state; rsimpl. rewrite lookup_insert.
      case_decide as Hk; [|by rewrite E; simpl; rewrite Hu]. rewrite Hk, E. simpl.
      unfold newer_request_state. rewrite Hu. destruct (rc_outcome ctx) eqn:En; simpl; rewrite ?En, ?Hu; eauto.
  - intros [out Ho]. unfold extend; simpl. rewrite lookup_union_with.
    destruct (su_updated_request_states o !! key) as [new|] eqn:E; [|done]. simpl in Ho.
    destruct (su_updated_request_states u !! key) as [old|]; simpl; [|done].
    unfold newer_request_state. rewrite Ho. by destruct (rc_outcome old).
Qed.

(** ** Histograms *)

Definition hist_count (h : ResourceProfileHistogram) (p : ResourceProfile) : Z := default 0 (h !! p).
Definition hist_wf (h : ResourceProfileHistogram) : Prop := map_Forall (λ _ c, 0 < c < 2 ^ 64) h.

Lemma hist_count_nonneg h p : hist_wf h → 0 ≤ hist_count h p.
Proof. intros Hwf. unfold hist_count. destruct (h !! p) eqn:E; simpl; [|lia]. apply Hwf in E. lia. Qed.
Lemma hist_increment_spec h p :
  hist_wf h → hist_count h p < u64_max →
  hist_wf (hist_increment h p) ∧
  ∀ q, hist_count (hist_increment h p) q = hist_count h q + (if decide (q = p) then 1 else 0).
Proof.
  intros Hwf Hp. pose proof (hist_count_nonneg h p Hwf) as H0. unfold u64_max in Hp.
  assert (Hw : wrap64 (hist_count h p + 1) = hist_count h p + 1) by (apply wrap64_id; unfold in_u64; lia).
  unfold hist_increment. fold (hist_count h p). rewrite Hw. split.
  - apply map_Forall_insert_2; [lia|done].
  - intros q. unfold hist_count at 1. rewrite lookup_insert.
    destruct (decide (q = p)) as [->|]; [by rewrite decide_True|rewrite decide_False by done].
    unfold hist_count. lia.
Qed.
Lemma hist_decrement_spec h p :
  hist_wf h →
  hist_wf (hist_decrement h p) ∧
  ∀ q, hist_count (hist_decrement h p) q = if decide (q = p) then saturating_sub (hist_count h p) 1 else hist_count h q.
Proof.
  intros Hwf. unfold hist_decrement. destruct (h !! p) as [c|] eqn:E.
  - pose proof (Hwf p c E) as Hc. simpl in Hc. assert (Hp : hist_count h p = c) by (unfold hist_count; by rewrite E).
    unfold saturating_sub in *. case_bool_decide as Hz.
    + split; [by apply map_Forall_delete|]. intros q. rewrite Hp. unfold hist_count at 1. rewrite lookup_delete.
      destruct (decide (q = p)) as [->|]; [rewrite decide_True by done; simpl; lia|by rewrite decide_False].
    + split; [apply map_Forall_insert_2; [lia|done]|]. intros q. rewrite Hp. unfold hist_count at 1. rewrite lookup_insert.
      destruct (decide (q = p)) as [->|]; [by rewrite decide_True|by rewrite decide_False].
  - split; [done|]. intros q. destruct (decide (q = p)) as [->|]; [|done].
    unfold hist_count, saturating_sub. rewrite E. simpl. lia.
Qed.

(** The pending-work histogram counts: incrementing a profile adds one to
    its count and decrementing undoes it exactly, removing the entry when it
    reaches zero; subtraction is pointwise and saturating and keeps only positive
    counts; other profiles are untouched. *)
Theorem histogram_counts h p q :
  hist_wf h → hist_count h p < u64_max →
  hist_count (hist_increment h p) q = hist_count h q + (if decide (q = p) then 1 else 0) ∧
  hist_decrement (hist_increment h p) p = h ∧
  (∀ o, hist_wf o →
     hist_count (hist_subtract h o) q = saturating_sub (hist_count h q) (hist_count o q)) ∧
  (∀ o, map_Forall (λ _ c, 0 < c) (hist_subtract h o)).
Proof.
  intros Hwf Hp. unfold u64_max in Hp.
  assert (Hc : ∀ r, 0 ≤ hist_count h r).
  { intros r. unfold hist_count. destruct (h !! r) eqn:E; simpl; [|lia]. apply Hwf in E. lia. }
  assert (Hw : wrap64 (hist_count h p + 1) = hist_count h p + 1).
  { apply wrap64_id. unfold in_u64. specialize (Hc p). lia. }
  split_and!.
  - by apply hist_increment_spec.
  - unfold hist_decrement, hist_increment. fold (hist_count h p). rewrite Hw, lookup_insert_eq.
    replace (saturating_sub (hist_count h p + 1) 1) with (hist_count h p)
      by (unfold saturating_sub; specialize (Hc p); lia).
    unfold hist_count in *. destruct (h !! p) as [c|] eqn:E.
    + rewrite bool_decide_eq_false_2 by (apply Hwf in E; simpl; lia). simpl. by rewrite insert_insert_eq, insert_id.
    + rewrite bool_decide_eq_true_2 by done. by rewrite delete_insert_eq, delete_id.
  - intros o Ho. unfold hist_count, hist_subtract, saturating_sub.
    rewrite map_lookup_filter, map_lookup_imap.
    destruct (h !! q) as [c|] eqn:E, (o !! q) as [b|] eqn:Eo; simpl;
      try apply Hwf in E; try apply Ho in Eo; try case_guard; simpl in *; lia.
  - intros o r c. unfold hist_subtract. rewrite map_lookup_filter_Some. by intros [_ ?].
Qed.

Definition profile_ex : ResourceProfile := MkResourceProfile 1000 1024 1024 0 None [].
Lemma histogram_counts_witness :
  hist_decrement (hist_increment {[profile_ex := 3]} profile_ex) profile_ex = {[profile_ex := 3]}.
Proof.
  apply (histogram_counts {[profile_ex := 3]} profile_ex profile_ex).
  - unfold hist_wf. rewrite map_Forall_singleton. lia.
  - vm_compute. reflexivity.
Defined.

Definition ctx_ex (req : string) (o : option RequestOutcome) : RequestCtx :=
  MkRequestCtx "ns" "app" "v1" req o 0 None None None ∅ ∅.
