(* ===== verification/InMemoryState.v ===== *)
(** * In-memory state

    [InMemoryState] of [state_store/in_memory_state.rs]: the server's view of
    applications, requests, function runs, allocations, sandboxes and snapshots,
    with the indexes and demand histograms derived from them.  Metrics are left
    out; the clock of a creation is an argument. *)
From S2P Require Import Prelude DataModel Resources Updates.

(** ** Ordered collections

    [imbl::OrdMap<String, _>] and [imbl::OrdSet<String>] iterate in the order of
    their keys. *)
Definition sorted_strings (X : gset string) : list string := merge_sort String.le (elements X).
Definition ord_iter {A} (m : gmap string A) : list (string * A) :=
  omap (λ k, (λ v, (k, v)) <$> m !! k) (sorted_strings (dom m)).
Fixpoint take_while {A} (p : A → bool) (l : list A) : list A :=
  match l with
  | [] => []
  | x :: l => if p x then x :: take_while p l else []
  end.
(** [m.range(prefix..).take_while(|(k, _)| k.starts_with(&prefix))]. *)
Definition scan_prefix {A} (prefix : string) (m : gmap string A) : list (string * A) :=
  take_while (λ kv, String.prefix prefix kv.1)
    (List.filter (λ kv, bool_decide (String.le prefix kv.1)) (ord_iter m)).

(** ** State *)

Record PendingResources := MkPendingResources {
  pr_function_runs : ResourceProfileHistogram;
  pr_sandboxes : ResourceProfileHistogram;
  pr_function_pool_deficits : ResourceProfileHistogram;
  pr_sandbox_pool_deficits : ResourceProfileHistogram;
}.
#[export] Instance eta_PendingResources : Eta PendingResources := λ p,
  MkPendingResources (pr_function_runs p) (pr_sandboxes p) (pr_function_pool_deficits p) (pr_sandbox_pool_deficits p).

Record Namespace := MkNamespace {
  ns_name : string;
  ns_created_at : Z;
  ns_blob_storage_bucket : option string;
  ns_blob_storage_region : option string;
  ns_created_at_clock : option Z;
  ns_updated_at_clock : option Z;
}.

Record InMemoryState := MkInMemoryState {
  im_clock : Z;
  im_namespaces : gmap string Namespace;
  im_applications : gmap string Application;
  im_application_versions : gmap string ApplicationVersion;
  im_allocations_by_executor : gmap ExecutorId (gmap ContainerId (gmap AllocationId Allocation));
  im_unallocated_function_runs : gset FunctionRunKey;
  im_function_runs : gmap FunctionRunKey FunctionRun;
  im_request_ctx : gmap string RequestCtx;
  im_executor_catalog : list ExecutorCatalogEntry;
  im_sandboxes : gmap SandboxKey Sandbox;
  im_sandboxes_by_id : gmap SandboxId (gset SandboxKey);
  im_sandbox_by_container : gmap ContainerId SandboxKey;
  im_sandboxes_by_executor : gmap ExecutorId (gset SandboxKey);
  im_pending_sandboxes : gset SandboxKey;
  im_pending_sandboxes_by_profile : gmap ResourceProfile (gset SandboxKey);
  im_pending_sandbox_profile : gmap SandboxKey ResourceProfile;
  im_snapshots : gmap string Snapshot;
  im_pending_resources : PendingResources;
}.
#[export] Instance eta_InMemoryState : Eta InMemoryState := λ s,
  MkInMemoryState (im_clock s) (im_namespaces s) (im_applications s) (im_application_versions s)
    (im_allocations_by_executor s) (im_unallocated_function_runs s) (im_function_runs s) (im_request_ctx s)
    (im_executor_catalog s) (im_sandboxes s) (im_sandboxes_by_id s) (im_sandbox_by_container s)
    (im_sandboxes_by_executor s) (im_pending_sandboxes s) (im_pending_sandboxes_by_profile s)
    (im_pending_sandbox_profile s) (im_snapshots s) (im_pending_resources s).

Definition empty_state : InMemoryState :=
  MkInMemoryState 0 ∅ ∅ ∅ ∅ ∅ ∅ ∅ [] ∅ ∅ ∅ ∅ ∅ ∅ ∅ ∅ (MkPendingResources ∅ ∅ ∅ ∅).

(** ** Keys *)

Definition bar (a b : string) : string := a +:+ "|" +:+ b.
(** [FunctionRun::key] and [From<&Allocation> for FunctionRunKey]. *)
Definition run_key (r : FunctionRun) : FunctionRunKey :=
  bar (fr_namespace r) (bar (fr_application r) (bar (fr_request_id r) (fr_id r))).
Definition allocation_run_key (a : Allocation) : FunctionRunKey :=
  bar (al_namespace a) (bar (al_application a) (bar (al_request_id a) (al_function_call_id a))).
(** [RequestCtx::key_from], [FunctionRun::key_prefix_for_request]. *)
Definition request_key (ns app req : string) : string := bar ns (bar app req).
Definition run_key_prefix (ns app req : string) : string := bar ns (bar app (bar req "")).
(** [key_prefix_for_application], [ApplicationVersion::key_prefix_from]. *)
Definition app_key_prefix (ns app : string) : string := bar ns (bar app "").
(** [ApplicationVersion::key_from], [Application::key_from]. *)
Definition version_key (ns app ver : string) : string := bar ns (bar app ver).
Definition app_key (ns app : string) : string := bar ns app.
(** [SandboxKey::new], [From<&Sandbox> for SandboxKey], [SnapshotKey::new]. *)
Definition sandbox_key_new (ns id : string) : SandboxKey := bar ns id.
Definition sandbox_key (sb : Sandbox) : SandboxKey := sandbox_key_new (sb_namespace sb) (sb_id sb).
Definition snapshot_key_new (ns id : string) : string := bar ns id.
Definition snapshot_key (s : Snapshot) : string := snapshot_key_new (snap_namespace s) (snap_id s).

(** [SandboxStatus::is_pending]. *)
Definition sandbox_is_pending (st : SandboxStatus) : bool :=
  match st with SS_Pending _ => true | _ => false end.
(** [Application::to_version]. *)
Definition to_version (a : Application) : ApplicationVersion :=
  MkApplicationVersion (app_namespace a) (app_name a) (app_created_at a) (app_version a) (app_code a)
    (app_entrypoint a) (app_functions a) ∅ (app_state a) None None.
Definition run_is_pending (r : FunctionRun) : bool :=
  match fr_status r with FRS_Pending => true | _ => false end.

(** ** Lookups *)

(** [get_existing_application_version]. *)
Definition get_existing_application_version (im : InMemoryState) (r : FunctionRun) : option ApplicationVersion :=
  im_application_versions im !! version_key (fr_namespace r) (fr_application r) (fr_version r).
(** [InMemoryState::get_function]. *)
Definition get_function (im : InMemoryState) (r : FunctionRun) : option Function_ :=
  get_existing_application_version im r ≫= λ v, av_functions v !! fr_name r.
(** [InMemoryState::application_version]. *)
Definition application_version (im : InMemoryState) (ns app ver : string) : option ApplicationVersion :=
  im_application_versions im !! version_key ns app ver.
(** [resolve_pending_function_runs]. *)
Definition resolve_pending_function_runs (im : InMemoryState) (keys : list FunctionRunKey) : list FunctionRun :=
  List.filter run_is_pending (omap (λ k, im_function_runs im !! k) keys).
Definition run_profile (im : InMemoryState) (r : FunctionRun) : option ResourceProfile :=
  profile_from_function <$> get_function im r.

(** ** Function runs *)

(** Adjust the demand histogram for a run, if its function is known. *)
Definition demand_increment (im : InMemoryState) (r : FunctionRun) : InMemoryState :=
  match run_profile im r with
  | Some p => im <| im_pending_resources ::= λ d, d <| pr_function_runs ::= λ h, hist_increment h p |> |>
  | None => im
  end.
Definition demand_decrement (im : InMemoryState) (r : FunctionRun) : InMemoryState :=
  match run_profile im r with
  | Some p => im <| im_pending_resources ::= λ d, d <| pr_function_runs ::= λ h, hist_decrement h p |> |>
  | None => im
  end.

(** The loop body of [apply_scheduler_update_inner] for one function run. *)
Definition track_run (im : InMemoryState) (r : FunctionRun) : InMemoryState :=
  let key := run_key r in
  let was_pending := bool_decide (key ∈ im_unallocated_function_runs im) in
  let inserted := im <| im_unallocated_function_runs ::= λ x, {[key]} ∪ x |> in
  let removed := im <| im_unallocated_function_runs ::= λ x, x ∖ {[key]} |> in
  let im1 := match was_pending, run_is_pending r with
             | false, true => demand_increment inserted r
             | true, false => demand_decrement removed r
             | _, true => inserted
             | _, false => removed
             end in
  im1 <| im_function_runs ::= <[key := r]> |>.

(** The first loop of [delete_function_runs], one run. *)
Definition forget_run (im : InMemoryState) (r : FunctionRun) : InMemoryState :=
  let key := run_key r in
  let was_pending := bool_decide (key ∈ im_unallocated_function_runs im) in
  let im1 := im <| im_function_runs ::= delete key |>
                <| im_unallocated_function_runs ::= λ x, x ∖ {[key]} |> in
  if was_pending then demand_decrement im1 r else im1.

(** [delete_function_runs]. *)
Definition delete_function_runs (im : InMemoryState) (runs : list FunctionRun) : InMemoryState :=
  let im1 := foldl forget_run im runs in
  im1 <| im_allocations_by_executor ::= λ m,
    fmap (M := gmap ExecutorId) (fmap (M := gmap ContainerId) (λ allocs : gmap AllocationId Allocation,
      filter (λ kv, existsb (λ r, bool_decide (fr_id r = al_function_call_id kv.2)) runs = false) allocs)) m |>.

(** [delete_request]. *)
Definition delete_request (im : InMemoryState) (ns app req : string) : InMemoryState :=
  let im1 := im <| im_request_ctx ::= delete (request_key ns app req) |> in
  delete_function_runs im1 (scan_prefix (run_key_prefix ns app req) (im_function_runs im1)).*2.

(** ** Allocations *)

Definition insert_allocation (m : gmap ExecutorId (gmap ContainerId (gmap AllocationId Allocation))) (a : Allocation)
    : gmap ExecutorId (gmap ContainerId (gmap AllocationId Allocation)) :=
  let e := at_executor_id (al_target a) in
  let c := at_container_id (al_target a) in
  let by_container := default ∅ (m !! e) in
  <[e := <[c := <[al_id a := a]> (default ∅ (by_container !! c))]> by_container]> m.
(** [entry(executor).and_modify(..)] of the ingestion branches of [update_state]. *)
Definition remove_allocation (m : gmap ExecutorId (gmap ContainerId (gmap AllocationId Allocation)))
    (e : ExecutorId) (c : ContainerId) (a : AllocationId)
    : gmap ExecutorId (gmap ContainerId (gmap AllocationId Allocation)) :=
  alter (λ by_container, filter (λ kv, kv.2 ≠ ∅) (alter (delete a) c by_container)) e m.

(** ** Sandboxes *)

#[export] Instance eta_Sandbox : Eta Sandbox := λ s,
  MkSandbox (sb_id s) (sb_namespace s) (sb_image s) (sb_status s) (sb_outcome s) (sb_creation_time_ns s)
    (sb_created_at_clock s) (sb_updated_at_clock s) (sb_resources s) (sb_secret_names s) (sb_timeout_secs s)
    (sb_allow_unauthenticated_access s) (sb_executor_id s) (sb_entrypoint s) (sb_network_policy s) (sb_pool_id s)
    (sb_container_id s) (sb_snapshot_id s) (sb_exposed_ports s).
#[export] Instance eta_Snapshot : Eta Snapshot := λ s,
  MkSnapshot (snap_id s) (snap_namespace s) (snap_sandbox_id s) (snap_base_image s) (snap_status s) (snap_uri s)
    (snap_size_bytes s) (snap_creation_time_ns s) (snap_resources s) (snap_entrypoint s) (snap_secret_names s)
    (snap_upload_uri s).

(** [add_pending_sandbox]. *)
Definition add_pending_sandbox (im : InMemoryState) (key : SandboxKey) (p : ResourceProfile) : InMemoryState :=
  im <| im_pending_sandboxes ::= λ x, {[key]} ∪ x |>
     <| im_pending_sandboxes_by_profile ::= idx_insert p key |>
     <| im_pending_sandbox_profile ::= <[key := p]> |>
     <| im_pending_resources ::= λ d, d <| pr_sandboxes ::= λ h, hist_increment h p |> |>.

(** [remove_pending_sandbox]. *)
Definition remove_pending_sandbox (im : InMemoryState) (key : SandboxKey) : InMemoryState :=
  let im1 := im <| im_pending_sandboxes ::= λ x, x ∖ {[key]} |> in
  match im_pending_sandbox_profile im1 !! key with
  | Some p =>
      im1 <| im_pending_sandbox_profile ::= delete key |>
          <| im_pending_sandboxes_by_profile ::= idx_remove p key |>
          <| im_pending_resources ::= λ d, d <| pr_sandboxes ::= λ h, hist_decrement h p |> |>
  | None => im1
  end.

(** The insertions shared by the branches of a sandbox that is kept. *)
Definition store_sandbox (im : InMemoryState) (key : SandboxKey) (sb : Sandbox) : InMemoryState :=
  im <| im_sandboxes ::= <[key := sb]> |> <| im_sandboxes_by_id ::= idx_insert (sb_id sb) key |>.
Definition index_container (im : InMemoryState) (key : SandboxKey) (sb : Sandbox) : InMemoryState :=
  match sb_container_id sb with
  | Some c => im <| im_sandbox_by_container ::= <[c := key]> |>
  | None => im
  end.
Definition index_executor (im : InMemoryState) (key : SandboxKey) (sb : Sandbox) : InMemoryState :=
  match sb_executor_id sb with
  | Some e => im <| im_sandboxes_by_executor ::= idx_insert e key |>
  | None => im
  end.

(** The [Terminated] branch: the sandbox leaves the table and its indexes. *)
Definition forget_sandbox (im : InMemoryState) (key : SandboxKey) : InMemoryState :=
  let old := im_sandboxes im !! key in
  let im1 := if bool_decide (key ∈ im_pending_sandboxes im) then remove_pending_sandbox im key else im in
  let im2 := match old ≫= sb_container_id with
             | Some c => im1 <| im_sandbox_by_container ::= delete c |>
             | None => im1
             end in
  let im3 := match old ≫= sb_executor_id with
             | Some e => im2 <| im_sandboxes_by_executor ::= idx_remove e key |>
             | None => im2
             end in
  let im4 := match old with
             | Some o => im3 <| im_sandboxes_by_id ::= idx_remove (sb_id o) key |>
             | None => im3
             end in
  im4 <| im_sandboxes ::= delete key |>.

(** The loop body of [apply_scheduler_update_inner] for one sandbox. *)
Definition track_sandbox (im : InMemoryState) (key : SandboxKey) (sb : Sandbox) : InMemoryState :=
  let was_pending := bool_decide (key ∈ im_pending_sandboxes im) in
  match sb_status sb with
  | SS_Pending reason =>
      let im1 := store_sandbox im key sb in
      let awaiting_alloc := match reason with SPR_WaitingForContainer => false | _ => true end in
      let im2 := if was_pending && negb awaiting_alloc then remove_pending_sandbox im1 key
                 else if negb was_pending && awaiting_alloc
                 then add_pending_sandbox im1 key (profile_from_container_resources (sb_resources sb))
                 else im1 in
      index_executor (index_container im2 key sb) key sb
  | SS_Running =>
      let im1 := store_sandbox im key sb in
      if was_pending then index_executor (index_container (remove_pending_sandbox im1 key) key sb) key sb else im1
  | SS_Snapshotting _ => store_sandbox im key sb
  | SS_Terminated => forget_sandbox im key
  end.

(** ** Applying updates *)

Section apply.
Context `{HO : HashOrder}.

(** The runs an update lists, in the order the two loops visit them. *)
Definition updated_runs (u : SchedulerUpdateRequest) : list FunctionRun :=
  map_iter (su_updated_function_runs u) ≫= λ '(ctx_key, ids),
    omap (λ id, su_updated_request_states u !! ctx_key ≫= λ ctx, rc_function_runs ctx !! id) (set_iter ids).

(** The loop over [updated_request_states], one request. *)
Definition track_request (im : InMemoryState) (kc : string * RequestCtx) : InMemoryState :=
  let '(key, ctx) := kc in
  match rc_outcome ctx with
  | Some _ => delete_request im (rc_namespace ctx) (rc_application_name ctx) (rc_request_id ctx)
  | None => im <| im_request_ctx ::= <[key := ctx]> |>
  end.
(** The loop over [new_allocations], one allocation. *)
Definition track_allocation (acc : InMemoryState * gset ExecutorId) (a : Allocation)
    : InMemoryState * gset ExecutorId :=
  let '(im, changed) := acc in
  match im_function_runs im !! allocation_run_key a with
  | Some _ => (im <| im_allocations_by_executor ::= λ m, insert_allocation m a |>,
               {[at_executor_id (al_target a)]} ∪ changed)
  | None => acc
  end.
(** Whether a container update is announced to its executor. *)
Definition container_announced (m : ContainerServerMetadata) : bool :=
  match ctr_state (csm_function_container m) with CS_Pending => true | _ => false end
  || is_terminated (csm_desired_state m)
  || negb (bool_decide (ctr_sandbox_id (csm_function_container m) = None)).

(** [apply_scheduler_update_inner]. *)
Definition apply_scheduler_update_inner (im : InMemoryState) (u : SchedulerUpdateRequest) (changed : gset ExecutorId)
    : InMemoryState * gset ExecutorId :=
  let changed1 := foldl (λ x a, {[at_executor_id (al_target a)]} ∪ x) changed (su_updated_allocations u) in
  let im1 := foldl track_run im (updated_runs u) in
  let im2 := foldl track_request im1 (map_iter (su_updated_request_states u)) in
  let '(im3, changed2) := foldl track_allocation (im2, changed1) (su_new_allocations u) in
  let im4 := im3 <| im_allocations_by_executor ::= λ m, foldl (λ m e, delete e m) m (su_remove_executors u) |> in
  let changed3 := foldl (λ x e, {[e]} ∪ x) changed2 (su_remove_executors u) in
  let im5 := foldl (λ im kv, track_sandbox im kv.1 kv.2) im4 (map_iter (su_updated_sandboxes u)) in
  let im6 := im5 <| im_snapshots ::= λ m, su_updated_snapshots u ∪ m |> in
  let changed4 := foldl (λ x kv, if container_announced kv.2 then {[csm_executor_id kv.2]} ∪ x else x)
                    changed3 (map_iter (su_containers u)) in
  let im7 := match su_function_pool_deficits u with
             | Some d => im6 <| im_pending_resources ::= λ p, p <| pr_function_pool_deficits := d |> |>
             | None => im6
             end in
  let im8 := match su_sandbox_pool_deficits u with
             | Some d => im7 <| im_pending_resources ::= λ p, p <| pr_sandbox_pool_deficits := d |> |>
             | None => im7
             end in
  (im8, changed4).

(** [apply_scheduler_update]. *)
Definition apply_scheduler_update (im : InMemoryState) (clock : Z) (u : SchedulerUpdateRequest)
    : InMemoryState * gset ExecutorId :=
  apply_scheduler_update_inner (im <| im_clock := clock |>) u ∅.

(** [InvokeApplication]: one run of the new request. *)
Definition add_run (im : InMemoryState) (r : FunctionRun) : InMemoryState :=
  demand_increment
    (im <| im_function_runs ::= <[run_key r := r]> |>
        <| im_unallocated_function_runs ::= λ x, {[run_key r]} ∪ x |>) r.

(** [CreateOrUpdateApplication] with [upgrade_requests_to_current_version]: one
    run of a request that is moved to the new version. *)
Definition upgrade_run (version : string) (acc : InMemoryState * RequestCtx) (kr : FunctionCallId * FunctionRun)
    : InMemoryState * RequestCtx :=
  let '(im, ctx) := acc in
  let r := kr.2 in
  let '(r', ctx') :=
    if bool_decide (fr_version r = version) then (r, ctx)
    else let r' := r <| fr_version := version |> in (r', ctx <| rc_function_runs ::= <[fr_id r' := r']> |>) in
  (im <| im_function_runs ::= alter (λ _, r') (run_key r') |>, ctx').
Definition upgrade_request (version : string) (acc : InMemoryState * list RequestCtx) (ctx : RequestCtx)
    : InMemoryState * list RequestCtx :=
  let '(im, done) := acc in
  let ctx0 := ctx <| rc_application_version := version |> in
  let '(im', ctx') := foldl (upgrade_run version) (im, ctx0) (map_iter (rc_function_runs ctx0)) in
  (im', done ++ [ctx']).
Definition upgrade_requests (im : InMemoryState) (ns app version : string) : InMemoryState :=
  let ctxs := (scan_prefix (app_key_prefix ns app) (im_request_ctx im)).*2 in
  let '(im1, ctxs') := foldl (upgrade_request version) (im, []) ctxs in
  foldl (λ im ctx, im <| im_request_ctx ::= <[request_ctx_key ctx := ctx]> |>) im1 ctxs'.

(** [DeleteApplicationRequest]. *)
Definition delete_app (im : InMemoryState) (ns name : string) : InMemoryState :=
  let im1 := im <| im_applications ::= delete (app_key ns name) |> in
  let requests := (λ kv, rc_request_id kv.2) <$> scan_prefix (app_key_prefix ns name) (im_request_ctx im1) in
  let im2 := foldl (λ im k, delete_request im ns name k) im1 requests in
  let versions := (scan_prefix (app_key_prefix ns name) (im_application_versions im2)).*1 in
  im2 <| im_application_versions ::= λ m, foldl (λ m k, delete k m) m versions |>.

(** [CompleteSnapshot]: taking the sandbox out.  Unlike the [Terminated] branch
    above, an executor's set is not dropped when it becomes empty. *)
Definition drop_snapshotted_sandbox (im : InMemoryState) (key : SandboxKey) : InMemoryState :=
  match im_sandboxes im !! key with
  | None => im
  | Some sb =>
      let im1 := if sandbox_is_pending (sb_status sb) then remove_pending_sandbox im key else im in
      let im2 := match sb_container_id sb with
                 | Some c => im1 <| im_sandbox_by_container ::= delete c |>
                 | None => im1
                 end in
      let im3 := match sb_executor_id sb with
                 | Some e => im2 <| im_sandboxes_by_executor ::= alter (λ x, x ∖ {[key]}) e |>
                 | None => im2
                 end in
      im3 <| im_sandboxes_by_id ::= idx_remove (sb_id sb) key |> <| im_sandboxes ::= delete key |>
  end.
Definition find_snapshot (im : InMemoryState) (id : SnapshotId) : option (string * Snapshot) :=
  head (List.filter (λ kv, bool_decide (snap_id kv.2 = id)) (ord_iter (im_snapshots im))).

(** [update_state]; [now] is [get_epoch_time_in_ms()]. *)
Definition update_state (im : InMemoryState) (new_clock : Z) (now : Z) (request : RequestPayload)
    : InMemoryState * gset ExecutorId :=
  let im := im <| im_clock := new_clock |> in
  match request with
  | RP_InvokeApplication _ _ ctx =>
      (foldl add_run (im <| im_request_ctx ::= <[request_ctx_key ctx := ctx]> |>)
         (map_iter (rc_function_runs ctx)).*2, ∅)
  | RP_CreateNameSpace name bucket region =>
      let created_at := match im_namespaces im !! name with Some n => ns_created_at n | None => now end in
      (im <| im_namespaces ::= <[name := MkNamespace name created_at bucket region None None]> |>, ∅)
  | RP_CreateOrUpdateApplication ns app upgrade _ =>
      let v := to_version app in
      let im1 := im <| im_applications ::= <[app_key (app_namespace app) (app_name app) := app]> |>
                    <| im_application_versions ::= <[version_key (av_namespace v) (av_name v) (av_version v) := v]> |> in
      (if upgrade : bool then upgrade_requests im1 ns (app_name app) (av_version v) else im1, ∅)
  | RP_DeleteRequestRequest ns app req => (delete_request im ns app req, ∅)
  | RP_DeleteApplicationRequest ns name => (delete_app im ns name, ∅)
  | RP_SchedulerUpdate u => apply_scheduler_update_inner im u ∅
  | RP_UpsertExecutor _ outputs _ _ =>
      (im <| im_allocations_by_executor ::= λ m,
         foldl (λ m o, remove_allocation m (aout_executor_id o) (at_container_id (al_target (aout_allocation o)))
                         (al_id (aout_allocation o))) m outputs |>,
       foldl (λ x o, {[aout_executor_id o]} ∪ x) ∅ outputs)
  | RP_DataplaneResults ev =>
      (im <| im_allocations_by_executor ::= λ m,
         foldl (λ m o, remove_allocation m (dr_executor_id ev) (at_container_id (ao_allocation_target o))
                         (ao_allocation_id o)) m (dr_allocation_events ev) |>,
       foldl (λ x _, {[dr_executor_id ev]} ∪ x) ∅ (dr_allocation_events ev))
  | RP_CreateSandbox sb =>
      let im1 := store_sandbox im (sandbox_key sb) sb in
      (if sandbox_is_pending (sb_status sb)
       then add_pending_sandbox im1 (sandbox_key sb) (profile_from_container_resources (sb_resources sb)) else im1, ∅)
  | RP_SnapshotSandbox snap _ =>
      (im <| im_snapshots ::= <[snapshot_key snap := snap]> |>
          <| im_sandboxes ::= alter (λ sb, sb <| sb_status := SS_Snapshotting (snap_id snap) |>
                                              <| sb_snapshot_id := Some (snap_id snap) |>)
                                (sandbox_key_new (snap_namespace snap) (snap_sandbox_id snap)) |>, ∅)
  | RP_CompleteSnapshot id uri size =>
      match find_snapshot im id with
      | Some (key, snap) =>
          let im1 := im <| im_snapshots ::= alter (λ s, s <| snap_status := SnapCompleted |> <| snap_uri := Some uri |>
                                                          <| snap_size_bytes := Some size |>) key |> in
          (drop_snapshotted_sandbox im1 (sandbox_key_new (snap_namespace snap) (snap_sandbox_id snap)), ∅)
      | None => (im, ∅)
      end
  | RP_FailSnapshot id error =>
      match find_snapshot im id with
      | Some (key, snap) =>
          (im <| im_snapshots ::= alter (λ s, s <| snap_status := SnapFailed error |>) key |>
              <| im_sandboxes ::= alter (λ sb, sb <| sb_status := SS_Terminated |>)
                                    (sandbox_key_new (snap_namespace snap) (snap_sandbox_id snap)) |>, ∅)
      | None => (im, ∅)
      end
  | RP_DeleteSnapshot ns id => (im <| im_snapshots ::= delete (snapshot_key_new ns id) |>, ∅)
  | _ => (im, ∅)
  end.
End apply.

(** ** Prefix scans *)

Lemma string_le_cons a x b y :
  String.le (String a x) (String b y) ↔
  Ascii.compare a b = Lt ∨ (a = b ∧ String.le x y).
Proof.
  unfold String.le, String.leb. simpl. destruct (Ascii.compare a b) eqn:E.
  - apply Ascii.compare_eq_iff in E as ->. naive_solver.
  - split; [by left|done].
  - split; [done|]. intros [?|[-> _]]; [done|]. unfold Ascii.compare in E. by rewrite N.compare_refl in E.
Qed.
Lemma prefix_le p k : String.prefix p k = true → String.le p k.
Proof.
  revert k. induction p as [|c p IH]; intros [|d k]; simpl; [done|done|done|].
  destruct (Ascii.ascii_dec c d) as [->|]; [|done]. intros H. rewrite string_le_cons. right. auto.
Qed.
(** The keys with a prefix are contiguous in the order of keys. *)
Lemma prefix_between p a b :
  String.le p a → String.le a b → String.prefix p b = true → String.prefix p a = true.
Proof.
  revert a b. induction p as [|c p IH]; intros a b Hp Hab Hb; [by destruct a|].
  destruct b as [|d b]; [done|]. simpl in Hb. destruct (Ascii.ascii_dec c d) as [<-|]; [|done].
  destruct a as [|e a]; [done|]. rewrite string_le_cons in Hp, Hab.
  assert (e = c ∧ String.le p a ∧ String.le a b) as (-> & Hpa & Hab').
  { destruct Hp as [Hp|[-> Hp]], Hab as [Hab|[Heq Hab]]; [|subst..|by subst].
    - exfalso. unfold Ascii.compare in *. rewrite N.compare_lt_iff in Hp, Hab. lia.
    - unfold Ascii.compare in Hp. by rewrite N.compare_refl in Hp.
    - unfold Ascii.compare in Hab. by rewrite N.compare_refl in Hab. }
  simpl. destruct (Ascii.ascii_dec c c); [|done]. by apply (IH a b).
Qed.

Lemma take_while_sorted {A} (P : A → bool) (R : A → A → Prop) l :
  StronglySorted R l → (∀ a b, a ∈ l → b ∈ l → R a b → P b = true → P a = true) →
  take_while P l = List.filter P l.
Proof.
  induction 1 as [|a l Hs IH Hf]; intros HP; simpl; [done|].
  destruct (P a) eqn:Ea.
  { f_equal. apply IH. intros x y Hx Hy. by apply HP; right. }
  symmetry. cut (∀ b, b ∈ List.filter P l → False); [by destruct (List.filter P l); [|intros H; destruct (H _ (list_elem_of_here _ _))]|].
  intros b Hb. apply list_elem_of_In, filter_In in Hb as [Hb%list_elem_of_In Pb].
  rewrite Forall_forall in Hf. rewrite (HP a b) in Ea; [done|left|by right|by apply Hf|done].
Qed.

Lemma elem_of_sorted_strings X k : k ∈ sorted_strings X ↔ k ∈ X.
Proof. unfold sorted_strings. by rewrite merge_sort_Permutation, elem_of_elements. Qed.
Lemma elem_of_ord_iter {A} (m : gmap string A) k v : (k, v) ∈ ord_iter m ↔ m !! k = Some v.
Proof.
  unfold ord_iter. rewrite list_elem_of_omap. split.
  - intros (k' & _ & H). apply fmap_Some in H as (v' & H & [= -> ->]). done.
  - intros H. exists k. rewrite H, elem_of_sorted_strings. split; [|done]. by apply elem_of_dom_2 in H.
Qed.
Definition key_le {A} (p q : string * A) : Prop := String.le p.1 q.1.
Lemma ord_iter_sorted {A} (m : gmap string A) : StronglySorted key_le (ord_iter m).
Proof.
  unfold ord_iter. assert (H : StronglySorted String.le (sorted_strings (dom m))) by (apply StronglySorted_merge_sort; apply _).
  induction H as [|k l Hs IH Hf]; [constructor|]. cbn [omap list_omap].
  destruct (m !! k) as [v|]; simpl; [|done]. constructor; [done|]. rewrite Forall_forall in Hf. rewrite Forall_forall.
  intros [k' v'] Hin. apply list_elem_of_omap in Hin as (k2 & Hk2 & H2). apply fmap_Some in H2 as (? & _ & [= -> ->]).
  by apply Hf.
Qed.
Lemma filter_sorted {A} (P : A → bool) (R : A → A → Prop) l : StronglySorted R l → StronglySorted R (List.filter P l).
Proof.
  induction 1 as [|a l Hs IH Hf]; simpl; [constructor|]. destruct (P a); [|done]. constructor; [done|].
  rewrite Forall_forall in Hf. rewrite Forall_forall. intros b Hb. apply list_elem_of_In, filter_In in Hb as [Hb _]. by apply Hf, list_elem_of_In.
Qed.
Lemma elem_of_scan_prefix {A} prefix (m : gmap string A) k v :
  (k, v) ∈ scan_prefix prefix m ↔ m !! k = Some v ∧ String.prefix prefix k = true.
Proof.
  unfold scan_prefix. rewrite (take_while_sorted _ key_le).
  - rewrite list_elem_of_In, filter_In, filter_In, <-list_elem_of_In, elem_of_ord_iter, bool_decide_eq_true. simpl.
    split; [tauto|]. intros [? Hp]. split_and!; [done|by apply prefix_le|done].
  - apply filter_sorted, ord_iter_sorted.
  - intros [a x] [b y] Ha _ Hab Hb. apply list_elem_of_In, filter_In in Ha as [_ Ha%bool_decide_eq_true].
    by apply (prefix_between prefix a b).
Qed.
Lemma NoDup_ord_iter_fst {A} (m : gmap string A) : NoDup (ord_iter m).*1.
Proof.
  unfold ord_iter. assert (H : NoDup (sorted_strings (dom m))).
  { unfold sorted_strings. rewrite merge_sort_Permutation. apply NoDup_elements. }
  induction H as [|k l Hk Hs IH]; [constructor|]. cbn [omap list_omap].
  destruct (m !! k) as [v|]; simpl; [|done]. constructor; [|done].
  intros ([k' v'] & -> & Hin)%list_elem_of_fmap. apply list_elem_of_omap in Hin as (k2 & Hk2 & H2).
  apply fmap_Some in H2 as (? & _ & [= -> ->]). done.
Qed.

(** ** The pending-run index and the demand it stands for *)

(** The fields that track function runs. *)
Definition run_view (im : InMemoryState) :=
  (im_application_versions im, im_unallocated_function_runs im, im_function_runs im,
   pr_function_runs (im_pending_resources im)).

(** Runs are filed under their keys, and the index lists exactly the pending
    ones. *)
Definition runs_wf (im : InMemoryState) : Prop :=
  (∀ k r, im_function_runs im !! k = Some r → run_key r = k) ∧
  ∀ k, k ∈ im_unallocated_function_runs im ↔ ∃ r, im_function_runs im !! k = Some r ∧ run_is_pending r = true.

(** The profile of the run stored under a key. *)
Definition profile_at (im : InMemoryState) (k : FunctionRunKey) : option ResourceProfile :=
  im_function_runs im !! k ≫= run_profile im.
Definition pending_with (im : InMemoryState) (p : ResourceProfile) : gset FunctionRunKey :=
  filter (λ k, profile_at im k = Some p) (im_unallocated_function_runs im).
(** The histogram counts the pending runs by the profile of their function. *)
Definition demand_wf (im : InMemoryState) : Prop :=
  hist_wf (pr_function_runs (im_pending_resources im)) ∧
  ∀ p, hist_count (pr_function_runs (im_pending_resources im)) p = Z.of_nat (size (pending_with im p)).

Lemma run_view_wf im im' : run_view im = run_view im' → runs_wf im ∧ demand_wf im → runs_wf im' ∧ demand_wf im'.
Proof.
  unfold run_view. intros [= E1 E2 E3 E4]. unfold runs_wf, demand_wf, pending_with, profile_at.
  assert (Hp : ∀ r, run_profile im' r = run_profile im r)
    by (intros r; unfold run_profile, get_function, get_existing_application_version; by rewrite E1).
  rewrite <-E2, <-E3, <-E4. intros [[H1 H2] [H3 H4]]. split_and!; [done|done|done|].
  intros p. rewrite H4. do 2 f_equal. apply set_eq. intros k. rewrite !elem_of_filter.
  destruct (im_function_runs im !! k) as [r|]; simpl; [|done]. by rewrite Hp.
Qed.

Lemma demand_increment_view im r :
  run_view (demand_increment im r) =
    (im_application_versions im, im_unallocated_function_runs im, im_function_runs im,
     match run_profile im r with
     | Some p => hist_increment (pr_function_runs (im_pending_resources im)) p
     | None => pr_function_runs (im_pending_resources im)
     end).
Proof. unfold demand_increment. by destruct (run_profile im r). Qed.
Lemma demand_decrement_view im r :
  run_view (demand_decrement im r) =
    (im_application_versions im, im_unallocated_function_runs im, im_function_runs im,
     match run_profile im r with
     | Some p => hist_decrement (pr_function_runs (im_pending_resources im)) p
     | None => pr_function_runs (im_pending_resources im)
     end).
Proof. unfold demand_decrement. by destruct (run_profile im r). Qed.

(** The state after tracking a run, field by field. *)
Definition tracked_demand (im : InMemoryState) (r : FunctionRun) : ResourceProfileHistogram :=
  let h := pr_function_runs (im_pending_resources im) in
  let was := bool_decide (run_key r ∈ im_unallocated_function_runs im) in
  match run_profile im r with
  | Some p => if run_is_pending r then (if was then h else hist_increment h p)
              else if was then hist_decrement h p else h
  | None => h
  end.
Definition tracked (im : InMemoryState) (r : FunctionRun) : InMemoryState :=
  im <| im_unallocated_function_runs ::= λ x, if run_is_pending r then {[run_key r]} ∪ x else x ∖ {[run_key r]} |>
     <| im_function_runs ::= <[run_key r := r]> |>
     <| im_pending_resources ::= λ d, d <| pr_function_runs := tracked_demand im r |> |>.
Lemma track_run_view im r : run_view (track_run im r) = run_view (tracked im r).
Proof.
  unfold track_run, tracked, tracked_demand. destruct (bool_decide _) eqn:Hw, (run_is_pending r) eqn:Hp;
    unfold demand_increment, demand_decrement, run_profile, get_function, get_existing_application_version;
    cbn [im_application_versions set_field eta_InMemoryState];
    destruct (im_application_versions im !! _) as [v|]; cbn [mbind option_bind]; try reflexivity;
    destruct (av_functions v !! _); reflexivity.
Qed.

Lemma size_insert_elem `{Countable K} (x : K) (X : gset K) :
  Z.of_nat (size ({[x]} ∪ X)) = Z.of_nat (size X) + (if decide (x ∈ X) then 0 else 1).
Proof.
  case_decide; [rewrite subseteq_union_1_L by set_solver; lia|].
  rewrite size_union by set_solver. rewrite size_singleton. lia.
Qed.
Lemma size_remove_elem `{Countable K} (x : K) (X : gset K) :
  Z.of_nat (size (X ∖ {[x]})) = Z.of_nat (size X) - (if decide (x ∈ X) then 1 else 0).
Proof.
  case_decide; [|rewrite difference_disjoint_L by set_solver; lia].
  rewrite size_difference by set_solver. rewrite size_singleton.
  pose proof (subseteq_size {[x]} X ltac:(set_solver)) as Hs. rewrite size_singleton in Hs. lia.
Qed.
Lemma pending_with_size im p : Z.of_nat (size (pending_with im p)) ≤ Z.of_nat (size (im_unallocated_function_runs im)).
Proof. apply inj_le, subseteq_size. unfold pending_with. set_solver. Qed.

(** Two runs are counted under the same profile. *)
Definition same_demand (im : InMemoryState) (r : FunctionRun) : Prop :=
  ∀ old, im_function_runs im !! run_key r = Some old → run_profile im old = run_profile im r.

Lemma run_profile_versions im im' r :
  im_application_versions im' = im_application_versions im → run_profile im' r = run_profile im r.
Proof. intros E. unfold run_profile, get_function, get_existing_application_version. by rewrite E. Qed.

Lemma pending_with_tracked im r p :
  runs_wf im → same_demand im r →
  pending_with (tracked im r) p =
    if run_is_pending r && bool_decide (run_profile im r = Some p)
    then {[run_key r]} ∪ pending_with im p else pending_with im p ∖ {[run_key r]}.
Proof.
  intros [_ Hpen] Hs. apply set_eq. intros k. unfold pending_with at 1. rewrite elem_of_filter. unfold profile_at.
  change (im_function_runs (tracked im r)) with (<[run_key r := r]> (im_function_runs im)).
  change (im_unallocated_function_runs (tracked im r)) with
    (if run_is_pending r then {[run_key r]} ∪ im_unallocated_function_runs im
     else im_unallocated_function_runs im ∖ {[run_key r]}).
  destruct (decide (k = run_key r)) as [->|Hne].
  - rewrite lookup_insert_eq. simpl. rewrite (run_profile_versions im) by done.
    destruct (run_is_pending r); simpl; [|set_solver]. case_bool_decide; set_solver.
  - rewrite lookup_insert_ne by done.
    assert (Hp : ∀ o, run_profile (tracked im r) o = run_profile im o) by (intros o; by apply run_profile_versions).
    assert ((im_function_runs im !! k ≫= run_profile (tracked im r)) = profile_at im k) as ->.
    { unfold profile_at. destruct (im_function_runs im !! k); simpl; [apply Hp|done]. }
    assert (k ∈ pending_with im p ↔ profile_at im k = Some p ∧ k ∈ im_unallocated_function_runs im)
      by (unfold pending_with; by rewrite elem_of_filter).
    destruct (run_is_pending r && _), (run_is_pending r); set_solver.
Qed.
Lemma key_pending_with im r p :
  runs_wf im → same_demand im r →
  run_key r ∈ pending_with im p ↔ run_key r ∈ im_unallocated_function_runs im ∧ run_profile im r = Some p.
Proof.
  intros [_ Hpen] Hs. unfold pending_with, profile_at. rewrite elem_of_filter. rewrite Hpen.
  destruct (im_function_runs im !! run_key r) as [o|] eqn:E; simpl; [|naive_solver].
  rewrite (Hs o E). naive_solver.
Qed.

Lemma tracked_wf im r :
  runs_wf im ∧ demand_wf im → same_demand im r →
  Z.of_nat (size (im_unallocated_function_runs im)) < u64_max →
  runs_wf (tracked im r) ∧ demand_wf (tracked im r).
Proof.
  intros [Hr [Hh Hd]] Hs Hsz. split; [|split].
  - destruct Hr as [Hk Hp]. split.
    + intros k o. change (im_function_runs (tracked im r)) with (<[run_key r := r]> (im_function_runs im)).
      rewrite lookup_insert_Some. intros [[<- <-]|[_ ?]]; auto.
    + intros k. change (im_function_runs (tracked im r)) with (<[run_key r := r]> (im_function_runs im)).
      change (im_unallocated_function_runs (tracked im r)) with
        (if run_is_pending r then {[run_key r]} ∪ im_unallocated_function_runs im
         else im_unallocated_function_runs im ∖ {[run_key r]}).
      destruct (decide (k = run_key r)) as [->|Hne].
      * rewrite lookup_insert_eq. destruct (run_is_pending r) eqn:E; [split; [eauto|set_solver]|].
        split; [set_solver|]. intros (? & [= <-] & ?). congruence.
      * rewrite lookup_insert_ne by done. rewrite <-Hp. destruct (run_is_pending r); set_solver.
  - change (pr_function_runs (im_pending_resources (tracked im r))) with (tracked_demand im r). unfold tracked_demand.
    destruct (run_profile im r) as [p|]; [|done]. pose proof (pending_with_size im p). rewrite <-Hd in H.
    destruct (run_is_pending r), (bool_decide _); try done; [apply hist_increment_spec; [done|lia]|by apply hist_decrement_spec].
  - intros p. rewrite (pending_with_tracked im r p Hr Hs).
    pose proof (key_pending_with im r p Hr Hs) as Hkey. pose proof (Hd p) as Hdp.
    change (pr_function_runs (im_pending_resources (tracked im r))) with (tracked_demand im r). unfold tracked_demand.
    destruct (run_profile im r) as [q|] eqn:Eq.
    2:{ rewrite (bool_decide_eq_false_2 (None = Some p)), andb_false_r by done. rewrite size_remove_elem, decide_False by naive_solver. lia. }
    pose proof (pending_with_size im q) as Hq. rewrite <-Hd in Hq.
    destruct (decide (q = p)) as [->|Hqp].
    + rewrite (bool_decide_eq_true_2 (Some p = Some p)), andb_true_r by done. destruct (run_is_pending r).
      * rewrite size_insert_elem. case_bool_decide as Hin; [rewrite decide_True by naive_solver; lia|].
        rewrite decide_False by naive_solver. destruct (hist_increment_spec _ p Hh) as [_ ->]; [lia|]. rewrite decide_True by done. lia.
      * rewrite size_remove_elem. case_bool_decide as Hin; [|rewrite decide_False by naive_solver; lia].
        rewrite decide_True by naive_solver. destruct (hist_decrement_spec _ p Hh) as [_ ->]. rewrite decide_True by done.
        unfold saturating_sub.
        assert (pending_with im p ≠ ∅) by (intros He; rewrite He in Hkey; set_solver).
        assert (size (pending_with im p) ≠ 0%nat) by (intros ?%size_empty_inv; set_solver). lia.
    + rewrite (bool_decide_eq_false_2 (Some q = Some p)), andb_false_r by naive_solver.
      rewrite size_remove_elem, decide_False by naive_solver.
      assert (H1 := λ Hlt, proj2 (hist_increment_spec _ q Hh Hlt) p). assert (H2 := proj2 (hist_decrement_spec _ q Hh) p).
      destruct (run_is_pending r), (bool_decide _); rewrite ?H1, ?H2, ?decide_False by (congruence || lia); lia.
Qed.

Definition state_wf (im : InMemoryState) : Prop := runs_wf im ∧ demand_wf im.
Definition room (im : InMemoryState) : Prop := Z.of_nat (size (im_unallocated_function_runs im)) < u64_max.

Lemma track_run_wf im r : state_wf im → same_demand im r → room im → state_wf (track_run im r).
Proof. intros H Hs Hr. apply (run_view_wf (tracked im r)); [symmetry; apply track_run_view|by apply tracked_wf]. Qed.

(** Dropping a run that is not pending changes neither the index nor the demand. *)
Lemma delete_idle_run_wf im k :
  state_wf im → k ∉ im_unallocated_function_runs im → state_wf (im <| im_function_runs ::= delete k |>).
Proof.
  intros [[Hk Hp] [Hh Hd]] Hnin.
  set (im' := im <| im_function_runs ::= delete k |>).
  assert (E : im_function_runs im' = delete k (im_function_runs im)) by done.
  assert (U : im_unallocated_function_runs im' = im_unallocated_function_runs im) by done.
  split; [split|split].
  - intros k' r. rewrite E, lookup_delete_Some. intros [_ ?]. by apply Hk.
  - intros k'. rewrite E, U. destruct (decide (k' = k)) as [->|Hne].
    + rewrite lookup_delete_eq. naive_solver.
    + rewrite lookup_delete_ne by done. apply Hp.
  - exact Hh.
  - intros p. change (pr_function_runs (im_pending_resources im')) with (pr_function_runs (im_pending_resources im)).
    rewrite Hd. do 2 f_equal. apply set_eq. intros k'. unfold pending_with. rewrite !elem_of_filter, U. unfold profile_at.
    rewrite E. destruct (decide (k' = k)) as [->|Hne]; [naive_solver|]. rewrite lookup_delete_ne by done.
    by destruct (im_function_runs im !! k').
Qed.

(** Forgetting a run is completing it and dropping it. *)
Lemma forget_run_view im r :
  let done_run := r <| fr_status := FRS_Completed |> in
  run_view (forget_run im r) = run_view (tracked im done_run <| im_function_runs ::= delete (run_key r) |>).
Proof.
  intros done_run. unfold forget_run, tracked, tracked_demand.
  change (run_key done_run) with (run_key r). change (run_is_pending done_run) with false.
  change (run_profile im done_run) with (run_profile im r).
  assert (Hd : delete (run_key r) (<[run_key r := done_run]> (im_function_runs im)) = delete (run_key r) (im_function_runs im))
    by apply delete_insert_eq.
  destruct (bool_decide _) eqn:Hw.
  - rewrite demand_decrement_view. unfold run_view.
    cbn [im_application_versions im_unallocated_function_runs im_function_runs im_pending_resources set_field
         eta_InMemoryState eta_PendingResources pr_function_runs]. rewrite Hd.
    match goal with |- context [run_profile ?a r] => change (run_profile a r) with (run_profile im r) end.
    by destruct (run_profile im r).
  - unfold run_view. cbn [im_application_versions im_unallocated_function_runs im_function_runs im_pending_resources set_field
         eta_InMemoryState eta_PendingResources pr_function_runs]. rewrite Hd. by destruct (run_profile im r).
Qed.

Lemma forget_run_fields im r :
  im_function_runs (forget_run im r) = delete (run_key r) (im_function_runs im) ∧
  im_unallocated_function_runs (forget_run im r) = im_unallocated_function_runs im ∖ {[run_key r]} ∧
  im_application_versions (forget_run im r) = im_application_versions im ∧
  im_request_ctx (forget_run im r) = im_request_ctx im ∧
  im_allocations_by_executor (forget_run im r) = im_allocations_by_executor im.
Proof.
  unfold forget_run, demand_decrement. destruct (bool_decide _); [|done]. by destruct (run_profile _ r).
Qed.

Lemma forget_run_wf im r :
  state_wf im → room im → im_function_runs im !! run_key r = Some r → state_wf (forget_run im r).
Proof.
  intros H Hr Hst. eapply run_view_wf; [symmetry; apply forget_run_view|].
  apply delete_idle_run_wf.
  - apply tracked_wf; [done| |done]. intros old Ho. change (run_key (r <| fr_status := FRS_Completed |>)) with (run_key r) in Ho.
    rewrite Hst in Ho. by injection Ho as <-.
  - change (im_unallocated_function_runs (tracked im (r <| fr_status := FRS_Completed |>))) with
      (im_unallocated_function_runs im ∖ {[run_key r]}). set_solver.
Qed.

Lemma forget_runs l : ∀ im,
  state_wf im → room im → (∀ r, r ∈ l → im_function_runs im !! run_key r = Some r) → NoDup (run_key <$> l) →
  let im' := foldl forget_run im l in
  state_wf im' ∧ room im' ∧
  (∀ k, im_function_runs im' !! k = if bool_decide (k ∈ run_key <$> l) then None else im_function_runs im !! k) ∧
  im_application_versions im' = im_application_versions im ∧ im_request_ctx im' = im_request_ctx im ∧
  im_allocations_by_executor im' = im_allocations_by_executor im.
Proof.
  induction l as [|r l IH]; intros im Hw Hr Hst Hnd; [done|]. cbn [foldl].
  apply NoDup_cons in Hnd as [Hnin Hnd]. destruct (forget_run_fields im r) as (F1 & F2 & F3 & F4 & F5).
  destruct (IH (forget_run im r)) as (I1 & I2 & I3 & I4 & I5 & I6).
  - apply forget_run_wf; [done|done|apply Hst; left].
  - unfold room. rewrite F2. pose proof (size_remove_elem (run_key r) (im_unallocated_function_runs im)).
    unfold room in Hr. case_decide; lia.
  - intros r' Hr'. rewrite F1, lookup_delete_ne; [apply Hst; by right|]. intros Heq. apply Hnin. rewrite Heq.
    by apply list_elem_of_fmap_2.
  - done.
  - split_and!; [done|done| |by rewrite I4|by rewrite I5|by rewrite I6].
    intros k. rewrite I3, F1. change (run_key <$> r :: l) with (run_key r :: (run_key <$> l)).
    destruct (decide (k = run_key r)) as [->|Hne].
    + rewrite lookup_delete_eq, (bool_decide_eq_true_2 (_ ∈ _ :: _)) by left. by case_bool_decide.
    + rewrite lookup_delete_ne by done. rewrite (bool_decide_ext (k ∈ run_key r :: _) (k ∈ run_key <$> l)); [done|].
      rewrite elem_of_cons. tauto.
Qed.


(** ** Deleting a request *)

(** Whether a run key belongs to the request. *)
Definition of_request (ns app req : string) (k : FunctionRunKey) : bool := String.prefix (run_key_prefix ns app req) k.

Lemma take_while_sublist {A} (P : A → bool) l : sublist (take_while P l) l.
Proof. induction l as [|x l IH]; simpl; [constructor|]. destruct (P x); [by constructor|apply sublist_nil_l]. Qed.
Lemma filter_sublist {A} (P : A → bool) (l : list A) : sublist (List.filter P l) l.
Proof. induction l as [|x l IH]; simpl; [constructor|]. destruct (P x); by constructor. Qed.
Lemma NoDup_scan_prefix {A} prefix (m : gmap string A) : NoDup (scan_prefix prefix m).*1.
Proof.
  eapply sublist_NoDup; [apply (NoDup_ord_iter_fst m)|]. apply fmap_sublist. unfold scan_prefix.
  etrans; [apply take_while_sublist|apply filter_sublist].
Qed.
Lemma scan_run_keys im prefix :
  runs_wf im →
  run_key <$> (scan_prefix prefix (im_function_runs im)).*2 = (scan_prefix prefix (im_function_runs im)).*1.
Proof.
  intros [Hk _]. rewrite <-list_fmap_compose. apply list_fmap_ext. intros i [k r] Hi. simpl.
  apply list_elem_of_lookup_2, elem_of_scan_prefix in Hi as [Hi _]. by apply Hk.
Qed.
Lemma scan_runs_stored im prefix r :
  runs_wf im → r ∈ (scan_prefix prefix (im_function_runs im)).*2 →
  im_function_runs im !! run_key r = Some r ∧ String.prefix prefix (run_key r) = true.
Proof.
  intros [Hk _] ([k r'] & -> & Hin)%list_elem_of_fmap. apply elem_of_scan_prefix in Hin as [H1 H2]. simpl.
  by rewrite (Hk _ _ H1).
Qed.

Definition allocation_at (im : InMemoryState) (e : ExecutorId) (c : ContainerId) (a : AllocationId) : option Allocation :=
  im_allocations_by_executor im !! e ≫= λ m, m !! c ≫= λ m, m !! a.

(** What deleting a request leaves behind. *)
Record request_deleted (ns app req : string) (im im' : InMemoryState) : Prop := MkRequestDeleted {
  rd_wf : state_wf im';
  rd_ctx : im_request_ctx im' = delete (request_key ns app req) (im_request_ctx im);
  rd_runs : ∀ k, im_function_runs im' !! k = if of_request ns app req k then None else im_function_runs im !! k;
  rd_versions : im_application_versions im' = im_application_versions im;
  rd_pending : im_unallocated_function_runs im' ⊆ im_unallocated_function_runs im;
  rd_allocations : ∀ e c a al, allocation_at im' e c a = Some al ↔
    allocation_at im e c a = Some al ∧
    ∀ k r, im_function_runs im !! k = Some r → of_request ns app req k = true → fr_id r ≠ al_function_call_id al;
}.

Lemma delete_request_deleted im ns app req :
  state_wf im → room im → request_deleted ns app req im (delete_request im ns app req).
Proof.
  intros Hw Hr. set (im1 := im <| im_request_ctx ::= delete (request_key ns app req) |>).
  assert (Hw1 : state_wf im1) by exact Hw. assert (Hr1 : room im1) by exact Hr.
  set (runs := (scan_prefix (run_key_prefix ns app req) (im_function_runs im1)).*2).
  assert (Hst : ∀ r, r ∈ runs → im_function_runs im1 !! run_key r = Some r).
  { intros r Hin. apply (scan_runs_stored im1 _ r (proj1 Hw1)) in Hin. tauto. }
  destruct (forget_runs runs im1 Hw1 Hr1 Hst) as (F1 & F2 & F3 & F4 & F5 & F6).
  { unfold runs. rewrite scan_run_keys by apply Hw1. apply NoDup_scan_prefix. }
  set (im2 := foldl forget_run im1 runs) in *.
  assert (Hruns : ∀ k, im_function_runs im2 !! k = if of_request ns app req k then None else im_function_runs im !! k).
  { intros k. rewrite F3. unfold runs. rewrite scan_run_keys by apply Hw1. change (im_function_runs im1) with (im_function_runs im).
    case_bool_decide as Hin.
    - apply list_elem_of_fmap in Hin as ([k' r] & -> & Hin). apply elem_of_scan_prefix in Hin as [_ Hin]. unfold of_request. simpl. by rewrite Hin.
    - destruct (of_request ns app req k) eqn:E; [|done]. destruct (im_function_runs im !! k) as [r|] eqn:Ek; [|done].
      destruct Hin. apply list_elem_of_fmap. exists (k, r). split; [done|]. by apply elem_of_scan_prefix. }
  change (delete_request im ns app req) with (delete_function_runs im1 runs). split; try done.
  - intros k. destruct F1 as [[_ Hp] _]. destruct Hw as [[_ Hp0] _].
    change (im_unallocated_function_runs (delete_function_runs im1 runs)) with (im_unallocated_function_runs im2).
    rewrite Hp, Hp0. intros (r & Hk & Hpe). rewrite Hruns in Hk. exists r. split; [|done].
    by destruct (of_request ns app req k).
  - intros e c a al. unfold allocation_at.
    change (im_allocations_by_executor (delete_function_runs im1 runs)) with
      (fmap (M := gmap ExecutorId) (fmap (M := gmap ContainerId) (λ allocs : gmap AllocationId Allocation,
        filter (λ kv, existsb (λ r, bool_decide (fr_id r = al_function_call_id kv.2)) runs = false) allocs))
        (im_allocations_by_executor im2)).
    rewrite F6, lookup_fmap. change (im_allocations_by_executor im1) with (im_allocations_by_executor im).
    destruct (im_allocations_by_executor im !! e) as [m|]; simpl; [|naive_solver].
    rewrite lookup_fmap. destruct (m !! c) as [m'|]; simpl; [|naive_solver].
    rewrite map_lookup_filter_Some. simpl. apply and_iff_compat_l.
    rewrite <-not_true_iff_false, existsb_exists. split.
    + intros Hn k r Hk Ho Heq. apply Hn. exists r. rewrite bool_decide_eq_true. split; [|done].
      apply list_elem_of_In, list_elem_of_fmap. exists (k, r). split; [done|]. by apply elem_of_scan_prefix.
    + intros Hn (r & Hin%list_elem_of_In & Heq%bool_decide_eq_true).
      destruct (scan_runs_stored im1 _ r (proj1 Hw1) Hin) as [H1 H2]. by apply (Hn _ _ H1 H2).
Qed.


(** ** The pending-sandbox index and the demand it stands for *)

Definition awaits_allocation (sb : Sandbox) : bool :=
  match sb_status sb with
  | SS_Pending SPR_WaitingForContainer => false
  | SS_Pending _ => true
  | _ => false
  end.

(** The fields that track sandboxes waiting for a container. *)
Definition sandbox_view (im : InMemoryState) :=
  (im_sandboxes im, im_pending_sandboxes im, im_pending_sandboxes_by_profile im, im_pending_sandbox_profile im,
   pr_sandboxes (im_pending_resources im)).

(** The index of pending sandboxes without the table it indexes. *)
Record pending_index_wf (pending : gset SandboxKey) (by_profile : gmap ResourceProfile (gset SandboxKey))
    (profile : gmap SandboxKey ResourceProfile) (demand : ResourceProfileHistogram) : Prop := MkPendingIndexWf {
  pi_dom : dom profile = pending;
  pi_index : ∀ p k, k ∈ idx_get by_profile p ↔ profile !! k = Some p;
  pi_index_wf : idx_wf by_profile;
  pi_hist : hist_wf demand;
  pi_demand : ∀ p, hist_count demand p = Z.of_nat (size (idx_get by_profile p));
}.
Definition pending_wf (im : InMemoryState) : Prop :=
  pending_index_wf (im_pending_sandboxes im) (im_pending_sandboxes_by_profile im) (im_pending_sandbox_profile im)
    (pr_sandboxes (im_pending_resources im)).
Definition sandboxes_wf (im : InMemoryState) : Prop :=
  pending_wf im ∧
  ∀ k, k ∈ im_pending_sandboxes im ↔ ∃ sb, im_sandboxes im !! k = Some sb ∧ awaits_allocation sb = true.
Definition sandbox_room (im : InMemoryState) : Prop := Z.of_nat (size (im_pending_sandboxes im)) < u64_max.

Lemma sandbox_view_wf im im' : sandbox_view im = sandbox_view im' → sandboxes_wf im → sandboxes_wf im'.
Proof. unfold sandbox_view, sandboxes_wf, pending_wf. intros [= -> -> -> -> ->]. done. Qed.

Lemma pending_index_add pending by_p prof d k p :
  pending_index_wf pending by_p prof d → k ∉ pending → Z.of_nat (size pending) < u64_max →
  pending_index_wf ({[k]} ∪ pending) (idx_insert p k by_p) (<[k := p]> prof) (hist_increment d p).
Proof.
  intros [Hd Hi Hw Hh Hc] Hk Hs.
  assert (Hnone : prof !! k = None) by (apply not_elem_of_dom; by rewrite Hd).
  assert (Hlt : hist_count d p < u64_max).
  { rewrite Hc. eapply Z.le_lt_trans; [|exact Hs]. apply inj_le, subseteq_size. intros k' Hk'. apply Hi in Hk'.
    rewrite <-Hd. by apply elem_of_dom_2 in Hk'. }
  destruct (hist_increment_spec d p Hh Hlt) as [H1 H2]. split; [by rewrite dom_insert_L, Hd| |auto with indexify|done|].
  - intros q k'. rewrite elem_of_idx_insert, Hi, lookup_insert_Some. destruct (decide (k' = k)); naive_solver.
  - intros q. rewrite H2, Hc, idx_get_insert. destruct (decide (p = q)) as [->|]; [|rewrite decide_False by congruence; lia].
    rewrite decide_True, size_insert_elem, decide_False by (done || (rewrite Hi; congruence)). lia.
Qed.
Lemma pending_index_remove pending by_p prof d k p :
  pending_index_wf pending by_p prof d → prof !! k = Some p →
  pending_index_wf (pending ∖ {[k]}) (idx_remove p k by_p) (delete k prof) (hist_decrement d p).
Proof.
  intros [Hd Hi Hw Hh Hc] Hk. destruct (hist_decrement_spec d p Hh) as [H1 H2].
  split; [by rewrite dom_delete_L, Hd| |auto with indexify|done|].
  - intros q k'. rewrite elem_of_idx_remove, Hi, lookup_delete_Some. destruct (decide (k' = k)); naive_solver.
  - intros q. rewrite H2, idx_get_remove. destruct (decide (p = q)) as [->|]; [|rewrite decide_False by congruence; apply Hc].
    rewrite decide_True, Hc, size_remove_elem, decide_True by (done || by rewrite Hi). unfold saturating_sub.
    assert (size (idx_get by_p q) ≠ 0%nat); [|lia]. intros He%size_empty_inv. assert (k ∈ idx_get by_p q) by by rewrite Hi.
    set_solver.
Qed.
Lemma remove_pending_sandbox_fields im k :
  pending_wf im →
  let im' := remove_pending_sandbox im k in
  pending_wf im' ∧
  im_pending_sandboxes im' = im_pending_sandboxes im ∖ {[k]} ∧ im_sandboxes im' = im_sandboxes im ∧
  run_view im' = run_view im ∧ im_request_ctx im' = im_request_ctx im.
Proof.
  intros Hi. unfold remove_pending_sandbox. change (im_pending_sandbox_profile (im <| _ ::= _ |>)) with (im_pending_sandbox_profile im).
  destruct (im_pending_sandbox_profile im !! k) as [p|] eqn:E.
  - split; [|done]. exact (pending_index_remove _ _ _ _ k p Hi E).
  - split; [|done]. assert (im_pending_sandboxes im ∖ {[k]} = im_pending_sandboxes im) as Hs.
    { apply difference_disjoint_L. apply not_elem_of_dom in E. rewrite (pi_dom _ _ _ _ Hi) in E. set_solver. }
    unfold pending_wf. cbn. by rewrite Hs.
Qed.

(** A sandbox is snapshotted only once it has a container. *)
Definition sandbox_step_ok (im : InMemoryState) (k : SandboxKey) (sb : Sandbox) : Prop :=
  match sb_status sb with SS_Snapshotting _ => k ∉ im_pending_sandboxes im | _ => True end.

(** The bookkeeping fields of a state after one sandbox changed. *)
Record sandbox_tracked (k : SandboxKey) (sb : Sandbox) (im im' : InMemoryState) : Prop := MkSandboxTracked {
  st_index : pending_wf im';
  st_pending : im_pending_sandboxes im' =
    if awaits_allocation sb then {[k]} ∪ im_pending_sandboxes im else im_pending_sandboxes im ∖ {[k]};
  st_table : im_sandboxes im' =
    match sb_status sb with SS_Terminated => delete k (im_sandboxes im) | _ => <[k := sb]> (im_sandboxes im) end;
  st_runs : run_view im' = run_view im;
  st_ctx : im_request_ctx im' = im_request_ctx im;
}.
(** The fields that the container and executor indexes leave alone. *)
Definition tracking_view (im : InMemoryState) := (sandbox_view im, run_view im, im_request_ctx im).
Lemma sandbox_tracked_view k sb im im1 im' :
  tracking_view im1 = tracking_view im' → sandbox_tracked k sb im im1 → sandbox_tracked k sb im im'.
Proof.
  intros [= E1 E2 E3 E4 E5 E6 E7 E8 E9 E10] [H1 H2 H3 H4 H5]. split; [unfold pending_wf in *; congruence|congruence..| |congruence].
  rewrite <-H4. unfold run_view. congruence.
Qed.
Lemma index_view im k sb :
  tracking_view (index_container im k sb) = tracking_view im ∧ tracking_view (index_executor im k sb) = tracking_view im.
Proof. unfold index_container, index_executor. by destruct (sb_container_id sb), (sb_executor_id sb). Qed.

Lemma add_pending_tracked im k sb p :
  sandboxes_wf im → sandbox_room im → k ∉ im_pending_sandboxes im → awaits_allocation sb = true →
  sandbox_tracked k sb im (add_pending_sandbox (store_sandbox im k sb) k p).
Proof.
  intros [Hi _] Hr Hk Ha. split; [exact (pending_index_add _ _ _ _ k p Hi Hk Hr)|by rewrite Ha| |done|done].
  unfold awaits_allocation in Ha. by destruct (sb_status sb).
Qed.
Lemma remove_pending_tracked im k sb :
  sandboxes_wf im → awaits_allocation sb = false → sb_status sb ≠ SS_Terminated →
  sandbox_tracked k sb im (remove_pending_sandbox (store_sandbox im k sb) k).
Proof.
  intros [Hi _] Ha Ht. destruct (remove_pending_sandbox_fields (store_sandbox im k sb) k Hi) as (H1 & H2 & H3 & H4 & H5).
  split; [exact H1|rewrite H2, Ha; exact eq_refl| |rewrite H4; exact eq_refl|rewrite H5; exact eq_refl].
  rewrite H3. by destruct (sb_status sb).
Qed.
Lemma forget_sandbox_tracked im k sb :
  sandboxes_wf im → sb_status sb = SS_Terminated → sandbox_tracked k sb im (forget_sandbox im k).
Proof.
  intros Hw Ht. set (im1 := if bool_decide (k ∈ im_pending_sandboxes im) then remove_pending_sandbox im k else im).
  assert (H : sandbox_tracked k sb im (im1 <| im_sandboxes ::= delete k |>)).
  { destruct (remove_pending_sandbox_fields im k (proj1 Hw)) as (H1 & H2 & H3 & H4 & H5). unfold im1. case_bool_decide as Hk.
    - split; [exact H1| | |done|done].
      + change (im_pending_sandboxes (remove_pending_sandbox im k) = if awaits_allocation sb then {[k]} ∪ im_pending_sandboxes im else im_pending_sandboxes im ∖ {[k]}).
        rewrite H2. unfold awaits_allocation. by rewrite Ht.
      + rewrite Ht. change (delete k (im_sandboxes (remove_pending_sandbox im k)) = delete k (im_sandboxes im)). by rewrite H3.
    - split; [exact (proj1 Hw)| |by rewrite Ht|done|done].
      unfold awaits_allocation. rewrite Ht. cbn. symmetry. apply difference_disjoint_L. set_solver. }
  eapply sandbox_tracked_view; [|exact H]. unfold forget_sandbox. fold im1.
  destruct (im_sandboxes im !! k) as [o|]; [|done]. cbn [mbind option_bind].
  by destruct (sb_container_id o), (sb_executor_id o).
Qed.
Lemma store_tracked im k sb :
  sandboxes_wf im → sb_status sb ≠ SS_Terminated → (k ∈ im_pending_sandboxes im ↔ awaits_allocation sb = true) →
  sandbox_tracked k sb im (store_sandbox im k sb).
Proof.
  intros [Hi _] Ht Hk. split; [exact Hi| |by destruct (sb_status sb)|done|done].
  change (im_pending_sandboxes im = if awaits_allocation sb then {[k]} ∪ im_pending_sandboxes im else im_pending_sandboxes im ∖ {[k]}).
  destruct (awaits_allocation sb); [symmetry; apply subseteq_union_1_L|symmetry; apply difference_disjoint_L]; set_solver.
Qed.

Lemma track_sandbox_tracked im k sb :
  sandboxes_wf im → sandbox_room im → sandbox_step_ok im k sb → sandbox_tracked k sb im (track_sandbox im k sb).
Proof.
  intros Hw Hr Hok. unfold track_sandbox, sandbox_step_ok in *.
  destruct (sb_status sb) as [reason| | |] eqn:Es; [| |by apply forget_sandbox_tracked|].
  - assert (Ha : awaits_allocation sb = match reason with SPR_WaitingForContainer => false | _ => true end)
      by (unfold awaits_allocation; by rewrite Es).
    assert (Ht : sb_status sb ≠ SS_Terminated) by by rewrite Es.
    eapply sandbox_tracked_view; [symmetry; etrans; apply index_view|]. cbv zeta. rewrite <-Ha.
    case_bool_decide as Hk; destruct (awaits_allocation sb) eqn:Eaw; cbn [andb negb];
      [apply store_tracked|apply remove_pending_tracked|apply add_pending_tracked|apply store_tracked]; try done;
      rewrite Eaw; naive_solver.
  - assert (Ha : awaits_allocation sb = false) by (unfold awaits_allocation; by rewrite Es).
    assert (Ht : sb_status sb ≠ SS_Terminated) by by rewrite Es. cbv zeta. case_bool_decide as Hk.
    + eapply sandbox_tracked_view; [symmetry; etrans; apply index_view|]. by apply remove_pending_tracked.
    + apply store_tracked; [done..|]. rewrite Ha. naive_solver.
  - assert (Ha : awaits_allocation sb = false) by (unfold awaits_allocation; by rewrite Es).
    apply store_tracked; [done|by rewrite Es|]. rewrite Ha. naive_solver.
Qed.
Lemma sandbox_tracked_wf k sb im im' : sandboxes_wf im → sandbox_tracked k sb im im' → sandboxes_wf im'.
Proof.
  intros [_ Hp] [Hi Hpe Ht _ _]. split; [done|]. intros k'. rewrite Hpe, Ht. destruct (decide (k' = k)) as [->|Hne].
  - destruct (awaits_allocation sb) eqn:Ha.
    + split; [|set_solver]. intros _. exists sb. split; [|done]. unfold awaits_allocation in Ha.
      destruct (sb_status sb); first [done|by rewrite lookup_insert_eq].
    + split; [set_solver|]. intros (sb' & Hl & Ha'). destruct (sb_status sb);
        first [rewrite lookup_insert_eq in Hl; congruence|by rewrite lookup_delete_eq in Hl].
  - assert (Hl : match sb_status sb with SS_Terminated => delete k (im_sandboxes im) | _ => <[k:=sb]> (im_sandboxes im) end !! k'
                 = im_sandboxes im !! k').
    { destruct (sb_status sb); first [by rewrite lookup_insert_ne|by rewrite lookup_delete_ne]. }
    rewrite Hl, <-Hp. destruct (awaits_allocation sb); set_solver.
Qed.

(** ** Recorded allocations *)

(** A recorded allocation is of a run that is tracked. *)
Definition tracked_by (im : InMemoryState) (al : Allocation) : Prop :=
  ∃ r, im_function_runs im !! allocation_run_key al = Some r ∧ fr_id r = al_function_call_id al.
Definition allocations_wf (im : InMemoryState) : Prop :=
  ∀ e c a al, allocation_at im e c a = Some al → tracked_by im al.

Lemma allocations_wf_mono im im' :
  (∀ e c a al, allocation_at im' e c a = Some al → allocation_at im e c a = Some al) →
  (∀ al, tracked_by im al → tracked_by im' al) → allocations_wf im → allocations_wf im'.
Proof. intros H1 H2 H e c a al Ha. eapply H2, H, H1, Ha. Qed.

Lemma delete_request_allocations im ns app req :
  state_wf im → room im → allocations_wf im → allocations_wf (delete_request im ns app req).
Proof.
  intros Hw Hr Ha e c a al Hal. destruct (delete_request_deleted im ns app req Hw Hr) as [_ _ Hruns _ _ Hallocs].
  apply Hallocs in Hal as [Hal Hn]. destruct (Ha _ _ _ _ Hal) as (r & Hr1 & Hr2).
  exists r. split; [|done]. rewrite Hruns. destruct (of_request ns app req _) eqn:E; [|done].
  destruct (Hn _ _ Hr1 E Hr2).
Qed.

Definition allocs_view (im : InMemoryState) := (im_allocations_by_executor im, im_function_runs im).
Lemma allocs_view_wf im im' : allocs_view im = allocs_view im' → allocations_wf im → allocations_wf im'.
Proof. unfold allocs_view, allocations_wf, allocation_at, tracked_by. intros [= -> ->]. done. Qed.

Lemma track_run_fields im r :
  im_function_runs (track_run im r) = <[run_key r := r]> (im_function_runs im) ∧
  im_unallocated_function_runs (track_run im r) ⊆ {[run_key r]} ∪ im_unallocated_function_runs im ∧
  im_application_versions (track_run im r) = im_application_versions im ∧
  sandbox_view (track_run im r) = sandbox_view im ∧ im_request_ctx (track_run im r) = im_request_ctx im ∧
  im_allocations_by_executor (track_run im r) = im_allocations_by_executor im.
Proof.
  pose proof (track_run_view im r) as E. unfold run_view in E.
  assert (H1 : im_function_runs (track_run im r) = im_function_runs (tracked im r)) by congruence.
  assert (H2 : im_unallocated_function_runs (track_run im r) = im_unallocated_function_runs (tracked im r)) by congruence.
  assert (H3 : im_application_versions (track_run im r) = im_application_versions (tracked im r)) by congruence.
  rewrite H1, H2, H3. split_and!; [exact eq_refl| |exact eq_refl|..].
  - change (im_unallocated_function_runs (tracked im r)) with
      (if run_is_pending r then {[run_key r]} ∪ im_unallocated_function_runs im
       else im_unallocated_function_runs im ∖ {[run_key r]}). destruct (run_is_pending r); set_solver.
  - clear. unfold track_run, demand_increment, demand_decrement. destruct (bool_decide _), (run_is_pending r); try exact eq_refl;
      destruct (run_profile _ r); exact eq_refl.
  - clear. unfold track_run, demand_increment, demand_decrement. destruct (bool_decide _), (run_is_pending r); try exact eq_refl;
      destruct (run_profile _ r); exact eq_refl.
  - clear. unfold track_run, demand_increment, demand_decrement. destruct (bool_decide _), (run_is_pending r); try exact eq_refl;
      destruct (run_profile _ r); exact eq_refl.
Qed.

(** ** The invariant of the state *)

Record state_inv (im : InMemoryState) : Prop := MkStateInv {
  si_runs : state_wf im;
  si_sandboxes : sandboxes_wf im;
  si_allocations : allocations_wf im;
}.

(** A run keeps its function and its id when it is updated. *)
Definition same_run (im : InMemoryState) (r r' : FunctionRun) : Prop :=
  run_profile im r' = run_profile im r ∧ fr_id r' = fr_id r.
Record runs_ok (im : InMemoryState) (l : list FunctionRun) : Prop := MkRunsOk {
  ro_stored : ∀ r old, r ∈ l → im_function_runs im !! run_key r = Some old → same_run im old r;
  ro_listed : ∀ r r', r ∈ l → r' ∈ l → run_key r = run_key r' → same_run im r r';
  ro_room : Z.of_nat (size (im_unallocated_function_runs im) + length l) ≤ u64_max;
}.

Lemma track_run_allocations im r :
  (∀ old, im_function_runs im !! run_key r = Some old → same_run im old r) →
  allocations_wf im → allocations_wf (track_run im r).
Proof.
  destruct (track_run_fields im r) as (F1 & _ & _ & _ & _ & F6). intros Hs. apply allocations_wf_mono.
  - intros e c a al. unfold allocation_at. by rewrite F6.
  - intros al (o & H1 & H2). unfold tracked_by. rewrite F1. destruct (decide (allocation_run_key al = run_key r)) as [E|Hne].
    + rewrite E, lookup_insert_eq. exists r. split; [done|]. rewrite E in H1. destruct (Hs o H1) as [_ ->]. done.
    + rewrite lookup_insert_ne by done. eauto.
Qed.

Lemma track_runs_inv l : ∀ im,
  state_inv im → runs_ok im l →
  let im' := foldl track_run im l in
  state_inv im' ∧ sandbox_view im' = sandbox_view im ∧ im_request_ctx im' = im_request_ctx im ∧
  im_application_versions im' = im_application_versions im ∧
  im_allocations_by_executor im' = im_allocations_by_executor im ∧
  Z.of_nat (size (im_unallocated_function_runs im')) ≤ Z.of_nat (size (im_unallocated_function_runs im) + length l) ∧
  ∀ k r, im_function_runs im' !! k = Some r → im_function_runs im !! k = Some r ∨ (r ∈ l ∧ run_key r = k).
Proof.
  induction l as [|r l IH]; intros im Hi [Hs Hl Hr]; cbn [foldl].
  { split_and!; [done..| |by left]. simpl. lia. }
  destruct (track_run_fields im r) as (F1 & F2 & F3 & F4 & F5 & F6). destruct Hi as [Hw Hsb Ha].
  assert (Hprof : ∀ o, run_profile (track_run im r) o = run_profile im o) by (intros o; by apply run_profile_versions).
  assert (Hold : ∀ old, im_function_runs im !! run_key r = Some old → same_run im old r) by (intros old; apply Hs; left).
  destruct (IH (track_run im r)) as (I1 & I2 & I3 & I4 & I5 & I6 & I7).
  - split.
    + apply track_run_wf; [done| |unfold room; simpl in Hr; lia]. intros old Ho. by destruct (Hold old Ho).
    + by apply (sandbox_view_wf im).
    + by apply track_run_allocations.
  - split.
    + intros r' old Hr' Ho. unfold same_run. rewrite !Hprof. rewrite F1 in Ho. apply lookup_insert_Some in Ho as [[Hk <-]|[_ Ho]].
      * apply Hl; [left|by right|done].
      * apply Hs; [by right|done].
    + intros r1 r2 H1 H2. unfold same_run. rewrite !Hprof. apply Hl; by right.
    + pose proof (subseteq_size _ _ F2). pose proof (size_insert_elem (run_key r) (im_unallocated_function_runs im)).
      simpl in Hr. case_decide; lia.
  - pose proof (subseteq_size _ _ F2). pose proof (size_insert_elem (run_key r) (im_unallocated_function_runs im)).
    split_and!; [done|congruence..|simpl; case_decide; lia|]. intros k r' Hk. apply I7 in Hk as [Hk|[Hin Hk]]; [|right; split; [by right|done]].
    rewrite F1 in Hk. apply lookup_insert_Some in Hk as [[<- <-]|[_ Hk]]; [right; split; [left|done]|by left].
Qed.

Lemma forget_runs_sandbox_view l : ∀ im, sandbox_view (foldl forget_run im l) = sandbox_view im.
Proof.
  induction l as [|r l IH]; intros im; [done|]. cbn [foldl]. rewrite IH. unfold forget_run, demand_decrement.
  destruct (bool_decide _); [|exact eq_refl]. by destruct (run_profile _ r).
Qed.
Lemma delete_request_sandbox_view im ns app req : sandbox_view (delete_request im ns app req) = sandbox_view im.
Proof. etrans; [apply forget_runs_sandbox_view|exact eq_refl]. Qed.

(** What the loops after the first keep: nothing becomes pending, and runs are
    only dropped. *)
Record shrinks (im im' : InMemoryState) : Prop := MkShrinks {
  sh_pending : im_unallocated_function_runs im' ⊆ im_unallocated_function_runs im;
  sh_runs : ∀ k r, im_function_runs im' !! k = Some r → im_function_runs im !! k = Some r;
  sh_versions : im_application_versions im' = im_application_versions im;
  sh_sandboxes : sandbox_view im' = sandbox_view im;
}.
#[export] Instance shrinks_preorder : PreOrder shrinks.
Proof.
  split; [intros im; by split|]. intros a b c [H1 H2 H3 H4] [G1 G2 G3 G4].
  split; [by etrans|eauto|by rewrite G3|by rewrite G4].
Qed.
Lemma shrinks_room im im' : shrinks im im' → room im → room im'.
Proof. intros [H _ _ _] Hr. pose proof (subseteq_size _ _ H). unfold room in *. lia. Qed.

Lemma delete_request_shrinks im ns app req : state_wf im → room im → shrinks im (delete_request im ns app req).
Proof.
  intros Hw Hr. destruct (delete_request_deleted im ns app req Hw Hr) as [_ _ H3 H4 H5 _].
  split; [done| |done|apply delete_request_sandbox_view]. intros k r. rewrite H3. by destruct (of_request _ _ _ _).
Qed.
Lemma delete_request_inv im ns app req : state_inv im → room im → state_inv (delete_request im ns app req).
Proof.
  intros [Hw Hs Ha] Hr. split.
  - by apply delete_request_deleted.
  - by apply (sandbox_view_wf im); [rewrite delete_request_sandbox_view|].
  - by apply delete_request_allocations.
Qed.
Lemma delete_requests_inv {A} (f : A → string * string * string) (l : list A) : ∀ im,
  state_inv im → room im →
  let im' := foldl (λ im x, delete_request im (f x).1.1 (f x).1.2 (f x).2) im l in
  state_inv im' ∧ shrinks im im' ∧
  ∀ x k, x ∈ l → of_request (f x).1.1 (f x).1.2 (f x).2 k = true → im_function_runs im' !! k = None.
Proof.
  induction l as [|x l IH]; intros im Hi Hr; cbn [foldl]; [split_and!; [done|done|intros x k H; by apply not_elem_of_nil in H]|].
  pose proof (delete_request_shrinks im (f x).1.1 (f x).1.2 (f x).2 (si_runs _ Hi) Hr) as Hsh.
  destruct (IH (delete_request im (f x).1.1 (f x).1.2 (f x).2)) as (I1 & I2 & I3);
    [by apply delete_request_inv|by apply (shrinks_room im)|].
  split_and!; [done|by etrans|]. intros y k [->|Hy]%elem_of_cons Hk; [|by apply (I3 y)].
  apply eq_None_not_Some. intros [r Hkr]. apply (sh_runs _ _ I2) in Hkr.
  rewrite (rd_runs _ _ _ _ _ (delete_request_deleted im _ _ _ (si_runs _ Hi) Hr)) in Hkr. by rewrite Hk in Hkr.
Qed.

Lemma shrinks_refl_view im im' :
  run_view im' = run_view im → sandbox_view im' = sandbox_view im → shrinks im im'.
Proof. unfold run_view. intros [= E1 E2 E3 E4] Es. split; [by rewrite E2|by rewrite E3|done|done]. Qed.
Lemma views_inv im im' :
  run_view im = run_view im' → sandbox_view im = sandbox_view im' → im_allocations_by_executor im = im_allocations_by_executor im' →
  state_inv im → state_inv im'.
Proof.
  intros E1 E2 E3 [H1 H2 H3]. split; [by apply (run_view_wf im)|by apply (sandbox_view_wf im)|].
  apply (allocs_view_wf im); [|done]. unfold allocs_view, run_view in *. congruence.
Qed.

Lemma track_request_inv im kc :
  state_inv im → room im → state_inv (track_request im kc) ∧ shrinks im (track_request im kc).
Proof.
  destruct kc as [k ctx]. intros Hi Hr. unfold track_request. destruct (rc_outcome ctx).
  - split; [by apply delete_request_inv|apply delete_request_shrinks; [apply Hi|done]].
  - split; [apply (views_inv im); [exact eq_refl..|done]|by apply shrinks_refl_view].
Qed.
Lemma track_requests_inv l : ∀ im,
  state_inv im → room im →
  let im' := foldl track_request im l in
  state_inv im' ∧ shrinks im im' ∧
  ∀ key ctx k, (key, ctx) ∈ l → rc_outcome ctx ≠ None →
    of_request (rc_namespace ctx) (rc_application_name ctx) (rc_request_id ctx) k = true → im_function_runs im' !! k = None.
Proof.
  induction l as [|kc l IH]; intros im Hi Hr; cbn [foldl]; [split_and!; [done|done|intros ??? H; by apply not_elem_of_nil in H]|].
  destruct (track_request_inv im kc Hi Hr) as [H1 H2].
  destruct (IH (track_request im kc)) as (I1 & I2 & I3); [done|by apply (shrinks_room im)|].
  split_and!; [done|by etrans|]. intros key ctx k Hin Ho Hk. apply elem_of_cons in Hin as [<-|Hin]; [|by apply (I3 key ctx)].
  apply eq_None_not_Some. intros [r Hkr]. apply (sh_runs _ _ I2) in Hkr. unfold track_request in Hkr.
  destruct (rc_outcome ctx); [|done].
  rewrite (rd_runs _ _ _ _ _ (delete_request_deleted im _ _ _ (si_runs _ Hi) Hr)) in Hkr. by rewrite Hk in Hkr.
Qed.

(** The contexts left by the loop over the updated requests. *)
Lemma delete_function_runs_ctx im l : im_request_ctx (delete_function_runs im l) = im_request_ctx im.
Proof.
  unfold delete_function_runs. change (im_request_ctx (foldl forget_run im l) = im_request_ctx im).
  revert im. induction l as [|r l IH]; intros im; [done|]. cbn [foldl]. rewrite IH. apply forget_run_fields.
Qed.
Lemma track_requests_ctx l : ∀ im,
  NoDup l.*1 → (∀ key ctx, (key, ctx) ∈ l → key = request_ctx_key ctx) →
  (∀ key ctx, (key, ctx) ∈ l →
     im_request_ctx (foldl track_request im l) !! key = match rc_outcome ctx with Some _ => None | None => Some ctx end) ∧
  (∀ key, key ∉ l.*1 → im_request_ctx (foldl track_request im l) !! key = im_request_ctx im !! key).
Proof.
  induction l as [|[k0 c0] l IH]; intros im Hnd Hk.
  { split; [intros ?? H; by apply not_elem_of_nil in H|done]. }
  cbn [foldl]. apply NoDup_cons in Hnd as [Hn0 Hnd].
  destruct (IH (track_request im (k0, c0)) Hnd) as [I1 I2]; [intros; apply Hk; by right|].
  assert (Hk0 : k0 = request_ctx_key c0) by (apply Hk; left).
  assert (E : ∀ key, im_request_ctx (track_request im (k0, c0)) !! key =
    if decide (key = k0) then match rc_outcome c0 with Some _ => None | None => Some c0 end else im_request_ctx im !! key).
  { intros key. unfold track_request. destruct (rc_outcome c0).
    - unfold delete_request. rewrite delete_function_runs_ctx. change (delete (request_key (rc_namespace c0) (rc_application_name c0) (rc_request_id c0)) (im_request_ctx im) !! key = if decide (key = k0) then None else im_request_ctx im !! key).
      change (request_key (rc_namespace c0) (rc_application_name c0) (rc_request_id c0)) with (request_ctx_key c0). rewrite <-Hk0, lookup_delete.
      repeat case_decide; congruence.
    - change (<[k0 := c0]> (im_request_ctx im) !! key = if decide (key = k0) then Some c0 else im_request_ctx im !! key).
      rewrite lookup_insert. repeat case_decide; congruence. }
  split.
  - intros key ctx [[= -> ->]|Hin]%elem_of_cons; [|by apply I1]. rewrite I2, E by done. by rewrite decide_True.
  - intros key Hn. apply not_elem_of_cons in Hn as [H1 H2]. rewrite I2, E by done. by rewrite decide_False.
Qed.

(** Allocations: recorded only for runs that are tracked. *)
Lemma lookup_insert_allocation im a e c i :
  allocation_at (im <| im_allocations_by_executor ::= λ m, insert_allocation m a |>) e c i =
    if decide (e = at_executor_id (al_target a) ∧ c = at_container_id (al_target a) ∧ i = al_id a)
    then Some a else allocation_at im e c i.
Proof.
  unfold allocation_at. change (im_allocations_by_executor (im <| _ ::= _ |>)) with (insert_allocation (im_allocations_by_executor im) a).
  unfold insert_allocation. rewrite lookup_insert. destruct (decide (at_executor_id (al_target a) = e)) as [<-|Hne]; simpl.
  2:{ rewrite decide_False by naive_solver. done. }
  rewrite lookup_insert. destruct (decide (at_container_id (al_target a) = c)) as [<-|Hne]; simpl.
  2:{ rewrite decide_False by naive_solver. by destruct (im_allocations_by_executor im !! _). }
  rewrite lookup_insert. destruct (decide (al_id a = i)) as [<-|Hne].
  { by rewrite decide_True. }
  rewrite decide_False by naive_solver. destruct (im_allocations_by_executor im !! _) as [m|]; simpl; [|done].
  by destruct (m !! _).
Qed.
(** The run a new allocation is for has the allocation's call id. *)
Definition allocations_ok (im : InMemoryState) (l : list Allocation) : Prop :=
  ∀ a r, a ∈ l → im_function_runs im !! allocation_run_key a = Some r → fr_id r = al_function_call_id a.
Lemma track_allocations_inv l : ∀ im x,
  state_inv im → allocations_ok im l →
  let im' := (foldl track_allocation (im, x) l).1 in
  state_inv im' ∧ run_view im' = run_view im ∧ sandbox_view im' = sandbox_view im ∧ im_request_ctx im' = im_request_ctx im ∧
  ∀ e c i al, allocation_at im' e c i = Some al → allocation_at im e c i = Some al ∨ (al ∈ l ∧ tracked_by im al).
Proof.
  induction l as [|a l IH]; intros im x Hi Hok; cbn [foldl]; [split_and!; [done..|by left]|].
  assert (Ht : ∃ im1 x1, track_allocation (im, x) a = (im1, x1) ∧ state_inv im1 ∧ run_view im1 = run_view im ∧
    sandbox_view im1 = sandbox_view im ∧ im_request_ctx im1 = im_request_ctx im ∧
    ∀ e c i al, allocation_at im1 e c i = Some al → allocation_at im e c i = Some al ∨ (al ∈ a :: l ∧ tracked_by im al)).
  { unfold track_allocation. destruct (im_function_runs im !! allocation_run_key a) as [r|] eqn:E.
    2:{ exists im, x. split_and!; [done..|by left]. }
    assert (Ha : tracked_by im a) by (exists r; split; [done|apply Hok; [left|done]]).
    assert (Hall : ∀ e c i al, allocation_at (im <| im_allocations_by_executor ::= λ m, insert_allocation m a |>) e c i = Some al →
      allocation_at im e c i = Some al ∨ (al ∈ a :: l ∧ tracked_by im al)).
    { intros e c i al. rewrite lookup_insert_allocation. case_decide; [|by left]. intros [= <-]. right. split; [left|done]. }
    do 2 eexists. split; [reflexivity|]. split_and!; [|exact eq_refl|exact eq_refl|exact eq_refl|exact Hall].
    destruct Hi as [H1 H2 H3]. split; [exact H1|exact H2|].
    intros e c i al Hal. apply Hall in Hal as [Hal|[_ Hal]]; [exact (H3 _ _ _ _ Hal)|exact Hal]. }
  destruct Ht as (im1 & x1 & -> & H1 & H2 & H3 & H4 & H5).
  assert (Hr : im_function_runs im1 = im_function_runs im) by (unfold run_view in H2; congruence).
  destruct (IH im1 x1 H1) as (I1 & I2 & I3 & I4 & I5).
  { intros a' r Ha'. rewrite Hr. apply Hok. by right. }
  split_and!; [done|congruence..|]. intros e c i al Hal. apply I5 in Hal as [Hal|[Hal Ht]]; [by apply H5|].
  right. split; [by right|]. unfold tracked_by in *. by rewrite Hr in Ht.
Qed.

Lemma track_sandboxes_inv l : ∀ im,
  sandboxes_wf im → NoDup l.*1 → (∀ k sb, (k, sb) ∈ l → sandbox_step_ok im k sb) →
  Z.of_nat (size (im_pending_sandboxes im) + length l) ≤ u64_max →
  let im' := foldl (λ im kv, track_sandbox im kv.1 kv.2) im l in
  sandboxes_wf im' ∧ run_view im' = run_view im ∧ im_request_ctx im' = im_request_ctx im.
Proof.
  induction l as [|[k sb] l IH]; intros im Hw Hnd Hok Hr; [done|]. cbn [foldl fst snd].
  apply NoDup_cons in Hnd as [Hn0 Hnd]. simpl in Hr.
  assert (Ht : sandbox_tracked k sb im (track_sandbox im k sb)).
  { apply track_sandbox_tracked; [done|unfold sandbox_room; lia|apply Hok; left]. }
  assert (Hpend : im_pending_sandboxes (track_sandbox im k sb) ⊆ {[k]} ∪ im_pending_sandboxes im ∧
    ∀ k', k' ≠ k → k' ∈ im_pending_sandboxes (track_sandbox im k sb) ↔ k' ∈ im_pending_sandboxes im).
  { rewrite (st_pending _ _ _ _ Ht). destruct (awaits_allocation sb); set_solver. }
  destruct Hpend as [Hsub Hsame]. destruct (IH (track_sandbox im k sb)) as (I1 & I2 & I3).
  - by apply (sandbox_tracked_wf k sb im).
  - done.
  - intros k' sb' Hin. assert (k' ≠ k). { intros ->. apply Hn0. by apply (list_elem_of_fmap_2 fst) in Hin. }
    specialize (Hok k' sb' ltac:(by right)). unfold sandbox_step_ok in *. destruct (sb_status sb'); [done..|]. by rewrite Hsame.
  - pose proof (subseteq_size _ _ Hsub). pose proof (size_insert_elem k (im_pending_sandboxes im)). case_decide; lia.
  - destruct Ht as [_ _ _ H4 H5]. split_and!; [done|congruence..].
Qed.
Lemma track_sandbox_allocations im k sb :
  im_allocations_by_executor (track_sandbox im k sb) = im_allocations_by_executor im.
Proof.
  unfold track_sandbox, forget_sandbox, index_executor, index_container, remove_pending_sandbox.
  assert (Hr : ∀ im, im_allocations_by_executor (remove_pending_sandbox im k) = im_allocations_by_executor im).
  { intros im0. unfold remove_pending_sandbox. by destruct (im_pending_sandbox_profile _ !! k). }
  fold (remove_pending_sandbox (store_sandbox im k sb) k) (remove_pending_sandbox im k).
  pose proof (Hr im) as R1. pose proof (Hr (store_sandbox im k sb)) as R2.
  change (im_allocations_by_executor (store_sandbox im k sb)) with (im_allocations_by_executor im) in R2.
  destruct (sb_status sb) as [reason| | |].
  - destruct (sb_container_id sb), (sb_executor_id sb), (bool_decide _), reason; first [exact eq_refl|exact R2].
  - destruct (bool_decide _); [|exact eq_refl].
    destruct (sb_container_id sb), (sb_executor_id sb); exact R2.
  - destruct (im_sandboxes im !! k) as [o|]; cbn [mbind option_bind]; [destruct (sb_container_id o), (sb_executor_id o)|];
      (destruct (bool_decide _); [exact R1|exact eq_refl]).
  - exact eq_refl.
Qed.

Lemma lookup_foldl_delete `{Countable K} {A} (l : list K) : ∀ (m : gmap K A) k,
  foldl (λ m k, delete k m) m l !! k = if bool_decide (k ∈ l) then None else m !! k.
Proof.
  induction l as [|a l IH]; intros m k; cbn [foldl]; [done|]. rewrite IH, lookup_delete.
  repeat case_bool_decide; repeat case_decide; try done; set_solver.
Qed.

Section invariant.
Context `{HO : HashOrder}.

(** Updates the state store hands over: runs keep their function and id, requests
    are filed under their keys, sandboxes are snapshotted after allocation, and
    the counters have room. *)
Record update_ok (im : InMemoryState) (u : SchedulerUpdateRequest) : Prop := MkUpdateOk {
  uo_runs : runs_ok im (updated_runs u);
  uo_room : Z.of_nat (size (im_unallocated_function_runs im) + length (updated_runs u)) < u64_max;
  uo_allocations : ∀ a r, a ∈ su_new_allocations u → run_key r = allocation_run_key a →
    im_function_runs im !! run_key r = Some r ∨ r ∈ updated_runs u → fr_id r = al_function_call_id a;
  uo_sandboxes : ∀ k sb, su_updated_sandboxes u !! k = Some sb → sandbox_step_ok im k sb;
  uo_sandbox_room : Z.of_nat (size (im_pending_sandboxes im) + size (su_updated_sandboxes u)) ≤ u64_max;
}.

(** The state after the two loops over runs and requests. *)
Definition tracked_state (im : InMemoryState) (u : SchedulerUpdateRequest) : InMemoryState :=
  foldl track_request (foldl track_run im (updated_runs u)) (map_iter (su_updated_request_states u)).

Lemma tracked_state_inv im u :
  state_inv im → update_ok im u →
  state_inv (tracked_state im u) ∧ sandbox_view (tracked_state im u) = sandbox_view im ∧
  im_application_versions (tracked_state im u) = im_application_versions im ∧
  allocations_ok (tracked_state im u) (su_new_allocations u) ∧
  (∀ key ctx k, su_updated_request_states u !! key = Some ctx → rc_outcome ctx ≠ None →
     of_request (rc_namespace ctx) (rc_application_name ctx) (rc_request_id ctx) k = true →
     im_function_runs (tracked_state im u) !! k = None).
Proof.
  intros Hi [Hro Hrm Hal _ _]. destruct (track_runs_inv (updated_runs u) im Hi Hro) as (H1 & H2 & H3 & H4 & H5 & H6 & H7).
  destruct (track_requests_inv (map_iter (su_updated_request_states u)) (foldl track_run im (updated_runs u)) H1) as (I1 & I2 & I3).
  { unfold room. lia. }
  fold (tracked_state im u) in I1, I2, I3. split_and!; [done|rewrite (sh_sandboxes _ _ I2); done|rewrite (sh_versions _ _ I2); done| |].
  - intros a r Ha Hk. assert (Hkey : run_key r = allocation_run_key a) by (apply (proj1 (si_runs _ I1)), Hk).
    apply (Hal a r Ha Hkey). apply (sh_runs _ _ I2), H7 in Hk as [Hk|[Hk _]]; [left; by rewrite Hkey|by right].
  - intros key ctx k Hu. apply (I3 key ctx). by apply elem_of_map_iter.
Qed.

(** The state after an update, seen through the views. *)
Lemma apply_update_inv im u x :
  state_inv im → update_ok im u →
  let im' := (apply_scheduler_update_inner im u x).1 in
  state_inv im' ∧ run_view im' = run_view (tracked_state im u) ∧
  im_request_ctx im' = im_request_ctx (tracked_state im u) ∧
  (∀ e c i al, allocation_at im' e c i = Some al → tracked_by im' al) ∧
  (∀ e, e ∈ su_remove_executors u → im_allocations_by_executor im' !! e = None).
Proof.
  intros Hi Hok im'. destruct (tracked_state_inv im u Hi Hok) as (T1 & T2 & T3 & T4 & T5).
  set (x1 := foldl (λ x a, {[at_executor_id (al_target a)]} ∪ x) x (su_updated_allocations u)).
  destruct (track_allocations_inv (su_new_allocations u) (tracked_state im u) x1 T1 T4) as (A1 & A2 & A3 & A4 & A5).
  destruct (foldl track_allocation (tracked_state im u, x1) (su_new_allocations u)) as [im3 x2] eqn:E3. cbn [fst] in A1, A2, A3, A4, A5.
  set (im4 := im3 <| im_allocations_by_executor ::= λ m, foldl (λ m e, delete e m) m (su_remove_executors u) |>).
  destruct A1 as [W1 W2 W3].
  destruct (track_sandboxes_inv (map_iter (su_updated_sandboxes u)) im4) as (S1 & S2 & S3).
  { exact W2. }
  { apply NoDup_map_iter_fst. }
  { intros k sb Hin%elem_of_map_iter. apply (uo_sandboxes _ _ Hok) in Hin. unfold sandbox_step_ok in *.
    change (im_pending_sandboxes im4) with (im_pending_sandboxes im3).
    assert (im_pending_sandboxes im3 = im_pending_sandboxes im) as -> by (unfold sandbox_view in *; congruence). done. }
  { change (im_pending_sandboxes im4) with (im_pending_sandboxes im3).
    assert (im_pending_sandboxes im3 = im_pending_sandboxes im) as -> by (unfold sandbox_view in *; congruence).
    rewrite (Permutation_length (map_iter_perm _)), length_map_to_list. apply (uo_sandbox_room _ _ Hok). }
  set (im5 := foldl (λ im kv, track_sandbox im kv.1 kv.2) im4 (map_iter (su_updated_sandboxes u))) in *.
  assert (Hall : im_allocations_by_executor im5 = im_allocations_by_executor im4).
  { unfold im5. generalize (map_iter (su_updated_sandboxes u)) as l. generalize im4. clear. intros im l. revert im.
    induction l as [|[k sb] l IH]; intros im; [done|]. cbn [foldl]. rewrite IH. apply track_sandbox_allocations. }
  assert (Hend : run_view im' = run_view im5 ∧ sandbox_view im' = sandbox_view im5 ∧ im_request_ctx im' = im_request_ctx im5 ∧
    im_allocations_by_executor im' = im_allocations_by_executor im5).
  { unfold im', apply_scheduler_update_inner. fold x1. fold (tracked_state im u). rewrite E3. cbv zeta. fold im4. fold im5. cbn [fst].
    destruct (su_function_pool_deficits u), (su_sandbox_pool_deficits u); split_and!; exact eq_refl. }
  destruct Hend as (E1 & E2 & E4 & E5).
  assert (Hr4 : run_view im4 = run_view im3) by exact eq_refl.
  assert (Hruns : run_view im' = run_view (tracked_state im u)) by congruence.
  assert (Hw : allocations_wf im').
  { apply (allocations_wf_mono im3); [| |done].
    - intros e c i al. unfold allocation_at. rewrite E5, Hall. change (im_allocations_by_executor im4) with
        (foldl (λ m e, delete e m) (im_allocations_by_executor im3) (su_remove_executors u)). rewrite lookup_foldl_delete. by case_bool_decide.
    - intros al. unfold tracked_by. replace (im_function_runs im') with (im_function_runs im3); [done|]. unfold run_view in *. congruence. }
  split_and!; [|done|change (im_request_ctx im4) with (im_request_ctx im3) in S3; congruence|exact Hw|].
  - split; [apply (run_view_wf (tracked_state im u)); [done|apply T1]|by apply (sandbox_view_wf im5)|done].
  - intros e He. rewrite E5, Hall. change (im_allocations_by_executor im4) with
        (foldl (λ m e, delete e m) (im_allocations_by_executor im3) (su_remove_executors u)). rewrite lookup_foldl_delete. by case_bool_decide.
Qed.

(** C4: once the scheduler reports a request as finished, applying the update
    forgets it: its context is gone, none of its runs is stored or pending (the
    runs the same update lists included), and no executor has an allocation
    recorded for it, not even one the same update creates. *)
Theorem completed_request_forgotten (im : InMemoryState) clock u key ctx :
  state_inv im → update_ok im u →
  map_Forall (λ key ctx, key = request_ctx_key ctx) (su_updated_request_states u) →
  su_updated_request_states u !! key = Some ctx → rc_outcome ctx ≠ None →
  let im' := (apply_scheduler_update im clock u).1 in
  let its_run := of_request (rc_namespace ctx) (rc_application_name ctx) (rc_request_id ctx) in
  im_request_ctx im' !! key = None ∧
  (∀ k, its_run k = true → im_function_runs im' !! k = None ∧ k ∉ im_unallocated_function_runs im') ∧
  (∀ e c i al, allocation_at im' e c i = Some al → its_run (allocation_run_key al) = false).
Proof.
  intros Hi Hok Hkeyed Hu Hout im' its_run.
  assert (Hi1 : state_inv (im <| im_clock := clock |>)) by (destruct Hi as [H1 H2 H3]; by split).
  assert (Hok1 : update_ok (im <| im_clock := clock |>) u) by (destruct Hok as [[] ? ? ? ?]; by split).
  destruct (apply_update_inv (im <| im_clock := clock |>) u ∅ Hi1 Hok1) as (H1 & H2 & H3 & H4 & _).
  destruct (tracked_state_inv _ u Hi1 Hok1) as (_ & _ & _ & _ & T5).
  fold (apply_scheduler_update im clock u) in H1, H2, H3, H4. fold im' in H1, H2, H3, H4.
  assert (Hruns : ∀ k, its_run k = true → im_function_runs im' !! k = None).
  { intros k Hk. assert (im_function_runs im' = im_function_runs (tracked_state (im <| im_clock := clock |>) u)) as -> by (unfold run_view in H2; congruence).
    by apply (T5 key ctx). }
  split_and!.
  - rewrite H3. unfold tracked_state.
    destruct (track_requests_ctx (map_iter (su_updated_request_states u)) (foldl track_run (im <| im_clock := clock |>) (updated_runs u))) as [C1 _].
    + apply NoDup_map_iter_fst.
    + intros k c Hin%elem_of_map_iter. by apply Hkeyed in Hin.
    + rewrite (C1 key ctx) by by apply elem_of_map_iter. by destruct (rc_outcome ctx).
  - intros k Hk. split; [by apply Hruns|]. destruct (si_runs _ H1) as [[_ Hp] _]. rewrite Hp. rewrite Hruns by done. naive_solver.
  - intros e c i al Hal. destruct (H4 e c i al Hal) as (r & Hr & _). destruct (its_run (allocation_run_key al)) eqn:E; [|done].
    by rewrite Hruns in Hr.
Qed.

(** *** The requests other than updates *)

Lemma add_runs_inv l : ∀ im,
  state_inv im → NoDup (run_key <$> l) →
  (∀ r, r ∈ l → run_is_pending r = true ∧ im_function_runs im !! run_key r = None) →
  Z.of_nat (size (im_unallocated_function_runs im) + length l) ≤ u64_max →
  state_inv (foldl add_run im l).
Proof.
  induction l as [|r l IH]; intros im Hi Hnd Hfresh Hr; [done|]. cbn [foldl]. simpl in Hr.
  rewrite fmap_cons in Hnd. apply NoDup_cons in Hnd as [Hn Hnd]. destruct (Hfresh r (list_elem_of_here _ _)) as [Hp Hnone].
  assert (Hnp : run_key r ∉ im_unallocated_function_runs im).
  { destruct (si_runs _ Hi) as [[_ Hpen] _]. rewrite Hpen, Hnone. naive_solver. }
  assert (E : run_view (add_run im r) = run_view (track_run im r) ∧ sandbox_view (add_run im r) = sandbox_view (track_run im r) ∧
    im_allocations_by_executor (add_run im r) = im_allocations_by_executor (track_run im r)).
  { unfold add_run, track_run, demand_increment. rewrite bool_decide_eq_false_2, Hp by done.
    repeat match goal with
           | |- context [run_profile ?a r] => tryif constr_eq a im then fail else change (run_profile a r) with (run_profile im r)
           end.
    destruct (run_profile im r); split_and!; exact eq_refl. }
  destruct E as (E1 & E2 & E3). destruct (track_run_fields im r) as (F1 & F2 & _).
  apply IH; [|done| |].
  - apply (views_inv (track_run im r)); [done..|].
    destruct (track_runs_inv [r] im Hi) as (H & _); [|exact H].
    split; [intros ? old ->%list_elem_of_singleton; by rewrite Hnone|by intros ?? ->%list_elem_of_singleton ->%list_elem_of_singleton|simpl; lia].
  - intros r' Hr'. destruct (Hfresh r' (list_elem_of_further _ _ _ Hr')) as [? Hn']. split; [done|].
    assert (im_function_runs (add_run im r) = <[run_key r := r]> (im_function_runs im)) as -> by (rewrite <-F1; unfold run_view in E1; congruence).
    rewrite lookup_insert_ne; [done|]. intros Heq. apply Hn. rewrite Heq. by apply list_elem_of_fmap_2.
  - assert (im_unallocated_function_runs (add_run im r) = im_unallocated_function_runs (track_run im r)) as -> by (unfold run_view in E1; congruence).
    pose proof (subseteq_size _ _ F2). pose proof (size_insert_elem (run_key r) (im_unallocated_function_runs im)). case_decide; lia.
Qed.

(** Changing the versions table is harmless when stored runs keep their profile. *)
Lemma versions_inv im m :
  (∀ k r, im_function_runs im !! k = Some r → run_profile (im <| im_application_versions := m |>) r = run_profile im r) →
  state_inv im → state_inv (im <| im_application_versions := m |>).
Proof.
  intros Hp [[Hr [Hh Hd]] Hs Ha]. split; [|exact Hs|exact Ha]. split; [exact Hr|]. split; [exact Hh|].
  intros p. change (hist_count (pr_function_runs (im_pending_resources im)) p =
    Z.of_nat (size (pending_with (im <| im_application_versions := m |>) p))). rewrite Hd. do 2 f_equal.
  apply set_eq. intros k. unfold pending_with, profile_at.
  change (im_function_runs (im <| im_application_versions := m |>)) with (im_function_runs im).
  change (im_unallocated_function_runs (im <| im_application_versions := m |>)) with (im_unallocated_function_runs im).
  rewrite !elem_of_filter. destruct (im_function_runs im !! k) as [r|] eqn:E; cbn [mbind option_bind]; [|done]. by rewrite (Hp k r E).
Qed.

Lemma alter_sandbox_wf im k f :
  sandboxes_wf im → k ∉ im_pending_sandboxes im → (∀ sb, awaits_allocation (f sb) = false) →
  sandboxes_wf (im <| im_sandboxes ::= alter f k |>).
Proof.
  intros [Hi Hp] Hk Hf. split; [exact Hi|]. intros k'.
  change (k' ∈ im_pending_sandboxes im ↔ ∃ sb, alter f k (im_sandboxes im) !! k' = Some sb ∧ awaits_allocation sb = true).
  destruct (decide (k' = k)) as [->|Hne].
  - rewrite lookup_alter_eq. split; [done|]. intros (sb & (o & _ & ->)%fmap_Some & Ha). by rewrite Hf in Ha.
  - rewrite lookup_alter_ne by done. apply Hp.
Qed.
Lemma drop_snapshotted_wf im k :
  state_inv im → state_inv (drop_snapshotted_sandbox im k).
Proof.
  intros Hi. unfold drop_snapshotted_sandbox. destruct (im_sandboxes im !! k) as [sb|] eqn:E; [|done].
  set (im1 := if sandbox_is_pending (sb_status sb) then remove_pending_sandbox im k else im).
  assert (H1 : pending_wf im1 ∧ im_pending_sandboxes im1 = im_pending_sandboxes im ∖ {[k]} ∧ im_sandboxes im1 = im_sandboxes im ∧
    run_view im1 = run_view im ∧ im_allocations_by_executor im1 = im_allocations_by_executor im).
  { destruct Hi as [_ [Hpi Hp] _]. unfold im1. destruct (sandbox_is_pending (sb_status sb)) eqn:Es.
    - destruct (remove_pending_sandbox_fields im k Hpi) as (H1 & H2 & H3 & H4 & _). split_and!; [done..|].
      unfold remove_pending_sandbox. by destruct (im_pending_sandbox_profile _ !! k).
    - split_and!; [done| |done..]. symmetry. apply difference_disjoint_L. cut (k ∉ im_pending_sandboxes im); [set_solver|].
      rewrite Hp, E. intros (? & [= <-] & Ha). unfold awaits_allocation in Ha. by destruct (sb_status sb). }
  destruct H1 as (H1 & H2 & H3 & H4 & H5). apply (views_inv (im1 <| im_sandboxes ::= delete k |>)).
  - destruct (sb_container_id sb), (sb_executor_id sb); exact eq_refl.
  - destruct (sb_container_id sb), (sb_executor_id sb); exact eq_refl.
  - destruct (sb_container_id sb), (sb_executor_id sb); exact eq_refl.
  - destruct Hi as [Hw [_ Hp] Ha]. split.
    + apply (run_view_wf im); [by symmetry|done].
    + split; [exact H1|]. intros k'. change (k' ∈ im_pending_sandboxes im1 ↔
        ∃ sb, delete k (im_sandboxes im1) !! k' = Some sb ∧ awaits_allocation sb = true). rewrite H2, H3.
      destruct (decide (k' = k)) as [->|Hne]; [rewrite lookup_delete_eq; set_solver|].
      rewrite lookup_delete_ne by done. rewrite <-Hp. set_solver.
    + apply (allocs_view_wf im); [|done]. unfold allocs_view. change (im_allocations_by_executor (im1 <| im_sandboxes ::= delete k |>)) with (im_allocations_by_executor im1).
      change (im_function_runs (im1 <| im_sandboxes ::= delete k |>)) with (im_function_runs im1). rewrite H5. unfold run_view in H4. congruence.
Qed.
Lemma remove_allocation_sub m e c i e' c' i' al :
  (remove_allocation m e c i !! e' ≫= λ x, x !! c' ≫= λ x, x !! i') = Some al → (m !! e' ≫= λ x, x !! c' ≫= λ x, x !! i') = Some al.
Proof.
  unfold remove_allocation. destruct (decide (e' = e)) as [->|]; [|by rewrite lookup_alter_ne].
  rewrite lookup_alter_eq. destruct (m !! e) as [x|]; simpl; [|done].
  destruct (filter _ (alter _ c x) !! c') as [y|] eqn:E; simpl; [|done]. apply map_lookup_filter_Some in E as [E _].
  destruct (decide (c' = c)) as [->|]; [|rewrite lookup_alter_ne in E by done; by rewrite E].
  rewrite lookup_alter_eq in E. apply fmap_Some in E as (z & -> & ->). simpl. rewrite lookup_delete_Some. tauto.
Qed.
Lemma remove_allocations_inv {A} (f : A → ExecutorId * ContainerId * AllocationId) (l : list A) im :
  state_inv im →
  state_inv (im <| im_allocations_by_executor ::= λ m, foldl (λ m x, remove_allocation m (f x).1.1 (f x).1.2 (f x).2) m l |>).
Proof.
  intros [Hw Hs Ha]. split; [exact Hw|exact Hs|]. apply (allocations_wf_mono im); [|done|done].
  intros e c i al. unfold allocation_at. change (im_allocations_by_executor (im <| _ ::= _ |>)) with
    (foldl (λ m x, remove_allocation m (f x).1.1 (f x).1.2 (f x).2) (im_allocations_by_executor im) l).
  generalize (im_allocations_by_executor im) as m. induction l as [|x l IH]; intros m; [done|]. cbn [foldl].
  intros H%IH. by apply remove_allocation_sub in H.
Qed.

(** The state with a version of an application added. *)
Definition deployed (im : InMemoryState) (app : Application) : InMemoryState :=
  im <| im_applications ::= <[app_key (app_namespace app) (app_name app) := app]> |>
     <| im_application_versions ::= <[version_key (app_namespace app) (app_name app) (app_version app) := to_version app]> |>.
(** A run that may take the place of the tracked one: it is pending when that one is, and
    its function asks for the same resources. *)
Definition stands_for (im : InMemoryState) (r : FunctionRun) : Prop :=
  ∀ old, im_function_runs im !! run_key r = Some old → run_is_pending r = run_is_pending old ∧ fr_id r = fr_id old ∧ run_profile im r = run_profile im old.
(** The requests of an application that are moved to a new version keep the resources
    their runs ask for, and hold the runs as the table has them. *)
Definition upgrade_ok (im : InMemoryState) (ns app version : string) : Prop :=
  ∀ ctx r, ctx ∈ (scan_prefix (app_key_prefix ns app) (im_request_ctx im)).*2 → r ∈ (map_iter (rc_function_runs ctx)).*2 → stands_for im (r <| fr_version := version |>).

(** What each request must satisfy; the cases left out need nothing. *)
Definition request_ok (im : InMemoryState) (request : RequestPayload) : Prop :=
  match request with
  | RP_InvokeApplication _ _ ctx =>
      let runs := (map_iter (rc_function_runs ctx)).*2 in
      NoDup (run_key <$> runs) ∧
      (∀ r, r ∈ runs → run_is_pending r = true ∧ im_function_runs im !! run_key r = None) ∧
      Z.of_nat (size (im_unallocated_function_runs im) + length runs) ≤ u64_max
  | RP_CreateOrUpdateApplication ns app upgrade _ =>
      (upgrade = true → upgrade_ok (deployed im app) ns (app_name app) (app_version app)) ∧
      ∀ k r, im_function_runs im !! k = Some r →
        version_key (fr_namespace r) (fr_application r) (fr_version r) = version_key (app_namespace app) (app_name app) (app_version app) →
        av_functions <$> get_existing_application_version im r = Some (app_functions app)
  | RP_DeleteRequestRequest _ _ _ => room im
  | RP_DeleteApplicationRequest ns name =>
      room im ∧
      ∀ k r, im_function_runs im !! k = Some r →
        String.prefix (app_key_prefix ns name) (version_key (fr_namespace r) (fr_application r) (fr_version r)) = true →
        ∃ kc ctx, im_request_ctx im !! kc = Some ctx ∧ String.prefix (app_key_prefix ns name) kc = true ∧
                  of_request ns name (rc_request_id ctx) k = true
  | RP_SchedulerUpdate u => update_ok im u
  | RP_CreateSandbox sb =>
      sandbox_key sb ∉ im_pending_sandboxes im ∧ sandbox_room im ∧ sb_status sb ≠ SS_Terminated ∧
      sandbox_is_pending (sb_status sb) = awaits_allocation sb
  | RP_SnapshotSandbox snap _ => sandbox_key_new (snap_namespace snap) (snap_sandbox_id snap) ∉ im_pending_sandboxes im
  | RP_FailSnapshot id _ =>
      ∀ k snap, find_snapshot im id = Some (k, snap) →
        sandbox_key_new (snap_namespace snap) (snap_sandbox_id snap) ∉ im_pending_sandboxes im
  | _ => True
  end.

Lemma delete_app_inv im ns name :
  state_inv im → request_ok im (RP_DeleteApplicationRequest ns name) → state_inv (delete_app im ns name).
Proof.
  intros Hi [Hr Hreq]. set (im1 := im <| im_applications ::= delete (app_key ns name) |>).
  assert (Hi1 : state_inv im1) by (apply (views_inv im); [exact eq_refl..|done]).
  set (reqs := (λ kv : string * RequestCtx, rc_request_id kv.2) <$> scan_prefix (app_key_prefix ns name) (im_request_ctx im1)).
  destruct (delete_requests_inv (λ k, (ns, name, k)) reqs im1 Hi1 Hr) as (D1 & D2 & D3). cbn [fst snd] in D1, D2, D3.
  set (im2 := foldl (λ im k, delete_request im ns name k) im1 reqs) in *.
  set (versions := (scan_prefix (app_key_prefix ns name) (im_application_versions im2)).*1).
  change (delete_app im ns name) with
    (im2 <| im_application_versions := foldl (λ m k, delete k m) (im_application_versions im2) versions |>).
  apply versions_inv; [|done]. intros k r Hk. unfold run_profile, get_function, get_existing_application_version.
  change (im_application_versions (im2 <| im_application_versions := _ |>)) with (foldl (λ m k, delete k m) (im_application_versions im2) versions).
  rewrite lookup_foldl_delete. case_bool_decide as Hin; [|done]. exfalso.
  apply list_elem_of_fmap in Hin as ([kv v] & Ekv & Hin). apply elem_of_scan_prefix in Hin as [_ Hin]. simpl in Ekv. subst kv.
  destruct (Hreq k r (sh_runs _ _ D2 _ _ Hk) Hin) as (kc & ctx & Hc & Hp & Ho).
  rewrite (D3 (rc_request_id ctx) k) in Hk; [done| |done].
  apply list_elem_of_fmap. exists (kc, ctx). split; [done|]. by apply elem_of_scan_prefix.
Qed.
Lemma create_app_inv im app :
  state_inv im →
  (∀ k r, im_function_runs im !! k = Some r →
     version_key (fr_namespace r) (fr_application r) (fr_version r) = version_key (app_namespace app) (app_name app) (app_version app) →
     av_functions <$> get_existing_application_version im r = Some (app_functions app)) →
  state_inv (deployed im app).
Proof.
  intros Hi Hv. unfold deployed. set (im1 := im <| im_applications ::= <[app_key (app_namespace app) (app_name app) := app]> |>).
  apply (versions_inv im1); [|apply (views_inv im); [exact eq_refl..|done]].
  intros k r Hk. specialize (Hv k r Hk). revert Hv. unfold run_profile, get_function, get_existing_application_version.
  change (im_application_versions im1) with (im_application_versions im).
  change (im_application_versions (im1 <| im_application_versions := ?m |>)) with m.
  destruct (decide (version_key (fr_namespace r) (fr_application r) (fr_version r) =
                    version_key (app_namespace app) (app_name app) (app_version app))) as [Heq|Hne].
  - intros Hv. specialize (Hv Heq). cbn. rewrite Heq, lookup_insert_eq. rewrite Heq in Hv. apply fmap_Some in Hv as (v & -> & Hv2).
    simpl. by rewrite <-Hv2.
  - intros _. cbn. by rewrite lookup_insert_ne.
Qed.

(** *** Moving requests to a new version *)

Lemma replace_run_inv im r :
  state_inv im → stands_for im r → let im' := im <| im_function_runs ::= alter (λ _, r) (run_key r) |> in state_inv im' ∧ ∀ x, stands_for im x → stands_for im' x.
Proof.
  intros [[[Hk Hp] [Hh Hd]] Hs Ha] Hr im'. assert (E : im_function_runs im' = alter (λ _, r) (run_key r) (im_function_runs im)) by done.
  assert (HP : ∀ x, run_profile im' x = run_profile im x) by (intros x; by apply run_profile_versions).
  assert (Hat : ∀ k x, im_function_runs im' !! k = Some x → ∃ old, im_function_runs im !! k = Some old ∧
    run_key x = k ∧ run_is_pending x = run_is_pending old ∧ fr_id x = fr_id old ∧ run_profile im x = run_profile im old).
  { intros k x. rewrite E. destruct (decide (k = run_key r)) as [->|Hne].
    - rewrite lookup_alter_eq. intros (old & Ho & ->)%fmap_Some. exists old. destruct (Hr old Ho) as (? & ? & ?). by split_and!.
    - rewrite lookup_alter_ne by done. intros Hx. exists x. by rewrite (Hk k x Hx). }
  assert (Hsome : ∀ k, is_Some (im_function_runs im' !! k) ↔ is_Some (im_function_runs im !! k)).
  { intros k. rewrite E. destruct (decide (k = run_key r)) as [->|Hne]; [by rewrite lookup_alter_eq, fmap_is_Some|by rewrite lookup_alter_ne]. }
  split; [split; [split; [split|split]|exact Hs|]|].
  - intros k x Hx. by destruct (Hat k x Hx) as (_ & _ & ? & _).
  - intros k. change (im_unallocated_function_runs im') with (im_unallocated_function_runs im). rewrite Hp. split.
    + intros (old & Ho & Hpe). destruct (proj2 (Hsome k)) as [x Hx]; [by exists old|]. exists x. split; [done|]. destruct (Hat k x Hx) as (o & Ho' & _ & -> & _). congruence.
    + intros (x & Hx & Hpe). destruct (Hat k x Hx) as (o & Ho & _ & Heq & _). exists o. split; [done|congruence].
  - exact Hh.
  - intros p. change (hist_count (pr_function_runs (im_pending_resources im)) p = Z.of_nat (size (pending_with im' p))). rewrite Hd. do 2 f_equal.
    apply set_eq. intros k. unfold pending_with. rewrite !elem_of_filter. apply and_iff_compat_r. unfold profile_at. destruct (im_function_runs im' !! k) as [x|] eqn:Hx.
    + destruct (Hat k x Hx) as (o & -> & _ & _ & _ & Hpr). cbn. by rewrite HP, Hpr.
    + destruct (im_function_runs im !! k) as [o|] eqn:Ho; [|done]. destruct (proj2 (Hsome k)) as [x Hx']; [by exists o|congruence].
  - intros e c a al Hal. destruct (Ha e c a al Hal) as (old & Ho & Hid). destruct (proj2 (Hsome (allocation_run_key al))) as [x Hx]; [by exists old|]. exists x. split; [done|].
    destruct (Hat _ x Hx) as (o & Ho' & _ & _ & -> & _). congruence.
  - intros x Hx old Ho. destruct (Hat _ old Ho) as (o & Ho' & _ & H1 & H2 & H3). destruct (Hx o Ho') as (? & ? & ?). rewrite !HP. split_and!; congruence.
Qed.
Lemma upgrade_run_inv version im ctx kr :
  state_inv im → stands_for im (kr.2 <| fr_version := version |>) →
  state_inv (upgrade_run version (im, ctx) kr).1 ∧ ∀ x, stands_for im x → stands_for (upgrade_run version (im, ctx) kr).1 x.
Proof.
  intros Hi Hr. unfold upgrade_run. case_bool_decide as Hv; cbn [fst].
  - apply replace_run_inv; [done|]. replace (kr.2) with (kr.2 <| fr_version := version |>); [done|]. rewrite <-Hv. by destruct (kr.2).
  - by apply replace_run_inv.
Qed.
Lemma upgrade_runs_inv version l : ∀ im ctx,
  state_inv im → (∀ kr, kr ∈ l → stands_for im (kr.2 <| fr_version := version |>)) →
  let im' := (foldl (upgrade_run version) (im, ctx) l).1 in state_inv im' ∧ ∀ x, stands_for im x → stands_for im' x.
Proof.
  induction l as [|kr l IH]; intros im ctx Hi Hl; [done|]. cbn [foldl]. destruct (upgrade_run_inv version im ctx kr Hi) as [H1 H2]; [apply Hl; by left|].
  destruct (upgrade_run version (im, ctx) kr) as [im1 ctx1]. cbn [fst] in *. destruct (IH im1 ctx1 H1) as [H3 H4]; [intros x Hx; apply H2, Hl; by right|]. split; [done|]. auto.
Qed.
Lemma upgrade_requests_inv im ns app version : state_inv im → upgrade_ok im ns app version → state_inv (upgrade_requests im ns app version).
Proof.
  intros Hi Hu. unfold upgrade_requests, upgrade_ok in *. set (ctxs := (scan_prefix (app_key_prefix ns app) (im_request_ctx im)).*2) in *. clearbody ctxs.
  assert (state_inv (foldl (upgrade_request version) (im, []) ctxs).1) as H1.
  { revert Hi Hu. generalize ([] : list RequestCtx) as acc. revert im. induction ctxs as [|ctx l IH]; intros im acc Hi Hu; [done|]. cbn [foldl]. unfold upgrade_request at 2.
    change (rc_function_runs (ctx <| rc_application_version := version |>)) with (rc_function_runs ctx).
    destruct (upgrade_runs_inv version (map_iter (rc_function_runs ctx)) im (ctx <| rc_application_version := version |>) Hi) as [H1 H2].
    { intros kr Hkr. apply (Hu ctx); [by left|]. by apply list_elem_of_fmap_2. }
    destruct (foldl (upgrade_run version) _ _) as [im1 ctx1]. cbn [fst] in *. apply IH; [done|]. intros c r Hc Hr. apply H2, (Hu c); [by right|done]. }
  destruct (foldl (upgrade_request version) (im, []) ctxs) as [im1 ctxs']. cbn [fst] in H1. revert im1 H1. induction ctxs' as [|c l IH]; intros im1 H1; [done|]. cbn [foldl]. apply IH.
  apply (views_inv im1); [exact eq_refl..|done].
Qed.

(** C3: a request the state machine applies keeps the in-memory state consistent: runs are
    filed under their keys, the index of unallocated runs is exactly the pending ones, the
    demand histogram counts them by resource profile, the pending-sandbox index, its
    per-profile index and their histogram agree with the sandbox table, and every recorded
    allocation is of a tracked run.  Assumed of the request ([request_ok]): the runs of an
    invocation are new, pending and fewer than the counters can hold; a redeployed version
    keeps its functions, and one that requests are upgraded to asks for the same resources
    for their runs (without this the histogram drifts, [upgrade_leaves_stale_demand]); the
    runs of a deleted application belong to requests of it; a scheduler update keeps the
    id and the resources of the runs it updates and allocates tracked runs; a sandbox that
    is created is new and pending exactly when it waits for an allocation, and one that is
    snapshotted is not pending. *)
Theorem update_state_invariant (im : InMemoryState) clock now (request : RequestPayload) :
  state_inv im → request_ok im request → state_inv (update_state im clock now request).1.
Proof.
  intros Hi0 Hok0.
  assert (Hi : state_inv (im <| im_clock := clock |>)) by (apply (views_inv im); [exact eq_refl..|done]).
  assert (Hok : request_ok (im <| im_clock := clock |>) request).
  { destruct request; try exact Hok0. destruct Hok0 as [[] ? ? ? ?]; by split. }
  clear Hi0 Hok0. unfold update_state. cbv zeta. set (im0 := im <| im_clock := clock |>) in *. clearbody im0. clear im clock. rename im0 into im.
  destruct request; cbn [fst]; try exact Hi.
  - destruct Hok as (H1 & H2 & H3). apply add_runs_inv; [|done|exact H2|done].
    apply (views_inv im); [exact eq_refl..|done].
  - apply (views_inv im); [exact eq_refl..|done].
  - destruct Hok as [Hu Hv]. pose proof (create_app_inv im application Hi Hv) as Hd. destruct upgrade_requests_to_current_version; [by apply upgrade_requests_inv; [|apply Hu]|exact Hd].
  - apply (remove_allocations_inv (λ o, (aout_executor_id o, at_container_id (al_target (aout_allocation o)), al_id (aout_allocation o)))).
    done.
  - destruct Hok as (H1 & H2 & H3 & H4). rewrite H4.
    assert (Ht : ∃ im', sandbox_tracked (sandbox_key sandbox) sandbox im im' ∧ im_allocations_by_executor im' = im_allocations_by_executor im ∧
      (if awaits_allocation sandbox then add_pending_sandbox (store_sandbox im (sandbox_key sandbox) sandbox) (sandbox_key sandbox) (profile_from_container_resources (sb_resources sandbox))
       else store_sandbox im (sandbox_key sandbox) sandbox) = im').
    { eexists. split_and!; [| |reflexivity].
      - destruct (awaits_allocation sandbox) eqn:Ea; [apply add_pending_tracked|apply store_tracked]; try done; try apply Hi.
        rewrite Ea. naive_solver.
      - by destruct (awaits_allocation sandbox). }
    destruct Ht as (im' & Ht & Ha & E). rewrite E. destruct Hi as [W1 W2 W3]. split.
    + apply (run_view_wf im); [symmetry; apply (st_runs _ _ _ _ Ht)|done].
    + by apply (sandbox_tracked_wf (sandbox_key sandbox) sandbox im).
    + apply (allocs_view_wf im); [|done]. unfold allocs_view. rewrite Ha. pose proof (st_runs _ _ _ _ Ht) as E2. unfold run_view in E2. congruence.
  - destruct Hi as [W1 W2 W3]. split; [exact W1| |exact W3].
    apply (alter_sandbox_wf (im <| im_snapshots ::= <[snapshot_key snapshot := snapshot]> |>)); [exact W2|exact Hok|done].
  - destruct (find_snapshot im snapshot_id) as [[k snap]|]; [|done]. cbn [fst]. apply drop_snapshotted_wf.
    apply (views_inv im); [exact eq_refl..|done].
  - simpl in Hok. destruct (find_snapshot im snapshot_id) as [[k snap]|]; [|done]. cbn [fst]. specialize (Hok _ _ eq_refl).
    destruct Hi as [W1 W2 W3]. split; [exact W1| |exact W3].
    apply (alter_sandbox_wf (im <| im_snapshots ::= alter (λ s, s <| snap_status := SnapFailed error |>) k |>)); [exact W2|exact Hok|done].
  - apply (views_inv im); [exact eq_refl..|done].
  - apply (remove_allocations_inv (λ o, (dr_executor_id event, at_container_id (ao_allocation_target o), ao_allocation_id o))).
    done.
  - by apply apply_update_inv.
  - by apply delete_app_inv.
  - by apply delete_request_inv.
Qed.
End invariant.

(** ** Examples *)

Definition function_run_ex (id version : string) (st : FunctionRunStatus) : FunctionRun :=
  MkFunctionRun id "r1" "ns" "app" version "fn" (CO_FunctionCall (MkFunctionCall id [] "fn" "" None)) [] None None st
    false None 0 0 None None "" None.
Definition request_ex (outcome : option RequestOutcome) (runs : gmap FunctionCallId FunctionRun) : RequestCtx :=
  MkRequestCtx "ns" "app" "v1" "r1" outcome 0 None None None runs ∅.
Definition deployed_ex : Application := app_ex (fn_ex "fn" (MkFunctionResources 1000 1024 1024 []) []).
Definition serving_ex : InMemoryState :=
  empty_state <| im_applications ::= <[app_key (app_namespace deployed_ex) (app_name deployed_ex) := deployed_ex]> |>
    <| im_application_versions ::=
         <[version_key (app_namespace deployed_ex) (app_name deployed_ex) (app_version deployed_ex) := to_version deployed_ex]> |>.
Definition pending_run_ex : FunctionRun := function_run_ex "c1" "v1" FRS_Pending.
Definition invoked_ex : InMemoryState := foldl add_run serving_ex [pending_run_ex].
(** The run finishes and the request with it; a late allocation is also listed. *)
Definition finished_update_ex : SchedulerUpdateRequest :=
  empty_update
    <| su_updated_function_runs := {["ns|app|r1" := {["c1"]}]} |>
    <| su_updated_request_states := {["ns|app|r1" := request_ex (Some RO_Success) {["c1" := function_run_ex "c1" "v1" FRS_Completed]}]} |>
    <| su_new_allocations := [MkAllocation "a1" (MkAllocationTarget "e1" "k1") "c1" "ns" "app" "v1" "fn" "r1" 0 FRO_Unknown 0 None [] 0 ""] |>.

Lemma empty_state_inv : state_inv empty_state.
Proof.
  split.
  - split; [split; [intros k r H; exact (False_rect _ (lookup_empty_Some k r H))|]|split; [apply map_Forall_empty|]].
    + intros k. split; [intros H; by apply not_elem_of_empty in H|]. intros (r & H & _). exact (False_rect _ (lookup_empty_Some k r H)).
    + intros p. unfold pending_with. change (im_unallocated_function_runs empty_state) with (∅ : gset FunctionRunKey).
      transitivity 0; [done|]. symmetry. apply (inj_eq _ 0), size_empty_iff. set_solver.
  - split; [split; [done| |apply idx_empty_wf|apply map_Forall_empty|]|].
    + intros p k. change (k ∈ idx_get (∅ : gmap ResourceProfile (gset SandboxKey)) p ↔ (∅ : gmap SandboxKey ResourceProfile) !! k = Some p).
      rewrite idx_get_empty, lookup_empty. set_solver.
    + done.
    + intros k. split; [intros H; by apply not_elem_of_empty in H|]. intros (r & H & _). exact (False_rect _ (lookup_empty_Some k r H)).
  - intros e c i al H. unfold allocation_at in H. change (im_allocations_by_executor empty_state) with (∅ : gmap ExecutorId (gmap ContainerId (gmap AllocationId Allocation))) in H.
    by rewrite lookup_empty in H.
Qed.
Lemma invoked_ex_inv : state_inv invoked_ex.
Proof.
  apply add_runs_inv.
  - apply create_app_inv; [apply empty_state_inv|]. intros k r H. exact (False_rect _ (lookup_empty_Some k r H)).
  - apply NoDup_singleton.
  - intros r ->%list_elem_of_singleton. split; reflexivity.
  - vm_compute. discriminate.
Qed.
Lemma finished_update_ex_ok : @update_ok canonical_order invoked_ex finished_update_ex.
Proof.
  assert (Hruns : @updated_runs canonical_order finished_update_ex = [function_run_ex "c1" "v1" FRS_Completed]) by (vm_compute; reflexivity).
  assert (Hst : im_function_runs invoked_ex = {["ns|app|r1|c1" := pending_run_ex]}) by (vm_compute; reflexivity).
  split; rewrite ?Hruns.
  - split.
    + intros r old ->%list_elem_of_singleton. rewrite Hst. change (run_key (function_run_ex "c1" "v1" FRS_Completed)) with "ns|app|r1|c1".
      rewrite lookup_singleton_eq. intros [= <-]. split; vm_compute; reflexivity.
    + intros r r' ->%list_elem_of_singleton ->%list_elem_of_singleton _. by split.
    + vm_compute. discriminate.
  - vm_compute. reflexivity.
  - intros a r ->%list_elem_of_singleton Hk [H| ->%list_elem_of_singleton]; [|done]. rewrite Hst, Hk in H.
    change (allocation_run_key _) with "ns|app|r1|c1" in H. rewrite lookup_singleton_eq in H. by injection H as <-.
  - intros k sb H. exact (False_rect _ (lookup_empty_Some k sb H)).
  - vm_compute. discriminate.
Qed.

Lemma completed_request_forgotten_witness :
  im_function_runs invoked_ex !! "ns|app|r1|c1" = Some pending_run_ex ∧
  im_request_ctx (@apply_scheduler_update canonical_order invoked_ex 7 finished_update_ex).1 !! "ns|app|r1" = None ∧
  im_function_runs (@apply_scheduler_update canonical_order invoked_ex 7 finished_update_ex).1 !! "ns|app|r1|c1" = None.
Proof.
  destruct (@completed_request_forgotten canonical_order invoked_ex 7 finished_update_ex "ns|app|r1"
              (request_ex (Some RO_Success) {["c1" := function_run_ex "c1" "v1" FRS_Completed]})) as (H1 & H2 & _).
  - exact invoked_ex_inv.
  - exact finished_update_ex_ok.
  - apply map_Forall_singleton. reflexivity.
  - reflexivity.
  - discriminate.
  - split; [reflexivity|]. split; [exact H1|]. destruct (H2 "ns|app|r1|c1") as [H3 _]; [reflexivity|exact H3].
Defined.
Lemma update_state_invariant_witness :
  im_unallocated_function_runs invoked_ex = {["ns|app|r1|c1"]} ∧
  state_inv (@update_state canonical_order invoked_ex 7 0 (RP_SchedulerUpdate finished_update_ex)).1.
Proof.
  split; [reflexivity|]. apply (@update_state_invariant canonical_order invoked_ex 7 0 (RP_SchedulerUpdate finished_update_ex)).
  - exact invoked_ex_inv.
  - exact finished_update_ex_ok.
Defined.

(** The demand histogram drifts when an application is redeployed with
    [upgrade_requests_to_current_version]: the pending runs move to the new
    version, whose function may ask for other resources, but the histogram keeps
    them under the old profile, and it still counts one there after the request
    has finished and nothing is pending. *)
Theorem upgrade_leaves_stale_demand :
  let v2 := deployed_ex <| app_version := "v2" |>
              <| app_functions := {["fn" := fn_ex "fn" (MkFunctionResources 2000 1024 1024 []) []]} |> in
  let old_profile := MkResourceProfile 1000 1024 1024 0 None [] in
  let new_profile := MkResourceProfile 2000 1024 1024 0 None [] in
  let ctx := request_ex None {["c1" := pending_run_ex]} in
  let im1 := (@update_state canonical_order serving_ex 1 0 (RP_InvokeApplication "ns" "app" ctx)).1 in
  let im2 := (@update_state canonical_order im1 2 0 (RP_CreateOrUpdateApplication "ns" v2 true [])).1 in
  let im3 := (@update_state canonical_order im2 3 0 (RP_DeleteRequestRequest "ns" "app" "r1")).1 in
  let demand im p := hist_count (pr_function_runs (im_pending_resources im)) p in
  demand im1 old_profile = 1 ∧
  profile_at im2 "ns|app|r1|c1" = Some new_profile ∧ demand im2 new_profile = 0 ∧ demand im2 old_profile = 1 ∧
  size (im_function_runs im3) = 0%nat ∧ size (im_unallocated_function_runs im3) = 0%nat ∧ demand im3 old_profile = 1.
Proof. cbv zeta. split_and!; vm_compute; reflexivity. Qed.
