(* ===== verification/Blocked.v ===== *)
(** * Executor classes and blocked work

    [scheduler/executor_class.rs] and [scheduler/blocked.rs]: the equivalence
    class of an executor, and the tracker of work that could not be placed,
    which is woken within a memory budget when capacity appears.

    The Rust tracker keeps the same three collections twice, once for sandboxes
    and once for function runs; here each copy is a [BlockedSide] and the tracker
    is the pair of them. *)
From S2P Require Import Prelude DataModel.

(** ** [ExecutorClass] *)

(** [ExecutorClass]; the labels of a [BTreeMap] are an extensional map. *)
Record ExecutorClass := MkExecutorClass {
  ec_labels : gmap string string;
  ec_allowlist : option (list FunctionAllowlist);
}.
#[export] Instance ExecutorClass_eq_dec : EqDecision ExecutorClass.
Proof. solve_decision. Defined.
#[export] Instance ExecutorClass_countable : Countable ExecutorClass.
Proof.
  apply (inj_countable' (λ c, (ec_labels c, ec_allowlist c)) (λ '(a, b), MkExecutorClass a b)).
  by intros [].
Defined.
#[export] Instance ExecutorClass_inhabited : Inhabited ExecutorClass := populate (MkExecutorClass ∅ None).

(** The derived [Ord] of [Option<String>] and of [FunctionAllowlist]. *)
Definition opt_string_cmp (a b : option string) : comparison :=
  match a, b with
  | None, None => Eq
  | None, Some _ => Lt
  | Some _, None => Gt
  | Some a, Some b => String.compare a b
  end.
Definition cmp_then (c d : comparison) : comparison := match c with Eq => d | _ => c end.
Definition allowlist_cmp (a b : FunctionAllowlist) : comparison :=
  cmp_then (opt_string_cmp (fa_namespace a) (fa_namespace b))
    (cmp_then (opt_string_cmp (fa_application a) (fa_application b))
       (opt_string_cmp (fa_function a) (fa_function b))).
Definition allowlist_le (a b : FunctionAllowlist) : Prop := allowlist_cmp a b ≠ Gt.
#[export] Instance allowlist_le_dec : RelDecision allowlist_le.
Proof. intros a b. unfold allowlist_le. destruct (allowlist_cmp a b); [left|left|right]; congruence. Defined.

(** [ExecutorClass::from_executor]. *)
Definition class_from_executor (e : ExecutorMetadata) : ExecutorClass :=
  MkExecutorClass (em_labels e) (merge_sort allowlist_le <$> em_function_allowlist e).

(** ** [BlockedWorkTracker] *)

Record BlockingInfo := MkBlockingInfo {
  bi_eligible_classes : gset ExecutorClass;
  bi_escaped : bool;
  bi_memory_mb : Z;
}.

Record BlockedSide := MkBlockedSide {
  bs_blocked : gmap string BlockingInfo;
  bs_by_class : gmap ExecutorClass (gset string);
  bs_escaped : gset string;
}.
#[export] Instance eta_BlockedSide : Eta BlockedSide := λ s,
  MkBlockedSide (bs_blocked s) (bs_by_class s) (bs_escaped s).

Record BlockedWorkTracker := MkBlockedWorkTracker {
  bw_sandboxes : BlockedSide;
  bw_function_runs : BlockedSide;
}.
#[export] Instance eta_BlockedWorkTracker : Eta BlockedWorkTracker := λ t,
  MkBlockedWorkTracker (bw_sandboxes t) (bw_function_runs t).

Record UnblockedWork := MkUnblockedWork {
  uw_sandbox_keys : list SandboxKey;
  uw_function_run_keys : list FunctionRunKey;
}.

Definition empty_side : BlockedSide := MkBlockedSide ∅ ∅ ∅.
(** [BlockedWorkTracker::new]. *)
Definition empty_tracker : BlockedWorkTracker := MkBlockedWorkTracker empty_side empty_side.

Section tracker.
Context `{HO : HashOrder}.

(** [remove_sandbox_from_indexes] / [remove_function_run_from_indexes]. *)
Definition side_remove_from_indexes (s : BlockedSide) (key : string) : BlockedSide :=
  match bs_blocked s !! key with
  | Some info =>
      s <| bs_by_class ::= λ m, foldl (λ m c, idx_remove c key m) m (set_iter (bi_eligible_classes info)) |>
  | None => s
  end.

(** [self.remove_X_from_indexes(key); self.blocked_X.remove(key)]. *)
Definition side_drop (s : BlockedSide) (key : string) : BlockedSide :=
  side_remove_from_indexes s key <| bs_blocked ::= delete key |>.

(** [remove_sandbox] / [remove_function_run]. *)
Definition side_remove (s : BlockedSide) (key : string) : BlockedSide :=
  side_drop s key <| bs_escaped ::= λ e, e ∖ {[key]} |>.

(** [block_sandbox] / [block_function_run]. *)
Definition side_block (s : BlockedSide) (key : string) (info : BlockingInfo) : BlockedSide :=
  let s1 := side_remove s key in
  let s2 := if bi_escaped info then s1 <| bs_escaped ::= λ e, {[key]} ∪ e |> else s1 in
  s2 <| bs_by_class ::= λ m, foldl (λ m c, idx_insert c key m) m (set_iter (bi_eligible_classes info)) |>
     <| bs_blocked ::= <[key := info]> |>.

Definition block_sandbox (t : BlockedWorkTracker) (key : SandboxKey) (info : BlockingInfo) :=
  t <| bw_sandboxes ::= λ s, side_block s key info |>.
Definition block_function_run (t : BlockedWorkTracker) (key : FunctionRunKey) (info : BlockingInfo) :=
  t <| bw_function_runs ::= λ s, side_block s key info |>.
Definition remove_sandbox (t : BlockedWorkTracker) (key : SandboxKey) :=
  t <| bw_sandboxes ::= λ s, side_remove s key |>.
Definition remove_function_run (t : BlockedWorkTracker) (key : FunctionRunKey) :=
  t <| bw_function_runs ::= λ s, side_remove s key |>.

(** [BlockedWorkTracker::is_empty]. *)
Definition tracker_is_empty (t : BlockedWorkTracker) : bool :=
  bool_decide (bs_blocked (bw_sandboxes t) = ∅) && bool_decide (bs_blocked (bw_function_runs t) = ∅).

(** One side of [unblock_escaped_within_budget]: the keys are those of a clone
    of the escaped set, the loop breaks once the budget is spent. *)
Fixpoint unblock_escaped_loop (keys : list string) (s : BlockedSide) (remaining : Z)
    : BlockedSide * Z * list string :=
  match keys with
  | [] => (s, remaining, [])
  | key :: keys =>
      if bool_decide (remaining = 0) then (s, remaining, [])
      else
        let mem := default 0 (bi_memory_mb <$> bs_blocked s !! key) in
        if bool_decide (mem ≤ remaining) then
          let s1 := s <| bs_escaped ::= λ e, e ∖ {[key]} |> in
          let '(s', r', out) := unblock_escaped_loop keys (side_drop s1 key) (remaining - mem) in
          (s', r', key :: out)
        else unblock_escaped_loop keys s remaining
  end.
Definition side_unblock_escaped (s : BlockedSide) (remaining : Z) : BlockedSide * Z * list string :=
  unblock_escaped_loop (set_iter (bs_escaped s)) s remaining.

(** The selection loop over the keys of a class: the budget left and [to_remove]. *)
Fixpoint pick_within_budget (blocked : gmap string BlockingInfo) (keys : list string) (remaining : Z)
    : Z * list string :=
  match keys with
  | [] => (remaining, [])
  | key :: keys =>
      if bool_decide (remaining = 0) then (remaining, [])
      else match blocked !! key with
           | Some info =>
               if bool_decide (bi_memory_mb info ≤ remaining)
               then let '(r', out) := pick_within_budget blocked keys (remaining - bi_memory_mb info) in
                    (r', key :: out)
               else pick_within_budget blocked keys remaining
           | None => pick_within_budget blocked keys remaining
           end
  end.

(** The class-blocked part of [unblock_for_class] for one side.  The picked keys
    leave [by_class] and [blocked] but are not looked up in [escaped]. *)
Definition side_unblock_class (s : BlockedSide) (class : ExecutorClass) (remaining : Z)
    : BlockedSide * Z * list string :=
  match bs_by_class s !! class with
  | Some keys =>
      let '(r', picked) := pick_within_budget (bs_blocked s) (set_iter keys) remaining in
      (foldl side_drop s picked,
       r', picked)
  | None => (s, remaining, [])
  end.

(** [unblock_for_class]; [unblock_for_freed_resources] has the same body with
    [freed_mb] for [budget_mb]. *)
Definition unblock_for_class (t : BlockedWorkTracker) (class : ExecutorClass) (budget_mb : Z)
    : BlockedWorkTracker * UnblockedWork :=
  if tracker_is_empty t || bool_decide (budget_mb = 0) then (t, MkUnblockedWork [] [])
  else
    let '(sb1, r1, esc_sb) := side_unblock_escaped (bw_sandboxes t) budget_mb in
    let '(fr1, r2, esc_fr) := side_unblock_escaped (bw_function_runs t) r1 in
    let '(sb2, r3, cls_sb) := side_unblock_class sb1 class r2 in
    let '(fr2, _, cls_fr) := side_unblock_class fr1 class r3 in
    (MkBlockedWorkTracker sb2 fr2, MkUnblockedWork (esc_sb ++ cls_sb) (esc_fr ++ cls_fr)).
Definition unblock_for_freed_resources (t : BlockedWorkTracker) (class : ExecutorClass) (freed_mb : Z)
    : BlockedWorkTracker * UnblockedWork :=
  unblock_for_class t class freed_mb.

(** ** Invariant *)

Definition side_wf (s : BlockedSide) : Prop :=
  idx_wf (bs_by_class s) ∧
  (∀ c k, k ∈ idx_get (bs_by_class s) c ↔
     ∃ info, bs_blocked s !! k = Some info ∧ c ∈ bi_eligible_classes info) ∧
  (∀ k, k ∈ bs_escaped s ↔ ∃ info, bs_blocked s !! k = Some info ∧ bi_escaped info = true) ∧
  (∀ k info, bs_blocked s !! k = Some info → 0 ≤ bi_memory_mb info).
Definition tracker_wf (t : BlockedWorkTracker) : Prop :=
  side_wf (bw_sandboxes t) ∧ side_wf (bw_function_runs t).

Lemma idx_get_foldl_remove key cs : ∀ (m : gmap ExecutorClass (gset string)) c k,
  k ∈ idx_get (foldl (λ m c, idx_remove c key m) m cs) c ↔ k ∈ idx_get m c ∧ ¬ (c ∈ cs ∧ k = key).
Proof. induction cs as [|c' cs IH]; intros m c k; simpl; [set_solver|]. rewrite IH. set_solver by idx_solver. Qed.
Lemma idx_get_foldl_insert key cs : ∀ (m : gmap ExecutorClass (gset string)) c k,
  k ∈ idx_get (foldl (λ m c, idx_insert c key m) m cs) c ↔ (c ∈ cs ∧ k = key) ∨ k ∈ idx_get m c.
Proof. induction cs as [|c' cs IH]; intros m c k; simpl; [set_solver|]. rewrite IH. set_solver by idx_solver. Qed.
Lemma foldl_idx_remove_wf key cs (m : gmap ExecutorClass (gset string)) :
  idx_wf m → idx_wf (foldl (λ m c, idx_remove c key m) m cs).
Proof. intros. apply foldl_ind; auto with indexify. Qed.
Lemma foldl_idx_insert_wf key cs (m : gmap ExecutorClass (gset string)) :
  idx_wf m → idx_wf (foldl (λ m c, idx_insert c key m) m cs).
Proof. intros. apply foldl_ind; auto with indexify. Qed.

(** The part of the invariant that does not mention the escaped set. *)
Definition side_idx_wf (s : BlockedSide) : Prop :=
  idx_wf (bs_by_class s) ∧
  (∀ c k, k ∈ idx_get (bs_by_class s) c ↔
     ∃ info, bs_blocked s !! k = Some info ∧ c ∈ bi_eligible_classes info) ∧
  (∀ k info, bs_blocked s !! k = Some info → 0 ≤ bi_memory_mb info).
Definition escaped_ok (s : BlockedSide) : Prop :=
  ∀ k, k ∈ bs_escaped s ↔ ∃ info, bs_blocked s !! k = Some info ∧ bi_escaped info = true.

Lemma side_wf_split s : side_wf s ↔ side_idx_wf s ∧ escaped_ok s.
Proof. unfold side_wf, side_idx_wf, escaped_ok. tauto. Qed.

Lemma side_drop_blocked s key : bs_blocked (side_drop s key) = delete key (bs_blocked s).
Proof. unfold side_drop, side_remove_from_indexes. by destruct (bs_blocked s !! key). Qed.
Lemma side_drop_escaped s key : bs_escaped (side_drop s key) = bs_escaped s.
Proof. unfold side_drop, side_remove_from_indexes. by destruct (bs_blocked s !! key). Qed.
Lemma side_drop_by_class s key c k :
  side_idx_wf s →
  k ∈ idx_get (bs_by_class (side_drop s key)) c ↔ k ∈ idx_get (bs_by_class s) c ∧ k ≠ key.
Proof.
  intros (_ & Hix & _). unfold side_drop, side_remove_from_indexes.
  destruct (bs_blocked s !! key) as [info|] eqn:E; rsimpl.
  - rewrite idx_get_foldl_remove, elem_of_set_iter. split; [|naive_solver].
    intros [Hk Hn]. split; [done|]. intros ->. apply Hn. split; [|done].
    apply Hix in Hk as (info' & ? & ?). naive_solver.
  - split; [|naive_solver]. intros Hk. split; [done|]. intros ->. apply Hix in Hk. naive_solver.
Qed.
Lemma side_drop_idx_wf s key : side_idx_wf s → side_idx_wf (side_drop s key).
Proof.
  intros Hs. pose proof Hs as (Hwf & Hix & Hmem). split; [|split].
  - unfold side_drop, side_remove_from_indexes.
    destruct (bs_blocked s !! key); rsimpl; auto using foldl_idx_remove_wf.
  - intros c k. rewrite side_drop_by_class, side_drop_blocked, Hix by done.
    setoid_rewrite lookup_delete_Some. naive_solver.
  - intros k info. rewrite side_drop_blocked, lookup_delete_Some. naive_solver.
Qed.

Lemma side_drop_escape s key :
  side_drop (MkBlockedSide (bs_blocked s) (bs_by_class s) (bs_escaped s ∖ {[key]})) key = side_remove s key.
Proof.
  unfold side_remove, side_drop, side_remove_from_indexes. rsimpl. by destruct (bs_blocked s !! key).
Qed.

#[local] Opaque side_drop.

Lemma side_remove_wf s key : side_wf s → side_wf (side_remove s key).
Proof.
  rewrite !side_wf_split. intros [Hs He]. unfold side_remove. split.
  - by apply (side_drop_idx_wf s key).
  - intros k. rsimpl. rewrite side_drop_escaped, side_drop_blocked.
    setoid_rewrite lookup_delete_Some. rewrite elem_of_difference, elem_of_singleton, (He k).
    naive_solver.
Qed.

Lemma side_block_wf s key info :
  side_wf s → 0 ≤ bi_memory_mb info → side_wf (side_block s key info).
Proof.
  intros Hs Hm. apply (side_remove_wf s key) in Hs.
  assert (Hnone : bs_blocked (side_remove s key) !! key = None).
  { unfold side_remove. rsimpl. by rewrite side_drop_blocked, lookup_delete_eq. }
  unfold side_block. revert Hs Hnone. generalize (side_remove s key). clear s. intros s Hs Hnone.
  destruct Hs as (Hwf & Hix & He & Hmem).
  destruct (bi_escaped info) eqn:Ei; split_and!; rsimpl; auto using foldl_idx_insert_wf.
  all: intros;
    try (rewrite idx_get_foldl_insert, elem_of_set_iter, Hix);
    try (rewrite ?elem_of_union, ?elem_of_singleton, He).
  all: match goal with k : string |- _ => destruct (decide (key = k)) as [<-|Hne] end;
    repeat first [rewrite lookup_insert_eq in * | rewrite lookup_insert_ne in * by done];
    rewrite ?Hnone; clear Hix He Hwf; naive_solver congruence.
Qed.

(** ** Unblocking *)

(** [out] left [s], everything else kept its blocking information. *)
Definition unblocked (s s' : BlockedSide) (out : list string) : Prop :=
  NoDup out ∧ (∀ k, k ∈ out → is_Some (bs_blocked s !! k)) ∧
  (∀ k, bs_blocked s' !! k = if decide (k ∈ out) then None else bs_blocked s !! k).
Definition mem_of (s : BlockedSide) (k : string) : Z := default 0 (bi_memory_mb <$> bs_blocked s !! k).
Definition total_mem (s : BlockedSide) (ks : list string) : Z := foldr (λ k acc, mem_of s k + acc) 0 ks.
(** A key that is still blocked does not fit in what is left of the budget. *)
Definition exhausted (s : BlockedSide) (r : Z) (k : string) : Prop := r = 0 ∨ r < mem_of s k.

Lemma total_mem_app s l1 l2 : total_mem s (l1 ++ l2) = total_mem s l1 + total_mem s l2.
Proof. induction l1; simpl; lia. Qed.
Lemma total_mem_ext s s' ks :
  (∀ k, k ∈ ks → bs_blocked s !! k = bs_blocked s' !! k) → total_mem s ks = total_mem s' ks.
Proof.
  induction ks as [|k ks IH]; simpl; [done|]. intros H.
  rewrite IH by set_solver. unfold mem_of. by rewrite (H k) by set_solver.
Qed.
Lemma mem_of_nonneg s k : side_idx_wf s → 0 ≤ mem_of s k.
Proof. intros (_ & _ & Hm). unfold mem_of. destruct (bs_blocked s !! k) eqn:E; simpl; [by eapply Hm|lia]. Qed.
Lemma exhausted_mono s r r' k : exhausted s r k → 0 ≤ r' ≤ r → exhausted s r' k.
Proof. unfold exhausted. lia. Qed.

Lemma unblocked_nil s : unblocked s s [].
Proof. split_and!; [constructor|set_solver|]. intros k. by case_decide; [set_solver|]. Qed.
Lemma unblocked_trans s1 s2 s3 o1 o2 :
  unblocked s1 s2 o1 → unblocked s2 s3 o2 →
  unblocked s1 s3 (o1 ++ o2) ∧ total_mem s1 (o1 ++ o2) = total_mem s1 o1 + total_mem s2 o2.
Proof.
  intros (N1 & B1 & L1) (N2 & B2 & L2).
  assert (Hd : ∀ k, k ∈ o2 → k ∉ o1 ∧ bs_blocked s2 !! k = bs_blocked s1 !! k).
  { intros k Hk. destruct (B2 k Hk) as [i Hi]. rewrite L1 in Hi. case_decide; [done|].
    split; [done|]. rewrite L1. by rewrite decide_False. }
  split; [split_and!|].
  - apply NoDup_app. split_and!; [done| |done]. intros k H1 H2. by apply Hd in H2 as [].
  - intros k [Hk|Hk]%elem_of_app; [by apply B1|]. destruct (Hd k Hk) as [_ <-]. by apply B2.
  - intros k. rewrite L2, L1. repeat case_decide; set_solver.
  - rewrite total_mem_app. f_equal. apply total_mem_ext. intros k Hk. symmetry. by apply Hd.
Qed.
Lemma unblocked_drop s k i : bs_blocked s !! k = Some i → unblocked s (side_drop s k) [k].
Proof.
  intros Hk. split_and!; [apply NoDup_singleton|by intros ? ->%list_elem_of_singleton|].
  intros k'. rewrite side_drop_blocked, lookup_delete. repeat case_decide; set_solver.
Qed.

(** ** The loops *)

Lemma side_drop_wf_not_escaped s k :
  side_wf s → k ∉ bs_escaped s → side_wf (side_drop s k).
Proof.
  rewrite !side_wf_split. intros [Hs He] Hk. split; [by apply side_drop_idx_wf|].
  intros k'. rewrite side_drop_escaped, side_drop_blocked, (He k').
  setoid_rewrite lookup_delete_Some. split; [|naive_solver].
  intros (i & Hi & Hb). exists i. split_and!; try done. intros ->. apply Hk, He. eauto.
Qed.

(** The escaped loop: [s'] and [r'] are the final side and budget. *)
Lemma unblock_escaped_loop_spec keys : ∀ s r s' r' out,
  side_wf s → 0 ≤ r → NoDup keys → (∀ k, k ∈ keys → k ∈ bs_escaped s) →
  unblock_escaped_loop keys s r = (s', r', out) →
  side_wf s' ∧ unblocked s s' out ∧ r' = r - total_mem s out ∧ 0 ≤ r' ∧
  (∀ k, k ∈ out → k ∈ keys) ∧ (∀ k, k ∈ keys → k ∉ out → exhausted s r' k).
Proof.
  induction keys as [|k keys IH]; intros s r s' r' out Hs Hr Hnd Hesc; simpl.
  { intros [= <- <- <-].
    split_and!; [done|apply unblocked_nil|simpl; lia|done|done|by intros ? ?%elem_of_nil]. }
  apply NoDup_cons in Hnd as [Hk Hnd].
  case_bool_decide as H0.
  { intros [= <- <- <-].
    split_and!; [done|apply unblocked_nil|simpl; lia|done|by intros ? ?%elem_of_nil|by left]. }
  pose proof Hs as [Hidx Heo]%side_wf_split.
  destruct (proj1 (Heo k) (Hesc k (list_elem_of_here _ _))) as (i & Hi & Hib).
  change (default 0 (bi_memory_mb <$> bs_blocked s !! k)) with (mem_of s k).
  pose proof (mem_of_nonneg s k Hidx) as Hmk. case_bool_decide as Hfit.
  - pose proof (side_remove_wf s k Hs) as Hs1.
    rewrite side_drop_escape.
    destruct (unblock_escaped_loop keys (side_remove s k) (r - mem_of s k)) as [[s2 r2] o2] eqn:Eq.
    intros [= <- <- <-].
    destruct (IH _ (r - mem_of s k) _ _ _ Hs1 ltac:(lia) Hnd ltac:(unfold side_remove; rsimpl; rewrite side_drop_escaped; set_solver) Eq)
      as (W2 & U2 & Hr2 & Hr2' & Hin & Hex).
    assert (U1 : unblocked s (side_remove s k) [k]) by (by apply (unblocked_drop s k i)).
    destruct (unblocked_trans _ _ _ _ _ U1 U2) as [U Ht].
    split_and!; [done|exact U| |done| |].
    + change (k :: o2) with ([k] ++ o2). rewrite Ht. simpl. lia.
    + intros k' [->|Hk']%elem_of_cons; [by left|right; by apply Hin].
    + intros k' Hk' [Hne H2]%not_elem_of_cons. apply elem_of_cons in Hk' as [->|H1]; [done|].
      specialize (Hex k' H1 H2). unfold exhausted, mem_of in *.
      by rewrite (proj2 (proj2 U1)), decide_False in Hex by (by rewrite list_elem_of_singleton).
  - intros Eq. destruct (IH _ _ _ _ _ Hs Hr Hnd (λ k' H, Hesc k' (list_elem_of_further _ _ _ H)) Eq)
      as (W2 & U2 & Hr2 & Hr2' & Hin & Hex).
    split_and!; try done; [by right; apply Hin|]. intros k' [->|Hk']%elem_of_cons Hn; [|by apply Hex].
    apply (exhausted_mono s r); [right; lia|].
    assert (0 ≤ total_mem s out); [|lia].
    clear -Hidx. induction out as [|o out IH]; simpl; [lia|]. pose proof (mem_of_nonneg s o Hidx). lia.
Qed.

(** The selection loop over a class. *)
Lemma pick_within_budget_spec s keys : ∀ r r' out,
  side_idx_wf s → 0 ≤ r → NoDup keys →
  pick_within_budget (bs_blocked s) keys r = (r', out) →
  NoDup out ∧ r' = r - total_mem s out ∧ 0 ≤ r' ≤ r ∧
  (∀ k, k ∈ out → k ∈ keys ∧ is_Some (bs_blocked s !! k) ∧ ¬ exhausted s r k) ∧
  (∀ k, k ∈ keys → is_Some (bs_blocked s !! k) → k ∉ out → exhausted s r' k).
Proof.
  induction keys as [|k keys IH]; intros r r' out Hs Hr Hnd; simpl.
  { intros [= <- <-].
    split_and!; [constructor|simpl; lia|done|done|by intros ? ?%elem_of_nil|by intros ? ?%elem_of_nil]. }
  apply NoDup_cons in Hnd as [Hk Hnd]. case_bool_decide as H0.
  { intros [= <- <-].
    split_and!; [constructor|simpl; lia|done|done|by intros ? ?%elem_of_nil|by left]. }
  destruct (bs_blocked s !! k) as [i|] eqn:Hi.
  - assert (Hmi : mem_of s k = bi_memory_mb i) by (unfold mem_of; by rewrite Hi).
    pose proof (mem_of_nonneg s k Hs). case_bool_decide as Hfit.
    + destruct (pick_within_budget _ keys _) as [r2 o2] eqn:Eq. intros [= <- <-].
      destruct (IH (r - bi_memory_mb i) _ _ Hs ltac:(lia) Hnd Eq) as (N & Hr2 & Hle & Hin & Hex).
      split_and!; simpl; try lia.
      * apply NoDup_cons. split; [|done]. intros Hc. by apply Hin in Hc as [? _].
      * intros k' [->|Hk']%elem_of_cons.
        -- split_and!; [by left|eauto|]. unfold exhausted. lia.
        -- destruct (Hin k' Hk') as (? & ? & Hnx). split_and!; [by right|done|].
           unfold exhausted in *. lia.
      * intros k' Hk' Hb [Hne Hn]%not_elem_of_cons. apply elem_of_cons in Hk' as [->|Hk']; [done|].
        by apply Hex.
    + intros Eq. destruct (IH _ _ _ Hs Hr Hnd Eq) as (N & Hr2 & Hle & Hin & Hex).
      split_and!; try done; try lia; [by intros k' (? & ? & ?)%Hin; split_and!; [right|..]|].
      intros k' [->|Hk']%elem_of_cons Hb Hn; [|by apply Hex]. right. lia.
  - intros Eq. destruct (IH _ _ _ Hs Hr Hnd Eq) as (N & Hr2 & Hle & Hin & Hex).
    split_and!; try done; try lia; [by intros k' (? & ? & ?)%Hin; split_and!; [right|..]|].
    intros k' [->|Hk']%elem_of_cons Hb Hn; [|by apply Hex]. rewrite Hi in Hb. by destruct Hb.
Qed.

Lemma foldl_side_drop ks : ∀ s,
  side_wf s → NoDup ks → (∀ k, k ∈ ks → is_Some (bs_blocked s !! k) ∧ k ∉ bs_escaped s) →
  side_wf (foldl side_drop s ks) ∧ unblocked s (foldl side_drop s ks) ks.
Proof.
  induction ks as [|k ks IH]; intros s Hs Hnd Hks; simpl; [split; [done|apply unblocked_nil]|].
  apply NoDup_cons in Hnd as [Hk Hnd].
  destruct (Hks k (list_elem_of_here _ _)) as [[i Hi] Hne].
  pose proof (unblocked_drop s k i Hi) as U1.
  destruct (IH (side_drop s k)) as [W U]; [by apply side_drop_wf_not_escaped|done| |].
  - intros k' Hk'. destruct (Hks k' (list_elem_of_further _ _ _ Hk')) as [Hb He].
    rewrite side_drop_escaped, side_drop_blocked, lookup_delete_ne by (by intros ->). done.
  - split; [done|]. exact (proj1 (unblocked_trans _ _ _ _ _ U1 U)).
Qed.

(** What one side of an unblocking step does, for a predicate [P] that says
    which keys the step considers. *)
Definition unblock_step (P : BlockingInfo → Prop) (s : BlockedSide) (r : Z)
    (s' : BlockedSide) (r' : Z) (out : list string) : Prop :=
  side_wf s' ∧ unblocked s s' out ∧ r' = r - total_mem s out ∧ 0 ≤ r' ≤ r ∧
  (∀ k info, k ∈ out → bs_blocked s !! k = Some info → P info) ∧
  (∀ k info, bs_blocked s' !! k = Some info → P info → r' = 0 ∨ r' < bi_memory_mb info).

Lemma total_mem_nonneg s out : side_idx_wf s → 0 ≤ total_mem s out.
Proof. intros Hs. induction out as [|o out IH]; simpl; [lia|]. pose proof (mem_of_nonneg s o Hs). lia. Qed.

Lemma unblocked_kept s s' out k info :
  unblocked s s' out → bs_blocked s' !! k = Some info → k ∉ out ∧ bs_blocked s !! k = Some info.
Proof. intros (_ & _ & L). rewrite L. case_decide; [done|]. done. Qed.

Lemma side_unblock_escaped_step s r s' r' out :
  side_wf s → 0 ≤ r → side_unblock_escaped s r = (s', r', out) →
  unblock_step (λ info, bi_escaped info = true) s r s' r' out.
Proof.
  intros Hs Hr Eq. pose proof Hs as [Hidx He]%side_wf_split.
  destruct (unblock_escaped_loop_spec (set_iter (bs_escaped s)) s r s' r' out Hs Hr
    (NoDup_set_iter _)) as (W & U & Hr' & Hpos & Hin & Hex); [|done|].
  { intros k. by rewrite elem_of_set_iter. }
  pose proof (total_mem_nonneg s out Hidx).
  split_and!; try done; try lia.
  - intros k info Hk Hi. apply Hin, elem_of_set_iter, He in Hk as (i & ? & ?). naive_solver.
  - intros k info Hi Hp. destruct (unblocked_kept _ _ _ _ _ U Hi) as [Hn Hb].
    destruct (Hex k) as [?|Hlt]; [apply elem_of_set_iter, He; eauto|done|by left|].
    right. unfold mem_of in Hlt. by rewrite Hb in Hlt.
Qed.

Lemma side_unblock_class_step s class r s' r' out :
  side_wf s → 0 ≤ r → (∀ k, k ∈ bs_escaped s → exhausted s r k) →
  side_unblock_class s class r = (s', r', out) →
  unblock_step (λ info, class ∈ bi_eligible_classes info) s r s' r' out.
Proof.
  intros Hs Hr Hesc. pose proof Hs as [Hidx He]%side_wf_split.
  pose proof Hidx as (_ & Hix & _). unfold side_unblock_class.
  assert (Hget : idx_get (bs_by_class s) class = default ∅ (bs_by_class s !! class)) by done.
  destruct (bs_by_class s !! class) as [keys|]; simpl in Hget.
  - destruct (pick_within_budget _ _ _) as [r1 o1] eqn:Eq. intros [= <- <- <-].
    destruct (pick_within_budget_spec s (set_iter keys) r r1 o1 Hidx Hr (NoDup_set_iter _) Eq)
      as (N & Hr1 & Hle & Hin & Hex).
    destruct (foldl_side_drop o1 s Hs N) as [W U].
    { intros k Hk. destruct (Hin k Hk) as (_ & Hb & Hnx). split; [done|]. intros Hc. by apply Hnx, Hesc. }
    split_and!; try done; try lia.
    + intros k info Hk Hi. destruct (Hin k Hk) as (Hks & _). apply elem_of_set_iter in Hks.
      rewrite <-Hget in Hks. apply Hix in Hks as (i & ? & ?). naive_solver.
    + intros k info Hi Hp. destruct (unblocked_kept _ _ _ _ _ U Hi) as [Hn Hb].
      destruct (Hex k) as [?|Hlt]; [apply elem_of_set_iter; rewrite <-Hget; apply Hix; eauto|by eauto|done|by left|].
      right. unfold mem_of in Hlt. by rewrite Hb in Hlt.
  - intros [= <- <- <-]. split_and!; try done; try lia; [apply unblocked_nil|simpl; lia|by intros ? ? ?%elem_of_nil|].
    intros k info Hi Hp. exfalso. assert (k ∈ idx_get (bs_by_class s) class) by (apply Hix; eauto).
    rewrite Hget in *. by apply not_elem_of_empty in H.
Qed.

(** The escaped step followed by the class step on the same side, with the budget
    [r2 ≤ r1] left by the other side in between. *)
Lemma unblock_side_steps s class r1 r2 s1 o1 s2 r3 o2 r0 :
  side_wf s → unblock_step (λ info, bi_escaped info = true) s r0 s1 r1 o1 → 0 ≤ r2 ≤ r1 →
  side_unblock_class s1 class r2 = (s2, r3, o2) →
  side_wf s2 ∧ unblocked s s2 (o1 ++ o2) ∧
  total_mem s (o1 ++ o2) = (r0 - r1) + (r2 - r3) ∧ 0 ≤ r3 ≤ r2 ∧
  (∀ k info, k ∈ o1 ++ o2 → bs_blocked s !! k = Some info →
     bi_escaped info = true ∨ class ∈ bi_eligible_classes info) ∧
  (∀ k info, bs_blocked s2 !! k = Some info →
     bi_escaped info = true ∨ class ∈ bi_eligible_classes info → r3 = 0 ∨ r3 < bi_memory_mb info).
Proof.
  intros Hs (W1 & U1 & E1 & B1 & P1 & X1) B2 Eq.
  pose proof W1 as [_ He1]%side_wf_split.
  destruct (side_unblock_class_step s1 class r2 s2 r3 o2 W1 (proj1 B2))
    as (W2 & U2 & E2 & B3 & P2 & X2); [|done|].
  { intros k (i & Hi & Hb)%He1. apply (exhausted_mono s1 r1); [|done].
    unfold exhausted, mem_of. rewrite Hi. simpl. by eapply X1. }
  destruct (unblocked_trans _ _ _ _ _ U1 U2) as [U Ht].
  split_and!; try done; try lia.
  - intros k info [Hk|Hk]%elem_of_app Hi; [left; by eapply P1|right].
    destruct U2 as (_ & Hb2 & _). destruct (Hb2 k Hk) as [i Hi'].
    destruct (unblocked_kept _ _ _ _ _ U1 Hi') as [_ Hi2]. simplify_eq. by eapply P2.
  - intros k info Hi [Hp|Hp]; [|by eapply X2].
    destruct (unblocked_kept _ _ _ _ _ U2 Hi) as [_ Hi1].
    destruct (X1 k info Hi1 Hp) as [?|?]; lia.
Qed.

(** The class conditions under which an entry is considered. *)
Definition wakeable (class : ExecutorClass) (info : BlockingInfo) : Prop :=
  bi_escaped info = true ∨ class ∈ bi_eligible_classes info.

Lemma unblock_for_class_main t class budget t' w :
  tracker_wf t → 0 ≤ budget → unblock_for_class t class budget = (t', w) →
  ∃ left, 0 ≤ left ∧
  left = budget - (total_mem (bw_sandboxes t) (uw_sandbox_keys w) +
                   total_mem (bw_function_runs t) (uw_function_run_keys w)) ∧
  ∀ side out, (side, out) ∈ [(bw_sandboxes, uw_sandbox_keys w); (bw_function_runs, uw_function_run_keys w)] →
    side_wf (side t') ∧ unblocked (side t) (side t') out ∧
    (∀ k info, k ∈ out → bs_blocked (side t) !! k = Some info → wakeable class info) ∧
    (∀ k info, bs_blocked (side t') !! k = Some info → wakeable class info →
       left = 0 ∨ left < bi_memory_mb info).
Proof.
  intros [Hsb Hfr] Hb. unfold unblock_for_class.
  destruct (tracker_is_empty t || bool_decide (budget = 0)) eqn:E0.
  { intros [= <- <-]. exists budget. simpl. split_and!; [lia..|].
    assert (Hk : ∀ side, side ∈ [bw_sandboxes; bw_function_runs] → ∀ k info, bs_blocked (side t) !! k = Some info → budget = 0).
    { intros side Hside k info Hi. apply orb_true_iff in E0 as [E0|?%bool_decide_eq_true]; [|done].
      apply andb_true_iff in E0 as [E1%bool_decide_eq_true E2%bool_decide_eq_true]. exfalso.
      apply elem_of_cons in Hside as [->|Hside]; [by rewrite E1 in Hi|].
      apply list_elem_of_singleton in Hside as ->. by rewrite E2 in Hi. }
    intros side out Hin. assert (side_wf (side t) ∧ out = [] ∧ side ∈ [bw_sandboxes; bw_function_runs]) as (W & -> & Hside)
      by (apply elem_of_cons in Hin as [Hin|Hin%list_elem_of_singleton]; simplify_eq; set_solver).
    split_and!; [done|apply unblocked_nil|by intros ? ? ?%elem_of_nil|]. intros k info Hi _. left. by eapply Hk. }
  destruct (side_unblock_escaped (bw_sandboxes t) budget) as [[sb1 r1] e1] eqn:Q1.
  destruct (side_unblock_escaped (bw_function_runs t) r1) as [[fr1 r2] e2] eqn:Q2.
  destruct (side_unblock_class sb1 class r2) as [[sb2 r3] c1] eqn:Q3.
  destruct (side_unblock_class fr1 class r3) as [[fr2 r4] c2] eqn:Q4. intros [= <- <-].
  pose proof (side_unblock_escaped_step _ _ _ _ _ Hsb Hb Q1) as S1.
  pose proof S1 as (_ & _ & _ & B1 & _).
  pose proof (side_unblock_escaped_step _ _ _ _ _ Hfr (proj1 B1) Q2) as S2.
  pose proof S2 as (_ & _ & _ & B2 & _).
  destruct (unblock_side_steps _ _ _ _ _ _ _ _ _ _ Hsb S1 B2 Q3) as (W3 & U3 & T3 & B3 & P3 & X3).
  destruct (unblock_side_steps _ _ _ _ _ _ _ _ _ _ Hfr S2 B3 Q4) as (W4 & U4 & T4 & B4 & P4 & X4).
  exists r4. simpl. split_and!; [lia..|].
  intros side out [Hin|Hin%list_elem_of_singleton]%elem_of_cons; simplify_eq; split_and!; try done; simpl.
  intros k info Hi Hp. destruct (X3 k info Hi Hp); lia.
Qed.

(** Waking blocked work never exceeds the memory budget.  The woken keys
    were blocked, are pairwise distinct, are escaped or eligible for the class
    whose capacity appeared, leave the tracker, and every other entry is kept. *)
Theorem unblock_within_budget t class budget t' w :
  tracker_wf t → 0 ≤ budget → unblock_for_class t class budget = (t', w) →
  total_mem (bw_sandboxes t) (uw_sandbox_keys w) +
    total_mem (bw_function_runs t) (uw_function_run_keys w) ≤ budget ∧
  unblocked (bw_sandboxes t) (bw_sandboxes t') (uw_sandbox_keys w) ∧
  unblocked (bw_function_runs t) (bw_function_runs t') (uw_function_run_keys w) ∧
  (∀ k info, k ∈ uw_sandbox_keys w → bs_blocked (bw_sandboxes t) !! k = Some info → wakeable class info) ∧
  (∀ k info, k ∈ uw_function_run_keys w → bs_blocked (bw_function_runs t) !! k = Some info → wakeable class info).
Proof.
  intros Hwf Hb Eq. destruct (unblock_for_class_main _ _ _ _ _ Hwf Hb Eq) as (left & Hl & Hleft & Hside).
  destruct (Hside bw_sandboxes (uw_sandbox_keys w)) as (_ & U1 & P1 & _); [left|].
  destruct (Hside bw_function_runs (uw_function_run_keys w)) as (_ & U2 & P2 & _); [right; left|].
  split_and!; try done. lia.
Qed.

(** Every operation of the tracker keeps its indexes exact: a key is
    listed under a class exactly when it is blocked with that class eligible, it
    is in the escaped set exactly when it is blocked as escaped, and no class is
    bound to an empty set.  (Waking by class does not touch the escaped set; the
    theorem shows that it never leaves a stale escaped key behind.) *)
Theorem tracker_ops_wf t :
  tracker_wf t →
  (∀ k info, 0 ≤ bi_memory_mb info → tracker_wf (block_sandbox t k info)) ∧
  (∀ k info, 0 ≤ bi_memory_mb info → tracker_wf (block_function_run t k info)) ∧
  (∀ k, tracker_wf (remove_sandbox t k)) ∧ (∀ k, tracker_wf (remove_function_run t k)) ∧
  (∀ class budget, 0 ≤ budget → tracker_wf (unblock_for_class t class budget).1) ∧
  (∀ class freed, 0 ≤ freed → tracker_wf (unblock_for_freed_resources t class freed).1).
Proof.
  intros Hwf. assert (Hu : ∀ class b, 0 ≤ b → tracker_wf (unblock_for_class t class b).1).
  { intros class b Hb. destruct (unblock_for_class t class b) as [t' w] eqn:Eq.
    destruct (unblock_for_class_main _ _ _ _ _ Hwf Hb Eq) as (left & _ & _ & Hside). split.
    - by apply (Hside bw_sandboxes (uw_sandbox_keys w)); left.
    - by apply (Hside bw_function_runs (uw_function_run_keys w)); right; left. }
  destruct Hwf as [H1 H2].
  split_and!; intros; try (by apply Hu); split; rsimpl; auto using side_block_wf, side_remove_wf.
Qed.

(** Waking is maximal.  After it, any entry that is escaped or eligible
    for the class and is still blocked needs more memory than what is left of the
    budget, unless the budget is used up exactly. *)
Theorem unblock_maximal t class budget t' w :
  tracker_wf t → 0 ≤ budget → unblock_for_class t class budget = (t', w) →
  let left := budget - (total_mem (bw_sandboxes t) (uw_sandbox_keys w) +
                        total_mem (bw_function_runs t) (uw_function_run_keys w)) in
  (∀ k info, bs_blocked (bw_sandboxes t') !! k = Some info → wakeable class info →
     left = 0 ∨ left < bi_memory_mb info) ∧
  (∀ k info, bs_blocked (bw_function_runs t') !! k = Some info → wakeable class info →
     left = 0 ∨ left < bi_memory_mb info).
Proof.
  intros Hwf Hb Eq. destruct (unblock_for_class_main _ _ _ _ _ Hwf Hb Eq) as (left & Hl & -> & Hside).
  split; [by apply (Hside bw_sandboxes (uw_sandbox_keys w)); left|
          by apply (Hside bw_function_runs (uw_function_run_keys w)); right; left].
Qed.
End tracker.

Definition class_ex : ExecutorClass := MkExecutorClass ∅ None.
Definition tracker_ex : BlockedWorkTracker :=
  @block_function_run canonical_order
    (@block_function_run canonical_order
      (@block_sandbox canonical_order empty_tracker "ns|sb" (MkBlockingInfo ∅ true 512))
      "ns|app|r|f1" (MkBlockingInfo {[class_ex]} false 1024))
    "ns|app|r|f2" (MkBlockingInfo ∅ true 4096).

Lemma empty_tracker_wf : tracker_wf empty_tracker.
Proof.
  split; (split_and!; [apply idx_empty_wf|intros c k|intros k|done]); rsimpl;
    (split; [by intros ?%not_elem_of_empty|by intros (? & ? & _)]).
Qed.
Lemma tracker_ex_wf : tracker_wf tracker_ex.
Proof.
  pose proof empty_tracker_wf as [H1 H2].
  split; unfold tracker_ex, block_function_run, block_sandbox; rsimpl; auto using side_block_wf.
  - apply side_block_wf; simpl; [done|lia].
  - apply side_block_wf; simpl; [apply side_block_wf; simpl; [done|lia]|lia].
Qed.

Definition unblocked_ex := @unblock_for_class canonical_order tracker_ex class_ex 2048.
Lemma unblock_within_budget_witness :
  unblocked_ex.2 = MkUnblockedWork ["ns|sb"%string] ["ns|app|r|f1"%string] ∧
  total_mem (bw_sandboxes tracker_ex) (uw_sandbox_keys unblocked_ex.2) +
    total_mem (bw_function_runs tracker_ex) (uw_function_run_keys unblocked_ex.2) ≤ 2048.
Proof.
  split; [vm_compute; reflexivity|].
  refine (proj1 (@unblock_within_budget canonical_order tracker_ex class_ex 2048
    unblocked_ex.1 unblocked_ex.2 tracker_ex_wf _ (surjective_pairing _))). lia.
Defined.
Lemma tracker_ops_wf_witness : tracker_wf unblocked_ex.1.
Proof. apply (@tracker_ops_wf canonical_order tracker_ex tracker_ex_wf). lia. Defined.
Definition info_ex : BlockingInfo := MkBlockingInfo ∅ true 4096.
Lemma unblock_maximal_witness :
  let left := 2048 - (total_mem (bw_sandboxes tracker_ex) (uw_sandbox_keys unblocked_ex.2) +
                total_mem (bw_function_runs tracker_ex) (uw_function_run_keys unblocked_ex.2)) in
  bs_blocked (bw_function_runs unblocked_ex.1) !! "ns|app|r|f2"%string = Some info_ex ∧
  (left = 0 ∨ left < 4096).
Proof.
  assert (H : bs_blocked (bw_function_runs unblocked_ex.1) !! "ns|app|r|f2"%string = Some info_ex)
    by (vm_compute; reflexivity).
  assert (Hw : wakeable class_ex info_ex) by (left; reflexivity).
  split; [exact H|].
  exact (proj2 (@unblock_maximal canonical_order tracker_ex class_ex 2048
    unblocked_ex.1 unblocked_ex.2 tracker_ex_wf ltac:(lia) (surjective_pairing _)) _ info_ex H Hw).
Defined.
