(* ===== verification/SchedulerState.v ===== *)
(** * State of the container scheduler

    The [ContainerScheduler] struct of [processor/container_scheduler.rs], its
    index maintenance, its read-only counters and selectors, and the invariant
    that ties every index to the container table. *)
From S2P Require Import Prelude DataModel Updates Blocked.

(** ** State *)

(** [placement::WorkloadKey]. *)
Inductive WorkloadKey :=
| WK_Function (namespace application function_name : string)
| WK_Sandbox (namespace : string).
#[export] Instance WorkloadKey_eq_dec : EqDecision WorkloadKey.
Proof. solve_decision. Defined.
#[export] Instance WorkloadKey_countable : Countable WorkloadKey.
Proof.
  apply (inj_countable'
    (λ k, match k with WK_Function a b c => inl (a, b, c) | WK_Sandbox n => inr n end)
    (λ k, match k with inl (a, b, c) => WK_Function a b c | inr n => WK_Sandbox n end)).
  by intros [].
Defined.

(** [placement::PlacementResult]. *)
Record PlacementResult := MkPlacementResult {
  pr_executor_id : option ExecutorId;
  pr_eligible_classes : gset ExecutorClass;
}.
#[export] Instance eta_PlacementResult : Eta PlacementResult := λ r,
  MkPlacementResult (pr_executor_id r) (pr_eligible_classes r).

Record ContainerScheduler := MkContainerScheduler {
  cs_executors : gmap ExecutorId ExecutorMetadata;
  cs_containers_by_function_uri : gmap FunctionURI (gset ContainerId);
  cs_function_containers : gmap ContainerId ContainerServerMetadata;
  cs_executor_states : gmap ExecutorId ExecutorServerMetadata;
  cs_containers_by_pool : gmap ContainerPoolKey (gset ContainerId);
  cs_warm_containers_by_pool : gmap ContainerPoolKey (gset ContainerId);
  cs_function_pools : gmap ContainerPoolKey ContainerPool;
  cs_sandbox_pools : gmap ContainerPoolKey ContainerPool;
  cs_dirty_pools : gset ContainerPoolKey;
  cs_blocked_pools : gset ContainerPoolKey;
  cs_executors_by_free_memory : gset (Z * ExecutorId);
  cs_executor_classes : gmap ExecutorId ExecutorClass;
  cs_executors_by_class : gmap ExecutorClass (gset ExecutorId);
  cs_blocked_work : BlockedWorkTracker;
  cs_idle_containers : gset (Instant * ContainerId);
  cs_reaped_containers : gmap FunctionURI (list ContainerId);
  cs_last_placement : option PlacementResult;
}.
#[export] Instance eta_ContainerScheduler : Eta ContainerScheduler := λ s,
  MkContainerScheduler (cs_executors s) (cs_containers_by_function_uri s) (cs_function_containers s)
    (cs_executor_states s) (cs_containers_by_pool s) (cs_warm_containers_by_pool s)
    (cs_function_pools s) (cs_sandbox_pools s) (cs_dirty_pools s) (cs_blocked_pools s)
    (cs_executors_by_free_memory s) (cs_executor_classes s) (cs_executors_by_class s)
    (cs_blocked_work s) (cs_idle_containers s) (cs_reaped_containers s) (cs_last_placement s).

(** A scheduler that knows of nothing. *)
Definition empty_scheduler : ContainerScheduler :=
  MkContainerScheduler ∅ ∅ ∅ ∅ ∅ ∅ ∅ ∅ ∅ ∅ ∅ ∅ ∅ empty_tracker ∅ ∅ None.

(** ** Pools *)

(** [get_pool]. *)
Definition get_pool (s : ContainerScheduler) (key : ContainerPoolKey) : option ContainerPool :=
  match cs_function_pools s !! key with Some p => Some p | None => cs_sandbox_pools s !! key end.

(** [self.pool_map_mut(pool).insert(key, pool)]. *)
Definition insert_pool (s : ContainerScheduler) (pool : ContainerPool) : ContainerScheduler :=
  if is_function_pool pool
  then s <| cs_function_pools ::= <[pool_key_of_pool pool := pool]> |>
  else s <| cs_sandbox_pools ::= <[pool_key_of_pool pool := pool]> |>.

(** [mark_pool_dirty]. *)
Definition mark_pool_dirty (s : ContainerScheduler) (key : ContainerPoolKey) : ContainerScheduler :=
  s <| cs_blocked_pools ::= λ b, b ∖ {[key]} |> <| cs_dirty_pools ::= λ d, {[key]} ∪ d |>.

(** [take_dirty_pools]. *)
Definition take_dirty_pools (s : ContainerScheduler) : ContainerScheduler * gset ContainerPoolKey :=
  (s <| cs_dirty_pools := ∅ |>, cs_dirty_pools s).

(** ** Executor states and the free-memory index *)

(** [has_available_capacity]. *)
Definition has_available_capacity (s : ContainerScheduler) : bool :=
  negb (bool_decide (cs_executors_by_free_memory s = ∅)).
(** [has_executors]. *)
Definition has_executors (s : ContainerScheduler) : bool :=
  negb (bool_decide (cs_executor_states s = ∅)).

(** The condition under which an executor is kept in the index. *)
Definition indexable (h : HostResources) : bool :=
  bool_decide (0 < host_memory_bytes h) && bool_decide (0 < host_cpu_ms_per_sec h).

(** [insert_resource_index]. *)
Definition insert_resource_index (s : ContainerScheduler) (id : ExecutorId) (h : HostResources)
    : ContainerScheduler :=
  if indexable h
  then s <| cs_executors_by_free_memory ::= λ x, {[(host_memory_bytes h, id)]} ∪ x |> else s.
(** [remove_resource_index]. *)
Definition remove_resource_index (s : ContainerScheduler) (id : ExecutorId) (h : HostResources)
    : ContainerScheduler :=
  s <| cs_executors_by_free_memory ::= λ x, x ∖ {[(host_memory_bytes h, id)]} |>.

(** [set_executor_state]. *)
Definition set_executor_state (s : ContainerScheduler) (id : ExecutorId) (st : ExecutorServerMetadata)
    : ContainerScheduler :=
  let s1 := match cs_executor_states s !! id with
            | Some old => remove_resource_index s id (esm_free_resources old)
            | None => s
            end in
  insert_resource_index s1 id (esm_free_resources st) <| cs_executor_states ::= <[id := st]> |>.

(** [remove_executor_state]. *)
Definition remove_executor_state (s : ContainerScheduler) (id : ExecutorId) : ContainerScheduler :=
  match cs_executor_states s !! id with
  | Some old => remove_resource_index (s <| cs_executor_states ::= delete id |>) id (esm_free_resources old)
  | None => s
  end.

(** [upsert_executor]. *)
Definition upsert_executor (s : ContainerScheduler) (e : ExecutorMetadata) : ContainerScheduler :=
  let s1 := s <| cs_executors ::= <[em_id e := e]> |> in
  let new_class := class_from_executor e in
  let s2 := match cs_executor_classes s1 !! em_id e with
            | Some old => if bool_decide (old ≠ new_class)
                          then s1 <| cs_executors_by_class ::= idx_remove old (em_id e) |> else s1
            | None => s1
            end in
  s2 <| cs_executor_classes ::= <[em_id e := new_class]> |>
     <| cs_executors_by_class ::= idx_insert new_class (em_id e) |>.

(** [deregister_executor]. *)
Definition deregister_executor (s : ContainerScheduler) (id : ExecutorId) : ContainerScheduler :=
  let s1 := s <| cs_executors ::= alter (λ e, e <| em_tombstoned := true |>) id |> in
  let s2 := match cs_executor_states s1 !! id with
            | Some st => remove_resource_index s1 id (esm_free_resources st)
            | None => s1
            end in
  match cs_executor_classes s2 !! id with
  | Some old => s2 <| cs_executor_classes ::= delete id |> <| cs_executors_by_class ::= idx_remove old id |>
  | None => s2
  end.

(** [get_executor_class]. *)
Definition get_executor_class (s : ContainerScheduler) (id : ExecutorId) : ExecutorClass :=
  match cs_executor_classes s !! id with
  | Some c => c
  | None => match cs_executors s !! id with
            | Some e => class_from_executor e
            | None => MkExecutorClass ∅ None
            end
  end.

(** ** Container indexes *)

Definition uri_of (m : ContainerServerMetadata) : FunctionURI :=
  function_uri_of_container (csm_function_container m).
Definition pool_key_of (m : ContainerServerMetadata) : option ContainerPoolKey :=
  container_pool_key (csm_function_container m).
Definition live (m : ContainerServerMetadata) : bool := negb (is_terminated (csm_desired_state m)).
Definition warm (m : ContainerServerMetadata) : bool :=
  bool_decide (ctr_sandbox_id (csm_function_container m) = None).

(** Remove the idle entry recorded for a container, if it has one. *)
Definition drop_idle (s : ContainerScheduler) (cid : ContainerId) (m : option ContainerServerMetadata)
    : ContainerScheduler :=
  match m with
  | Some m =>
      match csm_idle_since m with
      | Some t => s <| cs_idle_containers ::= λ x, x ∖ {[(t, cid)]} |>
      | None => s
      end
  | None => s
  end.

(** [update_container_indices]. *)
Definition update_container_indices (s : ContainerScheduler) (cid : ContainerId)
    (meta : ContainerServerMetadata) : ContainerScheduler :=
  let old := cs_function_containers s !! cid in
  let was_warm := is_some_and (λ o, warm o && live o) old in
  let s1 := drop_idle s cid old in
  let s2 := if live meta && bool_decide (csm_container_type meta = CT_Function)
            then match csm_idle_since meta with
                 | Some t => s1 <| cs_idle_containers ::= λ x, {[(t, cid)]} ∪ x |>
                 | None => s1
                 end
            else s1 in
  let s3 := s2 <| cs_function_containers ::= <[cid := meta]> |> in
  if is_terminated (csm_desired_state meta) then
    let s4 := s3 <| cs_containers_by_function_uri ::= idx_remove (uri_of meta) cid |> in
    match pool_key_of meta with
    | Some pk =>
        let s5 := s4 <| cs_containers_by_pool ::= idx_remove pk cid |> in
        let s6 := if was_warm then s5 <| cs_warm_containers_by_pool ::= idx_remove pk cid |> else s5 in
        mark_pool_dirty s6 pk
    | None => s4
    end
  else
    let s4 := s3 <| cs_containers_by_function_uri ::= idx_insert (uri_of meta) cid |> in
    match pool_key_of meta with
    | Some pk =>
        let s5 := s4 <| cs_containers_by_pool ::= idx_insert pk cid |> in
        let s6 := if warm meta then s5 <| cs_warm_containers_by_pool ::= idx_insert pk cid |>
                  else if was_warm then s5 <| cs_warm_containers_by_pool ::= idx_remove pk cid |>
                  else s5 in
        mark_pool_dirty s6 pk
    | None => s4
    end.

(** [remove_container_from_indices]. *)
Definition remove_container_from_indices (s : ContainerScheduler) (cid : ContainerId) : ContainerScheduler :=
  match cs_function_containers s !! cid with
  | Some fc =>
      let s1 := drop_idle (s <| cs_function_containers ::= delete cid |>) cid (Some fc) in
      let s2 := s1 <| cs_containers_by_function_uri ::= idx_remove (uri_of fc) cid |> in
      match pool_key_of fc with
      | Some pk =>
          mark_pool_dirty
            (s2 <| cs_containers_by_pool ::= idx_remove pk cid |>
                <| cs_warm_containers_by_pool ::= idx_remove pk cid |>) pk
      | None => s2
      end
  | None => s
  end.

(** [terminate_container]; it never returns an error. *)
Definition terminate_container (s : ContainerScheduler) (cid : ContainerId)
    : ContainerScheduler * option SchedulerUpdateRequest :=
  match cs_function_containers s !! cid with
  | None => (s, None)
  | Some fc =>
      let s1 := match pool_key_of fc with
                | Some pk => s <| cs_warm_containers_by_pool ::= idx_remove pk cid |>
                               <| cs_containers_by_pool ::= idx_remove pk cid |>
                | None => s
                end in
      let s2 := s1 <| cs_containers_by_function_uri ::= idx_remove (uri_of fc) cid |> in
      let s3 := drop_idle s2 cid (Some fc) in
      let fc' := fc <| csm_desired_state := CS_Terminated CTR_DesiredStateRemoved |> in
      (s3 <| cs_function_containers ::= <[cid := fc']> |>,
       Some (empty_update <| su_containers := {[cid := fc']} |>))
  end.

Section iteration.
Context `{HO : HashOrder}.

(** [apply_container_update]. *)
Definition apply_container_update (s : ContainerScheduler) (u : SchedulerUpdateRequest)
    : ContainerScheduler :=
  let s1 := foldl (λ s '(id, meta), update_container_indices s id meta) s (map_iter (su_containers u)) in
  let s2 := foldl (λ s '(id, st), set_executor_state s id st) s1 (map_iter (su_updated_executor_states u)) in
  foldl remove_executor_state s2 (su_remove_executors u).

(** ** Counters and selectors *)

(** [count_active_idle_containers]. *)
Definition count_active_idle_containers (s : ContainerScheduler) (uri : FunctionURI) : Z * Z :=
  match cs_containers_by_function_uri s !! uri with
  | Some ids =>
      foldl (λ '(active, idle) id,
        match cs_function_containers s !! id with
        | Some m => if bool_decide (csm_allocations m = ∅)
                    then (active, wrap32 (idle + 1)) else (wrap32 (active + 1), idle)
        | None => (active, idle)
        end) (0, 0) (set_iter ids)
  | None => (0, 0)
  end.

(** [select_idle_containers]. *)
Fixpoint select_idle_loop (s : ContainerScheduler) (ids : list ContainerId) (count : Z)
    (result : list ContainerId) : list ContainerId :=
  match ids with
  | [] => result
  | id :: ids =>
      if bool_decide (count ≤ Z.of_nat (length result)) then result
      else match cs_function_containers s !! id with
           | Some m => if bool_decide (csm_allocations m = ∅)
                       then select_idle_loop s ids count (result ++ [id])
                       else select_idle_loop s ids count result
           | None => select_idle_loop s ids count result
           end
  end.
Definition select_idle_containers (s : ContainerScheduler) (uri : FunctionURI) (count : Z)
    : list ContainerId :=
  match cs_containers_by_function_uri s !! uri with
  | Some ids => select_idle_loop s (set_iter ids) count []
  | None => []
  end.

(** [select_warm_pool_containers]. *)
Definition select_warm_pool_containers (s : ContainerScheduler) (key : ContainerPoolKey) (count : Z)
    : list ContainerId :=
  match cs_warm_containers_by_pool s !! key with
  | Some ids => take (Z.to_nat count) (set_iter ids)
  | None => []
  end.

(** [claim_pool_container]. *)
Definition claim_pool_container (s : ContainerScheduler) (key : ContainerPoolKey) (sandbox : SandboxId)
    (timeout_secs : Z)
    : ContainerScheduler * option (ContainerId * ExecutorId * SchedulerUpdateRequest) :=
  let candidate :=
    match cs_warm_containers_by_pool s !! key with
    | Some ids => head (omap (λ id, (λ m, (id, m)) <$> cs_function_containers s !! id) (set_iter ids))
    | None => None
    end in
  match candidate with
  | None => (s, None)
  | Some (cid, m) =>
      let m' := m <| csm_function_container ::= λ c,
                       c <| ctr_sandbox_id := Some sandbox |> <| ctr_timeout_secs := timeout_secs |> |> in
      let s1 := s <| cs_function_containers ::= <[cid := m']> |> in
      let s2 := s1 <| cs_warm_containers_by_pool ::= idx_remove key cid |> in
      (mark_pool_dirty s2 key,
       Some (cid, csm_executor_id m, empty_update <| su_containers := {[cid := m']} |>))
  end.
End iteration.

(** [pool_container_count]. *)
Definition pool_container_count (s : ContainerScheduler) (key : ContainerPoolKey) : Z :=
  match cs_containers_by_pool s !! key with Some ids => len_u32 (size ids) | None => 0 end.
(** [total_containers_for_function]. *)
Definition total_containers_for_function (s : ContainerScheduler) (uri : FunctionURI) : Z :=
  match cs_containers_by_function_uri s !! uri with Some ids => len_u32 (size ids) | None => 0 end.
(** [ContainerScheduler::count_pool_containers]. *)
Definition count_pool_containers (s : ContainerScheduler) (key : ContainerPoolKey) : Z * Z :=
  let warm := match cs_warm_containers_by_pool s !! key with
              | Some ids => len_u32 (size ids) | None => 0 end in
  (saturating_sub (pool_container_count s key) warm, warm).

(** ** The index invariant *)

(** How far the index of idle containers is known to agree with the table.  Everything that
    goes through [update_container_indices] keeps it exact, which is the default.  Placing
    an allocation and ending one change [idle_since] in the table in place; with them among
    the operations an idle container is still always in the index, but the index may hold
    entries that are out of date. *)
Class IdleIndex := idle_exact : bool.
#[export] Instance exact_idle_index : IdleIndex | 100 := true.
(** [A] is what the index says, [B] what the table says. *)
Definition tracks `{IdleIndex} (A B : Prop) : Prop := (B → A) ∧ (idle_exact = true → A → B).

Section index_invariant.
Context `{II : IdleIndex}.
#[global] Instance tracks_proper : Proper (iff ==> iff ==> iff) tracks.
Proof. intros A A' HA B B' HB. unfold tracks. by rewrite HA, HB. Qed.
Lemma tracks_step (A B A' B' : Prop) : tracks A B → (B' → (B → A) → A') → (A' → (A → B) → B') → tracks A' B'.
Proof. unfold tracks. intros [H1 H2] H3 H4. split; [by intros; apply H3|]. intros He Ha. apply H4; auto. Qed.

(** What each index must say about container [cid], given its table entry. *)
Definition ok_at (s : ContainerScheduler) (cid : ContainerId) : Prop :=
  let o := cs_function_containers s !! cid in
  (∀ uri, cid ∈ idx_get (cs_containers_by_function_uri s) uri ↔
     from_option (λ m, live m = true ∧ uri_of m = uri) False o) ∧
  (∀ pk, cid ∈ idx_get (cs_containers_by_pool s) pk ↔
     from_option (λ m, live m = true ∧ pool_key_of m = Some pk) False o) ∧
  (∀ pk, cid ∈ idx_get (cs_warm_containers_by_pool s) pk ↔
     from_option (λ m, live m = true ∧ pool_key_of m = Some pk ∧ warm m = true) False o) ∧
  (∀ t, tracks ((t, cid) ∈ cs_idle_containers s)
     (from_option (λ m, live m = true ∧ csm_container_type m = CT_Function ∧ csm_idle_since m = Some t)
       False o)).

Definition maps_wf (s : ContainerScheduler) : Prop :=
  idx_wf (cs_containers_by_function_uri s) ∧ idx_wf (cs_containers_by_pool s) ∧
  idx_wf (cs_warm_containers_by_pool s).

Definition indices_wf (s : ContainerScheduler) : Prop := maps_wf s ∧ ∀ cid, ok_at s cid.

(** The two states agree on every container but [cid]. *)
Definition same_except (cid : ContainerId) (s s' : ContainerScheduler) : Prop :=
  ∀ c, c ≠ cid →
    cs_function_containers s' !! c = cs_function_containers s !! c ∧
    (∀ uri, c ∈ idx_get (cs_containers_by_function_uri s') uri ↔ c ∈ idx_get (cs_containers_by_function_uri s) uri) ∧
    (∀ pk, c ∈ idx_get (cs_containers_by_pool s') pk ↔ c ∈ idx_get (cs_containers_by_pool s) pk) ∧
    (∀ pk, c ∈ idx_get (cs_warm_containers_by_pool s') pk ↔ c ∈ idx_get (cs_warm_containers_by_pool s) pk) ∧
    (∀ t, (t, c) ∈ cs_idle_containers s' ↔ (t, c) ∈ cs_idle_containers s).

Lemma same_except_ok cid s s' c : same_except cid s s' → c ≠ cid → ok_at s c → ok_at s' c.
Proof.
  intros Hs Hc. destruct (Hs c Hc) as (E & Hu & Hp & Hw & Hi). unfold ok_at. rewrite E.
  setoid_rewrite Hu. setoid_rewrite Hp. setoid_rewrite Hw. by setoid_rewrite Hi.
Qed.

Lemma indices_wf_step cid s s' :
  indices_wf s → maps_wf s' → same_except cid s s' → ok_at s' cid → indices_wf s'.
Proof.
  intros [_ Hok] Hm Hs Hc. split; [done|]. intros c.
  destruct (decide (c = cid)) as [->|Hne]; [done|]. by eapply same_except_ok.
Qed.

(** The pieces of the state the invariant reads. *)
Definition index_view (s : ContainerScheduler) :=
  (cs_function_containers s, cs_containers_by_function_uri s, cs_containers_by_pool s,
   cs_warm_containers_by_pool s, cs_idle_containers s).
Lemma indices_wf_view s s' : index_view s = index_view s' → indices_wf s → indices_wf s'.
Proof.
  unfold index_view. intros [= E1 E2 E3 E4 E5]. unfold indices_wf, maps_wf, ok_at.
  by rewrite E1, E2, E3, E4, E5.
Qed.
Lemma mark_pool_dirty_view s pk : index_view (mark_pool_dirty s pk) = index_view s.
Proof. done. Qed.
Lemma set_executor_state_view s id st : index_view (set_executor_state s id st) = index_view s.
Proof.
  unfold set_executor_state, insert_resource_index, remove_resource_index.
  by destruct (cs_executor_states s !! id), (indexable _).
Qed.
Lemma remove_executor_state_view s id : index_view (remove_executor_state s id) = index_view s.
Proof. unfold remove_executor_state. by destruct (cs_executor_states s !! id). Qed.
(** The idle entries left once [cid]'s recorded one is dropped. *)
Definition without_idle (cid : ContainerId) (o : option ContainerServerMetadata)
    (x : gset (Instant * ContainerId)) : gset (Instant * ContainerId) :=
  match o ≫= csm_idle_since with Some t => x ∖ {[(t, cid)]} | None => x end.
Lemma elem_of_without_idle cid o x t c :
  (t, c) ∈ without_idle cid o x ↔ (t, c) ∈ x ∧ ¬ (c = cid ∧ (o ≫= csm_idle_since) = Some t).
Proof.
  unfold without_idle. destruct (o ≫= csm_idle_since); [|naive_solver].
  rewrite elem_of_difference, elem_of_singleton. naive_solver.
Qed.
#[local] Hint Rewrite elem_of_without_idle : idx.
Lemma drop_idle_eq s cid o : drop_idle s cid o = s <| cs_idle_containers ::= without_idle cid o |>.
Proof. unfold without_idle. destruct o as [m|]; simpl; [destruct (csm_idle_since m)|]; by destruct s. Qed.

(** Two table entries that the indexes file under the same keys. *)
Definition same_keys (m m' : ContainerServerMetadata) : Prop :=
  uri_of m = uri_of m' ∧ pool_key_of m = pool_key_of m'.
Definition compatible (s : ContainerScheduler) (cid : ContainerId) (meta : ContainerServerMetadata) : Prop :=
  ∀ old, cs_function_containers s !! cid = Some old → same_keys old meta.

Definition was_warm_at (s : ContainerScheduler) (cid : ContainerId) : bool :=
  is_some_and (λ o, warm o && live o) (cs_function_containers s !! cid).

Lemma update_container_indices_fields s cid meta :
  let s' := update_container_indices s cid meta in
  cs_function_containers s' = <[cid := meta]> (cs_function_containers s) ∧
  cs_containers_by_function_uri s' =
    (if live meta then idx_insert (uri_of meta) cid else idx_remove (uri_of meta) cid)
      (cs_containers_by_function_uri s) ∧
  cs_containers_by_pool s' =
    match pool_key_of meta with
    | Some pk => (if live meta then idx_insert pk cid else idx_remove pk cid) (cs_containers_by_pool s)
    | None => cs_containers_by_pool s
    end ∧
  cs_warm_containers_by_pool s' =
    match pool_key_of meta with
    | Some pk =>
        if live meta && warm meta then idx_insert pk cid (cs_warm_containers_by_pool s)
        else if was_warm_at s cid then idx_remove pk cid (cs_warm_containers_by_pool s)
        else cs_warm_containers_by_pool s
    | None => cs_warm_containers_by_pool s
    end ∧
  cs_idle_containers s' =
    (let x := without_idle cid (cs_function_containers s !! cid) (cs_idle_containers s) in
     if live meta && bool_decide (csm_container_type meta = CT_Function)
     then match csm_idle_since meta with Some t => {[(t, cid)]} ∪ x | None => x end else x).
Proof.
  unfold update_container_indices. fold (was_warm_at s cid). rewrite drop_idle_eq.
  replace (is_terminated (csm_desired_state meta)) with (negb (live meta))
    by (unfold live; by rewrite negb_involutive).
  destruct (live meta), (bool_decide (csm_container_type meta = CT_Function)), (csm_idle_since meta),
    (pool_key_of meta), (warm meta), (was_warm_at s cid);
    exact (conj eq_refl (conj eq_refl (conj eq_refl (conj eq_refl eq_refl)))).
Qed.
Lemma update_idle_members s cid meta t c :
  (t, c) ∈ cs_idle_containers (update_container_indices s cid meta) ↔
     ((t, c) ∈ cs_idle_containers s ∧
        ¬ (c = cid ∧ (cs_function_containers s !! cid ≫= csm_idle_since) = Some t)) ∨
     (c = cid ∧ live meta = true ∧ csm_container_type meta = CT_Function ∧ csm_idle_since meta = Some t).
Proof.
  destruct (update_container_indices_fields s cid meta) as (_ & _ & _ & _ & ->). cbv zeta.
  rewrite <-(elem_of_without_idle _ _ (cs_idle_containers s)).
  destruct (live meta), (csm_idle_since meta) as [t0|]; simpl; try case_bool_decide;
    rewrite ?elem_of_union, ?elem_of_singleton; naive_solver.
Qed.

(** Membership of [cid] itself in each index, before and after an update. *)
Lemma ok_at_update s cid meta :
  ok_at s cid → compatible s cid meta → ok_at (update_container_indices s cid meta) cid.
Proof.
  intros (Hu & Hp & Hw & Hi) Hc.
  destruct (update_container_indices_fields s cid meta) as (F1 & F2 & F3 & F4 & _).
  pose proof (update_idle_members s cid meta) as F5.
  unfold ok_at. rewrite F1, F2, F3, F4, lookup_insert_eq. clear F1 F2 F3 F4.
  unfold was_warm_at, compatible, same_keys in *.
  destruct (cs_function_containers s !! cid) as [old|];
    [destruct (Hc old eq_refl) as [Ku Kp]; clear Hc|clear Hc]; simpl in *.
  - rewrite Ku, Kp in *. clear Ku Kp. split_and!.
    + intros uri. specialize (Hu uri). clear -Hu.
      destruct (live meta); autorewrite with idx; naive_solver.
    + intros pk. specialize (Hp pk). clear -Hp.
      destruct (pool_key_of meta), (live meta); autorewrite with idx; naive_solver.
    + intros pk. specialize (Hw pk). clear -Hw.
      destruct (pool_key_of meta), (live meta), (warm meta), (warm old), (live old); simpl in *;
        autorewrite with idx; naive_solver.
    + intros t. apply (tracks_step _ _ _ _ (Hi t)); rewrite F5; clear; naive_solver.
  - split_and!.
    + intros uri. specialize (Hu uri). clear -Hu. destruct (live meta); autorewrite with idx; naive_solver.
    + intros pk. specialize (Hp pk). clear -Hp.
      destruct (pool_key_of meta), (live meta); autorewrite with idx; naive_solver.
    + intros pk. specialize (Hw pk). clear -Hw.
      destruct (pool_key_of meta), (live meta), (warm meta); simpl in *; autorewrite with idx; naive_solver.
    + intros t. apply (tracks_step _ _ _ _ (Hi t)); rewrite F5; clear; naive_solver.
Qed.

Lemma same_except_update s cid meta : same_except cid s (update_container_indices s cid meta).
Proof.
  destruct (update_container_indices_fields s cid meta) as (F1 & F2 & F3 & F4 & _).
  pose proof (update_idle_members s cid meta) as F5.
  intros c Hc. rewrite F1, F2, F3, F4, lookup_insert_ne by done. split_and!; [done| | | |].
  - intros uri. destruct (live meta); autorewrite with idx; naive_solver.
  - intros pk. destruct (pool_key_of meta), (live meta); autorewrite with idx; naive_solver.
  - intros pk. destruct (pool_key_of meta), (live meta && warm meta), (was_warm_at s cid);
      autorewrite with idx; naive_solver.
  - intros t. rewrite F5. naive_solver.
Qed.

Lemma maps_wf_update s cid meta : maps_wf s → maps_wf (update_container_indices s cid meta).
Proof.
  intros (W1 & W2 & W3).
  destruct (update_container_indices_fields s cid meta) as (_ & F2 & F3 & F4 & _).
  unfold maps_wf. rewrite F2, F3, F4.
  destruct (pool_key_of meta), (live meta), (warm meta), (was_warm_at s cid); simpl;
    auto with indexify.
Qed.

Lemma update_container_indices_wf s cid meta :
  indices_wf s → compatible s cid meta → indices_wf (update_container_indices s cid meta).
Proof.
  intros Hs Hc. pose proof Hs as [Hm Hok].
  apply (indices_wf_step cid s); auto using maps_wf_update, same_except_update, ok_at_update.
Qed.

(** Taking a container out of every index at once. *)
Lemma unindexed_wf s s' cid fc :
  indices_wf s → cs_function_containers s !! cid = Some fc →
  cs_containers_by_function_uri s' = idx_remove (uri_of fc) cid (cs_containers_by_function_uri s) →
  cs_containers_by_pool s' = match pool_key_of fc with
    | Some pk => idx_remove pk cid (cs_containers_by_pool s) | None => cs_containers_by_pool s end →
  cs_warm_containers_by_pool s' = match pool_key_of fc with
    | Some pk => idx_remove pk cid (cs_warm_containers_by_pool s) | None => cs_warm_containers_by_pool s end →
  cs_idle_containers s' = without_idle cid (Some fc) (cs_idle_containers s) →
  (∀ c, c ≠ cid → cs_function_containers s' !! c = cs_function_containers s !! c) →
  (∀ m, cs_function_containers s' !! cid = Some m → live m = false) →
  indices_wf s'.
Proof.
  intros Hs E F2 F3 F4 F5' F1 Hm.
  assert (F5 : ∀ t c, (t, c) ∈ cs_idle_containers s' ↔
    (t, c) ∈ cs_idle_containers s ∧ ¬ (c = cid ∧ csm_idle_since fc = Some t)).
  { intros t c. by rewrite F5', elem_of_without_idle. }
  clear F5'. pose proof Hs as [(W1 & W2 & W3) Hok].
  apply (indices_wf_step cid s); [done| | |].
  - unfold maps_wf. rewrite F2, F3, F4. destruct (pool_key_of fc); auto with indexify.
  - intros c Hc. rewrite F1, F2, F3, F4 by done. clear -Hc F5.
    split_and!; [done| | | |intros t; rewrite F5; naive_solver]; intros k; destruct (pool_key_of fc);
      autorewrite with idx; naive_solver.
  - destruct (Hok cid) as (Hu & Hp & Hw & Hi). rewrite E in *. simpl in *. unfold ok_at.
    rewrite F2, F3, F4.
    assert (Hd : ∀ P : ContainerServerMetadata → Prop,
      ¬ from_option (λ m, live m = true ∧ P m) False (cs_function_containers s' !! cid)).
    { intros P. destruct (cs_function_containers s' !! cid) as [m|]; simpl; [|tauto].
      rewrite (Hm m eq_refl). by intros [? _]. }
    clear -Hu Hp Hw Hi Hd F5. split_and!; intros k; [split; [|by intros Hk%Hd]..|].
    + specialize (Hu k). autorewrite with idx. naive_solver.
    + specialize (Hp k). destruct (pool_key_of fc); autorewrite with idx; naive_solver.
    + specialize (Hw k). destruct (pool_key_of fc); autorewrite with idx; naive_solver.
    + apply (tracks_step _ _ _ _ (Hi k)); [by intros Hk%Hd|]. rewrite F5. naive_solver.
Qed.

Lemma terminate_container_fields s cid fc :
  cs_function_containers s !! cid = Some fc →
  let s' := (terminate_container s cid).1 in
  cs_function_containers s' =
    <[cid := fc <| csm_desired_state := CS_Terminated CTR_DesiredStateRemoved |>]> (cs_function_containers s) ∧
  cs_containers_by_function_uri s' = idx_remove (uri_of fc) cid (cs_containers_by_function_uri s) ∧
  cs_containers_by_pool s' = match pool_key_of fc with
    | Some pk => idx_remove pk cid (cs_containers_by_pool s) | None => cs_containers_by_pool s end ∧
  cs_warm_containers_by_pool s' = match pool_key_of fc with
    | Some pk => idx_remove pk cid (cs_warm_containers_by_pool s) | None => cs_warm_containers_by_pool s end ∧
  cs_idle_containers s' = without_idle cid (Some fc) (cs_idle_containers s) ∧
  cs_executor_states s' = cs_executor_states s ∧
  cs_executors_by_free_memory s' = cs_executors_by_free_memory s ∧
  cs_executors s' = cs_executors s ∧
  cs_function_pools s' = cs_function_pools s ∧ cs_sandbox_pools s' = cs_sandbox_pools s.
Proof.
  intros E. unfold terminate_container. rewrite E, drop_idle_eq.
  destruct (pool_key_of fc); repeat (apply conj; [exact eq_refl|]); exact eq_refl.
Qed.

Lemma terminate_container_wf s cid : indices_wf s → indices_wf (terminate_container s cid).1.
Proof.
  intros Hs. destruct (cs_function_containers s !! cid) as [fc|] eqn:E;
    [|by unfold terminate_container; rewrite E].
  destruct (terminate_container_fields s cid fc E) as (F1 & F2 & F3 & F4 & F5 & _).
  apply (unindexed_wf s _ cid fc); try done; rewrite F1.
  - intros c Hc. by rewrite lookup_insert_ne.
  - rewrite lookup_insert_eq. by intros m [= <-].
Qed.

Lemma remove_container_from_indices_fields s cid fc :
  cs_function_containers s !! cid = Some fc →
  let s' := remove_container_from_indices s cid in
  cs_function_containers s' = delete cid (cs_function_containers s) ∧
  cs_containers_by_function_uri s' = idx_remove (uri_of fc) cid (cs_containers_by_function_uri s) ∧
  cs_containers_by_pool s' = match pool_key_of fc with
    | Some pk => idx_remove pk cid (cs_containers_by_pool s) | None => cs_containers_by_pool s end ∧
  cs_warm_containers_by_pool s' = match pool_key_of fc with
    | Some pk => idx_remove pk cid (cs_warm_containers_by_pool s) | None => cs_warm_containers_by_pool s end ∧
  cs_idle_containers s' = without_idle cid (Some fc) (cs_idle_containers s).
Proof.
  intros E. unfold remove_container_from_indices. rewrite E, drop_idle_eq.
  destruct (pool_key_of fc); repeat (apply conj; [exact eq_refl|]); exact eq_refl.
Qed.

Lemma remove_container_from_indices_wf s cid :
  indices_wf s → indices_wf (remove_container_from_indices s cid).
Proof.
  intros Hs. destruct (cs_function_containers s !! cid) as [fc|] eqn:E;
    [|by unfold remove_container_from_indices; rewrite E].
  destruct (remove_container_from_indices_fields s cid fc E) as (F1 & F2 & F3 & F4 & F5).
  apply (unindexed_wf s _ cid fc); try done; rewrite F1.
  - intros c Hc. by rewrite lookup_delete_ne.
  - by rewrite lookup_delete_eq.
Qed.

Lemma idx_get_lookup `{Countable K, Countable X} (m : gmap K (gset X)) k ids :
  m !! k = Some ids → idx_get m k = ids.
Proof. intros E. unfold idx_get. by rewrite E. Qed.

Section claims.
Context `{HO : HashOrder}.

(** What a successful claim picked and did. *)
Lemma claim_pool_container_spec s key sb secs s' cid eid u :
  indices_wf s → claim_pool_container s key sb secs = (s', Some (cid, eid, u)) →
  ∃ m, cs_function_containers s !! cid = Some m ∧ live m = true ∧ pool_key_of m = Some key ∧ warm m = true ∧
    eid = csm_executor_id m ∧
    let m' := m <| csm_function_container ::= λ c,
                  c <| ctr_sandbox_id := Some sb |> <| ctr_timeout_secs := secs |> |> in
    cs_function_containers s' = <[cid := m']> (cs_function_containers s) ∧
    cs_containers_by_function_uri s' = cs_containers_by_function_uri s ∧
    cs_containers_by_pool s' = cs_containers_by_pool s ∧
    cs_warm_containers_by_pool s' = idx_remove key cid (cs_warm_containers_by_pool s) ∧
    cs_idle_containers s' = cs_idle_containers s ∧
    u = empty_update <| su_containers := {[cid := m']} |>.
Proof.
  intros [_ Hok]. unfold claim_pool_container.
  destruct (cs_warm_containers_by_pool s !! key) as [ids|] eqn:Ek; [|done].
  destruct (head _) as [[c m]|] eqn:Eh; [|done]. intros [= <- <- <- <-].
  apply head_Some_elem_of, list_elem_of_omap in Eh as (c' & Hc' & Em).
  apply fmap_Some in Em as (m' & Em & [= <- <-]). apply elem_of_set_iter in Hc'.
  rewrite <-(idx_get_lookup _ _ _ Ek) in Hc'.
  apply (Hok c) in Hc'. rewrite Em in Hc'. simpl in Hc'. exists m. naive_solver.
Qed.

Lemma claim_pool_container_wf s key sb secs :
  indices_wf s → indices_wf (claim_pool_container s key sb secs).1.
Proof.
  intros Hs. destruct (claim_pool_container s key sb secs) as [s' [[[cid eid] u]|]] eqn:Eq; simpl.
  - destruct (claim_pool_container_spec _ _ _ _ _ _ _ _ Hs Eq)
      as (m & Em & Hl & Hpk & Hw & _ & F1 & F2 & F3 & F4 & F5 & _).
    pose proof Hs as [(W1 & W2 & W3) Hok]. destruct (Hok cid) as (Hu & Hp & Hwm & Hi).
    rewrite Em in *. simpl in *. apply (indices_wf_step cid s); [done| | |].
    + unfold maps_wf. rewrite F2, F3, F4. auto with indexify.
    + intros c Hc. rewrite F1, F2, F3, F4, F5, lookup_insert_ne by done.
      split_and!; try done. intros k. autorewrite with idx. naive_solver.
    + unfold ok_at. rewrite F1, F2, F3, F4, F5, lookup_insert_eq. rsimpl. split_and!.
      * intros uri. by rewrite Hu.
      * intros pk. by rewrite Hp.
      * intros pk. autorewrite with idx. rewrite Hwm. unfold warm; rsimpl. naive_solver.
      * exact Hi.
  - unfold claim_pool_container in Eq. by repeat break_match_in Eq; simplify_eq.
Qed.
End claims.

(** A whole container update keeps the indexes right when every entry it
    carries keeps the keys its container is filed under. *)
Lemma apply_container_update_wf `{HO : HashOrder} s u :
  indices_wf s → (∀ cid meta, su_containers u !! cid = Some meta → compatible s cid meta) →
  indices_wf (apply_container_update s u).
Proof.
  intros Hs Hc. unfold apply_container_update.
  apply (foldl_ind indices_wf).
  2:{ intros a id _ Ha. eapply indices_wf_view; [symmetry; apply remove_executor_state_view|done]. }
  apply (foldl_ind indices_wf).
  2:{ intros a [id st] _ Ha. eapply indices_wf_view; [symmetry; apply set_executor_state_view|done]. }
  apply (foldl_ind_prefix (λ pre a, indices_wf a ∧
    ∀ c, c ∉ pre.*1 → cs_function_containers a !! c = cs_function_containers s !! c)); [done|].
  intros pre [cid meta] a [post Hpost] [Ha Hsame].
  assert (Hin : (cid, meta) ∈ map_iter (su_containers u)) by (rewrite Hpost; set_solver).
  apply elem_of_map_iter in Hin.
  assert (Hnd : NoDup (map_iter (su_containers u)).*1) by apply NoDup_map_iter_fst.
  rewrite Hpost, fmap_app in Hnd. apply NoDup_app in Hnd as (_ & Hnd & _). split.
  - apply update_container_indices_wf; [done|]. intros old Hold.
    rewrite Hsame in Hold by (intros Hx; eapply Hnd; [done|set_solver]). by eapply Hc.
  - intros c. rewrite fmap_app, not_elem_of_app. intros [H1 H2].
    destruct (update_container_indices_fields a cid meta) as (-> & _).
    rewrite lookup_insert_ne by set_solver. by apply Hsame.
Qed.

End index_invariant.

(** ** The executor indexes *)

(** [executors_by_class] is the inverse of [executor_classes], which holds the
    class of exactly the executors that are not tombstoned. *)
Definition classes_wf (s : ContainerScheduler) : Prop :=
  idx_wf (cs_executors_by_class s) ∧
  (∀ id c, id ∈ idx_get (cs_executors_by_class s) c ↔ cs_executor_classes s !! id = Some c) ∧
  (∀ id c, cs_executor_classes s !! id = Some c →
     ∃ e, cs_executors s !! id = Some e ∧ class_from_executor e = c ∧ em_tombstoned e = false) ∧
  (∀ id e, cs_executors s !! id = Some e → em_tombstoned e = false →
     cs_executor_classes s !! id = Some (class_from_executor e)).

(** An entry of the free-memory index is the free memory of a known executor,
    which is therefore listed once. *)
Definition memory_index_wf (s : ContainerScheduler) : Prop :=
  ∀ mem id, (mem, id) ∈ cs_executors_by_free_memory s →
    ∃ st, cs_executor_states s !! id = Some st ∧ mem = host_memory_bytes (esm_free_resources st).

Definition class_view (s : ContainerScheduler) :=
  (cs_executors s, cs_executor_classes s, cs_executors_by_class s).
Definition memory_view (s : ContainerScheduler) :=
  (cs_executor_states s, cs_executors_by_free_memory s).
Lemma classes_wf_view s s' : class_view s = class_view s' → classes_wf s → classes_wf s'.
Proof. unfold class_view, classes_wf. intros [= E1 E2 E3]. by rewrite E1, E2, E3. Qed.
Lemma memory_index_wf_view s s' : memory_view s = memory_view s' → memory_index_wf s → memory_index_wf s'.
Proof. unfold memory_view, memory_index_wf. intros [= E1 E2]. by rewrite E1, E2. Qed.

Lemma upsert_executor_classes s e :
  cs_executors (upsert_executor s e) = <[em_id e := e]> (cs_executors s) ∧
  cs_executor_classes (upsert_executor s e) = <[em_id e := class_from_executor e]> (cs_executor_classes s) ∧
  cs_executors_by_class (upsert_executor s e) =
    idx_insert (class_from_executor e) (em_id e)
      (match cs_executor_classes s !! em_id e with
       | Some old => if bool_decide (old ≠ class_from_executor e)
                     then idx_remove old (em_id e) (cs_executors_by_class s) else cs_executors_by_class s
       | None => cs_executors_by_class s end) ∧
  index_view (upsert_executor s e) = index_view s ∧ memory_view (upsert_executor s e) = memory_view s.
Proof.
  unfold upsert_executor.
  change (cs_executor_classes (s <| cs_executors ::= <[em_id e := e]> |>)) with (cs_executor_classes s).
  destruct (cs_executor_classes s !! em_id e) as [old|]; [destruct (bool_decide (old ≠ _))|];
    repeat (apply conj; [exact eq_refl|]); exact eq_refl.
Qed.

Lemma upsert_executor_classes_wf s e :
  em_tombstoned e = false → classes_wf s → classes_wf (upsert_executor s e).
Proof.
  intros Ht (W & Hinv & Hs & Hc). destruct (upsert_executor_classes s e) as (E1 & E2 & E3 & _).
  unfold classes_wf. rewrite E1, E2, E3. clear E1 E2 E3. split_and!.
  - repeat case_match; auto with indexify.
  - intros id c. rewrite elem_of_idx_insert, lookup_insert.
    destruct (decide (em_id e = id)) as [<-|Hne].
    + specialize (Hinv (em_id e)). destruct (cs_executor_classes s !! em_id e) as [old|] eqn:Eo;
        [case_bool_decide as Hb|]; autorewrite with idx; rewrite Hinv; naive_solver.
    + assert (Hkeep : id ∈ idx_get (match cs_executor_classes s !! em_id e with
         | Some old => if bool_decide (old ≠ class_from_executor e)
                     then idx_remove old (em_id e) (cs_executors_by_class s) else cs_executors_by_class s
         | None => cs_executors_by_class s end) c ↔ id ∈ idx_get (cs_executors_by_class s) c).
      { repeat case_match; autorewrite with idx; naive_solver. }
      rewrite Hkeep, Hinv. naive_solver.
  - intros id c. rewrite !lookup_insert. case_decide; naive_solver.
  - intros id e'. rewrite !lookup_insert. case_decide; naive_solver.
Qed.

Lemma deregister_executor_fields s id :
  let s' := deregister_executor s id in
  cs_executors s' = alter (λ e, e <| em_tombstoned := true |>) id (cs_executors s) ∧
  cs_executor_classes s' = delete id (cs_executor_classes s) ∧
  cs_executors_by_class s' =
    match cs_executor_classes s !! id with
    | Some old => idx_remove old id (cs_executors_by_class s) | None => cs_executors_by_class s end ∧
  cs_executors_by_free_memory s' =
    match cs_executor_states s !! id with
    | Some st => cs_executors_by_free_memory s ∖ {[(host_memory_bytes (esm_free_resources st), id)]}
    | None => cs_executors_by_free_memory s end ∧
  cs_executor_states s' = cs_executor_states s ∧ index_view s' = index_view s.
Proof.
  unfold deregister_executor.
  change (cs_executor_states (s <| cs_executors ::= alter (λ e, e <| em_tombstoned := true |>) id |>))
    with (cs_executor_states s).
  destruct (cs_executor_states s !! id) as [st|].
  - change (cs_executor_classes (remove_resource_index _ _ _)) with (cs_executor_classes s).
    destruct (cs_executor_classes s !! id) as [old|] eqn:Eo;
      (split; [exact eq_refl|split; [|repeat (apply conj; [exact eq_refl|]); exact eq_refl]]);
      [exact eq_refl|by rewrite delete_id].
  - change (cs_executor_classes (s <| cs_executors ::= alter (λ e, e <| em_tombstoned := true |>) id |>))
      with (cs_executor_classes s).
    destruct (cs_executor_classes s !! id) as [old|] eqn:Eo;
      (split; [exact eq_refl|split; [|repeat (apply conj; [exact eq_refl|]); exact eq_refl]]);
      [exact eq_refl|by rewrite delete_id].
Qed.

Lemma deregister_executor_classes_wf s id : classes_wf s → classes_wf (deregister_executor s id).
Proof.
  intros (W & Hinv & Hs & Hc). destruct (deregister_executor_fields s id) as (E1 & E2 & E3 & _).
  unfold classes_wf. rewrite E1, E2, E3. clear E1 E2 E3. split_and!.
  - case_match; auto with indexify.
  - intros i c. rewrite lookup_delete. specialize (Hinv i c).
    destruct (cs_executor_classes s !! id) as [old|] eqn:Eo; autorewrite with idx; case_decide; naive_solver.
  - intros i c. rewrite lookup_delete, lookup_alter. case_decide; [done|]. apply Hs.
  - intros i e. rewrite lookup_delete, lookup_alter. case_decide; subst; [|by apply Hc].
    destruct (cs_executors s !! i); simpl; naive_solver.
Qed.

Lemma deregister_executor_memory_wf s id : memory_index_wf s → memory_index_wf (deregister_executor s id).
Proof.
  intros Hm mem i. destruct (deregister_executor_fields s id) as (_ & _ & _ & -> & -> & _).
  intros Hin. apply Hm. destruct (cs_executor_states s !! id); set_solver.
Qed.

Lemma set_executor_state_fields s id st :
  let s' := set_executor_state s id st in
  let x := match cs_executor_states s !! id with
           | Some old => cs_executors_by_free_memory s ∖ {[(host_memory_bytes (esm_free_resources old), id)]}
           | None => cs_executors_by_free_memory s end in
  cs_executor_states s' = <[id := st]> (cs_executor_states s) ∧
  cs_executors_by_free_memory s' =
    (if indexable (esm_free_resources st)
     then {[(host_memory_bytes (esm_free_resources st), id)]} ∪ x else x) ∧
  class_view s' = class_view s.
Proof.
  unfold set_executor_state, insert_resource_index.
  destruct (cs_executor_states s !! id), (indexable (esm_free_resources st));
    exact (conj eq_refl (conj eq_refl eq_refl)).
Qed.

Lemma set_executor_state_memory_wf s id st : memory_index_wf s → memory_index_wf (set_executor_state s id st).
Proof.
  intros Hm mem i. destruct (set_executor_state_fields s id st) as (-> & -> & _). cbv zeta.
  rewrite lookup_insert. intros Hin.
  assert (Hor : (indexable (esm_free_resources st) = true ∧ mem = host_memory_bytes (esm_free_resources st) ∧ i = id) ∨
    ((mem, i) ∈ cs_executors_by_free_memory s ∧
     (∀ old, cs_executor_states s !! id = Some old → (mem, i) ≠ (host_memory_bytes (esm_free_resources old), id)))).
  { destruct (cs_executor_states s !! id), (indexable (esm_free_resources st)); set_solver. }
  clear Hin. destruct Hor as [(? & -> & ->)|[Hin Hne]].
  - rewrite decide_True by done. eauto.
  - destruct (Hm _ _ Hin) as (st' & Est & ->). case_decide; [|by eauto]. subst.
    by destruct (Hne st' Est).
Qed.

Lemma remove_executor_state_fields s id :
  let s' := remove_executor_state s id in
  cs_executor_states s' = delete id (cs_executor_states s) ∧
  cs_executors_by_free_memory s' =
    match cs_executor_states s !! id with
    | Some old => cs_executors_by_free_memory s ∖ {[(host_memory_bytes (esm_free_resources old), id)]}
    | None => cs_executors_by_free_memory s end ∧
  class_view s' = class_view s.
Proof.
  unfold remove_executor_state. destruct (cs_executor_states s !! id) eqn:E.
  - exact (conj eq_refl (conj eq_refl eq_refl)).
  - by rewrite delete_id.
Qed.

Lemma remove_executor_state_memory_wf s id : memory_index_wf s → memory_index_wf (remove_executor_state s id).
Proof.
  intros Hm mem i. destruct (remove_executor_state_fields s id) as (-> & -> & _).
  rewrite lookup_delete. intros Hin.
  assert (Hor : (mem, i) ∈ cs_executors_by_free_memory s ∧
     (∀ old, cs_executor_states s !! id = Some old → (mem, i) ≠ (host_memory_bytes (esm_free_resources old), id))).
  { destruct (cs_executor_states s !! id); set_solver. }
  destruct Hor as [Hin' Hne]. destruct (Hm _ _ Hin') as (st' & Est & ->).
  case_decide; [|by eauto]. subst. by destruct (Hne st' Est).
Qed.

Lemma empty_scheduler_indices_wf `{II : IdleIndex} : indices_wf empty_scheduler.
Proof.
  split; [by split_and!; auto with indexify|]. intros cid. unfold ok_at. simpl.
  split_and!; [intros; by rewrite ?idx_get_empty..|]. intros t. split; [done|]. set_solver.
Qed.
Lemma empty_scheduler_classes_wf : classes_wf empty_scheduler.
Proof. by split_and!; auto with indexify. Qed.
Lemma empty_scheduler_memory_wf : memory_index_wf empty_scheduler.
Proof. intros mem id. set_solver. Qed.

(** ** Counters and claims *)

(** The containers of the table that satisfy a predicate. *)
Definition containers_where (s : ContainerScheduler) (P : ContainerServerMetadata → bool)
    : gmap ContainerId ContainerServerMetadata :=
  filter (λ kv, P kv.2 = true) (cs_function_containers s).
Definition in_pool (key : ContainerPoolKey) (m : ContainerServerMetadata) : bool :=
  live m && bool_decide (pool_key_of m = Some key).

Lemma index_size (ids : gset ContainerId) s P :
  (∀ c, c ∈ ids ↔ from_option (λ m, P m = true) False (cs_function_containers s !! c)) →
  size ids = size (containers_where s P).
Proof.
  intros H. rewrite <-(size_dom (D := gset ContainerId)). f_equal. apply set_eq. intros c.
  rewrite H, elem_of_dom. unfold containers_where. split.
  - destruct (cs_function_containers s !! c) as [m|] eqn:E; [|done]. simpl. intros Hp. exists m.
    by apply map_lookup_filter_Some.
  - intros [m [E Hp]%map_lookup_filter_Some]. by rewrite E.
Qed.

Lemma pool_index_size `{II : IdleIndex} s key :
  indices_wf s →
  size (idx_get (cs_containers_by_pool s) key) = size (containers_where s (in_pool key)) ∧
  size (idx_get (cs_warm_containers_by_pool s) key) = size (containers_where s (λ m, in_pool key m && warm m)).
Proof.
  intros [_ Hok]. split; apply index_size; intros c; destruct (Hok c) as (_ & Hp & Hw & _);
    [rewrite Hp|rewrite Hw]; destruct (cs_function_containers s !! c) as [m|]; simpl; try done;
    unfold in_pool; destruct (live m), (warm m); simpl;
    rewrite ?andb_true_r, ?andb_false_r, ?bool_decide_eq_true; naive_solver.
Qed.

Lemma containers_where_mono s (P Q : ContainerServerMetadata → bool) :
  (∀ m, P m = true → Q m = true) → (size (containers_where s P) ≤ size (containers_where s Q))%nat.
Proof.
  intros H. apply map_subseteq_size. unfold containers_where. apply map_subseteq_spec. intros c m.
  rewrite !map_lookup_filter_Some. naive_solver.
Qed.

Lemma pool_counts `{II : IdleIndex} s key :
  indices_wf s → Z.of_nat (size (containers_where s (in_pool key))) < 2 ^ 32 →
  pool_container_count s key = Z.of_nat (size (containers_where s (in_pool key))) ∧
  ∃ claimed warm_count, count_pool_containers s key = (claimed, warm_count) ∧
    warm_count = Z.of_nat (size (containers_where s (λ m, in_pool key m && warm m))) ∧
    claimed + warm_count = pool_container_count s key ∧ 0 ≤ claimed.
Proof.
  intros Hs Hb. destruct (pool_index_size s key Hs) as [Ep Ew].
  assert (Hle : (size (containers_where s (λ m, in_pool key m && warm m)) ≤ size (containers_where s (in_pool key)))%nat).
  { apply containers_where_mono. by intros m [? _]%andb_true_iff. }
  assert (Hcount : pool_container_count s key = Z.of_nat (size (containers_where s (in_pool key)))).
  { unfold pool_container_count. rewrite <-Ep in *. unfold idx_get in *.
    destruct (cs_containers_by_pool s !! key); simpl in *; [apply wrap32_id; unfold in_u32; lia|done]. }
  assert (Hwarm : match cs_warm_containers_by_pool s !! key with Some ids => len_u32 (size ids) | None => 0 end =
    Z.of_nat (size (containers_where s (λ m, in_pool key m && warm m)))).
  { rewrite <-Ew in *. unfold idx_get in *.
    destruct (cs_warm_containers_by_pool s !! key); simpl in *; [apply wrap32_id; unfold in_u32; lia|done]. }
  split; [done|]. unfold count_pool_containers. rewrite Hwarm, Hcount. eexists _, _. split; [reflexivity|].
  unfold saturating_sub. split_and!; lia.
Qed.

(** The O(1) pool counters are exact: the count of a pool is the number of
    its non-terminated containers, and [count_pool_containers] splits it into the
    claimed ones and the warm ones, without the saturating subtraction ever
    saturating. *)
Theorem pool_counts_exact `{II : IdleIndex} s key :
  indices_wf s → Z.of_nat (size (containers_where s (in_pool key))) < 2 ^ 32 →
  pool_container_count s key = Z.of_nat (size (containers_where s (in_pool key))) ∧
  ∃ claimed warm_count, count_pool_containers s key = (claimed, warm_count) ∧
    warm_count = Z.of_nat (size (containers_where s (λ m, in_pool key m && warm m))) ∧
    claimed + warm_count = pool_container_count s key ∧ 0 ≤ claimed.
Proof. apply pool_counts. Qed.

(** Claiming a pool container hands out a live container of that pool that no
    sandbox held; afterwards it belongs to the sandbox, it stays counted in the
    pool, the pool has one warm container less, and no later claim on that state
    can hand out the same container again. *)
Theorem claim_is_exclusive `{HO : HashOrder} `{II : IdleIndex} s key sb secs s' cid eid u :
  indices_wf s → claim_pool_container s key sb secs = (s', Some (cid, eid, u)) →
  indices_wf s' ∧
  (∃ m m', cs_function_containers s !! cid = Some m ∧ in_pool key m = true ∧
     ctr_sandbox_id (csm_function_container m) = None ∧ eid = csm_executor_id m ∧
     cs_function_containers s' = <[cid := m']> (cs_function_containers s) ∧
     ctr_sandbox_id (csm_function_container m') = Some sb ∧ in_pool key m' = true ∧
     su_containers u = {[cid := m']}) ∧
  size (containers_where s (in_pool key)) = size (containers_where s' (in_pool key)) ∧
  size (containers_where s (λ m, in_pool key m && warm m)) =
    S (size (containers_where s' (λ m, in_pool key m && warm m))) ∧
  ∀ sb2 secs2 s2 cid2 eid2 u2,
    claim_pool_container s' key sb2 secs2 = (s2, Some (cid2, eid2, u2)) → cid2 ≠ cid.
Proof.
  intros Hs Hc. pose proof (claim_pool_container_wf s key sb secs Hs) as Hs'. rewrite Hc in Hs'. simpl in Hs'.
  destruct (claim_pool_container_spec s key sb secs s' cid eid u Hs Hc)
    as (m & Em & Hl & Hpk & Hw & Heid & F1 & _ & F3 & F4 & _ & Hu).
  destruct (pool_index_size s key Hs) as [Ep Ew]. destruct (pool_index_size s' key Hs') as [Ep' Ew'].
  rewrite <-Ep, <-Ew, <-Ep', <-Ew', F3, F4. unfold warm in Hw. apply bool_decide_eq_true in Hw.
  assert (Hin : cid ∈ idx_get (cs_warm_containers_by_pool s) key).
  { destruct Hs as [_ Hok]. apply (Hok cid). rewrite Em. unfold warm. simpl. by rewrite bool_decide_eq_true_2. }
  split_and!; [done| |done| |].
  - assert (Hin_pool : in_pool key m = true) by (unfold in_pool; by rewrite Hl, Hpk, bool_decide_eq_true_2).
    eexists m, _. split_and!; [done|done|done|done|exact F1|done|exact Hin_pool|by rewrite Hu].
  - rewrite idx_get_remove, decide_True by done. rewrite size_difference by set_solver. rewrite size_singleton.
    assert (size (idx_get (cs_warm_containers_by_pool s) key) ≠ 0%nat); [|lia].
    intros Hz. apply size_empty_inv in Hz. set_solver.
  - intros sb2 secs2 s2 cid2 eid2 u2 Hc2 ->.
    destruct (claim_pool_container_spec _ _ _ _ _ _ _ _ Hs' Hc2) as (m2 & Em2 & _ & _ & Hw2 & _).
    rewrite F1, lookup_insert_eq in Em2. injection Em2 as <-. by unfold warm in Hw2; rsimpl.
Qed.

(** ** A concrete pool *)

Definition pool_key_ex : ContainerPoolKey := MkContainerPoolKey "ns" "pool".
Definition warm_ctr_ex (id : ContainerId) : ContainerServerMetadata :=
  MkContainerServerMetadata "e1"
    (MkContainer id "ns" "" "pool:pool" "" CS_Pending (MkContainerResources 1000 1024 1024 None) 1 CT_Sandbox
       None [] 0 [] None None (Some "pool"%string) None None None) CS_Running CT_Sandbox ∅ (Some 3).
Definition warm_pool_ex : ContainerScheduler :=
  update_container_indices (update_container_indices empty_scheduler "w1" (warm_ctr_ex "w1")) "w2" (warm_ctr_ex "w2").
Lemma warm_pool_ex_wf : indices_wf warm_pool_ex.
Proof.
  apply update_container_indices_wf; [apply update_container_indices_wf; [apply empty_scheduler_indices_wf|]|];
    intros old; by vm_compute.
Qed.
Lemma pool_counts_exact_witness :
  pool_container_count warm_pool_ex pool_key_ex = 2 ∧ count_pool_containers warm_pool_ex pool_key_ex = (0, 2).
Proof.
  destruct (pool_counts_exact warm_pool_ex pool_key_ex warm_pool_ex_wf ltac:(vm_compute; reflexivity))
    as [E (cl & wm & Ec & Hw & Hs & _)].
  assert (E2 : pool_container_count warm_pool_ex pool_key_ex = 2) by (rewrite E; vm_compute; reflexivity).
  assert (Hw2 : wm = 2) by (rewrite Hw; vm_compute; reflexivity).
  split; [exact E2|]. rewrite Ec. f_equal; lia.
Defined.
Definition claim_ex := @claim_pool_container canonical_order warm_pool_ex pool_key_ex "sb1" 60.
Lemma claim_is_exclusive_witness :
  ∃ cid, (λ r, r.1.1) <$> claim_ex.2 = Some cid ∧
    ∀ sb2 secs2 s2 cid2 eid2 u2,
      @claim_pool_container canonical_order claim_ex.1 pool_key_ex sb2 secs2 = (s2, Some (cid2, eid2, u2)) → cid2 ≠ cid.
Proof.
  unfold claim_ex. destruct (claim_pool_container _ _ _ _) as [s' [[[cid eid] u]|]] eqn:E;
    [|apply (f_equal (λ r, match r.2 with Some _ => true | None => false end)) in E; vm_compute in E; discriminate].
  exists cid. split; [reflexivity|].
  destruct (@claim_is_exclusive canonical_order _ warm_pool_ex pool_key_ex "sb1" 60 s' cid eid u warm_pool_ex_wf E)
    as (_ & _ & _ & _ & H). exact H.
Defined.
