(* ===== verification/Placement.v ===== *)
(** * Executor selection

    [scheduler/placement.rs] and
    [ContainerScheduler::executor_matches_constraints]: which executors a
    workload may run on, the per-pass cache of that answer by executor class,
    and the choice of an executor with enough free resources.

    The random memory threshold of [select_executor] is an argument; the theorems
    hold for every threshold in the range the code draws it from. *)
From S2P Require Import Prelude DataModel Resources Updates Blocked SchedulerState.

(** ** Definitions *)

(** [FeasibilityCache], with [get] and [insert]. *)
Notation FeasibilityCache := (gmap WorkloadKey (gmap ExecutorClass bool)).
Definition cache_get (c : FeasibilityCache) (w : WorkloadKey) (class : ExecutorClass) : option bool :=
  c !! w ≫= λ m, m !! class.
Definition cache_insert (c : FeasibilityCache) (w : WorkloadKey) (class : ExecutorClass) (b : bool)
    : FeasibilityCache :=
  <[w := <[class := b]> (default ∅ (c !! w))]> c.

(** [ContainerScheduler::executor_matches_constraints], also [check_constraints]. *)
Definition executor_matches_constraints (e : ExecutorMetadata) (ns app : string) (f : option Function_)
    : bool :=
  if em_tombstoned e then false
  else match f with
       | Some func =>
           if negb (is_function_allowed e ns app func) then false
           else if negb (labels_match (fn_placement_constraints func) (em_labels e)) then false
           else true
       | None => if negb (is_namespace_allowed e ns) then false else true
       end.

(** What a placement request asks for, the arguments both functions share. *)
Record Workload := MkWorkload {
  wl_key : WorkloadKey;
  wl_namespace : string;
  wl_application : string;
  wl_function : option Function_;
}.
Definition matches (w : Workload) (e : ExecutorMetadata) : bool :=
  executor_matches_constraints e (wl_namespace w) (wl_application w) (wl_function w).

(** The cached answer, or the check on [e], recorded. *)
Definition feasible_cached (w : Workload) (cache : FeasibilityCache) (class : ExecutorClass)
    (e : ExecutorMetadata) : FeasibilityCache * bool :=
  match cache_get cache (wl_key w) class with
  | Some b => (cache, b)
  | None => let b := matches w e in (cache_insert cache (wl_key w) class b, b)
  end.

Section placement.
Context `{HO : HashOrder}.

(** The loop body of [compute_eligible_classes]: one class, tried on its first
    executor. *)
Definition eligible_step (s : ContainerScheduler) (w : Workload)
    (acc : FeasibilityCache * gset ExecutorClass) (entry : ExecutorClass * gset ExecutorId)
    : FeasibilityCache * gset ExecutorClass :=
  let '(cache, eligible) := acc in
  let '(class, ids) := entry in
  match head (set_iter ids) with
  | None => (cache, eligible)
  | Some id =>
      let '(cache', feasible) :=
        match cache_get cache (wl_key w) class with
        | Some b => (cache, b)
        | None => match cs_executors s !! id with
                  | Some e => let b := matches w e in (cache_insert cache (wl_key w) class b, b)
                  | None => (cache, false)
                  end
        end in
      (cache', if feasible : bool then {[class]} ∪ eligible else eligible)
  end.

(** [compute_eligible_classes]. *)
Definition compute_eligible_classes (s : ContainerScheduler) (cache : FeasibilityCache) (w : Workload)
    : FeasibilityCache * gset ExecutorClass :=
  foldl (eligible_step s w) (cache, ∅) (map_iter (cs_executors_by_class s)).
End placement.

(** The resource checks on one candidate. *)
Definition candidate_has_resources (s : ContainerScheduler) (mem : Z) (id : ExecutorId)
    (res : FunctionResources) : bool :=
  if bool_decide (mem < mb_to_bytes (fres_memory_mb res)) then false
  else match cs_executor_states s !! id with
       | None => false
       | Some st =>
           let h := esm_free_resources st in
           if bool_decide (host_cpu_ms_per_sec h < fres_cpu_ms_per_sec res) then false
           else if bool_decide (host_disk_bytes h < mb_to_bytes (fres_ephemeral_disk_mb res)) then false
           else is_ok (can_handle_function_resources h res)
       end.

(** The candidate loop of [select_executor], with its [break]. *)
Fixpoint select_loop (s : ContainerScheduler) (w : Workload) (res : FunctionResources) (limit : Z)
    (todo : list (Z * ExecutorId)) (cache : FeasibilityCache) (eligible : gset ExecutorClass)
    (candidates : list (ExecutorId * Z))
    : FeasibilityCache * gset ExecutorClass * list (ExecutorId * Z) :=
  match todo with
  | [] => (cache, eligible, candidates)
  | (mem, id) :: todo =>
      match cs_executors s !! id with
      | None => select_loop s w res limit todo cache eligible candidates
      | Some e =>
          if em_tombstoned e then select_loop s w res limit todo cache eligible candidates
          else
            let class := default (class_from_executor e) (cs_executor_classes s !! id) in
            let '(cache', feasible) := feasible_cached w cache class e in
            if negb feasible then select_loop s w res limit todo cache' eligible candidates
            else
              let eligible' := {[class]} ∪ eligible in
              if candidate_has_resources s mem id res then
                let candidates' := candidates ++ [(id, mem)] in
                if bool_decide (limit ≤ Z.of_nat (length candidates'))
                then (cache', eligible', candidates')
                else select_loop s w res limit todo cache' eligible' candidates'
              else select_loop s w res limit todo cache' eligible' candidates
      end
  end.

(** [Iterator::max_by_key] on the memory: the last of the maximal elements. *)
Definition max_by_memory (l : list (ExecutorId * Z)) : option (ExecutorId * Z) :=
  foldl (λ best c, match best with
                   | None => Some c
                   | Some b => if bool_decide (c.2 < b.2) then Some b else Some c
                   end) None l.

(** [executors_by_free_memory.get_max()]. *)
Definition max_free_memory (s : ContainerScheduler) : Z :=
  default 0 (fst <$> last (sorted_elements (cs_executors_by_free_memory s))).

(** [range((a, "")..)] and [range((a, "")..(b, ""))] of the ordered index. *)
Definition range_from (x : gset (Z * ExecutorId)) (a : Z) : list (Z * ExecutorId) :=
  filter (λ p, a ≤ p.1) (sorted_elements x).
Definition range_between (x : gset (Z * ExecutorId)) (a b : Z) : list (Z * ExecutorId) :=
  filter (λ p, a ≤ p.1 < b) (sorted_elements x).

Section select.
Context `{HO : HashOrder}.

(** [select_executor]; [random_mem] is the outcome of [random_range]. *)
Definition select_executor (s : ContainerScheduler) (cache : FeasibilityCache) (w : Workload)
    (res : FunctionResources) (limit : Z) (random_mem : Z) : FeasibilityCache * PlacementResult :=
  let min_memory_bytes := mb_to_bytes (fres_memory_mb res) in
  if bool_decide (max_free_memory s < min_memory_bytes) then
    let '(cache', eligible) := compute_eligible_classes s cache w in
    (cache', MkPlacementResult None eligible)
  else
    let index := cs_executors_by_free_memory s in
    let '(cache', eligible, candidates) :=
      select_loop s w res limit
        (range_from index random_mem ++ range_between index min_memory_bytes random_mem)
        cache ∅ [] in
    (cache', MkPlacementResult (fst <$> max_by_memory candidates) eligible).
End select.

(** ** Classes decide constraints *)

Lemma existsb_perm {A} (p : A → bool) l1 l2 : l1 ≡ₚ l2 → existsb p l1 = existsb p l2.
Proof.
  induction 1 as [|x l1 l2 _ IH|x y l|]; simpl; [done|by rewrite IH| |congruence].
  by destruct (p x), (p y).
Qed.

Lemma same_class_matches e1 e2 ns app f :
  class_from_executor e1 = class_from_executor e2 →
  em_tombstoned e1 = false → em_tombstoned e2 = false →
  executor_matches_constraints e1 ns app f = executor_matches_constraints e2 ns app f.
Proof.
  unfold class_from_executor, executor_matches_constraints. intros [= Hl Ha] -> ->.
  assert (Hp : ∀ p : FunctionAllowlist → bool,
    from_option (existsb p) true (em_function_allowlist e1) =
    from_option (existsb p) true (em_function_allowlist e2)).
  { intros p. destruct (em_function_allowlist e1) as [l1|], (em_function_allowlist e2) as [l2|]; simplify_eq/=; [|done].
    apply existsb_perm. rewrite <-(merge_sort_Permutation allowlist_le l1), Ha.
    apply merge_sort_Permutation. }
  destruct f as [f|].
  - assert (is_function_allowed e1 ns app f = is_function_allowed e2 ns app f) as ->
      by apply (Hp (λ a, matches_function a ns app f)).
    by rewrite Hl.
  - assert (is_namespace_allowed e1 ns = is_namespace_allowed e2 ns) as ->; [|done].
    apply (Hp (λ a, is_some_and (λ n, bool_decide (n = ns)) (fa_namespace a))).
Qed.

(** Every recorded answer for [w] is the answer of the check on any executor of
    that class that is not tombstoned. *)
Definition cache_sound (w : Workload) (cache : FeasibilityCache) : Prop :=
  ∀ class b, cache_get cache (wl_key w) class = Some b →
    ∀ e, class_from_executor e = class → em_tombstoned e = false → matches w e = b.

Lemma cache_get_insert cache w class b w' class' :
  cache_get (cache_insert cache w class b) w' class' =
    if decide (w = w' ∧ class = class') then Some b else cache_get cache w' class'.
Proof.
  unfold cache_get, cache_insert. rewrite lookup_insert. destruct (decide (w = w')) as [<-|Hw]; simpl.
  - rewrite lookup_insert. destruct (decide (class = class')) as [<-|Hc].
    + by rewrite decide_True.
    + rewrite decide_False by naive_solver. by destruct (cache !! w).
  - by rewrite decide_False by naive_solver.
Qed.

Lemma feasible_cached_sound w cache class e :
  cache_sound w cache → class_from_executor e = class → em_tombstoned e = false →
  cache_sound w (feasible_cached w cache class e).1 ∧ (feasible_cached w cache class e).2 = matches w e.
Proof.
  intros Hs Hc Ht. unfold feasible_cached. destruct (cache_get cache (wl_key w) class) as [b|] eqn:E; simpl.
  - split; [done|]. symmetry. by eapply Hs.
  - split; [|done]. intros class' b. rewrite cache_get_insert. case_decide as Hd; [|by apply Hs].
    destruct Hd as [_ <-]. intros [= <-] e' He' Ht'. apply same_class_matches; congruence.
Qed.

Lemma executor_class_default s id e :
  classes_wf s → cs_executors s !! id = Some e → em_tombstoned e = false →
  default (class_from_executor e) (cs_executor_classes s !! id) = class_from_executor e.
Proof. intros (_ & _ & _ & Hc) He Ht. by rewrite (Hc id e He Ht). Qed.

(** The executors a workload can use right now. *)
Definition suitable (s : ContainerScheduler) (w : Workload) (res : FunctionResources) (mem : Z) (id : ExecutorId)
    : Prop :=
  (mem, id) ∈ cs_executors_by_free_memory s ∧
  (∃ e, cs_executors s !! id = Some e ∧ em_tombstoned e = false ∧ matches w e = true) ∧
  (∃ st, cs_executor_states s !! id = Some st ∧ mem = host_memory_bytes (esm_free_resources st) ∧
     is_ok (can_handle_function_resources (esm_free_resources st) res) = true).
Definition eligible_ok (s : ContainerScheduler) (w : Workload) (eligible : gset ExecutorClass) : Prop :=
  ∀ c, c ∈ eligible → ∃ id e, cs_executors s !! id = Some e ∧ em_tombstoned e = false ∧
    class_from_executor e = c ∧ matches w e = true.

Lemma fits_of_can_handle_gpu_configs h base gpus : ∀ r,
  base = base <| cres_gpu := None |> →
  can_handle_gpu_configs h base r gpus = Ok tt → r = Ok tt ∨ fits h base.
Proof.
  induction gpus as [|g gpus IH]; intros r Hb; simpl; [by left|].
  destruct (can_handle_fe_resources h _) as [[]|e] eqn:E.
  - intros _. right. apply can_handle_fe_resources_fits in E. destruct E as (? & ? & ? & ?).
    rewrite Hb. by split_and!.
  - intros H. apply IH in H as [?|?]; [done|by right|done].
Qed.

(** The separate memory, CPU and disk comparisons of the loop are implied by the
    full check. *)
Lemma candidate_has_resources_spec s mem id res st :
  cs_executor_states s !! id = Some st → mem = host_memory_bytes (esm_free_resources st) →
  candidate_has_resources s mem id res = is_ok (can_handle_function_resources (esm_free_resources st) res).
Proof.
  intros Est ->. unfold candidate_has_resources. rewrite Est.
  destruct (is_ok _) eqn:E; [|by repeat case_bool_decide].
  assert (Hf : fits (esm_free_resources st) (fe_resources_no_gpu res)).
  { unfold is_ok in E. destruct (can_handle_function_resources _ res) as [[]|] eqn:E'; [|done].
    apply fits_of_can_handle_gpu_configs in E' as [Hr|?]; [|done|done].
    by apply can_handle_fe_resources_fits. }
  destruct Hf as (H1 & H2 & H3 & _). simpl in *.
  rewrite !bool_decide_eq_false_2 by lia. done.
Qed.

Section loop.
Context (s : ContainerScheduler) (w : Workload) (res : FunctionResources) (limit : Z).
Hypothesis (Hclass : classes_wf s) (Hmem : memory_index_wf s).

Lemma select_loop_sound todo : ∀ cache eligible cands cache' eligible' cands',
  select_loop s w res limit todo cache eligible cands = (cache', eligible', cands') →
  (∀ p, p ∈ todo → p ∈ cs_executors_by_free_memory s) →
  cache_sound w cache → eligible_ok s w eligible →
  (∀ id mem, (id, mem) ∈ cands → suitable s w res mem id) →
  cache_sound w cache' ∧ eligible_ok s w eligible' ∧
  (∀ id mem, (id, mem) ∈ cands' → suitable s w res mem id).
Proof using Hclass Hmem.
  induction todo as [|[mem id] todo IH]; intros cache eligible cands cache' eligible' cands'; simpl.
  { intros [= <- <- <-]; done. }
  intros Heq Htodo Hs He Hc.
  assert (Htodo' : ∀ p, p ∈ todo → p ∈ cs_executors_by_free_memory s) by set_solver.
  destruct (cs_executors s !! id) as [e|] eqn:Ee; [|by eapply IH].
  destruct (em_tombstoned e) eqn:Et; [by eapply IH|].
  rewrite (executor_class_default s id e) in Heq by done.
  destruct (feasible_cached_sound w cache _ e Hs eq_refl Et) as [Hs' Hfe].
  destruct (feasible_cached w cache (class_from_executor e) e) as [cache1 feasible]. simpl in Hs', Hfe.
  destruct feasible; simpl in Heq; [|by eapply IH].
  assert (He' : eligible_ok s w ({[class_from_executor e]} ∪ eligible)).
  { intros c. rewrite elem_of_union, elem_of_singleton. intros [->|?]; [by eauto 7|by apply He]. }
  destruct (candidate_has_resources s mem id res) eqn:Er; [|by eapply IH].
  assert (Hin : (mem, id) ∈ cs_executors_by_free_memory s) by (apply Htodo; set_solver).
  destruct (Hmem _ _ Hin) as (st & Est & Emem).
  rewrite (candidate_has_resources_spec s mem id res st) in Er by done.
  assert (Hc' : ∀ i m, (i, m) ∈ cands ++ [(id, mem)] → suitable s w res m i).
  { intros i m. rewrite elem_of_app, list_elem_of_singleton. intros [?|[= -> ->]]; [by apply Hc|].
    split; [done|]. eauto 8. }
  destruct (bool_decide _); [by simplify_eq|]. by eapply IH.
Qed.

(** The loop never loses a candidate, and keeps every suitable one it reaches
    unless it stops because it has enough. *)
Lemma select_loop_complete todo : ∀ cache eligible cands cache' eligible' cands' id mem,
  select_loop s w res limit todo cache eligible cands = (cache', eligible', cands') →
  cache_sound w cache → 1 ≤ limit →
  cands ≠ [] ∨ ((mem, id) ∈ todo ∧ suitable s w res mem id) → cands' ≠ [].
Proof using Hclass.
  induction todo as [|[mem0 id0] todo IH]; intros cache eligible cands cache' eligible' cands' id mem; simpl.
  { intros [= <- <- <-] _ _ [?|[?%elem_of_nil _]]; done. }
  intros Heq Hs Hl Hor.
  assert (Hor' : (cands ≠ [] ∨ ((mem, id) ∈ todo ∧ suitable s w res mem id)) ∨
                 (mem0 = mem ∧ id0 = id ∧ suitable s w res mem id)).
  { destruct Hor as [?|[[?|?]%elem_of_cons ?]]; naive_solver. }
  clear Hor.
  assert (Hfound : ∀ e, cs_executors s !! id0 = Some e → mem0 = mem ∧ id0 = id ∧ suitable s w res mem id →
    em_tombstoned e = false ∧ matches w e = true ∧ candidate_has_resources s mem0 id0 res = true).
  { intros e He (-> & -> & _ & (e' & He' & Ht & Hm) & (st & Est & Emem & Hok)). simplify_eq.
    split_and!; [done..|]. by rewrite (candidate_has_resources_spec s _ id res st). }
  destruct (cs_executors s !! id0) as [e|] eqn:Ee.
  2:{ destruct Hor' as [Hor|(-> & -> & _ & (e' & He' & _) & _)]; [|congruence]. by eapply IH. }
  specialize (Hfound e eq_refl).
  destruct (em_tombstoned e) eqn:Et.
  { destruct Hor' as [Hor|(? & _)%Hfound]; [|done]. by eapply IH. }
  rewrite (executor_class_default s id0 e) in Heq by done.
  destruct (feasible_cached_sound w cache _ e Hs eq_refl Et) as [Hs' Hfe].
  destruct (feasible_cached w cache (class_from_executor e) e) as [cache1 feasible]. simpl in Hs', Hfe.
  destruct feasible; simpl in Heq.
  2:{ destruct Hor' as [Hor|(_ & ? & _)%Hfound]; [|congruence]. by eapply IH. }
  destruct (candidate_has_resources s mem0 id0 res) eqn:Er.
  2:{ destruct Hor' as [Hor|(_ & _ & ?)%Hfound]; [|congruence]. by eapply IH. }
  assert (Hne : cands ++ [(id0, mem0)] ≠ []) by (by destruct cands).
  destruct (bool_decide _); [by simplify_eq|]. eapply (IH _ _ _ _ _ _ id mem); [done..|]. by left.
Qed.
End loop.

(** [max_by_key] picks an element, and none has a larger key. *)
Lemma max_by_memory_spec l :
  match max_by_memory l with
  | None => l = []
  | Some b => b ∈ l ∧ ∀ c, c ∈ l → c.2 ≤ b.2
  end.
Proof.
  unfold max_by_memory. apply (foldl_ind_prefix (λ pre best,
    match best with None => pre = [] | Some b => b ∈ pre ∧ ∀ c, c ∈ pre → c.2 ≤ b.2 end)); [done|].
  intros pre c [b|] _; [|intros ->; simpl; split; [set_solver|]; intros c'; by rewrite list_elem_of_singleton; intros ->].
  intros [Hb Hmax]. case_bool_decide; (split; [set_solver|]); intros c';
    rewrite elem_of_app, list_elem_of_singleton; intros [?%Hmax| ->]; lia.
Qed.

(** The largest key of the index bounds every entry. *)
Lemma max_free_memory_bound s mem id :
  (mem, id) ∈ cs_executors_by_free_memory s → mem ≤ max_free_memory s.
Proof.
  intros Hin. apply elem_of_sorted_elements in Hin. unfold max_free_memory.
  pose proof (StronglySorted_sorted_elements (cs_executors_by_free_memory s)) as Hs.
  induction Hs as [|p l Hs IH Hall]; [by apply elem_of_nil in Hin|].
  rewrite Forall_forall in Hall. destruct l as [|q l].
  { apply list_elem_of_singleton in Hin as <-. simpl. lia. }
  change (last (p :: q :: l)) with (last (q :: l)).
  apply elem_of_cons in Hin as [<-|Hin]; [|by apply IH].
  assert (Hq : q.1 ≤ default 0 (fst <$> last (q :: l))).
  { clear -Hs. revert q Hs. induction l as [|r l IH]; intros q Hs; simpl; [lia|].
    apply StronglySorted_inv in Hs as [Hs Hall]. rewrite Forall_forall in Hall.
    specialize (IH r Hs). destruct (Hall r ltac:(set_solver)) as [?|[? _]]; simpl in *; lia. }
  destruct (Hall q ltac:(set_solver)) as [?|[? _]]; simpl in *; lia.
Qed.

Lemma elem_of_wrapped_ranges x a b p :
  a ≤ b → p ∈ range_from x b ++ range_between x a b ↔ p ∈ x ∧ a ≤ p.1.
Proof.
  intros Hab. unfold range_from, range_between.
  rewrite elem_of_app, !list_elem_of_filter, !elem_of_sorted_elements.
  destruct (decide (b ≤ p.1)); naive_solver lia.
Qed.

(** ** What selection guarantees *)

Section theorems.
Context `{HO : HashOrder}.

Lemma eligible_step_sound s w cache eligible class ids :
  classes_wf s → cache_sound w cache → cs_executors_by_class s !! class = Some ids →
  ∃ id e, id ∈ ids ∧ cs_executors s !! id = Some e ∧ em_tombstoned e = false ∧
    class_from_executor e = class ∧
    cache_sound w (eligible_step s w (cache, eligible) (class, ids)).1 ∧
    (eligible_step s w (cache, eligible) (class, ids)).2 =
      if matches w e then {[class]} ∪ eligible else eligible.
Proof.
  intros (Hwf & Hinv & Hcls & _) Hs Hids. unfold eligible_step.
  destruct (head (set_iter ids)) as [id|] eqn:Eh.
  2:{ destruct (Hwf class ids Hids). apply set_eq. intros x. rewrite <-elem_of_set_iter.
      destruct (set_iter ids); [set_solver|done]. }
  apply head_Some_elem_of, elem_of_set_iter in Eh.
  destruct (Hcls id class) as (e & He & Hc & Ht).
  { apply Hinv. unfold idx_get. by rewrite Hids. }
  destruct (feasible_cached_sound w cache class e Hs Hc Ht) as [Hs' Hf].
  unfold feasible_cached in Hs', Hf. exists id, e. split_and!; [done..| |];
    destruct (cache_get cache (wl_key w) class); rewrite ?He; simpl in *; by rewrite ?Hf.
Qed.

Lemma compute_eligible_classes_sound s cache w :
  classes_wf s → cache_sound w cache →
  cache_sound w (compute_eligible_classes s cache w).1 ∧
  ∀ c, c ∈ (compute_eligible_classes s cache w).2 ↔
    ∃ id e, cs_executors s !! id = Some e ∧ em_tombstoned e = false ∧
      class_from_executor e = c ∧ matches w e = true.
Proof.
  intros Hcl Hs. pose proof Hcl as (_ & Hinv & _ & Htot).
  set (good c := ∃ id e, cs_executors s !! id = Some e ∧ em_tombstoned e = false ∧
      class_from_executor e = c ∧ matches w e = true).
  assert (Hfold : cache_sound w (compute_eligible_classes s cache w).1 ∧
    ∀ c, c ∈ (compute_eligible_classes s cache w).2 ↔ c ∈ (map_iter (cs_executors_by_class s)).*1 ∧ good c).
  { unfold compute_eligible_classes. apply (foldl_ind_prefix (λ pre acc,
      cache_sound w acc.1 ∧ ∀ c, c ∈ acc.2 ↔ c ∈ pre.*1 ∧ good c)); [split; [done|set_solver]|].
    intros pre [class ids] [cache1 el] [post Hl] [Hs1 Hel].
    assert (Hids : cs_executors_by_class s !! class = Some ids).
    { apply elem_of_map_iter. rewrite Hl. apply elem_of_app. right. left. }
    destruct (eligible_step_sound s w cache1 el class ids Hcl Hs1 Hids) as (id & e & _ & He & Ht & Hc & Hs2 & ->).
    split; [done|]. intros c. simpl in Hel. rewrite fmap_app, elem_of_app. simpl. rewrite list_elem_of_singleton.
    assert (Hgood : good class ↔ matches w e = true).
    { split; [|intros; by exists id, e]. intros (id' & e' & _ & Ht' & Hc' & Hm).
      rewrite <-Hm. apply same_class_matches; congruence. }
    destruct (matches w e); rewrite ?elem_of_union, ?elem_of_singleton, Hel; naive_solver. }
  destruct Hfold as [Hs' Hel]. split; [done|]. intros c. rewrite Hel. split; [naive_solver|].
  intros Hg. split; [|done]. destruct Hg as (id & e & He & Ht & <- & _).
  pose proof (Htot id e He Ht) as Hcls. apply Hinv in Hcls. unfold idx_get in Hcls.
  destruct (cs_executors_by_class s !! class_from_executor e) as [ids|] eqn:E; [|set_solver].
  apply list_elem_of_fmap. exists (class_from_executor e, ids). split; [done|]. by apply elem_of_map_iter.
Qed.

(** What a selection guarantees about its result. *)
Lemma select_executor_spec s cache w res limit random_mem cache' r :
  classes_wf s → memory_index_wf s → cache_sound w cache →
  mb_to_bytes (fres_memory_mb res) ≤ random_mem →
  select_executor s cache w res limit random_mem = (cache', r) →
  cache_sound w cache' ∧ eligible_ok s w (pr_eligible_classes r) ∧
  (∀ id, pr_executor_id r = Some id →
     ∃ e st, cs_executors s !! id = Some e ∧ em_tombstoned e = false ∧ matches w e = true ∧
       cs_executor_states s !! id = Some st ∧
       is_ok (can_handle_function_resources (esm_free_resources st) res) = true).
Proof.
  intros Hcl Hm Hs Hr. unfold select_executor. destruct (bool_decide _).
  - destruct (compute_eligible_classes_sound s cache w Hcl Hs) as [Hs' Hel].
    destruct (compute_eligible_classes s cache w) as [c1 el]. intros [= <- <-].
    split_and!; [done|intros c; by rewrite Hel|done].
  - destruct (select_loop _ _ _ _ _ _ _ _) as [[c1 el] cands] eqn:El. intros [= <- <-].
    destruct (select_loop_sound s w res limit Hcl Hm _ _ _ _ _ _ _ El) as (Hs' & Hel & Hc);
      [intros p; rewrite elem_of_wrapped_ranges by done; by intros [? _]|done|set_solver|set_solver|].
    split_and!; [done..|]. simpl. intros id.
    pose proof (max_by_memory_spec cands) as Hmax. destruct (max_by_memory cands) as [[i m]|]; [|done].
    intros [= <-]. destruct Hmax as [Hin _]. destruct (Hc _ _ Hin) as (_ & (e & ? & ? & ?) & (st & ? & _ & ?)).
    by exists e, st.
Qed.

(** C38: suppose the answers the feasibility cache holds under the key of the workload
    are right for this workload.  That is so for a fresh cache, and for one filled by
    workloads of the same key and the same constraints; the key of a function has no
    version, so it is not so when one pass places two versions of a function whose
    constraints differ ([feasibility_cache_ignores_version]).  Then the executor that
    [select_executor] returns is registered, not tombstoned, allowed to run the
    workload (allowlist and placement labels), and has the CPU, memory, disk and a GPU
    configuration it asks for; every class it reports as eligible is the class of an
    executor allowed to run it; and the answers in the cache it leaves behind are still
    right for the workload. *)
Theorem select_executor_sound s cache w res limit random_mem cache' r :
  classes_wf s → memory_index_wf s → cache_sound w cache →
  mb_to_bytes (fres_memory_mb res) ≤ random_mem →
  select_executor s cache w res limit random_mem = (cache', r) →
  cache_sound w cache' ∧ eligible_ok s w (pr_eligible_classes r) ∧
  (∀ id, pr_executor_id r = Some id →
     ∃ e st, cs_executors s !! id = Some e ∧ em_tombstoned e = false ∧ matches w e = true ∧
       cs_executor_states s !! id = Some st ∧
       is_ok (can_handle_function_resources (esm_free_resources st) res) = true).
Proof. apply select_executor_spec. Qed.

(** C39: selection does not miss capacity.  Suppose, as for soundness, that the answers
    the feasibility cache holds under the key of the workload are right for it, which
    fails when one pass places two versions of a function with different constraints
    ([feasibility_cache_ignores_version]).  When some indexed executor is allowed
    to run the workload and has the resources free, [select_executor] returns an
    executor, whatever threshold is drawn in the range the code uses and however
    small the candidate limit, as long as it is at least one. *)
Theorem select_executor_complete s cache w res limit random_mem mem id :
  classes_wf s → cache_sound w cache → 1 ≤ limit →
  mb_to_bytes (fres_memory_mb res) ≤ random_mem ≤ max_free_memory s →
  suitable s w res mem id →
  is_Some (pr_executor_id (select_executor s cache w res limit random_mem).2).
Proof.
  intros Hcl Hs Hl Hr Hsuit. unfold select_executor. rewrite bool_decide_eq_false_2 by lia.
  destruct (select_loop _ _ _ _ _ _ _ _) as [[c1 el] cands] eqn:El. simpl.
  assert (Hne : cands ≠ []).
  { eapply (select_loop_complete s w res limit Hcl _ _ _ _ _ _ _ id mem El); [done..|]. right. split; [|done].
    apply elem_of_wrapped_ranges; [lia|]. destruct Hsuit as (Hin & _ & (st & Est & -> & Hok)). split; [done|].
    simpl. destruct (is_ok _) eqn:E in Hok; [|done].
    pose proof (candidate_has_resources_spec s _ id res st Est eq_refl) as Hc. rewrite E in Hc.
    unfold candidate_has_resources in Hc. case_bool_decide; [done|lia]. }
  pose proof (max_by_memory_spec cands) as Hmax. destruct (max_by_memory cands); [by eexists|done].
Qed.

(** [compute_eligible_classes] reports a class exactly when some registered
    executor of that class may run the workload: asking one representative per
    class, or the cache, gives the same answer as asking every executor. *)
Theorem eligible_classes_exact s cache w c :
  classes_wf s → cache_sound w cache →
  c ∈ (compute_eligible_classes s cache w).2 ↔
    ∃ id e, cs_executors s !! id = Some e ∧ em_tombstoned e = false ∧
      class_from_executor e = c ∧ matches w e = true.
Proof. intros Hc Hs. by apply compute_eligible_classes_sound. Qed.
End theorems.

(** ** Concrete runs *)

Definition executor_ex (id : ExecutorId) (labels : gmap string string) : ExecutorMetadata :=
  MkExecutorMetadata id "0.3.0" None "addr" labels ∅ host_ex ES_Running false "" 0 None None None None.
Definition add_executor_ex (s : ContainerScheduler) (id : ExecutorId) (labels : gmap string string)
    (h : HostResources) : ContainerScheduler :=
  set_executor_state (upsert_executor s (executor_ex id labels)) id (MkExecutorServerMetadata id ∅ h ∅).
Definition zone (z : string) : gmap string string := {["zone" := z]}.
Definition one_executor_ex : ContainerScheduler := add_executor_ex empty_scheduler "e1" (zone "a") host_ex.
Definition res_ex : FunctionResources := MkFunctionResources 1000 1024 1024 [].
Definition wl_ex (f : Function_) : Workload := MkWorkload (WK_Function "ns" "app" (fn_name f)) "ns" "app" (Some f).
Definition fn_in_zone (z : string) : Function_ := fn_ex "f" res_ex [MkExpression "zone" z OpEq].

Lemma add_executor_ex_wf s id labels h :
  classes_wf s → memory_index_wf s →
  classes_wf (add_executor_ex s id labels h) ∧ memory_index_wf (add_executor_ex s id labels h).
Proof.
  intros Hc Hm. unfold add_executor_ex.
  destruct (upsert_executor_classes s (executor_ex id labels)) as (_ & _ & _ & _ & Hv). split.
  - destruct (set_executor_state_fields (upsert_executor s (executor_ex id labels)) id
      (MkExecutorServerMetadata id ∅ h ∅)) as (_ & _ & E).
    eapply classes_wf_view; [by symmetry; apply E|]. by apply upsert_executor_classes_wf.
  - apply set_executor_state_memory_wf. by eapply memory_index_wf_view; [symmetry; apply Hv|].
Qed.
Lemma one_executor_ex_wf : classes_wf one_executor_ex ∧ memory_index_wf one_executor_ex.
Proof. apply add_executor_ex_wf; [apply empty_scheduler_classes_wf|apply empty_scheduler_memory_wf]. Qed.
Lemma cache_sound_empty w : cache_sound w ∅.
Proof. by intros class b. Qed.

Definition selection_ex := @select_executor canonical_order one_executor_ex ∅ (wl_ex (fn_in_zone "a")) res_ex 2 (2 ^ 31).
Lemma select_executor_sound_witness :
  pr_executor_id selection_ex.2 = Some "e1"%string ∧
  ∃ e st, cs_executors one_executor_ex !! "e1"%string = Some e ∧ em_tombstoned e = false ∧
    matches (wl_ex (fn_in_zone "a")) e = true ∧ cs_executor_states one_executor_ex !! "e1"%string = Some st ∧
    is_ok (can_handle_function_resources (esm_free_resources st) res_ex) = true.
Proof.
  assert (Hid : pr_executor_id selection_ex.2 = Some "e1"%string) by (vm_compute; reflexivity).
  split; [exact Hid|].
  destruct (@select_executor_sound canonical_order one_executor_ex ∅ (wl_ex (fn_in_zone "a")) res_ex 2 (2 ^ 31)
    selection_ex.1 selection_ex.2 (proj1 one_executor_ex_wf) (proj2 one_executor_ex_wf)
    (cache_sound_empty _) ltac:(vm_compute; discriminate) (surjective_pairing _)) as (_ & _ & H).
  exact (H "e1"%string Hid).
Defined.

Lemma suitable_ex :
  suitable one_executor_ex (wl_ex (fn_in_zone "a")) res_ex (host_memory_bytes host_ex) "e1".
Proof.
  split; [by apply elem_of_union_l, elem_of_singleton|]. split.
  - exists (executor_ex "e1" (zone "a")). split_and!; vm_compute; reflexivity.
  - exists (MkExecutorServerMetadata "e1" ∅ host_ex ∅). split_and!; vm_compute; reflexivity.
Qed.
Lemma select_executor_complete_witness : is_Some (pr_executor_id selection_ex.2).
Proof.
  apply (@select_executor_complete canonical_order one_executor_ex ∅ (wl_ex (fn_in_zone "a")) res_ex 2 (2 ^ 31)
    (host_memory_bytes host_ex) "e1" (proj1 one_executor_ex_wf) (cache_sound_empty _)).
  - lia.
  - split; vm_compute; discriminate.
  - exact suitable_ex.
Defined.

Lemma eligible_classes_exact_witness :
  class_from_executor (executor_ex "e1" (zone "a")) ∈
    (@compute_eligible_classes canonical_order one_executor_ex ∅ (wl_ex (fn_in_zone "a"))).2.
Proof.
  apply (@eligible_classes_exact canonical_order one_executor_ex ∅ (wl_ex (fn_in_zone "a")) _
    (proj1 one_executor_ex_wf) (cache_sound_empty _)).
  exists "e1"%string, (executor_ex "e1" (zone "a")). split_and!; vm_compute; reflexivity.
Defined.

(** The workload key of a function has no version, so within one pass the
    answer cached for one version is used for another: after placing the version
    of [f] that requires zone a, the version that requires zone b is given an
    executor in zone a, which its constraints rule out. *)
Theorem feasibility_cache_ignores_version :
  let e := executor_ex "e1" (zone "a") in
  let old := wl_ex (fn_in_zone "a") in
  let new := wl_ex (fn_in_zone "b") in
  matches new e = false ∧
  pr_executor_id (@select_executor canonical_order one_executor_ex ∅ new res_ex 2 (2 ^ 31)).2 = None ∧
  let cache := (@select_executor canonical_order one_executor_ex ∅ old res_ex 2 (2 ^ 31)).1 in
  pr_executor_id (@select_executor canonical_order one_executor_ex cache new res_ex 2 (2 ^ 31)).2 = Some "e1"%string.
Proof. split_and!; vm_compute; reflexivity. Qed.

(** Two executors the workload may use: [e1] has memory but no CPU left for it,
    [e2] has CPU but too little memory. *)
Definition two_executors_ex : ContainerScheduler :=
  add_executor_ex (add_executor_ex empty_scheduler "e1" (zone "a") (MkHostResources 500 (8 * 1073741824) (100 * 1073741824) None))
    "e2" (zone "b") (MkHostResources 4000 1048576 (100 * 1073741824) None).

(** A failed selection reports only the classes of executors that already
    have the memory: an executor that may run the workload but is short of memory
    is left out as soon as another executor has enough, so the work recorded with
    these classes is not woken when that executor frees memory. *)
Theorem failed_selection_omits_full_class :
  let w := wl_ex (fn_ex "f" res_ex []) in
  let class := class_from_executor (executor_ex "e2" (zone "b")) in
  let r := (@select_executor canonical_order two_executors_ex ∅ w res_ex 2 (2 ^ 31)).2 in
  matches w (executor_ex "e2" (zone "b")) = true ∧
  pr_executor_id r = None ∧ pr_eligible_classes r ≠ ∅ ∧ class ∉ pr_eligible_classes r ∧
  let t := @block_function_run canonical_order empty_tracker "run" (MkBlockingInfo (pr_eligible_classes r) false 1024) in
  uw_function_run_keys (@unblock_for_class canonical_order t class (2 ^ 40)).2 = [].
Proof.
  intros w class r.
  split; [vm_compute; reflexivity|]. split; [vm_compute; reflexivity|].
  split; [apply (bool_decide_eq_false_1 (pr_eligible_classes r = ∅)); vm_compute; reflexivity|].
  split; [apply (bool_decide_eq_false_1 (class ∈ pr_eligible_classes r)); vm_compute; reflexivity|].
  vm_compute. reflexivity.
Qed.
