(* ===== verification/ContainerScheduler.v ===== *)
(** * Operations of the container scheduler

    The state-changing operations of [processor/container_scheduler.rs] on the
    state of [SchedulerState]: creating containers, reaping and restoring idle
    ones, deleting applications and pools, merging scheduler updates, and the
    dispatch on write requests.

    The clock ([tokio::time::Instant::now()]), the fresh container id ([nanoid!])
    and the random placement threshold are arguments. *)
From S2P Require Import Prelude DataModel Resources Updates Blocked SchedulerState Placement.

(** The errors the operations return: the scheduler's own, and those of the
    state it calls. *)
Inductive SchedulerError :=
| ConstraintUnsatisfiable (reason version function_name : string)
| ExecutorStateNotFound (id : ExecutorId)
| ResourcesUnavailable (e : ResourceError).

(** ** Startup *)

(** [ContainerScheduler::new], given the pools read from the two column families. *)
Definition new_scheduler (fn_pools sb_pools : list ContainerPool) : ContainerScheduler :=
  let load ty := foldl (λ m p, let p := MkContainerPool (cp_id p) (cp_namespace p) ty (cp_image p)
      (cp_resources p) (cp_entrypoint p) (cp_network_policy p) (cp_secret_names p) (cp_timeout_secs p)
      (cp_min_containers p) (cp_max_containers p) (cp_buffer_containers p) (cp_created_at p)
      (cp_tombstoned p) (cp_created_at_clock p) (cp_updated_at_clock p)
      (cp_allow_unauthenticated_access p) (cp_exposed_ports p) in
      <[pool_key_of_pool p := p]> m) ∅ in
  empty_scheduler <| cs_function_pools := load CPT_Function fn_pools |>
                  <| cs_sandbox_pools := load CPT_Sandbox sb_pools |>.

(** ** Creating containers *)

(** [register_container].  When [add_container] fails, the [?] returns after the
    index entry was removed and the claim recorded. *)
Definition register_container (s : ContainerScheduler) (id : ExecutorId) (c : Container)
    (ty : ContainerType) (now : Instant) : ContainerScheduler * result SchedulerError SchedulerUpdateRequest :=
  match cs_executor_states s !! id with
  | None => (s, Err (ExecutorStateNotFound id))
  | Some st =>
      match add_container st c with
      | (st', Err e) =>
          (remove_resource_index s id (esm_free_resources st) <| cs_executor_states ::= <[id := st']> |>,
           Err (ResourcesUnavailable e))
      | (st', Ok _) =>
          let m := MkContainerServerMetadata id c CS_Running ty ∅ (Some now) in
          (insert_resource_index
             (remove_resource_index s id (esm_free_resources st) <| cs_executor_states ::= <[id := st']> |>)
             id (esm_free_resources st'),
           Ok (empty_update <| su_updated_executor_states := {[id := st']} |>
                            <| su_containers := {[ctr_id c := m]} |>))
      end
  end.

(** [fe_can_be_removed]. *)
Definition fe_can_be_removed (m : ContainerServerMetadata) : bool := can_be_removed m.

(** [x.gpu.clone().map(|g| vec![g]).unwrap_or_default()]. *)
Definition function_resources_of (r : ContainerResources) : FunctionResources :=
  MkFunctionResources (cres_cpu_ms_per_sec r) (cres_memory_mb r) (cres_ephemeral_disk_mb r)
    (match cres_gpu r with Some g => [g] | None => [] end).

Section create.
Context `{HO : HashOrder}.

(** The outcome of a creation: the state, the cache and the [Result]. *)
Notation created :=
  (ContainerScheduler * FeasibilityCache * result SchedulerError (option SchedulerUpdateRequest))%type.

(** [create_container]. *)
Definition create_container (s : ContainerScheduler) (namespace application : string)
    (f : option Function_) (resources : FunctionResources) (c : Container) (ty : ContainerType)
    (cache : FeasibilityCache) (random_mem : Z) (now : Instant) : created :=
  let workload_key :=
    match f with
    | Some f => WK_Function namespace application (fn_name f)
    | None => WK_Sandbox namespace
    end in
  let '(cache', placement) :=
    select_executor s cache (MkWorkload workload_key namespace application f) resources 2 random_mem in
  let s1 := s <| cs_last_placement := Some placement |> in
  match pr_executor_id placement with
  | None => (s1, cache', Ok None)
  | Some id =>
      match cs_executor_states s1 !! id with
      | None => (s1, cache', Ok None)
      | Some _ =>
          match register_container s1 id c ty now with
          | (s2, Ok u) => (s2, cache', Ok (Some u))
          | (s2, Err e) => (s2, cache', Err e)
          end
      end
  end.

(** [restore_reaped_container]. *)
Definition restore_reaped_container (s : ContainerScheduler) (uri : FunctionURI) (now : Instant)
    : ContainerScheduler * option SchedulerUpdateRequest :=
  match cs_reaped_containers s !! uri with
  | None => (s, None)
  | Some reaped =>
      match last reaped with
      | None => (s, None)
      | Some cid =>
          let rest := removelast reaped in
          let s1 := s <| cs_reaped_containers ::=
                           if bool_decide (rest = []) then delete uri else <[uri := rest]> |> in
          match cs_function_containers s1 !! cid with
          | None => (s1, None)
          | Some fc =>
              let id := csm_executor_id fc in
              match cs_executor_states s1 !! id with
              | None => (s1, None)
              | Some st =>
                  match add_container st (csm_function_container fc) with
                  | (st', Err _) =>
                      (s1 <| cs_executors_by_free_memory ::= λ x,
                              {[(host_memory_bytes (esm_free_resources st), id)]} ∪
                                (x ∖ {[(host_memory_bytes (esm_free_resources st), id)]}) |>
                          <| cs_executor_states ::= <[id := st']> |>, None)
                  | (st', Ok _) =>
                      let s2 := insert_resource_index
                        (remove_resource_index s1 id (esm_free_resources st)
                           <| cs_executor_states ::= <[id := st']> |>) id (esm_free_resources st') in
                      let fc' := fc <| csm_desired_state := CS_Running |> <| csm_idle_since := Some now |> in
                      let s3 := update_container_indices
                        (s2 <| cs_function_containers ::= <[cid := fc']> |>) cid fc' in
                      (s3, Some (empty_update <| su_containers := {[cid := fc']} |>
                                              <| su_updated_executor_states := {[id := st']} |>))
                  end
              end
          end
      end
  end.

(** [create_container_for_function]. *)
Definition create_container_for_function (s : ContainerScheduler) (namespace application version : string)
    (f : Function_) (app_state : ApplicationState) (cache : FeasibilityCache)
    (fresh : ContainerId) (random_mem : Z) (now : Instant) : created :=
  match app_state with
  | AppDisabled reason => (s, cache, Err (ConstraintUnsatisfiable reason version (fn_name f)))
  | AppActive =>
      match restore_reaped_container s (MkFunctionURI namespace application (fn_name f) version) now with
      | (s1, Some u) => (s1, cache, Ok (Some u))
      | (s1, None) =>
          let r := fn_resources f in
          let cres := MkContainerResources (fres_cpu_ms_per_sec r) (fres_memory_mb r)
                        (fres_ephemeral_disk_mb r) (head (fres_gpu_configs r)) in
          let c := MkContainer fresh namespace application (fn_name f) version CS_Pending cres
                     (fn_max_concurrency f) CT_Function None (default [] (fn_secret_names f))
                     (fn_timeout f / 1000) [] None None
                     (Some (for_function application (fn_name f) version)) None None None in
          create_container s1 namespace application (Some f) r c CT_Function cache random_mem now
      end
  end.

(** [create_container_for_sandbox]. *)
Definition create_container_for_sandbox (s : ContainerScheduler) (sb : Sandbox)
    (snapshot_uri : option string) (cache : FeasibilityCache) (random_mem : Z) (now : Instant) : created :=
  let c := MkContainer (sb_id sb) (sb_namespace sb) "" (sb_id sb) "" CS_Pending (sb_resources sb) 1
             CT_Sandbox (Some (sb_image sb)) (sb_secret_names sb) (sb_timeout_secs sb)
             (default [] (sb_entrypoint sb)) (sb_network_policy sb) (Some (sb_id sb)) (sb_pool_id sb)
             snapshot_uri None None in
  create_container s (sb_namespace sb) "" None (function_resources_of (sb_resources sb)) c CT_Sandbox
    cache random_mem now.

(** [create_container_for_pool]. *)
Definition create_container_for_pool (s : ContainerScheduler) (p : ContainerPool)
    (cache : FeasibilityCache) (fresh : ContainerId) (random_mem : Z) (now : Instant) : created :=
  let c := MkContainer fresh (cp_namespace p) "" ("pool:" +:+ cp_id p) "" CS_Pending (cp_resources p) 1
             CT_Sandbox (Some (cp_image p)) (cp_secret_names p) (cp_timeout_secs p)
             (default [] (cp_entrypoint p)) (cp_network_policy p) None (Some (cp_id p)) None None None in
  create_container s (cp_namespace p) "" None (function_resources_of (cp_resources p)) c CT_Sandbox
    cache random_mem now.
End create.

(** ** Reaping idle containers *)

(** The containers a pool keeps: [min.max(buffer)]. *)
Definition pool_floor (s : ContainerScheduler) (key : ContainerPoolKey) : Z :=
  match get_pool s key with
  | Some p => Z.max (default 0 (cp_min_containers p)) (default 0 (cp_buffer_containers p))
  | None => 0
  end.

(** Whether the loop of [reap_idle_containers] takes the container. *)
Definition reapable (s : ContainerScheduler) (fc : ContainerServerMetadata) : bool :=
  if is_terminated (csm_desired_state fc) then false
  else if negb (fe_can_be_removed fc) then false
  else match pool_key_of fc with
       | Some pk => negb (bool_decide (pool_container_count s pk ≤ pool_floor s pk))
       | None => true
       end.

(** Terminate one container, free its resources and remember it. *)
Definition reap_one (s : ContainerScheduler) (cid : ContainerId) (fc : ContainerServerMetadata)
    : ContainerScheduler * option SchedulerUpdateRequest :=
  let id := csm_executor_id fc in
  let '(s1, u) := terminate_container s cid in
  let s2 := match cs_executor_states s1 !! id with
            | Some st =>
                let '(st', _) := remove_container st (csm_function_container fc) in
                insert_resource_index
                  (remove_resource_index s1 id (esm_free_resources st)
                     <| cs_executor_states ::= <[id := st']> |>) id (esm_free_resources st')
            | None => s1
            end in
  (s2 <| cs_reaped_containers ::= λ m, <[uri_of fc := default [] (m !! uri_of fc) ++ [cid]]> m |>, u).

(** The loop of [reap_idle_containers] over the idle set, oldest first. *)
Fixpoint reap_loop (now min_idle_age : Z) (todo : list (Instant * ContainerId))
    (s : ContainerScheduler) (u : SchedulerUpdateRequest) (affected : gset ExecutorId)
    : ContainerScheduler * SchedulerUpdateRequest * gset ExecutorId :=
  match todo with
  | [] => (s, u, affected)
  | (idle_since, cid) :: todo =>
      if bool_decide (saturating_sub now idle_since < min_idle_age) then (s, u, affected)
      else match cs_function_containers s !! cid with
           | None => reap_loop now min_idle_age todo s u affected
           | Some fc =>
               if reapable s fc then
                 let '(s', tu) := reap_one s cid fc in
                 let u' := match tu with Some tu => extend u tu | None => u end in
                 reap_loop now min_idle_age todo s' u' ({[csm_executor_id fc]} ∪ affected)
               else reap_loop now min_idle_age todo s u affected
           end
  end.

Section operations.
Context `{HO : HashOrder}.

(** [reap_idle_containers]. *)
Definition reap_idle_containers (s : ContainerScheduler) (min_idle_age now : Z)
    : ContainerScheduler * SchedulerUpdateRequest :=
  let '(s', u, affected) :=
    reap_loop now min_idle_age (sorted_elements (cs_idle_containers s))
      (s <| cs_reaped_containers := ∅ |>) empty_update ∅ in
  (s', u <| su_updated_executor_states ::= λ m,
         foldl (λ m id, match cs_executor_states s' !! id with
                        | Some st => <[id := st]> m | None => m end) m (set_iter affected) |>).
End operations.

(** ** The invariant of the scheduler *)

Section scheduler_invariant.
Context `{II : IdleIndex}.

(** A container remembered as reaped is terminated, and remembered once, under
    its own function. *)
Definition reaped_wf (s : ContainerScheduler) : Prop :=
  ∀ uri l, cs_reaped_containers s !! uri = Some l →
    NoDup l ∧ ∀ cid m, cid ∈ l → cs_function_containers s !! cid = Some m → live m = false ∧ uri_of m = uri.

Record scheduler_wf (s : ContainerScheduler) : Prop := {
  wf_indices : indices_wf s;
  wf_classes : classes_wf s;
  wf_memory : memory_index_wf s;
  wf_reaped : reaped_wf s;
}.

(** Everything the invariant reads. *)
Definition wf_view (s : ContainerScheduler) :=
  (index_view s, class_view s, memory_view s, cs_reaped_containers s).
Lemma scheduler_wf_view s s' : wf_view s = wf_view s' → scheduler_wf s → scheduler_wf s'.
Proof.
  unfold wf_view. intros [= E1 E2 E3 E4 E5 E6 E7 E8 E9 E10 E11] [Hi Hc Hm Hr].
  split; [eapply indices_wf_view; [|done]|eapply classes_wf_view; [|done]|
          eapply memory_index_wf_view; [|done]|].
  - unfold index_view. congruence.
  - unfold class_view. congruence.
  - unfold memory_view. congruence.
  - unfold reaped_wf in *. by rewrite <-E11, <-E1.
Qed.

(** The inlined index maintenance of the operations is [set_executor_state]. *)
Lemma inline_set_executor_state s id st st' :
  cs_executor_states s !! id = Some st →
  insert_resource_index
    (remove_resource_index s id (esm_free_resources st) <| cs_executor_states ::= <[id := st']> |>)
    id (esm_free_resources st') = set_executor_state s id st'.
Proof.
  intros E. unfold set_executor_state. rewrite E. unfold insert_resource_index.
  by destruct (indexable (esm_free_resources st')).
Qed.

Lemma set_executor_state_reaped s id st :
  cs_reaped_containers (set_executor_state s id st) = cs_reaped_containers s.
Proof.
  unfold set_executor_state, insert_resource_index.
  by destruct (cs_executor_states s !! id), (indexable (esm_free_resources st)).
Qed.
Lemma set_executor_state_table s id st :
  cs_function_containers (set_executor_state s id st) = cs_function_containers s.
Proof. exact (f_equal (λ v, v.1.1.1.1) (set_executor_state_view s id st)). Qed.

Lemma set_executor_state_wf s id st : scheduler_wf s → scheduler_wf (set_executor_state s id st).
Proof.
  intros [Hi Hc Hm Hr]. split.
  - by eapply indices_wf_view; [symmetry; apply set_executor_state_view|].
  - destruct (set_executor_state_fields s id st) as (_ & _ & E). by eapply classes_wf_view; [symmetry; apply E|].
  - by apply set_executor_state_memory_wf.
  - unfold reaped_wf. by rewrite set_executor_state_reaped, set_executor_state_table.
Qed.

Lemma add_container_err_free st c st' e :
  add_container st c = (st', Err e) → esm_free_resources st' = esm_free_resources st.
Proof.
  unfold add_container. simpl. destruct (esm_resource_claims st !! ctr_id c); [done|].
  unfold consume_fe_resources. destruct (can_handle_fe_resources _ _); by intros [= <- <-].
Qed.

(** A failed registration loses the executor's index entry, nothing else. *)
Lemma unindex_executor_wf s id st st' :
  cs_executor_states s !! id = Some st → scheduler_wf s →
  scheduler_wf (remove_resource_index s id (esm_free_resources st) <| cs_executor_states ::= <[id := st']> |>).
Proof.
  intros Est [Hi Hc Hm Hr]. split; [by apply (indices_wf_view s)|by apply (classes_wf_view s)| |done].
  intros mem i. rsimpl. rewrite elem_of_difference, elem_of_singleton. intros [Hin Hne].
  destruct (Hm _ _ Hin) as (st0 & E0 & ->). destruct (decide (i = id)) as [->|Hd].
  - simplify_eq.
  - rewrite lookup_insert_ne by done. eauto.
Qed.

Lemma register_container_wf s id c ty now :
  scheduler_wf s → scheduler_wf (register_container s id c ty now).1.
Proof.
  intros Hs. unfold register_container. destruct (cs_executor_states s !! id) as [st|] eqn:E; [|done].
  destruct (add_container st c) as [st' [r|e]]; simpl.
  - change (scheduler_wf (insert_resource_index
      (remove_resource_index s id (esm_free_resources st) <| cs_executor_states ::= <[id := st']> |>)
      id (esm_free_resources st'))).
    rewrite (inline_set_executor_state s id st st' E). by apply set_executor_state_wf.
  - by apply unindex_executor_wf.
Qed.

Section create_wf.
Context `{HO : HashOrder}.

Lemma create_container_wf s ns app f res c ty cache rnd now :
  scheduler_wf s → scheduler_wf (create_container s ns app f res c ty cache rnd now).1.1.
Proof.
  intros Hs. unfold create_container. destruct (select_executor _ _ _ _ _ _) as [cache' p].
  assert (Hs1 : scheduler_wf (s <| cs_last_placement := Some p |>)) by (by apply (scheduler_wf_view s)).
  destruct (pr_executor_id p) as [id|]; [|done].
  destruct (cs_executor_states (s <| cs_last_placement := Some p |>) !! id); [|done].
  pose proof (register_container_wf (s <| cs_last_placement := Some p |>) id c ty now Hs1) as Hr.
  by destruct (register_container _ _ _ _ _) as [s2 [u|err]].
Qed.

(** Bringing a terminated container back to life files it under its keys. *)
Lemma resurrect_wf s cid fc fc' :
  indices_wf s → cs_function_containers s !! cid = Some fc → live fc = false →
  uri_of fc' = uri_of fc → pool_key_of fc' = pool_key_of fc →
  indices_wf (update_container_indices (s <| cs_function_containers ::= <[cid := fc']> |>) cid fc').
Proof.
  intros Hs E Hd Ku Kp. set (s1 := s <| cs_function_containers ::= <[cid := fc']> |>).
  destruct (update_container_indices_fields s1 cid fc') as (F1 & F2 & F3 & F4 & _).
  pose proof (update_idle_members s1 cid fc') as F5.
  pose proof Hs as [(W1 & W2 & W3) Hok]. pose proof (same_except_update s1 cid fc') as Hse.
  apply (indices_wf_step cid s); [done| | |].
  - apply maps_wf_update. by split_and!.
  - intros c Hc. destruct (Hse c Hc) as (G & Hrest). split; [|exact Hrest]. rewrite G.
    unfold s1. rsimpl. by rewrite lookup_insert_ne.
  - destruct (Hok cid) as (Hu & Hp & Hw & Hi). rewrite E in *. simpl in *. rewrite Hd in *.
    unfold ok_at. rewrite F1, F2, F3, F4, lookup_insert_eq. clear F1 F2 F3 F4 Hse Hok Hs W1 W2 W3.
    unfold was_warm_at. unfold s1 in *. rsimpl. rewrite lookup_insert_eq in *. simpl in *.
    split_and!.
    + intros uri. specialize (Hu uri). clear -Hu. destruct (live fc'); autorewrite with idx; naive_solver.
    + intros pk. specialize (Hp pk). clear -Hp.
      destruct (pool_key_of fc'), (live fc'); autorewrite with idx; naive_solver.
    + intros pk. specialize (Hw pk). clear -Hw.
      destruct (pool_key_of fc'), (live fc'), (warm fc'); simpl; autorewrite with idx; naive_solver.
    + intros t. apply (tracks_step _ _ _ _ (Hi t)); rewrite F5; naive_solver.
Qed.
End create_wf.

(** ** Frames of the container operations *)

Definition frame_view (s : ContainerScheduler) :=
  (class_view s, memory_view s, cs_reaped_containers s, cs_function_pools s, cs_sandbox_pools s).
Lemma drop_idle_frame s cid o : frame_view (drop_idle s cid o) = frame_view s.
Proof. by rewrite drop_idle_eq. Qed.
Lemma update_container_indices_frame s cid meta :
  frame_view (update_container_indices s cid meta) = frame_view s.
Proof.
  unfold update_container_indices. fold (was_warm_at s cid). rewrite drop_idle_eq.
  destruct (live meta && _), (csm_idle_since meta), (is_terminated _), (pool_key_of meta), (was_warm_at s cid), (warm meta);
    exact eq_refl.
Qed.
Lemma remove_container_from_indices_frame s cid :
  frame_view (remove_container_from_indices s cid) = frame_view s.
Proof.
  unfold remove_container_from_indices. destruct (cs_function_containers s !! cid) as [fc|]; [|done].
  rewrite drop_idle_eq. by destruct (pool_key_of fc).
Qed.
Lemma terminate_container_frame s cid : frame_view (terminate_container s cid).1 = frame_view s.
Proof.
  unfold terminate_container. destruct (cs_function_containers s !! cid) as [fc|]; [|done].
  rewrite drop_idle_eq. by destruct (pool_key_of fc).
Qed.
Lemma claim_pool_container_frame `{HashOrder} s key sb secs :
  frame_view (claim_pool_container s key sb secs).1 = frame_view s.
Proof. unfold claim_pool_container. by repeat case_match. Qed.

(** An operation on one container that leaves the frame alone. *)
Lemma container_step_wf s s' cid :
  scheduler_wf s → frame_view s' = frame_view s → indices_wf s' →
  (∀ c, c ≠ cid → cs_function_containers s' !! c = cs_function_containers s !! c) →
  (∀ uri l m, cs_reaped_containers s !! uri = Some l → cid ∈ l →
     cs_function_containers s' !! cid = Some m → live m = false ∧ uri_of m = uri) →
  scheduler_wf s'.
Proof.
  unfold frame_view, class_view, memory_view.
  intros [Hi Hc Hm Hr] [= E1 E2 E3 E4 E5 E6 E7 E8] Hi' Hother Hcid.
  split; [done|apply (classes_wf_view s); [unfold class_view; congruence|done]|
          apply (memory_index_wf_view s); [unfold memory_view; congruence|done]|].
  intros uri l. rewrite E6. intros Hl. destruct (Hr uri l Hl) as [Hnd Hin]. split; [done|].
  intros c m Hcl. destruct (decide (c = cid)) as [->|Hne]; [by eapply Hcid|].
  rewrite Hother by done. by apply Hin.
Qed.

(** What an update of a container may say about a remembered one. *)
Definition respects_reaped (s : ContainerScheduler) (cid : ContainerId) (meta : ContainerServerMetadata) : Prop :=
  ∀ uri l, cs_reaped_containers s !! uri = Some l → cid ∈ l → live meta = false ∧ uri_of meta = uri.

Lemma update_container_indices_sched_wf s cid meta :
  scheduler_wf s → compatible s cid meta → respects_reaped s cid meta →
  scheduler_wf (update_container_indices s cid meta).
Proof.
  intros Hs Hc Hr. destruct (update_container_indices_fields s cid meta) as (F1 & _).
  apply (container_step_wf s _ cid Hs).
  - apply update_container_indices_frame.
  - by apply update_container_indices_wf; [apply wf_indices|].
  - intros c Hne. by rewrite F1, lookup_insert_ne.
  - intros uri l m Hl Hin. rewrite F1, lookup_insert_eq. intros [= <-]. by eapply Hr.
Qed.

Lemma remove_container_from_indices_sched_wf s cid :
  scheduler_wf s → scheduler_wf (remove_container_from_indices s cid).
Proof.
  intros Hs. destruct (cs_function_containers s !! cid) as [fc|] eqn:E;
    [|by unfold remove_container_from_indices; rewrite E].
  destruct (remove_container_from_indices_fields s cid fc E) as (F1 & _).
  apply (container_step_wf s _ cid Hs).
  - apply remove_container_from_indices_frame.
  - by apply remove_container_from_indices_wf, wf_indices.
  - intros c Hne. by rewrite F1, lookup_delete_ne.
  - intros uri l m _ _. by rewrite F1, lookup_delete_eq.
Qed.

Lemma terminate_container_sched_wf s cid : scheduler_wf s → scheduler_wf (terminate_container s cid).1.
Proof.
  intros Hs. destruct (cs_function_containers s !! cid) as [fc|] eqn:E;
    [|by unfold terminate_container; rewrite E].
  destruct (terminate_container_fields s cid fc E) as (F1 & _).
  apply (container_step_wf s _ cid Hs).
  - apply terminate_container_frame.
  - by apply terminate_container_wf, wf_indices.
  - intros c Hne. by rewrite F1, lookup_insert_ne.
  - intros uri l m Hl Hin. rewrite F1, lookup_insert_eq. intros [= <-]. split; [done|].
    by destruct (wf_reaped s Hs uri l Hl) as [_ [_ Hu]%(λ H, H cid fc Hin E)].
Qed.

Lemma claim_pool_container_sched_wf `{HashOrder} s key sb secs :
  scheduler_wf s → scheduler_wf (claim_pool_container s key sb secs).1.
Proof.
  intros Hs. pose proof (claim_pool_container_frame s key sb secs) as Hf.
  pose proof (claim_pool_container_wf s key sb secs (wf_indices s Hs)) as Hi.
  destruct (claim_pool_container s key sb secs) as [s' [[[cid eid] u]|]] eqn:Eq; simpl in *.
  - destruct (claim_pool_container_spec _ _ _ _ _ _ _ _ (wf_indices s Hs) Eq)
      as (m & Em & Hl & _ & _ & _ & F1 & _).
    apply (container_step_wf s s' cid Hs Hf Hi).
    + intros c Hne. by rewrite F1, lookup_insert_ne.
    + intros uri l m' Hul Hin _. destruct (wf_reaped s Hs uri l Hul) as [_ H'].
      destruct (H' cid m Hin Em). congruence.
  - unfold claim_pool_container in Eq. by repeat break_match_in Eq; simplify_eq.
Qed.

(** ** Reaping and restoring keep the invariant *)

Lemma terminate_container_table s cid fc :
  cs_function_containers s !! cid = Some fc →
  cs_function_containers (terminate_container s cid).1 =
    <[cid := fc <| csm_desired_state := CS_Terminated CTR_DesiredStateRemoved |>]> (cs_function_containers s).
Proof. intros E. by destruct (terminate_container_fields s cid fc E) as (F & _). Qed.

(** [reap_one] as termination, a new executor state, and the record of it. *)
Lemma reap_one_eq s cid fc :
  ∃ s2, (s2 = (terminate_container s cid).1 ∨ ∃ st', s2 = set_executor_state (terminate_container s cid).1 (csm_executor_id fc) st') ∧
    reap_one s cid fc =
      (s2 <| cs_reaped_containers ::= λ m, <[uri_of fc := default [] (m !! uri_of fc) ++ [cid]]> m |>,
       (terminate_container s cid).2).
Proof.
  unfold reap_one. destruct (terminate_container s cid) as [s1 u]. simpl.
  destruct (cs_executor_states s1 !! csm_executor_id fc) as [st|] eqn:E; [|by eauto].
  destruct (remove_container st (csm_function_container fc)) as [st' r]. eexists. split; [|reflexivity].
  right. exists st'. apply (inline_set_executor_state s1 (csm_executor_id fc) st st' E).
Qed.

(** The container table and the indexes after reaping one container are those
    after terminating it. *)
Lemma reap_one_view s cid fc :
  index_view (reap_one s cid fc).1 = index_view (terminate_container s cid).1 ∧
  cs_function_pools (reap_one s cid fc).1 = cs_function_pools s ∧
  cs_sandbox_pools (reap_one s cid fc).1 = cs_sandbox_pools s ∧
  cs_reaped_containers (reap_one s cid fc).1 =
    <[uri_of fc := default [] (cs_reaped_containers s !! uri_of fc) ++ [cid]]> (cs_reaped_containers s).
Proof.
  destruct (reap_one_eq s cid fc) as (s2 & Hs2 & ->). simpl.
  pose proof (terminate_container_frame s cid) as Hf. unfold frame_view in Hf.
  injection Hf as _ _ _ _ _ E1 E2 E3.
  assert (H : index_view s2 = index_view (terminate_container s cid).1 ∧ cs_function_pools s2 = cs_function_pools s ∧
    cs_sandbox_pools s2 = cs_sandbox_pools s ∧ cs_reaped_containers s2 = cs_reaped_containers s).
  { destruct Hs2 as [->|[st' ->]]; [done|]. rewrite set_executor_state_view, set_executor_state_reaped, E1.
    split_and!; [done| | |done]; [rewrite <-E2|rewrite <-E3];
      unfold set_executor_state, insert_resource_index;
      by destruct (cs_executor_states _ !! _), (indexable (esm_free_resources st')). }
  destruct H as (H1 & H2 & H3 & H4). split_and!; [exact H1|exact H2|exact H3|].
  change (<[uri_of fc := default [] (cs_reaped_containers s2 !! uri_of fc) ++ [cid]]> (cs_reaped_containers s2) =
    <[uri_of fc := default [] (cs_reaped_containers s !! uri_of fc) ++ [cid]]> (cs_reaped_containers s)).
  by rewrite H4.
Qed.

Lemma reap_one_wf s cid fc :
  scheduler_wf s → cs_function_containers s !! cid = Some fc → live fc = true →
  scheduler_wf (reap_one s cid fc).1.
Proof.
  intros Hs E Hl. destruct (reap_one_eq s cid fc) as (s2 & Hs2 & Heq). rewrite Heq. simpl.
  pose proof (terminate_container_sched_wf s cid Hs) as Ht.
  assert (Hw : scheduler_wf s2 ∧ cs_reaped_containers s2 = cs_reaped_containers s ∧
    cs_function_containers s2 = cs_function_containers (terminate_container s cid).1).
  { pose proof (terminate_container_frame s cid) as Hf. unfold frame_view in Hf. injection Hf as _ _ _ _ _ E1 _ _.
    destruct Hs2 as [->|[st' ->]]; [by split_and!|].
    by rewrite set_executor_state_reaped, set_executor_state_table; auto using set_executor_state_wf. }
  destruct Hw as ([Hi Hc Hm Hr] & Er & Et). clear Hs2 Heq Ht.
  split; [by apply (indices_wf_view s2)|by apply (classes_wf_view s2)|by apply (memory_index_wf_view s2)|].
  intros uri l. change (<[uri_of fc := default [] (cs_reaped_containers s2 !! uri_of fc) ++ [cid]]> (cs_reaped_containers s2)
    !! uri = Some l → NoDup l ∧ ∀ c m, c ∈ l → cs_function_containers s2 !! c = Some m → live m = false ∧ uri_of m = uri).
  rewrite lookup_insert. case_decide as Hd; [subst uri|by apply Hr]. intros [= <-].
  assert (Hold : NoDup (default [] (cs_reaped_containers s !! uri_of fc)) ∧
    ∀ c m, c ∈ default [] (cs_reaped_containers s !! uri_of fc) → cs_function_containers s2 !! c = Some m →
      live m = false ∧ uri_of m = uri_of fc).
  { rewrite <-Er. destruct (cs_reaped_containers s2 !! uri_of fc) as [l0|] eqn:E0; simpl; [by apply Hr|].
    split; [constructor|]. intros c m Hin. by apply elem_of_nil in Hin. }
  assert (Hnew : cid ∉ default [] (cs_reaped_containers s !! uri_of fc)).
  { destruct (cs_reaped_containers s !! uri_of fc) as [l0|] eqn:E0; simpl; [|apply not_elem_of_nil].
    intros Hin. destruct (wf_reaped s Hs _ _ E0) as [_ H']. destruct (H' cid fc Hin E). congruence. }
  rewrite Er. destruct Hold as [Hnd Hin]. split.
  - apply NoDup_app. split_and!; [done| |apply NoDup_singleton].
    intros x Hx. by rewrite list_elem_of_singleton; intros ->.
  - intros c m. rewrite elem_of_app, list_elem_of_singleton. intros [Hx| ->]; [by apply Hin|].
    rewrite Et, (terminate_container_table s cid fc E), lookup_insert_eq. by intros [= <-].
Qed.

(** Forgetting the last remembered container of a function. *)
Lemma pop_reaped_wf s uri l cid :
  scheduler_wf s → cs_reaped_containers s !! uri = Some (l ++ [cid]) →
  let s1 := s <| cs_reaped_containers ::= if bool_decide (l = []) then delete uri else <[uri := l]> |> in
  scheduler_wf s1 ∧
  ∀ fc uri' l', cs_function_containers s !! cid = Some fc → cs_reaped_containers s1 !! uri' = Some l' → cid ∉ l'.
Proof.
  intros [Hi Hc Hm Hr] E s1. destruct (Hr _ _ E) as [Hnd Hin].
  apply NoDup_app in Hnd as (Hnd & Hlast & _).
  assert (Hsub : ∀ uri' l', cs_reaped_containers s1 !! uri' = Some l' →
    (uri' = uri ∧ l' = l) ∨ (uri' ≠ uri ∧ cs_reaped_containers s !! uri' = Some l')).
  { intros uri' l'. change (cs_reaped_containers s1) with
      ((if bool_decide (l = []) then delete uri else <[uri := l]>) (cs_reaped_containers s)).
    case_bool_decide; [rewrite lookup_delete|rewrite lookup_insert]; case_decide; naive_solver. }
  split.
  - split; [by apply (indices_wf_view s)|by apply (classes_wf_view s)|by apply (memory_index_wf_view s)|].
    intros uri' l' [[-> ->]|[_ Hl']]%Hsub; [|by apply Hr]. split; [done|].
    intros c m Hcl. apply Hin. set_solver.
  - intros fc uri' l' Hfc [[-> ->]|[Hne Hl']]%Hsub Hcl.
    + apply (Hlast cid Hcl). set_solver.
    + destruct (Hr _ _ Hl') as [_ H']. destruct (H' cid fc Hcl Hfc) as [_ <-].
      destruct (Hin cid fc) as [_ Hu]; [set_solver|done|congruence].
Qed.

(** A failed restore puts the executor's index entry back. *)
Lemma reindex_executor_wf s id st st' :
  cs_executor_states s !! id = Some st → esm_free_resources st' = esm_free_resources st → scheduler_wf s →
  scheduler_wf (s <| cs_executors_by_free_memory ::= λ x,
      {[(host_memory_bytes (esm_free_resources st), id)]} ∪
        (x ∖ {[(host_memory_bytes (esm_free_resources st), id)]}) |>
    <| cs_executor_states ::= <[id := st']> |>).
Proof.
  intros Est Ef [Hi Hc Hm Hr]. split; [by apply (indices_wf_view s)|by apply (classes_wf_view s)| |done].
  intros mem i. rsimpl. rewrite elem_of_union, elem_of_difference, elem_of_singleton.
  destruct (decide (i = id)) as [->|Hd].
  - rewrite lookup_insert_eq. intros Hor. exists st'. split; [done|]. rewrite Ef.
    destruct Hor as [[= ->]|[Hin _]]; [done|]. destruct (Hm _ _ Hin) as (st0 & E0 & ->). congruence.
  - rewrite lookup_insert_ne by done. intros [[= ? ?]|[Hin _]]; [done|]. by apply Hm.
Qed.

Lemma restore_reaped_container_wf s uri now :
  scheduler_wf s → scheduler_wf (restore_reaped_container s uri now).1.
Proof.
  intros Hs. unfold restore_reaped_container.
  destruct (cs_reaped_containers s !! uri) as [reaped|] eqn:Er; [|done].
  destruct (last reaped) as [cid|] eqn:El; [|done].
  apply last_Some in El as [l ->]. rewrite removelast_last.
  destruct (pop_reaped_wf s uri l cid Hs Er) as [Hs1 Hnot].
  destruct (wf_reaped s Hs _ _ Er) as [_ Hdead].
  set (s1 := s <| cs_reaped_containers ::= _ |>) in *.
  change (cs_function_containers s) with (cs_function_containers s1) in *. clearbody s1.
  destruct (cs_function_containers s1 !! cid) as [fc|] eqn:Efc; [|done].
  destruct (Hdead cid fc) as [Hd _]; [set_solver|done|]. specialize (Hnot fc).
  destruct (cs_executor_states s1 !! csm_executor_id fc) as [st|] eqn:Est; [|done].
  destruct (add_container st (csm_function_container fc)) as [st' [r|e]] eqn:Ea; cbv beta iota zeta; cbn [fst].
  - rewrite (inline_set_executor_state s1 (csm_executor_id fc) st st' Est).
    set (s2 := set_executor_state s1 (csm_executor_id fc) st').
    assert (Hs2 : scheduler_wf s2) by by apply set_executor_state_wf.
    assert (Et : cs_function_containers s2 !! cid = Some fc) by (unfold s2; by rewrite set_executor_state_table).
    assert (Er2 : cs_reaped_containers s2 = cs_reaped_containers s1) by apply set_executor_state_reaped.
    clearbody s2. set (fc' := fc <| csm_desired_state := CS_Running |> <| csm_idle_since := Some now |>).
    destruct (update_container_indices_fields (s2 <| cs_function_containers ::= <[cid := fc']> |>) cid fc') as (F1 & _).
    apply (container_step_wf s2 _ cid Hs2).
    + rewrite update_container_indices_frame. done.
    + by apply (resurrect_wf s2 cid fc fc'); [apply wf_indices|..].
    + intros c Hne. rewrite F1, lookup_insert_ne by done.
      change (cs_function_containers (s2 <| cs_function_containers ::= <[cid := fc']> |>))
        with (<[cid := fc']> (cs_function_containers s2)). by rewrite lookup_insert_ne.
    + intros u l' m Hl' Hin _. rewrite Er2 in Hl'. by destruct (Hnot _ _ eq_refl Hl').
  - apply (reindex_executor_wf s1 (csm_executor_id fc) st st' Est); [|done]. by eapply add_container_err_free.
Qed.

(** ** What the reaper does *)

(** Non-terminated containers filed under a pool. *)
Definition pool_size (s : ContainerScheduler) (pk : ContainerPoolKey) : Z :=
  Z.of_nat (size (idx_get (cs_containers_by_pool s) pk)).
Lemma pool_container_count_size s pk : pool_container_count s pk = wrap32 (pool_size s pk).
Proof.
  unfold pool_container_count, pool_size, idx_get. by destruct (cs_containers_by_pool s !! pk).
Qed.

Lemma terminate_pool_size s cid fc pk :
  indices_wf s → cs_function_containers s !! cid = Some fc → live fc = true →
  pool_size (terminate_container s cid).1 pk =
    pool_size s pk - (if bool_decide (pool_key_of fc = Some pk) then 1 else 0).
Proof.
  intros [_ Hok] E Hl. destruct (terminate_container_fields s cid fc E) as (_ & _ & F & _).
  unfold pool_size. rewrite F. destruct (pool_key_of fc) as [pk0|] eqn:Ek; case_bool_decide as Hd; simplify_eq; try lia.
  - rewrite idx_get_remove, decide_True by done.
    assert (Hin : cid ∈ idx_get (cs_containers_by_pool s) pk).
    { apply (Hok cid). rewrite E. simpl. by rewrite Ek. }
    assert (Hsz : (size {[cid]} ≤ size (idx_get (cs_containers_by_pool s) pk))%nat)
      by (apply subseteq_size; set_solver).
    rewrite size_difference by set_solver. rewrite size_singleton in *. lia.
  - rewrite idx_get_remove, decide_False by congruence. lia.
Qed.

(** How a state [s] of the loop relates to the state [s0] it started from, when
    the entries seen so far are among [l]. *)
Definition terminated_of (fc : ContainerServerMetadata) : ContainerServerMetadata :=
  fc <| csm_desired_state := CS_Terminated CTR_DesiredStateRemoved |>.
Record reap_rel (now age : Z) (l : list (Instant * ContainerId)) (s0 s : ContainerScheduler) : Prop := {
  rr_pools : ∀ pk, get_pool s pk = get_pool s0 pk;
  rr_table : ∀ cid, cs_function_containers s !! cid = cs_function_containers s0 !! cid ∨
    ∃ fc t, cs_function_containers s0 !! cid = Some fc ∧
      cs_function_containers s !! cid = Some (terminated_of fc) ∧
      live fc = true ∧ can_be_removed fc = true ∧ (t, cid) ∈ l ∧ age ≤ saturating_sub now t;
  rr_size : ∀ pk, Z.min (pool_size s0 pk) (pool_floor s0 pk) ≤ pool_size s pk ≤ pool_size s0 pk;
}.

Lemma reap_rel_refl now age l s s' :
  index_view s' = index_view s → (∀ pk, get_pool s' pk = get_pool s pk) → reap_rel now age l s s'.
Proof.
  unfold index_view. intros [= E1 E2 E3 E4 E5] Hp. split; [done|left; by rewrite E1|].
  intros pk. unfold pool_size. rewrite E3. lia.
Qed.

Lemma reapable_spec s fc :
  reapable s fc = true ↔ live fc = true ∧ can_be_removed fc = true ∧
    ∀ pk, pool_key_of fc = Some pk → pool_floor s pk < pool_container_count s pk.
Proof.
  unfold reapable, fe_can_be_removed, live.
  destruct (is_terminated _), (can_be_removed fc), (pool_key_of fc); simpl;
    try case_bool_decide; naive_solver lia.
Qed.

Lemma reap_one_rel now age l s0 s t cid fc :
  reap_rel now age l s0 s → indices_wf s → (∀ pk, pool_size s0 pk < 2 ^ 32) →
  cs_function_containers s !! cid = Some fc → reapable s fc = true →
  (t, cid) ∈ l → age ≤ saturating_sub now t →
  reap_rel now age l s0 (reap_one s cid fc).1.
Proof.
  intros [Hp Ht Hsz] Hs Hb E Hre Hin Hage. apply reapable_spec in Hre as (Hl & Hrm & Hfl).
  destruct (reap_one_view s cid fc) as (Hv & Ep1 & Ep2 & _). unfold index_view in Hv. injection Hv as V1 V2 V3 V4 V5.
  assert (Hpool : ∀ pk, get_pool (reap_one s cid fc).1 pk = get_pool s0 pk).
  { intros pk. rewrite <-Hp. unfold get_pool. by rewrite Ep1, Ep2. }
  split; [done| |].
  - intros c. rewrite V1, (terminate_container_table s cid fc E).
    destruct (decide (c = cid)) as [->|Hne]; [|by rewrite lookup_insert_ne; auto].
    right. exists fc, t. rewrite lookup_insert_eq. split_and!; try done.
    destruct (Ht cid) as [Heq|(fc0 & t0 & _ & Hd & _)]; [congruence|]. rewrite E in Hd. by simplify_eq/=.
  - intros pk. assert (Hsz' : pool_size (reap_one s cid fc).1 pk = pool_size (terminate_container s cid).1 pk)
      by (unfold pool_size; by rewrite V3).
    rewrite Hsz', (terminate_pool_size s cid fc pk Hs E Hl).
    specialize (Hsz pk). specialize (Hb pk). case_bool_decide as Hk; [|lia].
    specialize (Hfl pk Hk). rewrite pool_container_count_size, wrap32_id in Hfl
      by (unfold in_u32; unfold pool_size in *; lia).
    unfold pool_floor in *. rewrite Hp in Hfl. lia.
Qed.

Lemma reap_loop_rel now age l s0 todo : ∀ s u aff s' u' aff',
  reap_loop now age todo s u aff = (s', u', aff') →
  reap_rel now age l s0 s → scheduler_wf s → (∀ pk, pool_size s0 pk < 2 ^ 32) → (∀ p, p ∈ todo → p ∈ l) →
  reap_rel now age l s0 s' ∧ scheduler_wf s'.
Proof.
  induction todo as [|[t cid] todo IH]; intros s u aff s' u' aff'; simpl; [by intros [= <- _ _]|].
  intros Heq Hr Hs Hb Hl. assert (Hl' : ∀ p, p ∈ todo → p ∈ l) by set_solver.
  case_bool_decide as Hage; [by simplify_eq|].
  destruct (cs_function_containers s !! cid) as [fc|] eqn:E; [|by eapply IH].
  destruct (reapable s fc) eqn:Ere; [|by eapply IH].
  destruct (reap_one s cid fc) as [s1 tu] eqn:Eo.
  pose proof (reap_one_rel now age l s0 s t cid fc Hr (wf_indices s Hs) Hb E Ere (Hl (t, cid) (list_elem_of_here _ _))
    ltac:(lia)) as Hr1.
  pose proof (reap_one_wf s cid fc Hs E) as Hs1. rewrite Eo in Hr1, Hs1.
  eapply IH; [exact Heq|exact Hr1| |done|done]. apply Hs1. by apply reapable_spec in Ere as [? _].
Qed.

(** Why an entry the loop has passed was left in place. *)
Definition reap_blocked (s : ContainerScheduler) (fc : ContainerServerMetadata) : Prop :=
  live fc = false ∨ can_be_removed fc = false ∨
  ∃ pk, pool_key_of fc = Some pk ∧ pool_size s pk ≤ pool_floor s pk.

Lemma reap_rel_blocked now age l s s' cid fc fc' :
  reap_rel now age l s s' → cs_function_containers s !! cid = Some fc → reap_blocked s fc →
  cs_function_containers s' !! cid = Some fc' → reap_blocked s' fc'.
Proof.
  intros [Hp Ht Hsz] E Hb E'. destruct (Ht cid) as [Heq|(fc0 & t0 & _ & Hd & _)].
  - rewrite Heq, E in E'. simplify_eq. destruct Hb as [?|[?|(pk & Hk & Hle)]]; [by left|by right; left|].
    right; right. exists pk. split; [done|]. specialize (Hsz pk). unfold pool_floor in *. rewrite Hp. lia.
  - rewrite Hd in E'. left. by simplify_eq.
Qed.

Lemma reap_loop_maximal now age todo : ∀ s u aff s' u' aff' t cid fc,
  reap_loop now age todo s u aff = (s', u', aff') →
  StronglySorted pair_le todo → scheduler_wf s → (∀ pk, pool_size s pk < 2 ^ 32) →
  (t, cid) ∈ todo → age ≤ saturating_sub now t →
  cs_function_containers s' !! cid = Some fc → reap_blocked s' fc.
Proof.
  induction todo as [|[t0 cid0] todo IH]; intros s u aff s' u' aff' t cid fc; simpl;
    [intros _ _ _ _ Hin; by apply elem_of_nil in Hin|].
  intros Heq Hsort Hs Hb Hin Hage Hfc. apply StronglySorted_inv in Hsort as [Hsort Hall].
  case_bool_decide as Hyoung.
  { exfalso. assert (Ht : t0 ≤ t).
    { apply elem_of_cons in Hin as [[= <- <-]|Hin]; [lia|]. rewrite Forall_forall in Hall.
      destruct (Hall _ Hin) as [?|[? _]]; simpl in *; lia. }
    unfold saturating_sub in *. lia. }
  assert (Hhere : ∀ s1 u1 aff1 fc1, reap_loop now age todo s1 u1 aff1 = (s', u', aff') →
    scheduler_wf s1 → (∀ pk, pool_size s1 pk < 2 ^ 32) →
    (t, cid) = (t0, cid0) → cs_function_containers s1 !! cid0 = Some fc1 → reap_blocked s1 fc1 → reap_blocked s' fc).
  { intros s1 u1 aff1 fc1 Heq1 Hs1 Hb1 [= -> ->] E1 Hbl.
    destruct (reap_loop_rel now age todo s1 todo s1 u1 aff1 s' u' aff' Heq1) as [Hr _]; [|done..|].
    - by apply reap_rel_refl.
    - by eapply reap_rel_blocked. }
  apply elem_of_cons in Hin.
  destruct (cs_function_containers s !! cid0) as [fc0|] eqn:E.
  2:{ destruct Hin as [[= -> ->]|Hin]; [|by eapply IH]. exfalso.
      destruct (reap_loop_rel now age todo s todo s u aff s' u' aff' Heq) as [[_ Ht _] _]; [by apply reap_rel_refl|done..|].
      destruct (Ht cid0) as [Heq'|(? & ? & ? & _)]; congruence. }
  destruct (reapable s fc0) eqn:Ere.
  - destruct (reap_one s cid0 fc0) as [s1 tu] eqn:Eo. pose proof Ere as Ere'.
    apply reapable_spec in Ere' as (Hl & _ & _).
    pose proof (reap_one_wf s cid0 fc0 Hs E Hl) as Hs1. rewrite Eo in Hs1.
    assert (Hr1 : reap_rel now age [(t0, cid0)] s s1).
    { pose proof (reap_one_rel now age [(t0, cid0)] s s t0 cid0 fc0) as H. rewrite Eo in H. apply H; try done.
      - by apply reap_rel_refl.
      - apply Hs.
      - set_solver.
      - lia. }
    assert (Hb1 : ∀ pk, pool_size s1 pk < 2 ^ 32) by (intros pk; pose proof (rr_size _ _ _ _ _ Hr1 pk); specialize (Hb pk); lia).
    destruct Hin as [Hin|Hin]; [|by eapply IH].
    destruct (rr_table _ _ _ _ _ Hr1 cid0) as [Hsame|(fc2 & _ & Hfc2 & Hd & _)].
    + exfalso. destruct (reap_one_view s cid0 fc0) as (Hv & _). rewrite Eo in Hv.
      apply (f_equal (λ v, v.1.1.1.1 !! cid0)) in Hv. unfold index_view in Hv. simpl in Hv.
      rewrite (terminate_container_table s cid0 fc0 E), lookup_insert_eq, Hsame, E in Hv.
      injection Hv as Hv. by rewrite Hv in Hl.
    + eapply Hhere; [exact Heq|done|done|done|exact Hd|by left].
  - destruct Hin as [Hin|Hin]; [|by eapply IH]. eapply Hhere; [exact Heq|done|done|done|exact E|].
    apply not_true_iff_false in Ere. rewrite reapable_spec in Ere. unfold reap_blocked.
    destruct (live fc0) eqn:El; [|by left]. destruct (can_be_removed fc0) eqn:Er; [|by right; left].
    right; right. destruct (pool_key_of fc0) as [pk|] eqn:Ek; [|by destruct Ere].
    exists pk. split; [done|]. apply Z.nlt_ge. intros Hlt. apply Ere. split_and!; [done..|].
    intros pk' [= <-]. rewrite pool_container_count_size, wrap32_id; [done|]. specialize (Hb pk).
    unfold in_u32, pool_size in *. lia.
Qed.

(** The reaper starts by forgetting what it remembered. *)
Lemma forget_reaped_wf s : scheduler_wf s → scheduler_wf (s <| cs_reaped_containers := ∅ |>).
Proof.
  intros [Hi Hc Hm Hr].
  split; [by apply (indices_wf_view s)|by apply (classes_wf_view s)|by apply (memory_index_wf_view s)|].
  intros uri l Hl. change ((∅ : gmap FunctionURI (list ContainerId)) !! uri = Some l) in Hl.
  by rewrite lookup_empty in Hl.
Qed.

End scheduler_invariant.

Section reaper.
Context `{HO : HashOrder}.

Lemma reap_idle_containers_rel s age now :
  scheduler_wf s → (∀ pk, pool_size s pk < 2 ^ 32) →
  let s' := (reap_idle_containers s age now).1 in
  scheduler_wf s' ∧ reap_rel now age (sorted_elements (cs_idle_containers s)) s s' ∧
  ∀ t cid fc, (t, cid) ∈ cs_idle_containers s → age ≤ saturating_sub now t →
    cs_function_containers s' !! cid = Some fc → reap_blocked s' fc.
Proof.
  intros Hs Hb s'. unfold s', reap_idle_containers.
  set (s0 := s <| cs_reaped_containers := ∅ |>).
  assert (Hs0 : scheduler_wf s0) by by apply forget_reaped_wf.
  destruct (reap_loop _ _ _ _ _ _) as [[s1 u] aff] eqn:E. cbv beta iota zeta. cbn [fst].
  destruct (reap_loop_rel _ _ (sorted_elements (cs_idle_containers s)) s0 _ _ _ _ _ _ _ E) as [Hr Hs1];
    [by apply reap_rel_refl|done|done|done|].
  split_and!; [done| |].
  - destruct Hr as [H1 H2 H3]. by split.
  - intros t cid fc Hin Hage. eapply (reap_loop_maximal _ _ _ _ _ _ _ _ _ t); [exact E| |done|done| |done].
    + apply StronglySorted_sorted_elements.
    + by apply elem_of_sorted_elements.
Qed.

(** One run of the idle reaper keeps the scheduler's indexes consistent and
    never takes a pool below the larger of its minimum and its buffer: a pool that
    was above that floor stays at or above it, one already below loses nothing. *)
Theorem reaper_keeps_floor s age now :
  scheduler_wf s → (∀ pk, pool_size s pk < 2 ^ 32) →
  let s' := (reap_idle_containers s age now).1 in
  scheduler_wf s' ∧
  ∀ pk, Z.min (pool_size s pk) (pool_floor s pk) ≤ pool_size s' pk ≤ pool_size s pk.
Proof.
  intros Hs Hb. destruct (reap_idle_containers_rel s age now Hs Hb) as (Hs' & [_ _ Hsz] & _). done.
Qed.

(** The reaper touches nothing but idle function containers: every entry of
    the container table is either unchanged or was a live function container
    without allocations, idle for at least the given age, and is now marked
    terminated with the rest of its data intact. *)
Theorem reaper_only_idle s age now cid fc :
  scheduler_wf s → (∀ pk, pool_size s pk < 2 ^ 32) → cs_function_containers s !! cid = Some fc →
  let s' := (reap_idle_containers s age now).1 in
  cs_function_containers s' !! cid = Some fc ∨
  (cs_function_containers s' !! cid = Some (terminated_of fc) ∧ live fc = true ∧
   csm_container_type fc = CT_Function ∧ csm_allocations fc = ∅ ∧
   ∃ t, csm_idle_since fc = Some t ∧ age ≤ saturating_sub now t).
Proof.
  intros Hs Hb E s'. destruct (reap_idle_containers_rel s age now Hs Hb) as (_ & [_ Ht _] & _).
  destruct (Ht cid) as [Heq|(fc0 & t & E0 & E' & Hl & Hrm & Hin & Hage)]; [left; unfold s'; congruence|].
  right. rewrite E in E0. injection E0 as <-. split; [done|]. split; [done|].
  unfold can_be_removed in Hrm. apply andb_true_iff in Hrm as [H1%bool_decide_eq_true H2%bool_decide_eq_true].
  split_and!; [done..|]. exists t. split; [|done].
  apply elem_of_sorted_elements in Hin. destruct (wf_indices s Hs) as [_ Hok].
  apply (Hok cid) in Hin; [|done]. rewrite E in Hin. by destruct Hin as (_ & _ & ?).
Qed.

(** The reaper reclaims all it may: a function container that is still live
    afterwards although it is without allocations and has been idle long enough
    belongs to a pool that is down to its floor. *)
Theorem reaper_maximal s age now cid fc t :
  scheduler_wf s → (∀ pk, pool_size s pk < 2 ^ 32) →
  let s' := (reap_idle_containers s age now).1 in
  cs_function_containers s' !! cid = Some fc → live fc = true →
  csm_container_type fc = CT_Function → csm_allocations fc = ∅ →
  csm_idle_since fc = Some t → age ≤ saturating_sub now t →
  ∃ pk, pool_key_of fc = Some pk ∧ pool_size s' pk ≤ pool_floor s' pk.
Proof.
  intros Hs Hb s' E Hl Hty Hal Hi Hage.
  destruct (reap_idle_containers_rel s age now Hs Hb) as (_ & [_ Ht _] & Hmax).
  destruct (Ht cid) as [Heq|(fc0 & _ & _ & E' & _)].
  2:{ unfold s' in E. rewrite E' in E. injection E as <-. done. }
  unfold s' in E. rewrite Heq in E.
  assert (Hin : (t, cid) ∈ cs_idle_containers s).
  { destruct (wf_indices s Hs) as [_ Hok]. apply (Hok cid). rewrite E. done. }
  destruct (Hmax t cid fc Hin Hage) as [?|[Hno|Hpk]]; [congruence|congruence| |done].
  unfold can_be_removed in Hno. rewrite Hty, Hal in Hno. by rewrite !bool_decide_eq_true_2 in Hno.
Qed.
End reaper.

(** The executor states after reaping one container. *)
Lemma reap_one_states s cid fc st st1 r :
  cs_executor_states s !! csm_executor_id fc = Some st →
  remove_container st (csm_function_container fc) = (st1, r) →
  cs_executor_states (reap_one s cid fc).1 = <[csm_executor_id fc := st1]> (cs_executor_states s).
Proof.
  intros Est Hrem. pose proof (terminate_container_frame s cid) as Hf. unfold frame_view in Hf.
  injection Hf as _ _ _ Es _ _ _ _.
  unfold reap_one. destruct (terminate_container s cid) as [s1 tu]. simpl in Es.
  rewrite Es, Est, Hrem. rewrite (inline_set_executor_state s1) by congruence.
  destruct (set_executor_state_fields s1 (csm_executor_id fc) st1) as (F & _).
  change (cs_executor_states (set_executor_state s1 (csm_executor_id fc) st1) = <[csm_executor_id fc := st1]> (cs_executor_states s)).
  by rewrite F, Es.
Qed.

(** A restore that finds the container and its resources. *)
Lemma restore_success s uri cid fc st st' now :
  cs_reaped_containers s !! uri = Some [cid] → cs_function_containers s !! cid = Some fc →
  cs_executor_states s !! csm_executor_id fc = Some st →
  add_container st (csm_function_container fc) = (st', Ok tt) →
  let r := restore_reaped_container s uri now in
  is_Some r.2 ∧
  cs_function_containers r.1 =
    <[cid := fc <| csm_desired_state := CS_Running |> <| csm_idle_since := Some now |>]> (cs_function_containers s) ∧
  cs_executor_states r.1 = <[csm_executor_id fc := st']> (cs_executor_states s) ∧
  cs_reaped_containers r.1 = delete uri (cs_reaped_containers s).
Proof.
  intros Er Efc Est Hadd. unfold restore_reaped_container. rewrite Er. cbn [last removelast].
  rewrite bool_decide_eq_true_2 by done. set (s1 := s <| cs_reaped_containers ::= delete uri |>).
  change (cs_function_containers s) with (cs_function_containers s1) in *.
  change (cs_executor_states s) with (cs_executor_states s1) in *.
  change (delete uri (cs_reaped_containers s)) with (cs_reaped_containers s1). clearbody s1. rewrite Efc, Est, Hadd.
  cbv beta iota zeta. cbn [fst snd]. rewrite (inline_set_executor_state s1 _ _ _ Est).
  set (fc' := fc <| csm_desired_state := CS_Running |> <| csm_idle_since := Some now |>).
  set (s2 := set_executor_state s1 (csm_executor_id fc) st').
  assert (E1 : cs_function_containers s2 = cs_function_containers s1) by apply set_executor_state_table.
  assert (E2 : cs_reaped_containers s2 = cs_reaped_containers s1) by apply set_executor_state_reaped.
  assert (E3 : cs_executor_states s2 = <[csm_executor_id fc := st']> (cs_executor_states s1))
    by apply set_executor_state_fields.
  clearbody s2. set (s3 := s2 <| cs_function_containers ::= <[cid := fc']> |>).
  destruct (update_container_indices_fields s3 cid fc') as (F1 & _).
  pose proof (update_container_indices_frame s3 cid fc') as Hf. unfold frame_view in Hf.
  injection Hf as _ _ _ Es _ Er' _ _. split_and!; [by eexists| |by rewrite Es|by rewrite Er'].
  rewrite F1. change (cs_function_containers s3) with (<[cid := fc']> (cs_function_containers s2)).
  by rewrite insert_insert_eq, E1.
Qed.

(** Reaping a container and restoring it for the same function in the same
    batch is a round trip: the same container is live again under its old keys,
    every executor's free resources and claims are exactly what they were, and no
    container is left remembered as reaped. *)
Theorem reap_restore_roundtrip s cid fc st cap now :
  scheduler_wf s → cs_reaped_containers s !! uri_of fc = None →
  cs_function_containers s !! cid = Some fc → live fc = true → ctr_id (csm_function_container fc) = cid →
  cs_executor_states s !! csm_executor_id fc = Some st → ledger cap st →
  cid ∈ esm_function_container_ids st →
  esm_resource_claims st !! cid = Some (ctr_resources (csm_function_container fc)) →
  let fc' := fc <| csm_desired_state := CS_Running |> <| csm_idle_since := Some now |> in
  let '(s2, u) := restore_reaped_container (reap_one s cid fc).1 (uri_of fc) now in
  scheduler_wf s2 ∧ is_Some u ∧
  cs_function_containers s2 = <[cid := fc']> (cs_function_containers s) ∧
  cs_executor_states s2 = cs_executor_states s ∧ cs_reaped_containers s2 = cs_reaped_containers s.
Proof.
  intros Hs Hnr E Hl <- Est Hled Hin Hcl fc'. set (c := csm_function_container fc) in *.
  pose proof (restore_reaped_container_wf (reap_one s (ctr_id c) fc).1 (uri_of fc) now
    (reap_one_wf s _ fc Hs E Hl)) as Hwf.
  destruct (remove_add_roundtrip cap st c Hled Hin Hcl) as (st1 & Hrem & Hadd).
  destruct (reap_one_view s (ctr_id c) fc) as (Hv & _ & _ & Hreaped). rewrite Hnr in Hreaped. simpl in Hreaped.
  apply (f_equal (λ v, v.1.1.1.1)) in Hv. unfold index_view in Hv. simpl in Hv.
  rewrite (terminate_container_table s _ fc E) in Hv.
  pose proof (reap_one_states s (ctr_id c) fc st st1 _ Est Hrem) as Hst.
  destruct (restore_success (reap_one s (ctr_id c) fc).1 (uri_of fc) (ctr_id c) (terminated_of fc) st1 st now)
    as (Hu & Ht & Hs2 & Hr2); [by rewrite Hreaped, lookup_insert_eq|by rewrite Hv, lookup_insert_eq|
      by rewrite Hst, lookup_insert_eq|done|].
  destruct (restore_reaped_container _ _ _) as [s2 u]. simpl in *. split_and!; [done|done| | |].
  - by rewrite Ht, Hv, insert_insert_eq.
  - rewrite Hs2, Hst, insert_insert_eq. by apply insert_id.
  - rewrite Hr2, Hreaped. by apply delete_insert_id.
Qed.

(** ** Creating a container *)

(** With at most one GPU configuration, the check made by the selection is the
    one made by the registration. *)
Lemma can_handle_single h r :
  is_ok (can_handle_function_resources h (function_resources_of r)) = is_ok (can_handle_fe_resources h r).
Proof.
  unfold can_handle_function_resources, function_resources_of, fe_resources_no_gpu.
  destruct r as [c m d [g|]]; simpl; [|done]. by destruct (can_handle_fe_resources h _).
Qed.

Lemma add_container_ok st c :
  is_ok (can_handle_fe_resources (esm_free_resources st) (ctr_resources c)) = true →
  is_ok (add_container st c).2 = true.
Proof.
  unfold add_container. simpl. destruct (esm_resource_claims st !! ctr_id c); [done|].
  unfold consume_fe_resources. by destruct (can_handle_fe_resources _ _).
Qed.

Lemma create_container_spec `{HO : HashOrder} s ns app f c ty cache rnd now :
  let w := MkWorkload (match f with Some f => WK_Function ns app (fn_name f) | None => WK_Sandbox ns end) ns app f in
  scheduler_wf s → cache_sound w cache → mb_to_bytes (cres_memory_mb (ctr_resources c)) ≤ rnd →
  let '(s', cache', r) := create_container s ns app f (function_resources_of (ctr_resources c)) c ty cache rnd now in
  scheduler_wf s' ∧ cache_sound w cache' ∧
  ∃ o, r = Ok o ∧
    match o with
    | None => cs_executor_states s' = cs_executor_states s
    | Some u => ∃ id e st st', cs_executors s !! id = Some e ∧ matches w e = true ∧
        cs_executor_states s !! id = Some st ∧ add_container st c = (st', Ok tt) ∧
        cs_executor_states s' = <[id := st']> (cs_executor_states s) ∧
        su_containers u = {[ctr_id c := MkContainerServerMetadata id c CS_Running ty ∅ (Some now)]}
    end.
Proof.
  intros w Hs Hc Hr. set (res := function_resources_of (ctr_resources c)).
  pose proof (create_container_wf s ns app f res c ty cache rnd now Hs) as Hwf.
  unfold create_container in *. fold w in Hwf |- *.
  destruct (select_executor s cache w res 2 rnd) as [cache' p] eqn:Esel.
  destruct (select_executor_spec s cache w res 2 rnd cache' p (wf_classes s Hs) (wf_memory s Hs) Hc Hr Esel)
    as (Hc' & _ & Hid).
  set (s1 := s <| cs_last_placement := Some p |>) in *.
  change (cs_executor_states s1) with (cs_executor_states s) in *.
  destruct (pr_executor_id p) as [id|]; [|by split_and!; [..|exists None]].
  destruct (Hid id eq_refl) as (e & st & He & _ & Hm & Est & Hok). rewrite Est in *.
  unfold res in Hok. rewrite can_handle_single in Hok. apply (add_container_ok st c) in Hok.
  unfold register_container in *. change (cs_executor_states s1) with (cs_executor_states s) in *.
  rewrite Est in *. destruct (add_container st c) as [st' [[]|err']] eqn:Ea; [|done].
  split_and!; [done|done|]. eexists (Some _). split; [reflexivity|].
  exists id, e, st, st'. split_and!; try done.
  unfold insert_resource_index. by destruct (indexable (esm_free_resources st')).
Qed.

(** Creating a container whose resources are what the placement was asked for
    never fails half-way: the call returns success, keeps the indexes consistent,
    and when it places the container, it is on a registered executor that may run
    the workload, whose state is the old one with the container added. *)
Theorem create_container_sound `{HO : HashOrder} s ns app f c ty cache rnd now :
  let w := MkWorkload (match f with Some f => WK_Function ns app (fn_name f) | None => WK_Sandbox ns end) ns app f in
  scheduler_wf s → cache_sound w cache → mb_to_bytes (cres_memory_mb (ctr_resources c)) ≤ rnd →
  let '(s', cache', r) := create_container s ns app f (function_resources_of (ctr_resources c)) c ty cache rnd now in
  scheduler_wf s' ∧ cache_sound w cache' ∧
  ∃ o, r = Ok o ∧
    match o with
    | None => cs_executor_states s' = cs_executor_states s
    | Some u => ∃ id e st st', cs_executors s !! id = Some e ∧ matches w e = true ∧
        cs_executor_states s !! id = Some st ∧ add_container st c = (st', Ok tt) ∧
        cs_executor_states s' = <[id := st']> (cs_executor_states s) ∧
        su_containers u = {[ctr_id c := MkContainerServerMetadata id c CS_Running ty ∅ (Some now)]}
    end.
Proof. apply create_container_spec. Qed.

(** ** Concrete runs *)

Definition claimed_esm_ex : ExecutorServerMetadata := (add_container esm_ex (ctr_ex "c1" cres_ex)).1.
Definition csm_ex (t : Z) : ContainerServerMetadata :=
  MkContainerServerMetadata "e1" (ctr_ex "c1" cres_ex) CS_Running CT_Function ∅ (Some t).
(** One executor running one idle function container since instant 5. *)
Definition idle_scheduler_ex : ContainerScheduler :=
  update_container_indices (set_executor_state one_executor_ex "e1" claimed_esm_ex) "c1" (csm_ex 5).

Lemma one_executor_scheduler_wf : scheduler_wf one_executor_ex.
Proof.
  split; [|apply one_executor_ex_wf|apply one_executor_ex_wf|].
  - unfold one_executor_ex, add_executor_ex.
    destruct (upsert_executor_classes empty_scheduler (executor_ex "e1" (zone "a"))) as (_ & _ & _ & E & _).
    eapply indices_wf_view; [symmetry; apply set_executor_state_view|].
    eapply indices_wf_view; [symmetry; apply E|]. apply empty_scheduler_indices_wf.
  - intros uri l. vm_compute. done.
Qed.
Lemma idle_scheduler_ex_wf : scheduler_wf idle_scheduler_ex.
Proof.
  apply update_container_indices_sched_wf; [apply set_executor_state_wf, one_executor_scheduler_wf| |].
  - intros old. vm_compute. done.
  - intros uri l. vm_compute. done.
Qed.
Lemma idle_scheduler_ex_size pk : pool_size idle_scheduler_ex pk < 2 ^ 32.
Proof.
  unfold pool_size. destruct (update_container_indices_fields
    (set_executor_state one_executor_ex "e1" claimed_esm_ex) "c1" (csm_ex 5)) as (_ & _ & F & _).
  unfold idle_scheduler_ex. rewrite F. change (pool_key_of (csm_ex 5)) with (Some (MkContainerPoolKey "ns" "app|fn|v1")).
  change (live (csm_ex 5)) with true. cbv iota. rewrite idx_get_insert.
  assert (E : idx_get (cs_containers_by_pool (set_executor_state one_executor_ex "e1" claimed_esm_ex)) pk = ∅)
    by reflexivity.
  rewrite E. case_decide.
  - assert (Hs : size ({["c1"%string]} ∪ (∅ : gset string)) = 1%nat) by (rewrite union_empty_r_L; apply size_singleton).
    rewrite Hs. lia.
  - rewrite size_empty. lia.
Qed.

Definition reaped_ex : ContainerScheduler := (@reap_idle_containers canonical_order idle_scheduler_ex 10 100).1.
Lemma reaper_keeps_floor_witness :
  scheduler_wf reaped_ex ∧ pool_size reaped_ex (MkContainerPoolKey "ns" "app|fn|v1") = 0.
Proof.
  destruct (@reaper_keeps_floor canonical_order idle_scheduler_ex 10 100 idle_scheduler_ex_wf idle_scheduler_ex_size)
    as [Hw _].
  split; [exact Hw|]. vm_compute. reflexivity.
Defined.
Lemma reaper_only_idle_witness :
  cs_function_containers reaped_ex !! "c1"%string = Some (terminated_of (csm_ex 5)).
Proof.
  destruct (@reaper_only_idle canonical_order idle_scheduler_ex 10 100 "c1" (csm_ex 5)
    idle_scheduler_ex_wf idle_scheduler_ex_size eq_refl) as [H|[H _]]; [|exact H].
  exfalso. apply (f_equal (option_map (λ m, live m))) in H. vm_compute in H. discriminate.
Defined.
(** The same scheduler with a pool that keeps one container. *)
Definition pool_ex (min : option Z) : ContainerPool :=
  MkContainerPool "app|fn|v1" "ns" CPT_Function "" cres_ex None None [] 0 min (Some 10) None 0 false None None false None.
Definition floored_ex : ContainerScheduler := insert_pool idle_scheduler_ex (pool_ex (Some 1)).
Lemma floored_ex_wf : scheduler_wf floored_ex.
Proof. by apply (scheduler_wf_view idle_scheduler_ex); [|apply idle_scheduler_ex_wf]. Qed.
Definition kept_ex : ContainerScheduler := (@reap_idle_containers canonical_order floored_ex 10 100).1.
Lemma reaper_maximal_witness :
  ∃ pk, pool_key_of (csm_ex 5) = Some pk ∧ pool_size kept_ex pk ≤ pool_floor kept_ex pk.
Proof.
  apply (@reaper_maximal canonical_order floored_ex 10 100 "c1" (csm_ex 5) 5 floored_ex_wf idle_scheduler_ex_size);
    vm_compute; congruence.
Defined.

Lemma reap_restore_roundtrip_witness :
  let s1 := (reap_one idle_scheduler_ex "c1" (csm_ex 5)).1 in
  let r := restore_reaped_container s1 (uri_of (csm_ex 5)) 100 in
  cs_function_containers s1 !! "c1"%string = Some (terminated_of (csm_ex 5)) ∧
  cs_executor_states r.1 = cs_executor_states idle_scheduler_ex.
Proof.
  split; [reflexivity|].
  pose proof (reap_restore_roundtrip idle_scheduler_ex "c1" (csm_ex 5) claimed_esm_ex host_ex 100 idle_scheduler_ex_wf
    eq_refl eq_refl eq_refl eq_refl eq_refl) as H.
  destruct (restore_reaped_container _ _ _) as [s2 u]. apply H.
  - destruct (add_container_ledger host_ex esm_ex (ctr_ex "c1" cres_ex) esm_ex_ledger) as [Hl _];
      [repeat split; vm_compute; congruence|]. apply Hl. reflexivity.
  - apply (bool_decide_eq_true_1 ("c1"%string ∈ esm_function_container_ids claimed_esm_ex)). vm_compute. reflexivity.
  - reflexivity.
Defined.

Definition cpu_ctr_ex : Container := ctr_ex "c2" (MkContainerResources 1000 1024 1024 None).
Definition creation_ex :=
  @create_container canonical_order one_executor_ex "ns" "app" None
    (function_resources_of (ctr_resources cpu_ctr_ex)) cpu_ctr_ex CT_Sandbox ∅ (2 ^ 31) 7.
Lemma create_container_sound_witness : is_ok creation_ex.2 = true ∧ scheduler_wf creation_ex.1.1.
Proof.
  pose proof (@create_container_sound canonical_order one_executor_ex "ns" "app" None cpu_ctr_ex CT_Sandbox ∅ (2 ^ 31) 7
    one_executor_scheduler_wf (cache_sound_empty _) ltac:(vm_compute; discriminate)) as H.
  fold creation_ex in H. destruct creation_ex as [[s' cache'] r]. destruct H as (Hw & _ & o & -> & _).
  split; [reflexivity|exact Hw].
Defined.

(** A function with several GPU configurations can be placed on an executor
    by its second configuration while its container is built with the first: the
    registration then fails, the executor has disappeared from the free-memory
    index, and the container that was never created keeps a claim on it. *)
Theorem multi_gpu_creation_fails :
  let f := fn_ex "fn" (MkFunctionResources 1000 1024 1024 [MkGPU 1 "A100"; MkGPU 1 "H100"]) [] in
  let r := @create_container_for_function canonical_order one_executor_ex "ns" "app" "v1" f AppActive ∅ "c9" (2 ^ 31) 7 in
  r.2 = Err (ResourcesUnavailable (NotEnoughGpu (MkGPU 2 "H100") (MkGPU 1 "A100"))) ∧
  cs_executors_by_free_memory one_executor_ex ≠ ∅ ∧
  elements (cs_executors_by_free_memory r.1.1) = [] ∧
  (λ st, esm_resource_claims st !! "c9"%string) <$> cs_executor_states r.1.1 !! "e1"%string =
    Some (Some (MkContainerResources 1000 1024 1024 (Some (MkGPU 1 "A100")))).
Proof.
  intros f r. split; [vm_compute; reflexivity|]. split; [|split; vm_compute; reflexivity].
  apply (bool_decide_eq_false_1 (cs_executors_by_free_memory one_executor_ex = ∅)). vm_compute. reflexivity.
Qed.
