(* ===== verification/SchedulerUpdates.v ===== *)
(** * Requests applied to the container scheduler

    The rest of [processor/container_scheduler.rs]: deleting an application or a
    pool, merging a scheduler update into the live state, and
    [update_with_intents], the dispatch on the write requests of
    [state_store/requests.rs].  The last part is the transition system of the
    scheduler and its invariant. *)
From S2P Require Import Prelude DataModel Resources Updates Blocked SchedulerState Placement ContainerScheduler.

(** ** Definitions *)

(** An element of [containers_to_remove]. *)
Record RemovedContainer := MkRemovedContainer {
  rm_pool_key : option ContainerPoolKey;
  rm_uri : FunctionURI;
  rm_id : ContainerId;
  rm_was_warm : bool;
  rm_idle_since : option Instant;
}.

(** First loop of [delete_application], one container. *)
Definition mark_app_container
    (acc : gmap ContainerId ContainerServerMetadata * SchedulerUpdateRequest * list RemovedContainer)
    (p : FunctionURI * ContainerId)
    : gmap ContainerId ContainerServerMetadata * SchedulerUpdateRequest * list RemovedContainer :=
  let '(table, u, removed) := acc in
  let '(uri, cid) := p in
  match table !! cid with
  | None => acc
  | Some fc =>
      let removed' :=
        if is_terminated (csm_desired_state fc) then removed
        else removed ++ [MkRemovedContainer (pool_key_of fc) uri cid (warm fc) (csm_idle_since fc)] in
      let fc' := fc <| csm_desired_state := CS_Terminated CTR_DesiredStateRemoved |> in
      (<[cid := fc']> table, u <| su_containers ::= <[cid := fc']> |>, removed')
  end.

(** Second loop of [delete_application], one container. *)
Definition drop_removed (s : ContainerScheduler) (r : RemovedContainer) : ContainerScheduler :=
  let s1 := match rm_idle_since r with
            | Some t => s <| cs_idle_containers ::= λ x, x ∖ {[(t, rm_id r)]} |>
            | None => s
            end in
  let s2 := match rm_pool_key r with
            | Some pk =>
                let s' := s1 <| cs_containers_by_pool ::= idx_remove pk (rm_id r) |> in
                if rm_was_warm r then s' <| cs_warm_containers_by_pool ::= idx_remove pk (rm_id r) |> else s'
            | None => s1
            end in
  let s3 := s2 <| cs_containers_by_function_uri ::= idx_remove (rm_uri r) (rm_id r) |> in
  match rm_pool_key r with Some pk => mark_pool_dirty s3 pk | None => s3 end.

(** The loops of [delete_container_pool] that mark a container terminated and that
    drop its idle entry. *)
Definition mark_terminated (acc : gmap ContainerId ContainerServerMetadata * SchedulerUpdateRequest)
    (cid : ContainerId) : gmap ContainerId ContainerServerMetadata * SchedulerUpdateRequest :=
  let '(table, u) := acc in
  match table !! cid with
  | Some fc => let fc' := fc <| csm_desired_state := CS_Terminated CTR_DesiredStateRemoved |> in
               (<[cid := fc']> table, u <| su_containers ::= <[cid := fc']> |>)
  | None => (table, u)
  end.
Definition drop_idle_entry (x : gset (Instant * ContainerId)) (p : ContainerId * FunctionURI * option Instant)
    : gset (Instant * ContainerId) :=
  match p.2 with Some t => x ∖ {[(t, p.1.1)]} | None => x end.

(** The function pools of an application: [{name}|] prefixes the pool id. *)
Definition is_app_pool (namespace name : string) (key : ContainerPoolKey) : bool :=
  bool_decide (cpk_namespace key = namespace) && String.prefix (name +:+ "|") (cpk_pool_id key).
Definition remove_function_pool (s : ContainerScheduler) (key : ContainerPoolKey) : ContainerScheduler :=
  mark_pool_dirty (s <| cs_function_pools ::= delete key |>) key.

Section requests.
Context `{HO : HashOrder}.

Definition remove_app_pools (s : ContainerScheduler) (namespace name : string) : ContainerScheduler :=
  foldl remove_function_pool s
    (List.filter (is_app_pool namespace name) (map_iter (cs_function_pools s)).*1).

(** The containers [delete_application] visits, by the function index. *)
Definition app_containers (s : ContainerScheduler) (namespace name : string)
    : list (FunctionURI * ContainerId) :=
  let matching_uris :=
    List.filter (λ u, bool_decide (uri_namespace u = namespace) && bool_decide (uri_application u = name))
      (map_iter (cs_containers_by_function_uri s)).*1 in
  matching_uris ≫= λ uri,
    match cs_containers_by_function_uri s !! uri with
    | Some ids => (λ cid, (uri, cid)) <$> set_iter ids
    | None => []
    end.

(** [delete_application]. *)
Definition delete_application (s : ContainerScheduler) (namespace name : string)
    : ContainerScheduler * SchedulerUpdateRequest :=
  let '(table, u, removed) :=
    foldl mark_app_container (cs_function_containers s, empty_update, []) (app_containers s namespace name) in
  let s1 := foldl drop_removed (s <| cs_function_containers := table |>) removed in
  (remove_app_pools s1 namespace name, u).

(** The steps of [delete_container_pool]: the warm containers of the pool, the
    live ones among them with the keys to clean up, and the pool index without
    them. *)
Definition warm_ids_of (s : ContainerScheduler) (pool_key : ContainerPoolKey) : list ContainerId :=
  match cs_warm_containers_by_pool s !! pool_key with Some ids => set_iter ids | None => [] end.
Definition warm_entries (s : ContainerScheduler) (warm_ids : list ContainerId)
    : list (ContainerId * FunctionURI * option Instant) :=
  omap (λ cid,
    match cs_function_containers s !! cid with
    | Some fc => if is_terminated (csm_desired_state fc) then None
                 else Some (cid, uri_of fc, csm_idle_since fc)
    | None => None
    end) warm_ids.
Definition drop_pool_members (pool_key : ContainerPoolKey) (warm_ids : list ContainerId)
    (m : gmap ContainerPoolKey (gset ContainerId)) : gmap ContainerPoolKey (gset ContainerId) :=
  match m !! pool_key with
  | Some ids => let ids' := foldl (λ x cid, x ∖ {[cid]}) ids warm_ids in
                if bool_decide (ids' = ∅) then delete pool_key m else <[pool_key := ids']> m
  | None => m
  end.

(** [delete_container_pool]. *)
Definition delete_container_pool (s : ContainerScheduler) (namespace : string) (pool_id : ContainerPoolId)
    : ContainerScheduler * SchedulerUpdateRequest :=
  let pool_key := MkContainerPoolKey namespace pool_id in
  let warm_ids := warm_ids_of s pool_key in
  let fn_uris := warm_entries s warm_ids in
  let '(table, u) := foldl mark_terminated (cs_function_containers s, empty_update) fn_uris.*1.*1 in
  let s1 := s <| cs_function_containers := table |> in
  let s2 := s1 <| cs_idle_containers ::= λ x, foldl drop_idle_entry x fn_uris |> in
  let s3 := s2 <| cs_warm_containers_by_pool ::= delete pool_key |> in
  let s4 := s3 <| cs_containers_by_pool ::= drop_pool_members pool_key warm_ids |> in
  let s5 := s4 <| cs_containers_by_function_uri ::= λ m,
                    foldl (λ m p, idx_remove p.1.2 p.1.1 m) m fn_uris |> in
  (mark_pool_dirty s5 pool_key, u).

(** The body of the merge loop of [update_scheduler_update], one container of the
    old executor state. *)
Definition being_terminated (u : SchedulerUpdateRequest) (cid : ContainerId) : bool :=
  is_some_and (λ c, is_terminated (csm_desired_state c)) (su_containers u !! cid).
Definition merge_container (u : SchedulerUpdateRequest) (old : ExecutorServerMetadata)
    (acc : ExecutorServerMetadata * list ContainerId) (cid : ContainerId)
    : ExecutorServerMetadata * list ContainerId :=
  let '(merged, dropped) := acc in
  if bool_decide (cid ∈ esm_function_container_ids merged) then acc
  else if being_terminated u cid then (merged, dropped ++ [cid])
  else
    let m1 := merged <| esm_function_container_ids ::= λ x, {[cid]} ∪ x |> in
    match esm_resource_claims old !! cid with
    | Some claim =>
        if bool_decide (esm_resource_claims m1 !! cid = None)
        then (m1 <| esm_resource_claims ::= <[cid := claim]> |>
                 <| esm_free_resources ::= λ h, force_consume_fe_resources h claim |>, dropped)
        else (m1, dropped)
    | None => (m1, dropped)
    end.
Definition merge_executor_state (u : SchedulerUpdateRequest) (old : option ExecutorServerMetadata)
    (new : ExecutorServerMetadata) (dropped : list ContainerId) : ExecutorServerMetadata * list ContainerId :=
  match old with
  | Some old => foldl (merge_container u old) (new, dropped) (set_iter (esm_function_container_ids old))
  | None => (new, dropped)
  end.

(** Cleaning up one removed executor. *)
Definition remove_executor (s : ContainerScheduler) (id : ExecutorId) : ContainerScheduler :=
  let s1 := match cs_executor_states s !! id with
            | Some old => foldl remove_container_from_indices s (set_iter (esm_function_container_ids old))
            | None => s
            end in
  remove_executor_state s1 id.

(** [update_scheduler_update]. *)
Definition update_scheduler_update (s : ContainerScheduler) (u : SchedulerUpdateRequest)
    : ContainerScheduler :=
  let '(s1, dropped) := foldl (λ '(s, dropped) '(id, new),
    let '(merged, dropped') := merge_executor_state u (cs_executor_states s !! id) new dropped in
    (set_executor_state s id merged, dropped')) (s, []) (map_iter (su_updated_executor_states u)) in
  let s2 := foldl (λ s '(cid, meta),
    if bool_decide (cid ∈ dropped) then s else update_container_indices s cid meta)
    s1 (map_iter (su_containers u)) in
  let s3 := foldl remove_container_from_indices s2 dropped in
  let s4 := foldl remove_executor s3 (su_remove_executors u) in
  s4 <| cs_blocked_pools ::= λ b, b ∪ su_newly_blocked_pools u |>.

(** [update_with_intents]; the requests it does not name leave the scheduler alone. *)
Definition update_with_intents (s : ContainerScheduler) (request : RequestPayload)
    : ContainerScheduler * SchedulerUpdateRequest :=
  match request with
  | RP_UpsertExecutor e _ _ _ => (upsert_executor s e, empty_update)
  | RP_DeleteApplicationRequest ns name =>
      let '(s', u) := delete_application s ns name in (s', extend empty_update u)
  | RP_SchedulerUpdate u => (update_scheduler_update s u, empty_update)
  | RP_DeregisterExecutor id _ => (deregister_executor s id, empty_update)
  | RP_CreateContainerPool p | RP_UpdateContainerPool p =>
      (mark_pool_dirty (insert_pool s p) (pool_key_of_pool p), empty_update)
  | RP_TombstoneContainerPool ns pid =>
      let key := MkContainerPoolKey ns pid in
      (mark_pool_dirty (s <| cs_function_pools ::= delete key |> <| cs_sandbox_pools ::= delete key |>) key,
       empty_update)
  | RP_DeleteContainerPool ns pid =>
      let '(s', u) := delete_container_pool s ns pid in (s', extend empty_update u)
  | RP_CreateOrUpdateApplication ns app _ pools =>
      if bool_decide (pools = []) then (s, empty_update)
      else
        let s1 := remove_app_pools s ns (app_name app) in
        (foldl (λ s p, mark_pool_dirty (s <| cs_function_pools ::= <[pool_key_of_pool p := p]> |>)
                         (pool_key_of_pool p)) s1 pools, empty_update)
  | _ => (s, empty_update)
  end.
End requests.

(** ** Taking many containers out of the indexes at once *)

Section requests_wf.
Context `{II : IdleIndex}.

Lemma bulk_unindexed_wf s s' (l : list ContainerId) :
  indices_wf s → maps_wf s' →
  (∀ c, c ∉ l → cs_function_containers s' !! c = cs_function_containers s !! c) →
  (∀ c m, c ∈ l → cs_function_containers s' !! c = Some m → live m = false) →
  (∀ c k, c ∈ idx_get (cs_containers_by_function_uri s') k ↔ c ∈ idx_get (cs_containers_by_function_uri s) k ∧ c ∉ l) →
  (∀ c k, c ∈ idx_get (cs_containers_by_pool s') k ↔ c ∈ idx_get (cs_containers_by_pool s) k ∧ c ∉ l) →
  (∀ c k, c ∈ idx_get (cs_warm_containers_by_pool s') k ↔ c ∈ idx_get (cs_warm_containers_by_pool s) k ∧ c ∉ l) →
  (∀ c t, c ∉ l → (t, c) ∈ cs_idle_containers s' ↔ (t, c) ∈ cs_idle_containers s) →
  (idle_exact = true → ∀ c t, c ∈ l → (t, c) ∉ cs_idle_containers s') →
  indices_wf s'.
Proof.
  intros [_ Hok] Hm Hsame Hdead Hu Hp Hw Hi Hx. split; [done|]. intros c. unfold ok_at.
  setoid_rewrite Hu. setoid_rewrite Hp. setoid_rewrite Hw.
  destruct (decide (c ∈ l)) as [Hin|Hin].
  - assert (Hd : ∀ P : ContainerServerMetadata → Prop,
      ¬ from_option (λ m, live m = true ∧ P m) False (cs_function_containers s' !! c)).
    { intros P. destruct (cs_function_containers s' !! c) as [m|] eqn:E; simpl; [|tauto].
      rewrite (Hdead c m Hin E). by intros [? _]. }
    split_and!; intros k; [split; [by intros [_ ?]|by intros Hk%Hd]..|].
    split; [by intros Hk%Hd|]. intros He Hk. by destruct (Hx He c k Hin).
  - rewrite (Hsame c Hin). destruct (Hok c) as (H1 & H2 & H3 & H4).
    split_and!; intros k; [rewrite H1|rewrite H2|rewrite H3|rewrite (Hi c k Hin)]; [tauto..|apply H4].
Qed.

(** ** Deleting an application *)

(** What the second loop leaves, index by index. *)
Lemma drop_removed_fields s r :
  cs_function_containers (drop_removed s r) = cs_function_containers s ∧
  cs_containers_by_function_uri (drop_removed s r) = idx_remove (rm_uri r) (rm_id r) (cs_containers_by_function_uri s) ∧
  cs_containers_by_pool (drop_removed s r) =
    match rm_pool_key r with Some pk => idx_remove pk (rm_id r) (cs_containers_by_pool s) | None => cs_containers_by_pool s end ∧
  cs_warm_containers_by_pool (drop_removed s r) =
    match rm_pool_key r with
    | Some pk => if rm_was_warm r then idx_remove pk (rm_id r) (cs_warm_containers_by_pool s) else cs_warm_containers_by_pool s
    | None => cs_warm_containers_by_pool s end ∧
  cs_idle_containers (drop_removed s r) =
    match rm_idle_since r with Some t => cs_idle_containers s ∖ {[(t, rm_id r)]} | None => cs_idle_containers s end ∧
  frame_view (drop_removed s r) = frame_view s.
Proof.
  unfold drop_removed. destruct (rm_idle_since r), (rm_pool_key r), (rm_was_warm r);
    repeat (apply conj; [exact eq_refl|]); exact eq_refl.
Qed.

Lemma forall_not_cons {A} (P : A → Prop) x l :
  (∀ r, r ∈ x :: l → ¬ P r) ↔ ¬ P x ∧ ∀ r, r ∈ l → ¬ P r.
Proof. setoid_rewrite elem_of_cons. naive_solver. Qed.

Lemma foldl_drop_removed_spec rs : ∀ s,
  let s' := foldl drop_removed s rs in
  (maps_wf s → maps_wf s') ∧ cs_function_containers s' = cs_function_containers s ∧ frame_view s' = frame_view s ∧
  (∀ c k, c ∈ idx_get (cs_containers_by_function_uri s') k ↔
     c ∈ idx_get (cs_containers_by_function_uri s) k ∧ ∀ r, r ∈ rs → ¬ (c = rm_id r ∧ rm_uri r = k)) ∧
  (∀ c k, c ∈ idx_get (cs_containers_by_pool s') k ↔
     c ∈ idx_get (cs_containers_by_pool s) k ∧ ∀ r, r ∈ rs → ¬ (c = rm_id r ∧ rm_pool_key r = Some k)) ∧
  (∀ c k, c ∈ idx_get (cs_warm_containers_by_pool s') k ↔
     c ∈ idx_get (cs_warm_containers_by_pool s) k ∧
     ∀ r, r ∈ rs → ¬ (c = rm_id r ∧ rm_pool_key r = Some k ∧ rm_was_warm r = true)) ∧
  (∀ c t, (t, c) ∈ cs_idle_containers s' ↔
     (t, c) ∈ cs_idle_containers s ∧ ∀ r, r ∈ rs → ¬ (c = rm_id r ∧ rm_idle_since r = Some t)).
Proof.
  induction rs as [|r rs IH]; intros s; simpl.
  { split_and!; [done..| | | |]; intros; split; try tauto; intros H; (split; [done|]);
      intros r Hr; by apply elem_of_nil in Hr. }
  destruct (drop_removed_fields s r) as (F1 & F2 & F3 & F4 & F5 & F6).
  destruct (IH (drop_removed s r)) as (G1 & G2 & G3 & G4 & G5 & G6 & G7). rewrite F1 in G2. rewrite F6 in G3.
  split_and!; [|done|done|..].
  - intros (W1 & W2 & W3). apply G1. unfold maps_wf. rewrite F2, F3, F4.
    destruct (rm_pool_key r), (rm_was_warm r); auto with indexify.
  - intros c k. rewrite G4, F2, forall_not_cons. clear. autorewrite with idx. naive_solver.
  - intros c k. rewrite G5, F3, forall_not_cons. clear.
    destruct (rm_pool_key r); autorewrite with idx; naive_solver.
  - intros c k. rewrite G6, F4, forall_not_cons. clear.
    destruct (rm_pool_key r), (rm_was_warm r); autorewrite with idx; naive_solver.
  - intros c t. rewrite G7, F5, forall_not_cons. clear.
    destruct (rm_idle_since r); rewrite ?elem_of_difference, ?elem_of_singleton; naive_solver.
Qed.

Definition removed_of (cid : ContainerId) (fc : ContainerServerMetadata) : RemovedContainer :=
  MkRemovedContainer (pool_key_of fc) (uri_of fc) cid (warm fc) (csm_idle_since fc).

(** What the first loop leaves, for a list of indexed containers. *)
Lemma mark_app_containers_spec (table : gmap ContainerId ContainerServerMetadata) u0 l :
  (∀ uri cid, (uri, cid) ∈ l → ∃ fc, table !! cid = Some fc ∧ live fc = true ∧ uri_of fc = uri) →
  let '(table', u, removed) := foldl mark_app_container (table, u0, []) l in
  (∀ c, table' !! c = if decide (c ∈ l.*2) then terminated_of <$> table !! c else table !! c) ∧
  (∀ c, su_containers u !! c = if decide (c ∈ l.*2) then terminated_of <$> table !! c else su_containers u0 !! c) ∧
  (∀ r, r ∈ removed ↔ ∃ cid fc, cid ∈ l.*2 ∧ table !! cid = Some fc ∧ r = removed_of cid fc).
Proof.
  intros Hl. set (P := λ (pre : list (FunctionURI * ContainerId))
    (acc : gmap ContainerId ContainerServerMetadata * SchedulerUpdateRequest * list RemovedContainer),
    (∀ c, acc.1.1 !! c = if decide (c ∈ pre.*2) then terminated_of <$> table !! c else table !! c) ∧
    (∀ c, su_containers acc.1.2 !! c = if decide (c ∈ pre.*2) then terminated_of <$> table !! c else su_containers u0 !! c) ∧
    (∀ r, r ∈ acc.2 ↔ ∃ cid fc, cid ∈ pre.*2 ∧ table !! cid = Some fc ∧ r = removed_of cid fc)).
  assert (HP : P l (foldl mark_app_container (table, u0, []) l)).
  { apply (foldl_ind_prefix P).
    { split_and!; [done..|]. intros r. simpl. split; [intros H; by apply elem_of_nil in H|].
      intros (cid & fc & H & _). by apply elem_of_nil in H. }
    intros pre [uri cid] [[tb u] rm] [post Hpost] (H1 & H2 & H3). simpl in H1, H2, H3.
    destruct (Hl uri cid) as (fc & Efc & Hlive & Huri); [rewrite Hpost, elem_of_app; right; left|].
    unfold P, mark_app_container. rewrite fmap_app. simpl. specialize (H1 cid) as H1c. rewrite Efc in H1c.
    assert (Hrm : ∀ r, (∃ c f, c ∈ pre.*2 ++ [cid] ∧ table !! c = Some f ∧ r = removed_of c f) ↔
      r ∈ rm ∨ r = removed_of cid fc).
    { intros r. rewrite H3. setoid_rewrite elem_of_app. setoid_rewrite list_elem_of_singleton. naive_solver. }
    assert (Hgo : ∀ (a b : option ContainerServerMetadata) c, a = (if decide (c ∈ pre.*2) then terminated_of <$> table !! c else b) →
      (if decide (cid = c) then Some (terminated_of fc) else a) =
      if decide (c ∈ pre.*2 ++ [cid]) then terminated_of <$> table !! c else b).
    { intros a b c ->. destruct (decide (cid = c)) as [<-|Hne].
      - rewrite decide_True by (rewrite elem_of_app, list_elem_of_singleton; by right). by rewrite Efc.
      - destruct (decide (c ∈ pre.*2)) as [Hin|Hin].
        + by rewrite decide_True by (rewrite elem_of_app; by left).
        + rewrite decide_False; [done|]. rewrite elem_of_app, list_elem_of_singleton. naive_solver. }
    destruct (decide (cid ∈ pre.*2)) as [Hin|Hin]; rewrite H1c; simpl.
    - split_and!; [intros c; rewrite lookup_insert; by apply Hgo|intros c; rewrite lookup_insert; by apply Hgo|].
      intros r. rewrite Hrm. split; [by left|]. intros [?| ->]; [done|]. apply H3. eauto.
    - unfold live in Hlive. apply negb_true_iff in Hlive as ->. simpl.
      split_and!; [intros c; rewrite lookup_insert; by apply Hgo|intros c; rewrite lookup_insert; by apply Hgo|].
      intros r. rewrite Hrm, elem_of_app, list_elem_of_singleton. unfold removed_of. by rewrite Huri. }
  by destruct (foldl mark_app_container (table, u0, []) l) as [[table' u] removed].
Qed.

Section delete.
Context `{HO : HashOrder}.

Lemma elem_of_app_containers s ns name uri cid :
  (uri, cid) ∈ app_containers s ns name ↔
    uri_namespace uri = ns ∧ uri_application uri = name ∧ cid ∈ idx_get (cs_containers_by_function_uri s) uri.
Proof.
  unfold app_containers. rewrite list_elem_of_bind. split.
  - intros (u & Hin & Hu). apply list_elem_of_In, filter_In in Hu as [_ Hb].
    apply andb_true_iff in Hb as [H1%bool_decide_eq_true H2%bool_decide_eq_true].
    unfold idx_get. destruct (cs_containers_by_function_uri s !! u) as [ids|] eqn:E; [|by apply elem_of_nil in Hin].
    apply list_elem_of_fmap in Hin as (c & [= -> ->] & Hc). rewrite E. simpl. by rewrite <-elem_of_set_iter.
  - intros (H1 & H2 & Hin). unfold idx_get in Hin.
    destruct (cs_containers_by_function_uri s !! uri) as [ids|] eqn:E; [|set_solver]. simpl in Hin.
    exists uri. rewrite E. split.
    + apply list_elem_of_fmap. exists cid. by rewrite elem_of_set_iter.
    + apply list_elem_of_In, filter_In. rewrite !bool_decide_eq_true_2 by done. split; [|done].
      apply list_elem_of_In, list_elem_of_fmap. exists (uri, ids). by rewrite elem_of_map_iter.
Qed.

Lemma remove_app_pools_view s ns name : wf_view (remove_app_pools s ns name) = wf_view s.
Proof. unfold remove_app_pools. by apply foldl_keeps. Qed.
Lemma remove_app_pools_lookup s ns name pk :
  cs_function_pools (remove_app_pools s ns name) !! pk =
    if is_app_pool ns name pk then None else cs_function_pools s !! pk.
Proof.
  unfold remove_app_pools.
  rewrite (foldl_proj cs_function_pools _ (λ m k, delete k m)) by done.
  assert (Hdel : ∀ l (m : gmap ContainerPoolKey ContainerPool),
    foldl (λ m k, delete k m) m l !! pk = if decide (pk ∈ l) then None else m !! pk).
  { induction l as [|k l IH]; intros m; simpl; [done|]. rewrite IH, lookup_delete.
    destruct (decide (pk ∈ l)), (decide (k = pk)), (decide (pk ∈ k :: l)); set_solver. }
  rewrite Hdel. destruct (is_app_pool ns name pk) eqn:Eb.
  - destruct (cs_function_pools s !! pk) as [p|] eqn:Ep; [|by case_decide]. rewrite decide_True; [done|].
    apply list_elem_of_In, filter_In. split; [|done]. apply list_elem_of_In, list_elem_of_fmap.
    exists (pk, p). by rewrite elem_of_map_iter.
  - rewrite decide_False; [done|]. rewrite list_elem_of_In, filter_In. intros [_ ?]. congruence.
Qed.

(** Whether [delete_application] is about the container. *)
Definition in_app (ns name : string) (fc : ContainerServerMetadata) : bool :=
  bool_decide (uri_namespace (uri_of fc) = ns) && bool_decide (uri_application (uri_of fc) = name).

Lemma app_containers_live s ns name :
  indices_wf s →
  (∀ uri cid, (uri, cid) ∈ app_containers s ns name →
     ∃ fc, cs_function_containers s !! cid = Some fc ∧ live fc = true ∧ uri_of fc = uri) ∧
  (∀ cid, cid ∈ (app_containers s ns name).*2 ↔
     ∃ fc, cs_function_containers s !! cid = Some fc ∧ live fc && in_app ns name fc = true).
Proof.
  intros [_ Hok]. split.
  - intros uri cid. rewrite elem_of_app_containers. intros (_ & _ & Hin). apply (Hok cid) in Hin.
    destruct (cs_function_containers s !! cid) as [fc|]; [|done]. simpl in Hin. naive_solver.
  - intros cid. rewrite list_elem_of_fmap. unfold in_app. split.
    + intros ([uri c] & -> & (H1 & H2 & Hin)%elem_of_app_containers). cbn [snd]. apply (Hok c) in Hin.
      destruct (cs_function_containers s !! c) as [fc|]; [|done]. simpl in Hin. destruct Hin as [Hl Hu].
      exists fc. split; [done|]. rewrite Hl, Hu, !bool_decide_eq_true_2 by done. done.
    + intros (fc & E & Hb). apply andb_true_iff in Hb as [Hl [H1%bool_decide_eq_true H2%bool_decide_eq_true]%andb_true_iff].
      exists (uri_of fc, cid). split; [done|]. apply elem_of_app_containers. split_and!; [done..|].
      apply (Hok cid). by rewrite E.
Qed.

(** An indexed container is hit by the second loop exactly when it is listed. *)
Lemma removed_hit (table : gmap ContainerId ContainerServerMetadata) (l : list ContainerId) (rm : list RemovedContainer) c
    (Q : RemovedContainer → Prop) (R : ContainerServerMetadata → Prop) :
  (∀ r, r ∈ rm ↔ ∃ cid fc, cid ∈ l ∧ table !! cid = Some fc ∧ r = removed_of cid fc) →
  (∀ fc, R fc → Q (removed_of c fc)) → from_option R False (table !! c) →
  (∀ r, r ∈ rm → ¬ (c = rm_id r ∧ Q r)) ↔ c ∉ l.
Proof.
  intros Hr HQ Hc. destruct (table !! c) as [fc|] eqn:E; [|done]. split.
  - intros Hno Hin. apply (Hno (removed_of c fc)); [apply Hr; eauto|]. by split; [|apply HQ].
  - intros Hnin r Hin [-> _]. apply Hr in Hin as (cid & fc' & Hin & _ & ->). by apply Hnin.
Qed.

Lemma drop_removed_all_wf s table (l : list ContainerId) (rm : list RemovedContainer) :
  indices_wf s →
  (∀ c, table !! c = if decide (c ∈ l) then terminated_of <$> cs_function_containers s !! c
                     else cs_function_containers s !! c) →
  (∀ r, r ∈ rm ↔ ∃ cid fc, cid ∈ l ∧ cs_function_containers s !! cid = Some fc ∧ r = removed_of cid fc) →
  indices_wf (foldl drop_removed (s <| cs_function_containers := table |>) rm).
Proof.
  intros Hs Ht Hr. set (s1 := s <| cs_function_containers := table |>).
  destruct (foldl_drop_removed_spec rm s1) as (G1 & G2 & _ & G4 & G5 & G6 & G7).
  change (cs_function_containers (foldl drop_removed s1 rm) = table) in G2. pose proof Hs as [Hmaps Hok].
  apply (bulk_unindexed_wf s _ l Hs); [by apply G1|intros c; rewrite G2, Ht; by case_decide| |..].
  - intros c m Hc. rewrite G2, Ht, decide_True by done. destruct (cs_function_containers s !! c); [|done].
    by intros [= <-].
  - intros c k. rewrite G4. apply and_proper_l. intros Hc. apply (Hok c) in Hc.
    by apply (removed_hit _ l rm c (λ r, rm_uri r = k) _ Hr) in Hc; [apply Hc|intros fc [_ ?]].
  - intros c k. rewrite G5. apply and_proper_l. intros Hc. apply (Hok c) in Hc.
    by apply (removed_hit _ l rm c (λ r, rm_pool_key r = Some k) _ Hr) in Hc; [apply Hc|intros fc [_ ?]].
  - intros c k. rewrite G6. apply and_proper_l. intros Hc. apply (Hok c) in Hc.
    by apply (removed_hit _ l rm c (λ r, rm_pool_key r = Some k ∧ rm_was_warm r = true) _ Hr) in Hc; [apply Hc|intros fc [_ ?]].
  - intros c t Hc. rewrite G7. split; [by intros [? _]|]. intros Hin. split; [done|]. intros r Hin' [-> _].
    apply Hr in Hin' as (cid & fc & Hl & _ & ->). by apply Hc.
  - intros He c t Hin Hc. rewrite G7 in Hc. destruct Hc as [Hc Hno]. apply (Hok c) in Hc; [|done].
    apply (removed_hit _ l rm c (λ r, rm_idle_since r = Some t) _ Hr) in Hc; [by apply Hc in Hno|intros fc (_ & _ & ?); done].
Qed.

Lemma delete_application_main s ns name :
  scheduler_wf s →
  let '(s', u) := delete_application s ns name in
  scheduler_wf s' ∧
  (∀ cid, cs_function_containers s' !! cid =
     (λ fc, if live fc && in_app ns name fc then terminated_of fc else fc) <$> cs_function_containers s !! cid) ∧
  (∀ cid m, su_containers u !! cid = Some m ↔
     ∃ fc, cs_function_containers s !! cid = Some fc ∧ live fc && in_app ns name fc = true ∧ m = terminated_of fc) ∧
  (∀ pk, cs_function_pools s' !! pk = if is_app_pool ns name pk then None else cs_function_pools s !! pk).
Proof.
  intros Hs. destruct (app_containers_live s ns name (wf_indices s Hs)) as [Hlive Hmem].
  unfold delete_application. set (l := app_containers s ns name) in *. clearbody l.
  pose proof (mark_app_containers_spec (cs_function_containers s) empty_update l Hlive) as Hmark.
  destruct (foldl mark_app_container _ l) as [[table u] rm]. destruct Hmark as (Ht & Hu & Hr).
  pose proof (drop_removed_all_wf s table l.*2 rm (wf_indices s Hs) Ht Hr) as Hi.
  destruct (foldl_drop_removed_spec rm (s <| cs_function_containers := table |>)) as (_ & G2 & G3 & _).
  set (s2 := foldl drop_removed _ rm) in *. clearbody s2.
  change (cs_function_containers s2 = table) in G2.
  assert (Htab : ∀ cid, cs_function_containers s2 !! cid =
    (λ fc, if live fc && in_app ns name fc then terminated_of fc else fc) <$> cs_function_containers s !! cid).
  { intros cid. rewrite G2, Ht. specialize (Hmem cid). case_decide as Hd.
    - apply Hmem in Hd as (fc & -> & Hb). simpl. by rewrite Hb.
    - destruct (cs_function_containers s !! cid) as [fc|] eqn:E; [|done]. simpl.
      destruct (live fc && in_app ns name fc) eqn:Hb; [|done]. destruct Hd. apply Hmem. eauto. }
  pose proof (remove_app_pools_view s2 ns name) as Hv. split_and!.
  - apply (scheduler_wf_view s2); [done|]. split; [done| | |].
    + by apply (classes_wf_view s); [exact (eq_sym (f_equal (λ v, v.1.1.1.1) G3))|apply Hs].
    + by apply (memory_index_wf_view s); [exact (eq_sym (f_equal (λ v, v.1.1.1.2) G3))|apply Hs].
    + intros uri rl Hrl. rewrite (f_equal (λ v, v.1.1.2) G3 : cs_reaped_containers s2 = cs_reaped_containers s) in Hrl.
      destruct (wf_reaped s Hs uri rl Hrl) as [Hnd Hin].
      split; [done|]. intros c m Hc. rewrite Htab. destruct (cs_function_containers s !! c) as [fc|] eqn:E; [|done].
      destruct (Hin c fc Hc E) as [Hd Hur]. simpl. rewrite Hd. by intros [= <-].
  - intros cid. rewrite <-Htab. by rewrite (f_equal (λ v, v.1.1.1.1.1.1.1) Hv : cs_function_containers _ = _).
  - intros cid m. rewrite Hu. specialize (Hmem cid). case_decide as Hd.
    + apply Hmem in Hd as (fc & -> & Hb). simpl. naive_solver.
    + split; [done|]. intros (fc & E & Hb & _). destruct Hd. apply Hmem. eauto.
  - intros pk. rewrite remove_app_pools_lookup.
    by rewrite (f_equal (λ v, v.1.2) G3 : cs_function_pools s2 = cs_function_pools s).
Qed.
End delete.

(** ** Deleting a pool *)

Lemma mark_terminated_spec l (table : gmap ContainerId ContainerServerMetadata) u0 :
  let '(table', u) := foldl mark_terminated (table, u0) l in
  (∀ c, table' !! c = if decide (c ∈ l) then terminated_of <$> table !! c else table !! c).
Proof.
  set (P := λ (pre : list ContainerId) (acc : gmap ContainerId ContainerServerMetadata * SchedulerUpdateRequest),
    ∀ c, acc.1 !! c = if decide (c ∈ pre) then terminated_of <$> table !! c else table !! c).
  assert (HP : P l (foldl mark_terminated (table, u0) l)); [|by destruct (foldl mark_terminated _ _)].
  apply (foldl_ind_prefix P); [done|].
  intros pre cid [tb u] _ H c. simpl in H. unfold mark_terminated.
  assert (Hc : tb !! cid = if decide (cid ∈ pre) then terminated_of <$> table !! cid else table !! cid) by apply H.
  assert (Hdec : c ≠ cid → (if decide (c ∈ pre ++ [cid]) then terminated_of <$> table !! c else table !! c) = tb !! c).
  { intros Hne. rewrite H. destruct (decide (c ∈ pre)) as [Hp|Hp].
    - by rewrite decide_True by (rewrite elem_of_app; by left).
    - rewrite decide_False; [done|]. rewrite elem_of_app, list_elem_of_singleton. naive_solver. }
  destruct (decide (c = cid)) as [->|Hne].
  - rewrite decide_True by (rewrite elem_of_app, list_elem_of_singleton; by right).
    destruct (tb !! cid) as [fc|] eqn:E; simpl; [rewrite lookup_insert_eq|rewrite E];
      destruct (table !! cid), (decide (cid ∈ pre)); by simplify_eq/=.
  - rewrite Hdec by done. destruct (tb !! cid); simpl; [by rewrite lookup_insert_ne|done].
Qed.

Lemma elem_of_foldl_difference (l : list ContainerId) (x : gset ContainerId) c :
  c ∈ foldl (λ x cid, x ∖ {[cid]}) x l ↔ c ∈ x ∧ c ∉ l.
Proof. revert x. induction l as [|d l IH]; intros x; simpl; [set_solver|]. rewrite IH. set_solver. Qed.

Lemma elem_of_foldl_drop_idle l x t c :
  (t, c) ∈ foldl drop_idle_entry x l ↔ (t, c) ∈ x ∧ ∀ p, p ∈ l → ¬ (p.1.1 = c ∧ p.2 = Some t).
Proof.
  revert x. induction l as [|p l IH]; intros x; simpl.
  - split; [intros ?; split; [done|]; intros p Hp; by apply elem_of_nil in Hp|by intros [? _]].
  - rewrite IH, forall_not_cons. unfold drop_idle_entry. destruct (p.2); [|naive_solver].
    rewrite elem_of_difference, elem_of_singleton. naive_solver.
Qed.
Lemma elem_of_foldl_drop_uri (l : list (ContainerId * FunctionURI * option Instant)) (m : gmap FunctionURI (gset ContainerId)) c k :
  c ∈ idx_get (foldl (λ m p, idx_remove p.1.2 p.1.1 m) m l) k ↔
    c ∈ idx_get m k ∧ ∀ p, p ∈ l → ¬ (p.1.1 = c ∧ p.1.2 = k).
Proof.
  revert m. induction l as [|p l IH]; intros m; simpl.
  - split; [intros ?; split; [done|]; intros p Hp; by apply elem_of_nil in Hp|by intros [? _]].
  - rewrite IH, forall_not_cons. autorewrite with idx. naive_solver.
Qed.

(** The containers [delete_container_pool] is about. *)
Definition warm_in_pool (key : ContainerPoolKey) (fc : ContainerServerMetadata) : bool :=
  live fc && warm fc && bool_decide (pool_key_of fc = Some key).

Section delete_pool.
Context `{HO : HashOrder}.

Lemma warm_ids_spec s key c :
  indices_wf s →
  c ∈ warm_ids_of s key ↔ ∃ fc, cs_function_containers s !! c = Some fc ∧ warm_in_pool key fc = true.
Proof.
  intros [_ Hok]. destruct (Hok c) as (_ & _ & Hw & _). specialize (Hw key).
  assert (Hin : c ∈ warm_ids_of s key ↔ c ∈ idx_get (cs_warm_containers_by_pool s) key).
  { unfold warm_ids_of, idx_get. destruct (cs_warm_containers_by_pool s !! key); simpl; [apply elem_of_set_iter|set_solver]. }
  rewrite Hin, Hw. unfold warm_in_pool. destruct (cs_function_containers s !! c) as [fc|]; simpl; [|naive_solver].
  split.
  - intros (Hl & Hk & Hwm). exists fc. by rewrite Hl, Hwm, bool_decide_eq_true_2.
  - intros (fc' & [= <-] & H). apply andb_true_iff in H as [[??]%andb_true_iff ?%bool_decide_eq_true]. done.
Qed.

Lemma warm_entries_spec s key c uri t :
  indices_wf s →
  (c, uri, t) ∈ warm_entries s (warm_ids_of s key) ↔
    ∃ fc, cs_function_containers s !! c = Some fc ∧ warm_in_pool key fc = true ∧
      uri = uri_of fc ∧ t = csm_idle_since fc.
Proof.
  intros Hs. unfold warm_entries. rewrite list_elem_of_omap. split.
  - intros (c' & Hc' & Heq). apply (warm_ids_spec s key c' Hs) in Hc' as (fc & E & Hb). rewrite E in Heq.
    destruct (is_terminated _); [done|]. injection Heq as <- <- <-. eauto.
  - intros (fc & E & Hb & -> & ->). exists c. rewrite (warm_ids_spec s key c Hs), E. split; [by eauto|].
    unfold warm_in_pool, live in Hb. by destruct (is_terminated _).
Qed.
Lemma warm_entries_ids s key c :
  indices_wf s →
  c ∈ (warm_entries s (warm_ids_of s key)).*1.*1 ↔
    ∃ fc, cs_function_containers s !! c = Some fc ∧ warm_in_pool key fc = true.
Proof.
  intros Hs. rewrite list_elem_of_fmap. setoid_rewrite list_elem_of_fmap. split.
  - intros ([c' uri] & -> & [[c2 uri2] t] & [= -> ->] & Hin). apply (warm_entries_spec s key _ _ _ Hs) in Hin. naive_solver.
  - intros (fc & E & Hb). exists (c, uri_of fc). split; [done|]. exists (c, uri_of fc, csm_idle_since fc).
    split; [done|]. apply (warm_entries_spec s key _ _ _ Hs). eauto.
Qed.

(** An indexed container is hit by the clean-up loops exactly when it is listed. *)
Lemma warm_entry_hit s key c (Q : ContainerId * FunctionURI * option Instant → Prop) fc :
  indices_wf s → cs_function_containers s !! c = Some fc → Q (c, uri_of fc, csm_idle_since fc) →
  (∀ p, p ∈ warm_entries s (warm_ids_of s key) → ¬ (p.1.1 = c ∧ Q p)) ↔
    c ∉ (warm_entries s (warm_ids_of s key)).*1.*1.
Proof.
  intros Hs E HQ. rewrite (warm_entries_ids s key c Hs). split.
  - intros Hno (fc' & E' & Hb). rewrite E in E'. injection E' as <-.
    apply (Hno (c, uri_of fc, csm_idle_since fc)); [|done]. apply (warm_entries_spec s key _ _ _ Hs). eauto.
  - intros Hno [[c' uri] t] Hin [Heq _]. simpl in Heq. subst c'. apply Hno.
    apply (warm_entries_spec s key _ _ _ Hs) in Hin. naive_solver.
Qed.

Lemma drop_pool_members_spec m key warm_ids :
  idx_wf m →
  idx_wf (drop_pool_members key warm_ids m) ∧
  ∀ c k, c ∈ idx_get (drop_pool_members key warm_ids m) k ↔ c ∈ idx_get m k ∧ ¬ (k = key ∧ c ∈ warm_ids).
Proof.
  intros Hwf. unfold drop_pool_members. destruct (m !! key) as [ids|] eqn:E; simpl.
  - pose proof (elem_of_foldl_difference warm_ids ids) as Hd. set (ids' := foldl _ ids warm_ids) in *. clearbody ids'.
    case_bool_decide as He.
    + split; [by apply idx_delete_wf|]. intros c k. rewrite elem_of_idx_delete. specialize (Hd c).
      destruct (decide (k = key)) as [->|]; [|naive_solver]. unfold idx_get. rewrite E. simpl. set_solver.
    + split.
      * intros k x. rewrite lookup_insert. case_decide; [by intros [= <-]|apply Hwf].
      * intros c k. specialize (Hd c). unfold idx_get. rewrite lookup_insert.
        case_decide as Hk; simpl; [subst k; rewrite E; simpl; rewrite Hd; naive_solver|naive_solver].
  - split; [done|]. intros c k. split; [|by intros [? _]]. intros Hc. split; [done|]. intros [-> _].
    unfold idx_get in Hc. rewrite E in Hc. set_solver.
Qed.

(** The indexes after the clean-up, for the table with the warm containers marked. *)
Lemma delete_pool_indices_wf s s' key :
  let W := warm_ids_of s key in
  let F := warm_entries s W in
  indices_wf s →
  (∀ c, cs_function_containers s' !! c = if decide (c ∈ F.*1.*1) then terminated_of <$> cs_function_containers s !! c
                                         else cs_function_containers s !! c) →
  cs_idle_containers s' = foldl drop_idle_entry (cs_idle_containers s) F →
  cs_warm_containers_by_pool s' = delete key (cs_warm_containers_by_pool s) →
  cs_containers_by_pool s' = drop_pool_members key W (cs_containers_by_pool s) →
  cs_containers_by_function_uri s' = foldl (λ m p, idx_remove p.1.2 p.1.1 m) (cs_containers_by_function_uri s) F →
  indices_wf s'.
Proof.
  intros W F Hs Ht Ei Ew Ep Eu. pose proof Hs as [(M1 & M2 & M3) Hok].
  destruct (drop_pool_members_spec (cs_containers_by_pool s) key W M2) as [Hpwf Hp].
  apply (bulk_unindexed_wf s s' F.*1.*1 Hs).
  - unfold maps_wf. rewrite Eu, Ep, Ew. split_and!; [|done|auto with indexify].
    apply (foldl_ind idx_wf); auto with indexify.
  - intros c Hc. by rewrite Ht, decide_False.
  - intros c m Hc. rewrite Ht, decide_True by done. destruct (cs_function_containers s !! c); [|done].
    by intros [= <-].
  - intros c k. rewrite Eu, elem_of_foldl_drop_uri. apply and_proper_l. intros Hc. apply (Hok c) in Hc.
    destruct (cs_function_containers s !! c) as [fc|] eqn:E; [|done]. destruct Hc as [_ Hk].
    by apply (warm_entry_hit s key c (λ p, p.1.2 = k) fc).
  - intros c k. rewrite Ep, Hp. apply and_proper_l. intros Hc. apply (Hok c) in Hc.
    unfold F, W. rewrite (warm_ids_spec s key c Hs), (warm_entries_ids s key c Hs).
    destruct (cs_function_containers s !! c) as [fc|]; [|done]. destruct Hc as [_ Hk]. split; [|tauto].
    intros Hno (fc' & [= <-] & Hb). apply Hno. split; [|by eauto].
    unfold warm_in_pool in Hb. apply andb_true_iff in Hb as [_ Hb%bool_decide_eq_true]. congruence.
  - intros c k. rewrite Ew, elem_of_idx_delete. apply and_proper_l. intros Hc. apply (Hok c) in Hc.
    unfold F, W. rewrite (warm_entries_ids s key c Hs). unfold warm_in_pool.
    destruct (cs_function_containers s !! c) as [fc|]; [|done]. destruct Hc as (Hlv & Hk & Hwm). split.
    + intros Hne (fc' & [= <-] & Hb). apply andb_true_iff in Hb as [_ Hb%bool_decide_eq_true]. congruence.
    + intros Hno ->. apply Hno. exists fc. by rewrite Hlv, Hwm, bool_decide_eq_true_2.
  - intros c t Hc. rewrite Ei, elem_of_foldl_drop_idle. split; [by intros [? _]|]. intros Hin. split; [done|].
    intros p Hp' [Hpc _]. apply Hc. rewrite <-Hpc. apply list_elem_of_fmap. exists p.1. split; [done|]. by apply list_elem_of_fmap_2.
  - intros He c t Hin Hc. rewrite Ei, elem_of_foldl_drop_idle in Hc. destruct Hc as [Hc Hno]. apply (Hok c) in Hc; [|done].
    destruct (cs_function_containers s !! c) as [fc|] eqn:E; [|done]. destruct Hc as (_ & _ & Hit).
    by apply (warm_entry_hit s key c (λ p, p.2 = Some t) fc) in Hno.
Qed.

Lemma delete_container_pool_main s ns pid :
  scheduler_wf s →
  let s' := (delete_container_pool s ns pid).1 in
  let key := MkContainerPoolKey ns pid in
  scheduler_wf s' ∧
  ∀ cid, cs_function_containers s' !! cid =
    (λ fc, if warm_in_pool key fc then terminated_of fc else fc) <$> cs_function_containers s !! cid.
Proof.
  intros Hs s' key. unfold s', delete_container_pool. fold key.
  pose proof (λ c, warm_entries_ids s key c (wf_indices s Hs)) as Hl.
  pose proof (mark_terminated_spec (warm_entries s (warm_ids_of s key)).*1.*1 (cs_function_containers s) empty_update) as Ht.
  destruct (foldl mark_terminated _ _) as [table u]. cbv zeta. cbn [fst].
  set (sf := mark_pool_dirty _ key).
  assert (Hi : indices_wf sf) by by apply (delete_pool_indices_wf s sf key (wf_indices s Hs)).
  assert (Htab : ∀ cid, cs_function_containers sf !! cid =
    (λ fc, if warm_in_pool key fc then terminated_of fc else fc) <$> cs_function_containers s !! cid).
  { intros cid. change (cs_function_containers sf) with table. rewrite Ht. specialize (Hl cid). case_decide as Hd.
    - apply Hl in Hd as (fc & -> & Hb). simpl. by rewrite Hb.
    - destruct (cs_function_containers s !! cid) as [fc|] eqn:E; [|done]. simpl.
      destruct (warm_in_pool key fc) eqn:Hb; [|done]. destruct Hd. apply Hl. eauto. }
  split; [|exact Htab].
  split; [done|by apply (classes_wf_view s); [|apply Hs]|by apply (memory_index_wf_view s); [|apply Hs]|].
  intros uri rl Hrl. destruct (wf_reaped s Hs uri rl Hrl) as [Hnd Hin].
  split; [done|]. intros c m Hc. rewrite Htab. destruct (cs_function_containers s !! c) as [fc|] eqn:E; [|done].
  destruct (Hin c fc Hc E) as [Hd Hur]. unfold warm_in_pool. simpl. rewrite Hd. by intros [= <-].
Qed.
End delete_pool.

(** ** Merging a scheduler update *)

Section merge.
Context `{HO : HashOrder}.

(** Which containers of the old state survive the merge, and with which claim. *)
Definition survives (u : SchedulerUpdateRequest) (old new : ExecutorServerMetadata) (c : ContainerId) : Prop :=
  c ∈ esm_function_container_ids old ∧ c ∉ esm_function_container_ids new ∧ being_terminated u c = false.
#[local] Instance survives_dec u old new c : Decision (survives u old new c).
Proof. unfold survives. apply _. Defined.

(** One step of the merge. *)
Lemma merge_container_step u old m dr c0 :
  let '(m', dr') := merge_container u old (m, dr) c0 in
  (∀ c, c ∈ esm_function_container_ids m' ↔
     c ∈ esm_function_container_ids m ∨ (c = c0 ∧ being_terminated u c = false)) ∧
  (∀ c, c ≠ c0 → esm_resource_claims m' !! c = esm_resource_claims m !! c) ∧
  esm_resource_claims m' !! c0 =
    (if bool_decide (c0 ∈ esm_function_container_ids m) || being_terminated u c0
     then esm_resource_claims m !! c0
     else match esm_resource_claims m !! c0 with Some r => Some r | None => esm_resource_claims old !! c0 end) ∧
  (∀ c, c ∈ dr' ↔ c ∈ dr ∨ (c = c0 ∧ c ∉ esm_function_container_ids m ∧ being_terminated u c = true)).
Proof.
  unfold merge_container. case_bool_decide as Hin; simpl.
  { split_and!; try done; intros c; (split; [by left|]); [by intros [?|[-> _]]|by intros [?|(-> & ? & _)]]. }
  destruct (being_terminated u c0) eqn:Hbt; simpl.
  { split_and!; try done; intros c.
    - split; [by left|]. intros [?|[-> ?]]; [done|congruence].
    - rewrite elem_of_app, list_elem_of_singleton. split; [intros [?| ->]; [by left|by right]|].
      intros [?|[-> _]]; [by left|by right]. }
  assert (Hids : ∀ c, c ∈ {[c0]} ∪ esm_function_container_ids m ↔
    c ∈ esm_function_container_ids m ∨ (c = c0 ∧ being_terminated u c = false)).
  { intros c. rewrite elem_of_union, elem_of_singleton.
    split; [intros [->|?]; [by right|by left]|intros [?|[-> _]]; [by right|by left]]. }
  assert (Hdr : ∀ c, c ∈ dr ↔ c ∈ dr ∨ (c = c0 ∧ c ∉ esm_function_container_ids m ∧ being_terminated u c = true)).
  { intros c. split; [by left|]. intros [?|(-> & _ & ?)]; [done|congruence]. }
  destruct (esm_resource_claims old !! c0) as [claim|]; [case_bool_decide as Hnone|];
    (split_and!; [exact Hids| | |exact Hdr]); simpl in *.
  - intros c Hne. by rewrite lookup_insert_ne.
  - by rewrite lookup_insert_eq, Hnone.
  - done.
  - by destruct (esm_resource_claims m !! c0).
  - done.
  - by destruct (esm_resource_claims m !! c0).
Qed.

Lemma merge_loop_spec u old l : ∀ m dr,
  let '(m', dr') := foldl (merge_container u old) (m, dr) l in
  (∀ c, c ∈ esm_function_container_ids m' ↔
     c ∈ esm_function_container_ids m ∨ (c ∈ l ∧ being_terminated u c = false)) ∧
  (∀ c, esm_resource_claims m' !! c =
     match esm_resource_claims m !! c with
     | Some r => Some r
     | None => if decide (c ∈ l ∧ c ∉ esm_function_container_ids m ∧ being_terminated u c = false)
               then esm_resource_claims old !! c else None
     end) ∧
  (∀ c, c ∈ dr' ↔ c ∈ dr ∨ (c ∈ l ∧ c ∉ esm_function_container_ids m ∧ being_terminated u c = true)).
Proof.
  induction l as [|c0 l IH]; intros m dr.
  { cbn [foldl]. split_and!; intros c; [rewrite elem_of_nil; tauto| |rewrite elem_of_nil; tauto].
    rewrite decide_False by (rewrite elem_of_nil; tauto). by destruct (esm_resource_claims m !! c). }
  cbn [foldl]. pose proof (merge_container_step u old m dr c0) as Hstep.
  destruct (merge_container u old (m, dr) c0) as [m1 dr1]. destruct Hstep as (S1 & S2 & S3 & S4).
  specialize (IH m1 dr1). destruct (foldl (merge_container u old) (m1, dr1) l) as [m' dr'].
  destruct IH as (I1 & I2 & I3). split_and!; intros c.
  - rewrite I1, S1, elem_of_cons. clear. tauto.
  - rewrite I2. specialize (S1 c). destruct (decide (c = c0)) as [->|Hne].
    + rewrite S3. clear -S1. case_bool_decide as Hin; simpl;
        [|destruct (being_terminated u c0) eqn:Hbt]; destruct (esm_resource_claims m !! c0); try done.
      * rewrite !decide_False; [done|tauto|tauto].
      * rewrite !decide_False; [done|intros (_ & _ & ?); congruence..].
      * rewrite (decide_True (P := c0 ∈ c0 :: l ∧ _)) by (split_and!; [left|done|done]).
        destruct (esm_resource_claims old !! c0); [done|]. by case_decide.
    + rewrite (S2 c Hne). destruct (esm_resource_claims m !! c); [done|].
      apply decide_ext. rewrite S1, elem_of_cons. clear -Hne. tauto.
  - rewrite I3, S4, elem_of_cons, S1. clear. destruct (being_terminated u c); intuition congruence.
Qed.

Lemma merge_executor_state_spec u old new dropped0 :
  let '(m, dropped) := merge_executor_state u (Some old) new dropped0 in
  (∀ c, c ∈ esm_function_container_ids m ↔ c ∈ esm_function_container_ids new ∨ survives u old new c) ∧
  (∀ c, esm_resource_claims m !! c =
     match esm_resource_claims new !! c with
     | Some r => Some r
     | None => if decide (survives u old new c) then esm_resource_claims old !! c else None
     end) ∧
  (∀ c, c ∈ dropped ↔ c ∈ dropped0 ∨
     (c ∈ esm_function_container_ids old ∧ c ∉ esm_function_container_ids new ∧ being_terminated u c = true)).
Proof.
  unfold merge_executor_state, survives.
  pose proof (merge_loop_spec u old (set_iter (esm_function_container_ids old)) new dropped0) as H.
  destruct (foldl (merge_container u old) _ _) as [m dr]. destruct H as (H1 & H2 & H3).
  split_and!; intros c.
  - rewrite H1, elem_of_set_iter. clear. destruct (decide (c ∈ esm_function_container_ids new)); tauto.
  - rewrite H2. destruct (esm_resource_claims new !! c); [done|]. apply decide_ext. by rewrite elem_of_set_iter.
  - by rewrite H3, elem_of_set_iter.
Qed.
End merge.

(** ** Applying a whole update *)

(** An update speaks of known containers under the keys they are filed under, and
    does not revive a container the reaper remembers. *)
Definition update_ok (s : ContainerScheduler) (u : SchedulerUpdateRequest) : Prop :=
  ∀ cid meta, su_containers u !! cid = Some meta → compatible s cid meta ∧ respects_reaped s cid meta.

Lemma remove_executor_state_reaped s id :
  cs_reaped_containers (remove_executor_state s id) = cs_reaped_containers s.
Proof. unfold remove_executor_state. by destruct (cs_executor_states s !! id). Qed.
Lemma remove_executor_state_sched_wf s id : scheduler_wf s → scheduler_wf (remove_executor_state s id).
Proof.
  intros [Hi Hc Hm Hr]. split.
  - by eapply indices_wf_view; [symmetry; apply remove_executor_state_view|].
  - destruct (remove_executor_state_fields s id) as (_ & _ & E). by eapply classes_wf_view; [symmetry; apply E|].
  - by apply remove_executor_state_memory_wf.
  - unfold reaped_wf. rewrite remove_executor_state_reaped.
    by rewrite (f_equal (λ v, v.1.1.1.1) (remove_executor_state_view s id) : cs_function_containers _ = _).
Qed.

Section apply.
Context `{HO : HashOrder}.

(** Applying the containers of an update one by one, some of them skipped. *)
Lemma apply_containers_wf s s0 (skip : ContainerId → bool) u :
  update_ok s u → scheduler_wf s0 →
  cs_function_containers s0 = cs_function_containers s → cs_reaped_containers s0 = cs_reaped_containers s →
  scheduler_wf (foldl (λ s '(cid, meta), if skip cid then s else update_container_indices s cid meta)
    s0 (map_iter (su_containers u))).
Proof.
  intros Hu Hs0 Et Er.
  apply (foldl_ind_prefix (λ pre a, scheduler_wf a ∧ cs_reaped_containers a = cs_reaped_containers s ∧
    ∀ c, c ∉ pre.*1 → cs_function_containers a !! c = cs_function_containers s !! c)); [by rewrite Et|].
  intros pre [cid meta] a [post Hpost] (Ha & Hra & Hsame).
  assert (Hin : (cid, meta) ∈ map_iter (su_containers u)) by (rewrite Hpost, elem_of_app; right; left).
  apply elem_of_map_iter in Hin. destruct (Hu cid meta Hin) as [Hc Hr].
  pose proof (NoDup_map_iter_fst (su_containers u)) as Hnd.
  rewrite Hpost, fmap_app in Hnd. apply NoDup_app in Hnd as (_ & Hnd & _).
  assert (Hpre : cid ∉ pre.*1) by (intros Hx; apply (Hnd cid Hx); left).
  rewrite fmap_app. destruct (skip cid).
  - split_and!; [done|done|]. intros c Hc'. apply Hsame. set_solver.
  - split_and!.
    + apply update_container_indices_sched_wf; [done| |].
      * intros old. rewrite Hsame by done. apply Hc.
      * intros uri l. rewrite Hra. apply Hr.
    + rewrite <-Hra. exact (f_equal (λ v, v.1.1.2) (update_container_indices_frame a cid meta)).
    + intros c Hc'. destruct (update_container_indices_fields a cid meta) as (-> & _).
      rewrite lookup_insert_ne by set_solver. apply Hsame. set_solver.
Qed.

Lemma apply_container_update_sched_wf s u :
  update_ok s u → scheduler_wf s → scheduler_wf (apply_container_update s u).
Proof.
  intros Hu Hs. unfold apply_container_update.
  apply (foldl_ind scheduler_wf); [|intros a id _; apply remove_executor_state_sched_wf].
  apply (foldl_ind scheduler_wf); [|intros a [id st] _; apply set_executor_state_wf].
  by apply (apply_containers_wf s s (λ _, false)).
Qed.

Lemma remove_executor_wf s id : scheduler_wf s → scheduler_wf (remove_executor s id).
Proof.
  intros Hs. unfold remove_executor. apply remove_executor_state_sched_wf.
  destruct (cs_executor_states s !! id); [|done].
  apply (foldl_ind scheduler_wf); [done|]. intros a c _. apply remove_container_from_indices_sched_wf.
Qed.

(** The merge loop only writes executor states. *)
Definition merge_states (s : ContainerScheduler) (u : SchedulerUpdateRequest) : ContainerScheduler * list ContainerId :=
  foldl (λ '(s, dropped) '(id, new),
    let '(merged, dropped') := merge_executor_state u (cs_executor_states s !! id) new dropped in
    (set_executor_state s id merged, dropped')) (s, []) (map_iter (su_updated_executor_states u)).
Lemma merge_states_wf s u :
  scheduler_wf s →
  scheduler_wf (merge_states s u).1 ∧
  cs_function_containers (merge_states s u).1 = cs_function_containers s ∧
  cs_reaped_containers (merge_states s u).1 = cs_reaped_containers s.
Proof.
  intros Hs. unfold merge_states. apply (foldl_ind (λ acc : ContainerScheduler * list ContainerId,
    scheduler_wf acc.1 ∧ cs_function_containers acc.1 = cs_function_containers s ∧
    cs_reaped_containers acc.1 = cs_reaped_containers s)); [done|].
  intros [a dr] [id new] _ (Ha & Et & Er). cbn [fst] in *.
  destruct (merge_executor_state u (cs_executor_states a !! id) new dr) as [m dr']. cbn [fst].
  by rewrite set_executor_state_table, set_executor_state_reaped; auto using set_executor_state_wf.
Qed.

Lemma update_scheduler_update_wf s u :
  update_ok s u → scheduler_wf s → scheduler_wf (update_scheduler_update s u).
Proof.
  intros Hu Hs. unfold update_scheduler_update. fold (merge_states s u).
  destruct (merge_states_wf s u Hs) as (Hs1 & Et & Er). destruct (merge_states s u) as [s1 dropped]. simpl in *.
  set (s4 := foldl remove_executor _ _). apply (scheduler_wf_view s4); [done|].
  apply (foldl_ind scheduler_wf); [|intros a id _; apply remove_executor_wf].
  apply (foldl_ind scheduler_wf); [|intros a c _; apply remove_container_from_indices_sched_wf].
  by apply (apply_containers_wf s s1 (λ cid, bool_decide (cid ∈ dropped))).
Qed.
End apply.

(** ** What the operations keep *)

Definition request_ok (s : ContainerScheduler) (r : RequestPayload) : Prop :=
  match r with
  | RP_UpsertExecutor e _ _ _ => em_tombstoned e = false
  | RP_SchedulerUpdate u => update_ok s u
  | _ => True
  end.

Section transitions.
Context `{HO : HashOrder}.

Lemma create_container_for_function_wf s ns app ver f st cache fresh rnd now :
  scheduler_wf s → scheduler_wf (create_container_for_function s ns app ver f st cache fresh rnd now).1.1.
Proof.
  intros Hs. unfold create_container_for_function. destruct st; [|done].
  pose proof (restore_reaped_container_wf s (MkFunctionURI ns app (fn_name f) ver) now Hs) as Hr.
  destruct (restore_reaped_container _ _ _) as [s1 [u|]]; simpl in *; [done|]. by apply create_container_wf.
Qed.

Lemma reap_idle_containers_wf s age now : scheduler_wf s → scheduler_wf (reap_idle_containers s age now).1.
Proof.
  intros Hs. unfold reap_idle_containers. apply forget_reaped_wf in Hs. revert Hs.
  generalize (s <| cs_reaped_containers := ∅ |>), empty_update, (∅ : gset ExecutorId).
  induction (sorted_elements (cs_idle_containers s)) as [|[t cid] todo IH]; intros a u aff Ha; simpl; [done|].
  case_bool_decide; [done|]. destruct (cs_function_containers a !! cid) as [fc|] eqn:E; [|by apply IH].
  destruct (reapable a fc) eqn:Er; [|by apply IH]. apply reapable_spec in Er as (Hl & _).
  pose proof (reap_one_wf a cid fc Ha E Hl) as Ha1. destruct (reap_one a cid fc) as [a1 tu]. by apply IH.
Qed.

Lemma upsert_executor_sched_wf s e :
  em_tombstoned e = false → scheduler_wf s → scheduler_wf (upsert_executor s e).
Proof.
  intros He Hs. destruct (upsert_executor_classes s e) as (_ & _ & _ & Ei & Em). destruct Hs as [H1 H2 H3 H4]. split.
  - by eapply indices_wf_view; [symmetry; apply Ei|].
  - by apply upsert_executor_classes_wf.
  - by eapply memory_index_wf_view; [symmetry; apply Em|].
  - unfold reaped_wf in *. rewrite (f_equal (λ v, v.1.1.1.1) Ei : cs_function_containers _ = _).
    unfold upsert_executor. by destruct (cs_executor_classes _ !! _); [case_bool_decide|].
Qed.
Lemma deregister_executor_sched_wf s id : scheduler_wf s → scheduler_wf (deregister_executor s id).
Proof.
  intros Hs. destruct (deregister_executor_fields s id) as (_ & _ & _ & _ & _ & Ei). destruct Hs as [H1 H2 H3 H4]. split.
  - by eapply indices_wf_view; [symmetry; apply Ei|].
  - by apply deregister_executor_classes_wf.
  - by apply deregister_executor_memory_wf.
  - unfold reaped_wf in *. rewrite (f_equal (λ v, v.1.1.1.1) Ei : cs_function_containers _ = _).
    unfold deregister_executor. by destruct (cs_executor_states _ !! _), (cs_executor_classes _ !! _).
Qed.

Lemma update_with_intents_wf s r :
  request_ok s r → scheduler_wf s → scheduler_wf (update_with_intents s r).1.
Proof.
  intros Hr Hs. destruct r; cbn [request_ok update_with_intents] in Hr |- *; try done.
  - case_bool_decide; [done|]. apply (scheduler_wf_view s); [|done]. cbn [fst].
    rewrite (foldl_keeps wf_view); [by rewrite remove_app_pools_view|done].
  - by apply upsert_executor_sched_wf.
  - by apply deregister_executor_sched_wf.
  - apply (scheduler_wf_view s); [|done]. unfold insert_pool. by destruct (is_function_pool _).
  - apply (scheduler_wf_view s); [|done]. unfold insert_pool. by destruct (is_function_pool _).
  - by apply update_scheduler_update_wf.
  - pose proof (delete_application_main s namespace name Hs) as H. destruct (delete_application s namespace name). apply H.
  - by apply (scheduler_wf_view s).
  - pose proof (delete_container_pool_main s namespace pool_id Hs) as H.
    destruct (delete_container_pool s namespace pool_id). apply H.
Qed.

Lemma new_scheduler_wf fn_pools sb_pools : scheduler_wf (new_scheduler fn_pools sb_pools).
Proof.
  apply (scheduler_wf_view empty_scheduler); [done|].
  split; [apply empty_scheduler_indices_wf|apply empty_scheduler_classes_wf|apply empty_scheduler_memory_wf|].
  intros uri l Hl. done.
Qed.
End transitions.
End requests_wf.

(** ** What the requests guarantee *)

Section request_claims.
Context `{HO : HashOrder}.

(** Deleting an application marks every live container of the application
    terminated and no other container, reports exactly the marked ones to the
    executors, and leaves no function pool whose id starts with the application's
    name, while every other pool and the consistency of all indexes are kept. *)
Theorem delete_application_spec s ns name :
  scheduler_wf s →
  let '(s', u) := delete_application s ns name in
  scheduler_wf s' ∧
  (∀ cid, cs_function_containers s' !! cid =
     (λ fc, if live fc && in_app ns name fc then terminated_of fc else fc) <$> cs_function_containers s !! cid) ∧
  (∀ cid m, su_containers u !! cid = Some m ↔
     ∃ fc, cs_function_containers s !! cid = Some fc ∧ live fc && in_app ns name fc = true ∧ m = terminated_of fc) ∧
  (∀ pk, cs_function_pools s' !! pk = if is_app_pool ns name pk then None else cs_function_pools s !! pk).
Proof. apply delete_application_main. Qed.

(** Deleting a pool terminates its live unclaimed containers and nothing
    else: containers already claimed by a sandbox keep running, and every index
    stays consistent. *)
Theorem delete_container_pool_spec s ns pid :
  scheduler_wf s →
  let s' := (delete_container_pool s ns pid).1 in
  let key := MkContainerPoolKey ns pid in
  scheduler_wf s' ∧
  (∀ cid fc, cs_function_containers s !! cid = Some fc →
     cs_function_containers s' !! cid = Some (if warm_in_pool key fc then terminated_of fc else fc)) ∧
  idx_get (cs_warm_containers_by_pool s') key = ∅.
Proof.
  intros Hs s' key. destruct (delete_container_pool_main s ns pid Hs) as [Hs' Ht]. fold s' key in Hs', Ht.
  split_and!; [done|intros cid fc E; by rewrite Ht, E|]. apply set_eq. intros c. split; [|set_solver].
  intros Hc. destruct (wf_indices s' Hs') as [_ Hok]. apply (Hok c) in Hc. rewrite Ht in Hc.
  destruct (cs_function_containers s !! c) as [fc|]; [|done]. simpl in Hc.
  destruct (warm_in_pool key fc) eqn:Eb; simpl in Hc; [by destruct Hc as [? _]|].
  unfold warm_in_pool in Eb. destruct Hc as (Hl & Hk & Hw). rewrite Hl, Hw, Hk in Eb.
  by rewrite bool_decide_eq_true_2 in Eb.
Qed.

Lemma merge_states_lookup s u id :
  cs_executor_states (merge_states s u).1 !! id =
    match su_updated_executor_states u !! id with
    | Some new => Some (merge_executor_state u (cs_executor_states s !! id) new []).1
    | None => cs_executor_states s !! id
    end.
Proof.
  assert (Hdr : ∀ old new dr, (merge_executor_state u old new dr).1 = (merge_executor_state u old new []).1).
  { intros old new dr. unfold merge_executor_state. destruct old as [old|]; [|done].
    generalize (set_iter (esm_function_container_ids old)). intros l. revert new dr. generalize ([] : list ContainerId).
    induction l as [|c l IH]; intros dr1 new dr2; [done|]. cbn [foldl].
    destruct (merge_container u old (new, dr2) c) as [m2 d2] eqn:E2, (merge_container u old (new, dr1) c) as [m1 d1] eqn:E1.
    assert (m1 = m2) as -> by (unfold merge_container in *; repeat case_match; congruence). apply IH. }
  set (upd := map_iter (su_updated_executor_states u)).
  assert (HP : (∀ i new, (i, new) ∈ upd → cs_executor_states (merge_states s u).1 !! i =
      Some (merge_executor_state u (cs_executor_states s !! i) new []).1) ∧
    (∀ i, i ∉ upd.*1 → cs_executor_states (merge_states s u).1 !! i = cs_executor_states s !! i)).
  { unfold merge_states. fold upd. apply (foldl_ind_prefix (λ pre (acc : ContainerScheduler * list ContainerId),
      (∀ i new, (i, new) ∈ pre → cs_executor_states acc.1 !! i =
         Some (merge_executor_state u (cs_executor_states s !! i) new []).1) ∧
      (∀ i, i ∉ pre.*1 → cs_executor_states acc.1 !! i = cs_executor_states s !! i))).
    { split; [intros i new Hin; by apply elem_of_nil in Hin|done]. }
    intros pre [i0 new0] [a dr] [post Hpost] [H1 H2]. cbn [fst] in H1, H2.
    pose proof (NoDup_map_iter_fst (su_updated_executor_states u)) as Hnd. fold upd in Hnd.
    rewrite Hpost, fmap_app in Hnd. apply NoDup_app in Hnd as (_ & Hnd & _).
    assert (Hpre : i0 ∉ pre.*1) by (intros Hx; apply (Hnd i0 Hx); left).
    rewrite (H2 i0 Hpre). specialize (Hdr (cs_executor_states s !! i0) new0 dr).
    destruct (merge_executor_state u (cs_executor_states s !! i0) new0 dr) as [m dr']. cbn [fst] in *.
    destruct (set_executor_state_fields a i0 m) as (-> & _). split.
    - intros i new. rewrite elem_of_app, list_elem_of_singleton. intros [Hin|[= -> ->]].
      + rewrite lookup_insert_ne; [by apply H1|]. intros ->. apply Hpre, list_elem_of_fmap. by exists (i, new).
      + by rewrite lookup_insert_eq, Hdr.
    - intros i. rewrite fmap_app, not_elem_of_app. intros [Hi1 Hi2]. rewrite lookup_insert_ne by set_solver. by apply H2. }
  destruct HP as [H1 H2]. destruct (su_updated_executor_states u !! id) as [new|] eqn:E.
  - apply H1. by apply elem_of_map_iter.
  - apply H2. intros ([i x] & -> & Hin)%list_elem_of_fmap. apply elem_of_map_iter in Hin. simpl in *. congruence.
Qed.

Lemma update_scheduler_update_states s u id :
  id ∉ su_remove_executors u →
  cs_executor_states (update_scheduler_update s u) !! id = cs_executor_states (merge_states s u).1 !! id.
Proof.
  intros Hid. unfold update_scheduler_update. fold (merge_states s u). destruct (merge_states s u) as [s1 dropped].
  change (cs_executor_states (?x <| cs_blocked_pools ::= ?g |>)) with (cs_executor_states x). cbn [fst].
  assert (Hfr : ∀ a c, cs_executor_states (remove_container_from_indices a c) = cs_executor_states a).
  { intros a c. exact (f_equal (λ v, v.1.1.1.2.1) (remove_container_from_indices_frame a c)). }
  assert (Hrm : ∀ l a, id ∉ l → cs_executor_states (foldl remove_executor a l) !! id = cs_executor_states a !! id).
  { induction l as [|i l IH]; intros a Hl; [done|]. cbn [foldl]. rewrite IH by set_solver.
    unfold remove_executor. destruct (remove_executor_state_fields
      (match cs_executor_states a !! i with
       | Some old => foldl remove_container_from_indices a (set_iter (esm_function_container_ids old))
       | None => a end) i) as (-> & _).
    rewrite lookup_delete_ne by set_solver. destruct (cs_executor_states a !! i); [|done].
    by rewrite (foldl_keeps cs_executor_states) by done. }
  rewrite Hrm by done. rewrite (foldl_keeps cs_executor_states) by done.
  rewrite (foldl_keeps cs_executor_states); [done|]. intros a [c m]. destruct (bool_decide _); [done|].
  exact (f_equal (λ v, v.1.1.1.2.1) (update_container_indices_frame a c m)).
Qed.

(** Applying an update computed on a stale copy of an executor loses nothing
    that was added meanwhile: each container of the executor's current state that
    the update does not terminate is still there afterwards, with the resource
    claim it held unless the update brings one of its own. *)
Theorem merge_keeps_concurrent_containers s u id old new :
  cs_executor_states s !! id = Some old → su_updated_executor_states u !! id = Some new →
  id ∉ su_remove_executors u →
  ∃ st, cs_executor_states (update_scheduler_update s u) !! id = Some st ∧
    (∀ c, c ∈ esm_function_container_ids st ↔
       c ∈ esm_function_container_ids new ∨
       (c ∈ esm_function_container_ids old ∧ being_terminated u c = false)) ∧
    (∀ c r, survives u old new c → esm_resource_claims old !! c = Some r →
       esm_resource_claims st !! c = Some (default r (esm_resource_claims new !! c))).
Proof.
  intros Eo En Hid. rewrite update_scheduler_update_states, merge_states_lookup, En, Eo by done.
  eexists. split; [reflexivity|]. pose proof (merge_executor_state_spec u old new []) as H.
  destruct (merge_executor_state u (Some old) new []) as [m dr]. destruct H as (H1 & H2 & _). cbn [fst]. split.
  - intros c. rewrite H1. unfold survives. destruct (decide (c ∈ esm_function_container_ids new)); tauto.
  - intros c r Hsv Er. rewrite H2, Er. destruct (esm_resource_claims new !! c); [done|]. by rewrite decide_True.
Qed.
End request_claims.

(** ** Concrete runs *)

Definition deleted_app_ex := @delete_application canonical_order idle_scheduler_ex "ns" "app".
Lemma delete_application_spec_witness :
  cs_function_containers deleted_app_ex.1 !! "c1"%string = Some (terminated_of (csm_ex 5)).
Proof.
  pose proof (@delete_application_spec canonical_order idle_scheduler_ex "ns" "app" idle_scheduler_ex_wf) as H.
  fold deleted_app_ex in H. destruct deleted_app_ex as [s' u]. destruct H as (_ & H & _). rewrite H. reflexivity.
Defined.
Lemma delete_container_pool_spec_witness :
  idx_get (cs_warm_containers_by_pool (@delete_container_pool canonical_order idle_scheduler_ex "ns" "app|fn|v1").1)
    (MkContainerPoolKey "ns" "app|fn|v1") = ∅.
Proof.
  destruct (@delete_container_pool_spec canonical_order idle_scheduler_ex "ns" "app|fn|v1" idle_scheduler_ex_wf)
    as (_ & _ & H). exact H.
Defined.

(** An update built before [c1] was added to the executor. *)
Definition stale_update_ex : SchedulerUpdateRequest :=
  empty_update <| su_updated_executor_states := {["e1"%string := esm_ex]} |>.
Lemma merge_keeps_concurrent_containers_witness :
  ∃ st, cs_executor_states (@update_scheduler_update canonical_order idle_scheduler_ex stale_update_ex) !! "e1"%string = Some st ∧
    esm_resource_claims st !! "c1"%string = Some cres_ex.
Proof.
  destruct (@merge_keeps_concurrent_containers canonical_order idle_scheduler_ex stale_update_ex "e1" claimed_esm_ex esm_ex
    eq_refl eq_refl ltac:(apply not_elem_of_nil)) as (st & E & _ & H).
  exists st. split; [exact E|]. rewrite (H "c1"%string cres_ex); [reflexivity| |reflexivity].
  split; [apply (bool_decide_eq_true_1 ("c1"%string ∈ esm_function_container_ids claimed_esm_ex)); vm_compute; reflexivity|].
  split; [apply not_elem_of_empty|reflexivity].
Defined.
