(* ===== verification/BufferReconciler.v ===== *)
(** * Buffer reconciler

    [processor/buffer_reconciler.rs]: keeps every container pool between its
    minimum and its maximum with the configured number of warm containers.

    What each placement draws from outside (the fresh container id, the random
    threshold and the clock) is a [Choice]; the [n]-th placement of a run uses the
    [n]-th choice.  The two unbounded loops run on fuel. *)
From Stdlib Require Import Ascii.
From stdpp Require Import pretty.
From S2P Require Import Prelude DataModel Resources Updates InMemoryState Blocked SchedulerState Placement ContainerScheduler.

(** ** Definitions *)

Record Choice := MkChoice {
  ch_fresh : ContainerId;
  ch_random : Z;
  ch_now : Instant;
}.

(** The pieces of a string before and after its first [|]. *)
Fixpoint split_bar (s : string) : option (string * string) :=
  match s with
  | EmptyString => None
  | String c r =>
      if bool_decide (c = "|"%char) then Some (EmptyString, r)
      else match split_bar r with Some (a, b) => Some (String c a, b) | None => None end
  end.

(** [parse_function_pool_uri]: [splitn(3, '|')] must give three parts. *)
Definition parse_function_pool_uri (p : ContainerPool) : option FunctionURI :=
  match split_bar (cp_id p) with
  | Some (app, rest) =>
      match split_bar rest with
      | Some (f, ver) => Some (MkFunctionURI (cp_namespace p) app f ver)
      | None => None
      end
  | None => None
  end.

(** [min_containers.unwrap_or(0)] and [max_containers.unwrap_or(u32::MAX)]. *)
Definition pool_min (p : ContainerPool) : Z := default 0 (cp_min_containers p).
Definition pool_max (p : ContainerPool) : Z := default u32_max (cp_max_containers p).

(** The state a reconciliation threads. *)
Record RState := MkRState {
  rs_sched : ContainerScheduler;
  rs_update : SchedulerUpdateRequest;
  rs_cache : FeasibilityCache;
  rs_tick : nat;
}.
#[export] Instance eta_RState : Eta RState := λ r,
  MkRState (rs_sched r) (rs_update r) (rs_cache r) (rs_tick r).

(** The loop body of [trim_idle_containers]. *)
Definition terminate_step (acc : ContainerScheduler * SchedulerUpdateRequest) (cid : ContainerId)
    : ContainerScheduler * SchedulerUpdateRequest :=
  let '(s, u) := acc in
  let '(s', tu) := terminate_container s cid in
  (s', match tu with Some tu => extend u tu | None => u end).

Section reconciler.
Context `{HO : HashOrder} (im : InMemoryState) (ch : nat → Choice).

(** [BufferReconciler::count_pool_containers]. *)
Definition reconciler_count (s : ContainerScheduler) (p : ContainerPool) : Z * Z :=
  if is_function_pool p then
    match parse_function_pool_uri p with
    | Some uri => count_active_idle_containers s uri
    | None => (0, 0)
    end
  else count_pool_containers s (pool_key_of_pool p).

(** [pool_needs_buffer]. *)
Definition pool_needs_buffer (s : ContainerScheduler) (p : ContainerPool) : bool :=
  let buffer := default 0 (cp_buffer_containers p) in
  let '(active, idle) := reconciler_count s p in
  bool_decide (idle < buffer) && bool_decide (wrap32 (active + idle) < pool_max p).

(** [BufferReconciler::create_container_for_pool]. *)
Definition reconciler_create (p : ContainerPool) (r : RState)
    : RState * result SchedulerError (option SchedulerUpdateRequest) :=
  let c := ch (rs_tick r) in
  if is_function_pool p then
    match parse_function_pool_uri p with
    | None => (r, Ok None)
    | Some uri =>
        match im_applications im !! (uri_namespace uri +:+ "|" +:+ uri_application uri) with
        | None => (r, Ok None)
        | Some app =>
            match app_state app with
            | AppDisabled _ => (r, Ok None)
            | AppActive =>
                match app_functions app !! uri_function uri with
                | None => (r, Ok None)
                | Some f =>
                    let '(s, cache, res) :=
                      create_container_for_function (rs_sched r) (uri_namespace uri) (uri_application uri)
                        (uri_version uri) f (app_state app) (rs_cache r)
                        (ch_fresh c) (ch_random c) (ch_now c) in
                    (MkRState s (rs_update r) cache (S (rs_tick r)), res)
                end
            end
        end
    end
  else
    let '(s, cache, res) :=
      create_container_for_pool (rs_sched r) p (rs_cache r) (ch_fresh c) (ch_random c) (ch_now c) in
    (MkRState s (rs_update r) cache (S (rs_tick r)), res).

(** [try_place_container]. *)
Definition try_place_container (p : ContainerPool) (r : RState) : RState * result SchedulerError bool :=
  match reconciler_create p r with
  | (r1, Ok (Some u)) =>
      let placed := existsb (λ '(_, c), negb (is_terminated (csm_desired_state c))) (map_iter (su_containers u)) in
      (r1 <| rs_sched ::= λ s, apply_container_update s u |> <| rs_update ::= λ v, extend v u |>, Ok placed)
  | (r1, Ok None) => (r1, Ok false)
  | (r1, Err e) => (r1, Err e)
  end.

(** [for _ in 0..needed] of [ensure_pool_min]. *)
Fixpoint place_n (n : nat) (p : ContainerPool) (r : RState) : RState * bool :=
  match n with
  | O => (r, true)
  | S n => match try_place_container p r with
           | (r1, Ok true) => place_n n p r1
           | (r1, _) => (r1, false)
           end
  end.

(** [ensure_pool_min]; it never returns an error. *)
Definition ensure_pool_min (p : ContainerPool) (r : RState) : RState * bool :=
  let effective_min := Z.min (pool_min p) (pool_max p) in
  let '(active, idle) := reconciler_count (rs_sched r) p in
  let current := wrap32 (active + idle) in
  if bool_decide (effective_min ≤ current) then (r, true)
  else place_n (Z.to_nat (effective_min - current)) p r.

(** Phase 1. *)
Definition phase1_step (acc : RState * gset ContainerPoolKey) (p : ContainerPool)
    : RState * gset ContainerPoolKey :=
  let '(r, blocked) := acc in
  let '(r1, ok) := ensure_pool_min p r in
  (r1, if ok : bool then blocked else {[pool_key_of_pool p]} ∪ blocked).

(** One pool in one round of phase 2. *)
Definition phase2_step (acc : RState * gset ContainerPoolKey * bool) (p : ContainerPool)
    : RState * gset ContainerPoolKey * bool :=
  let '(r, blocked, any_created) := acc in
  if bool_decide (pool_key_of_pool p ∈ blocked) then acc
  else if negb (pool_needs_buffer (rs_sched r) p) then acc
  else match try_place_container p r with
       | (r1, Ok true) => (r1, blocked, true)
       | (r1, Ok false) => (r1, {[pool_key_of_pool p]} ∪ blocked, any_created)
       | (r1, Err _) => (r1, blocked, any_created)
       end.
Fixpoint phase2 (fuel : nat) (pools : list ContainerPool) (r : RState) (blocked : gset ContainerPoolKey)
    : option (RState * gset ContainerPoolKey) :=
  match fuel with
  | O => None
  | S fuel =>
      let '(r1, blocked1, any_created) := foldl phase2_step (r, blocked, false) pools in
      if any_created : bool then phase2 fuel pools r1 blocked1 else Some (r1, blocked1)
  end.

(** [trim_idle_containers]. *)
Definition trim_idle_containers (p : ContainerPool) (count : Z) (s : ContainerScheduler)
    : ContainerScheduler * SchedulerUpdateRequest :=
  let containers :=
    if is_function_pool p then
      match parse_function_pool_uri p with
      | Some uri => select_idle_containers s uri count
      | None => []
      end
    else select_warm_pool_containers s (pool_key_of_pool p) count in
  foldl terminate_step (s, empty_update) containers.

(** [trim_pool_excess]. *)
Definition trim_pool_excess (p : ContainerPool) (r : RState) : RState :=
  let '(active, idle) := reconciler_count (rs_sched r) p in
  let current_total := wrap32 (active + idle) in
  let target_total :=
    match cp_buffer_containers p with
    | Some buffer => Z.max (wrap32 (active + buffer)) (pool_min p)
    | None => Z.max current_total (pool_min p)
    end in
  let effective_limit := Z.min target_total (pool_max p) in
  if bool_decide (effective_limit < current_total) && bool_decide (0 < idle) then
    let excess := Z.min (current_total - effective_limit) idle in
    let '(s', u) := trim_idle_containers p excess (rs_sched r) in
    r <| rs_sched := s' |> <| rs_update ::= λ v, extend v u |>
  else r.

(** Phase 4: [while self.pool_needs_buffer(..) { .. }]. *)
Fixpoint fill_buffer (fuel : nat) (p : ContainerPool) (r : RState) : option RState :=
  match fuel with
  | O => None
  | S fuel =>
      if pool_needs_buffer (rs_sched r) p then
        match try_place_container p r with
        | (r1, Ok true) => fill_buffer fuel p r1
        | (r1, _) => Some r1
        end
      else Some r
  end.
Definition phase4_step (fuel : nat) (r : RState) (key : ContainerPoolKey) : option RState :=
  if negb (bool_decide (key ∈ cs_blocked_pools (rs_sched r))) then Some r
  else match get_pool (rs_sched r) key with
       | None => Some (r <| rs_sched ::= λ s, s <| cs_blocked_pools ::= λ b, b ∖ {[key]} |> |>)
       | Some p =>
           match try_place_container p r with
           | (r1, Ok true) =>
               let r2 := r1 <| rs_sched ::= λ s, s <| cs_blocked_pools ::= λ b, b ∖ {[key]} |> |> in
               let '(r3, _) := ensure_pool_min p r2 in
               fill_buffer fuel p r3
           | (r1, _) => Some r1
           end
       end.
Fixpoint phase4 (fuel : nat) (keys : list ContainerPoolKey) (r : RState) : option RState :=
  match keys with
  | [] => Some r
  | key :: keys => match phase4_step fuel r key with
                   | Some r1 => phase4 fuel keys r1
                   | None => None
                   end
  end.

(** [accumulate_pool_deficits], one pool. *)
Definition pool_deficit (s : ContainerScheduler) (p : ContainerPool) : Z :=
  let '(active, idle) := reconciler_count s p in
  let current_total := wrap32 (active + idle) in
  let buffer := default 0 (cp_buffer_containers p) in
  let deficit_target := Z.min (Z.max (wrap32 (active + buffer)) (pool_min p)) (pool_max p) in
  if bool_decide (current_total < deficit_target) then deficit_target - current_total else 0.
Definition accumulate_pool_deficits (pools : list ContainerPool) (s : ContainerScheduler)
    (acc : ResourceProfileHistogram * ResourceProfileHistogram)
    : ResourceProfileHistogram * ResourceProfileHistogram :=
  foldl (λ '(fd, sd) p,
    let deficit := pool_deficit s p in
    if bool_decide (deficit = 0) then (fd, sd)
    else
      let profile := profile_from_container_resources (cp_resources p) in
      if is_function_pool p then (hist_increment_by fd profile deficit, sd)
      else (fd, hist_increment_by sd profile deficit)) acc pools.

(** [reconcile]; [None] is out of fuel, and no error is ever returned. *)
Definition reconcile (fuel : nat) (s : ContainerScheduler) (cache : FeasibilityCache)
    : option (ContainerScheduler * FeasibilityCache * SchedulerUpdateRequest) :=
  let '(s0, dirty_pools) := take_dirty_pools s in
  if bool_decide (dirty_pools = ∅) && bool_decide (cs_blocked_pools s0 = ∅) then Some (s0, cache, empty_update)
  else
    let pools := omap (λ key, if bool_decide (key ∈ cs_blocked_pools s0) then None else get_pool s0 key)
                   (set_iter dirty_pools) in
    let '(r1, blocked1) := foldl phase1_step (MkRState s0 empty_update cache 0, ∅) pools in
    match phase2 fuel pools r1 blocked1 with
    | None => None
    | Some (r2, newly_blocked) =>
        let r3 := foldl (λ r p, if bool_decide (pool_key_of_pool p ∈ newly_blocked) then r
                                else trim_pool_excess p r) r2 pools in
        let r4 := r3 <| rs_sched ::= λ s, s <| cs_blocked_pools ::= λ b, b ∪ newly_blocked |> |> in
        match (if negb (bool_decide (cs_blocked_pools (rs_sched r4) = ∅)) && has_available_capacity (rs_sched r4)
               then phase4 fuel (set_iter (cs_blocked_pools (rs_sched r4))) r4
               else Some r4) with
        | None => None
        | Some r5 =>
            let s5 := rs_sched r5 in
            let dirty_keys := list_to_set (pool_key_of_pool <$> pools) : gset ContainerPoolKey in
            let d1 := accumulate_pool_deficits pools s5 (∅, ∅) in
            let others := omap (λ k, if bool_decide (k ∈ dirty_keys) then None else get_pool s5 k)
                            (set_iter (cs_blocked_pools s5)) in
            let '(fd, sd) := accumulate_pool_deficits others s5 d1 in
            Some (s5, rs_cache r5,
                  rs_update r5 <| su_function_pool_deficits := Some fd |>
                               <| su_sandbox_pool_deficits := Some sd |>
                               <| su_newly_blocked_pools := newly_blocked |>)
        end
    end.
End reconciler.

(** ** Demand blocked by pool maxima *)

Section blocked_by_max.
Context `{HO : HashOrder} (im : InMemoryState).

Definition function_pools_at_max (s : ContainerScheduler) : gset ContainerPoolKey :=
  list_to_set (omap (λ '(key, p),
    if bool_decide (pool_max p = u32_max) then None
    else match parse_function_pool_uri p with
         | None => None
         | Some uri => if bool_decide (pool_max p ≤ total_containers_for_function s uri) then Some key else None
         end) (map_iter (cs_function_pools s))).
Definition sandbox_pools_at_max (s : ContainerScheduler) : gset ContainerPoolKey :=
  list_to_set (omap (λ '(key, p),
    if bool_decide (pool_max p = u32_max) then None
    else if bool_decide (pool_max p ≤ pool_container_count s key) then Some key else None)
    (map_iter (cs_sandbox_pools s))).

(** [compute_blocked_by_pool_max]; the two emptiness tests only skip loops that
    would count nothing. *)
Definition compute_blocked_by_pool_max (s : ContainerScheduler)
    : ResourceProfileHistogram * ResourceProfileHistogram :=
  let fn_at_max := function_pools_at_max s in
  let sb_at_max := sandbox_pools_at_max s in
  (foldl (λ h key,
     match im_function_runs im !! key with
     | Some fr =>
         if bool_decide (MkContainerPoolKey (fr_namespace fr)
              (for_function (fr_application fr) (fr_name fr) (fr_version fr)) ∈ fn_at_max)
         then match get_function im fr with Some f => hist_increment h (profile_from_function f) | None => h end
         else h
     | None => h
     end) ∅ (sorted_strings (im_unallocated_function_runs im)),
   foldl (λ h key,
     match im_sandboxes im !! key with
     | Some sb =>
         match sb_pool_id sb with
         | Some pid =>
             if bool_decide (MkContainerPoolKey (sb_namespace sb) pid ∈ sb_at_max)
             then hist_increment h (profile_from_container_resources (sb_resources sb)) else h
         | None => h
         end
     | None => h
     end) ∅ (sorted_strings (im_pending_sandboxes im))).
End blocked_by_max.

(** ** Pool identifiers *)

Lemma split_bar_app a r : split_bar a = None → split_bar (a +:+ "|" +:+ r) = Some (a, r).
Proof.
  induction a as [|c a IH]; simpl; [done|]. case_bool_decide; [done|].
  destruct (split_bar a) as [[??]|]; [done|]. intros _. by rewrite IH.
Qed.
Lemma split_bar_inv s a b : split_bar s = Some (a, b) → s = (a +:+ "|" +:+ b) ∧ split_bar a = None.
Proof.
  revert a. induction s as [|c s IH]; intros a; simpl; [done|]. case_bool_decide as Hc.
  - intros [= <- <-]. by subst.
  - destruct (split_bar s) as [[a' b']|]; [|done]. intros [= <- <-].
    destruct (IH a' eq_refl) as [-> Hn]. split; [done|]. simpl. rewrite bool_decide_eq_false_2 by done. by rewrite Hn.
Qed.

Lemma parse_function_pool_uri_inv p uri :
  parse_function_pool_uri p = Some uri →
  uri_namespace uri = cp_namespace p ∧
  cp_id p = for_function (uri_application uri) (uri_function uri) (uri_version uri).
Proof.
  unfold parse_function_pool_uri. destruct (split_bar (cp_id p)) as [[app rest]|] eqn:E1; [|done].
  destruct (split_bar rest) as [[f ver]|] eqn:E2; [|done]. intros [= <-]. simpl. split; [done|].
  apply split_bar_inv in E1 as [-> _], E2 as [-> _]. done.
Qed.

(** A function pool's id round-trips: the pool made for a function is read
    back as exactly that function's URI when neither the application's nor the
    function's name contains the separator, and an id that is read back as a URI is
    the id made from that URI, so two function pools of a namespace with the same
    URI are the same pool. *)
Theorem pool_id_roundtrip ns app ver f now p uri :
  split_bar app = None → split_bar (fn_name f) = None →
  parse_function_pool_uri (pool_from_function ns app ver f now) = Some (MkFunctionURI ns app (fn_name f) ver) ∧
  (parse_function_pool_uri p = Some uri →
   pool_key_of_pool p = MkContainerPoolKey (uri_namespace uri)
     (for_function (uri_application uri) (uri_function uri) (uri_version uri))).
Proof.
  intros Ha Hf. split.
  - unfold parse_function_pool_uri, pool_from_function, for_function. simpl.
    by rewrite (split_bar_app app), (split_bar_app (fn_name f)).
  - intros [Hn Hi]%parse_function_pool_uri_inv. unfold pool_key_of_pool. by rewrite Hn, Hi.
Qed.
Lemma pool_id_roundtrip_witness :
  parse_function_pool_uri (pool_from_function "ns" "app" "v1" (fn_ex "fn" res_ex []) 0) =
    Some (MkFunctionURI "ns" "app" "fn" "v1").
Proof. apply (pool_id_roundtrip "ns" "app" "v1" (fn_ex "fn" res_ex []) 0 (pool_ex None) (MkFunctionURI "" "" "" "")); reflexivity. Defined.

(** ** The size of a pool, as the reconciler counts it *)

Definition pool_total (s : ContainerScheduler) (p : ContainerPool) : Z :=
  if is_function_pool p then
    match parse_function_pool_uri p with
    | Some uri => Z.of_nat (size (idx_get (cs_containers_by_function_uri s) uri))
    | None => 0
    end
  else pool_size s (pool_key_of_pool p).

Section counts.
Context `{HO : HashOrder}.

(** Each indexed container is counted once, as active or as idle. *)
Lemma count_active_idle_total s uri :
  indices_wf s → Z.of_nat (size (idx_get (cs_containers_by_function_uri s) uri)) < 2 ^ 32 →
  ∃ active idle, count_active_idle_containers s uri = (active, idle) ∧ 0 ≤ active ∧ 0 ≤ idle ∧
    active + idle = Z.of_nat (size (idx_get (cs_containers_by_function_uri s) uri)).
Proof.
  intros [_ Hok] Hsz. unfold count_active_idle_containers, idx_get in *.
  destruct (cs_containers_by_function_uri s !! uri) as [ids|] eqn:E; simpl in *.
  2:{ exists 0, 0. split_and!; try done; lia. }
  rewrite <-length_set_iter in *.
  assert (Hin : ∀ c, c ∈ set_iter ids → is_Some (cs_function_containers s !! c)).
  { intros c Hc. apply elem_of_set_iter in Hc.
    assert (Hc' : c ∈ idx_get (cs_containers_by_function_uri s) uri) by (unfold idx_get; by rewrite E).
    apply (Hok c) in Hc'. by destruct (cs_function_containers s !! c). }
  set (l := set_iter ids) in *. clearbody l.
  set (f := λ '(active, idle) id, _).
  assert (HP : (λ pre (acc : Z * Z), 0 ≤ acc.1 ∧ 0 ≤ acc.2 ∧ acc.1 + acc.2 = Z.of_nat (length pre)) l (foldl f (0, 0) l)).
  { apply foldl_ind_prefix; [simpl; lia|].
    intros pre c [a i] [post Hpost] (Ha & Hi & Hsum). simpl in *.
    destruct (Hin c) as [m Em]; [rewrite Hpost, elem_of_app; right; left|]. rewrite Em, length_app. simpl.
    rewrite Hpost, length_app in Hsz. simpl in Hsz.
    destruct (bool_decide (csm_allocations m = ∅)); simpl; rewrite wrap32_id by (unfold in_u32; lia); lia. }
  destruct (foldl f (0, 0) l) as [a i]. exists a, i. simpl in HP. by destruct HP as (? & ? & ?).
Qed.

Lemma count_pool_total s key :
  indices_wf s → pool_size s key < 2 ^ 32 →
  ∃ claimed warm_count, count_pool_containers s key = (claimed, warm_count) ∧ 0 ≤ claimed ∧ 0 ≤ warm_count ∧
    claimed + warm_count = pool_size s key.
Proof.
  intros Hs Hsz. destruct (pool_index_size s key Hs) as [Ep Ew].
  assert (Hle : (size (idx_get (cs_warm_containers_by_pool s) key) ≤ size (idx_get (cs_containers_by_pool s) key))%nat).
  { rewrite Ep, Ew. apply containers_where_mono. by intros m [? _]%andb_true_iff. }
  unfold count_pool_containers. rewrite pool_container_count_size, wrap32_id by (unfold in_u32, pool_size in *; lia).
  assert (Hw : match cs_warm_containers_by_pool s !! key with Some ids => len_u32 (size ids) | None => 0 end =
    Z.of_nat (size (idx_get (cs_warm_containers_by_pool s) key))).
  { unfold idx_get in *. destruct (cs_warm_containers_by_pool s !! key); simpl in *; [|done].
    apply wrap32_id. unfold in_u32, pool_size, idx_get in *. lia. }
  rewrite Hw. eexists _, _. split; [reflexivity|]. unfold saturating_sub, pool_size in *. lia.
Qed.

Lemma reconciler_count_total s p :
  indices_wf s → pool_total s p < 2 ^ 32 →
  ∃ active idle, reconciler_count s p = (active, idle) ∧ 0 ≤ active ∧ 0 ≤ idle ∧ active + idle = pool_total s p.
Proof.
  intros Hs Hsz. unfold reconciler_count, pool_total in *. destruct (is_function_pool p).
  - destruct (parse_function_pool_uri p); [by apply count_active_idle_total|]. exists 0, 0. split_and!; try done; lia.
  - by apply count_pool_total.
Qed.
End counts.

(** ** What one placement does to the indexes *)

(** [s'] indexes one more live container than [s]: [cid], filed as [m] says. *)
Record adds (s s' : ContainerScheduler) (cid : ContainerId) (m : ContainerServerMetadata) : Prop := {
  adds_new : ∀ k, cid ∉ idx_get (cs_containers_by_function_uri s) k;
  adds_new_pool : ∀ k, cid ∉ idx_get (cs_containers_by_pool s) k;
  adds_uri : ∀ c k, c ∈ idx_get (cs_containers_by_function_uri s') k ↔
    c ∈ idx_get (cs_containers_by_function_uri s) k ∨ (c = cid ∧ k = uri_of m);
  adds_pool : ∀ c k, c ∈ idx_get (cs_containers_by_pool s') k ↔
    c ∈ idx_get (cs_containers_by_pool s) k ∨ (c = cid ∧ pool_key_of m = Some k);
}.

Lemma adds_of_fields s s' cid m :
  indices_wf s → (∀ old, cs_function_containers s !! cid = Some old → live old = false) →
  cs_containers_by_function_uri s' = idx_insert (uri_of m) cid (cs_containers_by_function_uri s) →
  cs_containers_by_pool s' = match pool_key_of m with
    | Some pk => idx_insert pk cid (cs_containers_by_pool s) | None => cs_containers_by_pool s end →
  adds s s' cid m.
Proof.
  intros [_ Hok] Hold F2 F3. destruct (Hok cid) as (Hu & Hp & _). split.
  - intros k. rewrite Hu. destruct (cs_function_containers s !! cid) as [old|]; simpl; [|tauto].
    rewrite (Hold old eq_refl). by intros [? _].
  - intros k. rewrite Hp. destruct (cs_function_containers s !! cid) as [old|]; simpl; [|tauto].
    rewrite (Hold old eq_refl). by intros [? _].
  - intros c k. rewrite F2, elem_of_idx_insert. clear. naive_solver.
  - intros c k. rewrite F3. destruct (pool_key_of m); [rewrite elem_of_idx_insert|]; clear; naive_solver.
Qed.
(** Indexing a live container that was unknown or terminated. *)
Lemma update_container_indices_adds s cid m :
  indices_wf s → (∀ old, cs_function_containers s !! cid = Some old → live old = false) → live m = true →
  adds s (update_container_indices s cid m) cid m.
Proof.
  intros Hs Hold Hl. destruct (update_container_indices_fields s cid m) as (_ & F2 & F3 & _).
  rewrite Hl in F2, F3. by apply adds_of_fields.
Qed.
Lemma update_container_indices_blocked s cid m :
  cs_blocked_pools (update_container_indices s cid m) =
    match pool_key_of m with Some pk => cs_blocked_pools s ∖ {[pk]} | None => cs_blocked_pools s end.
Proof.
  unfold update_container_indices. fold (was_warm_at s cid). rewrite drop_idle_eq.
  destruct (live m && _), (csm_idle_since m), (is_terminated _), (pool_key_of m), (was_warm_at s cid), (warm m);
    exact eq_refl.
Qed.

(** Indexing the same container again changes nothing the counts read. *)
Lemma adds_again s s' s'' cid m :
  adds s s' cid m → live m = true →
  index_view s'' = index_view (update_container_indices s' cid m) → adds s s'' cid m.
Proof.
  intros [H1 H2 H3 H4] Hl Hv. destruct (update_container_indices_fields s' cid m) as (_ & F2 & F3 & _).
  unfold index_view in Hv. injection Hv as _ V2 V3 _ _.
  assert (E2 : cs_containers_by_function_uri s'' = idx_insert (uri_of m) cid (cs_containers_by_function_uri s')).
  { by rewrite V2, F2, Hl. }
  assert (E3 : cs_containers_by_pool s'' = match pool_key_of m with
    | Some pk => idx_insert pk cid (cs_containers_by_pool s') | None => cs_containers_by_pool s' end).
  { by rewrite V3, F3, Hl. }
  split; [done|done| |].
  - intros c k. rewrite E2, elem_of_idx_insert, H3. clear. naive_solver.
  - intros c k. rewrite E3. destruct (pool_key_of m) eqn:E; [rewrite elem_of_idx_insert|]; rewrite H4; clear; naive_solver.
Qed.
Lemma adds_view s0 s s' cid m :
  index_view s0 = index_view s → adds s s' cid m → adds s0 s' cid m.
Proof.
  intros Hv [H1 H2 H3 H4]. unfold index_view in Hv. injection Hv as _ E2 E3 _ _.
  split; by rewrite ?E2, ?E3.
Qed.

Section placement.
Context `{HO : HashOrder}.

Lemma map_iter_singleton {A} (k : string) (v : A) : map_iter ({[k := v]} : gmap string A) = [(k, v)].
Proof. apply Permutation_singleton_r. by rewrite map_iter_perm, map_to_list_singleton. Qed.

(** The update a creation returns: one container, one executor state. *)
Definition creation_update (id : ExecutorId) (st : ExecutorServerMetadata) (cid : ContainerId)
    (m : ContainerServerMetadata) (u : SchedulerUpdateRequest) : Prop :=
  su_containers u = {[cid := m]} ∧ su_updated_executor_states u = {[id := st]} ∧ su_remove_executors u = [].
Lemma apply_creation_update s id st cid m u :
  creation_update id st cid m u →
  apply_container_update s u = set_executor_state (update_container_indices s cid m) id st.
Proof.
  intros (E1 & E2 & E3). unfold apply_container_update. by rewrite E1, E2, E3, !map_iter_singleton.
Qed.

(** Everything a creation leaves alone. *)
Definition creation_frame (s : ContainerScheduler) :=
  (index_view s, cs_function_pools s, cs_sandbox_pools s, cs_blocked_pools s).

Lemma register_container_cases s id c ty now :
  creation_frame (register_container s id c ty now).1 = creation_frame s ∧
  cs_reaped_containers (register_container s id c ty now).1 = cs_reaped_containers s ∧
  ∀ u, (register_container s id c ty now).2 = Ok u →
    ∃ st, creation_update id st (ctr_id c) (MkContainerServerMetadata id c CS_Running ty ∅ (Some now)) u.
Proof.
  unfold register_container. destruct (cs_executor_states s !! id) as [st|]; [|done].
  destruct (add_container st c) as [st' [[]|e]]; cbn [fst snd].
  - unfold insert_resource_index. destruct (indexable (esm_free_resources st'));
      (split; [exact eq_refl|split; [exact eq_refl|]]); intros u [= <-]; by exists st'.
  - split; [exact eq_refl|split; [exact eq_refl|done]].
Qed.

Lemma create_container_cases s ns app f res c ty cache rnd now :
  let '(s', _, r) := create_container s ns app f res c ty cache rnd now in
  creation_frame s' = creation_frame s ∧ cs_reaped_containers s' = cs_reaped_containers s ∧
  ∀ u, r = Ok (Some u) →
    ∃ id st, creation_update id st (ctr_id c) (MkContainerServerMetadata id c CS_Running ty ∅ (Some now)) u.
Proof.
  unfold create_container. destruct (select_executor _ _ _ _ _ _) as [cache' pl].
  destruct (pr_executor_id pl) as [id|]; [|done].
  destruct (cs_executor_states _ !! id); [|done].
  destruct (register_container_cases (s <| cs_last_placement := Some pl |>) id c ty now) as (H1 & H2 & H3).
  destruct (register_container _ _ _ _ _) as [s2 [u|err]]; cbn [fst snd] in *.
  - split; [exact H1|split; [exact H2|]]. intros u' [= <-]. destruct (H3 u eq_refl) as [st Hst]. by exists id, st.
  - split; [exact H1|split; [exact H2|done]].
Qed.

Lemma set_executor_state_pools s id st :
  cs_function_pools (set_executor_state s id st) = cs_function_pools s ∧
  cs_sandbox_pools (set_executor_state s id st) = cs_sandbox_pools s ∧
  cs_blocked_pools (set_executor_state s id st) = cs_blocked_pools s.
Proof.
  unfold set_executor_state, insert_resource_index.
  by destruct (cs_executor_states s !! id), (indexable (esm_free_resources st)).
Qed.
(** Popping one remembered container leaves sublists. *)
Lemma pop_sub (m : gmap FunctionURI (list ContainerId)) uri l cid k l' :
  m !! uri = Some (l ++ [cid]) →
  (if bool_decide (l = []) then delete uri else <[uri := l]>) m !! k = Some l' →
  ∃ l0, m !! k = Some l0 ∧ l' ⊆ l0.
Proof.
  intros Er. case_bool_decide; [rewrite lookup_delete|rewrite lookup_insert]; case_decide; subst; try done; [by eauto| |by eauto].
  intros [= <-]. exists (l ++ [cid]). split; [done|]. set_solver.
Qed.

(** A restore either leaves the indexes alone, possibly forgetting remembered
    containers, or revives a terminated container of that function. *)
Lemma restore_cases s uri now :
  scheduler_wf s →
  let '(s', o) := restore_reaped_container s uri now in
  cs_function_pools s' = cs_function_pools s ∧ cs_sandbox_pools s' = cs_sandbox_pools s ∧
  (∀ k l', cs_reaped_containers s' !! k = Some l' →
     ∃ l, cs_reaped_containers s !! k = Some l ∧ l' ⊆ l) ∧
  match o with
  | None => index_view s' = index_view s ∧ cs_blocked_pools s' = cs_blocked_pools s
  | Some u => ∃ cid fc l id st, cs_reaped_containers s !! uri = Some l ∧ cid ∈ l ∧
      cs_function_containers s !! cid = Some fc ∧ live fc = false ∧ uri_of fc = uri ∧
      let fc' := fc <| csm_desired_state := CS_Running |> <| csm_idle_since := Some now |> in
      creation_update id st cid fc' u ∧ adds s s' cid fc' ∧
      cs_function_containers s' = <[cid := fc']> (cs_function_containers s) ∧
      (∀ k, k ∈ cs_blocked_pools s' → k ∈ cs_blocked_pools s)
  end.
Proof.
  intros Hs. unfold restore_reaped_container.
  assert (Href : ∀ k l', cs_reaped_containers s !! k = Some l' → ∃ l, cs_reaped_containers s !! k = Some l ∧ l' ⊆ l) by eauto.
  destruct (cs_reaped_containers s !! uri) as [reaped|] eqn:Er; [|done].
  destruct (last reaped) as [cid|] eqn:El; [|done].
  apply last_Some in El as [l ->]. rewrite removelast_last.
  destruct (wf_reaped s Hs _ _ Er) as [_ Hdead].
  set (s1 := s <| cs_reaped_containers ::= _ |>).
  assert (Hpop : ∀ k l', cs_reaped_containers s1 !! k = Some l' → ∃ l0, cs_reaped_containers s !! k = Some l0 ∧ l' ⊆ l0)
    by (intros k l'; by apply (pop_sub _ uri l cid)).
  change (cs_function_containers s1) with (cs_function_containers s).
  destruct (cs_function_containers s !! cid) as [fc|] eqn:Efc; [|done].
  destruct (Hdead cid fc) as [Hd Hu]; [set_solver|done|].
  change (cs_executor_states s1) with (cs_executor_states s).
  destruct (cs_executor_states s !! csm_executor_id fc) as [st|] eqn:Est; [|done].
  destruct (add_container st (csm_function_container fc)) as [st' [r|e]] eqn:Ea; cbv beta iota zeta; [|done].
  rewrite (inline_set_executor_state s1 (csm_executor_id fc) st st' Est).
  set (s2 := set_executor_state s1 (csm_executor_id fc) st').
  assert (Hv2 : index_view s2 = index_view s) by (unfold s2; by rewrite set_executor_state_view).
  destruct (set_executor_state_pools s1 (csm_executor_id fc) st') as (P1 & P2 & P3). fold s2 in P1, P2, P3.
  assert (Hr2 : cs_reaped_containers s2 = cs_reaped_containers s1) by apply set_executor_state_reaped.
  clearbody s2. set (fc' := fc <| csm_desired_state := CS_Running |> <| csm_idle_since := Some now |>).
  set (s3 := s2 <| cs_function_containers ::= <[cid := fc']> |>).
  pose proof (update_container_indices_frame s3 cid fc') as Hf. unfold frame_view in Hf.
  injection Hf as _ _ _ _ _ Rr Rp1 Rp2.
  unfold index_view in Hv2. injection Hv2 as V1 V2 V3 _ _. split_and!.
  - by rewrite Rp1.
  - by rewrite Rp2.
  - intros k l'. rewrite Rr. change (cs_reaped_containers s3) with (cs_reaped_containers s2). rewrite Hr2. apply Hpop.
  - exists cid, fc, (l ++ [cid]), (csm_executor_id fc), st'.
    destruct (update_container_indices_fields s3 cid fc') as (F1 & F2 & F3 & _).
    split_and!; [done|set_solver|done|done|done|done| | |].
    + apply adds_of_fields; [apply Hs|by intros old ?; simplify_eq| |].
      * rewrite F2. change (live fc') with true. cbv iota.
        change (cs_containers_by_function_uri s3) with (cs_containers_by_function_uri s2). by rewrite V2.
      * rewrite F3. change (live fc') with true. cbv iota.
        change (cs_containers_by_pool s3) with (cs_containers_by_pool s2). by rewrite V3.
    + rewrite F1. change (cs_function_containers s3) with (<[cid := fc']> (cs_function_containers s2)).
      by rewrite insert_insert_eq, V1.
    + intros k. rewrite update_container_indices_blocked. change (cs_blocked_pools s3) with (cs_blocked_pools s2).
      rewrite P3. destruct (pool_key_of fc'); set_solver.
Qed.
End placement.

(** ** One placement by the reconciler *)

Section effect.
Context `{HO : HashOrder} (im : InMemoryState) (ch : nat → Choice).

(** The functions of an application are filed under their names. *)
Definition functions_keyed : Prop :=
  ∀ key app name f, im_applications im !! key = Some app → app_functions app !! name = Some f → fn_name f = name.
(** Identifiers are never drawn twice. *)
Definition choices_distinct : Prop := ∀ i j, ch_fresh (ch i) = ch_fresh (ch j) → i = j.

(** What a reconciliation maintains: the scheduler's invariant, identifiers still
    to be drawn are unused, and a remembered container is filed in the pool of its
    function. *)
Record rinv (s : ContainerScheduler) (tick : nat) : Prop := {
  rinv_wf : scheduler_wf s;
  rinv_fresh : ∀ n, (tick ≤ n)%nat → cs_function_containers s !! ch_fresh (ch n) = None ∧
    ∀ uri l, cs_reaped_containers s !! uri = Some l → ch_fresh (ch n) ∉ l;
  rinv_reaped : ∀ uri l cid fc, cs_reaped_containers s !! uri = Some l → cid ∈ l →
    cs_function_containers s !! cid = Some fc →
    pool_key_of fc = Some (MkContainerPoolKey (uri_namespace uri)
      (for_function (uri_application uri) (uri_function uri) (uri_version uri)));
}.

(** The container placed for pool [p]. *)
Definition placed_for (p : ContainerPool) (m : ContainerServerMetadata) : Prop :=
  pool_key_of m = Some (pool_key_of_pool p) ∧
  if is_function_pool p then parse_function_pool_uri p = Some (uri_of m)
  else uri_application (uri_of m) = ""%string.

(** The outcome of a placement. *)
Definition placement_outcome (p : ContainerPool) (s s' : ContainerScheduler) (placed : bool) : Prop :=
  (∀ k, get_pool s' k = get_pool s k) ∧ cs_blocked_pools s' ⊆ cs_blocked_pools s ∧
  if placed then ∃ cid m, adds s s' cid m ∧ placed_for p m
  else index_view s' = index_view s ∧ cs_blocked_pools s' = cs_blocked_pools s.
Definition is_placed (r : result SchedulerError bool) : bool := match r with Ok b => b | Err _ => false end.

Lemma rinv_same_table s s' tick tick' :
  rinv s tick → scheduler_wf s' → (tick ≤ tick')%nat →
  cs_function_containers s' = cs_function_containers s →
  (∀ k l', cs_reaped_containers s' !! k = Some l' → ∃ l, cs_reaped_containers s !! k = Some l ∧ l' ⊆ l) →
  rinv s' tick'.
Proof.
  intros [H1 H2 H3] Hw Ht Et Hr. split; [done| |].
  - intros n Hn. rewrite Et. destruct (H2 n) as [Ha Hb]; [lia|]. split; [done|].
    intros uri l' Hl'. destruct (Hr uri l' Hl') as (l & Hl & Hsub). specialize (Hb uri l Hl). set_solver.
  - intros uri l' cid fc Hl' Hin. rewrite Et. destruct (Hr uri l' Hl') as (l & Hl & Hsub).
    apply (H3 uri l cid fc Hl). set_solver.
Qed.

(** Restoring a remembered container instead of creating one. *)
Lemma restore_apply_effect p s tick uri now :
  rinv s tick → parse_function_pool_uri p = Some uri → is_function_pool p = true →
  let '(s', o) := restore_reaped_container s uri now in
  rinv s' (S tick) ∧
  match o with
  | Some u => rinv (apply_container_update s' u) (S tick) ∧ placement_outcome p s (apply_container_update s' u) true ∧
      existsb (λ '(_, c), negb (is_terminated (csm_desired_state c))) (map_iter (su_containers u)) = true
  | None => rinv s' tick ∧ placement_outcome p s s' false
  end.
Proof.
  intros Hs Hparse Hfp. pose proof (restore_reaped_container_wf s uri now (rinv_wf _ _ Hs)) as Hwf.
  pose proof (restore_cases s uri now (rinv_wf _ _ Hs)) as Hc.
  destruct (restore_reaped_container s uri now) as [s' [u|]]; cbn [fst] in Hwf;
    destruct Hc as (Fp & Sp & Hre & Hc); [|destruct Hc as [Hv Hb]].
  2:{ assert (Et : cs_function_containers s' = cs_function_containers s) by exact (f_equal (λ v, v.1.1.1.1) Hv).
      unfold placement_outcome. split_and!; [by apply (rinv_same_table s _ tick); auto|by apply (rinv_same_table s _ tick); auto|
        intros k; unfold get_pool; by rewrite Fp, Sp|by rewrite Hb|done|done]. }
  destruct Hc as (cid & fc & l & id & st & Hl & Hin & Efc & Hd & Huri & Hcu & Hadds & Et & Hbl).
  set (fc' := fc <| csm_desired_state := CS_Running |> <| csm_idle_since := Some now |>) in *.
  assert (Hs' : rinv s' (S tick)).
  { split; [done| |].
    - intros n Hn. destruct (rinv_fresh s tick Hs n) as [Ha Hb]; [lia|]. split.
      + rewrite Et, lookup_insert_ne; [done|]. intros Heq. apply (Hb uri l Hl). by rewrite <-Heq.
      + intros k l' Hl'. destruct (Hre k l' Hl') as (l0 & Hl0 & Hsub). specialize (Hb k l0 Hl0). set_solver.
    - intros k l' c m Hl' Hcl Em. destruct (Hre k l' Hl') as (l0 & Hl0 & Hsub).
      apply (rinv_reaped s tick Hs k l0 c m Hl0); [set_solver|]. rewrite Et in Em.
      destruct (decide (c = cid)) as [->|Hne]; [|by rewrite lookup_insert_ne in Em].
      destruct (wf_reaped s' Hwf k l' Hl') as [_ Hx]. rewrite lookup_insert_eq in Em. injection Em as <-.
      destruct (Hx cid fc' Hcl) as [? _]; [by rewrite Et, lookup_insert_eq|done]. }
  split; [done|]. rewrite (apply_creation_update _ _ _ _ _ _ Hcu).
  set (s2 := update_container_indices s' cid fc').
  destruct (update_container_indices_fields s' cid fc') as (F1 & _). fold s2 in F1.
  pose proof (update_container_indices_frame s' cid fc') as Hf. fold s2 in Hf. unfold frame_view in Hf.
  injection Hf as _ _ _ _ _ Rr Rp1 Rp2. destruct (set_executor_state_pools s2 id st) as (P1 & P2 & P3).
  assert (E2 : cs_function_containers s2 = cs_function_containers s').
  { rewrite F1, Et. apply insert_insert_eq. }
  assert (Hwf2 : scheduler_wf s2).
  { apply update_container_indices_sched_wf; [done| |].
    - intros old. rewrite Et, lookup_insert_eq. by intros [= <-].
    - intros k l' Hl' Hcl. destruct (wf_reaped s' Hwf k l' Hl') as [_ Hx]. apply (Hx cid fc' Hcl).
      by rewrite Et, lookup_insert_eq. }
  unfold placement_outcome. split_and!.
  - apply (rinv_same_table s' _ (S tick)); [done|by apply set_executor_state_wf|done|by rewrite set_executor_state_table|].
    rewrite set_executor_state_reaped, Rr. eauto.
  - intros k. unfold get_pool. by rewrite P1, P2, Rp1, Rp2, Fp, Sp.
  - rewrite P3. unfold s2. rewrite update_container_indices_blocked.
    intros k. destruct (pool_key_of fc'); rewrite ?elem_of_difference; naive_solver.
  - exists cid, fc'. split; [|].
    + eapply (adds_again s s' _ cid fc' Hadds); [done|]. by rewrite set_executor_state_view.
    + unfold placed_for. rewrite Hfp. split; [|by rewrite Hparse, <-Huri].
      change (pool_key_of fc') with (pool_key_of fc). rewrite (rinv_reaped s tick Hs uri l cid fc Hl Hin Efc).
      destruct (parse_function_pool_uri_inv p uri Hparse) as [Hn Hi]. unfold pool_key_of_pool. by rewrite Hn, Hi.
  - destruct Hcu as (-> & _). by rewrite map_iter_singleton.
Qed.

Hypothesis Hdistinct : choices_distinct.

(** Applying the update of a creation with a fresh identifier. *)
Lemma apply_fresh_creation p s s1 tick id st m u :
  rinv s tick → rinv s1 (S tick) →
  creation_frame s1 = creation_frame s → cs_function_containers s1 !! ch_fresh (ch tick) = None →
  (∀ uri l, cs_reaped_containers s1 !! uri = Some l → ch_fresh (ch tick) ∉ l) →
  creation_update id st (ch_fresh (ch tick)) m u → live m = true → placed_for p m →
  rinv (apply_container_update s1 u) (S tick) ∧ placement_outcome p s (apply_container_update s1 u) true.
Proof using Hdistinct.
  intros Hs Hs1 Hfr Hnone Hnr Hu Hl Hp. rewrite (apply_creation_update _ _ _ _ _ _ Hu).
  set (cid := ch_fresh (ch tick)) in *. unfold creation_frame in Hfr.
  injection Hfr as V1 V2 V3 V4 V5 Fp Sp Bp.
  assert (Hv : index_view s = index_view s1) by (unfold index_view; congruence).
  set (s2 := update_container_indices s1 cid m).
  destruct (update_container_indices_fields s1 cid m) as (F1 & _). fold s2 in F1.
  pose proof (update_container_indices_frame s1 cid m) as Hf. fold s2 in Hf. unfold frame_view in Hf.
  injection Hf as _ _ _ _ _ Rr Rp1 Rp2.
  destruct (set_executor_state_pools s2 id st) as (P1 & P2 & P3).
  assert (Hwf2 : scheduler_wf s2).
  { apply update_container_indices_sched_wf; [apply Hs1|intros old; by rewrite Hnone|].
    intros uri l Hul Hin. by destruct (Hnr uri l Hul). }
  split; [split|].
  - by apply set_executor_state_wf.
  - intros n Hn. rewrite set_executor_state_table, set_executor_state_reaped, Rr, F1.
    destruct (rinv_fresh s1 (S tick) Hs1 n Hn) as [Hn1 Hn2]. split; [|done].
    rewrite lookup_insert_ne; [done|]. intros Heq. apply Hdistinct in Heq. lia.
  - intros uri l c fc. rewrite set_executor_state_table, set_executor_state_reaped, Rr, F1. intros Hul Hin.
    rewrite lookup_insert_ne; [by apply (rinv_reaped s1 (S tick) Hs1 uri l)|]. intros <-. by apply (Hnr uri l).
  - split_and!.
    + intros k. unfold get_pool. by rewrite P1, P2, Rp1, Rp2, Fp, Sp.
    + rewrite P3. unfold s2. rewrite update_container_indices_blocked, Bp. destruct (pool_key_of m); set_solver.
    + exists cid, m. split; [|done]. apply (adds_view s s1); [done|].
      pose proof (update_container_indices_adds s1 cid m (wf_indices s1 (rinv_wf s1 _ Hs1))) as Ha. fold s2 in Ha.
      destruct Ha as [A1 A2 A3 A4]; [intros old Hold; congruence|done|].
      pose proof (set_executor_state_view s2 id st) as Hv2.
      assert (W2 : cs_containers_by_function_uri (set_executor_state s2 id st) = cs_containers_by_function_uri s2)
        by exact (f_equal (λ v, v.1.1.1.2) Hv2).
      assert (W3 : cs_containers_by_pool (set_executor_state s2 id st) = cs_containers_by_pool s2)
        by exact (f_equal (λ v, v.1.1.2) Hv2).
      split; [exact A1|exact A2|rewrite W2; exact A3|rewrite W3; exact A4].
Qed.

Lemma create_apply_effect p s tick ns app f resq c ty cache rnd now :
  rinv s tick → ctr_id c = ch_fresh (ch tick) →
  (∀ id, placed_for p (MkContainerServerMetadata id c CS_Running ty ∅ (Some now))) →
  let '(s', _, res) := create_container s ns app f resq c ty cache rnd now in
  rinv s' (S tick) ∧
  match res with
  | Ok (Some u) => rinv (apply_container_update s' u) (S tick) ∧ placement_outcome p s (apply_container_update s' u) true ∧
      existsb (λ '(_, c), negb (is_terminated (csm_desired_state c))) (map_iter (su_containers u)) = true
  | _ => placement_outcome p s s' false
  end.
Proof using Hdistinct.
  intros Hs Hid Hp. pose proof (create_container_wf s ns app f resq c ty cache rnd now (rinv_wf _ _ Hs)) as Hwf.
  pose proof (create_container_cases s ns app f resq c ty cache rnd now) as Hc.
  destruct (create_container _ _ _ _ _ _ _ _ _ _) as [[s' cache'] res]. cbn [fst snd] in Hwf.
  destruct Hc as (Hfr & Hre & Hu). pose proof Hfr as Hfr'. unfold creation_frame in Hfr'.
  injection Hfr' as V1 V2 V3 V4 V5 Fp Sp Bp.
  assert (Hs' : rinv s' (S tick)).
  { apply (rinv_same_table s _ tick); [done|done|lia|done|]. rewrite Hre. eauto. }
  split; [done|].
  assert (Hno : placement_outcome p s s' false).
  { unfold placement_outcome.
    split_and!; [intros k; unfold get_pool; by rewrite Fp, Sp|by rewrite Bp|unfold index_view; congruence|done]. }
  destruct res as [[u|]|e]; [|done|done]. destruct (Hu u eq_refl) as (id & st & Hcu).
  destruct (rinv_fresh s tick Hs tick (le_n _)) as [Hn1 Hn2]. rewrite Hid in Hcu.
  destruct (apply_fresh_creation p s s' tick id st
    (MkContainerServerMetadata id c CS_Running ty ∅ (Some now)) u) as [Ha Hb]; try done.
  - by rewrite V1.
  - by rewrite Hre.
  - split_and!; [done|done|]. destruct Hcu as (-> & _). by rewrite map_iter_singleton.
Qed.

Hypothesis Hkeyed : functions_keyed.

Lemma try_place_effect p r :
  rinv (rs_sched r) (rs_tick r) →
  let '(r', res) := try_place_container im ch p r in
  rinv (rs_sched r') (rs_tick r') ∧ placement_outcome p (rs_sched r) (rs_sched r') (is_placed res).
Proof using Hdistinct Hkeyed.
  intros Hr. assert (Hnone : placement_outcome p (rs_sched r) (rs_sched r) false) by done.
  unfold try_place_container, reconciler_create. destruct (is_function_pool p) eqn:Hfp.
  - destruct (parse_function_pool_uri p) as [uri|] eqn:Hparse; [|done].
    destruct (im_applications im !! _) as [app|] eqn:Eapp; [|done].
    destruct (app_state app) eqn:Est; [|done].
    destruct (app_functions app !! uri_function uri) as [f|] eqn:Ef; [|done].
    pose proof (Hkeyed _ _ _ _ Eapp Ef) as Hname. unfold create_container_for_function.
    rewrite Hname. replace (MkFunctionURI (uri_namespace uri) (uri_application uri) (uri_function uri) (uri_version uri))
      with uri by (by destruct uri).
    pose proof (restore_apply_effect p (rs_sched r) (rs_tick r) uri (ch_now (ch (rs_tick r))) Hr Hparse Hfp) as Hrest.
    destruct (restore_reaped_container _ _ _) as [s1 [u|]]; destruct Hrest as [H1 H2].
    + destruct H2 as (H2 & H3 & H4). cbn [fst snd]. rewrite H4. done.
    + destruct H2 as [H2 (Hp1 & Hp2 & Hv & Hb)].
      match goal with |- context [create_container s1 ?a1 ?a2 ?a3 ?a4 ?a5 ?a6 ?a7 ?a8 ?a9] =>
        pose proof (create_apply_effect p s1 (rs_tick r) a1 a2 a3 a4 a5 a6 a7 a8 a9 H2 eq_refl) as Hcr;
        destruct (create_container s1 a1 a2 a3 a4 a5 a6 a7 a8 a9) as [[s2 cache] res] end.
      destruct Hcr as [Hs2 Hres].
      { intros id. unfold placed_for. rewrite Hfp, Hparse.
        destruct (parse_function_pool_uri_inv p uri Hparse) as [Hn Hi].
        unfold pool_key_of_pool. rewrite Hi, <-Hn. split; [done|]. by destruct uri. }
      assert (Htr : ∀ s' b, placement_outcome p s1 s' b → placement_outcome p (rs_sched r) s' b).
      { intros s' b (Q1 & Q2 & Q3). split_and!; [intros k; by rewrite Q1|by rewrite <-Hb|].
        destruct b; [|by destruct Q3 as [-> ->]]. destruct Q3 as (cid & m & Q3 & Q4). exists cid, m.
        split; [|done]. by apply (adds_view _ s1). }
      destruct res as [[u|]|e]; cbn [fst snd] in *; [|by split; [|apply Htr]..].
      destruct Hres as (G1 & G2 & G3). rewrite G3. by split; [|apply Htr].
  - unfold create_container_for_pool.
    match goal with |- context [create_container ?a0 ?a1 ?a2 ?a3 ?a4 ?a5 ?a6 ?a7 ?a8 ?a9] =>
      pose proof (create_apply_effect p a0 (rs_tick r) a1 a2 a3 a4 a5 a6 a7 a8 a9 Hr eq_refl) as Hcr;
      destruct (create_container a0 a1 a2 a3 a4 a5 a6 a7 a8 a9) as [[s2 cache] res] end.
    destruct Hcr as [Hs2 Hres]; [intros id; unfold placed_for; by rewrite Hfp|].
    destruct res as [[u|]|e]; cbn [fst snd] in *; [|done|done]. destruct Hres as (G1 & G2 & G3). by rewrite G3.
Qed.
End effect.

(** ** Pool sizes across placements *)

(** What the reconciler assumes of a pool: a [u32] maximum, and for a function
    pool an application name, as the API requires. *)
Definition pool_ok (p : ContainerPool) : Prop :=
  pool_max p ≤ u32_max ∧
  (is_function_pool p = true → ∀ uri, parse_function_pool_uri p = Some uri → uri_application uri ≠ ""%string).
Definition known (s : ContainerScheduler) (p : ContainerPool) : Prop :=
  get_pool s (pool_key_of_pool p) = Some p.

Lemma pool_total_nonneg s p : 0 ≤ pool_total s p.
Proof. unfold pool_total, pool_size. repeat case_match; lia. Qed.
Lemma pool_total_view s s' p : index_view s' = index_view s → pool_total s' p = pool_total s p.
Proof.
  unfold index_view. intros [= _ E2 E3 _ _]. unfold pool_total, pool_size. by rewrite E2, E3.
Qed.

Lemma size_add (x y : gset ContainerId) cid :
  cid ∉ x → (∀ c, c ∈ y ↔ c ∈ x ∨ c = cid) → Z.of_nat (size y) = Z.of_nat (size x) + 1.
Proof.
  intros Hn Hy. assert (y = {[cid]} ∪ x) as -> by set_solver.
  rewrite size_union by set_solver. rewrite size_singleton. lia.
Qed.

Lemma outcome_total p q s s' b :
  placement_outcome q s s' b → pool_ok p → p = q ∨ pool_key_of_pool p ≠ pool_key_of_pool q →
  pool_total s' p = pool_total s p + (if b && bool_decide (pool_key_of_pool p = pool_key_of_pool q) then 1 else 0).
Proof.
  intros (_ & _ & Hb) [_ Happ] Hpq. destruct b; simpl; [|destruct Hb as [Hv _]; rewrite (pool_total_view _ _ _ Hv); lia].
  destruct Hb as (cid & m & [A1 A2 A3 A4] & Hk & Hm). unfold pool_total, pool_size.
  destruct Hpq as [->|Hne].
  - rewrite bool_decide_eq_true_2 by done. destruct (is_function_pool q).
    + rewrite Hm. apply (size_add _ _ cid); [apply A1|]. intros c. rewrite A3. naive_solver.
    + apply (size_add _ _ cid); [apply A2|]. intros c. rewrite A4, Hk. naive_solver.
  - rewrite bool_decide_eq_false_2 by done. rewrite Z.add_0_r. destruct (is_function_pool p).
    + destruct (parse_function_pool_uri p) as [uri|] eqn:Ep; [|done]. do 2 f_equal. apply set_eq. intros c. rewrite A3.
      split; [|by left]. intros [?|[_ Hu]]; [done|]. exfalso. specialize (Happ eq_refl uri eq_refl).
      destruct (is_function_pool q); [|congruence]. apply Hne.
      apply parse_function_pool_uri_inv in Ep as [En Ei], Hm as [Fn Fi].
      unfold pool_key_of_pool. rewrite <-En, Ei, <-Fn, Fi, Hu. done.
    + do 2 f_equal. apply set_eq. intros c. rewrite A4, Hk. split; [|by left].
      intros [?|[_ Hu]]; [done|]. exfalso. apply Hne. congruence.
Qed.

(** [s'] is [s] after [d] placements for [q]. *)
Record evolves (q : ContainerPool) (s s' : ContainerScheduler) (d : Z) : Prop := {
  ev_pools : ∀ k, get_pool s' k = get_pool s k;
  ev_other : ∀ p, pool_ok p → pool_key_of_pool p ≠ pool_key_of_pool q → pool_total s' p = pool_total s p;
  ev_self : pool_total s' q = pool_total s q + d;
  ev_blocked : cs_blocked_pools s' ⊆ cs_blocked_pools s;
}.
Lemma evolves_refl q s : evolves q s s 0.
Proof. split; [done|done|lia|done]. Qed.
Lemma evolves_trans q s1 s2 s3 d e : evolves q s1 s2 d → evolves q s2 s3 e → evolves q s1 s3 (d + e).
Proof.
  intros [A1 A2 A3 A4] [B1 B2 B3 B4].
  split; [intros k; by rewrite B1|intros p Hp Hk; by rewrite B2, A2|lia|by transitivity (cs_blocked_pools s2)].
Qed.
Lemma evolves_known q s s' d p : evolves q s s' d → known s' p ↔ known s p.
Proof. intros [A1 _ _ _]. unfold known. by rewrite A1. Qed.

(** Every known pool respects its maximum. *)
Definition max_ok (s : ContainerScheduler) : Prop :=
  ∀ p, known s p → pool_ok p ∧ pool_total s p ≤ pool_max p.
(** The known pools among [keys] have room. *)
Definition below (s : ContainerScheduler) (keys : gset ContainerPoolKey) : Prop :=
  ∀ p, known s p → pool_key_of_pool p ∈ keys → pool_total s p < pool_max p.

Lemma known_inj s p q : known s p → known s q → pool_key_of_pool p = pool_key_of_pool q → p = q.
Proof. unfold known. intros Hp Hq Hk. rewrite Hk in Hp. congruence. Qed.
Lemma evolves_max_ok q s s' d :
  evolves q s s' d → known s q → max_ok s → pool_total s q + d ≤ pool_max q → max_ok s'.
Proof.
  intros He Hq Hm Hle p Hp. rewrite (evolves_known _ _ _ _ _ He) in Hp. destruct (Hm p Hp) as [Hok Hmax].
  split; [done|]. destruct (decide (pool_key_of_pool p = pool_key_of_pool q)) as [Hk|Hk].
  - rewrite (known_inj s p q Hp Hq Hk), (ev_self _ _ _ _ He). done.
  - by rewrite (ev_other _ _ _ _ He).
Qed.
Lemma evolves_below q s s' d keys :
  evolves q s s' d → max_ok s → below s keys → pool_key_of_pool q ∉ keys → below s' keys.
Proof.
  intros He Hm Hb Hnin p Hp Hin. rewrite (evolves_known _ _ _ _ _ He) in Hp.
  rewrite (ev_other _ _ _ _ He); [by apply Hb|by apply Hm|]. intros Hk. by rewrite Hk in Hin.
Qed.

Section phases.
Context `{HO : HashOrder} (im : InMemoryState) (ch : nat → Choice).
Hypothesis Hdistinct : choices_distinct ch.
Hypothesis Hkeyed : functions_keyed im.

Notation ok_state r := (rinv ch (rs_sched r) (rs_tick r)).

Lemma try_place_evolves p r :
  ok_state r → pool_ok p →
  let '(r', res) := try_place_container im ch p r in
  ok_state r' ∧ evolves p (rs_sched r) (rs_sched r') (if is_placed res then 1 else 0).
Proof using Hdistinct Hkeyed.
  intros Hr Hp. pose proof (try_place_effect im ch Hdistinct Hkeyed p r Hr) as He.
  destruct (try_place_container im ch p r) as [r' res]. destruct He as [Hr' Ho]. split; [done|]. split.
  - apply Ho.
  - intros p' Hp' Hk. rewrite (outcome_total p' p _ _ _ Ho Hp') by by right.
    rewrite (bool_decide_eq_false_2 _ Hk), andb_false_r. lia.
  - rewrite (outcome_total p p _ _ _ Ho Hp) by by left. rewrite bool_decide_eq_true_2 by done.
    by destruct (is_placed res).
  - apply Ho.
Qed.

Lemma place_n_evolves n p : ∀ r,
  ok_state r → pool_ok p →
  let '(r', ok) := place_n im ch n p r in
  ok_state r' ∧ ∃ j, 0 ≤ j ≤ Z.of_nat n ∧ evolves p (rs_sched r) (rs_sched r') j ∧
    (if ok : bool then j = Z.of_nat n else j < Z.of_nat n).
Proof using Hdistinct Hkeyed.
  induction n as [|n IH]; intros r Hr Hp; cbn [place_n].
  { split; [done|]. exists 0. split_and!; [lia|lia|apply evolves_refl|done]. }
  pose proof (try_place_evolves p r Hr Hp) as He. destruct (try_place_container im ch p r) as [r1 [[]|e]];
    destruct He as [Hr1 He]; simpl in He.
  - specialize (IH r1 Hr1 Hp). destruct (place_n im ch n p r1) as [r' ok]. destruct IH as (Hr' & j & Hj & Hej & Hok).
    split; [done|]. exists (1 + j). split_and!; [lia|lia|by eapply evolves_trans|]. destruct ok; lia.
  - split; [done|]. exists 0. split_and!; [lia|lia|done|lia].
  - split; [done|]. exists 0. split_and!; [lia|lia|done|lia].
Qed.

(** Meeting the minimum: never past it by its own placements, and on failure there
    is room left. *)
Lemma ensure_pool_min_evolves p r :
  ok_state r → pool_ok p → pool_total (rs_sched r) p ≤ pool_max p →
  let '(r', ok) := ensure_pool_min im ch p r in
  let m := Z.min (pool_min p) (pool_max p) in
  ok_state r' ∧ ∃ d, 0 ≤ d ∧ evolves p (rs_sched r) (rs_sched r') d ∧
    (d = 0 ∨ pool_total (rs_sched r') p ≤ m) ∧
    (if ok : bool then m ≤ pool_total (rs_sched r') p else pool_total (rs_sched r') p < m).
Proof using Hdistinct Hkeyed.
  intros Hr Hp Hmax. pose proof (pool_total_nonneg (rs_sched r) p). destruct Hp as [Hu Happ].
  destruct (reconciler_count_total (rs_sched r) p) as (a & i & Hc & Ha & Hi & Hsum);
    [apply (wf_indices _ (rinv_wf _ _ _ Hr))|unfold u32_max in Hu; lia|].
  unfold ensure_pool_min. rewrite Hc, wrap32_id by (unfold in_u32, u32_max in *; lia). rewrite Hsum.
  case_bool_decide as Hle.
  { split; [done|]. exists 0. split_and!; [lia|apply evolves_refl|by left|done]. }
  set (n := Z.to_nat _). pose proof (place_n_evolves n p r Hr (conj Hu Happ)) as Hpl.
  destruct (place_n im ch n p r) as [r' ok]. destruct Hpl as (Hr' & j & Hj & He & Hok).
  split; [done|]. exists j. pose proof (ev_self _ _ _ _ He). unfold n in *.
  split_and!; [lia|done|right; lia|]. destruct ok; lia.
Qed.

Lemma needs_buffer_room s p :
  indices_wf s → pool_ok p → pool_total s p ≤ pool_max p → pool_needs_buffer s p = true →
  pool_total s p < pool_max p.
Proof.
  intros Hs [Hu _] Hmax. pose proof (pool_total_nonneg s p).
  destruct (reconciler_count_total s p Hs) as (a & i & Hc & Ha & Hi & Hsum); [unfold u32_max in Hu; lia|].
  unfold pool_needs_buffer. rewrite Hc, wrap32_id by (unfold in_u32, u32_max in *; lia). rewrite Hsum.
  intros [_ Hb%bool_decide_eq_true]%andb_true_iff. done.
Qed.

(** What holds between the phases, relative to the state [s0] at the start: the
    pools in [blocked] have room, and the scheduler's blocked pools are in [B]. *)
Record phase_inv (s0 : ContainerScheduler) (B : gset ContainerPoolKey) (r : RState) (blocked : gset ContainerPoolKey) : Prop := {
  pi_state : ok_state r;
  pi_pools : ∀ k, get_pool (rs_sched r) k = get_pool s0 k;
  pi_max : max_ok (rs_sched r);
  pi_below : below (rs_sched r) blocked;
  pi_blocked : cs_blocked_pools (rs_sched r) ⊆ B;
}.

Lemma phase_inv_evolves s0 B r r' blocked q d :
  phase_inv s0 B r blocked → ok_state r' → evolves q (rs_sched r) (rs_sched r') d → known (rs_sched r) q →
  pool_total (rs_sched r) q + d ≤ pool_max q → pool_key_of_pool q ∉ blocked → phase_inv s0 B r' blocked.
Proof.
  intros [H1 H2 H3 H4 H5] Hr' He Hq Hle Hnin. split; [done| | | |].
  - intros k. by rewrite (ev_pools _ _ _ _ He).
  - by apply (evolves_max_ok q (rs_sched r) _ d).
  - by apply (evolves_below q (rs_sched r) _ d).
  - transitivity (cs_blocked_pools (rs_sched r)); [apply He|done].
Qed.

(** A pool with room can be marked as blocked. *)
Lemma phase_inv_block s0 B r blocked q :
  phase_inv s0 B r blocked → known s0 q → pool_total (rs_sched r) q < pool_max q →
  phase_inv s0 B r ({[pool_key_of_pool q]} ∪ blocked).
Proof.
  intros [I1 I2 I3 I4 I5] Hq Hlt. split; [done..| |done].
  intros p Hp Hin. apply elem_of_union in Hin as [Hin|Hin]; [|by apply I4].
  apply elem_of_singleton in Hin. assert (p = q) as ->; [|done].
  apply (known_inj s0); [|done|done]. unfold known in *. by rewrite <-I2.
Qed.

Lemma phase1_inv s0 B pools r0 :
  phase_inv s0 B r0 B → NoDup (pool_key_of_pool <$> pools) →
  (∀ p, p ∈ pools → known s0 p ∧ pool_key_of_pool p ∉ B) →
  let '(r, blocked) := foldl (phase1_step im ch) (r0, ∅) pools in phase_inv s0 B r (blocked ∪ B).
Proof using Hdistinct Hkeyed.
  intros H0 Hnd Hkn.
  assert (HP : (λ pre (acc : RState * gset ContainerPoolKey), phase_inv s0 B acc.1 (acc.2 ∪ B) ∧
    ∀ k, k ∈ acc.2 → k ∈ pool_key_of_pool <$> pre) pools (foldl (phase1_step im ch) (r0, ∅) pools)).
  { apply foldl_ind_prefix; [split; [cbn [fst snd]; by rewrite union_empty_l_L|set_solver]|].
    intros pre q [r blocked] [post Hpost] [Hinv Hsub]. cbn [fst snd] in *.
    assert (Hq : known s0 q ∧ pool_key_of_pool q ∉ B) by (apply Hkn; rewrite Hpost, elem_of_app; right; left).
    destruct Hq as [Hq HqB].
    assert (Hq' : known (rs_sched r) q) by (unfold known; by rewrite (pi_pools _ _ _ _ Hinv)).
    rewrite Hpost, fmap_app in Hnd. apply NoDup_app in Hnd as (_ & Hnd & _).
    assert (Hnin : pool_key_of_pool q ∉ blocked).
    { intros Hin. apply (Hnd _ (Hsub _ Hin)). rewrite fmap_cons. left. }
    destruct (pi_max _ _ _ _ Hinv q Hq') as [Hok Hmax].
    pose proof (ensure_pool_min_evolves q r (pi_state _ _ _ _ Hinv) Hok Hmax) as He.
    unfold phase1_step. destruct (ensure_pool_min im ch q r) as [r' ok]. cbn [fst snd].
    destruct He as (Hr' & d & Hd & He & Hle & Hres). pose proof (ev_self _ _ _ _ He) as Hself.
    assert (Hinv' : phase_inv s0 B r' (blocked ∪ B)).
    { apply (phase_inv_evolves s0 B r r' _ q d); try done; [destruct Hle as [->|Hle]; lia|].
      rewrite elem_of_union. tauto. }
    rewrite fmap_app. destruct ok; (split; [|set_solver]); [done|].
    rewrite <-union_assoc_L. apply phase_inv_block; [done..|]. lia. }
  by destruct (foldl _ _ _) as [r blocked]; destruct HP as [? _].
Qed.

(** How many placements the pools can still take. *)
Definition slack (s : ContainerScheduler) (pools : list ContainerPool) : Z :=
  foldr (λ p acc, pool_max p - pool_total s p + acc) 0 pools.
Lemma slack_nonneg s pools : (∀ p, p ∈ pools → pool_total s p ≤ pool_max p) → 0 ≤ slack s pools.
Proof.
  induction pools as [|p pools IH]; simpl; [lia|]. intros H.
  pose proof (H p (list_elem_of_here _ _)). specialize (IH (λ q Hq, H q (list_elem_of_further _ _ _ Hq))). lia.
Qed.
Lemma slack_other s s' q d pools :
  evolves q s s' d → (∀ p, p ∈ pools → pool_ok p) → pool_key_of_pool q ∉ pool_key_of_pool <$> pools →
  slack s' pools = slack s pools.
Proof.
  intros He. induction pools as [|p pools IH]; simpl; [done|]. intros Hok [Hp Hnin]%not_elem_of_cons.
  rewrite IH; [|intros q' Hq'; apply Hok; by right|done].
  rewrite (ev_other _ _ _ _ He); [done|apply Hok; left|]. intros Hk. by apply Hp.
Qed.
Lemma slack_evolves s s' q d pools :
  evolves q s s' d → (∀ p, p ∈ pools → pool_ok p) → NoDup (pool_key_of_pool <$> pools) → q ∈ pools →
  slack s' pools = slack s pools - d.
Proof.
  intros He. induction pools as [|p pools IH]; simpl; [by intros _ _ ?%elem_of_nil|].
  intros Hok Hnd Hin. apply NoDup_cons in Hnd as [Hp Hnd]. apply elem_of_cons in Hin as [->|Hin].
  - rewrite (slack_other s s' p d pools He); [|intros q' Hq'; apply Hok; by right|done].
    rewrite (ev_self _ _ _ _ He). lia.
  - rewrite IH; [|intros q' Hq'; apply Hok; by right|done|done].
    rewrite (ev_other _ _ _ _ He); [lia|apply Hok; left|].
    intros Hk. apply Hp. rewrite Hk. by apply list_elem_of_fmap_2.
Qed.

(** One pool in one round of phase 2. *)
Lemma phase2_step_inv s0 B pools r blocked any q :
  phase_inv s0 B r (blocked ∪ B) → known s0 q → pool_key_of_pool q ∉ B → (∀ p, p ∈ pools → pool_ok p) →
  NoDup (pool_key_of_pool <$> pools) → q ∈ pools →
  let '(r', blocked', any') := phase2_step im ch (r, blocked, any) q in
  phase_inv s0 B r' (blocked' ∪ B) ∧
  ((any' = any ∧ slack (rs_sched r') pools = slack (rs_sched r) pools) ∨
   (any' = true ∧ slack (rs_sched r') pools < slack (rs_sched r) pools)).
Proof using Hdistinct Hkeyed.
  intros Hinv Hq HqB Hoks Hnd Hin. unfold phase2_step.
  case_bool_decide as Hb; [by split; [|left]|].
  destruct (pool_needs_buffer (rs_sched r) q) eqn:Hneed; simpl; [|by split; [|left]].
  assert (Hq' : known (rs_sched r) q) by (unfold known; by rewrite (pi_pools _ _ _ _ Hinv)).
  destruct (pi_max _ _ _ _ Hinv q Hq') as [Hok Hmax].
  apply needs_buffer_room in Hneed; [|apply (wf_indices _ (rinv_wf _ _ _ (pi_state _ _ _ _ Hinv)))|done|done].
  pose proof (try_place_evolves q r (pi_state _ _ _ _ Hinv) Hok) as He.
  destruct (try_place_container im ch q r) as [r1 res]. destruct He as [Hr1 He].
  pose proof (slack_evolves _ _ q _ pools He Hoks Hnd Hin) as Hsl. pose proof (ev_self _ _ _ _ He) as Hself.
  assert (Hinv' : phase_inv s0 B r1 (blocked ∪ B)).
  { apply (phase_inv_evolves s0 B r r1 _ q (if is_placed res then 1 else 0)); try done;
      [destruct (is_placed res); lia|rewrite elem_of_union; tauto]. }
  destruct res as [[]|e]; simpl in *.
  - split; [done|right]. split; [done|lia].
  - split; [|left; split; [done|lia]]. rewrite <-union_assoc_L. apply phase_inv_block; [done..|]. lia.
  - split; [done|left]. split; [done|lia].
Qed.

(** Phase 2 ends: each round that goes on has used up room. *)
Lemma phase2_terminates s0 B pools : ∀ fuel r blocked,
  phase_inv s0 B r (blocked ∪ B) → (∀ p, p ∈ pools → known s0 p ∧ pool_key_of_pool p ∉ B) →
  NoDup (pool_key_of_pool <$> pools) → slack (rs_sched r) pools < Z.of_nat fuel →
  ∃ r' blocked', phase2 im ch fuel pools r blocked = Some (r', blocked') ∧ phase_inv s0 B r' (blocked' ∪ B).
Proof using Hdistinct Hkeyed.
  induction fuel as [|fuel IH]; intros r blocked Hinv Hkn Hnd Hfuel.
  { exfalso. assert (0 ≤ slack (rs_sched r) pools); [|lia]. apply slack_nonneg. intros p Hp.
    apply (pi_max _ _ _ _ Hinv). unfold known. rewrite (pi_pools _ _ _ _ Hinv). by apply Hkn. }
  assert (Hoks : ∀ p, p ∈ pools → pool_ok p).
  { intros p Hp. apply (pi_max _ _ _ _ Hinv). unfold known. rewrite (pi_pools _ _ _ _ Hinv). by apply Hkn. }
  cbn [phase2].
  assert (HP : (λ acc : RState * gset ContainerPoolKey * bool, phase_inv s0 B acc.1.1 (acc.1.2 ∪ B) ∧
    ((acc.2 = false ∧ slack (rs_sched acc.1.1) pools = slack (rs_sched r) pools) ∨
     (acc.2 = true ∧ slack (rs_sched acc.1.1) pools < slack (rs_sched r) pools)))
    (foldl (phase2_step im ch) (r, blocked, false) pools)).
  { apply foldl_ind; [by split; [|left]|]. intros [[r1 b1] any] q Hq [Hi Hs].
    pose proof (phase2_step_inv s0 B pools r1 b1 any q Hi (proj1 (Hkn q Hq)) (proj2 (Hkn q Hq)) Hoks Hnd Hq) as Hst.
    destruct (phase2_step im ch (r1, b1, any) q) as [[r2 b2] any2]. cbn [fst snd] in *.
    destruct Hst as [Hi2 Hs2]. split; [done|]. destruct Hs as [[-> Hs]|[-> Hs]], Hs2 as [[-> Hs2]|[-> Hs2]];
      [left|right|right|right]; (split; [done|lia]). }
  destruct (foldl (phase2_step im ch) (r, blocked, false) pools) as [[r1 b1] any]. cbn [fst snd] in HP.
  destruct HP as [Hi [[-> Hs]|[-> Hs]]]; [by eauto|]. apply IH; try done. lia.
Qed.

(** The buffer loop of phase 4 ends for the same reason. *)
Lemma fill_buffer_terminates s0 B q : ∀ fuel r blocked,
  phase_inv s0 B r blocked → known s0 q → pool_key_of_pool q ∉ blocked →
  pool_max q - pool_total (rs_sched r) q < Z.of_nat fuel →
  ∃ r', fill_buffer im ch fuel q r = Some r' ∧ phase_inv s0 B r' blocked.
Proof using Hdistinct Hkeyed.
  induction fuel as [|fuel IH]; intros r blocked Hinv Hq Hnin Hfuel;
    assert (Hq' : known (rs_sched r) q) by (unfold known; by rewrite (pi_pools _ _ _ _ Hinv));
    destruct (pi_max _ _ _ _ Hinv q Hq') as [Hok Hmax]; [lia|].
  cbn [fill_buffer]. destruct (pool_needs_buffer (rs_sched r) q) eqn:Hneed; [|by eauto].
  apply needs_buffer_room in Hneed; [|apply (wf_indices _ (rinv_wf _ _ _ (pi_state _ _ _ _ Hinv)))|done|done].
  pose proof (try_place_evolves q r (pi_state _ _ _ _ Hinv) Hok) as He.
  destruct (try_place_container im ch q r) as [r1 res]. destruct He as [Hr1 He]. pose proof (ev_self _ _ _ _ He) as Hself.
  assert (Hinv' : phase_inv s0 B r1 blocked).
  { apply (phase_inv_evolves s0 B r r1 blocked q (if is_placed res then 1 else 0)); try done. destruct (is_placed res); lia. }
  destruct res as [[]|e]; simpl in *; [|by eauto..]. apply IH; try done. lia.
Qed.
End phases.

(** ** Trimming *)

(** Terminating containers takes exactly them out of the indexes. *)
Lemma terminate_members s cid :
  indices_wf s →
  let s' := (terminate_container s cid).1 in
  (∀ c k, c ∈ idx_get (cs_containers_by_function_uri s') k ↔
     c ∈ idx_get (cs_containers_by_function_uri s) k ∧ c ≠ cid) ∧
  (∀ c k, c ∈ idx_get (cs_containers_by_pool s') k ↔ c ∈ idx_get (cs_containers_by_pool s) k ∧ c ≠ cid) ∧
  (∀ c, c ≠ cid → cs_function_containers s' !! c = cs_function_containers s !! c) ∧
  (∀ k, get_pool s' k = get_pool s k) ∧ cs_blocked_pools s' = cs_blocked_pools s.
Proof.
  intros [_ Hok] s'. destruct (Hok cid) as (Hu & Hp & _). unfold s'.
  destruct (cs_function_containers s !! cid) as [fc|] eqn:E.
  - destruct (terminate_container_fields s cid fc E) as (F1 & F2 & F3 & _ & _ & _ & _ & _ & P1 & P2).
    split_and!.
    + intros c k. rewrite F2, elem_of_idx_remove. specialize (Hu k). simpl in Hu. naive_solver.
    + intros c k. rewrite F3. specialize (Hp k). simpl in Hp.
      destruct (pool_key_of fc); [rewrite elem_of_idx_remove|]; naive_solver.
    + intros c Hne. by rewrite F1, lookup_insert_ne.
    + intros k. unfold get_pool. by rewrite P1, P2.
    + unfold terminate_container. rewrite E, drop_idle_eq. by destruct (pool_key_of fc).
  - unfold terminate_container. rewrite E. cbn [fst]. simpl in Hu, Hp. split_and!; try done; naive_solver.
Qed.

(** The state after terminating a list of containers. *)
Record terminates (l : list ContainerId) (s s' : ContainerScheduler) : Prop := {
  te_wf : scheduler_wf s';
  te_uri : ∀ c k, c ∈ idx_get (cs_containers_by_function_uri s') k ↔
    c ∈ idx_get (cs_containers_by_function_uri s) k ∧ c ∉ l;
  te_pool : ∀ c k, c ∈ idx_get (cs_containers_by_pool s') k ↔ c ∈ idx_get (cs_containers_by_pool s) k ∧ c ∉ l;
  te_table : ∀ c, c ∉ l → cs_function_containers s' !! c = cs_function_containers s !! c;
  te_listed : ∀ c, cs_function_containers s' !! c = cs_function_containers s !! c ∨
    cs_function_containers s' !! c = terminated_of <$> cs_function_containers s !! c;
  te_reaped : cs_reaped_containers s' = cs_reaped_containers s;
  te_get_pool : ∀ k, get_pool s' k = get_pool s k;
  te_blocked : cs_blocked_pools s' = cs_blocked_pools s;
}.

Lemma terminate_all l : ∀ s u, scheduler_wf s → terminates l s (foldl terminate_step (s, u) l).1.
Proof.
  induction l as [|cid l IH]; intros s u Hs.
  { split; try done; [..|by left]; intros c k; rewrite elem_of_nil; naive_solver. }
  cbn [foldl]. unfold terminate_step at 2. pose proof (terminate_container_sched_wf s cid Hs) as Hs1.
  destruct (terminate_members s cid (wf_indices s Hs)) as (M1 & M2 & M3 & M4 & M5).
  pose proof (terminate_container_frame s cid) as Hf. unfold frame_view in Hf. injection Hf as _ _ _ _ _ Rr _ _.
  assert (Hlist : cs_function_containers (terminate_container s cid).1 !! cid =
    terminated_of <$> cs_function_containers s !! cid).
  { destruct (cs_function_containers s !! cid) as [fc|] eqn:E.
    - by rewrite (terminate_container_table s cid fc E), lookup_insert_eq.
    - unfold terminate_container. by rewrite E. }
  destruct (terminate_container s cid) as [s1 tu]. cbn [fst] in *.
  destruct (IH s1 (match tu with Some tu => extend u tu | None => u end) Hs1) as [I1 I2 I3 I4 I5 I6 I7 I8]. split.
  - done.
  - intros c k. rewrite I2, M1, not_elem_of_cons. tauto.
  - intros c k. rewrite I3, M2, not_elem_of_cons. tauto.
  - intros c [Hne Hc]%not_elem_of_cons. by rewrite I4, M3.
  - intros c. destruct (I5 c) as [->| ->]; (destruct (decide (c = cid)) as [->|Hne]; [rewrite Hlist|rewrite (M3 c Hne)]);
      try (by left); right; [done| |done]. by destruct (cs_function_containers s !! cid).
  - by rewrite I6.
  - intros k. by rewrite I7.
  - by rewrite I8.
Qed.

(** Sizes only shrink. *)
Lemma terminates_total l s s' p : terminates l s s' → pool_total s' p ≤ pool_total s p.
Proof.
  intros Ht. unfold pool_total, pool_size.
  assert (Hsub : ∀ x y : gset ContainerId, (∀ c, c ∈ y → c ∈ x) → Z.of_nat (size y) ≤ Z.of_nat (size x)).
  { intros x y Hxy. apply inj_le, subseteq_size. set_solver. }
  destruct (is_function_pool p); [destruct (parse_function_pool_uri p); [|done]|]; apply Hsub; intros c.
  - by intros [? _]%(te_uri _ _ _ Ht).
  - by intros [? _]%(te_pool _ _ _ Ht).
Qed.
Lemma terminates_rinv ch l s s' tick : terminates l s s' → rinv ch s tick → rinv ch s' tick.
Proof.
  intros Ht [H1 H2 H3]. split; [apply Ht| |].
  - intros n Hn. destruct (H2 n Hn) as [Ha Hb]. rewrite (te_reaped _ _ _ Ht). split; [|done].
    destruct (te_listed _ _ _ Ht (ch_fresh (ch n))) as [->| ->]; by rewrite Ha.
  - intros uri rl cid fc. rewrite (te_reaped _ _ _ Ht). intros Hl Hin Hfc.
    destruct (te_listed _ _ _ Ht cid) as [E|E]; rewrite E in Hfc; [by apply (H3 uri rl cid)|].
    destruct (cs_function_containers s !! cid) as [fc0|] eqn:E0; [|done]. injection Hfc as <-.
    by apply (H3 uri rl cid fc0).
Qed.

Section trim.
Context `{HO : HashOrder}.

(** An indexed function container without allocations. *)
Definition idle_id (s : ContainerScheduler) (id : ContainerId) : bool :=
  match cs_function_containers s !! id with
  | Some m => bool_decide (csm_allocations m = ∅)
  | None => false
  end.

Lemma count_idle_length s uri ids :
  indices_wf s → cs_containers_by_function_uri s !! uri = Some ids → Z.of_nat (size ids) < 2 ^ 32 →
  (count_active_idle_containers s uri).2 = Z.of_nat (length (List.filter (idle_id s) (set_iter ids))).
Proof.
  intros _ E Hsz. unfold count_active_idle_containers. rewrite E. rewrite <-length_set_iter in Hsz.
  set (l := set_iter ids) in *. clearbody l. set (f := λ '(active, idle) id, _).
  assert (HP : (λ pre (acc : Z * Z), acc.2 = Z.of_nat (length (List.filter (idle_id s) pre)) ∧ 0 ≤ acc.2 ≤ Z.of_nat (length pre))
    l (foldl f (0, 0) l)); [|by destruct HP].
  apply foldl_ind_prefix; [simpl; lia|]. intros pre c [a i] [post Hpost] [Hi Hle]. simpl in Hi, Hle |- *.
  rewrite List.filter_app, !length_app. simpl. unfold idle_id at 2. rewrite Hpost, length_app in Hsz. simpl in Hsz.
  destruct (cs_function_containers s !! c) as [m|]; simpl; [|lia].
  destruct (bool_decide (csm_allocations m = ∅)); simpl; [rewrite wrap32_id by (unfold in_u32; lia)|]; lia.
Qed.

Lemma select_idle_loop_eq s count ids : ∀ res,
  Z.of_nat (length res) ≤ count →
  select_idle_loop s ids count res = res ++ take (Z.to_nat count - length res) (List.filter (idle_id s) ids).
Proof.
  induction ids as [|id ids IH]; intros res Hle; cbn [select_idle_loop List.filter].
  { by rewrite take_nil, app_nil_r. }
  case_bool_decide as Hc.
  { replace (Z.to_nat count - length res)%nat with 0%nat by lia. by rewrite take_0, app_nil_r. }
  assert (Hrest : select_idle_loop s ids count res = res ++ take (Z.to_nat count - length res) (List.filter (idle_id s) ids))
    by (apply IH; lia).
  unfold idle_id at 1. destruct (cs_function_containers s !! id) as [m|]; [|done].
  destruct (bool_decide (csm_allocations m = ∅)); [|done].
  rewrite IH by (rewrite length_app; simpl; lia). rewrite length_app. simpl.
  replace (Z.to_nat count - length res)%nat with (S (Z.to_nat count - (length res + 1))) by lia.
  by rewrite <-app_assoc.
Qed.

(** The containers a trim of [count] picks. *)
Definition trim_selection (p : ContainerPool) (count : Z) (s : ContainerScheduler) : list ContainerId :=
  if is_function_pool p then
    match parse_function_pool_uri p with
    | Some uri => select_idle_containers s uri count
    | None => []
    end
  else select_warm_pool_containers s (pool_key_of_pool p) count.
(** The index set the pool is counted by. *)
Definition pool_members (p : ContainerPool) (s : ContainerScheduler) : gset ContainerId :=
  if is_function_pool p then
    match parse_function_pool_uri p with
    | Some uri => idx_get (cs_containers_by_function_uri s) uri
    | None => ∅
    end
  else idx_get (cs_containers_by_pool s) (pool_key_of_pool p).
Lemma pool_total_members s p : pool_total s p = Z.of_nat (size (pool_members p s)).
Proof. unfold pool_total, pool_members, pool_size. by repeat case_match. Qed.

(** A container no work is using: without allocations, or unclaimed. *)
Definition unused (p : ContainerPool) (m : ContainerServerMetadata) : Prop :=
  if is_function_pool p then csm_allocations m = ∅ else ctr_sandbox_id (csm_function_container m) = None.

Lemma trim_selection_spec s p count :
  indices_wf s → pool_total s p < 2 ^ 32 → 0 ≤ count ≤ (reconciler_count s p).2 →
  let l := trim_selection p count s in
  NoDup l ∧ Z.of_nat (length l) = count ∧
  ∀ c, c ∈ l → c ∈ pool_members p s ∧ ∃ m, cs_function_containers s !! c = Some m ∧ unused p m.
Proof.
  intros Hs Hsz Hcount. pose proof Hs as [_ Hok].
  unfold trim_selection, pool_members, unused, reconciler_count, pool_total in *.
  destruct (is_function_pool p).
  - destruct (parse_function_pool_uri p) as [uri|]; simpl in *.
    2:{ split_and!; [constructor|simpl; lia|]. by intros c ?%elem_of_nil. }
    unfold select_idle_containers, idx_get in *.
    destruct (cs_containers_by_function_uri s !! uri) as [ids|] eqn:E.
    + rewrite (count_idle_length s uri ids Hs E Hsz) in Hcount. rewrite select_idle_loop_eq by (simpl; lia). simpl.
      rewrite Nat.sub_0_r. split_and!.
      * eapply sublist_NoDup; [|apply sublist_take]. apply NoDup_ListNoDup, List.NoDup_filter, NoDup_ListNoDup, NoDup_set_iter.
      * rewrite length_take. lia.
      * intros c Hc. apply (subseteq_take (Z.to_nat count)) in Hc. apply list_elem_of_In, filter_In in Hc as [Hc Hb].
        apply list_elem_of_In, elem_of_set_iter in Hc. split; [done|]. unfold idle_id in Hb.
        destruct (cs_function_containers s !! c) as [m|]; [|done]. exists m. by apply bool_decide_eq_true in Hb.
    + unfold count_active_idle_containers in Hcount. rewrite E in Hcount. simpl in Hcount.
      split_and!; [constructor|simpl; lia|]. by intros c ?%elem_of_nil.
  - set (key := pool_key_of_pool p) in *. unfold select_warm_pool_containers.
    destruct (pool_index_size s key Hs) as [Ep Ew].
    assert (Hle : (size (idx_get (cs_warm_containers_by_pool s) key) ≤ size (idx_get (cs_containers_by_pool s) key))%nat).
    { rewrite Ep, Ew. apply containers_where_mono. by intros m [? _]%andb_true_iff. }
    unfold count_pool_containers in Hcount. simpl in Hcount. unfold pool_size, idx_get in *.
    destruct (cs_warm_containers_by_pool s !! key) as [ids|] eqn:E; simpl in *.
    + unfold len_u32 in Hcount. rewrite wrap32_id in Hcount by (unfold in_u32; lia). split_and!.
      * eapply sublist_NoDup; [|apply sublist_take]. apply NoDup_set_iter.
      * rewrite length_take, length_set_iter. lia.
      * intros c Hc. apply (subseteq_take (Z.to_nat count)) in Hc. apply elem_of_set_iter in Hc.
        assert (Hc' : c ∈ idx_get (cs_warm_containers_by_pool s) key) by (unfold idx_get; by rewrite E).
        apply (Hok c) in Hc'. destruct (Hok c) as (_ & Hp & _). specialize (Hp key). unfold idx_get in Hp. rewrite Hp.
        destruct (cs_function_containers s !! c) as [m|]; [|done]. simpl in *. destruct Hc' as (Hl & Hk & Hw).
        split; [done|]. exists m. unfold warm in Hw. by apply bool_decide_eq_true in Hw.
    + split_and!; [constructor|simpl; lia|]. by intros c ?%elem_of_nil.
Qed.
End trim.

Section trim_claims.
Context `{HO : HashOrder}.

Lemma trim_idle_containers_eq p count s :
  trim_idle_containers p count s = foldl terminate_step (s, empty_update) (trim_selection p count s).
Proof. done. Qed.

Lemma trim_pool_excess_terminates p r :
  scheduler_wf (rs_sched r) →
  ∃ l, terminates l (rs_sched r) (rs_sched (trim_pool_excess p r)) ∧ rs_tick (trim_pool_excess p r) = rs_tick r.
Proof.
  intros Hs. unfold trim_pool_excess. destruct (reconciler_count (rs_sched r) p) as [active idle].
  destruct (bool_decide _ && bool_decide _); [|by exists []; split; [apply (terminate_all [] (rs_sched r) empty_update)|]].
  rewrite trim_idle_containers_eq. set (l := trim_selection _ _ _). exists l.
  pose proof (terminate_all l (rs_sched r) empty_update Hs) as Ht.
  by destruct (foldl terminate_step _ l) as [s' u].
Qed.

(** The size a pool is trimmed to. *)
Definition trim_limit (p : ContainerPool) (active total : Z) : Z :=
  Z.min (match cp_buffer_containers p with
         | Some buffer => Z.max (active + buffer) (pool_min p)
         | None => Z.max total (pool_min p)
         end) (pool_max p).

Lemma members_terminates l s s' p :
  terminates l s s' → NoDup l → (∀ c, c ∈ l → c ∈ pool_members p s) →
  pool_total s' p = pool_total s p - Z.of_nat (length l).
Proof.
  intros Ht Hnd Hin. rewrite !pool_total_members.
  assert (Hm : pool_members p s' = pool_members p s ∖ list_to_set l).
  { apply set_eq. intros c. rewrite elem_of_difference, elem_of_list_to_set. unfold pool_members.
    destruct (is_function_pool p); [destruct (parse_function_pool_uri p); [apply Ht|set_solver]|apply Ht]. }
  assert (Hsub : list_to_set l ⊆ pool_members p s) by (intros c; rewrite elem_of_list_to_set; apply Hin).
  pose proof (subseteq_size _ _ Hsub) as Hle. rewrite size_list_to_set in Hle by done.
  rewrite Hm, size_difference, size_list_to_set by done. lia.
Qed.

(** Trimming brings a pool that is over its target down to the target, or to
    its active containers if there are more of them than that, and leaves a pool
    within its target alone; whatever it terminates was idle (function pools) or
    unclaimed (sandbox pools). *)
Theorem trim_spec p r active idle :
  scheduler_wf (rs_sched r) → pool_total (rs_sched r) p < 2 ^ 32 →
  reconciler_count (rs_sched r) p = (active, idle) →
  0 ≤ active + default 0 (cp_buffer_containers p) < 2 ^ 32 →
  let s := rs_sched r in
  let s' := rs_sched (trim_pool_excess p r) in
  let limit := trim_limit p active (pool_total s p) in
  scheduler_wf s' ∧
  pool_total s' p = (if bool_decide (pool_total s p ≤ limit) then pool_total s p else Z.max limit active) ∧
  ∀ c m, cs_function_containers s !! c = Some m →
    cs_function_containers s' !! c = Some m ∨
    (unused p m ∧ c ∈ pool_members p s ∧ cs_function_containers s' !! c = Some (terminated_of m)).
Proof.
  intros Hs Hsz Hcount Hbuf s s' limit. subst s.
  destruct (reconciler_count_total (rs_sched r) p (wf_indices _ Hs) Hsz) as (a & i & Hc & Ha & Hi & Hsum).
  rewrite Hcount in Hc. injection Hc as <- <-. unfold s', trim_pool_excess. rewrite Hcount, wrap32_id by (unfold in_u32; lia).
  rewrite Hsum. fold limit.
  assert (Hlim : Z.min (match cp_buffer_containers p with
    | Some buffer => Z.max (wrap32 (active + buffer)) (pool_min p)
    | None => Z.max (pool_total (rs_sched r) p) (pool_min p) end) (pool_max p) = limit).
  { unfold limit, trim_limit. destruct (cp_buffer_containers p); simpl in Hbuf; [|done].
    by rewrite wrap32_id by (unfold in_u32; lia). }
  rewrite Hlim. clear Hlim. destruct (bool_decide (limit < _) && bool_decide (0 < idle)) eqn:Hb.
  - apply andb_true_iff in Hb as [Hlt%bool_decide_eq_true Hpos%bool_decide_eq_true].
    rewrite trim_idle_containers_eq. set (excess := Z.min _ idle).
    destruct (trim_selection_spec (rs_sched r) p excess (wf_indices _ Hs) Hsz) as (Hnd & Hlen & Hsel);
      [rewrite Hcount; simpl; lia|].
    set (l := trim_selection p excess (rs_sched r)) in *. clearbody l.
    pose proof (terminate_all l (rs_sched r) empty_update Hs) as Ht.
    destruct (foldl terminate_step _ l) as [s1 u]. cbn [fst] in Ht.
    change (rs_sched (r <| rs_sched := s1 |> <| rs_update ::= λ v, extend v u |>)) with s1.
    rewrite (members_terminates l (rs_sched r) s1 p Ht Hnd) by (intros c Hin; by apply Hsel).
    split_and!; [apply Ht|rewrite bool_decide_eq_false_2 by lia; lia|].
    intros c m Em. destruct (decide (c ∈ l)) as [Hin|Hin]; [|left; by rewrite (te_table _ _ _ Ht)].
    destruct (te_listed _ _ _ Ht c) as [E|E]; [left; congruence|]. right.
    destruct (Hsel c Hin) as [Hmem (m' & Em' & Hun)]. rewrite Em in Em'. injection Em' as <-.
    split_and!; [done|done|by rewrite E, Em].
  - split_and!; [done| |by left]. destruct (decide (pool_total (rs_sched r) p ≤ limit)) as [Hle|Hle];
      [by rewrite bool_decide_eq_true_2|rewrite bool_decide_eq_false_2 by done].
    rewrite (bool_decide_eq_true_2 (limit < _)) in Hb by lia. simpl in Hb. apply bool_decide_eq_false in Hb. lia.
Qed.
End trim_claims.

(** ** The whole reconciliation *)

Section reconcile.
Context `{HO : HashOrder} (im : InMemoryState) (ch : nat → Choice).

(** Pools are filed under their own keys. *)
Definition pools_keyed (s : ContainerScheduler) : Prop := ∀ k p, get_pool s k = Some p → pool_key_of_pool p = k.

Lemma phase_inv_weaken s0 B r b b' : phase_inv ch s0 B r b → b' ⊆ b → phase_inv ch s0 B r b'.
Proof. intros [H1 H2 H3 H4 H5] Hsub. split; [done..| |done]. intros p Hp Hin. apply H4; [done|by apply Hsub]. Qed.
Lemma phase_inv_set_blocked s0 B B' r b g :
  phase_inv ch s0 B r b → g (cs_blocked_pools (rs_sched r)) ⊆ B' →
  phase_inv ch s0 B' (r <| rs_sched ::= λ s, s <| cs_blocked_pools ::= g |> |>) b.
Proof.
  intros [[W F R] H2 H3 H4 H5] Hg. split; [|exact H2|exact H3|exact H4|exact Hg]. split; [|exact F|exact R].
  by apply (scheduler_wf_view (rs_sched r)).
Qed.
Lemma phase_inv_terminates s0 B r r' b l :
  phase_inv ch s0 B r b → terminates l (rs_sched r) (rs_sched r') → rs_tick r' = rs_tick r → phase_inv ch s0 B r' b.
Proof.
  intros [H1 H2 H3 H4 H5] Ht Htick.
  assert (Hkn : ∀ p, known (rs_sched r') p ↔ known (rs_sched r) p)
    by (intros p; unfold known; by rewrite (te_get_pool _ _ _ Ht)).
  split.
  - rewrite Htick. by apply (terminates_rinv ch l (rs_sched r)).
  - intros k. by rewrite (te_get_pool _ _ _ Ht).
  - intros p Hp. rewrite Hkn in Hp. destruct (H3 p Hp). split; [done|].
    pose proof (terminates_total l _ _ p Ht). lia.
  - intros p Hp Hin. rewrite Hkn in Hp. specialize (H4 p Hp Hin). pose proof (terminates_total l _ _ p Ht). lia.
  - by rewrite (te_blocked _ _ _ Ht).
Qed.

(** The dirty pools the reconciler works on. *)
Definition worked_pools (s : ContainerScheduler) (dirty : gset ContainerPoolKey) : list ContainerPool :=
  omap (λ key, if bool_decide (key ∈ cs_blocked_pools s) then None else get_pool s key) (set_iter dirty).

Lemma worked_pools_ok s dirty :
  pools_keyed s →
  NoDup (pool_key_of_pool <$> worked_pools s dirty) ∧
  ∀ p, p ∈ worked_pools s dirty → known s p ∧ pool_key_of_pool p ∉ cs_blocked_pools s.
Proof.
  intros Hpk. unfold worked_pools. split.
  - apply (sublist_NoDup _ (set_iter dirty)); [apply NoDup_set_iter|].
    induction (set_iter dirty) as [|k l IH]; [done|]. cbn [omap list_omap].
    case_bool_decide; [by apply sublist_cons|]. destruct (get_pool s k) as [p|] eqn:E; [|by apply sublist_cons].
    rewrite fmap_cons, (Hpk k p E). by apply sublist_skip.
  - intros p (k & _ & Hk)%list_elem_of_omap. case_bool_decide; [done|].
    unfold known. by rewrite (Hpk k p Hk).
Qed.

(** Phase 3 terminates idle containers only. *)
Lemma phase3_inv s0 B r b (skip : gset ContainerPoolKey) pools :
  phase_inv ch s0 B r b →
  phase_inv ch s0 B (foldl (λ r p, if bool_decide (pool_key_of_pool p ∈ skip) then r else trim_pool_excess p r) r pools) b.
Proof.
  intros H. apply (foldl_ind (λ r, phase_inv ch s0 B r b)); [done|]. intros r1 p _ H1. case_bool_decide; [done|].
  destruct (trim_pool_excess_terminates p r1) as (l & Ht & Htick); [apply (rinv_wf _ _ _ (pi_state _ _ _ _ _ H1))|].
  by apply (phase_inv_terminates s0 B r1 _ b l).
Qed.
Hypothesis Hdistinct : choices_distinct ch.
Hypothesis Hkeyed : functions_keyed im.

Lemma phase4_step_inv s0 B fuel r key rest :
  phase_inv ch s0 B r ({[key]} ∪ rest) → key ∉ rest → pools_keyed s0 → u32_max < Z.of_nat fuel →
  ∃ r', phase4_step im ch fuel r key = Some r' ∧ phase_inv ch s0 B r' rest.
Proof using Hdistinct Hkeyed.
  intros Hinv Hnin Hpk Hfuel. assert (Hinv0 : phase_inv ch s0 B r rest) by (eapply phase_inv_weaken; [done|set_solver]).
  unfold phase4_step. case_bool_decide; cbn [negb]; [|by eauto].
  destruct (get_pool (rs_sched r) key) as [p|] eqn:Eg.
  2:{ eexists. split; [reflexivity|]. apply (phase_inv_set_blocked s0 B B r rest (λ b, b ∖ {[key]})); [done|].
      pose proof (pi_blocked _ _ _ _ _ Hinv). set_solver. }
  assert (Hkey : pool_key_of_pool p = key) by (apply Hpk; by rewrite <-(pi_pools _ _ _ _ _ Hinv)).
  assert (Hkn : known (rs_sched r) p) by (unfold known; by rewrite Hkey).
  assert (Hkn0 : known s0 p) by (unfold known in *; by rewrite <-(pi_pools _ _ _ _ _ Hinv)).
  destruct (pi_max _ _ _ _ _ Hinv p Hkn) as [Hok Hmax].
  assert (Hroom : pool_total (rs_sched r) p < pool_max p) by (apply (pi_below _ _ _ _ _ Hinv); [done|rewrite Hkey; set_solver]).
  pose proof (try_place_evolves im ch Hdistinct Hkeyed p r (pi_state _ _ _ _ _ Hinv) Hok) as He.
  destruct (try_place_container im ch p r) as [r1 res]. destruct He as [Hr1 He]. pose proof (ev_self _ _ _ _ He) as Hself.
  assert (Hinv1 : phase_inv ch s0 B r1 rest).
  { apply (phase_inv_evolves ch s0 B r r1 rest p (if is_placed res then 1 else 0)); try done;
      [destruct (is_placed res); lia|by rewrite Hkey]. }
  destruct res as [[]|e]; [|by eauto..].
  apply (phase_inv_set_blocked _ _ B _ _ (λ b, b ∖ {[key]})) in Hinv1;
    [|pose proof (pi_blocked _ _ _ _ _ Hinv1); set_solver]. set (r2 := r1 <| rs_sched ::= λ s, s <| cs_blocked_pools ::= λ b, b ∖ {[key]} |> |>) in *. clearbody r2.
  assert (Hkn2 : known (rs_sched r2) p) by (unfold known; by rewrite (pi_pools _ _ _ _ _ Hinv1)).
  destruct (pi_max _ _ _ _ _ Hinv1 p Hkn2) as [_ Hmax2].
  pose proof (ensure_pool_min_evolves im ch Hdistinct Hkeyed p r2 (pi_state _ _ _ _ _ Hinv1) Hok Hmax2) as Hm.
  destruct (ensure_pool_min im ch p r2) as [r3 ok]. destruct Hm as (Hr3 & d & Hd & He3 & Hle & _).
  pose proof (ev_self _ _ _ _ He3) as Hself3.
  assert (Hinv3 : phase_inv ch s0 B r3 rest).
  { apply (phase_inv_evolves ch s0 B r2 r3 rest p d); try done; [destruct Hle as [->|Hle]; lia|by rewrite Hkey]. }
  apply (fill_buffer_terminates im ch Hdistinct Hkeyed s0 B p); try done; [by rewrite Hkey|].
  pose proof (pool_total_nonneg (rs_sched r3) p). destruct Hok as [Hu _]. lia.
Qed.

Lemma phase4_inv s0 B fuel keys : ∀ r,
  phase_inv ch s0 B r (list_to_set keys) → NoDup keys → pools_keyed s0 → u32_max < Z.of_nat fuel →
  ∃ r', phase4 im ch fuel keys r = Some r' ∧ phase_inv ch s0 B r' ∅.
Proof using Hdistinct Hkeyed.
  induction keys as [|k keys IH]; intros r Hinv Hnd Hpk Hfuel; cbn [phase4]; [by eauto|].
  apply NoDup_cons in Hnd as [Hk Hnd].
  destruct (phase4_step_inv s0 B fuel r k (list_to_set keys) Hinv) as (r1 & -> & Hr1); try done.
  { by rewrite elem_of_list_to_set. }
  by apply IH.
Qed.
(** C2: one reconciliation ends and keeps every pool within its maximum: when
    every known pool respects its [max_containers] and the pools already blocked
    have room, then [reconcile] returns for every large enough bound on its loops
    ([while] loops of the buffer phases), the scheduler it leaves satisfies the
    scheduler's invariant and every pool it knows still respects its maximum,
    whatever executors, random choices and clocks the placements meet. *)
Theorem reconcile_respects_max s cache :
  rinv ch s 0 → pools_keyed s → max_ok s → below s (cs_blocked_pools s) →
  ∃ n, ∀ fuel, (n ≤ fuel)%nat → ∃ s' cache' u,
    reconcile im ch fuel s cache = Some (s', cache', u) ∧
    scheduler_wf s' ∧ (∀ k, get_pool s' k = get_pool s k) ∧ max_ok s'.
Proof using Hdistinct Hkeyed.
  intros Hr Hpk Hmax Hbelow. set (s0 := s <| cs_dirty_pools := ∅ |>).
  set (r0 := MkRState s0 empty_update cache 0). set (B := cs_blocked_pools s).
  assert (H0 : phase_inv ch s0 B r0 B).
  { destruct Hr as [R1 R2 R3]. split; [|done|exact Hmax|exact Hbelow|done].
    split; [by apply (scheduler_wf_view s)|exact R2|exact R3]. }
  destruct (worked_pools_ok s0 (cs_dirty_pools s) Hpk) as [Hnd Hkn].
  set (pools := worked_pools s0 (cs_dirty_pools s)) in *.
  pose proof (phase1_inv im ch Hdistinct Hkeyed s0 B pools r0 H0 Hnd Hkn) as H1.
  destruct (foldl (phase1_step im ch) (r0, ∅) pools) as [r1 b1] eqn:E1.
  set (n := Z.to_nat (Z.max u32_max (slack (rs_sched r1) pools) + 1)). exists n. intros fuel Hfuel.
  destruct (phase2_terminates im ch Hdistinct Hkeyed s0 B pools fuel r1 b1 H1 Hkn Hnd) as (r2 & newly & E2 & H2); [lia|].
  pose proof (phase3_inv s0 B r2 (newly ∪ B) newly pools H2) as H3.
  set (r3 := foldl _ r2 pools) in H3.
  pose proof (phase_inv_set_blocked s0 B (newly ∪ B) r3 _ (λ b, b ∪ newly) H3) as H4.
  specialize (H4 ltac:(pose proof (pi_blocked _ _ _ _ _ H3); set_solver)). set (r4 := r3 <| rs_sched ::= _ |>) in H4.
  destruct (phase4_inv s0 (newly ∪ B) fuel (set_iter (cs_blocked_pools (rs_sched r4))) r4) as (r5 & E5 & H5);
    [|apply NoDup_set_iter|done|lia|].
  { apply (phase_inv_weaken s0 _ r4 (newly ∪ B)); [done|]. intros k Hk.
    rewrite elem_of_list_to_set, elem_of_set_iter in Hk. by apply (pi_blocked _ _ _ _ _ H4). }
  assert (Hend : ∀ r b, phase_inv ch s0 (newly ∪ B) r b →
    scheduler_wf (rs_sched r) ∧ (∀ k, get_pool (rs_sched r) k = get_pool s k) ∧ max_ok (rs_sched r)).
  { intros r b [[W _ _] P M _ _]. done. }
  unfold reconcile, take_dirty_pools. fold s0. cbn zeta.
  change (omap _ (set_iter (cs_dirty_pools s))) with pools. fold r0. rewrite E1, E2.
  destruct (bool_decide _ && bool_decide _).
  { do 3 eexists. split; [reflexivity|]. destruct Hr as [R1 _ _]. split_and!; [by apply (scheduler_wf_view s)|done|exact Hmax]. }
  change (foldl _ r2 pools) with r3. fold r4.
  destruct (negb _ && has_available_capacity (rs_sched r4)).
  - rewrite E5. destruct (accumulate_pool_deficits _ _ _) as [fd sd]. do 3 eexists. split; [reflexivity|]. by apply (Hend r5 ∅).
  - destruct (accumulate_pool_deficits _ _ _) as [fd sd]. do 3 eexists. split; [reflexivity|]. by apply (Hend r4 (newly ∪ B)).
Qed.
End reconcile.

(** ** Concrete runs *)

(** A sandbox pool of one to two containers on a free executor. *)
Definition sandbox_pool_ex : ContainerPool :=
  MkContainerPool "pool" "ns" CPT_Sandbox "img" (MkContainerResources 1000 1024 1024 None) None None [] 0
    (Some 1) (Some 2) (Some 1) 0 false None None false None.
Definition unfilled_ex : ContainerScheduler :=
  mark_pool_dirty (insert_pool one_executor_ex sandbox_pool_ex) (pool_key_of_pool sandbox_pool_ex).
Definition no_work_ex : InMemoryState := empty_state.
Definition choices_ex (n : nat) : Choice := MkChoice (pretty (N.of_nat n)) (2 ^ 31) (Z.of_nat n).
Definition reconciled_ex := @reconcile canonical_order no_work_ex choices_ex 5 unfilled_ex ∅.

Lemma unfilled_ex_pools k p :
  get_pool unfilled_ex k = Some p → k = pool_key_of_pool sandbox_pool_ex ∧ p = sandbox_pool_ex.
Proof.
  change (get_pool unfilled_ex k) with (match (∅ : gmap ContainerPoolKey ContainerPool) !! k with Some q => Some q
    | None => (<[pool_key_of_pool sandbox_pool_ex := sandbox_pool_ex]> (∅ : gmap ContainerPoolKey ContainerPool)) !! k end).
  rewrite lookup_empty. by intros [[<- <-]|[_ []%lookup_empty_Some]]%lookup_insert_Some.
Qed.
Lemma unfilled_ex_total : pool_total unfilled_ex sandbox_pool_ex = 0.
Proof. vm_compute. reflexivity. Qed.

Lemma reconcile_respects_max_witness :
  (∃ n, ∀ fuel, (n ≤ fuel)%nat → ∃ s' cache' u,
    @reconcile canonical_order no_work_ex choices_ex fuel unfilled_ex ∅ = Some (s', cache', u) ∧ max_ok s') ∧
  (λ r, pool_total r.1.1 sandbox_pool_ex) <$> reconciled_ex = Some 1.
Proof.
  split; [|vm_compute; reflexivity].
  destruct (@reconcile_respects_max canonical_order no_work_ex choices_ex) with (s := unfilled_ex) (cache := (∅ : FeasibilityCache))
    as [n Hn].
  - intros i j H. apply Nat2N.inj. exact (inj pretty _ _ H).
  - intros key app name f H. exfalso. exact (lookup_empty_Some key app H).
  - split.
    + apply (scheduler_wf_view one_executor_ex); [reflexivity|exact one_executor_scheduler_wf].
    + intros n _. split; [exact (lookup_empty _)|]. intros uri l H. exfalso. exact (lookup_empty_Some uri l H).
    + intros uri l cid fc H. exfalso. exact (lookup_empty_Some uri l H).
  - intros k p H. by destruct (unfilled_ex_pools k p H) as [-> ->].
  - intros p H. destruct (unfilled_ex_pools _ p H) as [_ ->]. rewrite unfilled_ex_total.
    repeat split; vm_compute; congruence.
  - intros p H _. destruct (unfilled_ex_pools _ p H) as [_ ->]. rewrite unfilled_ex_total. reflexivity.
  - exists n. intros fuel Hf. destruct (Hn fuel Hf) as (s' & c' & u & E & _ & _ & M). exists s', c', u. by split.
Defined.

(** The idle container of a pool that asks for none. *)
Definition idle_pool_ex : ContainerPool :=
  MkContainerPool "app|fn|v1" "ns" CPT_Function "" cres_ex None None [] 0 None (Some 10) (Some 0) 0 false None None false None.
Definition idle_run_ex : RState := MkRState idle_scheduler_ex empty_update ∅ 0.
Lemma trim_spec_witness :
  pool_total idle_scheduler_ex idle_pool_ex = 1 ∧
  pool_total (rs_sched (@trim_pool_excess canonical_order idle_pool_ex idle_run_ex)) idle_pool_ex = 0.
Proof.
  split; [vm_compute; reflexivity|].
  destruct (@trim_spec canonical_order idle_pool_ex idle_run_ex 0 1 idle_scheduler_ex_wf) as (_ & H & _);
    [vm_compute; reflexivity|vm_compute; reflexivity|vm_compute; split; congruence|].
  rewrite H. vm_compute. reflexivity.
Defined.
