(* ===== verification/FunctionRuns.v ===== *)
(** * Function runs

    The life of the runs of a request: the retry policy of [retry_policy.rs] and
    the creation of calls and runs of [function_run_creator.rs].

    - A handler's result is [None] where the source would panic or not return.
    - The hexadecimal SHA-256 digest of the [sha2] crate is the parameter
      [sha256_hex]; the read of an allocation from the database is the parameter
      [get_allocation], whose [inl] is an error.
    - [now_ns] and [now] are the clock readings of one call. *)
From stdpp Require Import pretty.
From S2P Require Import Prelude DataModel Resources Updates InMemoryState Blocked SchedulerState.

(** ** Records updated field by field *)

#[export] Instance eta_FunctionCall : Eta FunctionCall := λ c,
  MkFunctionCall (fc_function_call_id c) (fc_inputs c) (fc_fn_name c) (fc_call_metadata c) (fc_parent_function_call_id c).

(** ** Retry policy *)

(** [ApplicationVersion::function_run_max_retries]. *)
Definition function_run_max_retries (av : ApplicationVersion) (r : FunctionRun) : option Z :=
  (λ f, retry_max_retries (fn_retry_policy f)) <$> av_functions av !! fr_name r.

(** [handle_allocation_failure]. *)
Definition handle_allocation_failure (r : FunctionRun) (reason : FunctionRunFailureReason) (av : ApplicationVersion)
    : FunctionRun :=
  let uses_attempt := should_count_against_function_run_retry_attempts reason in
  let given_up := r <| fr_status := FRS_Completed |> <| fr_outcome := Some (FRO_Failure reason) |> in
  match function_run_max_retries av r with
  | Some max_retries =>
      if is_retriable reason && (bool_decide (fr_attempt_number r < max_retries) || negb uses_attempt) then
        let r1 := r <| fr_status := FRS_Pending |> in
        if uses_attempt then r1 <| fr_attempt_number := wrap32 (fr_attempt_number r + 1) |> else r1
      else given_up
  | None => given_up
  end.

(** [handle_allocation_outcome]. *)
Definition handle_allocation_outcome (r : FunctionRun) (a : Allocation) (av : ApplicationVersion) : FunctionRun :=
  match al_outcome a with
  | FRO_Success => r <| fr_status := FRS_Completed |> <| fr_outcome := Some (al_outcome a) |>
  | FRO_Failure reason => handle_allocation_failure r reason av
  | FRO_Unknown => r
  end.

(** ** Calls and runs of a request *)

(** [ApplicationVersion::create_function_run]. *)
Definition create_function_run (av : ApplicationVersion) (call : FunctionCall) (args : list InputArgs)
    (request_id : string) (now_ns : Z) : FunctionRun :=
  MkFunctionRun (fc_function_call_id call) request_id (av_namespace av) (av_name av) (av_version av) (fc_fn_name call)
    (CO_FunctionCall (MkFunctionCall (fc_function_call_id call) (fc_inputs call) (fc_fn_name call)
                        (fc_call_metadata call) (fc_parent_function_call_id call)))
    args None None FRS_Pending false None 0 now_ns None None (fc_call_metadata call) None.

(** [RequestCtx::pending_function_calls]. *)
Definition pending_function_calls (ctx : RequestCtx) : gset FunctionCallId :=
  dom (rc_function_calls ctx) ∖ dom (rc_function_runs ctx).

Definition run_is_completed (r : FunctionRun) : bool :=
  match fr_status r with FRS_Completed => true | _ => false end.
(** [RequestCtx::is_request_completed]. *)
Definition is_request_completed (ctx : RequestCtx) : bool :=
  match rc_outcome ctx with
  | Some _ => true
  | None => if bool_decide (size (rc_function_calls ctx) = size (rc_function_runs ctx))
            then bool_decide (map_Forall (λ _ r, run_is_completed r = true) (rc_function_runs ctx)) else false
  end.

(** The inputs of a call that can run, with their values; [None] while one is
    missing. *)
Fixpoint gather_inputs (ctx : RequestCtx) (inputs : list FunctionArgs) : option (list InputArgs) :=
  match inputs with
  | [] => Some []
  | FA_DataPayload d :: rest => cons (MkInputArgs None d) <$> gather_inputs ctx rest
  | FA_FunctionRunOutput id :: rest =>
      match rc_function_runs ctx !! id with
      | Some r => match fr_output r with
                  | Some d => cons (MkInputArgs (Some id) d) <$> gather_inputs ctx rest
                  | None => None
                  end
      | None => None
      end
  end.

Section creator.
Context `{HO : HashOrder} (sha256_hex : string → string).

(** [create_function_call_from_reduce_op]. *)
Definition create_function_call_from_reduce_op (op : ReduceOperation) (first_arg second_arg : FunctionArgs)
    (parent : option FunctionCallId) (position : nat) : FunctionCall :=
  MkFunctionCall (sha256_hex (ro_function_call_id op +:+ ":reduce:" +:+ pretty position))
    [first_arg; second_arg] (ro_fn_name op) (ro_call_metadata op) parent.

(** The loop over the rest of the collection. *)
Fixpoint reduce_chain (op : ReduceOperation) (rest : list FunctionArgs) (position : nat) (last_call : FunctionCall)
    (acc : SchedulerUpdateRequest * RequestCtx) : FunctionCall * (SchedulerUpdateRequest * RequestCtx) :=
  match rest with
  | [] => (last_call, acc)
  | arg :: rest =>
      let call := create_function_call_from_reduce_op op (FA_FunctionRunOutput (fc_function_call_id last_call)) arg None position in
      reduce_chain op rest (S position) call (add_function_call acc.1 call acc.2)
  end.

(** One reduction; [inr] returns early with a failed request. *)
Definition create_reduce_calls (op : ReduceOperation) (acc : SchedulerUpdateRequest * RequestCtx)
    : (SchedulerUpdateRequest * RequestCtx) + (SchedulerUpdateRequest * RequestCtx) :=
  match ro_collection op with
  | [] | [_] => inr (acc.1, acc.2 <| rc_outcome := Some (RO_Failure RF_FunctionError) |>)
  | a :: b :: rest =>
      let first_call := create_function_call_from_reduce_op op a b None 0 in
      let '(last_call, (u, ctx)) := reduce_chain op rest 1 first_call (add_function_call acc.1 first_call acc.2) in
      let ctx1 := ctx <| rc_function_calls ::= delete (fc_function_call_id last_call) |> in
      inl (add_function_call u (last_call <| fc_function_call_id := ro_function_call_id op |>) ctx1)
  end.
Fixpoint create_reductions (ops : list ComputeOp) (acc : SchedulerUpdateRequest * RequestCtx)
    : SchedulerUpdateRequest * RequestCtx :=
  match ops with
  | [] => acc
  | CO_FunctionCall _ :: ops => create_reductions ops acc
  | CO_Reduce op :: ops => match create_reduce_calls op acc with
                           | inl acc => create_reductions ops acc
                           | inr acc => acc
                           end
  end.
(** [create_function_calls]. *)
Definition create_function_calls (ctx : RequestCtx) (g : GraphUpdates) : SchedulerUpdateRequest * RequestCtx :=
  let acc := foldl (λ acc op, match op with
                              | CO_FunctionCall call => add_function_call acc.1 call acc.2
                              | CO_Reduce _ => acc
                              end) (empty_update, ctx) (gu_graph_updates g) in
  create_reductions (gu_graph_updates g) acc.

(** [create_function_runs]: one pending call, and all of them in the order of
    the hash set. *)
Definition create_run_for_call (av : ApplicationVersion) (now_ns : Z) (acc : SchedulerUpdateRequest * RequestCtx)
    (id : FunctionCallId) : option (SchedulerUpdateRequest * RequestCtx) :=
  match rc_function_calls acc.2 !! id with
  | None => None
  | Some call =>
      Some (match gather_inputs acc.2 (fc_inputs call) with
            | None => acc
            | Some args =>
                add_function_run acc.1 (create_function_run av call args (rc_request_id acc.2) now_ns) acc.2
            end)
  end.
Fixpoint create_runs_for_calls (av : ApplicationVersion) (now_ns : Z) (ids : list FunctionCallId)
    (acc : SchedulerUpdateRequest * RequestCtx) : option (SchedulerUpdateRequest * RequestCtx) :=
  match ids with
  | [] => Some acc
  | id :: ids => create_run_for_call av now_ns acc id ≫= create_runs_for_calls av now_ns ids
  end.
Definition create_function_runs (ctx : RequestCtx) (pending : gset FunctionCallId) (av : ApplicationVersion) (now_ns : Z)
    : option (SchedulerUpdateRequest * RequestCtx) :=
  create_runs_for_calls av now_ns (set_iter pending) (empty_update, ctx).

(** [child_to_parent] of [propagate_output_to_consumers]: later runs of the
    iteration overwrite earlier ones with the same child. *)
Definition index_child (m : gmap FunctionCallId FunctionCallId) (kr : FunctionCallId * FunctionRun)
    : gmap FunctionCallId FunctionCallId :=
  match fr_child_function_call kr.2 with
  | Some child => <[child := fr_id kr.2]> m
  | None => m
  end.
Definition child_to_parent (ctx : RequestCtx) : gmap FunctionCallId FunctionCallId :=
  foldl index_child ∅ (map_iter (rc_function_runs ctx)).
(** The walk from a run to the runs that wait for it. *)
Fixpoint propagate_loop (fuel : nat) (index : gmap FunctionCallId FunctionCallId) (key : string) (id : FunctionCallId)
    (output : option DataPayload) (acc : SchedulerUpdateRequest * RequestCtx)
    : option (SchedulerUpdateRequest * RequestCtx) :=
  match fuel with
  | O => None
  | S fuel =>
      match index !! id with
      | None => Some acc
      | Some parent_id =>
          match rc_function_runs acc.2 !! parent_id with
          | None => Some acc
          | Some parent =>
              let parent' := parent <| fr_output := output |> <| fr_outcome := Some FRO_Success |>
                                    <| fr_status := FRS_Completed |> in
              propagate_loop fuel index key (fr_id parent') (fr_output parent')
                (acc.1 <| su_updated_function_runs ::= idx_insert key (fr_id parent') |>,
                 acc.2 <| rc_function_runs ::= <[parent_id := parent']> |>)
          end
      end
  end.
(** [propagate_output_to_consumers]. *)
Definition propagate_output_to_consumers (fuel : nat) (ctx : RequestCtx) (r : FunctionRun)
    : option (SchedulerUpdateRequest * RequestCtx) :=
  match fr_output r with
  | None => Some (empty_update, ctx)
  | Some _ => propagate_loop fuel (child_to_parent ctx) (request_ctx_key ctx) (fr_id r) (fr_output r) (empty_update, ctx)
  end.

(** ** Handlers *)

(** [handle_blocking_function_call]. *)
Definition handle_blocking_function_call (im : InMemoryState) (ev : FunctionCallEvent) (now_ns : Z)
    : option SchedulerUpdateRequest :=
  match im_request_ctx im !! request_key (fce_namespace ev) (fce_application ev) (fce_request_id ev) with
  | None => Some empty_update
  | Some ctx =>
      if bool_decide (rc_outcome ctx ≠ None) then Some empty_update
      else if bool_decide (rc_function_calls ctx !! fce_source_function_call_id ev = None) then Some empty_update
      else match application_version im (rc_namespace ctx) (rc_application_name ctx) (rc_application_version ctx) with
           | None => Some empty_update
           | Some av =>
               let '(u1, ctx1) := create_function_calls ctx (fce_graph_updates ev) in
               '(u2, ctx2) ← create_function_runs ctx1 (pending_function_calls ctx1) av now_ns;
               Some (add_request_state (extend (extend empty_update u1) u2) ctx2)
           end
  end.

(** The first part of [handle_allocation_ingestion]: the container no longer runs
    the allocation.  The table entry is changed in place before the indexes are
    updated from it. *)
Definition release_allocation (s : ContainerScheduler) (ev : AllocationOutputIngestedEvent) (now : Instant)
    : ContainerScheduler * SchedulerUpdateRequest :=
  let cid := at_container_id (ao_allocation_target ev) in
  match cs_function_containers s !! cid with
  | Some fc =>
      let fc1 := fc <| csm_allocations ::= λ x, x ∖ {[ao_allocation_id ev]} |> in
      let fc2 := if bool_decide (csm_allocations fc1 = ∅) then fc1 <| csm_idle_since := Some now |> else fc1 in
      let u := empty_update <| su_containers := {[cid := fc2]} |> in
      (apply_container_update (s <| cs_function_containers ::= <[cid := fc2]> |>) u, u)
  | None => (apply_container_update s empty_update, empty_update)
  end.

(** [Allocation::key_from]. *)
Definition allocation_key (ns app req id : string) : string := bar ns (bar app (bar req id)).

(** The runs that are not finished when a request fails. *)
Definition cancel_run (acc : SchedulerUpdateRequest * RequestCtx) (r : FunctionRun) : SchedulerUpdateRequest * RequestCtx :=
  if run_is_completed r then acc
  else add_function_run acc.1 (r <| fr_status := FRS_Completed |>
                                 <| fr_outcome := Some (FRO_Failure FRF_FunctionRunCancelled) |>) acc.2.

(** The branch of [handle_allocation_ingestion] for a failed allocation that is
    not retried. *)
Definition fail_request (ev : AllocationOutputIngestedEvent) (outcome : FunctionRunOutcome)
    (reason : FunctionRunFailureReason) (r : FunctionRun) (acc : SchedulerUpdateRequest * RequestCtx)
    : SchedulerUpdateRequest :=
  let '(u, ctx) := acc in
  let r1 := r <| fr_status := FRS_Completed |> <| fr_outcome := Some outcome |> in
  let '(r2, ctx1) := match ao_request_exception ev with
                     | Some payload => (r1 <| fr_request_error := Some payload |>,
                                        ctx <| rc_request_error := Some (MkRequestError (fr_name r1) payload) |>)
                     | None => (r1, ctx)
                     end in
  let ctx2 := ctx1 <| rc_outcome := Some (RO_Failure (request_failure_reason_from reason)) |> in
  let '(u3, ctx3) := add_function_run u r2 ctx2 in
  let '(u4, ctx4) := foldl cancel_run (u3, ctx3) (map_iter (rc_function_runs ctx3)).*2 in
  add_request_state u4 ctx4.

(** The branch for a run that succeeded: new calls, completion of the request, or
    new runs. *)
Definition continue_request (ev : AllocationOutputIngestedEvent) (av : ApplicationVersion) (now_ns : Z)
    (acc : SchedulerUpdateRequest * RequestCtx) : option SchedulerUpdateRequest :=
  let '(u, ctx) := acc in
  let '(u1, ctx1) := match ao_graph_updates ev with
                     | Some g => let '(ug, ctxg) := create_function_calls ctx g in (extend u ug, ctxg)
                     | None => (u, ctx)
                     end in
  if is_request_completed ctx1 then Some (add_request_state u1 (ctx1 <| rc_outcome := Some RO_Success |>))
  else '(u2, ctx2) ← create_function_runs ctx1 (pending_function_calls ctx1) av now_ns;
       Some (add_request_state (extend u1 u2) ctx2).

(** The output of the run, or the call that will produce it. *)
Definition record_output (ev : AllocationOutputIngestedEvent) (run : FunctionRun) : FunctionRun :=
  let run1 := run <| fr_output := ao_data_payload ev |> in
  match ao_graph_updates ev with
  | Some g => run1 <| fr_child_function_call := Some (gu_output_function_call_id g) |>
  | None => run1
  end.

(** What happens to a run that is running the finished allocation [a]; [u] is the
    update so far. *)
Definition ingest_outcome (fuel : nat) (im : InMemoryState) (ev : AllocationOutputIngestedEvent) (ctx : RequestCtx)
    (run : FunctionRun) (a : Allocation) (now_ns : Z) (u : SchedulerUpdateRequest) : option SchedulerUpdateRequest :=
  let u1 := u <| su_updated_allocations ::= λ l, l ++ [a] |> in
  let run2 := record_output ev run in
  let '(u2, ctx2) := add_function_run u1 run2 ctx in
  '(up, ctx3) ← propagate_output_to_consumers fuel ctx2 run2;
  let u3 := extend u2 up in
  match get_existing_application_version im run2 with
  | None => Some (add_request_state u3 ctx3)
  | Some av =>
      let run3 := handle_allocation_outcome run2 a av in
      let run4 := if negb (bool_decide (fr_child_function_call run3 = None)) && bool_decide (fr_output run3 = None)
                  then run3 <| fr_outcome := None |> else run3 in
      let '(u4, ctx4) := add_function_run u3 run4 ctx3 in
      let u5 := add_request_state u4 ctx4 in
      if run_is_pending run4 then Some u5
      else match al_outcome a with
           | FRO_Failure reason => Some (fail_request ev (al_outcome a) reason run4 (u5, ctx4))
           | _ => continue_request ev av now_ns (u5, ctx4)
           end
  end.

(** [handle_allocation_ingestion]: the scheduler and the update; the inner [inl]
    is an error of the database. *)
Definition handle_allocation_ingestion {E : Type} (get_allocation : string → E + option Allocation) (fuel : nat)
    (im : InMemoryState) (s : ContainerScheduler) (ev : AllocationOutputIngestedEvent) (now now_ns : Z)
    : option (ContainerScheduler * (E + SchedulerUpdateRequest)) :=
  let '(s1, u) := release_allocation s ev now in
  let done : option (ContainerScheduler * (E + SchedulerUpdateRequest)) := Some (s1, inr u) in
  match im_request_ctx im !! request_key (ao_namespace ev) (ao_application ev) (ao_request_id ev) with
  | None => done
  | Some ctx =>
      if bool_decide (rc_outcome ctx ≠ None) then done
      else match rc_function_runs ctx !! ao_function_call_id ev with
      | None => done
      | Some run =>
          match get_allocation (allocation_key (ao_namespace ev) (ao_application ev) (ao_request_id ev) (ao_allocation_id ev)) with
          | inl e => Some (s1, inl e)
          | inr None => done
          | inr (Some a0) =>
              if allocation_is_terminal a0 then done
              else
                let a := a0 <| al_outcome := ao_allocation_outcome ev |>
                            <| al_execution_duration_ms := ao_execution_duration_ms ev |> in
                if bool_decide (fr_status run = FRS_Running (al_id a)) then
                  u' ← ingest_outcome fuel im ev ctx run a now_ns u;
                  Some (s1, inr u')
                else done
          end
      end
  end.
End creator.

(** ** Retries *)

(** A run driven through a sequence of failures, until it is completed. *)
Definition fail_all (av : ApplicationVersion) (r : FunctionRun) (reasons : list FunctionRunFailureReason) : FunctionRun :=
  foldl (λ r reason, if run_is_completed r then r else handle_allocation_failure r reason av) r reasons.
Definition counted (reasons : list FunctionRunFailureReason) : Z :=
  Z.of_nat (length (List.filter should_count_against_function_run_retry_attempts reasons)).

Lemma handle_failure_cases av r reason max :
  function_run_max_retries av r = Some max → 0 ≤ fr_attempt_number r ≤ max → max ≤ u32_max →
  let r' := handle_allocation_failure r reason av in
  function_run_max_retries av r' = Some max ∧ fr_name r' = fr_name r ∧ 0 ≤ fr_attempt_number r' ≤ max ∧
  ((fr_status r' = FRS_Pending ∧ fr_outcome r' = fr_outcome r ∧ is_retriable reason = true ∧
    fr_attempt_number r' = fr_attempt_number r + (if should_count_against_function_run_retry_attempts reason then 1 else 0)) ∨
   (fr_status r' = FRS_Completed ∧ fr_outcome r' = Some (FRO_Failure reason) ∧ fr_attempt_number r' = fr_attempt_number r ∧
    (is_retriable reason = false ∨ should_count_against_function_run_retry_attempts reason = true ∧ fr_attempt_number r = max))).
Proof.
  intros Hm Ha Hb r'. unfold r', handle_allocation_failure. rewrite Hm.
  assert (Hw : fr_attempt_number r < max → wrap32 (fr_attempt_number r + 1) = fr_attempt_number r + 1).
  { intros H. apply wrap32_id. unfold in_u32, u32_max in *. lia. }
  destruct (is_retriable reason); simpl.
  2:{ split_and!; [exact Hm|done|lia|lia|right]. split_and!; [done..|by left]. }
  case_bool_decide as Hlt; simpl.
  - destruct (should_count_against_function_run_retry_attempts reason); simpl; rewrite ?Hw by done.
    + split_and!; [exact Hm|done|lia|lia|left]. split_and!; [done..|lia].
    + split_and!; [exact Hm|done|lia|lia|left]. split_and!; [done..|lia].
  - destruct (should_count_against_function_run_retry_attempts reason); simpl.
    + split_and!; [exact Hm|done|lia|lia|right]. split_and!; [done..|right; split; [done|lia]].
    + split_and!; [exact Hm|done|lia|lia|left]. split_and!; [done..|lia].
Qed.

Lemma fail_all_completed av r l : run_is_completed r = true → fail_all av r l = r.
Proof. intros H. induction l as [|x l IH]; [done|]. unfold fail_all in *. simpl. by rewrite H. Qed.

(** C12: the retry budget is exact: a run that meets any sequence of failures never
    passes its function's [max_retries]; it is given up as soon as more failures
    count against it than it has retries left, with one of those failures as its
    outcome; and as long as every failure is retriable and no more of them count
    than that, it stays in play with exactly the counted failures added to its
    attempt number. *)
Theorem retry_budget_exact (av : ApplicationVersion) (l : list FunctionRunFailureReason) : ∀ (r : FunctionRun) max,
  function_run_max_retries av r = Some max → 0 ≤ fr_attempt_number r ≤ max → max ≤ u32_max →
  run_is_completed r = false →
  let r' := fail_all av r l in
  fr_attempt_number r' ≤ max ∧
  (run_is_completed r' = true → ∃ reason, reason ∈ l ∧ fr_outcome r' = Some (FRO_Failure reason)) ∧
  (max - fr_attempt_number r < counted l → run_is_completed r' = true) ∧
  (Forall (λ x, is_retriable x = true) l → counted l ≤ max - fr_attempt_number r →
   run_is_completed r' = false ∧ fr_attempt_number r' = fr_attempt_number r + counted l).
Proof.
  induction l as [|x l IH]; intros r max Hm Ha Hb Hc.
  { unfold fail_all, counted. simpl. rewrite Hc. split_and!; [lia|done|lia|intros; split; [done|lia]]. }
  destruct (handle_failure_cases av r x max Hm Ha Hb) as (Hm' & _ & Ha' & Hcase).
  assert (E : fail_all av r (x :: l) = fail_all av (handle_allocation_failure r x av) l) by (unfold fail_all; simpl; by rewrite Hc).
  assert (Hcnt : counted (x :: l) = counted l + (if should_count_against_function_run_retry_attempts x then 1 else 0)).
  { unfold counted. simpl. destruct (should_count_against_function_run_retry_attempts x); simpl; lia. }
  rewrite E, Hcnt. set (r1 := handle_allocation_failure r x av) in *.
  destruct Hcase as [(Hst & Ho & Hret & Hn)|(Hst & Ho & Hn & Hwhy)].
  - assert (Hc1 : run_is_completed r1 = false) by (unfold run_is_completed; by rewrite Hst).
    destruct (IH r1 max Hm' Ha' Hb Hc1) as (I1 & I2 & I3 & I4). split_and!; [done| | |].
    + intros H. destruct (I2 H) as (reason & ? & ?). exists reason. split; [by right|done].
    + intros H. apply I3. rewrite Hn. destruct (should_count_against_function_run_retry_attempts x); lia.
    + intros HF Hle. apply Forall_cons in HF as [_ HF]. destruct I4 as [? I4]; [done| |split; [done|]]; rewrite ?I4, ?Hn;
        destruct (should_count_against_function_run_retry_attempts x); lia.
  - assert (Hc1 : run_is_completed r1 = true) by (unfold run_is_completed; by rewrite Hst).
    rewrite fail_all_completed by done. split_and!; [lia| |done|].
    + intros _. exists x. split; [left|done].
    + intros HF Hle. apply Forall_cons in HF as [Hx _]. exfalso. assert (0 ≤ counted l) by (unfold counted; lia).
      destruct Hwhy as [?|[Hcx ?]]; [congruence|]. rewrite Hcx in Hle. lia.
Qed.


(** ** Creating runs *)

(** Runs are filed under their ids. *)
Definition ctx_keyed (ctx : RequestCtx) : Prop :=
  map_Forall (λ id r, fr_id r = id) (rc_function_runs ctx) ∧ map_Forall (λ id c, fc_function_call_id c = id) (rc_function_calls ctx).

(** Runs without an output add nothing to what can be gathered. *)
Lemma gather_inputs_more ctx ctx' inputs :
  (∀ id r, rc_function_runs ctx !! id = Some r → rc_function_runs ctx' !! id = Some r) →
  (∀ id r, rc_function_runs ctx !! id = None → rc_function_runs ctx' !! id = Some r → fr_output r = None) →
  gather_inputs ctx' inputs = gather_inputs ctx inputs.
Proof.
  intros H1 H2. induction inputs as [|[id|d] rest IH]; simpl; [done| |by rewrite IH].
  rewrite IH. destruct (rc_function_runs ctx !! id) as [r|] eqn:E; [by rewrite (H1 _ _ E)|].
  destruct (rc_function_runs ctx' !! id) as [r'|] eqn:E'; [|done]. by rewrite (H2 _ _ E E').
Qed.
Lemma gather_inputs_some ctx inputs args :
  gather_inputs ctx inputs = Some args ↔
  Forall2 (λ i a, match i with
                  | FA_DataPayload d => a = MkInputArgs None d
                  | FA_FunctionRunOutput id => ∃ r d, rc_function_runs ctx !! id = Some r ∧ fr_output r = Some d ∧ a = MkInputArgs (Some id) d
                  end) inputs args.
Proof.
  revert args. induction inputs as [|[id|d] rest IH]; intros args; simpl.
  - split; [intros [= <-]; constructor|]. by inversion 1.
  - split.
    + destruct (rc_function_runs ctx !! id) as [r|] eqn:E; [|done]. destruct (fr_output r) as [d|] eqn:Eo; [|done].
      intros (args' & H & ->)%fmap_Some. constructor; [eauto|by apply IH].
    + intros (a & args' & (r & d & E & Eo & ->) & HF & ->)%Forall2_cons_inv_l. rewrite E, Eo. apply IH in HF. by rewrite HF.
  - split.
    + intros (args' & H & ->)%fmap_Some. constructor; [done|by apply IH].
    + intros (a & args' & -> & HF & ->)%Forall2_cons_inv_l. apply IH in HF. by rewrite HF.
Qed.

Section creation.
Context `{HO : HashOrder}.

(** The run that a call of [ctx] gets, if it can run. *)
Definition run_for (ctx : RequestCtx) (av : ApplicationVersion) (now_ns : Z) (id : FunctionCallId) : option FunctionRun :=
  call ← rc_function_calls ctx !! id;
  args ← gather_inputs ctx (fc_inputs call);
  Some (create_function_run av call args (rc_request_id ctx) now_ns).

Lemma create_runs_for_calls_spec av now_ns ids : ∀ u ctx,
  map_Forall (λ id c, fc_function_call_id c = id) (rc_function_calls ctx) →
  (∀ id, id ∈ ids → id ∈ dom (rc_function_calls ctx) ∧ id ∉ dom (rc_function_runs ctx)) → NoDup ids →
  ∃ u' ctx', create_runs_for_calls av now_ns ids (u, ctx) = Some (u', ctx') ∧
    ctx' = ctx <| rc_function_runs := rc_function_runs ctx' |> ∧
    (∀ id, rc_function_runs ctx' !! id = if bool_decide (id ∈ ids) then run_for ctx av now_ns id else rc_function_runs ctx !! id) ∧
    (∀ id, id ∈ idx_get (su_updated_function_runs u') (request_ctx_key ctx) ↔
       id ∈ idx_get (su_updated_function_runs u) (request_ctx_key ctx) ∨ (id ∈ ids ∧ run_for ctx av now_ns id ≠ None)) ∧
    u' = u <| su_updated_function_runs := su_updated_function_runs u' |>.
Proof.
  induction ids as [|id ids IH]; intros u ctx Hk Hids Hnd.
  { exists u, ctx. split_and!; [done|by destruct ctx| |set_solver|by destruct u]. intros i. done. }
  apply NoDup_cons in Hnd as [Hnin Hnd]. destruct (Hids id (list_elem_of_here _ _)) as [Hc Hr]. cbn [create_runs_for_calls].
  apply elem_of_dom in Hc as [call Hcall]. apply not_elem_of_dom in Hr.
  unfold create_run_for_call. cbn [fst snd]. rewrite Hcall. cbn [mbind option_bind].
  assert (Hid : fc_function_call_id call = id) by by apply Hk in Hcall.
  destruct (gather_inputs ctx (fc_inputs call)) as [args|] eqn:Eg.
  - set (r := create_function_run av call args (rc_request_id ctx) now_ns).
    set (ctx1 := ctx <| rc_function_runs ::= <[fr_id r := r]> |>).
    assert (Hfor : ∀ i, run_for ctx1 av now_ns i = run_for ctx av now_ns i).
    { intros i. unfold run_for. change (rc_function_calls ctx1) with (rc_function_calls ctx).
      destruct (rc_function_calls ctx !! i) as [c|]; [|done]. cbn [mbind option_bind].
      rewrite (gather_inputs_more ctx ctx1); [done| |].
      - intros j r0 Hj. change (rc_function_runs ctx1) with (<[fr_id r := r]> (rc_function_runs ctx)).
        change (fr_id r) with (fc_function_call_id call). rewrite Hid. rewrite lookup_insert_ne; [done|]. congruence.
      - intros j r0 Hj. change (rc_function_runs ctx1) with (<[fr_id r := r]> (rc_function_runs ctx)).
        rewrite lookup_insert_Some. intros [[_ <-]|[_ ?]]; [done|congruence]. }
    assert (Hr1 : ∀ i, rc_function_runs ctx1 !! i = if decide (i = id) then Some r else rc_function_runs ctx !! i).
    { intros i. change (rc_function_runs ctx1) with (<[fc_function_call_id call := r]> (rc_function_runs ctx)). rewrite Hid, lookup_insert.
      repeat case_decide; congruence. }
    assert (Hself : run_for ctx av now_ns id = Some r) by (unfold run_for; rewrite Hcall; cbn [mbind option_bind]; by rewrite Eg).
    destruct (IH (u <| su_updated_function_runs ::= idx_insert (request_ctx_key ctx) (fr_id r) |>) ctx1) as (u' & ctx' & E & H1 & H2 & H3 & H4).
    + exact Hk.
    + intros i Hi. destruct (Hids i (list_elem_of_further _ _ _ Hi)) as [? Hn]. split; [done|]. apply not_elem_of_dom. rewrite Hr1.
      rewrite decide_False by (by intros ->). by apply not_elem_of_dom.
    + done.
    + exists u', ctx'. split_and!; [exact E|rewrite H1; exact eq_refl| | |rewrite H4; exact eq_refl].
      * intros i. rewrite H2, Hfor, Hr1. destruct (decide (i = id)) as [->|Hne].
        -- rewrite (bool_decide_eq_false_2 (id ∈ ids)), (bool_decide_eq_true_2 (id ∈ id :: ids)) by (done || left). by rewrite Hself.
        -- rewrite (bool_decide_ext (i ∈ id :: ids) (i ∈ ids)); [done|]. rewrite elem_of_cons. tauto.
      * intros i. change (request_ctx_key ctx1) with (request_ctx_key ctx) in H3. rewrite H3, Hfor.
        change (su_updated_function_runs (u <| su_updated_function_runs ::= idx_insert (request_ctx_key ctx) (fr_id r) |>))
          with (idx_insert (request_ctx_key ctx) (fr_id r) (su_updated_function_runs u)). rewrite elem_of_idx_insert.
        change (fr_id r) with (fc_function_call_id call). rewrite Hid, elem_of_cons.
        destruct (decide (i = id)) as [->|]; [rewrite Hself; naive_solver|naive_solver].
  - assert (Hself : run_for ctx av now_ns id = None) by (unfold run_for; rewrite Hcall; cbn [mbind option_bind]; by rewrite Eg).
    destruct (IH u ctx Hk) as (u' & ctx' & E & H1 & H2 & H3 & H4); [|done|].
    { intros i Hi. apply Hids. by right. }
    exists u', ctx'. split_and!; [exact E|done| | |done].
    + intros i. rewrite H2. destruct (decide (i = id)) as [->|Hne].
      * rewrite (bool_decide_eq_false_2 (id ∈ ids)), (bool_decide_eq_true_2 (id ∈ id :: ids)) by (done || left). by rewrite Hself, Hr.
      * rewrite (bool_decide_ext (i ∈ id :: ids) (i ∈ ids)); [done|]. rewrite elem_of_cons. tauto.
    + intros i. rewrite H3, elem_of_cons. destruct (decide (i = id)) as [->|]; [rewrite Hself; naive_solver|naive_solver].
Qed.

Lemma create_function_runs_spec ctx av now_ns :
  map_Forall (λ id c, fc_function_call_id c = id) (rc_function_calls ctx) →
  ∃ u' ctx', create_function_runs ctx (pending_function_calls ctx) av now_ns = Some (u', ctx') ∧
    ctx' = ctx <| rc_function_runs := rc_function_runs ctx' |> ∧
    (∀ id, rc_function_runs ctx' !! id =
       match rc_function_runs ctx !! id with Some r => Some r | None => run_for ctx av now_ns id end) ∧
    (∀ id, id ∈ idx_get (su_updated_function_runs u') (request_ctx_key ctx) ↔
       rc_function_runs ctx !! id = None ∧ run_for ctx av now_ns id ≠ None) ∧
    u' = empty_update <| su_updated_function_runs := su_updated_function_runs u' |>.
Proof.
  intros Hk. destruct (create_runs_for_calls_spec av now_ns (set_iter (pending_function_calls ctx)) empty_update ctx Hk)
    as (u' & ctx' & E & H1 & H2 & H3 & H4).
  - intros id Hid%elem_of_set_iter. unfold pending_function_calls in Hid. set_solver.
  - apply NoDup_set_iter.
  - assert (Hpend : ∀ id, id ∈ set_iter (pending_function_calls ctx) ↔ is_Some (rc_function_calls ctx !! id) ∧ rc_function_runs ctx !! id = None).
    { intros id. rewrite elem_of_set_iter. unfold pending_function_calls. rewrite elem_of_difference, elem_of_dom, not_elem_of_dom. done. }
    assert (Hno : ∀ id, run_for ctx av now_ns id ≠ None → is_Some (rc_function_calls ctx !! id)).
    { intros id. unfold run_for. by destruct (rc_function_calls ctx !! id). }
    exists u', ctx'. split_and!; [exact E|done| | |done].
    + intros id. rewrite H2. case_bool_decide as Hin.
      * apply Hpend in Hin as [_ ->]. done.
      * destruct (rc_function_runs ctx !! id) eqn:Er; [done|]. destruct (run_for ctx av now_ns id) eqn:Ef; [|done].
        destruct Hin. apply Hpend. split; [apply Hno; by rewrite Ef|done].
    + intros id. rewrite H3, Hpend. change (su_updated_function_runs empty_update) with (∅ : gmap string (gset FunctionCallId)).
      rewrite idx_get_empty. pose proof (Hno id). set_solver.
Qed.

Lemma create_runs_other_keys av now_ns ids : ∀ u ctx u' ctx' k,
  create_runs_for_calls av now_ns ids (u, ctx) = Some (u', ctx') → k ≠ request_ctx_key ctx → idx_get (su_updated_function_runs u') k = idx_get (su_updated_function_runs u) k.
Proof.
  induction ids as [|id ids IH]; intros u ctx u' ctx' k; cbn [create_runs_for_calls]; [by intros [= <- <-]|]. unfold create_run_for_call. cbn [fst snd].
  destruct (rc_function_calls ctx !! id) as [call|]; [|done]. cbn [mbind option_bind]. destruct (gather_inputs ctx (fc_inputs call)) as [args|]; [|apply IH].
  set (r := create_function_run av call args (rc_request_id ctx) now_ns). intros H Hk. unfold add_function_run in H. apply (IH _ _ _ _ k) in H; [|done]. rewrite H.
  change (idx_get (idx_insert (request_ctx_key ctx) (fr_id r) (su_updated_function_runs u)) k = idx_get (su_updated_function_runs u) k). apply set_eq. intros x. rewrite elem_of_idx_insert. naive_solver.
Qed.

(** The value of an input: the payload itself, or the output of the run it names. *)
Definition input_value (ctx : RequestCtx) (a : FunctionArgs) : option InputArgs :=
  match a with
  | FA_DataPayload d => Some (MkInputArgs None d)
  | FA_FunctionRunOutput id => MkInputArgs (Some id) <$> (rc_function_runs ctx !! id ≫= fr_output)
  end.

(** C11: creating the runs of a request never fails, and creates exactly the runs that can
    start.  The calls are filed under their ids.  A call that has no run yet gets one if and
    only if every run its inputs name has produced its output; the new run is of the called
    function in the given version, pending, with its first attempt, and its arguments are
    the values of the inputs in order, each with the run it came from.  Existing runs, the
    calls and the rest of the request are left alone, and the update reports exactly the new
    runs, of this request only, and nothing else. *)
Theorem create_function_runs_exact (ctx : RequestCtx) (av : ApplicationVersion) (now_ns : Z) :
  map_Forall (λ id c, fc_function_call_id c = id) (rc_function_calls ctx) →
  ∃ u' ctx', create_function_runs ctx (pending_function_calls ctx) av now_ns = Some (u', ctx') ∧
    ctx' = ctx <| rc_function_runs := rc_function_runs ctx' |> ∧
    (∀ id r, rc_function_runs ctx !! id = Some r → rc_function_runs ctx' !! id = Some r) ∧
    (∀ id, rc_function_runs ctx !! id = None →
       ((∃ r, rc_function_runs ctx' !! id = Some r) ↔
        ∃ call, rc_function_calls ctx !! id = Some call ∧
          ∀ dep, FA_FunctionRunOutput dep ∈ fc_inputs call →
            ∃ r, rc_function_runs ctx !! dep = Some r ∧ fr_output r ≠ None)) ∧
    (∀ id r, rc_function_runs ctx !! id = None → rc_function_runs ctx' !! id = Some r →
       ∃ call, rc_function_calls ctx !! id = Some call ∧
         Some <$> fr_input_args r = input_value ctx <$> fc_inputs call ∧
         fr_id r = id ∧ fr_request_id r = rc_request_id ctx ∧ fr_namespace r = av_namespace av ∧ fr_application r = av_name av ∧
         fr_version r = av_version av ∧ fr_name r = fc_fn_name call ∧ run_is_pending r = true ∧ fr_attempt_number r = 0 ∧ fr_output r = None) ∧
    u' = empty_update <| su_updated_function_runs := su_updated_function_runs u' |> ∧
    (∀ k id, id ∈ idx_get (su_updated_function_runs u') k ↔
       k = request_ctx_key ctx ∧ rc_function_runs ctx !! id = None ∧ is_Some (rc_function_runs ctx' !! id)).
Proof.
  intros Hk. destruct (create_function_runs_spec ctx av now_ns Hk) as (u' & ctx' & E & H1 & H2 & H3 & H4).
  exists u', ctx'. split_and!; [exact E|done| | | |done|].
  - intros id r Hr. by rewrite H2, Hr.
  - intros id Hr. rewrite H2, Hr. unfold run_for. destruct (rc_function_calls ctx !! id) as [call|]; cbn [mbind option_bind]; [|naive_solver].
    split.
    + intros [r Hg]. exists call. split; [done|]. intros dep Hdep. destruct (gather_inputs ctx (fc_inputs call)) as [args|] eqn:Eg; [|done].
      apply gather_inputs_some in Eg. apply list_elem_of_lookup in Hdep as [i Hi].
      destruct (Forall2_lookup_l _ _ _ _ _ Eg Hi) as (a & _ & r' & d & Hr' & Hd & _). exists r'. split; [done|]. by rewrite Hd.
    + intros (? & [= <-] & Hdeps). cut (∃ args, gather_inputs ctx (fc_inputs call) = Some args); [intros [args ->]; eauto|].
      induction (fc_inputs call) as [|[dep|d] rest IH]; simpl; [eauto| |].
      * destruct (Hdeps dep) as (r & -> & Ho); [left|]. destruct (fr_output r); [|done].
        destruct IH as [args ->]; [intros dep' Hd'; apply Hdeps; by right|]. simpl. eauto.
      * destruct IH as [args ->]; [intros dep' Hd'; apply Hdeps; by right|]. simpl. eauto.
  - intros id r Hn Hr. rewrite H2, Hn in Hr. unfold run_for in Hr.
    destruct (rc_function_calls ctx !! id) as [call|] eqn:Ec; [|done]. cbn [mbind option_bind] in Hr.
    destruct (gather_inputs ctx (fc_inputs call)) as [args|] eqn:Eg; [|done]. injection Hr as <-. exists call. split; [done|].
    split; [|by apply Hk in Ec]. simpl. apply gather_inputs_some in Eg. clear -Eg. induction Eg as [|a x l l' Ha _ IH]; [done|]. cbn. f_equal; [|exact IH].
    destruct a as [dep|d]; cbn; [|congruence]. destruct Ha as (r & d & -> & Hd & ->). cbn. by rewrite Hd.
  - intros k id. destruct (decide (k = request_ctx_key ctx)) as [->|Hne].
    + rewrite H3, H2. destruct (rc_function_runs ctx !! id); [naive_solver|]. rewrite <-not_eq_None_Some. naive_solver.
    + unfold create_function_runs in E. rewrite (create_runs_other_keys _ _ _ _ _ _ _ k E Hne). change (su_updated_function_runs empty_update) with (∅ : gmap string (gset FunctionCallId)).
      rewrite idx_get_empty. set_solver.
Qed.
End creation.

(** ** Passing outputs to waiting runs *)

(** The run [p] has handed its output over to the call [c]. *)
Definition waits_on (ctx : RequestCtx) (p c : FunctionCallId) : Prop :=
  ∃ r, rc_function_runs ctx !! p = Some r ∧ fr_child_function_call r = Some c.
Definition waits_for (ctx : RequestCtx) (c p : FunctionCallId) : Prop := waits_on ctx p c.
(** A run that received the output it waited for. *)
Definition fulfilled (d : option DataPayload) (r : FunctionRun) : FunctionRun :=
  r <| fr_output := d |> <| fr_outcome := Some FRO_Success |> <| fr_status := FRS_Completed |>.

Lemma foldl_children (l : list (FunctionCallId * FunctionRun)) : ∀ m c p,
  foldl index_child m l !! c = Some p →
  m !! c = Some p ∨ ∃ k r, (k, r) ∈ l ∧ fr_child_function_call r = Some c ∧ fr_id r = p.
Proof.
  induction l as [|[k r] l IH]; intros m c p; simpl; [by left|]. intros H. apply IH in H as [H|(k' & r' & Hin & H1 & H2)].
  - unfold index_child in H. simpl in H. destruct (fr_child_function_call r) as [child|] eqn:E; [|by left].
    apply lookup_insert_Some in H as [[<- <-]|[_ H]]; [|by left]. right. exists k, r. split; [left|done].
  - right. exists k', r'. split; [by right|done].
Qed.
Lemma foldl_children_total (l : list (FunctionCallId * FunctionRun)) : ∀ (m : gmap FunctionCallId FunctionCallId) c,
  (is_Some (m !! c) ∨ ∃ k r, (k, r) ∈ l ∧ fr_child_function_call r = Some c) →
  is_Some (foldl index_child m l !! c).
Proof.
  induction l as [|[k r] l IH]; intros m c; simpl.
  - intros [H|(? & ? & H & _)]; [done|by apply not_elem_of_nil in H].
  - intros H. apply IH. destruct H as [H|(k' & r' & [[= -> ->]|Hin]%elem_of_cons & E)].
    + left. unfold index_child. simpl. destruct (fr_child_function_call r) as [child|]; [|done]. rewrite lookup_insert. case_decide; [done|done].
    + left. unfold index_child. simpl. rewrite E, lookup_insert_eq. done.
    + right. eauto.
Qed.

Section propagation.
Context `{HO : HashOrder}.

Lemma child_to_parent_spec ctx :
  map_Forall (λ id r, fr_id r = id) (rc_function_runs ctx) →
  (∀ c p p', waits_on ctx p c → waits_on ctx p' c → p = p') →
  ∀ c p, child_to_parent ctx !! c = Some p ↔ waits_on ctx p c.
Proof.
  intros Hk Huniq. assert (H1 : ∀ c p, child_to_parent ctx !! c = Some p → waits_on ctx p c).
  { intros c p H. apply foldl_children in H as [H|(k & r & Hin & H1 & H2)]; [by rewrite lookup_empty in H|].
    apply elem_of_map_iter in Hin. pose proof (Hk _ _ Hin) as Hid. simpl in Hid. exists r. split; [congruence|done]. }
  intros c p. split; [apply H1|]. intros (r & Hr & Hc).
  destruct (foldl_children_total (map_iter (rc_function_runs ctx)) ∅ c) as [p' Hp'].
  { right. exists p, r. split; [by apply elem_of_map_iter|done]. }
  change (child_to_parent ctx !! c = Some p') in Hp'. rewrite Hp'. f_equal. apply (Huniq c); [by apply H1|by exists r].
Qed.

Lemma propagate_loop_spec index key rank fuel : ∀ id d u ctx (X : gset FunctionCallId),
  (∀ c p, index !! c = Some p → (rank p < rank c)%nat ∧ ∃ r, rc_function_runs ctx !! p = Some r ∧ fr_id r = p) →
  X ⊆ dom (rc_function_runs ctx) → (∀ x, x ∈ X → (rank id ≤ rank x)%nat) →
  (size (rc_function_runs ctx) < fuel + size X)%nat →
  ∃ u' ctx', propagate_loop fuel index key id d (u, ctx) = Some (u', ctx') ∧
    ctx' = ctx <| rc_function_runs := rc_function_runs ctx' |> ∧
    (∀ p, tc (λ c p, index !! c = Some p) id p →
       rc_function_runs ctx' !! p = fulfilled d <$> rc_function_runs ctx !! p ∧ p ∈ idx_get (su_updated_function_runs u') key) ∧
    (∀ p, ¬ tc (λ c p, index !! c = Some p) id p → rc_function_runs ctx' !! p = rc_function_runs ctx !! p) ∧
    (∀ p, p ∈ idx_get (su_updated_function_runs u) key → p ∈ idx_get (su_updated_function_runs u') key).
Proof.
  induction fuel as [|fuel IH]; intros id d u ctx X Hidx HX Hrank Hfuel.
  { exfalso. apply subseteq_size in HX. rewrite size_dom in HX. lia. }
  cbn [propagate_loop]. destruct (index !! id) as [p|] eqn:Ei.
  2:{ exists u, ctx. split_and!; [done|by destruct ctx| |done|done]. intros q Htc. exfalso.
      inversion Htc; congruence. }
  destruct (Hidx _ _ Ei) as (Hrk & r & Hr & Hid). cbn [snd fst]. rewrite Hr.
  set (r' := r <| fr_output := d |> <| fr_outcome := Some FRO_Success |> <| fr_status := FRS_Completed |>).
  change (fr_id r') with (fr_id r). change (fr_output r') with d. rewrite Hid.
  set (ctx1 := ctx <| rc_function_runs ::= <[p := r']> |>).
  set (u1 := u <| su_updated_function_runs ::= idx_insert key p |>).
  assert (Hdom : dom (rc_function_runs ctx1) = dom (rc_function_runs ctx)).
  { change (rc_function_runs ctx1) with (<[p := r']> (rc_function_runs ctx)). rewrite dom_insert_L.
    apply elem_of_dom_2 in Hr. set_solver. }
  assert (Hdec : ∀ a b, tc (λ c p, index !! c = Some p) a b → (rank b < rank a)%nat).
  { intros a b Htc. induction Htc as [a b Hab|a b c Hab _ IHt]; [by apply Hidx in Hab as [? _]|]. apply Hidx in Hab as [? _]. lia. }
  destruct (IH p d u1 ctx1 ({[p]} ∪ X)) as (u' & ctx' & E & H1 & H2 & H3 & H4).
  - intros c q Hc. destruct (Hidx _ _ Hc) as (? & r2 & Hr2 & Hid2). split; [done|].
    change (rc_function_runs ctx1) with (<[p := r']> (rc_function_runs ctx)). destruct (decide (q = p)) as [->|].
    + rewrite lookup_insert_eq. exists r'. split; [done|]. change (fr_id r') with (fr_id r). done.
    + rewrite lookup_insert_ne by done. eauto.
  - rewrite Hdom. apply elem_of_dom_2 in Hr. set_solver.
  - intros x [->%elem_of_singleton|Hx]%elem_of_union; [lia|]. apply Hrank in Hx. lia.
  - assert (p ∉ X) by (intros Hp%Hrank; lia). rewrite size_union, size_singleton by set_solver.
    rewrite <-size_dom, Hdom, size_dom. lia.
  - exists u', ctx'. split_and!; [exact E|rewrite H1; exact eq_refl| | |].
    + intros q Htc. destruct (decide (q = p)) as [->|Hne].
      * split.
        -- rewrite H3; [|intros Hpp%Hdec; lia]. change (rc_function_runs ctx1) with (<[p := r']> (rc_function_runs ctx)).
           rewrite lookup_insert_eq, Hr. done.
        -- apply H4. change (su_updated_function_runs u1) with (idx_insert key p (su_updated_function_runs u)).
           rewrite elem_of_idx_insert. by left.
      * assert (Hpq : tc (λ c p, index !! c = Some p) p q).
        { inversion Htc as [? ? Hab|? b ? Hab Hrest]; simplify_eq; done. }
        destruct (H2 q Hpq) as [Hq ?]. split; [|done]. rewrite Hq.
        change (rc_function_runs ctx1) with (<[p := r']> (rc_function_runs ctx)). by rewrite lookup_insert_ne.
    + intros q Htc. assert (q ≠ p) by (intros ->; apply Htc; by apply tc_once). rewrite H3.
      * change (rc_function_runs ctx1) with (<[p := r']> (rc_function_runs ctx)). by rewrite lookup_insert_ne.
      * intros Hpq. apply Htc. by eapply tc_l.
    + intros q Hq. apply H4. change (su_updated_function_runs u1) with (idx_insert key p (su_updated_function_runs u)).
      rewrite elem_of_idx_insert. by right.
Qed.

(** C10: handing an output on terminates and reaches exactly the runs that wait for it.  The
    runs of a request do not wait for each other in a circle, and no two of them wait for the
    same call (the index of the code keeps one parent per call).  Then one more step than
    there are runs is enough, every run that waits for the finished one, directly or through
    others, gets its output and is completed successfully and reported, and every other run
    is unchanged. *)
Theorem output_reaches_waiting_runs (ctx : RequestCtx) (r : FunctionRun) (d : DataPayload) (rank : FunctionCallId → nat) fuel :
  map_Forall (λ id r, fr_id r = id) (rc_function_runs ctx) →
  (∀ c p p', waits_on ctx p c → waits_on ctx p' c → p = p') →
  (∀ c p, waits_on ctx p c → (rank p < rank c)%nat) →
  fr_output r = Some d → (size (rc_function_runs ctx) < fuel)%nat →
  ∃ u' ctx', propagate_output_to_consumers fuel ctx r = Some (u', ctx') ∧
    ctx' = ctx <| rc_function_runs := rc_function_runs ctx' |> ∧
    (∀ p, tc (waits_for ctx) (fr_id r) p →
       ∃ old, rc_function_runs ctx !! p = Some old ∧ rc_function_runs ctx' !! p = Some (fulfilled (Some d) old) ∧
              p ∈ idx_get (su_updated_function_runs u') (request_ctx_key ctx)) ∧
    (∀ p, ¬ tc (waits_for ctx) (fr_id r) p → rc_function_runs ctx' !! p = rc_function_runs ctx !! p).
Proof.
  intros Hk Huniq Hrank Ho Hfuel. pose proof (child_to_parent_spec ctx Hk Huniq) as Hidx.
  assert (Htc : ∀ a b, tc (λ c p, child_to_parent ctx !! c = Some p) a b ↔ tc (waits_for ctx) a b).
  { intros a b. split; intros H; induction H as [a b H|a b c H _ IH];
      first [by apply tc_once, Hidx|by eapply tc_l; [apply Hidx|]]. }
  unfold propagate_output_to_consumers. rewrite Ho.
  destruct (propagate_loop_spec (child_to_parent ctx) (request_ctx_key ctx) rank fuel (fr_id r) (Some d) empty_update ctx ∅)
    as (u' & ctx' & E & H1 & H2 & H3 & _).
  - intros c p Hc. apply Hidx in Hc. split; [by apply Hrank|]. destruct Hc as (r' & Hr' & _). exists r'. split; [done|]. by apply Hk in Hr'.
  - set_solver.
  - set_solver.
  - rewrite size_empty. lia.
  - exists u', ctx'. split_and!; [exact E|done| |].
    + intros p Hp. destruct (H2 p) as [Hq ?]; [by apply Htc|].
      assert (∃ old, rc_function_runs ctx !! p = Some old) as [old Hold].
      { clear -Hp. induction Hp as [a b (o & ? & _)|a b c _ _ IH]; [by exists o|done]. }
      exists old. rewrite Hold in Hq. done.
    + intros p Hp. apply H3. by rewrite Htc.
Qed.
End propagation.

(** ** Reductions *)

(** The expression a call stands for, down to the arguments of the calls in [ids]. *)
Inductive Expr :=
| Arg (a : FunctionArgs)
| Apply (fn : string) (x y : Expr).
Fixpoint expand (fuel : nat) (ids : gset FunctionCallId) (calls : gmap FunctionCallId FunctionCall) (a : FunctionArgs) : option Expr :=
  match fuel with
  | O => None
  | S fuel =>
      match a with
      | FA_FunctionRunOutput id =>
          if bool_decide (id ∈ ids) then
            match calls !! id with
            | Some call => match fc_inputs call with
                           | [x; y] => x' ← expand fuel ids calls x; y' ← expand fuel ids calls y; Some (Apply (fc_fn_name call) x' y')
                           | _ => None
                           end
            | None => None
            end
          else Some (Arg a)
      | FA_DataPayload _ => Some (Arg a)
      end
  end.
(** reduce(reduce(reduce(a, b), c), d). *)
Definition left_fold (fn : string) (a : FunctionArgs) (rest : list FunctionArgs) : Expr :=
  foldl (λ e x, Apply fn e (Arg x)) (Arg a) rest.

Section reduction.
Context (sha256_hex : string → string).

(** The identifiers of the calls of a reduction, by position. *)
Definition reduce_id (op : ReduceOperation) (position : nat) : FunctionCallId :=
  sha256_hex (ro_function_call_id op +:+ ":reduce:" +:+ pretty position).
Definition reduce_ids (op : ReduceOperation) : gset FunctionCallId :=
  {[ro_function_call_id op]} ∪ list_to_set (reduce_id op <$> seq 0 (length (ro_collection op) - 1)).
(** No two of them collide. *)
Definition reduce_ids_distinct (op : ReduceOperation) : Prop :=
  NoDup (ro_function_call_id op :: (reduce_id op <$> seq 0 (length (ro_collection op) - 1))).

(** The call at a position of the chain of [a :: b :: rest]. *)
Definition chain_call (op : ReduceOperation) (a : FunctionArgs) (rest : list FunctionArgs) (i : nat) : FunctionCall :=
  create_function_call_from_reduce_op sha256_hex op
    (match i with O => a | S j => FA_FunctionRunOutput (reduce_id op j) end)
    (default a (rest !! i)) None i.

Lemma reduce_chain_spec op rest : ∀ position last u ctx u' ctx' call,
  reduce_chain sha256_hex op rest position last (u, ctx) = (call, (u', ctx')) →
  fc_function_call_id last = reduce_id op (position - 1) → (0 < position)%nat →
  NoDup (reduce_id op <$> seq position (length rest)) →
  ctx' = ctx <| rc_function_calls := rc_function_calls ctx' |> ∧
  fc_function_call_id call = reduce_id op (position - 1 + length rest) ∧
  (rest = [] → call = last) ∧
  (∀ i arg, rest !! i = Some arg →
     rc_function_calls ctx' !! reduce_id op (position + i) =
       Some (create_function_call_from_reduce_op sha256_hex op (FA_FunctionRunOutput (reduce_id op (position + i - 1))) arg None (position + i))) ∧
  (∀ id, id ∉ reduce_id op <$> seq position (length rest) → rc_function_calls ctx' !! id = rc_function_calls ctx !! id).
Proof.
  induction rest as [|arg rest IH]; intros position last u ctx u' ctx' call E Hlast Hpos Hnd.
  { injection E as <- <- <-. split_and!; [by destruct ctx|rewrite Hlast; f_equal; simpl; lia|done|done|done]. }
  cbn [reduce_chain fst snd] in E.
  set (c := create_function_call_from_reduce_op sha256_hex op (FA_FunctionRunOutput (fc_function_call_id last)) arg None position) in *.
  unfold add_function_call in E. cbn [seq length] in Hnd. rewrite fmap_cons in Hnd. apply NoDup_cons in Hnd as [Hn Hnd].
  apply IH in E; [|replace (S position - 1)%nat with position by lia; exact eq_refl|lia|done].
  change (rc_function_calls (ctx <| rc_function_calls ::= <[fc_function_call_id c := c]> |>)) with (<[reduce_id op position := c]> (rc_function_calls ctx)) in E.
  destruct E as (E1 & E2 & _ & E4 & E5). split_and!.
  - rewrite E1. exact eq_refl.
  - rewrite E2. f_equal. simpl. lia.
  - done.
  - intros [|i] x Hx; simpl in Hx.
    + injection Hx as <-. rewrite Nat.add_0_r, E5 by done. rewrite lookup_insert_eq. unfold c. rewrite Hlast. do 4 f_equal.
    + replace (position + S i)%nat with (S position + i)%nat by lia. by apply E4.
  - intros id Hid. cbn [seq length] in Hid. rewrite fmap_cons in Hid. apply not_elem_of_cons in Hid as [H1 H2].
    rewrite E5 by done. by rewrite lookup_insert_ne.
Qed.

Lemma reduce_chain_last op l : ∀ position first acc last u' ctx',
  l ≠ [] → reduce_chain sha256_hex op l position first acc = (last, (u', ctx')) →
  rc_function_calls ctx' !! fc_function_call_id last = Some last.
Proof.
  induction l as [|y l IH]; intros position first acc last u' ctx' Hl E; [done|]. cbn [reduce_chain] in E.
  destruct l as [|z l]; [|by eapply IH; [|exact E]]. injection E as <- _ <-. cbn. by rewrite lookup_insert_eq.
Qed.

(** The calls a reduction leaves behind: the first [n] of the chain under their
    hashes, the last under the identifier of the reduction. *)
Lemma create_reduce_calls_spec op a b rest u ctx :
  ro_collection op = a :: b :: rest → reduce_ids_distinct op →
  ∃ u' ctx', create_reduce_calls sha256_hex op (u, ctx) = inl (u', ctx') ∧
    ctx' = ctx <| rc_function_calls := rc_function_calls ctx' |> ∧
    (∀ i arg, (i ≤ length rest)%nat → (b :: rest) !! i = Some arg →
       ∃ call, rc_function_calls ctx' !! (if decide (i = length rest) then ro_function_call_id op else reduce_id op i) = Some call ∧
         fc_fn_name call = ro_fn_name op ∧
         fc_inputs call = [match i with O => a | S j => FA_FunctionRunOutput (reduce_id op j) end; arg]) ∧
    (∀ id, id ∉ reduce_ids op → rc_function_calls ctx' !! id = rc_function_calls ctx !! id).
Proof.
  intros Hcol Hnd. unfold reduce_ids_distinct, reduce_ids, create_reduce_calls in *. rewrite Hcol in *. cbn [length] in *.
  replace (S (S (length rest)) - 1)%nat with (S (length rest)) in * by lia.
  cbn [seq] in Hnd. rewrite fmap_cons in Hnd. apply NoDup_cons in Hnd as [Hop Hnd]. apply NoDup_cons in Hnd as [H0 Hnd].
  set (c0 := create_function_call_from_reduce_op sha256_hex op a b None 0). cbv zeta.
  set (ctx0 := ctx <| rc_function_calls ::= <[fc_function_call_id c0 := c0]> |>).
  set (u0 := u <| su_updated_function_calls ::= idx_insert (request_ctx_key ctx) (fc_function_call_id c0) |>).
  change (add_function_call (u, ctx).1 c0 (u, ctx).2) with (u0, ctx0).
  destruct (reduce_chain sha256_hex op rest 1 c0 (u0, ctx0)) as [last [u1 ctx1]] eqn:E.
  pose proof (reduce_chain_spec _ _ _ _ _ _ _ _ _ E eq_refl ltac:(lia) Hnd) as (E1 & E2 & E3 & E4 & E5).
  change (rc_function_calls ctx0) with (<[reduce_id op 0 := c0]> (rc_function_calls ctx)) in E5.
  do 2 eexists. split; [reflexivity|].
  set (cs := rc_function_calls ctx1) in *.
  set (calls := <[ro_function_call_id op := last <| fc_function_call_id := ro_function_call_id op |>]> (delete (fc_function_call_id last) cs)).
  set (ctx2 := _ : RequestCtx). assert (Hcalls : rc_function_calls ctx2 = calls) by exact eq_refl.
  assert (Hne : ∀ i, (i ≤ length rest)%nat → reduce_id op i ≠ ro_function_call_id op).
  { intros i Hi Heq. apply Hop. rewrite <-Heq. change (reduce_id op 0 :: (reduce_id op <$> seq 1 (length rest))) with (reduce_id op <$> seq 0 (S (length rest))).
    apply list_elem_of_fmap_2, elem_of_seq. lia. }
  assert (Hinj : ∀ i j, (i ≤ length rest)%nat → (j ≤ length rest)%nat → reduce_id op i = reduce_id op j → i = j).
  { intros i j Hi Hj Heq. assert (HN : NoDup (reduce_id op <$> seq 0 (S (length rest)))) by (cbn [seq]; rewrite fmap_cons; by constructor).
    apply (NoDup_lookup _ i j (reduce_id op i) HN); rewrite list_lookup_fmap, lookup_seq_lt by lia; simpl; by f_equal. }
  (* the chain before the last call is renamed *)
  assert (Hchain : ∀ i arg, (b :: rest) !! i = Some arg → cs !! reduce_id op i =
     Some (create_function_call_from_reduce_op sha256_hex op (match i with O => a | S j => FA_FunctionRunOutput (reduce_id op j) end) arg None i)).
  { intros [|i] arg Harg; simpl in Harg.
    - injection Harg as <-. rewrite E5 by done. by rewrite lookup_insert_eq.
    - change (reduce_id op (S i)) with (reduce_id op (1 + i)). rewrite (E4 i arg Harg).
      by replace (1 + i - 1)%nat with i by lia. }
  assert (Hlast : cs !! fc_function_call_id last = Some last).
  { destruct rest as [|x rest']; [rewrite (E3 eq_refl); by apply (Hchain 0%nat b)|]. by eapply reduce_chain_last; [|exact E]. }
  split_and!.
  - unfold ctx2. rewrite E1. exact eq_refl.
  - intros i arg Hi Harg. rewrite Hcalls. unfold calls. case_decide as Hlen.
    + rewrite lookup_insert_eq. eexists. split; [reflexivity|].
      pose proof (Hchain i arg Harg) as Hc. replace (1 - 1 + length rest)%nat with (length rest) in E2 by lia.
      rewrite Hlen, <-E2, Hlast in Hc. injection Hc as Hc. rewrite Hc. split; [done|]. cbn. by rewrite Hlen.
    + rewrite lookup_insert_ne by (intros Heq; by apply (Hne i)). rewrite lookup_delete_ne.
      * rewrite (Hchain i arg Harg). eauto.
      * rewrite E2. intros Heq%Hinj; lia.
  - intros id Hid. rewrite Hcalls. unfold calls. rewrite not_elem_of_union, not_elem_of_singleton, not_elem_of_list_to_set in Hid.
    destruct Hid as [Hid1 Hid2]. rewrite lookup_insert_ne by done. cbn [seq] in Hid2. rewrite fmap_cons in Hid2.
    pose proof Hid2 as Hid3. apply not_elem_of_cons in Hid2 as [Hi0 Hi1].
    rewrite lookup_delete_ne; [rewrite E5 by done; by rewrite lookup_insert_ne|].
    rewrite E2. intros Heq. apply Hid3. rewrite <-Heq.
    change (reduce_id op 0 :: (reduce_id op <$> seq 1 (length rest))) with (reduce_id op <$> seq 0 (S (length rest))).
    apply list_elem_of_fmap_2, elem_of_seq. lia.
Qed.

Lemma expand_leaf fuel ids calls x :
  (∀ id, x = FA_FunctionRunOutput id → id ∉ ids) → expand (S fuel) ids calls x = Some (Arg x).
Proof. intros H. destruct x as [id|d]; [|done]. simpl. by rewrite bool_decide_eq_false_2 by by apply H. Qed.
Lemma left_fold_snoc fn a l x : left_fold fn a (l ++ [x]) = Apply fn (left_fold fn a l) (Arg x).
Proof. unfold left_fold. by rewrite foldl_app. Qed.

(** C9: a reduction is turned into calls that compute its left fold: whatever two
    or more arguments it is given, following the calls it leaves under its own
    identifier yields reduce(reduce(reduce(a, b), c), d) over exactly those
    arguments in order; every other call of the request is untouched.  The hash
    is only assumed not to collide on the identifiers of this one reduction. *)
Theorem reduce_is_left_fold (op : ReduceOperation) a b rest u (ctx : RequestCtx) fuel :
  ro_collection op = a :: b :: rest → reduce_ids_distinct op →
  (∀ id, FA_FunctionRunOutput id ∈ ro_collection op → id ∉ reduce_ids op) → (length rest + 1 < fuel)%nat →
  ∃ u' ctx', create_reduce_calls sha256_hex op (u, ctx) = inl (u', ctx') ∧
    expand fuel (reduce_ids op) (rc_function_calls ctx') (FA_FunctionRunOutput (ro_function_call_id op)) =
      Some (left_fold (ro_fn_name op) a (b :: rest)) ∧
    ctx' = ctx <| rc_function_calls := rc_function_calls ctx' |> ∧
    (∀ id, id ∉ reduce_ids op → rc_function_calls ctx' !! id = rc_function_calls ctx !! id).
Proof.
  intros Hcol Hnd Hfresh Hfuel. destruct (create_reduce_calls_spec op a b rest u ctx Hcol Hnd) as (u' & ctx' & E & H1 & H2 & H3).
  exists u', ctx'. split_and!; [exact E| |done|done].
  assert (Hleaf : ∀ x f, x ∈ a :: b :: rest → expand (S f) (reduce_ids op) (rc_function_calls ctx') x = Some (Arg x)).
  { intros x f Hx. apply expand_leaf. intros id ->. apply Hfresh. by rewrite Hcol. }
  assert (Hin : ∀ i, (i ≤ length rest)%nat →
    (if decide (i = length rest) then ro_function_call_id op else reduce_id op i) ∈ reduce_ids op).
  { intros i Hi. unfold reduce_ids. rewrite Hcol. cbn [length]. rewrite elem_of_union, elem_of_singleton, elem_of_list_to_set.
    case_decide; [by left|right]. apply list_elem_of_fmap_2, elem_of_seq. lia. }
  assert (Hexp : ∀ i f, (i ≤ length rest)%nat → (i + 1 < f)%nat →
    expand f (reduce_ids op) (rc_function_calls ctx')
      (FA_FunctionRunOutput (if decide (i = length rest) then ro_function_call_id op else reduce_id op i)) =
    Some (left_fold (ro_fn_name op) a (take (S i) (b :: rest)))).
  { induction i as [|i IH]; intros f Hi Hf; (destruct f as [|f]; [lia|]); cbn [expand];
      rewrite bool_decide_eq_true_2 by by apply Hin.
    - destruct (H2 0%nat b Hi eq_refl) as (call & -> & Hfn & ->). rewrite Hfn.
      destruct f as [|f]; [lia|]. rewrite !Hleaf by (left || (right; left)). done.
    - destruct ((b :: rest) !! S i) as [arg|] eqn:Harg; [|apply lookup_ge_None in Harg; simpl in Harg; lia].
      destruct (H2 (S i) arg Hi Harg) as (call & -> & Hfn & ->). rewrite Hfn.
      specialize (IH f ltac:(lia) ltac:(lia)). rewrite decide_False in IH by lia. rewrite IH. cbn [mbind option_bind].
      destruct f as [|f]; [lia|]. rewrite Hleaf by (right; by eapply list_elem_of_lookup_2). cbn [mbind option_bind].
      by rewrite (take_S_r (b :: rest) (S i) arg Harg), left_fold_snoc. }
  specialize (Hexp (length rest) fuel ltac:(lia) Hfuel). rewrite decide_True in Hexp by done. rewrite Hexp.
  by rewrite (firstn_all2 (b :: rest)) by (simpl; lia).
Qed.
End reduction.

(** ** Finishing an allocation *)

(** The runs of a request do not wait for each other in a circle. *)
Definition acyclic (ctx : RequestCtx) : Prop :=
  ∃ rank : FunctionCallId → nat, ∀ c p, waits_on ctx p c → (rank p < rank c)%nat.
Definition keyed_runs (ctx : RequestCtx) : Prop := map_Forall (λ id r, fr_id r = id) (rc_function_runs ctx).
Definition reported (u : SchedulerUpdateRequest) (key : string) (id : FunctionCallId) : Prop :=
  id ∈ idx_get (su_updated_function_runs u) key.
Definition reported_by (u u' : SchedulerUpdateRequest) : Prop := ∀ key id, reported u key id → reported u' key id.

Lemma reported_extend u o key id : reported (extend u o) key id ↔ reported u key id ∨ reported o key id.
Proof.
  unfold reported, idx_get. change (su_updated_function_runs (extend u o)) with
    (union_with (λ a b, Some (a ∪ b)) (su_updated_function_runs u) (su_updated_function_runs o)).
  rewrite lookup_union_with. destruct (su_updated_function_runs u !! key), (su_updated_function_runs o !! key); simpl; set_solver.
Qed.
Lemma reported_add_run u r ctx key id :
  reported (add_function_run u r ctx).1 key id ↔ (key = request_ctx_key ctx ∧ id = fr_id r) ∨ reported u key id.
Proof. unfold reported, add_function_run. cbn. by rewrite elem_of_idx_insert. Qed.
Lemma reported_add_state u ctx key id : reported (add_request_state u ctx) key id ↔ reported u key id.
Proof. done. Qed.
Lemma states_add_state u ctx :
  su_updated_request_states (add_request_state u ctx) !! request_ctx_key ctx =
    Some (match su_updated_request_states u !! request_ctx_key ctx with
          | Some old => newer_request_state old ctx
          | None => ctx
          end).
Proof.
  unfold add_request_state, merge_request_state. cbn. by rewrite lookup_insert_eq.
Qed.
Lemma states_add_final u ctx :
  rc_outcome ctx ≠ None → su_updated_request_states (add_request_state u ctx) !! request_ctx_key ctx = Some ctx.
Proof.
  intros H. rewrite states_add_state. destruct (su_updated_request_states u !! request_ctx_key ctx) as [old|]; [|done].
  unfold newer_request_state. destruct (rc_outcome old), (rc_outcome ctx); done.
Qed.

(** Runs that were not completed and now are have been reported. *)
Definition progress (key : string) (ctx ctx' : RequestCtx) (u : SchedulerUpdateRequest) : Prop :=
  ∀ id r r', rc_function_runs ctx !! id = Some r → rc_function_runs ctx' !! id = Some r' →
    r' = r ∨ (run_is_completed r' = true ∧ reported u key id).

Lemma propagate_loop_weak index key fuel : ∀ id d u ctx u' ctx',
  propagate_loop fuel index key id d (u, ctx) = Some (u', ctx') → keyed_runs ctx →
  ctx' = ctx <| rc_function_runs := rc_function_runs ctx' |> ∧ keyed_runs ctx' ∧
  dom (rc_function_runs ctx') = dom (rc_function_runs ctx) ∧ reported_by u u' ∧ progress key ctx ctx' u' ∧
  su_updated_request_states u' = su_updated_request_states u ∧ su_updated_allocations u' = su_updated_allocations u.
Proof.
  induction fuel as [|fuel IH]; intros id d u ctx u' ctx' E Hk; [done|]. cbn [propagate_loop] in E.
  assert (Hsame : Some (u, ctx) = Some (u', ctx') → ctx' = ctx <| rc_function_runs := rc_function_runs ctx' |> ∧ keyed_runs ctx' ∧
    dom (rc_function_runs ctx') = dom (rc_function_runs ctx) ∧ reported_by u u' ∧ progress key ctx ctx' u' ∧
    su_updated_request_states u' = su_updated_request_states u ∧ su_updated_allocations u' = su_updated_allocations u).
  { intros [= <- <-]. split_and!; [by destruct ctx|done|done|by intros ???|intros i r r' H1 H2; left; congruence|done|done]. }
  destruct (index !! id) as [p|]; [|by apply Hsame]. cbn [fst snd] in E.
  destruct (rc_function_runs ctx !! p) as [r|] eqn:Er; [|by apply Hsame]. clear Hsame.
  pose proof (Hk _ _ Er) as Hid. simpl in Hid.
  set (r' := r <| fr_output := d |> <| fr_outcome := Some FRO_Success |> <| fr_status := FRS_Completed |>) in E.
  change (fr_id r') with (fr_id r) in E. rewrite Hid in E.
  apply IH in E; [|apply map_Forall_insert_2; [exact Hid|exact Hk]]. destruct E as (E1 & E2 & E3 & E4 & E5 & E6 & E7).
  split_and!; [rewrite E1; exact eq_refl|done| | | |done|done].
  - rewrite E3. change (dom (<[p := r']> (rc_function_runs ctx)) = dom (rc_function_runs ctx)). rewrite dom_insert_L.
    apply elem_of_dom_2 in Er. set_solver.
  - intros k i Hi. apply E4. unfold reported. cbn. rewrite elem_of_idx_insert. by right.
  - intros i x x' Hx Hx'. destruct (decide (i = p)) as [->|Hne].
    + assert (Hl : rc_function_runs (ctx <| rc_function_runs ::= <[p := r']> |>) !! p = Some r') by (cbn; by rewrite lookup_insert_eq).
      right. destruct (E5 p r' x' Hl Hx') as [->|?]; [|done]. split; [done|]. apply E4. unfold reported. cbn. rewrite elem_of_idx_insert. by left.
    + apply (E5 i); [|done]. cbn. by rewrite lookup_insert_ne.
Qed.

Section ingestion.
Context `{HO : HashOrder}.

Lemma propagate_total ctx r fuel :
  keyed_runs ctx → acyclic ctx → (size (rc_function_runs ctx) < fuel)%nat →
  ∃ u' ctx', propagate_output_to_consumers fuel ctx r = Some (u', ctx') ∧
    ctx' = ctx <| rc_function_runs := rc_function_runs ctx' |> ∧ keyed_runs ctx' ∧
    dom (rc_function_runs ctx') = dom (rc_function_runs ctx) ∧ progress (request_ctx_key ctx) ctx ctx' u' ∧
    su_updated_request_states u' = ∅ ∧ su_updated_allocations u' = [].
Proof.
  intros Hk [rank Hrank] Hf. unfold propagate_output_to_consumers. destruct (fr_output r) as [d|].
  2:{ exists empty_update, ctx. split_and!; [done|by destruct ctx|done|done|intros i x y H1 H2; left; congruence|done|done]. }
  destruct (propagate_loop_spec (child_to_parent ctx) (request_ctx_key ctx) rank fuel (fr_id r) (Some d) empty_update ctx ∅)
    as (u' & ctx' & E & _).
  - intros c p Hc. unfold child_to_parent in Hc. apply foldl_children in Hc as [Hc|(k & r' & Hin & H1 & H2)]; [by rewrite lookup_empty in Hc|].
    apply elem_of_map_iter in Hin. pose proof (Hk _ _ Hin) as Hid. simpl in Hid. assert (k = p) as -> by congruence.
    split; [apply Hrank; by exists r'|by exists r'].
  - set_solver.
  - set_solver.
  - rewrite size_empty. lia.
  - apply propagate_loop_weak in E as Hw; [|done]. destruct Hw as (W1 & W2 & W3 & _ & W5 & W6 & W7). exists u', ctx'. by split_and!.
Qed.

Lemma cancel_runs_spec l : ∀ u ctx,
  (∀ r, r ∈ l → ∃ r', rc_function_runs ctx !! fr_id r = Some r' ∧ (r' = r ∨ run_is_completed r' = true)) →
  ∃ u' ctx', foldl cancel_run (u, ctx) l = (u', ctx') ∧
    ctx' = ctx <| rc_function_runs := rc_function_runs ctx' |> ∧
    dom (rc_function_runs ctx') = dom (rc_function_runs ctx) ∧ reported_by u u' ∧ progress (request_ctx_key ctx) ctx ctx' u' ∧
    su_updated_request_states u' = su_updated_request_states u ∧ su_updated_allocations u' = su_updated_allocations u ∧
    (∀ id r', rc_function_runs ctx' !! id = Some r' → id ∈ fr_id <$> l → run_is_completed r' = true).
Proof.
  induction l as [|r l IH]; intros u ctx Hl; cbn [foldl].
  { exists u, ctx. split_and!; [done|by destruct ctx|done|by intros ???|intros i x y H1 H2; left; congruence|done|done|].
    intros id r' _ H. by apply not_elem_of_nil in H. }
  destruct (Hl r (list_elem_of_here _ _)) as (r0 & Hr0 & Hcase). unfold cancel_run at 2. destruct (run_is_completed r) eqn:Ec.
  - destruct (IH u ctx) as (u' & ctx' & E & H1 & H2 & H3 & H4 & H5 & H6 & H7); [intros x Hx; apply Hl; by right|].
    exists u', ctx'. split_and!; [done..|]. intros id r' Hr' [->|Hin]%elem_of_cons; [|by apply (H7 id)].
    destruct (H4 _ _ _ Hr0 Hr') as [->|[? _]]; [|done]. by destruct Hcase as [->|?].
  - set (r1 := r <| fr_status := FRS_Completed |> <| fr_outcome := Some (FRO_Failure FRF_FunctionRunCancelled) |>).
    cbn [fst snd]. unfold add_function_run. change (fr_id r1) with (fr_id r).
    set (u1 := u <| su_updated_function_runs ::= idx_insert (request_ctx_key ctx) (fr_id r) |>).
    set (ctx1 := ctx <| rc_function_runs ::= <[fr_id r := r1]> |>).
    assert (Hctx1 : ∀ id, rc_function_runs ctx1 !! id = if decide (fr_id r = id) then Some r1 else rc_function_runs ctx !! id)
      by (intros id; exact (lookup_insert (rc_function_runs ctx) (fr_id r) id r1)).
    assert (Hrep1 : reported u1 (request_ctx_key ctx) (fr_id r)) by (unfold reported; cbn; rewrite elem_of_idx_insert; by left).
    destruct (IH u1 ctx1) as (u' & ctx' & E & H1 & H2 & H3 & H4 & H5 & H6 & H7).
    { intros x Hx. rewrite Hctx1. destruct (Hl x (list_elem_of_further _ _ _ Hx)) as (x' & ? & ?). case_decide; [|eauto].
      exists r1. split; [done|by right]. }
    exists u', ctx'. split_and!; [done|rewrite H1; exact eq_refl| | | |done|done|].
    + rewrite H2. change (dom (<[fr_id r := r1]> (rc_function_runs ctx)) = dom (rc_function_runs ctx)). rewrite dom_insert_L.
      apply elem_of_dom_2 in Hr0. set_solver.
    + intros k i Hi. apply H3. unfold reported. cbn. rewrite elem_of_idx_insert. by right.
    + intros id x x' Hx Hx'. specialize (H4 id). rewrite Hctx1 in H4. case_decide as Hid; [subst id|by apply H4].
      right. destruct (H4 r1 x' eq_refl Hx') as [->|?]; [|done]. split; [done|by apply H3].
    + intros id r' Hr' [->|Hin]%elem_of_cons; [|by apply (H7 id)]. specialize (H4 (fr_id r)). rewrite Hctx1, decide_True in H4 by done.
      destruct (H4 r1 r' eq_refl Hr') as [->|[? _]]; done.
Qed.

Lemma fail_request_spec ev outcome reason r u ctx :
  keyed_runs ctx →
  ∃ ctx', su_updated_request_states (fail_request ev outcome reason r (u, ctx)) !! request_ctx_key ctx = Some ctx' ∧
    rc_outcome ctx' = Some (RO_Failure (request_failure_reason_from reason)) ∧
    map_Forall (λ _ r, run_is_completed r = true) (rc_function_runs ctx') ∧
    dom (rc_function_runs ctx') = {[fr_id r]} ∪ dom (rc_function_runs ctx) ∧
    reported_by u (fail_request ev outcome reason r (u, ctx)) ∧
    su_updated_allocations (fail_request ev outcome reason r (u, ctx)) = su_updated_allocations u ∧
    (∀ id x, rc_function_runs ctx !! id = Some x → run_is_completed x = false →
       reported (fail_request ev outcome reason r (u, ctx)) (request_ctx_key ctx) id).
Proof.
  intros Hk. unfold fail_request. set (r1 := r <| fr_status := FRS_Completed |> <| fr_outcome := Some outcome |>).
  destruct (match ao_request_exception ev with
            | Some payload => (r1 <| fr_request_error := Some payload |>, ctx <| rc_request_error := Some (MkRequestError (fr_name r1) payload) |>)
            | None => (r1, ctx) end) as [r2 ctx1] eqn:E2.
  assert (Hr2 : fr_id r2 = fr_id r ∧ run_is_completed r2 = true ∧ rc_function_runs ctx1 = rc_function_runs ctx ∧
    request_ctx_key ctx1 = request_ctx_key ctx) by (destruct (ao_request_exception ev); injection E2 as <- <-; done).
  destruct Hr2 as (Hid & Hcomp & Hruns & Hkey).
  set (ctx2 := ctx1 <| rc_outcome := Some (RO_Failure (request_failure_reason_from reason)) |>).
  unfold add_function_run. set (u3 := u <| su_updated_function_runs ::= idx_insert (request_ctx_key ctx2) (fr_id r2) |>).
  set (ctx3 := ctx2 <| rc_function_runs ::= <[fr_id r2 := r2]> |>).
  assert (H3runs : rc_function_runs ctx3 = <[fr_id r2 := r2]> (rc_function_runs ctx)) by (rewrite <-Hruns; exact eq_refl).
  assert (H3key : request_ctx_key ctx3 = request_ctx_key ctx) by (rewrite <-Hkey; exact eq_refl).
  assert (Hk3 : keyed_runs ctx3) by (unfold keyed_runs; rewrite H3runs; by apply map_Forall_insert_2).
  destruct (cancel_runs_spec (map_iter (rc_function_runs ctx3)).*2 u3 ctx3) as (u4 & ctx4 & E & C1 & C2 & C3 & C4 & _ & C6 & C7).
  { intros x ([k x'] & -> & Hx%elem_of_map_iter)%list_elem_of_fmap. exists x'. simpl. rewrite (Hk3 _ _ Hx). split; [done|by left]. }
  rewrite E. clear E. assert (H4key : request_ctx_key ctx4 = request_ctx_key ctx) by (rewrite C1, <-H3key; exact eq_refl).
  assert (H4out : rc_outcome ctx4 = Some (RO_Failure (request_failure_reason_from reason))) by (rewrite C1; exact eq_refl).
  exists ctx4. split_and!; [rewrite <-H4key; apply states_add_final; by rewrite H4out|done| | | |exact C6|].
  - intros id x Hx. assert (id ∈ dom (rc_function_runs ctx3)) as [y Hy]%elem_of_dom by (rewrite <-C2; by apply elem_of_dom_2 in Hx).
    apply (C7 id x Hx), list_elem_of_fmap. exists y. pose proof (Hk3 _ _ Hy) as Hyid. simpl in Hyid. split; [done|].
    apply list_elem_of_fmap. exists (id, y). split; [done|by apply elem_of_map_iter].
  - rewrite C2, H3runs, dom_insert_L. by rewrite Hid.
  - intros k i Hi. rewrite reported_add_state. apply C3. unfold reported. cbn. rewrite elem_of_idx_insert. by right.
  - intros id x Hx Hnc. rewrite reported_add_state. destruct (decide (id = fr_id r2)) as [->|Hne].
    + apply C3. unfold reported. cbn. rewrite elem_of_idx_insert. left. split; [by rewrite <-Hkey|done].
    + assert (Hx3 : rc_function_runs ctx3 !! id = Some x) by (rewrite H3runs; by rewrite lookup_insert_ne).
      assert (is_Some (rc_function_runs ctx4 !! id)) as [y Hy] by (apply elem_of_dom; rewrite C2; by apply elem_of_dom_2 in Hx3).
      rewrite <-H3key. destruct (C4 _ _ _ Hx3 Hy) as [->|[_ ?]]; [|done]. exfalso.
      cut (run_is_completed x = true); [congruence|]. apply (C7 id x Hy), list_elem_of_fmap. exists x. pose proof (Hk3 _ _ Hx3) as Hyid.
      simpl in Hyid. split; [done|]. apply list_elem_of_fmap. exists (id, x). split; [done|by apply elem_of_map_iter].
Qed.

Lemma record_output_same ev run :
  fr_id (record_output ev run) = fr_id run ∧ fr_status (record_output ev run) = fr_status run ∧
  (∀ im, get_existing_application_version im (record_output ev run) = get_existing_application_version im run) ∧
  (∀ reason av, fr_status (handle_allocation_failure (record_output ev run) reason av) = fr_status (handle_allocation_failure run reason av) ∧
                fr_id (handle_allocation_failure (record_output ev run) reason av) = fr_id run).
Proof.
  unfold record_output. split_and!; [by destruct (ao_graph_updates ev)..|]. intros reason av. unfold handle_allocation_failure.
  destruct (ao_graph_updates ev);
    (match goal with |- context [function_run_max_retries av ?x] => change (function_run_max_retries av x) with (function_run_max_retries av run) end);
    (destruct (function_run_max_retries av run) as [max|]; [|split; exact eq_refl]);
    (destruct (is_retriable reason); [|split; exact eq_refl]); cbn [andb fr_attempt_number set_field eta_FunctionRun];
    case_bool_decide; destruct (should_count_against_function_run_retry_attempts reason); split; exact eq_refl.
Qed.

(** The request and the allocation an event is about, when it is the first report
    of the allocation its run is running. *)
Record first_report {E} (get_allocation : string → E + option Allocation) (im : InMemoryState)
    (ev : AllocationOutputIngestedEvent) (ctx : RequestCtx) (run : FunctionRun) (a : Allocation) : Prop := MkFirstReport {
  fp_ctx : im_request_ctx im !! request_key (ao_namespace ev) (ao_application ev) (ao_request_id ev) = Some ctx;
  fp_open : rc_outcome ctx = None;
  fp_key : request_ctx_key ctx = request_key (ao_namespace ev) (ao_application ev) (ao_request_id ev);
  fp_keyed : ctx_keyed ctx;
  fp_run : rc_function_runs ctx !! ao_function_call_id ev = Some run;
  fp_stored : get_allocation (allocation_key (ao_namespace ev) (ao_application ev) (ao_request_id ev) (ao_allocation_id ev)) = inr (Some a);
  fp_unfinished : al_outcome a = FRO_Unknown;
  fp_running : fr_status run = FRS_Running (al_id a);
  fp_acyclic : acyclic (ctx <| rc_function_runs ::= <[fr_id run := record_output ev run]> |>);
}.
(** The allocation with the reported outcome. *)
Definition reported_allocation (ev : AllocationOutputIngestedEvent) (a : Allocation) : Allocation :=
  a <| al_outcome := ao_allocation_outcome ev |> <| al_execution_duration_ms := ao_execution_duration_ms ev |>.

Lemma first_report_step sha256_hex {E} (get_allocation : string → E + option Allocation) fuel im s ev now now_ns ctx run a :
  first_report get_allocation im ev ctx run a →
  handle_allocation_ingestion sha256_hex get_allocation fuel im s ev now now_ns =
    u' ← ingest_outcome sha256_hex fuel im ev ctx run (reported_allocation ev a) now_ns (release_allocation s ev now).2;
    Some ((release_allocation s ev now).1, inr u').
Proof.
  intros [H1 H2 _ _ H5 H6 H7 H8 _]. unfold handle_allocation_ingestion. destruct (release_allocation s ev now) as [s1 u].
  rewrite H1, H2, H5, H6. cbn [negb]. rewrite (bool_decide_eq_false_2 (None ≠ None)) by tauto.
  unfold allocation_is_terminal. rewrite H7. fold (reported_allocation ev a). change (al_id (reported_allocation ev a)) with (al_id a).
  by rewrite (bool_decide_eq_true_2 (fr_status run = FRS_Running (al_id a))).
Qed.

Lemma handle_outcome_id r a av : fr_id (handle_allocation_outcome r a av) = fr_id r.
Proof.
  unfold handle_allocation_outcome, handle_allocation_failure. destruct (al_outcome a); [done..|].
  destruct (function_run_max_retries av r); [|done]. destruct (_ && _); [|done].
  by destruct (should_count_against_function_run_retry_attempts reason).
Qed.

(** The state of the request after the outcome of the run is recorded, before the
    handler continues according to it. *)
Record outcome_recorded (ev : AllocationOutputIngestedEvent) (ctx : RequestCtx) (run : FunctionRun) (a : Allocation)
    (av : ApplicationVersion) (u u5 : SchedulerUpdateRequest) (ctx4 : RequestCtx) (run4 : FunctionRun) : Prop := MkOutcomeRecorded {
  or_ctx : ctx4 = ctx <| rc_function_runs := rc_function_runs ctx4 |>;
  or_keyed : keyed_runs ctx4;
  or_dom : dom (rc_function_runs ctx4) = dom (rc_function_runs ctx);
  or_run : rc_function_runs ctx4 !! fr_id run = Some run4 ∧ fr_id run4 = fr_id run;
  or_status : fr_status run4 = fr_status (handle_allocation_outcome (record_output ev run) (reported_allocation ev a) av);
  or_reported : ∀ id r, rc_function_runs ctx !! id = Some r →
    ∃ r', rc_function_runs ctx4 !! id = Some r' ∧ (r' = r ∨ reported u5 (request_ctx_key ctx) id);
  or_states : su_updated_request_states u = ∅ → su_updated_request_states u5 = {[request_ctx_key ctx := ctx4]};
  or_allocations : su_updated_allocations u5 = su_updated_allocations u ++ [reported_allocation ev a];
}.

Lemma ingest_prefix sha256_hex {E} (get_allocation : string → E + option Allocation) fuel im ev now_ns ctx run a av u :
  first_report get_allocation im ev ctx run a → get_existing_application_version im run = Some av →
  (size (rc_function_runs ctx) < fuel)%nat →
  ∃ u5 ctx4 run4, outcome_recorded ev ctx run a av u u5 ctx4 run4 ∧
    ingest_outcome sha256_hex fuel im ev ctx run (reported_allocation ev a) now_ns u =
      if run_is_pending run4 then Some u5
      else match ao_allocation_outcome ev with
           | FRO_Failure reason => Some (fail_request ev (ao_allocation_outcome ev) reason run4 (u5, ctx4))
           | _ => continue_request sha256_hex ev av now_ns (u5, ctx4)
           end.
Proof.
  intros [H1 H2 H3 [H4 _] H5 H6 H7 H8 H9] Hav Hfuel. pose proof (H4 _ _ H5) as Hid. simpl in Hid.
  unfold ingest_outcome. set (run2 := record_output ev run) in *. destruct (record_output_same ev run) as (R1 & R2 & R3 & R4). fold run2 in R1, R2, R3, R4.
  unfold add_function_run at 1. rewrite R1. set (ctx2 := ctx <| rc_function_runs ::= <[fr_id run := run2]> |>) in *.
  set (u2 := _ <| su_updated_function_runs ::= idx_insert (request_ctx_key ctx) (fr_id run) |>).
  assert (Hk2 : keyed_runs ctx2) by (apply map_Forall_insert_2; [exact R1|exact H4]).
  assert (Hdom2 : dom (rc_function_runs ctx2) = dom (rc_function_runs ctx)).
  { change (dom (<[fr_id run := run2]> (rc_function_runs ctx)) = dom (rc_function_runs ctx)). rewrite dom_insert_L. apply elem_of_dom_2 in H5.
    rewrite Hid. set_solver. }
  destruct (propagate_total ctx2 run2 fuel Hk2 H9) as (up & ctx3 & -> & P1 & P2 & P3 & P4 & P5 & P6).
  { by rewrite <-size_dom, Hdom2, size_dom. }
  cbn [mbind option_bind]. rewrite R3, Hav.
  set (run3 := handle_allocation_outcome run2 (reported_allocation ev a) av).
  set (run4 := if _ : bool then run3 <| fr_outcome := None |> else run3).
  assert (Hrun4 : fr_id run4 = fr_id run ∧ fr_status run4 = fr_status run3).
  { unfold run4. rewrite <-R1, <-(handle_outcome_id run2 (reported_allocation ev a) av). fold run3. by destruct (negb _ && _). }
  unfold add_function_run. rewrite (proj1 Hrun4).
  set (ctx4 := ctx3 <| rc_function_runs ::= <[fr_id run := run4]> |>).
  set (u4 := extend u2 up <| su_updated_function_runs ::= idx_insert (request_ctx_key ctx3) (fr_id run) |>).
  change (al_outcome (reported_allocation ev a)) with (ao_allocation_outcome ev).
  exists (add_request_state u4 ctx4), ctx4, run4. split; [|done].
  assert (Hkey3 : request_ctx_key ctx3 = request_ctx_key ctx) by (rewrite P1; exact eq_refl).
  assert (Hrep : ∀ id, reported (add_request_state u4 ctx4) (request_ctx_key ctx) id ↔ id = fr_id run ∨ reported (extend u2 up) (request_ctx_key ctx) id).
  { intros id. rewrite reported_add_state. unfold u4, reported. cbn. rewrite Hkey3, elem_of_idx_insert. naive_solver. }
  split.
  - unfold ctx4. rewrite P1. exact eq_refl.
  - apply map_Forall_insert_2; [exact (proj1 Hrun4)|exact P2].
  - change (dom (<[fr_id run := run4]> (rc_function_runs ctx3)) = dom (rc_function_runs ctx)). rewrite dom_insert_L, P3, Hdom2.
    apply elem_of_dom_2 in H5. rewrite Hid. set_solver.
  - split; [|apply Hrun4]. exact (lookup_insert_eq (rc_function_runs ctx3) (fr_id run) run4).
  - apply Hrun4.
  - intros id r Hr. change (rc_function_runs ctx4) with (<[fr_id run := run4]> (rc_function_runs ctx3)).
    destruct (decide (id = fr_id run)) as [->|Hne].
    + exists run4. rewrite lookup_insert_eq. split; [done|right]. rewrite Hrep. by left.
    + rewrite lookup_insert_ne by done. assert (Hr2 : rc_function_runs ctx2 !! id = Some r).
      { change (<[fr_id run := run2]> (rc_function_runs ctx) !! id = Some r). by rewrite lookup_insert_ne. }
      assert (is_Some (rc_function_runs ctx3 !! id)) as [r' Hr'] by (apply elem_of_dom; rewrite P3; by apply elem_of_dom_2 in Hr2).
      exists r'. split; [done|]. destruct (P4 _ _ _ Hr2 Hr') as [->|[_ Hrp]]; [by left|right]. rewrite Hrep, reported_extend. by right; right.
  - intros Hu. assert (Hu4 : su_updated_request_states u4 = ∅).
    { unfold u4. change (union_with (λ a b, Some (newer_request_state a b)) (su_updated_request_states u) (su_updated_request_states up) = ∅).
      rewrite Hu, P5. by apply map_eq; intros i; rewrite lookup_union_with, !lookup_empty. }
    unfold add_request_state, merge_request_state. cbn [su_updated_request_states set_field eta_SchedulerUpdateRequest]. rewrite Hu4.
    rewrite lookup_empty. change (request_ctx_key ctx4) with (request_ctx_key ctx3). by rewrite Hkey3, insert_empty.
  - change (su_updated_allocations (add_request_state u4 ctx4)) with (su_updated_allocations u2 ++ su_updated_allocations up).
    rewrite P6, app_nil_r. exact eq_refl.
Qed.

Lemma release_allocation_update s ev now :
  su_updated_request_states (release_allocation s ev now).2 = ∅ ∧ su_updated_allocations (release_allocation s ev now).2 = [].
Proof. unfold release_allocation. by destruct (cs_function_containers s !! _). Qed.

(** C5: when an allocation fails and the retry policy gives its run up, the
    handler returns and the whole request is over: the reported state of the
    request carries the failure, every one of its runs is completed, every run
    that was still active is listed so that it is persisted and cancelled, no run
    appears or disappears, and the allocation is recorded with its outcome. *)
Theorem failed_request_cancels_all sha256_hex {E} (get_allocation : string → E + option Allocation) fuel
    (im : InMemoryState) s (ev : AllocationOutputIngestedEvent) now now_ns ctx run a av reason :
  first_report get_allocation im ev ctx run a → get_existing_application_version im run = Some av →
  (size (rc_function_runs ctx) < fuel)%nat →
  ao_allocation_outcome ev = FRO_Failure reason → run_is_completed (handle_allocation_failure run reason av) = true →
  ∃ s' u ctx', handle_allocation_ingestion sha256_hex get_allocation fuel im s ev now now_ns = Some (s', inr u) ∧
    su_updated_request_states u !! request_ctx_key ctx = Some ctx' ∧
    rc_outcome ctx' = Some (RO_Failure (request_failure_reason_from reason)) ∧
    map_Forall (λ _ r, run_is_completed r = true) (rc_function_runs ctx') ∧
    dom (rc_function_runs ctx') = dom (rc_function_runs ctx) ∧
    (∀ id r, rc_function_runs ctx !! id = Some r → run_is_completed r = false → reported u (request_ctx_key ctx) id) ∧
    su_updated_allocations u = [reported_allocation ev a].
Proof.
  intros Hf Hav Hfuel Hout Hgive. rewrite (first_report_step _ _ _ _ _ _ _ _ _ _ _ Hf).
  destruct (release_allocation_update s ev now) as [U1 U2]. set (u0 := (release_allocation s ev now).2) in *.
  destruct (ingest_prefix sha256_hex get_allocation fuel im ev now_ns ctx run a av u0 Hf Hav Hfuel) as (u5 & ctx4 & run4 & [O1 O2 O3 [O4 O4'] O5 O6 O7 O8] & ->).
  assert (Hst : fr_status run4 = FRS_Completed).
  { rewrite O5. unfold handle_allocation_outcome. change (al_outcome (reported_allocation ev a)) with (ao_allocation_outcome ev). rewrite Hout.
    rewrite (proj1 (proj2 (proj2 (proj2 (record_output_same ev run))) reason av)). unfold run_is_completed in Hgive.
    by destruct (fr_status (handle_allocation_failure run reason av)). }
  unfold run_is_pending. rewrite Hst, Hout. cbn [mbind option_bind].
  destruct (fail_request_spec ev (FRO_Failure reason) reason run4 u5 ctx4 O2) as (ctx' & F1 & F2 & F3 & F4 & F5 & F6 & F7).
  assert (Hkey : request_ctx_key ctx4 = request_ctx_key ctx) by (rewrite O1; exact eq_refl). rewrite Hkey in F1, F7.
  do 2 eexists. exists ctx'. split; [reflexivity|]. split_and!; [done|done|done| | |].
  - rewrite F4, O4', O3. apply elem_of_dom_2 in O4. rewrite O3 in O4. set_solver.
  - intros id r Hr Hnc. destruct (O6 id r Hr) as (r' & Hr' & [->|Hrep]); [by apply (F7 id r)|by apply F5].
  - by rewrite F6, O8, U2.
Qed.

(** *** Success *)

(** The reductions of an update have at least two arguments, and the identifier of
    the call that is renamed is not one of a run. *)
Definition graph_ok (sha256_hex : string → string) (ctx : RequestCtx) (g : GraphUpdates) : Prop :=
  ∀ op, CO_Reduce op ∈ gu_graph_updates g →
    (2 ≤ length (ro_collection op))%nat ∧ reduce_id sha256_hex op (length (ro_collection op) - 2) ∉ dom (rc_function_runs ctx) ∧
    reduce_ids_distinct sha256_hex op.

(** What creating calls changes. *)
Record calls_added (ctx ctx' : RequestCtx) : Prop := MkCallsAdded {
  ca_ctx : ctx' = ctx <| rc_function_calls := rc_function_calls ctx' |>;
  ca_keyed : map_Forall (λ id c, fc_function_call_id c = id) (rc_function_calls ctx');
  ca_runs : dom (rc_function_runs ctx) ⊆ dom (rc_function_calls ctx');
}.
Lemma add_call_added ctx ctx' u c :
  calls_added ctx ctx' → calls_added ctx (add_function_call u c ctx').2.
Proof.
  intros [H1 H2 H3]. split.
  - unfold add_function_call. cbn [snd]. rewrite H1. exact eq_refl.
  - apply map_Forall_insert_2; [done|exact H2].
  - change (dom (rc_function_runs ctx) ⊆ dom (<[fc_function_call_id c := c]> (rc_function_calls ctx'))). rewrite dom_insert_L. set_solver.
Qed.
Lemma reduce_chain_added sha256_hex op l : ∀ position c ctx u ctx',
  calls_added ctx ctx' → calls_added ctx (reduce_chain sha256_hex op l position c (u, ctx')).2.2.
Proof.
  induction l as [|x l IH]; intros position c ctx u ctx' H; cbn [reduce_chain fst snd]; [done|].
  match goal with |- context [add_function_call u ?k ctx'] => pose proof (add_call_added ctx ctx' u k H) as Hk end. unfold add_function_call in *. by apply IH.
Qed.
Lemma reduce_calls_added sha256_hex op ctx u ctx' :
  calls_added ctx ctx' → (2 ≤ length (ro_collection op))%nat →
  reduce_id sha256_hex op (length (ro_collection op) - 2) ∉ dom (rc_function_runs ctx) → reduce_ids_distinct sha256_hex op →
  ∃ u1 ctx1, create_reduce_calls sha256_hex op (u, ctx') = inl (u1, ctx1) ∧ calls_added ctx ctx1.
Proof.
  intros H Hlen Hfresh Hnd. unfold create_reduce_calls. unfold reduce_ids_distinct in Hnd.
  destruct (ro_collection op) as [|a [|b rest]] eqn:Ecol; [simpl in Hlen; lia..|]. cbn [fst snd].
  set (c0 := create_function_call_from_reduce_op sha256_hex op a b None 0).
  pose proof (add_call_added ctx ctx' u c0 H) as H0. cbn [length] in Hnd. replace (S (S (length rest)) - 1)%nat with (S (length rest)) in Hnd by lia.
  cbn [seq] in Hnd. rewrite fmap_cons in Hnd. apply NoDup_cons in Hnd as [_ Hnd]. apply NoDup_cons in Hnd as [_ Hnd].
  unfold add_function_call at 1 in H0. cbn [snd] in H0.
  set (u0 := u <| su_updated_function_calls ::= idx_insert (request_ctx_key ctx') (fc_function_call_id c0) |>).
  set (ctx0 := ctx' <| rc_function_calls ::= <[fc_function_call_id c0 := c0]> |>) in *.
  change (add_function_call u c0 ctx') with (u0, ctx0). pose proof (reduce_chain_added sha256_hex op rest 1 c0 ctx u0 ctx0 H0) as H1.
  destruct (reduce_chain sha256_hex op rest 1 c0 (u0, ctx0)) as [last [u1 ctx1]] eqn:E. cbn [snd] in H1.
  pose proof (reduce_chain_spec sha256_hex _ _ _ _ _ _ _ _ _ E eq_refl ltac:(lia) Hnd) as (_ & E2 & _).
  do 2 eexists. split; [reflexivity|]. refine (add_call_added ctx (ctx1 <| rc_function_calls ::= delete (fc_function_call_id last) |>) u1 _ _).
  destruct H1 as [G1 G2 G3]. split.
  - rewrite G1. exact eq_refl.
  - by apply map_Forall_delete.
  - change (dom (rc_function_runs ctx) ⊆ dom (delete (fc_function_call_id last) (rc_function_calls ctx1))). rewrite dom_delete_L, E2.
    replace (1 - 1 + length rest)%nat with (length (a :: b :: rest) - 2)%nat by (simpl; lia). set_solver.
Qed.

Lemma create_function_calls_added sha256_hex ctx g :
  map_Forall (λ id c, fc_function_call_id c = id) (rc_function_calls ctx) → dom (rc_function_runs ctx) ⊆ dom (rc_function_calls ctx) →
  graph_ok sha256_hex ctx g → calls_added ctx (create_function_calls sha256_hex ctx g).2.
Proof.
  intros Hk Hdom Hg. unfold create_function_calls, graph_ok in *.
  assert (H0 : calls_added ctx ctx) by (split; [by destruct ctx|done..]).
  set (f := λ acc op, match op with CO_FunctionCall call => add_function_call acc.1 call acc.2 | CO_Reduce _ => acc end).
  assert (H1 : ∀ l acc, calls_added ctx acc.2 → calls_added ctx (foldl f acc l).2).
  { induction l as [|[op|c] l IH]; intros acc H; cbn [foldl]; [done|by apply IH|]. apply IH. by apply add_call_added. }
  specialize (H1 (gu_graph_updates g) (empty_update, ctx) H0). revert Hg H1. generalize (foldl f (empty_update, ctx) (gu_graph_updates g)).
  induction (gu_graph_updates g) as [|[op|c] l IH]; intros [u ctx'] Hg H; cbn [create_reductions]; [done| |].
  - destruct (Hg op (list_elem_of_here _ _)) as (L1 & L2 & L3).
    destruct (reduce_calls_added sha256_hex op ctx u ctx' H L1 L2 L3) as (u1 & ctx1 & -> & H1).
    apply IH; [|exact H1]. intros op' Hop'. apply Hg. by right.
  - apply IH; [|done]. intros op' Hop'. apply Hg. by right.
Qed.

Lemma reduce_chain_states sha256_hex op l : ∀ position c acc,
  su_updated_request_states (reduce_chain sha256_hex op l position c acc).2.1 = su_updated_request_states acc.1.
Proof. induction l as [|x l IH]; intros position c acc; cbn [reduce_chain]; [done|]. by rewrite IH. Qed.
Lemma create_function_calls_states sha256_hex ctx g :
  su_updated_request_states (create_function_calls sha256_hex ctx g).1 = ∅.
Proof.
  unfold create_function_calls. set (f := λ acc op, match op with CO_FunctionCall call => add_function_call acc.1 call acc.2 | CO_Reduce _ => acc end).
  assert (H1 : ∀ l acc, su_updated_request_states (foldl f acc l).1 = su_updated_request_states acc.1).
  { induction l as [|[op|c] l IH]; intros acc; cbn [foldl]; [done|by rewrite IH|]. by rewrite IH. }
  transitivity (su_updated_request_states (foldl f (empty_update, ctx) (gu_graph_updates g)).1); [|by rewrite H1].
  generalize (foldl f (empty_update, ctx) (gu_graph_updates g)). clear H1.
  induction (gu_graph_updates g) as [|[op|c] l IH]; intros acc; cbn [create_reductions]; [done| |by apply IH].
  unfold create_reduce_calls. destruct (ro_collection op) as [|a [|b rest]]; [done..|].
  set (c0 := create_function_call_from_reduce_op sha256_hex op a b None 0).
  pose proof (reduce_chain_states sha256_hex op rest 1 c0 (add_function_call acc.1 c0 acc.2)) as Hc.
  destruct (reduce_chain sha256_hex op rest 1 c0 _) as [last [u1 ctx1]]. rewrite IH. exact Hc.
Qed.

Lemma states_extend_empty u o :
  su_updated_request_states o = ∅ → su_updated_request_states (extend u o) = su_updated_request_states u.
Proof.
  intros H. change (union_with (λ a b, Some (newer_request_state a b)) (su_updated_request_states u) (su_updated_request_states o) = su_updated_request_states u).
  rewrite H. apply map_eq. intros i. rewrite lookup_union_with, lookup_empty. by destruct (su_updated_request_states u !! i).
Qed.

(** A request whose runs all have calls is completed when nothing is left. *)
Definition nothing_left (ctx : RequestCtx) : Prop :=
  pending_function_calls ctx = ∅ ∧ map_Forall (λ _ r, run_is_completed r = true) (rc_function_runs ctx).
Lemma is_request_completed_iff ctx :
  rc_outcome ctx = None → dom (rc_function_runs ctx) ⊆ dom (rc_function_calls ctx) →
  is_request_completed ctx = true ↔ nothing_left ctx.
Proof.
  intros Ho Hdom. unfold is_request_completed, nothing_left, pending_function_calls. rewrite Ho.
  assert (Hsz : size (rc_function_calls ctx) = size (rc_function_runs ctx) ↔ dom (rc_function_calls ctx) ∖ dom (rc_function_runs ctx) = ∅).
  { rewrite <-!size_dom. split.
    - intros Heq. rewrite (set_subseteq_size_eq _ _ Hdom) by lia. set_solver.
    - intros Hd. assert (dom (rc_function_calls ctx) = dom (rc_function_runs ctx)) as ->; [|done]. apply set_eq. intros x. split; [|apply Hdom].
      intros Hx. destruct (decide (x ∈ dom (rc_function_runs ctx))) as [|Hn]; [done|]. exfalso.
      apply (not_elem_of_empty (C := gset FunctionCallId) x). rewrite <-Hd. by apply elem_of_difference. }
  case_bool_decide as H1; [rewrite bool_decide_eq_true; naive_solver|]. naive_solver.
Qed.

Lemma continue_request_spec sha256_hex ev av now_ns u ctx :
  ctx_keyed ctx → dom (rc_function_runs ctx) ⊆ dom (rc_function_calls ctx) → rc_outcome ctx = None →
  su_updated_request_states u = {[request_ctx_key ctx := ctx]} →
  (∀ g, ao_graph_updates ev = Some g → graph_ok sha256_hex ctx g) →
  ∃ u' ctx', continue_request sha256_hex ev av now_ns (u, ctx) = Some u' ∧
    su_updated_request_states u' !! request_ctx_key ctx = Some ctx' ∧
    (rc_outcome ctx' = Some RO_Success ∧ nothing_left ctx' ∨
     rc_outcome ctx' = None ∧ ¬ nothing_left ctx' ∧ ∀ id, id ∈ pending_function_calls ctx' → run_for ctx' av now_ns id = None).
Proof.
  intros [Hk Hkc] Hdom Ho Hst Hg. unfold continue_request.
  set (acc := match ao_graph_updates ev with
              | Some g => let '(ug, ctxg) := create_function_calls sha256_hex ctx g in (extend u ug, ctxg)
              | None => (u, ctx) end).
  assert (Hacc : calls_added ctx acc.2 ∧ su_updated_request_states acc.1 = {[request_ctx_key ctx := ctx]}).
  { unfold acc. destruct (ao_graph_updates ev) as [g|]; [|split; [split; [by destruct ctx|done..]|done]].
    pose proof (create_function_calls_added sha256_hex ctx g Hkc Hdom (Hg g eq_refl)) as Ha.
    pose proof (create_function_calls_states sha256_hex ctx g) as Hs. destruct (create_function_calls sha256_hex ctx g) as [ug ctxg].
    split; [done|]. cbn [fst]. by rewrite states_extend_empty. }
  destruct acc as [u1 ctx1]. cbn [fst snd] in Hacc. destruct Hacc as [[A1 A2 A3] Hs1].
  assert (Hruns : rc_function_runs ctx1 = rc_function_runs ctx) by (rewrite A1; exact eq_refl).
  assert (Ho1 : rc_outcome ctx1 = None) by (rewrite A1; exact Ho).
  assert (Hkey : request_ctx_key ctx1 = request_ctx_key ctx) by (rewrite A1; exact eq_refl).
  rewrite <-Hruns in A3. pose proof (is_request_completed_iff ctx1 Ho1 A3) as Hiff.
  destruct (is_request_completed ctx1) eqn:Ec.
  - do 2 eexists. split; [reflexivity|]. split.
    + assert (Hkf : request_ctx_key (ctx1 <| rc_outcome := Some RO_Success |>) = request_ctx_key ctx) by exact Hkey.
      rewrite <-Hkf. by apply states_add_final.
    + left. split; [done|]. by apply Hiff.
  - destruct (create_function_runs_spec ctx1 av now_ns A2) as (u2 & ctx2 & -> & C1 & C2 & _ & C4). cbn [mbind option_bind].
    assert (Hkey2 : request_ctx_key ctx2 = request_ctx_key ctx) by (rewrite C1, <-Hkey; exact eq_refl).
    assert (Hcalls : rc_function_calls ctx2 = rc_function_calls ctx1) by (rewrite C1; exact eq_refl).
    exists (add_request_state (extend u1 u2) ctx2), ctx2. split; [done|]. split.
    + rewrite <-Hkey2, states_add_state, states_extend_empty by (rewrite C4; exact eq_refl). rewrite Hs1, Hkey2, lookup_singleton_eq.
      unfold newer_request_state. by rewrite Ho.
    + right. split; [rewrite C1; exact Ho1|].
      assert (Hfor : ∀ id, run_for ctx2 av now_ns id = run_for ctx1 av now_ns id).
      { intros id. unfold run_for. rewrite Hcalls. destruct (rc_function_calls ctx1 !! id) as [c|]; [|done]. cbn [mbind option_bind].
        rewrite (gather_inputs_more ctx1 ctx2); [by replace (rc_request_id ctx2) with (rc_request_id ctx1) by (rewrite C1; exact eq_refl)| |].
        - intros i r Hr. by rewrite C2, Hr.
        - intros i r Hr Hr'. rewrite C2, Hr in Hr'. unfold run_for in Hr'. destruct (rc_function_calls ctx1 !! i) as [c'|]; [|done]. cbn [mbind option_bind] in Hr'.
          destruct (gather_inputs ctx1 (fc_inputs c')); [|done]. by injection Hr' as <-. }
      split.
      * intros [Hp Hall]. cut (nothing_left ctx1); [intros H; apply Hiff in H; done|]. split.
        -- apply set_eq. intros id. split; [|set_solver]. unfold pending_function_calls in *. rewrite Hcalls in Hp.
           rewrite elem_of_difference. intros [Hc Hr]. exfalso. destruct (rc_function_runs ctx2 !! id) as [r|] eqn:E2.
           ++ specialize (Hall _ _ E2). simpl in Hall. rewrite C2 in E2. apply not_elem_of_dom in Hr. rewrite Hr in E2. unfold run_for in E2.
              destruct (rc_function_calls ctx1 !! id) as [c'|]; [|done]. cbn [mbind option_bind] in E2.
              destruct (gather_inputs ctx1 (fc_inputs c')); [|done]. by injection E2 as <-.
           ++ apply not_elem_of_dom in E2. set_solver.
        -- intros id r Hr. apply (Hall id). by rewrite C2, Hr.
      * intros id. unfold pending_function_calls. rewrite elem_of_difference, not_elem_of_dom. intros [_ Hn]. rewrite Hfor.
        rewrite C2 in Hn. by destruct (rc_function_runs ctx1 !! id).
Qed.

(** C6: a request is reported successful exactly when it is done.  An allocation of a run of
    an open request, whose version is known and whose runs are all of its calls, succeeds
    for the first time; the calls the run made are either none or a graph whose reductions have at least two arguments each, with ids of their own (a shorter
    one makes a request succeed without its output, [degenerate_reduction_succeeds]).  Then
    the handler returns, and the state it reports for the request has the outcome success if
    and only if every call has a run and every run is completed; otherwise the request stays
    open and every call still without a run waits for an output that does not exist yet. *)
Theorem success_exactly_when_done sha256_hex {E} (get_allocation : string → E + option Allocation) fuel
    (im : InMemoryState) s (ev : AllocationOutputIngestedEvent) now now_ns ctx run a av :
  first_report get_allocation im ev ctx run a → get_existing_application_version im run = Some av →
  (size (rc_function_runs ctx) < fuel)%nat → dom (rc_function_runs ctx) ⊆ dom (rc_function_calls ctx) →
  ao_allocation_outcome ev = FRO_Success → (∀ g, ao_graph_updates ev = Some g → graph_ok sha256_hex ctx g) →
  ∃ s' u ctx', handle_allocation_ingestion sha256_hex get_allocation fuel im s ev now now_ns = Some (s', inr u) ∧
    su_updated_request_states u !! request_ctx_key ctx = Some ctx' ∧
    (rc_outcome ctx' = Some RO_Success ∧ nothing_left ctx' ∨
     rc_outcome ctx' = None ∧ ¬ nothing_left ctx' ∧
     ∀ id call, id ∈ pending_function_calls ctx' → rc_function_calls ctx' !! id = Some call → gather_inputs ctx' (fc_inputs call) = None).
Proof.
  intros Hf Hav Hfuel Hdom Hout Hg. rewrite (first_report_step _ _ _ _ _ _ _ _ _ _ _ Hf).
  destruct (release_allocation_update s ev now) as [U1 U2]. set (u0 := (release_allocation s ev now).2) in *.
  destruct (ingest_prefix sha256_hex get_allocation fuel im ev now_ns ctx run a av u0 Hf Hav Hfuel) as (u5 & ctx4 & run4 & [O1 O2 O3 [O4 O4'] O5 O6 O7 O8] & ->).
  assert (Hst : fr_status run4 = FRS_Completed).
  { rewrite O5. unfold handle_allocation_outcome. change (al_outcome (reported_allocation ev a)) with (ao_allocation_outcome ev). by rewrite Hout. }
  unfold run_is_pending. rewrite Hst, Hout.
  assert (Hkey : request_ctx_key ctx4 = request_ctx_key ctx) by (rewrite O1; exact eq_refl).
  assert (Hcalls : rc_function_calls ctx4 = rc_function_calls ctx) by (rewrite O1; exact eq_refl).
  destruct (continue_request_spec sha256_hex ev av now_ns u5 ctx4) as (u' & ctx' & -> & C2 & C3).
  - split; [done|]. rewrite Hcalls. apply (fp_keyed _ _ _ _ _ _ Hf).
  - by rewrite Hcalls, O3.
  - rewrite O1. exact (fp_open _ _ _ _ _ _ Hf).
  - rewrite Hkey. by apply O7.
  - intros g Eg op Hop. destruct (Hg g Eg op Hop) as (? & ? & ?). split_and!; [done|by rewrite O3|done].
  - cbn [mbind option_bind]. do 2 eexists. exists ctx'. split; [reflexivity|]. rewrite Hkey in C2. split; [done|].
    destruct C3 as [?|(? & ? & H)]; [by left|right]. split_and!; [done..|]. intros id call Hid Hc. specialize (H id Hid).
    unfold run_for in H. rewrite Hc in H. cbn [mbind option_bind] in H. by destruct (gather_inputs ctx' (fc_inputs call)).
Qed.
End ingestion.

(** ** Examples *)

Definition version_ex (max_retries : Z) : ApplicationVersion :=
  to_version (app_ex (MkFunction "fn" "" [] "" "" None 0 300000 (MkFunctionResources 1000 1024 1024 [])
                        (MkFunctionRetryPolicy max_retries 1000 1000 1000) None [] None 1 None None None)).
Definition payload_ex (id : string) : DataPayload := MkDataPayload id "" 0 0 0 "" "".
Definition call_ex (id : string) (inputs : list FunctionArgs) : FunctionCall := MkFunctionCall id inputs "fn" "" None.
Definition salted_ex (s : string) : string := "h:" +:+ s.

Lemma retry_budget_exact_witness :
  run_is_completed (fail_all (version_ex 2) (function_run_ex "c1" "v1" (FRS_Running "a1"))
    [FRF_FunctionError; FRF_ExecutorRemoved; FRF_FunctionTimeout; FRF_OutOfMemory]) = true.
Proof.
  destruct (retry_budget_exact (version_ex 2) [FRF_FunctionError; FRF_ExecutorRemoved; FRF_FunctionTimeout; FRF_OutOfMemory]
              (function_run_ex "c1" "v1" (FRS_Running "a1")) 2) as (_ & _ & H & _).
  - reflexivity.
  - vm_compute. split; discriminate.
  - vm_compute. discriminate.
  - reflexivity.
  - apply H. vm_compute. reflexivity.
Defined.

(** A request with a finished run, a call that needs its output, and one that
    waits for the latter. *)
Definition chained_ex : RequestCtx :=
  MkRequestCtx "ns" "app" "v1" "r1" None 0 None None None
    {["c1" := function_run_ex "c1" "v1" FRS_Completed <| fr_output := Some (payload_ex "o1") |>]}
    (<["c1" := call_ex "c1" []]> (<["c2" := call_ex "c2" [FA_FunctionRunOutput "c1"]]> {["c3" := call_ex "c3" [FA_FunctionRunOutput "c2"]]})).
Lemma create_function_runs_exact_witness :
  ∃ u' ctx', @create_function_runs canonical_order chained_ex (pending_function_calls chained_ex) (version_ex 0) 0 = Some (u', ctx') ∧
    (∃ r, rc_function_runs ctx' !! "c2" = Some r).
Proof.
  destruct (@create_function_runs_exact canonical_order chained_ex (version_ex 0) 0) as (u' & ctx' & E & _ & _ & H & _).
  - apply (bool_decide_eq_true_1 (map_Forall (λ id c, fc_function_call_id c = id) (rc_function_calls chained_ex))). vm_compute. reflexivity.
  - exists u', ctx'. split; [exact E|]. apply H; [vm_compute; reflexivity|]. exists (call_ex "c2" [FA_FunctionRunOutput "c1"]).
    split; [vm_compute; reflexivity|]. intros dep Hdep. apply list_elem_of_singleton in Hdep. injection Hdep as ->.
    eexists. split; [vm_compute; reflexivity|]. discriminate.
Defined.

(** Run c1 waits for c2, which has just produced its output. *)
Definition waiting_ex : RequestCtx :=
  chained_ex <| rc_function_runs := <["c1" := function_run_ex "c1" "v1" FRS_Completed <| fr_child_function_call := Some "c2" |>]>
                                      {["c2" := function_run_ex "c2" "v1" FRS_Completed]} |>.
Lemma waiting_ex_waits c p : waits_on waiting_ex p c → p = "c1" ∧ c = "c2".
Proof.
  intros (r & Hr & Hc). change (rc_function_runs waiting_ex) with
    (<["c1" := function_run_ex "c1" "v1" FRS_Completed <| fr_child_function_call := Some "c2" |>]>
       ({["c2" := function_run_ex "c2" "v1" FRS_Completed]} : gmap FunctionCallId FunctionRun)) in Hr.
  apply lookup_insert_Some in Hr as [[<- <-]|[_ Hr]]; [injection Hc as <-; by split|].
  apply lookup_singleton_Some in Hr as [<- <-]. discriminate.
Qed.
Lemma output_reaches_waiting_runs_witness :
  ∃ u' ctx', @propagate_output_to_consumers canonical_order 3 waiting_ex
      (function_run_ex "c2" "v1" FRS_Completed <| fr_output := Some (payload_ex "o2") |>) = Some (u', ctx') ∧
    (fr_output <$> rc_function_runs ctx' !! "c1") = Some (Some (payload_ex "o2")).
Proof.
  destruct (@output_reaches_waiting_runs canonical_order waiting_ex
    (function_run_ex "c2" "v1" FRS_Completed <| fr_output := Some (payload_ex "o2") |>) (payload_ex "o2")
    (λ id, if bool_decide (id = "c2") then 1%nat else 0%nat) 3) as (u' & ctx' & E & _ & H & _).
  - apply (bool_decide_eq_true_1 (map_Forall (λ id r, fr_id r = id) (rc_function_runs waiting_ex))). vm_compute. reflexivity.
  - intros c p p' H1%waiting_ex_waits H2%waiting_ex_waits. destruct H1 as [-> _], H2 as [-> _]. reflexivity.
  - intros c p [-> ->]%waiting_ex_waits. vm_compute. constructor.
  - reflexivity.
  - vm_compute. constructor.
  - exists u', ctx'. split; [exact E|]. destruct (H "c1") as (old & _ & -> & _); [|reflexivity]. apply tc_once.
    eexists. split; reflexivity.
Defined.

Definition reduce_ex : ReduceOperation := MkReduceOperation "sum" (FA_DataPayload ∘ payload_ex <$> ["a"; "b"; "c"; "d"]) "fn" "".
Lemma reduce_ex_distinct : reduce_ids_distinct salted_ex reduce_ex.
Proof. apply (bool_decide_eq_true_1 (NoDup _)). vm_compute. reflexivity. Qed.
Lemma reduce_is_left_fold_witness :
  ∃ u' ctx', create_reduce_calls salted_ex reduce_ex (empty_update, chained_ex) = inl (u', ctx') ∧
    expand 5 (reduce_ids salted_ex reduce_ex) (rc_function_calls ctx') (FA_FunctionRunOutput "sum") =
      Some (left_fold "fn" (FA_DataPayload (payload_ex "a")) (FA_DataPayload ∘ payload_ex <$> ["b"; "c"; "d"])).
Proof.
  destruct (reduce_is_left_fold salted_ex reduce_ex (FA_DataPayload (payload_ex "a")) (FA_DataPayload (payload_ex "b"))
              (FA_DataPayload ∘ payload_ex <$> ["c"; "d"]) empty_update chained_ex 5) as (u' & ctx' & E & H & _).
  - reflexivity.
  - exact reduce_ex_distinct.
  - intros id Hid. exfalso. apply list_elem_of_fmap in Hid as (x & Hx & _). discriminate.
  - simpl. lia.
  - exists u', ctx'. split; [exact E|exact H].
Defined.

(** A request with a running and a pending run, and the event that reports the
    former. *)
Definition running_ctx_ex : RequestCtx :=
  MkRequestCtx "ns" "app" "v1" "r1" None 0 None None None
    (<["c1" := function_run_ex "c1" "v1" (FRS_Running "a1")]> {["c2" := function_run_ex "c2" "v1" FRS_Pending]})
    (<["c1" := call_ex "c1" []]> {["c2" := call_ex "c2" []]}).
Definition only_run_ctx_ex : RequestCtx :=
  MkRequestCtx "ns" "app" "v1" "r1" None 0 None None None {["c1" := function_run_ex "c1" "v1" (FRS_Running "a1")]} {["c1" := call_ex "c1" []]}.
Definition running_state_ex (ctx : RequestCtx) : InMemoryState := serving_ex <| im_request_ctx := {["ns|app|r1" := ctx]} |>.
Definition allocation_ex : Allocation :=
  MkAllocation "a1" (MkAllocationTarget "e1" "k1") "c1" "ns" "app" "v1" "fn" "r1" 0 FRO_Unknown 0 None [] 0 "".
Definition stored_ex : string → unit + option Allocation := λ _, inr (Some allocation_ex).
Definition report_ex (outcome : FunctionRunOutcome) (graph : option GraphUpdates) : AllocationOutputIngestedEvent :=
  MkAllocationOutputIngestedEvent "ns" "app" "fn" "r1" "c1" None graph None "a1" (MkAllocationTarget "e1" "k1") outcome None.

Lemma running_ctx_ex_waits ev c p :
  ao_graph_updates ev = None →
  ¬ waits_on (running_ctx_ex <| rc_function_runs ::= <["c1" := record_output ev (function_run_ex "c1" "v1" (FRS_Running "a1"))]> |>) p c.
Proof.
  intros Hg (r & Hr & Hc). change (rc_function_runs (running_ctx_ex <| rc_function_runs ::= ?f |>)) with (f (rc_function_runs running_ctx_ex)) in Hr.
  apply lookup_insert_Some in Hr as [[_ <-]|[_ Hr]]; [unfold record_output in Hc; rewrite Hg in Hc; done|].
  change (rc_function_runs running_ctx_ex) with (<["c1" := function_run_ex "c1" "v1" (FRS_Running "a1")]>
    ({["c2" := function_run_ex "c2" "v1" FRS_Pending]} : gmap FunctionCallId FunctionRun)) in Hr.
  apply lookup_insert_Some in Hr as [[_ <-]|[_ Hr]]; [done|]. apply lookup_singleton_Some in Hr as [_ <-]. done.
Qed.
Lemma running_first_report outcome :
  first_report stored_ex (running_state_ex running_ctx_ex) (report_ex outcome None) running_ctx_ex
    (function_run_ex "c1" "v1" (FRS_Running "a1")) allocation_ex.
Proof.
  split; try reflexivity.
  - split.
    + apply (bool_decide_eq_true_1 (map_Forall (λ id r, fr_id r = id) (rc_function_runs running_ctx_ex))). vm_compute. reflexivity.
    + apply (bool_decide_eq_true_1 (map_Forall (λ id c, fc_function_call_id c = id) (rc_function_calls running_ctx_ex))). vm_compute. reflexivity.
  - exists (λ _, 0%nat). intros c p H. by apply running_ctx_ex_waits in H.
Qed.

Lemma failed_request_cancels_all_witness :
  ∃ s' u ctx', @handle_allocation_ingestion canonical_order salted_ex unit stored_ex 3 (running_state_ex running_ctx_ex)
      empty_scheduler (report_ex (FRO_Failure FRF_FunctionError) None) 0 0 = Some (s', inr u) ∧
    su_updated_request_states u !! "ns|app|r1" = Some ctx' ∧ rc_outcome ctx' = Some (RO_Failure RF_FunctionError) ∧
    reported u "ns|app|r1" "c2".
Proof.
  destruct (@failed_request_cancels_all canonical_order salted_ex unit stored_ex 3 (running_state_ex running_ctx_ex) empty_scheduler
    (report_ex (FRO_Failure FRF_FunctionError) None) 0 0 running_ctx_ex (function_run_ex "c1" "v1" (FRS_Running "a1")) allocation_ex
    (to_version deployed_ex) FRF_FunctionError) as (s' & u & ctx' & H1 & H2 & H3 & _ & _ & H6 & _).
  - apply running_first_report.
  - reflexivity.
  - vm_compute. constructor.
  - reflexivity.
  - reflexivity.
  - exists s', u, ctx'. split; [exact H1|]. split; [exact H2|]. split; [exact H3|].
    apply (H6 "c2" (function_run_ex "c2" "v1" FRS_Pending)); reflexivity.
Defined.
Lemma success_exactly_when_done_witness :
  ∃ s' u ctx', @handle_allocation_ingestion canonical_order salted_ex unit stored_ex 3 (running_state_ex running_ctx_ex)
      empty_scheduler (report_ex FRO_Success None) 0 0 = Some (s', inr u) ∧
    su_updated_request_states u !! "ns|app|r1" = Some ctx' ∧
    (rc_outcome ctx' = Some RO_Success ∧ nothing_left ctx' ∨ rc_outcome ctx' = None ∧ ¬ nothing_left ctx').
Proof.
  destruct (@success_exactly_when_done canonical_order salted_ex unit stored_ex 3 (running_state_ex running_ctx_ex) empty_scheduler
    (report_ex FRO_Success None) 0 0 running_ctx_ex (function_run_ex "c1" "v1" (FRS_Running "a1")) allocation_ex
    (to_version deployed_ex)) as (s' & u & ctx' & H1 & H2 & H3).
  - apply running_first_report.
  - reflexivity.
  - vm_compute. constructor.
  - apply (bool_decide_eq_true_1 (dom (rc_function_runs running_ctx_ex) ⊆ dom (rc_function_calls running_ctx_ex))). vm_compute. reflexivity.
  - reflexivity.
  - discriminate.
  - exists s', u, ctx'. split; [exact H1|]. split; [exact H2|]. destruct H3 as [H3|(H3 & H4 & _)]; [left; exact H3|right; split; [exact H3|exact H4]].
Defined.

(** A reduction over an empty collection is meant to fail its request (the
    handler logs an error and sets the outcome to a function error), but when the
    only run of the request returns such a reduction as its result, the request
    is reported successful although the call that should produce its output was
    never created and the run has no output. *)
Theorem degenerate_reduction_succeeds :
  let g := MkGraphUpdates [CO_Reduce (MkReduceOperation "sum" [] "fn" "")] "sum" in
  rc_outcome (create_function_calls salted_ex only_run_ctx_ex g).2 = Some (RO_Failure RF_FunctionError) ∧
  match @handle_allocation_ingestion canonical_order salted_ex unit stored_ex 3 (running_state_ex only_run_ctx_ex)
          empty_scheduler (report_ex FRO_Success (Some g)) 0 0 with
  | Some (_, inr u) =>
      match su_updated_request_states u !! "ns|app|r1" with
      | Some ctx => rc_outcome ctx = Some RO_Success ∧ rc_function_calls ctx !! "sum" = None ∧
                    (fr_output <$> rc_function_runs ctx !! "c1") = Some None
      | None => False
      end
  | _ => False
  end.
Proof. vm_compute. repeat split. Qed.
