(* ===== verification/FunctionAllocator.v ===== *)
(** * Allocating function runs

    [FunctionRunProcessor] of [function_run_processor.rs]: choosing or creating a
    container for a pending run, grouping the runs of a batch by resource profile,
    and recording what could not be placed.

    The random and clock values of one run are a [RunChoice]; [ch n] are those of
    the [n]-th run that reaches [create_allocation]. *)
From stdpp Require Import pretty.
From S2P Require Import Prelude DataModel Resources Updates InMemoryState Blocked SchedulerState Placement ContainerScheduler BufferReconciler FunctionRuns.

(** ** State of a batch *)

Record RunChoice := MkRunChoice {
  rch_container : ContainerId;
  rch_random : Z;
  rch_now : Instant;
  rch_allocation : AllocationId;
  rch_created_at : Z;
}.

(** The mutable arguments of [try_allocate_single_run]. *)
Record Batch := MkBatch {
  b_sched : ContainerScheduler;
  b_cache : FeasibilityCache;
  b_update : SchedulerUpdateRequest;
  b_no_resources : gset FunctionURI;
  b_ctxs : gmap string RequestCtx;
  b_terminal : gset string;
  b_tick : nat;
}.
#[export] Instance eta_Batch : Eta Batch := λ b,
  MkBatch (b_sched b) (b_cache b) (b_update b) (b_no_resources b) (b_ctxs b) (b_terminal b) (b_tick b).

(** [RequestCtxKey::from] a function run. *)
Definition run_request_key (r : FunctionRun) : string := request_key (fr_namespace r) (fr_application r) (fr_request_id r).
(** The workload of a run, as the placement sees it. *)
Definition run_workload (im : InMemoryState) (r : FunctionRun) : Workload :=
  MkWorkload (WK_Function (fr_namespace r) (fr_application r) (fr_name r)) (fr_namespace r) (fr_application r)
    (get_existing_application_version im r ≫= λ v, av_functions v !! fr_name r).

Section allocator.
Context `{HO : HashOrder} (queue_size : Z) (im : InMemoryState).

(** ** Choosing a container *)

(** [queue_size * max_concurrency] in [u32]. *)
Definition capacity (m : ContainerServerMetadata) : Z := wrap32 (queue_size * ctr_max_concurrency (csm_function_container m)).
(** The filter of [find_available_container]. *)
Definition available (s : ContainerScheduler) (m : ContainerServerMetadata) : bool :=
  match cs_executors s !! csm_executor_id m with
  | Some e => if em_tombstoned e then false
              else if is_terminated (csm_desired_state m) then false
              else bool_decide (Z.of_nat (size (csm_allocations m)) < capacity m)
  | None => false
  end.
(** [Iterator::min_by_key] keeps the first of the smallest. *)
Definition least_loaded (best : option ContainerServerMetadata) (m : ContainerServerMetadata) : option ContainerServerMetadata :=
  match best with
  | None => Some m
  | Some b => if bool_decide (size (csm_allocations m) < size (csm_allocations b))%nat then Some m else best
  end.
Definition target_of (m : ContainerServerMetadata) : AllocationTarget :=
  MkAllocationTarget (csm_executor_id m) (ctr_id (csm_function_container m)).
Definition find_available_container (s : ContainerScheduler) (uri : FunctionURI) : option AllocationTarget :=
  match cs_containers_by_function_uri s !! uri with
  | None => None
  | Some ids =>
      target_of <$> foldl least_loaded None
        (List.filter (available s) (omap (λ id, cs_function_containers s !! id) (set_iter ids)))
  end.

(** [try_create_container]. *)
Definition try_create_container (s : ContainerScheduler) (r : FunctionRun) (cache : FeasibilityCache) (c : RunChoice)
    : ContainerScheduler * FeasibilityCache * result SchedulerError (option SchedulerUpdateRequest) :=
  match get_existing_application_version im r with
  | None => (s, cache, Ok None)
  | Some av =>
      match av_functions av !! fr_name r with
      | None => (s, cache, Ok None)
      | Some f =>
          let key := MkContainerPoolKey (fr_namespace r) (for_function (fr_application r) (fr_name r) (fr_version r)) in
          let full := match get_pool s key ≫= cp_max_containers with
                      | Some max => bool_decide (max ≤ total_containers_for_function s (function_uri_of_run r))
                      | None => false
                      end in
          if full then (s, cache, Ok None)
          else create_container_for_function s (fr_namespace r) (fr_application r) (fr_version r) f (av_state av) cache
                 (rch_container c) (rch_random c) (rch_now c)
      end
  end.

(** ** One run *)

(** The last part of [create_allocation]: the allocation on its target. *)
Definition allocate_on (s : ContainerScheduler) (r : FunctionRun) (ctx : RequestCtx) (target : AllocationTarget) (c : RunChoice)
    (u : SchedulerUpdateRequest) : ContainerScheduler * SchedulerUpdateRequest * RequestCtx :=
  let a := MkAllocation (rch_allocation c) target (fr_id r) (fr_namespace r) (fr_application r)
             (rc_application_version ctx) (fr_name r) (fr_request_id r) (rch_created_at c) FRO_Unknown
             (fr_attempt_number r) None (fr_input_args r) 0 (fr_call_metadata r) in
  let '(u1, ctx1) := add_function_run u (r <| fr_status := FRS_Running (al_id a) |>) ctx in
  let u2 := add_request_state u1 ctx1 <| su_new_allocations ::= λ l, l ++ [a] |> in
  let '(s3, u3) :=
    match cs_function_containers s !! at_container_id target with
    | Some m =>
        let m' := m <| csm_allocations ::= λ x, {[al_id a]} ∪ x |> <| csm_idle_since := None |> in
        (s <| cs_function_containers ::= <[at_container_id target := m']> |>,
         u2 <| su_containers ::= <[ctr_id (csm_function_container m') := m']> |>)
    | None => (s, u2)
    end in
  (s3 <| cs_blocked_work ::= λ t, remove_function_run t (run_key r) |>, u3, ctx1).

(** [create_allocation]: the scheduler, the cache, and the update with the changed
    request context, or an error. *)
Definition create_allocation (s : ContainerScheduler) (r : FunctionRun) (ctx : RequestCtx) (cache : FeasibilityCache) (c : RunChoice)
    : ContainerScheduler * FeasibilityCache * result SchedulerError (SchedulerUpdateRequest * RequestCtx) :=
  match find_available_container s (function_uri_of_run r) with
  | Some target => let '(s', u, ctx') := allocate_on s r ctx target c empty_update in (s', cache, Ok (u, ctx'))
  | None =>
      match try_create_container s r cache c with
      | (s1, cache1, Err e) => (s1, cache1, Err e)
      | (s1, cache1, Ok None) => (s1, cache1, Ok (empty_update, ctx))
      | (s1, cache1, Ok (Some cu)) =>
          let chosen := head (List.filter (λ m, negb (is_terminated (csm_desired_state m))) (map_iter (su_containers cu)).*2) in
          let s2 := apply_container_update s1 cu in
          let u := extend empty_update cu in
          match target_of <$> chosen with
          | Some target => let '(s', u', ctx') := allocate_on s2 r ctx target c u in (s', cache1, Ok (u', ctx'))
          | None => (s2, cache1, Ok (u, ctx))
          end
      end
  end.

(** [record_blocked_function_run]. *)
Definition record_blocked_function_run (s : ContainerScheduler) (cache : FeasibilityCache) (r : FunctionRun) (memory_mb : Z)
    : ContainerScheduler * FeasibilityCache :=
  let '(cache1, eligible) :=
    match cs_last_placement s with
    | Some p => (cache, pr_eligible_classes p)
    | None => compute_eligible_classes s cache (run_workload im r)
    end in
  (s <| cs_last_placement := None |>
     <| cs_blocked_work ::= λ t, block_function_run t (run_key r)
          (MkBlockingInfo eligible (bool_decide (eligible = ∅)) memory_mb) |>, cache1).

Definition block_run (b : Batch) (r : FunctionRun) (memory_mb : Z) : Batch :=
  let '(s, cache) := record_blocked_function_run (b_sched b) (b_cache b) r memory_mb in
  b <| b_sched := s |> <| b_cache := cache |>.

(** [try_allocate_single_run]; an [Err] is one that is not the scheduler's own. *)
Definition try_allocate_single_run (ch : nat → RunChoice) (memory_mb : Z) (b : Batch) (r : FunctionRun)
    : Batch * result SchedulerError unit :=
  let uri := function_uri_of_run r in
  if bool_decide (uri ∈ b_no_resources b) then
    (block_run (b <| b_sched ::= λ s, s <| cs_last_placement := None |> |>) r memory_mb, Ok tt)
  else
    let key := run_request_key r in
    if bool_decide (key ∈ b_terminal b) then (b, Ok tt)
    else
      match match b_ctxs b !! key with Some ctx => Some ctx | None => im_request_ctx im !! key end with
      | None => (b, Ok tt)
      | Some ctx =>
          let b1 := b <| b_ctxs ::= <[key := ctx]> |> in
          let s0 := b_sched b1 <| cs_last_placement := None |> in
          let '(s1, cache1, res) := create_allocation s0 r ctx (b_cache b1) (ch (b_tick b1)) in
          let b2 := b1 <| b_sched := s1 |> <| b_cache := cache1 |> <| b_tick ::= S |> in
          match res with
          | Ok (u, ctx') =>
              let b3 := b2 <| b_ctxs ::= <[key := ctx']> |> in
              let b4 := if bool_decide (su_new_allocations u = [])
                        then block_run (b3 <| b_no_resources ::= λ x, {[uri]} ∪ x |>) r memory_mb else b3 in
              (b4 <| b_update ::= λ u0, extend u0 u |>, Ok tt)
          | Err (ConstraintUnsatisfiable _ _ _) =>
              let failed := r <| fr_status := FRS_Completed |> <| fr_outcome := Some (FRO_Failure FRF_ConstraintUnsatisfiable) |> in
              let ctx1 := ctx <| rc_outcome := Some (RO_Failure RF_ConstraintUnsatisfiable) |> in
              let '(u1, ctx2) := add_function_run (b_update b2) failed ctx1 in
              (b2 <| b_update := add_request_state u1 ctx2 |> <| b_ctxs ::= <[key := ctx2]> |>
                  <| b_no_resources ::= λ x, {[uri]} ∪ x |> <| b_terminal ::= λ x, {[key]} ∪ x |>, Ok tt)
          | Err e => (b2, Err e)
          end
      end.

(** ** A batch *)

(** The runs in order, until one fails with an error that is not the scheduler's
    own. *)
Fixpoint try_all (ch : nat → RunChoice) (memory_mb : Z) (runs : list FunctionRun) (b : Batch) : Batch * result SchedulerError unit :=
  match runs with
  | [] => (b, Ok tt)
  | r :: runs => match try_allocate_single_run ch memory_mb b r with
                 | (b1, Ok _) => try_all ch memory_mb runs b1
                 | (b1, Err e) => (b1, Err e)
                 end
  end.

(** The loop over the sorted groups: [inr] the groups that were not reached. *)
Fixpoint try_groups (ch : nat → RunChoice) (groups : list (ResourceProfile * list FunctionRun)) (b : Batch)
    : Batch * result SchedulerError (list (ResourceProfile * list FunctionRun)) :=
  match groups with
  | [] => (b, Ok [])
  | (p, runs) :: rest =>
      match try_all ch (rp_memory_mb p) runs b with
      | (b1, Err e) => (b1, Err e)
      | (b1, Ok _) =>
          let new_failures := (size (b_no_resources b1) - size (b_no_resources b))%nat in
          if bool_decide (3 ≤ new_failures)%nat then (b1, Ok rest) else try_groups ch rest b1
      end
  end.

(** The runs of the skipped groups, with the eligible classes found so far for
    each function. *)
Definition block_skipped (memory_mb : Z) (acc : Batch * gmap FunctionURI (gset ExecutorClass)) (r : FunctionRun)
    : Batch * gmap FunctionURI (gset ExecutorClass) :=
  let '(b, known) := acc in
  let uri := function_uri_of_run r in
  let '(cache, eligible) :=
    match known !! uri with
    | Some e => (b_cache b, e)
    | None => compute_eligible_classes (b_sched b) (b_cache b) (run_workload im r)
    end in
  (b <| b_cache := cache |>
     <| b_sched ::= λ s, s <| cs_blocked_work ::= λ t, block_function_run t (run_key r)
          (MkBlockingInfo eligible (bool_decide (eligible = ∅)) memory_mb) |> |>,
   <[uri := eligible]> known).
Definition block_groups (groups : list (ResourceProfile * list FunctionRun)) (b : Batch) : Batch :=
  (foldl (λ acc g, foldl (block_skipped (rp_memory_mb g.1)) acc g.2) (b, ∅) groups).1.

(** The profile of each function of the batch, looked up once per function. *)
Definition uri_profiles (runs : list FunctionRun) : gmap FunctionURI (option ResourceProfile) :=
  foldl (λ m r, let uri := function_uri_of_run r in
                match m !! uri with
                | Some _ => m
                | None => <[uri := get_existing_application_version im r ≫= λ v,
                                     av_functions v !! fr_name r ≫= λ f, Some (profile_from_function f)]> m
                end) ∅ runs.
Definition profile_of (profiles : gmap FunctionURI (option ResourceProfile)) (r : FunctionRun) : option ResourceProfile :=
  match profiles !! function_uri_of_run r with Some (Some p) => Some p | _ => None end.
Definition group_run (profiles : gmap FunctionURI (option ResourceProfile))
    (acc : gmap ResourceProfile (list FunctionRun) * list FunctionRun) (r : FunctionRun)
    : gmap ResourceProfile (list FunctionRun) * list FunctionRun :=
  let '(groups, fallback) := acc in
  match profile_of profiles r with
  | Some p => (<[p := default [] (groups !! p) ++ [r]]> groups, fallback)
  | None => (groups, fallback ++ [r])
  end.
(** [(p.memory_mb, p.cpu_ms_per_sec, p.disk_mb, p.gpu_count)], compared
    lexicographically. *)
Definition profile_key (p : ResourceProfile) : list Z := [rp_memory_mb p; rp_cpu_ms_per_sec p; rp_disk_mb p; rp_gpu_count p].
Fixpoint lex_leb (a b : list Z) : bool :=
  match a, b with
  | x :: a, y :: b => if x <? y then true else if y <? x then false else lex_leb a b
  | [], _ => true
  | _, [] => false
  end.
Definition group_le (a b : ResourceProfile * list FunctionRun) : Prop := lex_leb (profile_key a.1) (profile_key b.1) = true.
#[export] Instance group_le_dec : RelDecision group_le := λ a b, decide (lex_leb _ _ = true).

(** The early exit when there are no executors. *)
Definition block_escaped (s : ContainerScheduler) (r : FunctionRun) : ContainerScheduler :=
  s <| cs_blocked_work ::= λ t, block_function_run t (run_key r)
         (MkBlockingInfo ∅ true (match get_function im r with Some f => fres_memory_mb (fn_resources f) | None => 0 end)) |>.

(** [allocate_function_runs]. *)
Definition allocate_function_runs (ch : nat → RunChoice) (s : ContainerScheduler) (runs : list FunctionRun) (cache : FeasibilityCache)
    : ContainerScheduler * FeasibilityCache * result SchedulerError SchedulerUpdateRequest :=
  if bool_decide (cs_executors s = ∅) then (foldl block_escaped s runs, cache, Ok empty_update)
  else
    let capped := take 10000 runs in
    let profiles := uri_profiles capped in
    let '(groups, fallback) := foldl (group_run profiles) (∅, []) capped in
    let sorted := merge_sort group_le (map_iter groups) in
    let b0 := MkBatch s cache empty_update ∅ ∅ ∅ 0 in
    match try_groups ch sorted b0 with
    | (b1, Err e) => (b_sched b1, b_cache b1, Err e)
    | (b1, Ok skipped) =>
        match try_all ch 0 fallback (block_groups skipped b1) with
        | (b2, Err e) => (b_sched b2, b_cache b2, Err e)
        | (b2, Ok _) => (b_sched b2, b_cache b2, Ok (b_update b2))
        end
    end.

(** [allocate_request]. *)
Definition allocate_request (ch : nat → RunChoice) (s : ContainerScheduler) (ns app req : string) (cache : FeasibilityCache)
    : ContainerScheduler * FeasibilityCache * result SchedulerError SchedulerUpdateRequest :=
  match im_request_ctx im !! request_key ns app req with
  | None => (s, cache, Ok empty_update)
  | Some ctx => allocate_function_runs ch s (List.filter run_is_pending (map_iter (rc_function_runs ctx)).*2) cache
  end.
End allocator.

(** ** What creating a container changes *)

Section effects.
Context `{HO : HashOrder} (queue_size : Z) (im : InMemoryState).

(** Everything but the containers and their executors. *)
Definition batch_frame (s : ContainerScheduler) := (cs_blocked_work s, cs_function_pools s, cs_sandbox_pools s, cs_executors s).
(** The table and the index the allocator reads. *)
Definition run_index (s : ContainerScheduler) := (cs_function_containers s, cs_containers_by_function_uri s).
Definition reaped_sub (s s' : ContainerScheduler) : Prop :=
  ∀ k l', cs_reaped_containers s' !! k = Some l' → ∃ l, cs_reaped_containers s !! k = Some l ∧ sublist l' l.
Lemma reaped_sub_refl s s' : cs_reaped_containers s' = cs_reaped_containers s → reaped_sub s s'.
Proof. intros E k l' H. exists l'. by rewrite <-E. Qed.
Lemma reaped_sub_trans s1 s2 s3 : reaped_sub s1 s2 → reaped_sub s2 s3 → reaped_sub s1 s3.
Proof. intros H1 H2 k l' (l & (l0 & ? & ?)%H1 & ?)%H2. exists l0. split; [done|by etrans]. Qed.

Lemma set_executor_state_batch s id st :
  batch_frame (set_executor_state s id st) = batch_frame s ∧ run_index (set_executor_state s id st) = run_index s ∧
  cs_reaped_containers (set_executor_state s id st) = cs_reaped_containers s.
Proof.
  unfold set_executor_state, insert_resource_index. by destruct (cs_executor_states s !! id), (indexable (esm_free_resources st)).
Qed.
Lemma update_container_indices_batch s cid m :
  batch_frame (update_container_indices s cid m) = batch_frame s ∧
  cs_reaped_containers (update_container_indices s cid m) = cs_reaped_containers s.
Proof.
  pose proof (update_container_indices_frame s cid m) as Hf. unfold frame_view in Hf. injection Hf as H1 H2 H3 H4 H5 H6 H7 H8.
  split; [|done]. unfold batch_frame. rewrite H1, H7, H8. do 3 f_equal. clear.
  unfold update_container_indices. fold (was_warm_at s cid). rewrite drop_idle_eq.
  destruct (live m && _), (csm_idle_since m), (is_terminated _), (pool_key_of m), (was_warm_at s cid), (warm m);
    exact eq_refl.
Qed.

(** Where a container that is handed out comes from: a new one without
    allocations, or one that was reaped and is revived. *)
Definition fresh_container (r : FunctionRun) (f : Function_) (id : ContainerId) (m : ContainerServerMetadata) : Prop :=
  csm_allocations m = ∅ ∧ ctr_id (csm_function_container m) = id ∧
  ctr_max_concurrency (csm_function_container m) = fn_max_concurrency f ∧
  uri_of m = MkFunctionURI (fr_namespace r) (fr_application r) (fn_name f) (fr_version r).
Definition revived_container (s s' : ContainerScheduler) (uri : FunctionURI) (cid : ContainerId) (m : ContainerServerMetadata) : Prop :=
  ∃ fc l, cs_function_containers s !! cid = Some fc ∧ cs_reaped_containers s !! uri = Some l ∧ cid ∈ l ∧
    csm_allocations m = csm_allocations fc ∧ csm_function_container m = csm_function_container fc ∧ csm_executor_id m = csm_executor_id fc ∧
    (reaped_wf s → ∀ k l', cs_reaped_containers s' !! k = Some l' → cid ∉ l').

(** Taking the last reaped container of a function off its list. *)
Lemma pop_reaped (m : gmap FunctionURI (list ContainerId)) uri l cid k l' :
  m !! uri = Some (l ++ [cid]) →
  (if bool_decide (l = []) then delete uri else <[uri := l]>) m !! k = Some l' →
  ∃ l0, m !! k = Some l0 ∧ sublist l' l0 ∧ (k = uri → l' = l).
Proof.
  intros Er. case_bool_decide; [rewrite lookup_delete_Some; intros [? Hk]|rewrite lookup_insert_Some; intros [[<- <-]|[? Hk]]].
  - exists l'. split; [done|]. split; [done|]. congruence.
  - exists (l ++ [cid]). split; [done|]. split; [apply sublist_inserts_r; done|done].
  - exists l'. split; [done|]. split; [done|]. congruence.
Qed.

(** The effect of an attempt to create a container for a run of function [f]. *)
Record create_effect (r : FunctionRun) (f : Function_) (fresh : ContainerId) (s s' : ContainerScheduler)
    (res : result SchedulerError (option SchedulerUpdateRequest)) : Prop := MkCreateEffect {
  ce_frame : batch_frame s' = batch_frame s;
  ce_reaped : reaped_sub s s';
  ce_index : match res with
    | Ok (Some u) => ∃ id st cid m, creation_update id st cid m u ∧ su_new_allocations u = [] ∧ live m = true ∧
        (fresh_container r f fresh m ∧ cid = fresh ∨ revived_container s s' (MkFunctionURI (fr_namespace r) (fr_application r) (fn_name f) (fr_version r)) cid m) ∧
        (run_index s' = run_index s ∨
         run_index s' = (<[cid := m]> (cs_function_containers s), idx_insert (uri_of m) cid (cs_containers_by_function_uri s)))
    | _ => run_index s' = run_index s
    end;
}.

Lemma restore_effect r f fresh s now :
  let '(s', o) := restore_reaped_container s (MkFunctionURI (fr_namespace r) (fr_application r) (fn_name f) (fr_version r)) now in
  create_effect r f fresh s s' (Ok o).
Proof.
  set (uri := MkFunctionURI (fr_namespace r) (fr_application r) (fn_name f) (fr_version r)). unfold restore_reaped_container.
  assert (Hnone : create_effect r f fresh s s (Ok None)) by (split; [done|by apply reaped_sub_refl|done]).
  destruct (cs_reaped_containers s !! uri) as [reaped|] eqn:Er; [|done].
  destruct (last reaped) as [cid|] eqn:El; [|done]. apply last_Some in El as [l ->]. rewrite removelast_last.
  set (s1 := s <| cs_reaped_containers ::= _ |>).
  assert (Hpop1 : ∀ k l', cs_reaped_containers s1 !! k = Some l' →
    ∃ l0, cs_reaped_containers s !! k = Some l0 ∧ sublist l' l0 ∧ (k = uri → l' = l))
    by (intros k l'; exact (pop_reaped (cs_reaped_containers s) uri l cid k l' Er)).
  assert (Hpop : reaped_sub s s1) by (intros k l' (l0 & ? & ? & _)%Hpop1; by exists l0).
  change (cs_function_containers s1) with (cs_function_containers s).
  destruct (cs_function_containers s !! cid) as [fc|] eqn:Efc; [|by split].
  change (cs_executor_states s1) with (cs_executor_states s).
  destruct (cs_executor_states s !! csm_executor_id fc) as [st|] eqn:Est; [|by split].
  destruct (add_container st (csm_function_container fc)) as [st' [x|e]] eqn:Ea; cbv beta iota zeta; [|by split].
  rewrite (inline_set_executor_state s1 (csm_executor_id fc) st st' Est).
  set (fc' := fc <| csm_desired_state := CS_Running |> <| csm_idle_since := Some now |>).
  destruct (set_executor_state_batch s1 (csm_executor_id fc) st') as (B1 & B2 & B3).
  set (s2 := set_executor_state s1 (csm_executor_id fc) st') in *. clearbody s2.
  set (s3 := s2 <| cs_function_containers ::= <[cid := fc']> |>).
  destruct (update_container_indices_batch s3 cid fc') as [U1 U2].
  destruct (update_container_indices_fields s3 cid fc') as (F1 & F2 & _). split.
  - rewrite U1. etrans; [|exact B1]. exact eq_refl.
  - eapply reaped_sub_trans; [exact Hpop|]. apply reaped_sub_refl. rewrite U2. exact B3.
  - exists (csm_executor_id fc), st', cid, fc'. split_and!; [done|done|done| |].
    + right. exists fc, (l ++ [cid]). split_and!; [done|done|set_solver|done|done|done|]. intros Hwf k l'. rewrite U2.
      change (cs_reaped_containers s3) with (cs_reaped_containers s2). rewrite B3. intros (l0 & Hl0 & Hsub & Hk)%Hpop1 Hin.
      destruct (decide (k = uri)) as [->|Hne].
      * rewrite (Hk eq_refl) in Hin. destruct (Hwf _ _ Er) as [Hnd _]. apply NoDup_app in Hnd as (_ & Hnd & _). apply (Hnd cid Hin). set_solver.
      * destruct (Hwf _ _ Er) as [_ H1]. destruct (Hwf _ _ Hl0) as [_ H2].
        destruct (H1 cid fc) as [_ Hu1]; [set_solver|done|]. destruct (H2 cid fc) as [_ Hu2]; [by eapply sublist_subseteq|done|]. congruence.
    + right. unfold run_index in *. rewrite F1, F2. change (live fc') with true. cbv iota.
      change (cs_function_containers s3) with (<[cid := fc']> (cs_function_containers s2)).
      change (cs_containers_by_function_uri s3) with (cs_containers_by_function_uri s2). injection B2 as -> ->.
      by rewrite insert_insert_eq.
Qed.

Lemma create_container_for_function_effect r f st cache fresh rnd now s :
  let '(s', _, res) := create_container_for_function s (fr_namespace r) (fr_application r) (fr_version r) f st cache fresh rnd now in
  create_effect r f fresh s s' res.
Proof.
  unfold create_container_for_function. destruct st as [|reason].
  2:{ split; [done|by apply reaped_sub_refl|done]. }
  pose proof (restore_effect r f fresh s now) as Hr. destruct (restore_reaped_container _ _ _) as [s1 [u|]]; [done|].
  destruct Hr as [R1 R2 R3]. set (c := MkContainer fresh _ _ _ _ _ _ _ _ _ _ _ _ _ _ _ _ _ _).
  unfold create_container. destruct (select_executor _ _ _ _ _ _) as [cache' pl].
  set (s2 := s1 <| cs_last_placement := Some pl |>).
  assert (H2 : create_effect r f fresh s s2 (Ok None)) by (split; [exact R1|exact R2|exact R3]).
  destruct (pr_executor_id pl) as [id|]; [|exact H2]. destruct (cs_executor_states s2 !! id) as [st|] eqn:Est; [|exact H2].
  unfold register_container. rewrite Est. destruct (add_container st c) as [st' [x|e]].
  - rewrite (inline_set_executor_state s2 id st st' Est). destruct (set_executor_state_batch s2 id st') as (B1 & B2 & B3).
    destruct H2 as [G1 G2 G3]. split.
    + by rewrite B1.
    + eapply reaped_sub_trans; [exact G2|by apply reaped_sub_refl].
    + eexists id, st', fresh, _. split; [split; [reflexivity|split; reflexivity]|]. split_and!; [done|done| |left; by rewrite B2].
      left. split; [|done]. split_and!; done.
  - destruct H2 as [G1 G2 G3]. split; [exact G1|exact G2|exact G3].
Qed.

(** ** The invariant of a batch *)

(** The pool a function's containers are counted against. *)
Definition function_pool_key (uri : FunctionURI) : ContainerPoolKey :=
  MkContainerPoolKey (uri_namespace uri) (for_function (uri_application uri) (uri_function uri) (uri_version uri)).
Definition containers_of (s : ContainerScheduler) (uri : FunctionURI) : gset ContainerId :=
  idx_get (cs_containers_by_function_uri s) uri.
Lemma total_exact s uri : Z.of_nat (size (containers_of s uri)) ≤ u32_max → total_containers_for_function s uri = Z.of_nat (size (containers_of s uri)).
Proof.
  unfold total_containers_for_function, containers_of, idx_get. destruct (cs_containers_by_function_uri s !! uri) as [ids|]; simpl; [|done].
  intros H. unfold len_u32. apply wrap32_id. unfold in_u32, u32_max in *. lia.
Qed.

(** Containers stay where they are, with their allocations. *)
Definition keeps_allocations (s s' : ContainerScheduler) : Prop :=
  ∀ cid m, cs_function_containers s !! cid = Some m → ∃ m', cs_function_containers s' !! cid = Some m' ∧
    csm_executor_id m' = csm_executor_id m ∧ csm_allocations m ⊆ csm_allocations m'.
#[local] Instance keeps_preorder : PreOrder keeps_allocations.
Proof.
  split; [intros s cid m H; by exists m|]. intros s1 s2 s3 H12 H23 cid m (m2 & Hm2 & E2 & S2)%H12.
  apply H23 in Hm2 as (m3 & ? & ? & ?). exists m3. split_and!; [done|congruence|set_solver].
Qed.
Lemma keeps_same s s' : cs_function_containers s' = cs_function_containers s → keeps_allocations s s'.
Proof. intros E cid m. rewrite <-E. intros H. by exists m. Qed.
Lemma keeps_insert s s' cid m :
  cs_function_containers s' = <[cid := m]> (cs_function_containers s) →
  (∀ old, cs_function_containers s !! cid = Some old → csm_executor_id m = csm_executor_id old ∧ csm_allocations old ⊆ csm_allocations m) →
  keeps_allocations s s'.
Proof.
  intros E Hold c x Hx. rewrite E. destruct (decide (c = cid)) as [->|Hne].
  - exists m. rewrite lookup_insert_eq. split; [done|]. by apply Hold.
  - exists x. by rewrite lookup_insert_ne.
Qed.

(** The allocations of each container and the containers of each function when the batch
    begins. *)
Context (load0 : ContainerId → Z) (count0 : FunctionURI → Z).
Definition within_max (s : ContainerScheduler) (uri : FunctionURI) : Prop :=
  ∀ p max, get_pool s (function_pool_key uri) = Some p → cp_max_containers p = Some max →
    Z.of_nat (size (containers_of s uri)) ≤ Z.max (count0 uri) max ≤ u32_max.

Record alloc_inv (ch : nat → RunChoice) (tick : nat) (s : ContainerScheduler) : Prop := MkAllocInv {
  ai_keyed : ∀ cid m, cs_function_containers s !! cid = Some m → ctr_id (csm_function_container m) = cid;
  ai_reaped : reaped_wf s;
  ai_idle : ∀ uri l cid m, cs_reaped_containers s !! uri = Some l → cid ∈ l → cs_function_containers s !! cid = Some m → csm_allocations m = ∅;
  ai_fresh : ∀ n, (tick ≤ n)%nat → cs_function_containers s !! rch_container (ch n) = None ∧
    ∀ uri l, cs_reaped_containers s !! uri = Some l → rch_container (ch n) ∉ l;
  ai_load : ∀ cid m, cs_function_containers s !! cid = Some m →
    Z.of_nat (size (csm_allocations m)) ≤ Z.max (load0 cid) (capacity queue_size m) ∧ 1 ≤ capacity queue_size m;
  ai_max : ∀ uri, within_max s uri;
}.
(** A container can take at least one allocation. *)
Definition has_room (f : Function_) : Prop := 1 ≤ queue_size * fn_max_concurrency f ≤ u32_max.
(** The functions of the application versions are filed under their names. *)
Definition versions_ok : Prop :=
  ∀ r f, get_function im r = Some f → fn_name f = fr_name r ∧ has_room f.

Lemma alloc_inv_weaken ch tick tick' s : (tick ≤ tick')%nat → alloc_inv ch tick s → alloc_inv ch tick' s.
Proof. intros Hle [H1 H2 H3 H4 H5 H6]. split; [done..| |done|done]. intros n Hn. apply H4. lia. Qed.

(** The parts of the state the invariant reads. *)
Definition inv_view (s : ContainerScheduler) :=
  (cs_function_containers s, cs_containers_by_function_uri s, cs_reaped_containers s, cs_function_pools s, cs_sandbox_pools s).
Lemma alloc_inv_view ch tick s s' : inv_view s = inv_view s' → alloc_inv ch tick s → alloc_inv ch tick s'.
Proof.
  unfold inv_view. intros [= E1 E2 E3 E4 E5] [H1 H2 H3 H4 H5 H6]. unfold reaped_wf, within_max, containers_of, get_pool in *.
  split; unfold reaped_wf, within_max, containers_of, get_pool; rewrite <-?E1, <-?E2, <-?E3, <-?E4, <-?E5; done.
Qed.
(** Forgetting reaped containers is harmless. *)
Lemma alloc_inv_reaped ch tick s s' :
  run_index s' = run_index s → reaped_sub s s' → batch_frame s' = batch_frame s → alloc_inv ch tick s → alloc_inv ch tick s'.
Proof.
  unfold run_index, batch_frame. intros [= E1 E2] Hsub [= E3 E4 E5 E6] [H1 H2 H3 H4 H5 H6].
  assert (Hpool : ∀ k, get_pool s' k = get_pool s k) by (intros k; unfold get_pool; by rewrite E4, E5).
  split; [by rewrite E1| | | |by rewrite E1|].
  - intros uri l' (l & Hl & Hs)%Hsub. destruct (H2 _ _ Hl) as [Hnd Hd]. split; [by eapply sublist_NoDup|].
    intros cid m Hin. rewrite E1. apply Hd. by eapply sublist_subseteq.
  - intros uri l' cid m (l & Hl & Hs)%Hsub Hin. rewrite E1. apply (H3 uri l); [done|]. by eapply sublist_subseteq.
  - intros n Hn. destruct (H4 n Hn) as [Hf Hl]. split; [by rewrite E1|]. intros uri l' (l & Hl' & Hs)%Hsub Hin.
    apply (Hl uri l Hl'). by eapply sublist_subseteq.
  - intros uri p max. unfold containers_of. rewrite Hpool, E2. apply H6.
Qed.

(** A live container is on no list of reaped ones. *)
Lemma live_not_reaped ch tick s cid m uri l :
  alloc_inv ch tick s → cs_function_containers s !! cid = Some m → live m = true → cs_reaped_containers s !! uri = Some l → cid ∉ l.
Proof. intros Hi Hc Hl Hr Hin. destruct (ai_reaped _ _ _ Hi _ _ Hr) as [_ Hd]. destruct (Hd cid m Hin Hc). congruence. Qed.

(** Adding a container to the table and the index of its function. *)
Lemma alloc_inv_add ch tick s s' cid m :
  alloc_inv ch tick s → cs_function_containers s' = <[cid := m]> (cs_function_containers s) →
  (∀ k, containers_of s' k = idx_get (idx_insert (uri_of m) cid (cs_containers_by_function_uri s)) k) →
  reaped_sub s s' → batch_frame s' = batch_frame s →
  ctr_id (csm_function_container m) = cid → (∀ uri l, cs_reaped_containers s' !! uri = Some l → cid ∉ l) →
  (∀ n, (tick < n)%nat → rch_container (ch n) ≠ cid) →
  csm_allocations m = ∅ → 1 ≤ capacity queue_size m →
  (∀ p max, get_pool s (function_pool_key (uri_of m)) = Some p → cp_max_containers p = Some max →
     Z.of_nat (size (containers_of s (uri_of m))) < max) →
  alloc_inv ch (S tick) s'.
Proof.
  intros [H1 H2 H3 H4 H5 H6] Et Eu Hsub Ef Hid Hnr Hfr Ha Hcap Hmax.
  assert (Hpool : ∀ k, get_pool s' k = get_pool s k) by (intros k; unfold get_pool; unfold batch_frame in Ef; injection Ef as _ -> -> _; done).
  split.
  - intros c x. rewrite Et, lookup_insert_Some. intros [[<- <-]|[_ ?]]; [done|by apply H1].
  - intros uri l' Hl'. pose proof Hl' as (l & Hl & Hs)%Hsub. destruct (H2 _ _ Hl) as [Hnd Hd]. split; [by eapply sublist_NoDup|].
    intros c x Hin. rewrite Et, lookup_insert_ne by (intros <-; by apply (Hnr uri l')). apply Hd. by eapply sublist_subseteq.
  - intros uri l' c x Hl' Hin. pose proof Hl' as (l & Hl & Hs)%Hsub.
    rewrite Et, lookup_insert_ne by (intros <-; by apply (Hnr uri l')). apply (H3 uri l); [done|]. by eapply sublist_subseteq.
  - intros n Hn. destruct (H4 n ltac:(lia)) as [Hf Hl]. split.
    + rewrite Et, lookup_insert_ne; [done|]. intros Heq. apply (Hfr n); [lia|done].
    + intros uri l' (l & Hl' & Hs)%Hsub Hin. apply (Hl uri l Hl'). by eapply sublist_subseteq.
  - intros c x. rewrite Et, lookup_insert_Some. intros [[<- <-]|[_ ?]]; [rewrite Ha, size_empty; split; [lia|done]|by apply (H5 c)].
  - intros uri p max. rewrite Hpool, Eu, idx_get_insert. intros Hp Hm. destruct (H6 uri p max Hp Hm) as [Hle Hu].
    case_decide as Heq; [|done]. subst uri. specialize (Hmax p max Hp Hm). unfold containers_of in *.
    pose proof (size_insert_elem cid (idx_get (cs_containers_by_function_uri s) (uri_of m))). case_decide; lia.
Qed.

(** A successful creation, applied. *)
Record placed (ch : nat → RunChoice) (tick : nat) (s s' : ContainerScheduler) (cid : ContainerId) (m : ContainerServerMetadata) : Prop := MkPlaced {
  pl_inv : alloc_inv ch (S tick) s';
  pl_frame : batch_frame s' = batch_frame s;
  pl_keeps : keeps_allocations s s';
  pl_table : cs_function_containers s' !! cid = Some m;
  pl_live : live m = true;
  pl_id : ctr_id (csm_function_container m) = cid;
  pl_room : Z.of_nat (size (csm_allocations m)) < capacity queue_size m;
}.
Lemma try_create_spec ch tick s r cache s1 cache1 res :
  alloc_inv ch tick s → versions_ok → (∀ i j, rch_container (ch i) = rch_container (ch j) → i = j) →
  try_create_container im s r cache (ch tick) = (s1, cache1, res) →
  match res with
  | Ok (Some cu) => ∃ id st cid m, creation_update id st cid m cu ∧ su_new_allocations cu = [] ∧ placed ch tick s (apply_container_update s1 cu) cid m
  | _ => alloc_inv ch (S tick) s1 ∧ batch_frame s1 = batch_frame s ∧ keeps_allocations s s1
  end.
Proof.
  intros Hi Hv Hch E. unfold try_create_container in E.
  assert (Hsame : (s, cache, Ok None) = (s1, cache1, res) → match res with
    | Ok (Some cu) => ∃ id st cid m, creation_update id st cid m cu ∧ su_new_allocations cu = [] ∧ placed ch tick s (apply_container_update s1 cu) cid m
    | _ => alloc_inv ch (S tick) s1 ∧ batch_frame s1 = batch_frame s ∧ keeps_allocations s s1 end).
  { intros [= <- _ <-]. split; [|done]. apply (alloc_inv_weaken ch tick); [lia|done]. }
  destruct (get_existing_application_version im r) as [av|] eqn:Eav; [|by apply Hsame].
  destruct (av_functions av !! fr_name r) as [f|] eqn:Ef; [|by apply Hsame].
  destruct (Hv r f) as [Hname Hroom]; [unfold get_function; by rewrite Eav|].
  set (key := MkContainerPoolKey _ _) in E. cbv zeta in E.
  destruct (match get_pool s key ≫= cp_max_containers with Some _ => _ | None => _ end) eqn:Efull; [by apply Hsame|]. clear Hsame.
  pose proof (create_container_for_function_effect r f (av_state av) cache (rch_container (ch tick)) (rch_random (ch tick)) (rch_now (ch tick)) s) as Hc.
  rewrite E in Hc. destruct Hc as [C1 C2 C3].
  set (uri := MkFunctionURI (fr_namespace r) (fr_application r) (fn_name f) (fr_version r)) in *.
  assert (Huri : function_uri_of_run r = uri) by (unfold uri; by rewrite Hname).
  assert (Hmax : ∀ p max, get_pool s (function_pool_key uri) = Some p → cp_max_containers p = Some max → Z.of_nat (size (containers_of s uri)) < max).
  { intros p max Hp Hm. destruct (ai_max _ _ _ Hi uri p max Hp Hm) as [Hle Hu].
    assert (Hk : function_pool_key uri = key) by (unfold function_pool_key, key, uri; simpl; by rewrite Hname). rewrite Hk in Hp. rewrite Hp in Efull.
    cbn [mbind option_bind] in Efull. rewrite Hm in Efull. apply bool_decide_eq_false in Efull. rewrite Huri, total_exact in Efull by lia. lia. }
  destruct res as [[cu|]|e].
  2:{ split; [|split; [done|apply keeps_same; unfold run_index in C3; congruence]]. apply (alloc_inv_weaken ch tick); [lia|]. by apply (alloc_inv_reaped ch tick s). }
  2:{ split; [|split; [done|apply keeps_same; unfold run_index in C3; congruence]]. apply (alloc_inv_weaken ch tick); [lia|]. by apply (alloc_inv_reaped ch tick s). }
  destruct C3 as (id & st & cid & m & Hcu & Hnew & Hlive & Horigin & Hidx). exists id, st, cid, m. split; [done|]. split; [done|].
  rewrite (apply_creation_update _ _ _ _ _ _ Hcu).
  destruct (set_executor_state_batch (update_container_indices s1 cid m) id st) as (B1 & B2 & B3).
  destruct (update_container_indices_batch s1 cid m) as [U1 U2].
  destruct (update_container_indices_fields s1 cid m) as (F1 & F2 & _). rewrite Hlive in F2.
  set (s2 := set_executor_state _ id st) in *. clearbody s2.
  assert (Ht : cs_function_containers s2 = <[cid := m]> (cs_function_containers s) ∧
    ∀ k, idx_get (cs_containers_by_function_uri s2) k = idx_get (idx_insert (uri_of m) cid (cs_containers_by_function_uri s)) k).
  { unfold run_index in *. injection B2 as -> ->. rewrite F1, F2. destruct Hidx as [[= -> ->]|[= -> ->]]; [done|].
    rewrite insert_insert_eq. split; [done|]. intros k. rewrite !idx_get_insert. case_decide; [set_solver|done]. }
  destruct Ht as [Ht1 Ht2].
  assert (Hsub2 : reaped_sub s s2) by (eapply reaped_sub_trans; [exact C2|]; apply reaped_sub_refl; congruence).
  assert (Hreap : cs_reaped_containers s2 = cs_reaped_containers s1) by congruence.
  assert (Hframe2 : batch_frame s2 = batch_frame s) by congruence.
  assert (Hm : ctr_id (csm_function_container m) = cid ∧ csm_allocations m = ∅ ∧ 1 ≤ capacity queue_size m ∧ uri_of m = uri ∧
    (∀ u l, cs_reaped_containers s2 !! u = Some l → cid ∉ l) ∧ (∀ n, (tick < n)%nat → rch_container (ch n) ≠ cid) ∧
    ∀ old, cs_function_containers s !! cid = Some old → csm_executor_id m = csm_executor_id old ∧ csm_allocations old ⊆ csm_allocations m).
  { destruct Horigin as [[(M1 & M2 & M3 & M4) ->]|(fc & l & Hfc & Hl & Hin & M1 & M2 & ME & M3)].
    - split_and!; [done|done| |done| | |].
      + unfold capacity. rewrite M3, wrap32_id by (unfold has_room, in_u32, u32_max in *; lia). apply Hroom.
      + intros u l (l0 & Hl0 & Hs)%Hsub2 Hin. destruct (ai_fresh _ _ _ Hi tick ltac:(lia)) as [_ Hf].
        apply (Hf _ _ Hl0). by eapply sublist_subseteq.
      + intros n Hn ?%Hch. lia.
      + intros old. destruct (ai_fresh _ _ _ Hi tick ltac:(lia)) as [Hf _]. congruence.
    - destruct (ai_reaped _ _ _ Hi _ _ Hl) as [_ Hd]. destruct (Hd cid fc Hin Hfc) as [_ Hu].
      assert (Huri_m : uri_of m = uri) by (rewrite <-Hu; unfold uri_of; by rewrite M2).
      split_and!; [rewrite M2; by apply (ai_keyed _ _ _ Hi)|rewrite M1; by apply (ai_idle _ _ _ Hi uri l cid)| |done| | |].
      + unfold capacity. rewrite M2. apply (ai_load _ _ _ Hi cid fc Hfc).
      + rewrite Hreap. by apply M3, Hi.
      + intros n Hn <-. destruct (ai_fresh _ _ _ Hi n ltac:(lia)) as [Hf _]. congruence.
      + intros old. rewrite Hfc. intros [= <-]. by rewrite M1. }
  destruct Hm as (M1 & M2 & M3 & M4 & M5 & M6 & M7). split; [|done|by apply (keeps_insert s s2 cid m)| |done|done|rewrite M2, size_empty; lia].
  - apply (alloc_inv_add ch tick s s2 cid m); try done. by rewrite M4.
  - by rewrite Ht1, lookup_insert_eq.
Qed.

(** ** One run *)

Lemma foldl_least_loaded l : ∀ best m, foldl least_loaded best l = Some m → m ∈ l ∨ best = Some m.
Proof.
  induction l as [|x l IH]; intros best m; simpl; [by right|]. intros [H|H]%IH; [left; by right|].
  unfold least_loaded in H. destruct best as [b|]; [|injection H as <-; left; left].
  case_bool_decide; [injection H as <-; left; left|by right].
Qed.
Lemma find_available_spec s uri target :
  find_available_container queue_size s uri = Some target →
  ∃ cid m, cid ∈ containers_of s uri ∧ cs_function_containers s !! cid = Some m ∧ available queue_size s m = true ∧ target = target_of m.
Proof.
  unfold find_available_container, containers_of, idx_get. destruct (cs_containers_by_function_uri s !! uri) as [ids|]; [|done]. simpl.
  intros (m & Hm & ->)%fmap_Some. apply foldl_least_loaded in Hm as [Hm|]; [|done].
  apply list_elem_of_In, filter_In in Hm as [Hm%list_elem_of_In Ha]. apply list_elem_of_omap in Hm as (cid & Hin & Hc).
  exists cid, m. split_and!; [by apply elem_of_set_iter|done..].
Qed.
Lemma available_spec s m :
  available queue_size s m = true →
  (∃ e, cs_executors s !! csm_executor_id m = Some e ∧ em_tombstoned e = false) ∧ live m = true ∧
  Z.of_nat (size (csm_allocations m)) < capacity queue_size m.
Proof.
  unfold available, live. destruct (cs_executors s !! csm_executor_id m) as [e|]; [|done]. destruct (em_tombstoned e) eqn:Et; [done|].
  destruct (is_terminated (csm_desired_state m)); [done|]. rewrite bool_decide_eq_true. eauto.
Qed.

(** The allocation that a run is given. *)
Definition run_allocation (r : FunctionRun) (ctx : RequestCtx) (target : AllocationTarget) (c : RunChoice) : Allocation :=
  MkAllocation (rch_allocation c) target (fr_id r) (fr_namespace r) (fr_application r)
    (rc_application_version ctx) (fr_name r) (fr_request_id r) (rch_created_at c) FRO_Unknown
    (fr_attempt_number r) None (fr_input_args r) 0 (fr_call_metadata r).

(** What giving a run a container does. *)
Record allocated (ch : nat → RunChoice) (tick : nat) (s s' : ContainerScheduler) (r : FunctionRun) (ctx ctx' : RequestCtx)
    (u : SchedulerUpdateRequest) (target : AllocationTarget) : Prop := MkAllocated {
  al_inv : alloc_inv ch (S tick) s';
  al_new : su_new_allocations u = [run_allocation r ctx target (ch tick)];
  al_key : request_ctx_key ctx' = request_ctx_key ctx;
  al_keeps : keeps_allocations s s';
  al_blocked : cs_blocked_work s' = remove_function_run (cs_blocked_work s) (run_key r);
  al_table : ∃ m, cs_function_containers s' !! at_container_id target = Some m ∧ csm_executor_id m = at_executor_id target ∧
    live m = true ∧ rch_allocation (ch tick) ∈ csm_allocations m;
}.

Lemma allocate_on_spec ch tick s0 s r ctx m u :
  alloc_inv ch (S tick) s → batch_frame s = batch_frame s0 → keeps_allocations s0 s →
  cs_function_containers s !! ctr_id (csm_function_container m) = Some m → live m = true →
  Z.of_nat (size (csm_allocations m)) < capacity queue_size m → su_new_allocations u = [] →
  let '(s', u', ctx') := allocate_on s r ctx (target_of m) (ch tick) u in
  allocated ch tick s0 s' r ctx ctx' u' (target_of m) ∧
  (cs_function_pools s', cs_sandbox_pools s', cs_executors s') = (cs_function_pools s0, cs_sandbox_pools s0, cs_executors s0).
Proof.
  intros Hi Hf Hkp Ht Hl Hc Hu. unfold allocate_on. cbn [at_container_id target_of]. rewrite Ht. set (a := run_allocation r ctx (target_of m) (ch tick)).
  change (MkAllocation _ _ _ _ _ _ _ _ _ _ _ _ _ _ _) with a.
  set (m' := m <| csm_allocations ::= λ x, {[al_id a]} ∪ x |> <| csm_idle_since := None |>).
  set (cid := ctr_id (csm_function_container m)) in *. set (s' := s <| cs_function_containers ::= <[cid := m']> |>).
  assert (Hcap : ∀ m0, csm_function_container m0 = csm_function_container m → capacity queue_size m0 = capacity queue_size m)
    by (intros m0 E; unfold capacity; by rewrite E).
  assert (Hi' : alloc_inv ch (S tick) s').
  { assert (Hnr : ∀ uri l, cs_reaped_containers s !! uri = Some l → cid ∉ l) by (intros uri l; by apply (live_not_reaped ch (S tick) s cid m)).
    destruct Hi as [H1 H2 H3 H4 H5 H6]. split.
    - intros c x Hx. change (<[cid := m']> (cs_function_containers s) !! c = Some x) in Hx. apply lookup_insert_Some in Hx as [[<- <-]|[_ ?]]; [done|by apply H1].
    - intros uri l Hl'. destruct (H2 uri l Hl') as [Hnd Hd]. split; [done|]. intros c x Hin Hx.
      change (<[cid := m']> (cs_function_containers s) !! c = Some x) in Hx. rewrite lookup_insert_ne in Hx by (intros <-; by apply (Hnr uri l)). by apply (Hd c x).
    - intros uri l c x Hl' Hin Hx. change (<[cid := m']> (cs_function_containers s) !! c = Some x) in Hx.
      rewrite lookup_insert_ne in Hx by (intros <-; by apply (Hnr uri l)). by apply (H3 uri l c).
    - intros n Hn. destruct (H4 n Hn) as [Hfr ?]. split; [|done]. change (<[cid := m']> (cs_function_containers s) !! rch_container (ch n) = None).
      rewrite lookup_insert_ne; [done|]. intros ->. congruence.
    - intros c x Hx. change (<[cid := m']> (cs_function_containers s) !! c = Some x) in Hx.
      apply lookup_insert_Some in Hx as [[<- <-]|[_ ?]]; [|by apply (H5 c)]. rewrite (Hcap m' eq_refl). destruct (H5 cid m Ht) as [_ ?].
      split; [|done]. change (csm_allocations m') with ({[al_id a]} ∪ csm_allocations m).
      pose proof (size_insert_elem (al_id a) (csm_allocations m)). case_decide; lia.
    - exact H6. }
  unfold batch_frame in Hf. injection Hf as F1 F2 F3 F4. split.
  - split.
    + apply (alloc_inv_view ch (S tick) s'); [exact eq_refl|done].
    + change (su_new_allocations u ++ [a] = [a]). by rewrite Hu.
    + exact eq_refl.
    + etrans; [exact Hkp|]. apply (keeps_insert s _ cid m'); [exact eq_refl|]. intros old. rewrite Ht. intros [= <-]. split; [done|].
      change (csm_allocations m') with ({[al_id a]} ∪ csm_allocations m). set_solver.
    + change (remove_function_run (cs_blocked_work s) (run_key r) = remove_function_run (cs_blocked_work s0) (run_key r)). by rewrite F1.
    + exists m'. split_and!; [|exact eq_refl|exact Hl|].
      * change (<[cid := m']> (cs_function_containers s) !! cid = Some m'). by rewrite lookup_insert_eq.
      * change (al_id a ∈ {[al_id a]} ∪ csm_allocations m). set_solver.
  - change ((cs_function_pools s, cs_sandbox_pools s, cs_executors s) = (cs_function_pools s0, cs_sandbox_pools s0, cs_executors s0)). by rewrite F2, F3, F4.
Qed.

Lemma create_allocation_spec ch tick s r ctx cache s' cache' res :
  alloc_inv ch tick s → versions_ok → (∀ i j, rch_container (ch i) = rch_container (ch j) → i = j) →
  create_allocation queue_size im s r ctx cache (ch tick) = (s', cache', res) →
  alloc_inv ch (S tick) s' ∧
  (cs_function_pools s', cs_sandbox_pools s', cs_executors s') = (cs_function_pools s, cs_sandbox_pools s, cs_executors s) ∧
  match res with
  | Ok (u, ctx') => (su_new_allocations u = [] ∧ ctx' = ctx ∧ cs_blocked_work s' = cs_blocked_work s ∧ keeps_allocations s s') ∨
                    ∃ target, allocated ch tick s s' r ctx ctx' u target
  | Err _ => cs_blocked_work s' = cs_blocked_work s ∧ keeps_allocations s s'
  end.
Proof.
  intros Hi Hv Hch E. unfold create_allocation in E. destruct (find_available_container queue_size s (function_uri_of_run r)) as [target|] eqn:Efind.
  - apply find_available_spec in Efind as (cid & m & Hin & Hm & Ha & ->). apply available_spec in Ha as (_ & Hl & Hc).
    pose proof (ai_keyed _ _ _ Hi _ _ Hm) as Hid.
    pose proof (allocate_on_spec ch tick s s r ctx m empty_update (alloc_inv_weaken ch tick (S tick) s ltac:(lia) Hi) eq_refl ltac:(by apply keeps_same) ltac:(by rewrite Hid) Hl Hc eq_refl) as H.
    destruct (allocate_on s r ctx (target_of m) (ch tick) empty_update) as [[s1 u1] ctx1]. injection E as <- <- <-. destruct H as [H1 H2].
    split; [apply H1|]. split; [done|]. right. eauto.
  - destruct (try_create_container im s r cache (ch tick)) as [[s1 cache1] res1] eqn:Et.
    pose proof (try_create_spec ch tick s r cache s1 cache1 res1 Hi Hv Hch Et) as Hc. destruct res1 as [[cu|]|e].
    + destruct Hc as (id & st & cid & m & (Hcu & _ & _) & Hnew & [P1 P2 PK P3 P4 P5 P6]). rewrite Hcu, map_iter_singleton in E. cbn [fmap list_fmap snd List.filter] in E.
      assert (Hnt : negb (is_terminated (csm_desired_state m)) = true) by (unfold live in P4; exact P4). rewrite Hnt in E. cbn [head fmap option_fmap option_map] in E.
      pose proof (allocate_on_spec ch tick s (apply_container_update s1 cu) r ctx m (extend empty_update cu) P1 P2 PK ltac:(by rewrite P5) P4 P6 Hnew) as H.
      destruct (allocate_on (apply_container_update s1 cu) r ctx (target_of m) (ch tick) (extend empty_update cu)) as [[s2 u2] ctx2].
      injection E as <- <- <-. destruct H as [H1 H2]. split; [apply H1|]. split; [done|]. right. eauto.
    + destruct Hc as (C1 & C2 & C3). injection E as <- <- <-. unfold batch_frame in C2. injection C2 as F1 F2 F3 F4.
      split; [done|]. split; [by rewrite F2, F3, F4|]. by left.
    + destruct Hc as (C1 & C2 & C3). injection E as <- <- <-. unfold batch_frame in C2. injection C2 as F1 F2 F3 F4.
      split; [done|]. split; [by rewrite F2, F3, F4|done].
Qed.

(** ** A batch *)

Definition blocked_run (s : ContainerScheduler) (k : FunctionRunKey) : Prop :=
  is_Some (bs_blocked (bw_function_runs (cs_blocked_work s)) !! k).
(** The request is reported with an outcome. *)
Definition reported_done (u : SchedulerUpdateRequest) (key : string) : Prop :=
  ∃ ctx, su_updated_request_states u !! key = Some ctx ∧ rc_outcome ctx ≠ None.
(** The container the allocation names has it. *)
Definition held (s : ContainerScheduler) (a : Allocation) : Prop :=
  ∃ m, cs_function_containers s !! at_container_id (al_target a) = Some m ∧ csm_executor_id m = at_executor_id (al_target a) ∧
    al_id a ∈ csm_allocations m.
Lemma held_keeps s s' a : keeps_allocations s s' → held s a → held s' a.
Proof. intros Hk (m & (m' & ? & ? & ?)%Hk & E & Hin). exists m'. split_and!; [done|congruence|set_solver]. Qed.
(** What has become of a run. *)
Definition settled (s : ContainerScheduler) (u : SchedulerUpdateRequest) (r : FunctionRun) : Prop :=
  (∃ a, a ∈ su_new_allocations u ∧ allocation_run_key a = run_key r ∧ held s a) ∨ blocked_run s (run_key r) ∨
  reported_done u (run_request_key r) ∨ im_request_ctx im !! run_request_key r = None.

Lemma blocked_after_block t k info : is_Some (bs_blocked (bw_function_runs (block_function_run t k info)) !! k).
Proof. unfold block_function_run, side_block. cbn. rewrite lookup_insert_eq. done. Qed.
Lemma blocked_other_block t k info k' :
  is_Some (bs_blocked (bw_function_runs t) !! k') → is_Some (bs_blocked (bw_function_runs (block_function_run t k info)) !! k').
Proof.
  intros H. destruct (decide (k' = k)) as [->|Hne]; [apply blocked_after_block|].
  unfold block_function_run, side_block, side_remove, side_drop, side_remove_from_indexes. cbn. rewrite lookup_insert_ne by done.
  destruct (bi_escaped info), (bs_blocked (bw_function_runs t) !! k); cbn; by rewrite lookup_delete_ne.
Qed.
Lemma blocked_other_remove t k k' :
  k' ≠ k → is_Some (bs_blocked (bw_function_runs t) !! k') → is_Some (bs_blocked (bw_function_runs (remove_function_run t k)) !! k').
Proof.
  intros Hne H. unfold remove_function_run, side_remove, side_drop, side_remove_from_indexes. cbn.
  destruct (bs_blocked (bw_function_runs t) !! k); cbn; by rewrite lookup_delete_ne.
Qed.
Lemma done_extend u o key : reported_done u key → reported_done (extend u o) key.
Proof.
  intros (ctx & Hc & Ho). unfold reported_done. change (su_updated_request_states (extend u o)) with
    (union_with (λ a b, Some (newer_request_state a b)) (su_updated_request_states u) (su_updated_request_states o)).
  rewrite lookup_union_with, Hc. destruct (su_updated_request_states o !! key) as [c|]; simpl; [|eauto].
  eexists. split; [done|]. unfold newer_request_state. destruct (rc_outcome ctx) eqn:E1, (rc_outcome c) eqn:E2; simpl; congruence.
Qed.
Lemma done_add_state u c key :
  reported_done u key ∨ (key = request_ctx_key c ∧ rc_outcome c ≠ None) → reported_done (add_request_state u c) key.
Proof.
  unfold reported_done, add_request_state, merge_request_state. cbn. destruct (decide (key = request_ctx_key c)) as [->|Hne].
  - intros H. rewrite lookup_insert_eq. eexists. split; [done|]. destruct (su_updated_request_states u !! request_ctx_key c) as [old|]; [|naive_solver].
    unfold newer_request_state. destruct H as [(ctx & [= ->] & Ho)|[_ Ho]]; [destruct (rc_outcome ctx) eqn:E1, (rc_outcome c) eqn:E2; simpl; congruence|].
    destruct (rc_outcome old) eqn:E1, (rc_outcome c) eqn:E2; simpl; congruence.
  - intros [(ctx & Hc & Ho)|[? _]]; [|done]. rewrite lookup_insert_ne by done. eauto.
Qed.

Record batch_inv (ch : nat → RunChoice) (b : Batch) : Prop := MkBatchInv {
  bi_sched : alloc_inv ch (b_tick b) (b_sched b);
  bi_ctxs : ∀ key ctx, b_ctxs b !! key = Some ctx → request_ctx_key ctx = key;
  bi_terminal : ∀ key, key ∈ b_terminal b → reported_done (b_update b) key;
}.
(** What a step keeps. *)
Record batch_step (b b' : Batch) : Prop := MkBatchStep {
  bs_pools : (cs_function_pools (b_sched b'), cs_sandbox_pools (b_sched b'), cs_executors (b_sched b')) =
             (cs_function_pools (b_sched b), cs_sandbox_pools (b_sched b), cs_executors (b_sched b));
  bs_settled : ∀ r, settled (b_sched b) (b_update b) r → settled (b_sched b') (b_update b') r;
}.
#[export] Instance batch_step_preorder : PreOrder batch_step.
Proof. split; [by split|]. intros a b c [H1 H2] [G1 G2]. split; [congruence|eauto]. Qed.

Lemma block_run_spec b r memory_mb :
  let b' := block_run im b r memory_mb in
  inv_view (b_sched b') = inv_view (b_sched b) ∧ b_tick b' = b_tick b ∧ b_ctxs b' = b_ctxs b ∧ b_terminal b' = b_terminal b ∧
  b_update b' = b_update b ∧ cs_executors (b_sched b') = cs_executors (b_sched b) ∧ blocked_run (b_sched b') (run_key r) ∧
  ∀ k, blocked_run (b_sched b) k → blocked_run (b_sched b') k.
Proof.
  unfold block_run, record_blocked_function_run. destruct (match cs_last_placement (b_sched b) with Some _ => _ | None => _ end) as [cache el].
  split_and!; try exact eq_refl; [apply blocked_after_block|]. intros k. apply blocked_other_block.
Qed.

Lemma batch_inv_view ch b b' :
  inv_view (b_sched b) = inv_view (b_sched b') → b_tick b' = b_tick b → b_ctxs b' = b_ctxs b → b_terminal b' = b_terminal b →
  b_update b' = b_update b → batch_inv ch b → batch_inv ch b'.
Proof.
  intros Ev Et Ec Em Eu [H1 H2 H3]. split; rewrite ?Et, ?Ec, ?Em, ?Eu; [|done..]. by apply (alloc_inv_view ch _ (b_sched b)).
Qed.
Lemma settled_step s u s' u' :
  keeps_allocations s s' →
  (∀ k, blocked_run s k → blocked_run s' k ∨ ∃ a, a ∈ su_new_allocations u' ∧ allocation_run_key a = k ∧ held s' a) →
  su_new_allocations u ⊆ su_new_allocations u' → (∀ key, reported_done u key → reported_done u' key) →
  ∀ r, settled s u r → settled s' u' r.
Proof.
  intros Hk Hb Ha Hd r [(a & Hin & Ek & Hh)|[H|[H|H]]].
  - left. exists a. split_and!; [by apply Ha|done|by apply (held_keeps s)].
  - apply Hb in H as [H|H]; [right; by left|by left].
  - right; right; left. by apply Hd.
  - by right; right; right.
Qed.
Lemma block_run_step ch b r memory_mb :
  let b' := block_run im b r memory_mb in
  (batch_inv ch b → batch_inv ch b') ∧ batch_step b b' ∧ settled (b_sched b') (b_update b') r.
Proof.
  destruct (block_run_spec b r memory_mb) as (H1 & H2 & H3 & H4 & H5 & H6 & H7 & H8). cbv zeta in *.
  set (b' := block_run im b r memory_mb) in *. clearbody b'. split_and!.
  - by apply batch_inv_view.
  - split; [unfold inv_view in H1; injection H1 as _ _ _ -> ->; by rewrite H6|]. rewrite H5. apply settled_step; [apply keeps_same; unfold inv_view in H1; congruence| |done..]. intros k Hk. left. by apply H8.
  - right. by left.
Qed.

(** Extending the update of the batch. *)
Lemma batch_extend ch b u :
  (batch_inv ch b → batch_inv ch (b <| b_update ::= λ u0, extend u0 u |>)) ∧ batch_step b (b <| b_update ::= λ u0, extend u0 u |>).
Proof.
  split.
  - intros [H1 H2 H3]. split; [exact H1|exact H2|]. intros key Hk. by apply done_extend, H3.
  - split; [done|]. apply settled_step; [done|by left| |by apply done_extend].
    intros a Ha. change (a ∈ su_new_allocations (b_update b) ++ su_new_allocations u). set_solver.
Qed.
Lemma run_allocation_key r ctx target c : allocation_run_key (run_allocation r ctx target c) = run_key r.
Proof. exact eq_refl. Qed.

(** The hypotheses of a batch: the functions have room, the requests are filed
    under their keys, and no container id is drawn twice. *)
Record batch_ok (ch : nat → RunChoice) : Prop := MkBatchOk {
  bo_versions : versions_ok;
  bo_ctxs : ∀ key ctx, im_request_ctx im !! key = Some ctx → request_ctx_key ctx = key;
  bo_ids : ∀ i j, rch_container (ch i) = rch_container (ch j) → i = j;
}.

(** The request of a run that cannot be satisfied is reported failed. *)
Lemma fail_run_step ch b r ctx sched' cache' k1 k2 key :
  batch_inv ch b → alloc_inv ch (S (b_tick b)) sched' → request_ctx_key ctx = key → key = run_request_key r →
  (cs_function_pools sched', cs_sandbox_pools sched', cs_executors sched') =
  (cs_function_pools (b_sched b), cs_sandbox_pools (b_sched b), cs_executors (b_sched b)) →
  cs_blocked_work sched' = cs_blocked_work (b_sched b) ∧ keeps_allocations (b_sched b) sched' →
  let ctx1 := ctx <| rc_outcome := Some (RO_Failure RF_ConstraintUnsatisfiable) |> in
  let '(u1, ctx2) := add_function_run (b_update b) (r <| fr_status := FRS_Completed |> <| fr_outcome := Some (FRO_Failure FRF_ConstraintUnsatisfiable) |>) ctx1 in
  let b' := MkBatch sched' cache' (add_request_state u1 ctx2) k1 (<[key := ctx2]> (<[key := k2]> (b_ctxs b))) ({[key]} ∪ b_terminal b) (S (b_tick b)) in
  batch_inv ch b' ∧ batch_step b b' ∧ settled sched' (add_request_state u1 ctx2) r.
Proof.
  intros [H1 H2 H3] Hi Hkey Hr Hp [Hb Hkp]. cbv zeta. unfold add_function_run. set (ctx2 := _ <| rc_function_runs ::= _ |>). set (u1 := _ <| su_updated_function_runs ::= _ |>).
  assert (Hk2 : request_ctx_key ctx2 = key) by exact Hkey.
  assert (Ho : rc_outcome ctx2 ≠ None) by done.
  assert (Hdone : ∀ k, reported_done (b_update b) k → reported_done (add_request_state u1 ctx2) k) by (intros k Hk; apply done_add_state; by left).
  assert (Hnow : reported_done (add_request_state u1 ctx2) key) by (apply done_add_state; right; by rewrite Hk2).
  clearbody ctx2. split_and!.
  - split; [exact Hi| |].
    + intros k c. change (<[key := ctx2]> (<[key := k2]> (b_ctxs b)) !! k = Some c → request_ctx_key c = k).
      rewrite insert_insert_eq, lookup_insert_Some. intros [[<- <-]|[_ ?]]; [done|by apply H2].
    + intros k. change (k ∈ {[key]} ∪ b_terminal b → reported_done (add_request_state u1 ctx2) k). rewrite elem_of_union, elem_of_singleton. intros [->|?]; [done|by apply Hdone, H3].
  - split; [exact Hp|]. apply settled_step; [exact Hkp| |done|exact Hdone]. intros k Hk. left. unfold blocked_run in *. change (b_sched _) with sched'. by rewrite Hb.
  - right; right; left. by rewrite <-Hr.
Qed.

(** A run for which [create_allocation] returned an update. *)
Lemma place_run_step ch b r ctx ctx' sched' cache' u memory_mb key k2 :
  batch_inv ch b → alloc_inv ch (S (b_tick b)) sched' → request_ctx_key ctx = key →
  (cs_function_pools sched', cs_sandbox_pools sched', cs_executors sched') =
  (cs_function_pools (b_sched b), cs_sandbox_pools (b_sched b), cs_executors (b_sched b)) →
  (su_new_allocations u = [] ∧ ctx' = ctx ∧ cs_blocked_work sched' = cs_blocked_work (b_sched b) ∧ keeps_allocations (b_sched b) sched') ∨
  (∃ target s0, cs_blocked_work s0 = cs_blocked_work (b_sched b) ∧ cs_function_containers s0 = cs_function_containers (b_sched b) ∧ allocated ch (b_tick b) s0 sched' r ctx ctx' u target) →
  let b3 := MkBatch sched' cache' (b_update b) (b_no_resources b) (<[key := ctx']> (<[key := k2]> (b_ctxs b))) (b_terminal b) (S (b_tick b)) in
  let b4 := if bool_decide (su_new_allocations u = [])
            then block_run im (b3 <| b_no_resources ::= λ x, {[function_uri_of_run r]} ∪ x |>) r memory_mb else b3 in
  let b' := b4 <| b_update ::= λ u0, extend u0 u |> in
  batch_inv ch b' ∧ batch_step b b' ∧ settled (b_sched b') (b_update b') r.
Proof.
  intros [H1 H2 H3] Hi Hkey Hp Hres b3 b4 b'.
  assert (Hkey' : request_ctx_key ctx' = key) by (destruct Hres as [(_ & -> & _)|(t & s0 & _ & _ & [_ _ K _ _ _])]; congruence).
  assert (Hi3 : batch_inv ch b3).
  { split; [exact Hi| |exact H3]. intros k c. change (<[key := ctx']> (<[key := k2]> (b_ctxs b)) !! k = Some c → request_ctx_key c = k).
    rewrite insert_insert_eq, lookup_insert_Some. intros [[<- <-]|[_ ?]]; [done|by apply H2]. }
  destruct (batch_extend ch b4 u) as [X1 X2]. fold b' in X1, X2. destruct Hres as [(Hu & _ & Hb & Hkp)|(target & s0 & Hb & Ht & [A1 A2 A3 AK A4 A5])].
  - unfold b4 in X1, X2. rewrite bool_decide_true in X1, X2 by done.
    set (b3' := b3 <| b_no_resources ::= λ x, {[function_uri_of_run r]} ∪ x |>) in *.
    destruct (block_run_step ch b3' r memory_mb) as (B1 & B2 & B3). cbv zeta in B1, B2, B3.
    assert (S3 : batch_step b b3').
    { split; [exact Hp|]. apply settled_step; [exact Hkp| |done|done]. intros k Hk. left. unfold blocked_run in *. change (b_sched b3') with sched'. by rewrite Hb. }
    split; [apply X1, B1; by apply (batch_inv_view ch b3)|]. split; [by rewrite S3, B2|]. by apply X2.
  - unfold b4 in X1, X2. rewrite bool_decide_false in X1, X2 by (rewrite A2; done). split; [by apply X1|].
    assert (Hnew : su_new_allocations (b_update b') = su_new_allocations (b_update b) ++ [run_allocation r ctx target (ch (b_tick b))]).
    { unfold b', b4. rewrite bool_decide_false by (rewrite A2; done). rewrite <-A2. exact eq_refl. }
    assert (Hs' : b_sched b' = sched') by (unfold b', b4; by rewrite bool_decide_false by (rewrite A2; done)).
    assert (Hin : ∃ a, a ∈ su_new_allocations (b_update b') ∧ allocation_run_key a = run_key r ∧ held (b_sched b') a).
    { eexists. split; [rewrite Hnew; apply elem_of_app; right; apply list_elem_of_singleton; done|split; [done|]]. rewrite Hs'.
      destruct A5 as (m & ? & ? & ? & ?). by exists m. }
    split; [|by left]. split; [rewrite Hs'; exact Hp|]. apply settled_step.
    + rewrite Hs'. etrans; [|exact AK]. by apply keeps_same.
    + intros k Hk. destruct (decide (k = run_key r)) as [->|Hne]; [by right|]. left. unfold blocked_run in *. rewrite Hs', A4, Hb. by apply blocked_other_remove.
    + rewrite Hnew. intros a Ha. apply elem_of_app. by left.
    + intros k Hk. unfold b', b4. rewrite bool_decide_false by (rewrite A2; done). by apply done_extend.
Qed.

Lemma try_allocate_single_run_spec ch memory_mb b r b' res :
  batch_ok ch → batch_inv ch b → try_allocate_single_run queue_size im ch memory_mb b r = (b', res) →
  batch_inv ch b' ∧ batch_step b b' ∧ (res = Ok tt → settled (b_sched b') (b_update b') r).
Proof.
  intros [O1 O2 O3] Hb. unfold try_allocate_single_run. case_bool_decide as Hno.
  { intros [= <- <-]. set (b0 := b <| b_sched ::= λ s, s <| cs_last_placement := None |> |>). destruct (block_run_step ch b0 r memory_mb) as (B1 & B2 & B3).
    cbv zeta in B1, B2, B3. split; [apply B1; by apply (batch_inv_view ch b)|]. split; [by etrans; [|exact B2]|done]. }
  case_bool_decide as Hterm.
  { intros [= <- <-]. split; [done|]. split; [done|]. intros _. right; right; left. by apply Hb. }
  destruct (match b_ctxs b !! run_request_key r with Some _ => _ | None => _ end) as [ctx|] eqn:Ectx; cycle 1.
  { intros [= <- <-]. split; [done|]. split; [done|]. intros _. right; right; right. by destruct (b_ctxs b !! run_request_key r). }
  assert (Hkey : request_ctx_key ctx = run_request_key r).
  { destruct (b_ctxs b !! run_request_key r) as [c|] eqn:E; [injection Ectx as ->; by apply Hb|by apply O2]. }
  cbv zeta. set (b1 := b <| b_ctxs ::= <[run_request_key r := ctx]> |>). set (s0 := b_sched b1 <| cs_last_placement := None |>).
  change (b_cache b1) with (b_cache b). change (b_tick b1) with (b_tick b).
  destruct (create_allocation queue_size im s0 r ctx (b_cache b) (ch (b_tick b))) as [[s1 cache1] res1] eqn:Ec.
  apply create_allocation_spec in Ec as (C1 & C2 & C3); [|apply (alloc_inv_view ch _ (b_sched b)); [done|apply Hb]|done|done].
  destruct res1 as [[u ctx']|e].
  - intros [= <- <-]. destruct (place_run_step ch b r ctx ctx' s1 cache1 u memory_mb _ ctx Hb C1 Hkey C2) as (P1 & P2 & P3).
    { destruct C3 as [C3|[target C3]]; [by left|right]. exists target, s0. split_and!; [exact eq_refl|exact eq_refl|done]. }
    split; [exact P1|]. split; [exact P2|done].
  - destruct e as [reason v fname|e|e].
    1:{ pose proof (fail_run_step ch b r ctx s1 cache1 ({[function_uri_of_run r]} ∪ b_no_resources b) ctx _ Hb C1 Hkey eq_refl C2 C3) as (P1 & P2 & P3).
        intros [= <- <-]. split; [exact P1|]. split; [exact P2|done]. }
    all: intros [= <- <-]; split_and!; [|split; [exact C2|]|done].
    1,3: destruct Hb as [H1 H2 H3]; split; [exact C1| |exact H3]; intros k c;
      change (<[run_request_key r := ctx]> (b_ctxs b) !! k = Some c → request_ctx_key c = k);
      rewrite lookup_insert_Some; intros [[<- <-]|[_ ?]]; [done|by apply H2].
    all: destruct C3 as [C3 Hkp]; apply settled_step; [exact Hkp| |done..]; intros k Hk; left; unfold blocked_run in *; change (is_Some (bs_blocked (bw_function_runs (cs_blocked_work s1)) !! k)); by rewrite C3.
Qed.

Lemma try_all_spec ch memory_mb runs : ∀ b b' res,
  batch_ok ch → batch_inv ch b → try_all queue_size im ch memory_mb runs b = (b', res) →
  batch_inv ch b' ∧ batch_step b b' ∧ (res = Ok tt → ∀ r, r ∈ runs → settled (b_sched b') (b_update b') r).
Proof.
  induction runs as [|r runs IH]; intros b b' res Hok Hb; simpl.
  { intros [= <- <-]. split_and!; [done|done|]. by intros _ r ?%not_elem_of_nil. }
  destruct (try_allocate_single_run queue_size im ch memory_mb b r) as [b1 res1] eqn:E1.
  apply try_allocate_single_run_spec in E1 as (I1 & S1 & D1); [|done..]. destruct res1 as [[]|e].
  - intros (I2 & S2 & D2)%IH; [|done..]. split_and!; [done|by etrans|]. intros Hres r' [->|Hin]%elem_of_cons; [|by apply D2].
    by apply S2, D1.
  - intros [= <- <-]. by split_and!.
Qed.

Lemma try_groups_spec ch groups : ∀ b b' res,
  batch_ok ch → batch_inv ch b → try_groups queue_size im ch groups b = (b', res) →
  batch_inv ch b' ∧ batch_step b b' ∧
  ∀ rest, res = Ok rest → ∀ p runs r, (p, runs) ∈ groups → r ∈ runs → (p, runs) ∈ rest ∨ settled (b_sched b') (b_update b') r.
Proof.
  induction groups as [|[p runs] groups IH]; intros b b' res Hok Hb; simpl.
  { intros [= <- <-]. split_and!; [done|done|]. by intros rest _ p runs r ?%not_elem_of_nil. }
  destruct (try_all queue_size im ch (rp_memory_mb p) runs b) as [b1 res1] eqn:E1.
  apply try_all_spec in E1 as (I1 & S1 & D1); [|done..]. destruct res1 as [[]|e]; [|intros [= <- <-]; by split_and!].
  case_bool_decide.
  - intros [= <- <-]. split_and!; [done|done|]. intros rest [= <-] q l r [[= -> ->]|Hin]%elem_of_cons Hr; [right; by apply D1|by left].
  - intros (I2 & S2 & D2)%IH; [|done..]. split_and!; [done|by etrans|]. intros rest Hres q l r [[= -> ->]|Hin]%elem_of_cons Hr.
    + right. by apply S2, D1.
    + by apply (D2 rest Hres q l).
Qed.

Lemma block_skipped_step ch memory_mb b known r :
  let b' := (block_skipped im memory_mb (b, known) r).1 in
  (batch_inv ch b → batch_inv ch b') ∧ batch_step b b' ∧ settled (b_sched b') (b_update b') r.
Proof.
  unfold block_skipped. destruct (match known !! function_uri_of_run r with Some _ => _ | None => _ end) as [cache el]. simpl. split_and!.
  - by apply batch_inv_view.
  - split; [done|]. apply settled_step; [by apply keeps_same| |done..]. intros k Hk. left. by apply blocked_other_block.
  - right; left. apply blocked_after_block.
Qed.
Lemma block_list_step ch memory_mb runs : ∀ acc,
  let b' := (foldl (block_skipped im memory_mb) acc runs).1 in
  (batch_inv ch acc.1 → batch_inv ch b') ∧ batch_step acc.1 b' ∧ ∀ r, r ∈ runs → settled (b_sched b') (b_update b') r.
Proof.
  induction runs as [|r runs IH]; intros [b known]; simpl.
  { split_and!; [done|done|]. by intros r ?%not_elem_of_nil. }
  pose proof (block_skipped_step ch memory_mb b known r) as (B1 & B2 & B3). cbv zeta in B1, B2, B3.
  destruct (IH (block_skipped im memory_mb (b, known) r)) as (I1 & I2 & I3).
  set (b1 := block_skipped im memory_mb (b, known) r) in *. cbv zeta in I1, I2, I3.
  split_and!; [by intros Hb; apply I1, B1|by etrans|]. intros r' [->|Hin]%elem_of_cons; [by apply I2|by apply I3].
Qed.
Lemma block_groups_step ch groups b :
  let b' := block_groups im groups b in
  (batch_inv ch b → batch_inv ch b') ∧ batch_step b b' ∧ ∀ p runs r, (p, runs) ∈ groups → r ∈ runs → settled (b_sched b') (b_update b') r.
Proof.
  unfold block_groups. generalize (∅ : gmap FunctionURI (gset ExecutorClass)) as known. revert b.
  induction groups as [|[p runs] groups IH]; intros b known; simpl.
  { split_and!; [done|done|]. by intros p runs r ?%not_elem_of_nil. }
  destruct (block_list_step ch (rp_memory_mb p) runs (b, known)) as (B1 & B2 & B3). cbv zeta in B1, B2, B3.
  destruct (foldl (block_skipped im (rp_memory_mb p)) (b, known) runs) as [b1 known1]. simpl in B1, B2, B3.
  destruct (IH b1 known1) as (I1 & I2 & I3). cbv zeta in I1, I2, I3.
  split_and!; [by intros Hb; apply I1, B1|by etrans|]. intros q l r [[= -> ->]|Hin]%elem_of_cons Hr; [by apply I2, B3|by apply (I3 q l)].
Qed.

(** Every run of the batch is in a group or in the fallback list. *)
Definition grouped (acc : gmap ResourceProfile (list FunctionRun) * list FunctionRun) (r : FunctionRun) : Prop :=
  (∃ p l, acc.1 !! p = Some l ∧ r ∈ l) ∨ r ∈ acc.2.
Lemma group_run_grouped profiles runs : ∀ acc r,
  grouped acc r ∨ r ∈ runs → grouped (foldl (group_run profiles) acc runs) r.
Proof.
  induction runs as [|x runs IH]; intros acc r; simpl; [intros [?|?%not_elem_of_nil]; done|].
  rewrite elem_of_cons. intros H. apply IH. destruct acc as [groups fallback]. unfold group_run, grouped in *. simpl in *.
  destruct (profile_of profiles x) as [p|]; simpl.
  - destruct H as [[(q & l & Hq & Hin)|Hin]|[->|Hin]]; [|left; by right| |by right].
    + left. left. destruct (decide (q = p)) as [->|Hne].
      * exists p, (default [] (groups !! p) ++ [x]). rewrite lookup_insert_eq, Hq. split; [done|]. simpl. set_solver.
      * exists q, l. by rewrite lookup_insert_ne.
    + left. left. exists p. eexists. rewrite lookup_insert_eq. split; [done|]. set_solver.
  - destruct H as [[H|Hin]|[->|Hin]]; [left; by left|left; right; set_solver|left; right; set_solver|by right].
Qed.

(** A constraint that cannot be satisfied fails the request, not the batch. *)
Definition batch_error (e : SchedulerError) : Prop := ∀ reason v f, e ≠ ConstraintUnsatisfiable reason v f.
Lemma try_allocate_single_run_error ch memory_mb b r b' e :
  try_allocate_single_run queue_size im ch memory_mb b r = (b', Err e) → batch_error e.
Proof.
  unfold try_allocate_single_run. case_bool_decide; [done|]. case_bool_decide; [done|].
  destruct (match b_ctxs b !! run_request_key r with Some _ => _ | None => _ end); [|done]. cbv zeta.
  destruct (create_allocation _ _ _ _ _ _ _) as [[s1 cache1] [[u ctx']|[]]]; [done|done|intros [= _ <-]; done..].
Qed.
Lemma try_all_error ch memory_mb runs : ∀ b b' e, try_all queue_size im ch memory_mb runs b = (b', Err e) → batch_error e.
Proof.
  induction runs as [|r runs IH]; intros b b' e; simpl; [done|].
  destruct (try_allocate_single_run queue_size im ch memory_mb b r) as [b1 [[]|e1]] eqn:E1; [apply IH|].
  intros [= _ <-]. by eapply try_allocate_single_run_error.
Qed.
Lemma try_groups_error ch groups : ∀ b b' e, try_groups queue_size im ch groups b = (b', Err e) → batch_error e.
Proof.
  induction groups as [|[p runs] groups IH]; intros b b' e; simpl; [done|].
  destruct (try_all queue_size im ch (rp_memory_mb p) runs b) as [b1 [[]|e1]] eqn:E1.
  - case_bool_decide; [done|apply IH].
  - intros [= _ <-]. by eapply try_all_error.
Qed.

Lemma block_escaped_spec runs : ∀ s,
  let s' := foldl (block_escaped im) s runs in
  inv_view s' = inv_view s ∧ cs_executors s' = cs_executors s ∧ (∀ k, blocked_run s k → blocked_run s' k) ∧ ∀ r, r ∈ runs → blocked_run s' (run_key r).
Proof.
  induction runs as [|x runs IH]; intros s; simpl.
  { split_and!; [done|done|done|]. by intros r ?%not_elem_of_nil. }
  destruct (IH (block_escaped im s x)) as (I1 & I2 & I3 & I4). cbv zeta in *. split_and!; [by rewrite I1|by rewrite I2| |].
  - intros k Hk. apply I3. by apply blocked_other_block.
  - intros r [->|Hin]%elem_of_cons; [|by apply I4]. apply I3. apply blocked_after_block.
Qed.

(** The whole batch. *)
Lemma allocate_function_runs_spec ch s runs cache s' cache' res :
  batch_ok ch → alloc_inv ch 0 s → allocate_function_runs queue_size im ch s runs cache = (s', cache', res) →
  (∃ tick, alloc_inv ch tick s') ∧
  (cs_function_pools s', cs_sandbox_pools s', cs_executors s') = (cs_function_pools s, cs_sandbox_pools s, cs_executors s) ∧
  match res with
  | Ok u => ∀ r, r ∈ take 10000 runs → settled s' u r
  | Err e => batch_error e
  end.
Proof.
  intros Hok Hi. unfold allocate_function_runs. case_bool_decide as Hex.
  { intros [= <- _ <-]. destruct (block_escaped_spec runs s) as (B1 & B2 & _ & B4). cbv zeta in B1, B2, B4.
    split; [exists 0%nat; by apply (alloc_inv_view ch 0 s)|]. split; [unfold inv_view in B1; congruence|].
    intros r Hr. right; left. apply B4. by eapply sublist_subseteq; [apply sublist_take|]. }
  cbv zeta. pose proof (λ r, group_run_grouped (uri_profiles im (take 10000 runs)) (take 10000 runs) (∅, []) r) as Hg.
  destruct (foldl (group_run (uri_profiles im (take 10000 runs))) (∅, []) (take 10000 runs)) as [groups fallback].
  set (b0 := MkBatch s cache empty_update ∅ ∅ ∅ 0).
  assert (Hb0 : batch_inv ch b0) by (split; [exact Hi|intros k c H; by destruct (lookup_empty_Some k c)|intros k H; by destruct (not_elem_of_empty (C:=gset string) k)]).
  destruct (try_groups queue_size im ch (merge_sort group_le (map_iter groups)) b0) as [b1 [rest|e]] eqn:E1; cycle 1.
  { pose proof (try_groups_error _ _ _ _ _ E1). apply try_groups_spec in E1 as (I1 & [S1 _] & _); [|done..]. intros [= <- _ <-].
    split; [exists (b_tick b1); apply I1|done]. }
  pose proof E1 as (I1 & S1 & D1)%try_groups_spec; [|done..].
  destruct (block_groups_step ch rest b1) as (I2 & S2 & D2). cbv zeta in I2, S2, D2. specialize (I2 I1). set (b2 := block_groups im rest b1) in *. clearbody b2.
  destruct (try_all queue_size im ch 0 fallback b2) as [b3 res3] eqn:E3. pose proof E3 as (I3 & S3 & D3)%try_all_spec; [|done..].
  destruct res3 as [[]|e]; cycle 1.
  { intros [= <- _ <-]. split; [exists (b_tick b3); apply I3|]. split; [|by eapply try_all_error]. by rewrite (bs_pools _ _ S3), (bs_pools _ _ S2), (bs_pools _ _ S1). }
  intros [= <- _ <-]. split; [exists (b_tick b3); apply I3|].
  split; [by rewrite (bs_pools _ _ S3), (bs_pools _ _ S2), (bs_pools _ _ S1)|]. intros r Hr.
  destruct (Hg r (or_intror Hr)) as [(p & l & Hp & Hin)|Hin]; [|by apply D3]. simpl in Hp.
  apply S3. assert (Hgrp : (p, l) ∈ merge_sort group_le (map_iter groups)) by (by rewrite merge_sort_Permutation, elem_of_map_iter).
  destruct (D1 rest eq_refl p l r Hgrp Hin) as [H|H]; [by apply (D2 p l)|by apply S2].
Qed.

End effects.

(** ** Whole batches *)

Section batches.
Context `{HO : HashOrder} (queue_size : Z) (im : InMemoryState).

Definition load_of (s : ContainerScheduler) (cid : ContainerId) : Z := from_option (λ m, Z.of_nat (size (csm_allocations m))) 0 (cs_function_containers s !! cid).
Definition count_of (s : ContainerScheduler) (uri : FunctionURI) : Z := Z.of_nat (size (containers_of s uri)).
(** The state a batch begins in: containers are filed under their ids and can take an
    allocation, the ones remembered as reaped are terminated and without allocations, the
    ids that will be drawn are unused, and the counts fit in 32 bits.  Limits may be
    exceeded already. *)
Definition batch_start (ch : nat → RunChoice) (s : ContainerScheduler) : Prop := alloc_inv queue_size (load_of s) (count_of s) ch 0 s.

(** C7: no run is lost.  When a batch of at most 10,000 runs returns, every one of
    its runs has a new allocation that its container holds, or is recorded as
    blocked, or its request is reported failed, or its request is unknown; the early
    exit after three failing functions leaves none behind.  A constraint that cannot
    be satisfied is never the error of the batch.  The batch starts from a scheduler whose containers are filed under their
    ids and whose reaped ones are idle, draws a fresh container id each time, finds
    request contexts and functions under their own keys; a container can take at least
    one allocation, and capacities and container counts fit the 32-bit counters. *)
Theorem no_run_lost ch s runs cache :
  batch_ok queue_size im ch → batch_start ch s → (length runs ≤ 10000)%nat →
  let '(s', _, res) := allocate_function_runs queue_size im ch s runs cache in
  match res with
  | Ok u => ∀ r, r ∈ runs → settled im s' u r
  | Err e => ∀ reason v f, e ≠ ConstraintUnsatisfiable reason v f
  end.
Proof.
  intros Hok Hi Hlen. destruct (allocate_function_runs queue_size im ch s runs cache) as [[s' cache'] res] eqn:E.
  apply (allocate_function_runs_spec queue_size im (load_of s) (count_of s)) in E as (_ & _ & H); [|done..]. by rewrite take_ge in H by done.
Qed.

(** C8: a batch respects the limits.  Whatever it returns, a container that holds more
    allocations than [queue_size * max_concurrency] got none in this batch, and a function
    with more containers than the maximum of its pool got no new one; so what is within the
    limits stays within them, and what exceeds them already (an update may lower a maximum)
    does not grow.  The pools and executors are untouched.  The batch starts from a scheduler whose containers are filed under their
    ids and whose reaped ones are idle, draws a fresh container id each time, finds
    request contexts and functions under their own keys; a container can take at least
    one allocation, and capacities and container counts fit the 32-bit counters. *)
Theorem allocation_respects_limits ch s runs cache :
  batch_ok queue_size im ch → batch_start ch s →
  let '(s', _, _) := allocate_function_runs queue_size im ch s runs cache in
  (∀ cid m, cs_function_containers s' !! cid = Some m → Z.of_nat (size (csm_allocations m)) ≤ Z.max (load_of s cid) (capacity queue_size m)) ∧
  (∀ uri p max, get_pool s' (function_pool_key uri) = Some p → cp_max_containers p = Some max →
     total_containers_for_function s' uri ≤ Z.max (count_of s uri) max) ∧
  (cs_function_pools s', cs_sandbox_pools s', cs_executors s') = (cs_function_pools s, cs_sandbox_pools s, cs_executors s).
Proof.
  intros Hok Hi. destruct (allocate_function_runs queue_size im ch s runs cache) as [[s' cache'] res] eqn:E.
  apply (allocate_function_runs_spec queue_size im (load_of s) (count_of s)) in E as ([tick [H1 H2 H3 H4 H5 H6]] & Hp & _); [|done..]. split_and!; [| |done].
  - intros cid m Hm. by apply (H5 cid).
  - intros uri p max Hget Hmax. destruct (H6 uri p max Hget Hmax). rewrite total_exact by lia. lia.
Qed.
End batches.

(** A batch stops at 10,000 runs.  With an executor present, the runs behind the
    10,000th are neither allocated nor recorded as blocked: the result is that of
    the shorter batch. *)
Theorem runs_beyond_cap_ignored `{HO : HashOrder} queue_size im ch s runs cache :
  cs_executors s ≠ ∅ →
  allocate_function_runs queue_size im ch s runs cache = allocate_function_runs queue_size im ch s (take 10000 runs) cache.
Proof.
  intros He. unfold allocate_function_runs. rewrite bool_decide_false by done.
  assert (E : take 10000 (take 10000 runs) = take 10000 runs) by (rewrite take_take; f_equal; apply Nat.min_id). by rewrite E.
Qed.

(** ** Examples *)

Definition run_choices_ex (n : nat) : RunChoice := MkRunChoice ("x" +:+ pretty (N.of_nat n)) (2 ^ 31) 50 ("a" +:+ pretty (N.of_nat n)) 0.
Definition two_runs_ex : list FunctionRun := [function_run_ex "c1" "v1" FRS_Pending; function_run_ex "c2" "v1" FRS_Pending].
Definition two_runs_state_ex : InMemoryState :=
  running_state_ex (request_ex None (<["c1" := function_run_ex "c1" "v1" FRS_Pending]> {["c2" := function_run_ex "c2" "v1" FRS_Pending]})).
Definition batch_ex := @allocate_function_runs canonical_order 1 two_runs_state_ex run_choices_ex idle_scheduler_ex two_runs_ex ∅.

Lemma run_choices_ex_distinct i j : rch_container (run_choices_ex i) = rch_container (run_choices_ex j) → i = j.
Proof. unfold run_choices_ex. simpl. intros [= H]. apply Nat2N.inj. exact (inj pretty _ _ H). Qed.
Lemma batch_ok_ex : batch_ok 1 two_runs_state_ex run_choices_ex.
Proof.
  split.
  - intros r f. unfold get_function, get_existing_application_version, two_runs_state_ex, running_state_ex, serving_ex. simpl.
    intros (v & Hv & Hf)%bind_Some. rewrite insert_empty in Hv. apply lookup_singleton_Some in Hv as [_ <-].
    assert (E : av_functions (to_version deployed_ex) = {["fn"%string := fn_ex "fn" (MkFunctionResources 1000 1024 1024 []) []]}) by reflexivity.
    rewrite E in Hf. apply lookup_singleton_Some in Hf as [<- <-]. split; [done|]. unfold has_room. vm_compute. split; discriminate.
  - intros key ctx. unfold two_runs_state_ex, running_state_ex. simpl. intros [<- <-]%lookup_singleton_Some. reflexivity.
  - apply run_choices_ex_distinct.
Qed.
Lemma alloc_inv_ex : batch_start 1 run_choices_ex idle_scheduler_ex.
Proof.
  assert (E : cs_function_containers idle_scheduler_ex = {["c1"%string := csm_ex 5]}) by reflexivity.
  assert (Er : cs_reaped_containers idle_scheduler_ex = ∅) by reflexivity.
  split.
  - intros cid m. rewrite E. by intros [<- <-]%lookup_singleton_Some.
  - apply idle_scheduler_ex_wf.
  - intros uri l cid m. by rewrite Er.
  - intros n _. rewrite E, Er. split; [|by intros uri l].
    by apply lookup_singleton_ne.
  - intros cid m. rewrite E. intros [<- <-]%lookup_singleton_Some. vm_compute. split; discriminate.
  - intros uri p max. unfold get_pool. by destruct (function_pool_key uri).
Qed.

Lemma no_run_lost_witness :
  is_ok batch_ex.2 = true ∧
  ∃ u, batch_ex.2 = Ok u ∧ Forall (settled two_runs_state_ex batch_ex.1.1 u) two_runs_ex.
Proof.
  pose proof (@no_run_lost canonical_order 1 two_runs_state_ex run_choices_ex idle_scheduler_ex two_runs_ex ∅ batch_ok_ex alloc_inv_ex ltac:(vm_compute; lia)) as H.
  fold batch_ex in H. assert (Ho : is_ok batch_ex.2 = true) by (vm_compute; reflexivity). split; [exact Ho|].
  destruct batch_ex as [[s' cache'] [u|e]]; [|discriminate Ho]. exists u. split; [reflexivity|]. apply Forall_forall. exact H.
Defined.
Lemma allocation_respects_limits_witness :
  ∃ m, cs_function_containers batch_ex.1.1 !! "x1"%string = Some m ∧ Z.of_nat (size (csm_allocations m)) ≤ Z.max (load_of idle_scheduler_ex "x1") (capacity 1 m).
Proof.
  pose proof (@allocation_respects_limits canonical_order 1 two_runs_state_ex run_choices_ex idle_scheduler_ex two_runs_ex ∅ batch_ok_ex alloc_inv_ex) as H.
  fold batch_ex in H. assert (Hs : is_Some (cs_function_containers batch_ex.1.1 !! "x1"%string)).
  { apply (bool_decide_eq_true_1 (is_Some (cs_function_containers batch_ex.1.1 !! "x1"%string))). vm_compute. reflexivity. }
  destruct batch_ex as [[s' cache'] res]. destruct H as (H & _), Hs as [m Hm]. exists m. split; [exact Hm|]. exact (H _ m Hm).
Defined.
(** The second run did not fit beside the first: it has a new container. *)
Example batch_ex_containers :
  (λ m, elements (csm_allocations m)) <$> cs_function_containers batch_ex.1.1 = <["c1" := ["a0"]]> {["x1" := ["a1"]]}.
Proof. vm_compute. reflexivity. Qed.

Lemma runs_beyond_cap_ignored_witness :
  ∃ runs, length runs = 10001%nat ∧
  @allocate_function_runs canonical_order 1 two_runs_state_ex run_choices_ex idle_scheduler_ex runs ∅ =
  @allocate_function_runs canonical_order 1 two_runs_state_ex run_choices_ex idle_scheduler_ex (take 10000 runs) ∅.
Proof.
  exists (replicate 10001 pending_run_ex). split; [apply length_replicate|]. generalize (replicate 10001 pending_run_ex). intros runs.
  apply (@runs_beyond_cap_ignored canonical_order 1 two_runs_state_ex run_choices_ex idle_scheduler_ex runs ∅).
  apply (bool_decide_eq_false_1 (cs_executors idle_scheduler_ex = ∅)). vm_compute. reflexivity.
Defined.

(** The container that is idle since instant 5 runs one allocation, which finishes
    at instant 90. *)
Definition finished_event_ex : AllocationOutputIngestedEvent :=
  MkAllocationOutputIngestedEvent "ns" "app" "fn" "r1" "c1" None None None "a0" (MkAllocationTarget "e1" "c1") FRO_Success None.
Definition used_ex : ContainerScheduler :=
  let s := (@allocate_function_runs canonical_order 1 two_runs_state_ex run_choices_ex idle_scheduler_ex [pending_run_ex] ∅).1.1 in
  (@release_allocation canonical_order s finished_event_ex 90).1.

(** A container that served an allocation can be reaped long before it has been
    idle for the threshold.  [create_allocation] clears [idle_since] in the table
    without removing the container's entry from the idle set, and nothing removes
    that entry later: after the allocation finished at instant 90 the set has both
    entries, and at instant 100 the vacuum with a threshold of 60 terminates the
    container. *)
Theorem stale_idle_entry_reaps_early :
  elements (cs_idle_containers idle_scheduler_ex) = [(5, "c1"%string)] ∧
  sorted_elements (cs_idle_containers used_ex) = [(5, "c1"%string); (90, "c1"%string)] ∧
  csm_idle_since <$> cs_function_containers used_ex !! "c1"%string = Some (Some 90) ∧
  live <$> cs_function_containers used_ex !! "c1"%string = Some true ∧
  live <$> cs_function_containers (@reap_idle_containers canonical_order used_ex 60 100).1 !! "c1"%string = Some false.
Proof. split_and!; vm_compute; reflexivity. Qed.
