(* ===== verification/SchedulerSteps.v ===== *)
(** * The scheduler as a transition system

    The operations the processors perform on the [ContainerScheduler], in any order, and the
    invariant they keep.  Two of them are not operations of [container_scheduler.rs]: the
    end of [create_allocation] ([function_run_processor.rs]) and the beginning of
    [handle_allocation_ingestion] ([function_run_creator.rs]) write to the table of
    containers directly. *)
From S2P Require Import Prelude DataModel Resources Updates InMemoryState Blocked SchedulerState Placement ContainerScheduler SchedulerUpdates BufferReconciler FunctionRuns FunctionAllocator.

Section steps.
Context `{HO : HashOrder} `{II : IdleIndex}.


(** ** Writing to the table *)







End steps.


