(* ===== verification/SandboxProcessor.v ===== *)
(** * Sandboxes

    [SandboxProcessor] of [sandbox_processor.rs]: giving a pending sandbox a
    container, from its pool or a new one, terminating a sandbox, and failing the
    snapshots of an executor that went away.

    The random placement threshold and the clock are a [SandboxChoice].  The
    [expect] of [allocate_sandbox] is the outer [None]. *)
From S2P Require Import Prelude DataModel Resources Updates InMemoryState Blocked SchedulerState Placement ContainerScheduler SchedulerUpdates BufferReconciler.

(** ** Definitions *)

Record SandboxChoice := MkSandboxChoice {
  sch_random : Z;
  sch_now : Instant;
}.

(** [Sandbox::has_scheduled]. *)
Definition has_scheduled (sb : Sandbox) : bool := bool_decide (sb_container_id sb ≠ None).
(** [Running | Pending { .. }]. *)
Definition sandbox_active (st : SandboxStatus) : bool :=
  match st with SS_Running | SS_Pending _ => true | _ => false end.
(** The workload of a sandbox, as the placement sees it. *)
Definition sandbox_workload (sb : Sandbox) : Workload := MkWorkload (WK_Sandbox (sb_namespace sb)) (sb_namespace sb) "" None.

(** [set_pending_reason]. *)
Definition set_pending_reason (u : SchedulerUpdateRequest) (sb : Sandbox) (reason : SandboxPendingReason) : SchedulerUpdateRequest :=
  let pending_sandbox := sb <| sb_status := SS_Pending reason |> in
  u <| su_updated_sandboxes ::= <[sandbox_key pending_sandbox := pending_sandbox]> |>.

Section processor.
Context `{HO : HashOrder}.

(** [record_blocked_sandbox]. *)
Definition record_blocked_sandbox (s : ContainerScheduler) (cache : FeasibilityCache) (sb : Sandbox)
    : ContainerScheduler * FeasibilityCache :=
  let '(cache1, eligible) :=
    match cs_last_placement s with
    | Some p => (cache, pr_eligible_classes p)
    | None => compute_eligible_classes s cache (sandbox_workload sb)
    end in
  (s <| cs_last_placement := None |>
     <| cs_blocked_work ::= λ t, block_sandbox t (sandbox_key sb)
          (MkBlockingInfo eligible (bool_decide (eligible = ∅)) (cres_memory_mb (sb_resources sb))) |>, cache1).

(** [try_claim_from_pool]. *)
Definition try_claim_from_pool (s : ContainerScheduler) (sb : Sandbox) (key : ContainerPoolKey)
    : ContainerScheduler * option SchedulerUpdateRequest :=
  match claim_pool_container s key (sb_id sb) (sb_timeout_secs sb) with
  | (s1, None) => (s1, None)
  | (s1, Some (cid, eid, cu)) =>
      let u := extend empty_update cu in
      let container_state := from_option (λ m, ctr_state (csm_function_container m)) CS_Unknown (cs_function_containers s1 !! cid) in
      let status := match container_state with
                    | CS_Running => SS_Running
                    | _ => SS_Pending SPR_WaitingForContainer
                    end in
      let sb' := sb <| sb_status := status |> <| sb_executor_id := Some eid |> <| sb_container_id := Some cid |> in
      (s1 <| cs_blocked_work ::= λ t, remove_sandbox t (sandbox_key sb) |>,
       Some (u <| su_updated_sandboxes ::= <[sandbox_key sb' := sb']> |>))
  end.

(** The pool has no room for another container. *)
Definition pool_at_capacity (s : ContainerScheduler) (key : ContainerPoolKey) : bool :=
  match get_pool s key with
  | Some pool =>
      let '(claimed, warm) := count_pool_containers s key in
      let current := wrap32 (claimed + warm) in
      match cp_max_containers pool with Some max => bool_decide (max ≤ current) | None => false end
  | None => false
  end.

(** The last part of [allocate_sandbox]: a container of its own. *)
Definition allocate_on_demand (im : InMemoryState) (s : ContainerScheduler) (sb : Sandbox) (cache : FeasibilityCache) (c : SandboxChoice)
    : option (ContainerScheduler * FeasibilityCache * result SchedulerError (SchedulerUpdateRequest * bool)) :=
  let snapshot_uri := sb_snapshot_id sb ≫= λ id, im_snapshots im !! snapshot_key_new (sb_namespace sb) id ≫= snap_uri in
  match create_container_for_sandbox s sb snapshot_uri cache (sch_random c) (sch_now c) with
  | (s1, cache1, Ok (Some cu)) =>
      m ← head (List.filter (λ m, negb (is_terminated (csm_desired_state m))) (map_iter (su_containers cu)).*2);
      let sb' := sb <| sb_executor_id := Some (csm_executor_id m) |>
                    <| sb_container_id := Some (ctr_id (csm_function_container m)) |>
                    <| sb_status := SS_Pending SPR_WaitingForContainer |> in
      let u := empty_update <| su_updated_sandboxes ::= <[sandbox_key sb' := sb']> |> in
      let s2 := apply_container_update s1 cu in
      Some (s2 <| cs_blocked_work ::= λ t, remove_sandbox t (sandbox_key sb) |>, cache1, Ok (extend u cu, false))
  | (s1, cache1, Ok None) =>
      let reason := if has_executors s1 then SPR_NoResourcesAvailable else SPR_NoExecutorsAvailable in
      let u := set_pending_reason empty_update sb reason in
      let '(s2, cache2) := record_blocked_sandbox s1 cache1 sb in
      Some (s2, cache2, Ok (u, true))
  | (s1, cache1, Err (ConstraintUnsatisfiable _ _ _)) =>
      let failed := sb <| sb_status := SS_Terminated |> <| sb_outcome := Some (SO_Failure SFR_ConstraintUnsatisfiable) |> in
      Some (s1, cache1, Ok (empty_update <| su_updated_sandboxes ::= <[sandbox_key failed := failed]> |>, false))
  | (s1, cache1, Err e) => Some (s1, cache1, Err e)
  end.

(** [allocate_sandbox]. *)
Definition allocate_sandbox (im : InMemoryState) (s : ContainerScheduler) (sb : Sandbox) (cache : FeasibilityCache) (c : SandboxChoice)
    : option (ContainerScheduler * FeasibilityCache * result SchedulerError (SchedulerUpdateRequest * bool)) :=
  if negb (sandbox_is_pending (sb_status sb)) then Some (s, cache, Ok (empty_update, false))
  else if has_scheduled sb then Some (s, cache, Ok (empty_update, false))
  else
    match sb_pool_id sb with
    | None => allocate_on_demand im s sb cache c
    | Some pool_id =>
        let key := MkContainerPoolKey (sb_namespace sb) pool_id in
        match try_claim_from_pool s sb key with
        | (s1, Some u) => Some (s1, cache, Ok (u, false))
        | (s1, None) =>
            if pool_at_capacity s1 key then
              let u := set_pending_reason empty_update sb SPR_PoolAtCapacity in
              let '(s2, cache1) := record_blocked_sandbox (s1 <| cs_last_placement := None |>) cache sb in
              Some (s2, cache1, Ok (u, false))
            else allocate_on_demand im s1 sb cache c
        end
    end.

(** [allocate_sandbox_by_key]. *)
Definition allocate_sandbox_by_key (im : InMemoryState) (s : ContainerScheduler) (ns id : string) (cache : FeasibilityCache) (c : SandboxChoice)
    : option (ContainerScheduler * FeasibilityCache * result SchedulerError SchedulerUpdateRequest) :=
  match im_sandboxes im !! sandbox_key_new ns id with
  | None => Some (s, cache, Ok empty_update)
  | Some sb => '(s', cache', res) ← allocate_sandbox im s sb cache c;
               Some (s', cache', match res with Ok (u, _) => Ok u | Err e => Err e end)
  end.

(** [terminate_sandbox]; the [Result] of [terminate_container] is never an error. *)
Definition terminate_sandbox (im : InMemoryState) (s : ContainerScheduler) (ns id : string)
    : ContainerScheduler * SchedulerUpdateRequest :=
  let key := sandbox_key_new ns id in
  match im_sandboxes im !! key with
  | None => (s, empty_update)
  | Some sb =>
      let '(s1, u) :=
        if sandbox_active (sb_status sb) then
          match sb_container_id sb with
          | Some cid => match terminate_container s cid with
                        | (s1, Some cu) => (s1, extend empty_update cu)
                        | (s1, None) => (s1, empty_update)
                        end
          | None => (s, empty_update)
          end
        else (s, empty_update) in
      let terminated := sb <| sb_status := SS_Terminated |> <| sb_outcome := Some (SO_Success SSR_UserTerminated) |> in
      (s1 <| cs_blocked_work ::= λ t, remove_sandbox t key |>, u <| su_updated_sandboxes ::= <[key := terminated]> |>)
  end.

(** [fail_in_progress_snapshots_for_executor], one snapshot. *)
Definition fail_snapshot (im : InMemoryState) (eid : ExecutorId) (error : string) (u : SchedulerUpdateRequest) (snap : Snapshot)
    : SchedulerUpdateRequest :=
  match snap_status snap with
  | SnapInProgress =>
      let key := sandbox_key_new (snap_namespace snap) (snap_sandbox_id snap) in
      match im_sandboxes im !! key with
      | None => u
      | Some sb =>
          if bool_decide (sb_executor_id sb = Some eid) then
            let failed := snap <| snap_status := SnapFailed error |> in
            u <| su_updated_snapshots ::= <[snapshot_key failed := failed]> |>
              <| su_updated_sandboxes ::= <[key := sb <| sb_status := SS_Terminated |>]> |>
          else u
      end
  | _ => u
  end.
Definition fail_in_progress_snapshots_for_executor (im : InMemoryState) (eid : ExecutorId) (error : string) : SchedulerUpdateRequest :=
  foldl (fail_snapshot im eid error) empty_update (ord_iter (im_snapshots im)).*2.
End processor.

(** ** Giving a sandbox a container *)

Definition sandbox_blocked (s : ContainerScheduler) (key : SandboxKey) : Prop :=
  is_Some (bs_blocked (bw_sandboxes (cs_blocked_work s)) !! key).

(** The sandbox has a live container of its own: the table, the update and the
    sandbox agree on it, and the sandbox is no longer recorded as blocked. *)
Definition sandbox_placed (s : ContainerScheduler) (u : SchedulerUpdateRequest) (sb : Sandbox) : Prop :=
  ∃ cid m sb', su_updated_sandboxes u = {[sandbox_key sb := sb']} ∧ su_containers u = {[cid := m]} ∧
    cs_function_containers s !! cid = Some m ∧ live m = true ∧ ctr_sandbox_id (csm_function_container m) = Some (sb_id sb) ∧
    sb_container_id sb' = Some cid ∧ sb_executor_id sb' = Some (csm_executor_id m) ∧
    sb_status sb' = (match ctr_state (csm_function_container m) with CS_Running => SS_Running | _ => SS_Pending SPR_WaitingForContainer end) ∧
    ¬ sandbox_blocked s (sandbox_key sb).
(** The sandbox waits for the reason given, recorded as blocked; no container was
    touched. *)
Definition sandbox_waits (s s' : ContainerScheduler) (u : SchedulerUpdateRequest) (sb : Sandbox) (reason : SandboxPendingReason) : Prop :=
  su_updated_sandboxes u = {[sandbox_key sb := sb <| sb_status := SS_Pending reason |>]} ∧ su_containers u = ∅ ∧
  cs_function_containers s' = cs_function_containers s ∧ sandbox_blocked s' (sandbox_key sb).

(** The container of a sandbox has the sandbox's id, which is not taken. *)
Record sandbox_fresh (s : ContainerScheduler) (sb : Sandbox) : Prop := MkSandboxFresh {
  sf_table : cs_function_containers s !! sb_id sb = None;
  sf_reaped : ∀ uri l, cs_reaped_containers s !! uri = Some l → sb_id sb ∉ l;
}.

Section theorems.
Context `{HO : HashOrder}.

Lemma sandbox_removed t key : bs_blocked (bw_sandboxes (remove_sandbox t key)) !! key = None.
Proof.
  unfold remove_sandbox, side_remove, side_drop, side_remove_from_indexes. cbn.
  destruct (bs_blocked (bw_sandboxes t) !! key); cbn; by rewrite lookup_delete_eq.
Qed.
Lemma sandbox_recorded t key info : is_Some (bs_blocked (bw_sandboxes (block_sandbox t key info)) !! key).
Proof. unfold block_sandbox, side_block. cbn. by rewrite lookup_insert_eq. Qed.


Lemma record_blocked_spec s cache sb :
  let '(s', cache') := record_blocked_sandbox s cache sb in
  (scheduler_wf s → scheduler_wf s') ∧ cs_function_containers s' = cs_function_containers s ∧ cs_containers_by_pool s' = cs_containers_by_pool s ∧
  (scheduler_wf s → cache_sound (sandbox_workload sb) cache → cache_sound (sandbox_workload sb) cache') ∧
  sandbox_blocked s' (sandbox_key sb).
Proof.
  unfold record_blocked_sandbox.
  assert (Hc : scheduler_wf s → cache_sound (sandbox_workload sb) cache → cache_sound (sandbox_workload sb) (compute_eligible_classes s cache (sandbox_workload sb)).1)
    by (intros Hs Hc; by apply compute_eligible_classes_sound; [apply wf_classes|]).
  destruct (cs_last_placement s) as [p|]; [|destruct (compute_eligible_classes s cache (sandbox_workload sb)) as [cache1 el]];
    (split_and!; [by apply scheduler_wf_view|exact eq_refl|exact eq_refl|done|apply sandbox_recorded]).
Qed.

Lemma create_container_sandboxes s ns app f res c ty cache rnd now u :
  (create_container s ns app f res c ty cache rnd now).2 = Ok (Some u) → su_updated_sandboxes u = ∅.
Proof.
  unfold create_container. destruct (select_executor _ _ _ _ _ _) as [cache' pl]. destruct (pr_executor_id pl) as [id|]; [|done].
  destruct (cs_executor_states _ !! id) as [st|] eqn:E; [|done]. unfold register_container. rewrite E.
  destruct (add_container st c) as [st' [[]|e]]; [|done]. by intros [= <-].
Qed.

(** What [allocate_on_demand] does, with the size of every pool. *)
Lemma allocate_on_demand_spec im s sb cache c :
  scheduler_wf s → cache_sound (sandbox_workload sb) cache → mb_to_bytes (cres_memory_mb (sb_resources sb)) ≤ sch_random c → sandbox_fresh s sb →
  ∃ s' cache' u exhausted, allocate_on_demand im s sb cache c = Some (s', cache', Ok (u, exhausted)) ∧
    scheduler_wf s' ∧ cache_sound (sandbox_workload sb) cache' ∧
    ((exhausted = false ∧ sandbox_placed s' u sb ∧
      ∀ k, pool_size s' k ≤ pool_size s k + if bool_decide (Some k = MkContainerPoolKey (sb_namespace sb) <$> sb_pool_id sb) then 1 else 0) ∨
     (exhausted = true ∧ (∃ reason, reason ≠ SPR_PoolAtCapacity ∧ reason ≠ SPR_WaitingForContainer ∧ sandbox_waits s s' u sb reason) ∧
      ∀ k, pool_size s' k = pool_size s k)).
Proof.
  intros Hs Hc Hr [Hf1 Hf2]. unfold allocate_on_demand. set (uri := _ ≫= _). clearbody uri. unfold create_container_for_sandbox.
  set (ctr := MkContainer _ _ _ _ _ _ _ _ _ _ _ _ _ _ _ _ _ _ _).
  pose proof (create_container_spec s (sb_namespace sb) "" None ctr CT_Sandbox cache (sch_random c) (sch_now c) Hs Hc Hr) as H1.
  pose proof (create_container_cases s (sb_namespace sb) "" None (function_resources_of (sb_resources sb)) ctr CT_Sandbox cache (sch_random c) (sch_now c)) as H2.
  pose proof (create_container_sandboxes s (sb_namespace sb) "" None (function_resources_of (sb_resources sb)) ctr CT_Sandbox cache (sch_random c) (sch_now c)) as H3.
  change (function_resources_of (ctr_resources ctr)) with (function_resources_of (sb_resources sb)) in H1.
  destruct (create_container _ _ _ _ _ _ _ _ _ _) as [[s1 cache1] r]. destruct H1 as (Hw1 & Hc1 & o & -> & Ho). destruct H2 as (F1 & F2 & F3).
  unfold creation_frame, index_view in F1. injection F1 as I1 I2 I3 I4 I5 _ _ _. destruct o as [cu|].
  - destruct (F3 cu eq_refl) as (id & st & Hcu). pose proof Hcu as (E1 & _ & _). rewrite E1, map_iter_singleton.
    cbn [fmap list_fmap snd List.filter csm_desired_state is_terminated negb head mbind option_bind].
    set (m := MkContainerServerMetadata id ctr CS_Running CT_Sandbox ∅ (Some (sch_now c))) in *.
    assert (Hok : update_ok s1 cu).
    { intros cid meta. rewrite E1. intros [<- <-]%lookup_singleton_Some. split.
      - intros old. rewrite I1. unfold ctr. cbn. congruence.
      - intros u l. rewrite F2. intros Hl Hin. by destruct (Hf2 u l Hl). }
    pose proof (apply_container_update_sched_wf s1 cu Hok Hw1) as Hw2.
    destruct (update_container_indices_fields s1 (ctr_id ctr) m) as (U1 & _ & U3 & _).
    rewrite (apply_creation_update _ _ _ _ _ _ Hcu) in *.
    pose proof (set_executor_state_view (update_container_indices s1 (ctr_id ctr) m) id st) as Hv.
    set (s2 := set_executor_state (update_container_indices s1 (ctr_id ctr) m) id st) in *. clearbody s2.
    pose proof (f_equal (λ v, v.1.1.1.1) Hv : cs_function_containers s2 = cs_function_containers (update_container_indices s1 (ctr_id ctr) m)) as V1.
    pose proof (f_equal (λ v, v.1.1.2) Hv : cs_containers_by_pool s2 = cs_containers_by_pool (update_container_indices s1 (ctr_id ctr) m)) as V3.
    eexists _, cache1, _, false. split; [reflexivity|]. split; [by apply (scheduler_wf_view s2)|]. split; [done|]. left. split; [done|]. split.
    + set (sb' := sb <| sb_executor_id := Some id |> <| sb_container_id := Some (ctr_id ctr) |> <| sb_status := SS_Pending SPR_WaitingForContainer |>).
      exists (ctr_id ctr), m, sb'. split.
      { change (su_updated_sandboxes cu ∪ {[sandbox_key sb := sb']} = {[sandbox_key sb := sb']}). by rewrite (H3 cu eq_refl), (left_id_L ∅ (∪)). }
      split; [exact (eq_trans (right_id_L ∅ (∪) _) E1)|].
      split; [change (cs_function_containers s2 !! ctr_id ctr = Some m); by rewrite V1, U1, lookup_insert_eq|].
      split_and!; [done..|]. unfold sandbox_blocked. change (cs_blocked_work _) with (remove_sandbox (cs_blocked_work s2) (sandbox_key sb)).
      rewrite sandbox_removed. by intros [? ?].
    + intros k. change (pool_size s2 k ≤ pool_size s k + if bool_decide (Some k = MkContainerPoolKey (sb_namespace sb) <$> sb_pool_id sb) then 1 else 0).
      unfold pool_size. rewrite V3, U3, I3. change (pool_key_of m) with (MkContainerPoolKey (sb_namespace sb) <$> sb_pool_id sb).
      destruct (MkContainerPoolKey (sb_namespace sb) <$> sb_pool_id sb) as [pk|]; [|rewrite bool_decide_false by done; lia].
      change (live m) with true. cbv iota. rewrite idx_get_insert. case_decide as Hk.
      * subst. rewrite bool_decide_true by done. pose proof (size_insert_elem (ctr_id ctr) (idx_get (cs_containers_by_pool s) k)). case_decide; lia.
      * rewrite bool_decide_false by congruence. lia.
  - set (reason := if has_executors s1 then _ else _). set (u := set_pending_reason empty_update sb reason).
    pose proof (record_blocked_spec s1 cache1 sb) as Hb. destruct (record_blocked_sandbox s1 cache1 sb) as [s2 cache2].
    destruct Hb as (B1 & B2 & B3 & B4 & B5). exists s2, cache2, u, true. split; [done|]. split; [by apply B1|]. split; [by apply B4|]. right.
    split; [done|]. split.
    + exists reason. split; [unfold reason; by destruct (has_executors s1)|]. split; [unfold reason; by destruct (has_executors s1)|].
      split; [exact (insert_empty _ _)|]. split; [exact eq_refl|]. split; [congruence|done].
    + intros k. unfold pool_size. by rewrite B3, I3.
Qed.

Lemma try_claim_spec s sb key :
  scheduler_wf s →
  match try_claim_from_pool s sb key with
  | (s', Some u) => scheduler_wf s' ∧ sandbox_placed s' u sb ∧ ∀ k, pool_size s' k = pool_size s k
  | (s', None) => s' = s
  end.
Proof.
  intros Hs. unfold try_claim_from_pool. pose proof (claim_pool_container_sched_wf s key (sb_id sb) (sb_timeout_secs sb) Hs) as Hw.
  destruct (claim_pool_container s key (sb_id sb) (sb_timeout_secs sb)) as [s1 [[[cid eid] cu]|]] eqn:E; simpl in Hw.
  2:{ unfold claim_pool_container in E. by repeat break_match_in E; simplify_eq. }
  destruct (claim_pool_container_spec s key (sb_id sb) (sb_timeout_secs sb) s1 cid eid cu (wf_indices s Hs) E) as (m & Hm & Hl & Hpk & Hwm & -> & Ht & _ & Hp & _ & _ & ->).
  set (m' := m <| csm_function_container ::= _ |>) in *. rewrite Ht, lookup_insert_eq. cbn [from_option].
  set (sb' := sb <| sb_status := _ |> <| sb_executor_id := _ |> <| sb_container_id := _ |>).
  split; [by apply (scheduler_wf_view s1)|]. split.
  - exists cid, m', sb'. split; [exact eq_refl|]. split; [exact (right_id_L ∅ (∪) _)|].
    split; [change (cs_function_containers s1 !! cid = Some m'); by rewrite Ht, lookup_insert_eq|].
    split_and!; [exact Hl|exact eq_refl|exact eq_refl|exact eq_refl|exact eq_refl|].
    unfold sandbox_blocked. change (cs_blocked_work _) with (remove_sandbox (cs_blocked_work s1) (sandbox_key sb)).
    rewrite sandbox_removed. by intros [? ?].
  - intros k. change (pool_size s1 k = pool_size s k). unfold pool_size. by rewrite Hp.
Qed.

(** The sizes of the pools stay within their maxima. *)
Definition pool_within (s : ContainerScheduler) (k : ContainerPoolKey) : Prop :=
  ∀ p max, get_pool s k = Some p → cp_max_containers p = Some max → pool_size s k ≤ max ≤ u32_max.

Lemma pool_at_capacity_false s key p max :
  scheduler_wf s → get_pool s key = Some p → cp_max_containers p = Some max → pool_size s key ≤ max ≤ u32_max →
  pool_at_capacity s key = false → pool_size s key < max.
Proof.
  intros Hs Hp Hm Hle. unfold pool_at_capacity. rewrite Hp, Hm.
  destruct (pool_index_size s key (wf_indices s Hs)) as [Ep _].
  destruct (pool_counts s key (wf_indices s Hs)) as (Hc & cl & wm & -> & _ & Hsum & _); [rewrite <-Ep; unfold pool_size, u32_max in *; lia|].
  rewrite Hsum, Hc, <-Ep. fold (pool_size s key). rewrite wrap32_id by (unfold in_u32, pool_size, u32_max in *; lia).
  rewrite bool_decide_eq_false. lia.
Qed.

(** What an allocation does to a pending sandbox without a container. *)
Definition sandbox_outcome (s s' : ContainerScheduler) (u : SchedulerUpdateRequest) (sb : Sandbox) (exhausted : bool) : Prop :=
  (exhausted = false ∧ sandbox_placed s' u sb) ∨
  ∃ reason, reason ≠ SPR_WaitingForContainer ∧ sandbox_waits s s' u sb reason ∧ (exhausted = false ↔ reason = SPR_PoolAtCapacity).

Lemma allocate_sandbox_spec im s sb cache c :
  scheduler_wf s → cache_sound (sandbox_workload sb) cache → mb_to_bytes (cres_memory_mb (sb_resources sb)) ≤ sch_random c → sandbox_fresh s sb →
  sandbox_is_pending (sb_status sb) = true → has_scheduled sb = false →
  ∃ s' cache' u exhausted, allocate_sandbox im s sb cache c = Some (s', cache', Ok (u, exhausted)) ∧
    scheduler_wf s' ∧ cache_sound (sandbox_workload sb) cache' ∧ sandbox_outcome s s' u sb exhausted ∧
    (∀ k, pool_within s k → ∀ p max, get_pool s k = Some p → cp_max_containers p = Some max → pool_size s' k ≤ max).
Proof.
  intros Hs Hc Hr Hf Hpend Hsch. unfold allocate_sandbox. rewrite Hpend, Hsch. cbn [negb].
  assert (Hod : (∀ k, Some k = MkContainerPoolKey (sb_namespace sb) <$> sb_pool_id sb → pool_at_capacity s k = false) →
    ∃ s' cache' u exhausted, allocate_on_demand im s sb cache c = Some (s', cache', Ok (u, exhausted)) ∧
    scheduler_wf s' ∧ cache_sound (sandbox_workload sb) cache' ∧ sandbox_outcome s s' u sb exhausted ∧
    (∀ k, pool_within s k → ∀ p max, get_pool s k = Some p → cp_max_containers p = Some max → pool_size s' k ≤ max)).
  { intros Hcap. destruct (allocate_on_demand_spec im s sb cache c Hs Hc Hr Hf) as (s' & cache' & u & ex & E & Hw & Hc' & Ho).
    exists s', cache', u, ex. split; [done|]. split; [done|]. split; [done|]. destruct Ho as [(-> & Hpl & Hsz)|(-> & (reason & H1 & H2 & H3) & Hsz)].
    - split; [by left|]. intros k Hk p max Hp Hm. specialize (Hsz k). destruct (Hk p max Hp Hm) as [Hle Hu]. case_bool_decide as Hb; [|lia].
      pose proof (pool_at_capacity_false s k p max Hs Hp Hm (conj Hle Hu) (Hcap k Hb)). lia.
    - split; [right; exists reason; naive_solver|]. intros k Hk p max Hp Hm. rewrite Hsz. by apply (Hk p max). }
  destruct (sb_pool_id sb) as [pid|] eqn:Epid; [|apply Hod; done].
  set (key := MkContainerPoolKey (sb_namespace sb) pid) in *. pose proof (try_claim_spec s sb key Hs) as Hcl.
  destruct (try_claim_from_pool s sb key) as [s1 [u|]].
  - destruct Hcl as (Hw & Hpl & Hsz). exists s1, cache, u, false. split; [done|]. split; [done|]. split; [done|]. split; [by left|].
    intros k Hk p max Hp Hm. rewrite Hsz. by apply (Hk p max).
  - subst s1. destruct (pool_at_capacity s key) eqn:Ecap; [|apply Hod; simpl; by intros k [= ->]].
    set (s0 := s <| cs_last_placement := None |>). assert (Hs0 : scheduler_wf s0) by (by apply (scheduler_wf_view s)).
    pose proof (record_blocked_spec s0 cache sb) as Hb. destruct (record_blocked_sandbox s0 cache sb) as [s2 cache2].
    destruct Hb as (B1 & B2 & B3 & B4 & B5). eexists s2, cache2, _, false. split; [done|]. split; [by apply B1|]. split; [by apply B4|]. split.
    + right. exists SPR_PoolAtCapacity. split; [done|]. split; [|done]. split; [exact (insert_empty _ _)|]. split; [exact eq_refl|]. split; [exact B2|done].
    + intros k Hk p max Hp Hm. unfold pool_size. rewrite B3. by apply (Hk p max).
Qed.

(** ** The sandbox table after an update *)

Definition sandbox_after (o : option Sandbox) (new : option Sandbox) : option Sandbox :=
  match new with
  | Some sb => match sb_status sb with SS_Terminated => None | _ => Some sb end
  | None => o
  end.

Lemma index_sandboxes im key sb : im_sandboxes (index_executor (index_container im key sb) key sb) = im_sandboxes im.
Proof. unfold index_executor, index_container. by destruct (sb_executor_id sb), (sb_container_id sb). Qed.
Lemma remove_pending_sandboxes im key : im_sandboxes (remove_pending_sandbox im key) = im_sandboxes im.
Proof. unfold remove_pending_sandbox. cbv zeta. by destruct (im_pending_sandbox_profile _ !! key). Qed.
Lemma track_sandbox_table im key sb k :
  im_sandboxes (track_sandbox im key sb) !! k = if decide (k = key) then sandbox_after None (Some sb) else im_sandboxes im !! k.
Proof.
  unfold track_sandbox. destruct (sb_status sb) eqn:Es; cbn [sandbox_after]; rewrite ?Es.
  - rewrite index_sandboxes. match goal with |- context [im_sandboxes ?x] => set (im2 := x) end. assert (E : im_sandboxes im2 = <[key := sb]> (im_sandboxes im)).
    { unfold im2. destruct (_ && _); [by rewrite remove_pending_sandboxes|]. by destruct (_ && _). }
    rewrite E. case_decide; [subst; by rewrite lookup_insert_eq|by rewrite lookup_insert_ne].
  - case_bool_decide; [rewrite index_sandboxes, remove_pending_sandboxes|];
      (change (<[key := sb]> (im_sandboxes im) !! k = if decide (k = key) then Some sb else im_sandboxes im !! k); case_decide; [subst; by rewrite lookup_insert_eq|by rewrite lookup_insert_ne]).
  - unfold forget_sandbox. set (im1 := if bool_decide (key ∈ im_pending_sandboxes im) then remove_pending_sandbox im key else im).
    assert (E : im_sandboxes im1 = im_sandboxes im) by (unfold im1; case_bool_decide; [apply remove_pending_sandboxes|done]).
    match goal with |- context [im_sandboxes (?x <| im_sandboxes ::= delete key |>)] => set (im4 := x) end.
    assert (E4 : im_sandboxes im4 = im_sandboxes im).
    { rewrite <-E. unfold im4. destruct (im_sandboxes im !! key) as [o|]; simpl; [|done]. by destruct (sb_executor_id o), (sb_container_id o). }
    change (delete key (im_sandboxes im4) !! k = if decide (k = key) then None else im_sandboxes im !! k). rewrite E4.
    case_decide; [subst; by rewrite lookup_delete_eq|by rewrite lookup_delete_ne].
  - change (<[key := sb]> (im_sandboxes im) !! k = if decide (k = key) then Some sb else im_sandboxes im !! k).
    case_decide; [subst; by rewrite lookup_insert_eq|by rewrite lookup_insert_ne].
Qed.

Lemma track_sandboxes_table l : ∀ im k,
  NoDup l.*1 → im_sandboxes (foldl (λ im kv, track_sandbox im kv.1 kv.2) im l) !! k =
    match list_find (λ kv, kv.1 = k) l with Some (_, kv) => sandbox_after None (Some kv.2) | None => im_sandboxes im !! k end.
Proof.
  induction l as [|[key sb] l IH]; intros im k Hnd; [done|]. apply NoDup_cons in Hnd as [Hn Hnd]. cbn [foldl fst snd]. rewrite (IH _ k Hnd), track_sandbox_table.
  cbn [list_find]. cbn [fst]. destruct (decide (key = k)) as [->|Hne].
  - destruct (list_find (λ kv, kv.1 = k) l) as [[i [k' sb']]|] eqn:E; [|by rewrite decide_True].
    apply list_find_Some in E as (Hi & Hk & _). simpl in Hk. subst. destruct Hn. apply list_elem_of_fmap. exists (k, sb'). split; [done|].
    by eapply list_elem_of_lookup_2.
  - rewrite decide_False by congruence. by destruct (list_find (λ kv, kv.1 = k) l) as [[i kv]|].
Qed.

(** Every update leaves exactly the sandboxes it says. *)
Lemma apply_update_sandboxes im clock u k :
  im_sandboxes (apply_scheduler_update im clock u).1 !! k = sandbox_after (im_sandboxes im !! k) (su_updated_sandboxes u !! k).
Proof.
  unfold apply_scheduler_update, apply_scheduler_update_inner. set (im0 := im <| im_clock := clock |>).
  set (im2 := foldl track_request _ _). set (ch1 := foldl _ ∅ _).
  assert (E2 : im_sandboxes im2 = im_sandboxes im).
  { unfold im2. apply (foldl_ind (λ a, im_sandboxes a = im_sandboxes im)).
    - apply (foldl_ind (λ a, im_sandboxes a = im_sandboxes im)); [done|]. intros a r _ <-. destruct (track_run_fields a r) as (_ & _ & _ & Hv & _). exact (f_equal (λ v, v.1.1.1.1) Hv).
    - intros a [key ctx] _ <-. unfold track_request. destruct (rc_outcome ctx); [exact (f_equal (λ v, v.1.1.1.1) (delete_request_sandbox_view a _ _ _))|done]. }
  assert (E3 : im_sandboxes (foldl track_allocation (im2, ch1) (su_new_allocations u)).1 = im_sandboxes im).
  { apply (foldl_ind (λ a : InMemoryState * gset ExecutorId, im_sandboxes a.1 = im_sandboxes im)); [done|]. intros [a x] al _ <-. simpl.
    by destruct (im_function_runs a !! allocation_run_key al). }
  destruct (foldl track_allocation (im2, ch1) (su_new_allocations u)) as [im3 ch2]. cbn [fst] in E3. cbv zeta.
  set (im4 := im3 <| im_allocations_by_executor ::= _ |>). set (im5 := foldl _ im4 _).
  assert (E5 : im_sandboxes im5 !! k = sandbox_after (im_sandboxes im !! k) (su_updated_sandboxes u !! k)).
  { unfold im5. rewrite track_sandboxes_table by apply NoDup_map_iter_fst. change (im_sandboxes im4) with (im_sandboxes im3). rewrite E3.
    destruct (list_find (λ kv, kv.1 = k) (map_iter (su_updated_sandboxes u))) as [[i [k' sb]]|] eqn:E.
    - apply list_find_Some in E as (Hi & Hk & _). simpl in Hk. subst k'. apply list_elem_of_lookup_2, elem_of_map_iter in Hi. by rewrite Hi.
    - destruct (su_updated_sandboxes u !! k) as [sb|] eqn:Es; [|done]. apply list_find_None in E. apply elem_of_map_iter in Es.
      rewrite Forall_forall in E. by destruct (E _ Es). }
  rewrite <-E5. clearbody im5. by destruct (su_function_pool_deficits u), (su_sandbox_pool_deficits u).
Qed.

(** ** Claims *)

(** C37: allocating a pending sandbox always returns, and settles it: either it has a
    live container that names it and it is no longer blocked, or it waits for a
    stated reason, is recorded as blocked, and no container was touched; the
    allocation is exhausted exactly when it waits for anything but its pool.  The
    indexes stay consistent and no pool grows beyond its maximum. *)
Theorem sandbox_allocation_settles im s sb cache c :
  scheduler_wf s → cache_sound (sandbox_workload sb) cache → mb_to_bytes (cres_memory_mb (sb_resources sb)) ≤ sch_random c → sandbox_fresh s sb →
  sandbox_is_pending (sb_status sb) = true → has_scheduled sb = false →
  ∃ s' cache' u exhausted, allocate_sandbox im s sb cache c = Some (s', cache', Ok (u, exhausted)) ∧
    scheduler_wf s' ∧ cache_sound (sandbox_workload sb) cache' ∧ sandbox_outcome s s' u sb exhausted ∧
    (∀ k, pool_within s k → ∀ p max, get_pool s k = Some p → cp_max_containers p = Some max → pool_size s' k ≤ max).
Proof. apply allocate_sandbox_spec. Qed.

(** Terminating a sandbox that runs or waits terminates its container too and
    leaves every other container alone, with the indexes consistent; the sandbox is
    no longer blocked, and applying the update takes it and nothing else out of the
    table of sandboxes. *)
Theorem terminate_sandbox_complete im s ns id sb clock :
  scheduler_wf s → im_sandboxes im !! sandbox_key_new ns id = Some sb →
  let key := sandbox_key_new ns id in
  let '(s', u) := terminate_sandbox im s ns id in
  scheduler_wf s' ∧ ¬ sandbox_blocked s' key ∧
  (∀ cid, cs_function_containers s' !! cid =
     if bool_decide (sandbox_active (sb_status sb) = true ∧ sb_container_id sb = Some cid)
     then terminated_of <$> cs_function_containers s !! cid else cs_function_containers s !! cid) ∧
  (∀ k, im_sandboxes (apply_scheduler_update im clock u).1 !! k = if decide (k = key) then None else im_sandboxes im !! k).
Proof.
  intros Hs Hsb key. unfold terminate_sandbox. fold key in Hsb |- *. cbv zeta. rewrite Hsb.
  assert (Hgo : ∀ s1 u, scheduler_wf s1 → su_updated_sandboxes u = ∅ →
    let s' := s1 <| cs_blocked_work ::= λ t, remove_sandbox t key |> in
    let u' := u <| su_updated_sandboxes ::= <[key := sb <| sb_status := SS_Terminated |> <| sb_outcome := Some (SO_Success SSR_UserTerminated) |>]> |> in
    scheduler_wf s' ∧ ¬ sandbox_blocked s' key ∧
    (∀ k, im_sandboxes (apply_scheduler_update im clock u').1 !! k = if decide (k = key) then None else im_sandboxes im !! k)).
  { intros s1 u Hs1 Hu s' u'. split; [by apply (scheduler_wf_view s1)|]. split.
    - unfold sandbox_blocked. change (cs_blocked_work s') with (remove_sandbox (cs_blocked_work s1) key). rewrite sandbox_removed. by intros [? ?].
    - intros k. rewrite apply_update_sandboxes. unfold u'. change (su_updated_sandboxes (u <| su_updated_sandboxes ::= ?f |>)) with (f (su_updated_sandboxes u)).
      rewrite Hu. case_decide as Hk; [subst; by rewrite lookup_insert_eq|]. by rewrite lookup_insert_ne, lookup_empty. }
  assert (Hnone : ∀ cid, cs_function_containers s !! cid = None → terminated_of <$> cs_function_containers s !! cid = cs_function_containers s !! cid) by (by intros cid ->).
  destruct (sandbox_active (sb_status sb)) eqn:Ea; [destruct (sb_container_id sb) as [cid|] eqn:Ec|].
  - pose proof (terminate_container_sched_wf s cid Hs) as Hw. destruct (cs_function_containers s !! cid) as [fc|] eqn:Efc.
    + pose proof (terminate_container_fields s cid fc Efc) as (F & _). unfold terminate_container in *. rewrite Efc in *. cbn [fst] in *.
      match type of Hw with scheduler_wf ?x => set (s1 := x) in * end. match goal with |- context [extend empty_update ?x] => set (cu := x) end.
      destruct (Hgo s1 (extend empty_update cu) Hw eq_refl) as (G1 & G2 & G3). split_and!; [exact G1|exact G2| |exact G3].
      intros c. change (cs_function_containers s1 !! c = if bool_decide (true = true ∧ Some cid = Some c) then terminated_of <$> cs_function_containers s !! c else cs_function_containers s !! c).
      rewrite F. destruct (decide (c = cid)) as [->|Hne].
      * by rewrite lookup_insert_eq, Efc, bool_decide_true.
      * rewrite lookup_insert_ne by done. rewrite bool_decide_false; [done|]. naive_solver.
    + unfold terminate_container in *. rewrite Efc in *. destruct (Hgo s empty_update Hs eq_refl) as (G1 & G2 & G3). split_and!; [exact G1|exact G2| |exact G3].
      intros c. change (cs_function_containers s !! c = if bool_decide (true = true ∧ Some cid = Some c) then terminated_of <$> cs_function_containers s !! c else cs_function_containers s !! c).
      case_bool_decide as Hb; [|done]. destruct Hb as [_ [= <-]]. by rewrite Hnone.
  - destruct (Hgo s empty_update Hs eq_refl) as (G1 & G2 & G3). split_and!; [exact G1|exact G2| |exact G3].
    intros c. rewrite bool_decide_false; [exact eq_refl|]. naive_solver.
  - destruct (Hgo s empty_update Hs eq_refl) as (G1 & G2 & G3). split_and!; [exact G1|exact G2| |exact G3].
    intros c. rewrite bool_decide_false; [exact eq_refl|]. naive_solver.
Qed.
End theorems.

(** ** Examples *)

Definition sandbox_ex (pool : option ContainerPoolId) : Sandbox :=
  MkSandbox "sb1" "ns" "image" (SS_Pending SPR_Scheduling) None 0 None None (MkContainerResources 1000 1024 1024 None) [] 600 false None None None
    pool None None None.
Definition sandbox_choice_ex : SandboxChoice := MkSandboxChoice (2 ^ 31) 7.
Definition sandbox_allocated_ex := @allocate_sandbox canonical_order empty_state one_executor_ex (sandbox_ex None) ∅ sandbox_choice_ex.

Lemma sandbox_allocation_settles_witness :
  ∃ s' cache' u exhausted, sandbox_allocated_ex = Some (s', cache', Ok (u, exhausted)) ∧ scheduler_wf s' ∧
    sandbox_outcome one_executor_ex s' u (sandbox_ex None) exhausted.
Proof.
  destruct (@sandbox_allocation_settles canonical_order empty_state one_executor_ex (sandbox_ex None) ∅ sandbox_choice_ex
    one_executor_scheduler_wf (cache_sound_empty _)) as (s' & cache' & u & ex & E & Hw & _ & Ho & _).
  - vm_compute. discriminate.
  - split; [reflexivity|]. intros uri l. vm_compute. discriminate.
  - reflexivity.
  - reflexivity.
  - exists s', cache', u, ex. split; [exact E|]. split; [exact Hw|exact Ho].
Defined.
(** The sandbox is placed: its container is in the table under its own id. *)
Example sandbox_placed_ex :
  (λ r, match r with (s', _, Ok (u, ex)) => (ex, csm_executor_id <$> cs_function_containers s' !! "sb1"%string) | _ => (true, None) end)
    <$> sandbox_allocated_ex = Some (false, Some "e1"%string).
Proof. vm_compute. reflexivity. Qed.

(** A sandbox that runs in the container [c1]. *)
Definition running_sandbox_ex : Sandbox :=
  sandbox_ex None <| sb_status := SS_Running |> <| sb_executor_id := Some "e1"%string |> <| sb_container_id := Some "c1"%string |>.
Definition running_sandbox_state_ex : InMemoryState := empty_state <| im_sandboxes := {["ns|sb1" := running_sandbox_ex]} |>.
Lemma terminate_sandbox_complete_witness :
  let r := @terminate_sandbox canonical_order running_sandbox_state_ex idle_scheduler_ex "ns" "sb1" in
  scheduler_wf r.1 ∧ live <$> cs_function_containers r.1 !! "c1"%string = Some false ∧
  im_sandboxes (@apply_scheduler_update canonical_order running_sandbox_state_ex 1 r.2).1 !! "ns|sb1"%string = None.
Proof.
  intros r. pose proof (@terminate_sandbox_complete canonical_order running_sandbox_state_ex idle_scheduler_ex "ns" "sb1" running_sandbox_ex 1
    idle_scheduler_ex_wf eq_refl) as H. fold r in H. cbv zeta in H.
  assert (Hl : live <$> cs_function_containers r.1 !! "c1"%string = Some false) by (vm_compute; reflexivity).
  destruct r as [s' u]. destruct H as (H1 & _ & _ & H4). split; [exact H1|]. split; [exact Hl|]. exact (H4 "ns|sb1"%string).
Defined.
