(* ===== verification/ContainerReconciler.v ===== *)
(** * Reconciling containers with their executors

    [ContainerReconciler] of [container_reconciler.rs]: what the server does with
    the containers an executor reports, with those that are gone, and with
    everything on an executor that is deregistered.

    The reconciler changes the in-memory state and the container scheduler side by
    side; both are one argument.  [inst id] is the instant at which the metadata of
    container [id] is made. *)
From S2P Require Import Prelude DataModel Resources Updates InMemoryState Blocked SchedulerState Placement ContainerScheduler SchedulerUpdates BufferReconciler FunctionRuns FunctionAllocator SandboxProcessor.

(** ** Definitions *)

(** [ContainerServerMetadata::new]. *)
Definition new_container_metadata (eid : ExecutorId) (c : Container) (desired : ContainerState) (now : Instant) : ContainerServerMetadata :=
  MkContainerServerMetadata eid c desired (ctr_container_type c) ∅ (Some now).

(** [terminate_sandbox_for_container]. *)
Definition termination_outcome (st : ContainerState) : SandboxOutcome :=
  match st with
  | CS_Terminated CTR_FunctionTimeout => SO_Success SSR_Timeout
  | CS_Terminated reason => SO_Failure (SFR_ContainerTerminated reason)
  | _ => SO_Failure SFR_Unknown
  end.
Definition terminate_sandbox_for_container (im : InMemoryState) (c : Container) : SchedulerUpdateRequest :=
  match ctr_sandbox_id c with
  | None => empty_update
  | Some id =>
      let key := sandbox_key_new (ctr_namespace c) id in
      match im_sandboxes im !! key with
      | None => empty_update
      | Some sb =>
          if sandbox_active (sb_status sb) then
            empty_update <| su_updated_sandboxes :=
              {[key := sb <| sb_status := SS_Terminated |> <| sb_outcome := Some (termination_outcome (ctr_state c)) |>]} |>
          else empty_update
      end
  end.

(** [promote_sandbox_if_container_running]. *)
Definition promote_sandbox_if_container_running (im : InMemoryState) (c : Container) (st : ContainerState) : SchedulerUpdateRequest :=
  match ctr_sandbox_id c, st with
  | Some id, CS_Running =>
      let key := sandbox_key_new (ctr_namespace c) id in
      match im_sandboxes im !! key with
      | Some sb => if sandbox_is_pending (sb_status sb)
                   then empty_update <| su_updated_sandboxes := {[key := sb <| sb_status := SS_Running |>]} |> else empty_update
      | None => empty_update
      end
  | _, _ => empty_update
  end.

(** [promote_sandbox_for_started_container]. *)
Definition promote_sandbox_for_started_container (im : InMemoryState) (s : ContainerScheduler) (cid : ContainerId) : SchedulerUpdateRequest :=
  match cs_function_containers s !! cid with
  | None => empty_update
  | Some m =>
      let u := match ctr_state (csm_function_container m) with
               | CS_Pending => empty_update <| su_containers :=
                   {[cid := m <| csm_function_container ::= λ c, c <| ctr_state := CS_Running |> |>]} |>
               | _ => empty_update
               end in
      extend u (promote_sandbox_if_container_running im (csm_function_container m) CS_Running)
  end.

Section reconciler.
Context `{HO : HashOrder} (clock : Z) (inst : ContainerId → Instant).

(** An update applied to both stores; [update_state] reads the time only for a new
    namespace. *)
Definition apply_both (st : InMemoryState * ContainerScheduler) (u : SchedulerUpdateRequest) : InMemoryState * ContainerScheduler :=
  ((update_state st.1 clock 0 (RP_SchedulerUpdate u)).1, (update_with_intents st.2 (RP_SchedulerUpdate u)).1).

(** ** Allocations of a container that is gone *)

(** The loop body of [handle_allocations_for_container_termination]. *)
Definition fail_allocation (im : InMemoryState) (reason : ContainerTerminationReason) (u : SchedulerUpdateRequest) (a : Allocation)
    : SchedulerUpdateRequest :=
  let cancelled := (cancel_allocation u a).1 in
  match im_function_runs im !! allocation_run_key a with
  | None => cancelled
  | Some r =>
      match im_request_ctx im !! run_request_key r with
      | None => cancelled
      | Some ctx =>
          if negb (bool_decide (fr_status r = FRS_Running (al_id a))) then cancelled
          else
            match get_existing_application_version im r with
            | None => cancelled
            | Some av =>
                let a' := a <| al_outcome := FRO_Failure (failure_reason_from_termination reason) |> in
                let r' := handle_allocation_outcome r a' av in
                let u1 := u <| su_updated_allocations ::= λ l, l ++ [a'] |> in
                let '(u2, ctx1) := add_function_run u1 r' ctx in
                let ctx2 := if run_is_completed r' then ctx1 <| rc_outcome := request_outcome_from <$> fr_outcome r' |> else ctx1 in
                add_request_state u2 ctx2
            end
      end
  end.
Definition allocations_on (im : InMemoryState) (eid : ExecutorId) (cid : ContainerId) : list Allocation :=
  match im_allocations_by_executor im !! eid ≫= λ m, m !! cid with
  | Some allocs => (map_iter allocs).*2
  | None => []
  end.
(** [handle_allocations_for_container_termination]. *)
Definition handle_allocations_for_container_termination (im : InMemoryState) (eid : ExecutorId) (cid : ContainerId)
    (reason : ContainerTerminationReason) : SchedulerUpdateRequest :=
  foldl (fail_allocation im reason) empty_update (allocations_on im eid cid).

(** ** Containers of an executor *)

(** The first loop of [remove_function_containers], one container. *)
Definition release_container (eid : ExecutorId) (acc : InMemoryState * ContainerScheduler * SchedulerUpdateRequest) (fe : Container)
    : InMemoryState * ContainerScheduler * SchedulerUpdateRequest :=
  let '(st, u) := acc in
  let '(st1, u1) := match ctr_state fe with
                    | CS_Terminated reason =>
                        let cu := handle_allocations_for_container_termination st.1 eid (ctr_id fe) reason in
                        (apply_both st cu, extend u cu)
                    | _ => (st, u)
                    end in
  let su := terminate_sandbox_for_container st1.1 fe in
  (apply_both st1 su, extend u1 su).
(** The second loop; it stops when resources cannot be given back. *)
Definition terminated_desire (st : ContainerState) : ContainerState :=
  match st with CS_Terminated _ => st | _ => CS_Terminated CTR_DesiredStateRemoved end.
Fixpoint drop_containers (l : list Container) (u : SchedulerUpdateRequest) (esm : ExecutorServerMetadata)
    : ExecutorServerMetadata * result ResourceError SchedulerUpdateRequest :=
  match l with
  | [] => (esm, Ok u)
  | fc :: l =>
      let meta := new_container_metadata (esm_executor_id esm) fc (terminated_desire (ctr_state fc)) (inst (ctr_id fc)) in
      match remove_container esm fc with
      | (esm', Ok _) => drop_containers l (u <| su_containers ::= <[ctr_id fc := meta]> |>) esm'
      | (esm', Err e) => (esm', Err e)
      end
  end.
(** [remove_function_containers]. *)
Definition remove_function_containers (st : InMemoryState * ContainerScheduler) (esm : ExecutorServerMetadata) (l : list Container)
    : InMemoryState * ContainerScheduler * (ExecutorServerMetadata * result ResourceError SchedulerUpdateRequest) :=
  if bool_decide (length l = 0%nat) then (st, (esm, Ok empty_update))
  else
    let '(st1, u) := foldl (release_container (esm_executor_id esm)) (st, empty_update) l in
    match drop_containers l u esm with
    | (esm1, Ok u1) => (st1, (esm1, Ok (u1 <| su_updated_executor_states ::= <[esm_executor_id esm1 := esm1]> |>)))
    | (esm1, Err e) => (st1, (esm1, Err e))
    end.

(** The three checks on a container only the executor knows. *)
Definition container_wanted (im : InMemoryState) (s : ContainerScheduler) (fe : Container) : bool :=
  let pool_exists := match container_pool_key fe with Some key => bool_decide (is_Some (get_pool s key)) | None => true end in
  let sandbox_valid := match ctr_sandbox_id fe with
                       | Some id => is_some_and (λ sb, sandbox_active (sb_status sb)) (im_sandboxes im !! sandbox_key_new (ctr_namespace fe) id)
                       | None => true
                       end in
  let app_fn_exists := match ctr_container_type fe with
                       | CT_Sandbox => true
                       | CT_Function => is_some_and (λ av, bool_decide (is_Some (av_functions av !! ctr_function_name fe)))
                                          (application_version im (ctr_namespace fe) (ctr_application_name fe) (ctr_version fe))
                       end in
  pool_exists && sandbox_valid && app_fn_exists.
(** The adoption loop, one container. *)
Definition adopt_container (im : InMemoryState) (s : ContainerScheduler) (eid : ExecutorId)
    (acc : ExecutorServerMetadata * SchedulerUpdateRequest * bool) (fe : Container) : ExecutorServerMetadata * SchedulerUpdateRequest * bool :=
  let '(esm, u, _) := acc in
  if is_terminated (ctr_state fe) then acc
  else
    let desired := if container_wanted im s fe then ctr_state fe else CS_Terminated CTR_DesiredStateRemoved in
    (force_add_container esm fe,
     u <| su_containers ::= <[ctr_id fe := new_container_metadata eid fe desired (inst (ctr_id fe))]> |>, true).

(** The sync loop; it stops when resources cannot be given back. *)
Fixpoint sync_containers (im : InMemoryState) (s : ContainerScheduler) (l : list (ContainerId * Container))
    (esm : ExecutorServerMetadata) (u : SchedulerUpdateRequest) (removed : list Container)
    : result ResourceError (ExecutorServerMetadata * SchedulerUpdateRequest * list Container) :=
  match l with
  | [] => Ok (esm, u, removed)
  | (cid, c) :: l =>
      match cs_function_containers s !! cid with
      | None => sync_containers im s l esm u removed
      | Some m =>
          if is_terminated (ctr_state c) then
            match remove_container esm c with
            | (esm', Ok _) => sync_containers im s l esm' u (removed ++ [c])
            | (_, Err e) => Err e
            end
          else if is_terminated (csm_desired_state m) then sync_containers im s l esm u removed
          else
            let u1 := if bool_decide (ctr_state c = ctr_state (csm_function_container m)) then u
                      else let m' := m <| csm_function_container ::= λ x, x <| ctr_state := ctr_state c |> |> in
                           u <| su_containers ::= <[ctr_id (csm_function_container m') := m']> |> in
            sync_containers im s l esm (extend u1 (promote_sandbox_if_container_running im (csm_function_container m) (ctr_state c))) removed
      end
  end.

(** [reconcile_function_containers]. *)
Definition reconcile_function_containers (st : InMemoryState * ContainerScheduler) (e : ExecutorMetadata)
    : InMemoryState * ContainerScheduler * result ResourceError SchedulerUpdateRequest :=
  let '(im, s) := st in
  match cs_executor_states s !! em_id e with
  | None => (st, Ok empty_update)
  | Some esm =>
      let only_executor := List.filter (λ kc, negb (bool_decide (kc.1 ∈ esm_function_container_ids esm))) (map_iter (em_containers e)) in
      let only_server := List.filter (λ cid, bool_decide (em_containers e !! cid = None)) (set_iter (esm_function_container_ids esm)) in
      let removed := omap (λ cid, match cs_function_containers s !! cid with
                                  | Some m => if is_terminated (csm_desired_state m) then Some (csm_function_container m) else None
                                  | None => None
                                  end) only_server in
      let '(esm1, u, adopted) := foldl (adopt_container im s (em_id e)) (esm, empty_update, false) only_executor.*2 in
      let '(s1, u1) :=
        if adopted : bool then
          let u1 := u <| su_updated_executor_states ::= <[esm_executor_id esm1 := esm1]> |> in
          ((update_with_intents s (RP_SchedulerUpdate
              (empty_update <| su_containers := su_containers u1 |> <| su_updated_executor_states := su_updated_executor_states u1 |>))).1, u1)
        else (s, u) in
      match sync_containers im s1 (map_iter (em_containers e)) esm1 u1 removed with
      | Err err => ((im, s1), Err err)
      | Ok (esm2, u2, removed2) =>
          match remove_function_containers (im, s1) esm2 removed2 with
          | (st3, (_, Err err)) => (st3, Err err)
          | (st3, (_, Ok ru)) => let u3 := extend u2 ru in (apply_both st3 u3, Ok u3)
          end
      end
  end.

(** ** First heartbeat *)

(** Neither side knows the container. *)
Definition container_missing (s : ContainerScheduler) (e : ExecutorMetadata) (cid : ContainerId) : bool :=
  bool_decide (em_containers e !! cid = None) && bool_decide (cs_function_containers s !! cid = None).
Definition orphaned_allocations (im : InMemoryState) (s : ContainerScheduler) (e : ExecutorMetadata) : list Allocation :=
  match im_allocations_by_executor im !! em_id e with
  | Some by_container => List.filter (λ kv, container_missing s e kv.1) (map_iter by_container) ≫= λ kv, (map_iter kv.2).*2
  | None => []
  end.
Definition orphaned_sandboxes (im : InMemoryState) (s : ContainerScheduler) (e : ExecutorMetadata) : list Sandbox :=
  match im_sandboxes_by_executor im !! em_id e with
  | Some keys =>
      List.filter (λ sb, sandbox_active (sb_status sb) && is_some_and (container_missing s e) (sb_container_id sb))
        (omap (λ key, im_sandboxes im !! key) (set_iter keys))
  | None => []
  end.
Definition orphan_allocation (acc : InMemoryState * ContainerScheduler * SchedulerUpdateRequest) (a : Allocation)
    : InMemoryState * ContainerScheduler * SchedulerUpdateRequest :=
  let '(st, total) := acc in
  let cu := handle_allocations_for_container_termination st.1 (at_executor_id (al_target a)) (at_container_id (al_target a)) CTR_Unknown in
  (apply_both st cu, extend total cu).
Definition orphan_sandbox (acc : InMemoryState * ContainerScheduler * SchedulerUpdateRequest) (sb : Sandbox)
    : InMemoryState * ContainerScheduler * SchedulerUpdateRequest :=
  let '(st, total) := acc in
  let sb' := sb <| sb_status := SS_Terminated |> <| sb_outcome := Some (SO_Failure (SFR_ContainerTerminated CTR_Unknown)) |> in
  let su := empty_update <| su_updated_sandboxes := {[sandbox_key sb' := sb']} |> in
  (apply_both st su, extend total su).
(** [handle_orphaned_containers_on_first_heartbeat]. *)
Definition handle_orphaned_containers_on_first_heartbeat (st : InMemoryState * ContainerScheduler) (e : ExecutorMetadata)
    : InMemoryState * ContainerScheduler * SchedulerUpdateRequest :=
  let '(st1, total) := foldl orphan_allocation (st, empty_update) (orphaned_allocations st.1 st.2 e) in
  foldl orphan_sandbox (st1, total) (orphaned_sandboxes st1.1 st1.2 e).

(** [reconcile_executor_state]. *)
Definition reconcile_executor_state (st : InMemoryState * ContainerScheduler) (eid : ExecutorId)
    : InMemoryState * ContainerScheduler * result ResourceError SchedulerUpdateRequest :=
  let '(im, s) := st in
  match cs_executors s !! eid with
  | None => (st, Ok empty_update)
  | Some e =>
      let is_first_heartbeat := bool_decide (cs_executor_states s !! eid = None) in
      let '(s1, u) :=
        if is_first_heartbeat then
          let esm := MkExecutorServerMetadata eid ∅ (em_host_resources e) ∅ in
          let u := empty_update <| su_updated_executor_states := {[eid := esm]} |> in
          ((update_with_intents s (RP_SchedulerUpdate u)).1, u)
        else (s, empty_update) in
      match reconcile_function_containers (im, s1) e with
      | (st2, Err err) => (st2, Err err)
      | (st2, Ok ru) =>
          let u1 := extend u ru in
          if is_first_heartbeat then
            let '(st3, ou) := handle_orphaned_containers_on_first_heartbeat st2 e in (st3, Ok (extend u1 ou))
          else (st2, Ok u1)
      end
  end.

(** ** An executor that is gone *)

(** [terminate_sandboxes_for_executor]. *)
Definition terminate_sandboxes_for_executor (im : InMemoryState) (eid : ExecutorId) : SchedulerUpdateRequest :=
  foldl (λ u '(key, sb),
    if bool_decide (sb_executor_id sb = Some eid) && sandbox_active (sb_status sb)
    then u <| su_updated_sandboxes ::=
           <[key := sb <| sb_status := SS_Terminated |> <| sb_outcome := Some (SO_Failure SFR_ExecutorRemoved) |>]> |>
    else u) empty_update (ord_iter (im_sandboxes im)).

(** The loop body of [remove_all_function_executors_for_executor]. *)
Definition remove_executor_container (eid : ExecutorId) (acc : InMemoryState * ContainerScheduler * SchedulerUpdateRequest) (cid : ContainerId)
    : InMemoryState * ContainerScheduler * SchedulerUpdateRequest :=
  let '(st, u) := acc in
  let cu := handle_allocations_for_container_termination st.1 eid cid CTR_ExecutorRemoved in
  let st1 := apply_both st cu in
  let u1 := extend u cu in
  match cs_function_containers st1.2 !! cid with
  | None => (st1, u1)
  | Some fc =>
      let fc' := fc <| csm_desired_state := CS_Terminated CTR_ExecutorRemoved |>
                    <| csm_function_container ::= λ c, c <| ctr_state := CS_Terminated CTR_ExecutorRemoved |> |> in
      let tu := empty_update <| su_containers := {[cid := fc']} |> in
      let u2 := extend u1 tu in
      let s2 := (update_with_intents st1.2 (RP_SchedulerUpdate tu)).1 in
      let su := terminate_sandbox_for_container st1.1 (csm_function_container fc') in
      (apply_both (st1.1, s2) su, extend u2 su)
  end.
Definition executor_container_ids (st : InMemoryState * ContainerScheduler) (eid : ExecutorId) : list ContainerId :=
  match cs_executor_states st.2 !! eid with
  | Some esm => set_iter (esm_function_container_ids esm)
  | None => match im_allocations_by_executor st.1 !! eid with Some m => (map_iter m).*1 | None => [] end
  end.
(** [remove_all_function_executors_for_executor]. *)
Definition remove_all_function_executors_for_executor (st : InMemoryState * ContainerScheduler) (eid : ExecutorId)
    : InMemoryState * ContainerScheduler * SchedulerUpdateRequest :=
  foldl (remove_executor_container eid) (st, empty_update) (executor_container_ids st eid).

(** [ContainerReconciler::deregister_executor]. *)
Definition reconciler_deregister_executor (st : InMemoryState * ContainerScheduler) (eid : ExecutorId)
    : InMemoryState * ContainerScheduler * SchedulerUpdateRequest :=
  let u0 := empty_update <| su_remove_executors := [eid] |> in
  let su := terminate_sandboxes_for_executor st.1 eid in
  let u1 := extend u0 su in
  let st1 := if bool_decide (su_updated_sandboxes su = ∅) then st else apply_both st su in
  let '(st2, ru) := remove_all_function_executors_for_executor st1 eid in
  (st2, extend u1 ru).
End reconciler.

(** ** Allocations of a container that is gone *)

Section termination.
Context `{HO : HashOrder}.

(** The run that currently runs the allocation, with its request and version. *)
Definition running_on (im : InMemoryState) (a : Allocation) : option (FunctionRun * RequestCtx * ApplicationVersion) :=
  r ← im_function_runs im !! allocation_run_key a;
  ctx ← im_request_ctx im !! run_request_key r;
  if bool_decide (fr_status r = FRS_Running (al_id a)) then av ← get_existing_application_version im r; Some (r, ctx, av) else None.
(** What is recorded of the allocation, its run and its request. *)
Definition failed_on (reason : ContainerTerminationReason) (a : Allocation) : Allocation :=
  a <| al_outcome := FRO_Failure (failure_reason_from_termination reason) |>.
Definition cancelled_allocation (a : Allocation) : Allocation := a <| al_outcome := FRO_Failure FRF_FunctionRunCancelled |>.
Definition rescheduled (reason : ContainerTerminationReason) (a : Allocation) (r : FunctionRun) (av : ApplicationVersion) : FunctionRun :=
  handle_allocation_outcome r (failed_on reason a) av.
Definition reported_ctx (ctx : RequestCtx) (r' : FunctionRun) : RequestCtx :=
  let ctx1 := ctx <| rc_function_runs ::= <[fr_id r' := r']> |> in
  if run_is_completed r' then ctx1 <| rc_outcome := request_outcome_from <$> fr_outcome r' |> else ctx1.

Lemma fail_allocation_eq im reason u a :
  fail_allocation im reason u a =
    match running_on im a with
    | Some (r, ctx, av) =>
        let r' := rescheduled reason a r av in
        add_request_state (u <| su_updated_allocations ::= λ l, l ++ [failed_on reason a] |>
                             <| su_updated_function_runs ::= idx_insert (request_ctx_key ctx) (fr_id r') |>) (reported_ctx ctx r')
    | None => u <| su_updated_allocations ::= λ l, l ++ [cancelled_allocation a] |>
    end.
Proof.
  unfold fail_allocation, running_on. destruct (im_function_runs im !! allocation_run_key a) as [r|]; [|done]. cbn [mbind option_bind].
  destruct (im_request_ctx im !! run_request_key r) as [ctx|]; [|done]. cbn [mbind option_bind]. case_bool_decide; [|done]. cbn [negb].
  by destruct (get_existing_application_version im r) as [av|].
Qed.
Lemma running_on_spec im a r ctx av :
  running_on im a = Some (r, ctx, av) →
  im_function_runs im !! allocation_run_key a = Some r ∧ im_request_ctx im !! run_request_key r = Some ctx ∧
  fr_status r = FRS_Running (al_id a) ∧ get_existing_application_version im r = Some av.
Proof.
  unfold running_on. intros (r0 & H1 & (c & H2 & H)%bind_Some)%bind_Some. case_bool_decide; [|done].
  apply bind_Some in H as (v & H4 & [= -> -> ->]). done.
Qed.
Lemma rescheduled_spec reason a r av :
  let r' := rescheduled reason a r av in
  fr_id r' = fr_id r ∧ run_key r' = run_key r ∧ run_request_key r' = run_request_key r ∧ (fr_status r' = FRS_Pending ∨ fr_status r' = FRS_Completed).
Proof.
  unfold rescheduled, failed_on, handle_allocation_outcome. cbn. unfold handle_allocation_failure.
  destruct (function_run_max_retries av r); [|by split_and!; [..|right]].
  destruct (_ && _); [|by split_and!; [..|right]]. destruct (should_count_against_function_run_retry_attempts _); by split_and!; [..|left].
Qed.

Lemma rescheduled_outcome reason a r av : fr_status (rescheduled reason a r av) = FRS_Completed → fr_outcome (rescheduled reason a r av) ≠ None.
Proof.
  unfold rescheduled, failed_on, handle_allocation_outcome. cbn. unfold handle_allocation_failure.
  destruct (function_run_max_retries av r); [|done]. destruct (_ && _); [|done]. by destruct (should_count_against_function_run_retry_attempts _).
Qed.

Definition ctxs_keyed (im : InMemoryState) : Prop := ∀ key ctx, im_request_ctx im !! key = Some ctx → request_ctx_key ctx = key.
(** No request runs twice in the list. *)
Definition distinct_requests (im : InMemoryState) (l : list Allocation) : Prop :=
  ∀ i j a b ra ca va rb cb vb, l !! i = Some a → l !! j = Some b → running_on im a = Some (ra, ca, va) → running_on im b = Some (rb, cb, vb) →
    run_request_key ra = run_request_key rb → i = j.

(** The update built for a list of allocations. *)
Record failed_all (im : InMemoryState) (reason : ContainerTerminationReason) (l : list Allocation) (u : SchedulerUpdateRequest) : Prop := MkFailedAll {
  fa_allocations : su_updated_allocations u = (λ a, match running_on im a with Some _ => failed_on reason a | None => cancelled_allocation a end) <$> l;
  fa_states : ∀ k ctx, su_updated_request_states u !! k = Some ctx ↔
    ∃ a r c av, a ∈ l ∧ running_on im a = Some (r, c, av) ∧ run_request_key r = k ∧ ctx = reported_ctx c (rescheduled reason a r av);
  fa_runs : ∀ k id, id ∈ idx_get (su_updated_function_runs u) k ↔
    ∃ a r c av, a ∈ l ∧ running_on im a = Some (r, c, av) ∧ run_request_key r = k ∧ id = fr_id r;
  fa_wf : idx_wf (su_updated_function_runs u);
  fa_rest : su_new_allocations u = [] ∧ su_updated_sandboxes u = ∅ ∧ su_containers u = ∅ ∧ su_updated_executor_states u = ∅ ∧ su_remove_executors u = [];
}.

Lemma request_ctx_key_reported c r' : request_ctx_key (reported_ctx c r') = request_ctx_key c.
Proof. unfold reported_ctx. by destruct (run_is_completed r'). Qed.

Lemma fail_allocation_step im reason pre a post u :
  ctxs_keyed im → distinct_requests im (pre ++ a :: post) → failed_all im reason pre u → failed_all im reason (pre ++ [a]) (fail_allocation im reason u a).
Proof.
  intros Hk Hd [H1 H2 H3 H4 H5]. rewrite fail_allocation_eq.
  destruct (running_on im a) as [[[r ctx] av]|] eqn:Er; cycle 1.
  { split; [|intros k c..|exact H4|exact H5].
    - rewrite fmap_app. cbn [fmap list_fmap]. rewrite Er. match goal with |- _ = ?rhs => change (su_updated_allocations u ++ [cancelled_allocation a] = rhs) end. by rewrite H1.
    - etrans; [apply H2|]. setoid_rewrite elem_of_app. setoid_rewrite list_elem_of_singleton.
      split; intros (x & rx & cx & vx & Hx & Ex & Kx); [exists x, rx, cx, vx; auto|]. destruct Hx as [Hx| ->]; [by exists x, rx, cx, vx|congruence].
    - etrans; [apply H3|]. setoid_rewrite elem_of_app. setoid_rewrite list_elem_of_singleton.
      split; intros (x & rx & cx & vx & Hx & Ex & Kx); [exists x, rx, cx, vx; auto|]. destruct Hx as [Hx| ->]; [by exists x, rx, cx, vx|congruence]. }
  pose proof Er as (R1 & R2 & R3 & R4)%running_on_spec. pose proof (Hk _ _ R2) as Hkey.
  pose proof (rescheduled_spec reason a r av) as (S1 & S2 & S3 & S4). cbv zeta. set (r' := rescheduled reason a r av) in *.
  assert (Hnew : su_updated_request_states u !! run_request_key r = None).
  { apply eq_None_not_Some. intros [c Hc]. apply H2 in Hc as (b & rb & cb & vb & Hb & Eb & Kb & _). apply list_elem_of_lookup in Hb as [i Hi].
    assert (i = length pre) as ->.
    { apply (Hd i (length pre) b a rb cb vb r ctx av); [by rewrite lookup_app_l by (by eapply lookup_lt_Some)|by rewrite list_lookup_middle|done..]. }
    apply lookup_lt_Some in Hi. lia. }
  unfold add_request_state, merge_request_state. rewrite request_ctx_key_reported, Hkey. split.
  - rewrite fmap_app. cbn [fmap list_fmap]. rewrite Er. match goal with |- _ = ?rhs => change (su_updated_allocations u ++ [failed_on reason a] = rhs) end. by rewrite H1.
  - intros k c. change (<[run_request_key r := match su_updated_request_states u !! run_request_key r with Some old => newer_request_state old (reported_ctx ctx r') | None => reported_ctx ctx r' end]>
      (su_updated_request_states u) !! k = Some c ↔ ∃ x rx cx vx, x ∈ pre ++ [a] ∧ running_on im x = Some (rx, cx, vx) ∧ run_request_key rx = k ∧ c = reported_ctx cx (rescheduled reason x rx vx)).
    rewrite Hnew, lookup_insert_Some, H2. setoid_rewrite elem_of_app. setoid_rewrite list_elem_of_singleton. split.
    + intros [[<- <-]|[Hne (x & rx & cx & vx & Hx & Ex & Kx & ->)]]; [exists a, r, ctx, av; auto|exists x, rx, cx, vx; auto].
    + intros (x & rx & cx & vx & [Hx| ->] & Ex & Kx & ->).
      * right. split; [|by exists x, rx, cx, vx]. intros Heq. apply list_elem_of_lookup in Hx as [i Hi].
        assert (i = length pre) as ->; [|apply lookup_lt_Some in Hi; lia].
        apply (Hd i (length pre) x a rx cx vx r ctx av); [by rewrite lookup_app_l by (by eapply lookup_lt_Some)|by rewrite list_lookup_middle|done|done|congruence].
      * left. rewrite Er in Ex. injection Ex as <- <- <-. done.
  - intros k id. change (id ∈ idx_get (idx_insert (run_request_key r) (fr_id r') (su_updated_function_runs u)) k ↔
      ∃ x rx cx vx, x ∈ pre ++ [a] ∧ running_on im x = Some (rx, cx, vx) ∧ run_request_key rx = k ∧ id = fr_id rx).
    rewrite elem_of_idx_insert, H3. setoid_rewrite elem_of_app. setoid_rewrite list_elem_of_singleton. split.
    + intros [[-> ->]|(x & rx & cx & vx & Hx & Ex & Kx & ->)]; [exists a, r, ctx, av; auto|exists x, rx, cx, vx; auto].
    + intros (x & rx & cx & vx & [Hx| ->] & Ex & Kx & ->); [right; by exists x, rx, cx, vx|]. left. rewrite Er in Ex. injection Ex as <- <- <-. by rewrite S1.
  - change (idx_wf (idx_insert (run_request_key r) (fr_id r') (su_updated_function_runs u))). auto with indexify.
  - exact H5.
Qed.
Lemma fail_allocations_all im reason l :
  ctxs_keyed im → distinct_requests im l → failed_all im reason l (foldl (fail_allocation im reason) empty_update l).
Proof.
  intros Hk Hd. apply (foldl_ind_prefix (λ pre u, failed_all im reason pre u)).
  - split; [done| | |done|done]; intros k c; (split; [|by intros (? & ? & ? & ? & ?%not_elem_of_nil & _)]); [intros H; by destruct (lookup_empty_Some k c)|].
    unfold idx_get. change (su_updated_function_runs empty_update) with (∅ : gmap string (gset FunctionCallId)). rewrite lookup_empty. by intros ?%not_elem_of_empty.
  - intros pre a u [post ->]. by apply (fail_allocation_step im reason pre a post).
Qed.

(** ** Runs after an update *)

Lemma forget_runs_runs l : ∀ im k r, im_function_runs (foldl forget_run im l) !! k = Some r → im_function_runs im !! k = Some r.
Proof.
  induction l as [|x l IH]; intros im k r; simpl; [done|]. intros H%IH. destruct (forget_run_fields im x) as (E & _). rewrite E in H.
  by apply lookup_delete_Some in H as [_ ?].
Qed.
Lemma track_runs_lookup l : ∀ im k r,
  im_function_runs (foldl track_run im l) !! k = Some r →
  (r ∈ l ∧ run_key r = k) ∨ (im_function_runs im !! k = Some r ∧ ∀ x, x ∈ l → run_key x ≠ k).
Proof.
  induction l as [|x l IH]; intros im k r; simpl; [intros H; right; split; [done|]; by intros x ?%not_elem_of_nil|].
  intros [[Hin Hk]|[H Hne]]%IH; [left; split; [by right|done]|]. destruct (track_run_fields im x) as (E & _). rewrite E in H.
  apply lookup_insert_Some in H as [[<- <-]|[Hx H]]; [left; split; [left|done]|]. right. split; [done|]. intros y [->|Hy]%elem_of_cons; [done|by apply Hne].
Qed.
Lemma track_sandbox_runs im k sb : im_function_runs (track_sandbox im k sb) = im_function_runs im.
Proof.
  assert (Hr : ∀ im, im_function_runs (remove_pending_sandbox im k) = im_function_runs im).
  { intros im0. unfold remove_pending_sandbox. cbv zeta. by destruct (im_pending_sandbox_profile _ !! k). }
  assert (Hx : ∀ im, im_function_runs (index_executor (index_container im k sb) k sb) = im_function_runs im).
  { intros im0. unfold index_executor, index_container. by destruct (sb_executor_id sb), (sb_container_id sb). }
  unfold track_sandbox. destruct (sb_status sb) as [reason| | |].
  - rewrite Hx. destruct (_ && _); [by rewrite Hr|]. by destruct (_ && _).
  - case_bool_decide; [by rewrite Hx, Hr|done].
  - unfold forget_sandbox. destruct (im_sandboxes im !! k) as [o|]; cbn [mbind option_bind]; [destruct (sb_container_id o), (sb_executor_id o)|];
      case_bool_decide; first [exact (Hr im)|exact eq_refl].
  - done.
Qed.
Lemma apply_update_runs im clock u k r :
  im_function_runs (apply_scheduler_update im clock u).1 !! k = Some r →
  (r ∈ updated_runs u ∧ run_key r = k) ∨ (im_function_runs im !! k = Some r ∧ ∀ x, x ∈ updated_runs u → run_key x ≠ k).
Proof.
  unfold apply_scheduler_update, apply_scheduler_update_inner. set (im0 := im <| im_clock := clock |>).
  set (im2 := foldl track_request _ _). set (ch1 := foldl _ ∅ _).
  assert (E2 : im_function_runs im2 !! k = Some r → im_function_runs (foldl track_run im0 (updated_runs u)) !! k = Some r).
  { unfold im2. apply (foldl_ind (λ a, im_function_runs a !! k = Some r → im_function_runs (foldl track_run im0 (updated_runs u)) !! k = Some r)); [done|].
    intros a [key ctx] _ IH. unfold track_request. destruct (rc_outcome ctx); [|exact IH]. unfold delete_request, delete_function_runs.
    match goal with |- context [foldl forget_run ?b ?l] => intros H; apply IH; exact (forget_runs_runs l b k r H) end. }
  assert (E3 : im_function_runs (foldl track_allocation (im2, ch1) (su_new_allocations u)).1 = im_function_runs im2).
  { apply (foldl_ind (λ a : InMemoryState * gset ExecutorId, im_function_runs a.1 = im_function_runs im2)); [done|]. intros [a x] al _ <-. simpl.
    by destruct (im_function_runs a !! allocation_run_key al). }
  destruct (foldl track_allocation (im2, ch1) (su_new_allocations u)) as [im3 ch2]. cbn [fst] in E3. cbv zeta.
  set (im4 := im3 <| im_allocations_by_executor ::= _ |>). set (im5 := foldl _ im4 _).
  assert (E5 : im_function_runs im5 = im_function_runs im2).
  { rewrite <-E3. unfold im5. apply (foldl_ind (λ a, im_function_runs a = im_function_runs im3)); [done|]. intros a [key sb] _ <-. apply track_sandbox_runs. }
  clearbody im5. intros H. assert (H5 : im_function_runs im5 !! k = Some r) by (by destruct (su_function_pool_deficits u), (su_sandbox_pool_deficits u)).
  rewrite E5 in H5. apply E2, track_runs_lookup in H5. exact H5.
Qed.

(** ** A container that is gone *)

Lemma distinct_same im l a b ra ca va rb cb vb :
  distinct_requests im l → a ∈ l → b ∈ l → running_on im a = Some (ra, ca, va) → running_on im b = Some (rb, cb, vb) →
  run_request_key ra = run_request_key rb → a = b.
Proof.
  intros Hd [i Hi]%list_elem_of_lookup [j Hj]%list_elem_of_lookup Ha Hb Hk.
  assert (i = j) as -> by (by apply (Hd i j a b ra ca va rb cb vb)). congruence.
Qed.
Lemma reported_run c r' : rc_function_runs (reported_ctx c r') !! fr_id r' = Some r'.
Proof.
  assert (E : rc_function_runs (reported_ctx c r') = <[fr_id r' := r']> (rc_function_runs c)) by (unfold reported_ctx; by destruct (run_is_completed r')).
  by rewrite E, lookup_insert_eq.
Qed.

(** The runs the update lists are those it reschedules. *)
Lemma failed_updated_runs im reason l u x :
  distinct_requests im l → failed_all im reason l u →
  x ∈ updated_runs u ↔ ∃ a r c av, a ∈ l ∧ running_on im a = Some (r, c, av) ∧ x = rescheduled reason a r av.
Proof.
  intros Hd [F1 F2 F3 F4 F5]. unfold updated_runs. rewrite list_elem_of_bind. split.
  - intros ([k ids] & Hx & Hk). apply elem_of_map_iter in Hk. apply list_elem_of_omap in Hx as (id & Hid & Hx). apply elem_of_set_iter in Hid.
    rewrite <-(idx_get_lookup _ _ _ Hk) in Hid. apply F3 in Hid as (b & rb & cb & vb & Hb & Eb & Kb & ->).
    apply bind_Some in Hx as (ctx & Hctx & Hx). apply F2 in Hctx as (a & r & c & av & Ha & Ea & Ka & ->).
    assert (a = b) as <- by (apply (distinct_same im l a b r c av rb cb vb); [done..|congruence]). rewrite Ea in Eb. injection Eb as <- <- <-.
    destruct (rescheduled_spec reason a r av) as (S1 & _). rewrite <-S1, reported_run in Hx. injection Hx as <-. by exists a, r, c, av.
  - intros (a & r & c & av & Ha & Ea & ->). assert (Hid : fr_id r ∈ idx_get (su_updated_function_runs u) (run_request_key r)) by (apply F3; by exists a, r, c, av).
    unfold idx_get in Hid. destruct (su_updated_function_runs u !! run_request_key r) as [ids|] eqn:Ek; [|by apply not_elem_of_empty in Hid].
    exists (run_request_key r, ids). split; [|by apply elem_of_map_iter]. apply list_elem_of_omap. exists (fr_id r). split; [by apply elem_of_set_iter|].
    assert (Hs : su_updated_request_states u !! run_request_key r = Some (reported_ctx c (rescheduled reason a r av))) by (apply F2; by exists a, r, c, av).
    rewrite Hs. cbn [mbind option_bind]. destruct (rescheduled_spec reason a r av) as (S1 & _). rewrite <-S1. apply reported_run.
Qed.
Lemma unallocated_updated u x : x ∈ unallocated_function_runs u ↔ x ∈ updated_runs u ∧ fr_status x = FRS_Pending.
Proof.
  unfold unallocated_function_runs, updated_runs. rewrite list_elem_of_In, in_flat_map, list_elem_of_bind. split.
  - intros ([k ids] & Hk%list_elem_of_In & Hx%list_elem_of_In). destruct (su_updated_request_states u !! k) as [ctx|] eqn:Ectx; [|by apply not_elem_of_nil in Hx].
    apply list_elem_of_omap in Hx as (id & Hid & Hx). destruct (rc_function_runs ctx !! id) as [r|] eqn:Er; [|done].
    destruct (fr_status r) eqn:Est; simplify_eq. split; [|done]. exists (k, ids). split; [|done]. apply list_elem_of_omap. exists id. split; [done|].
    by rewrite Ectx.
  - intros [([k ids] & Hx & Hk) Est]. exists (k, ids). split; [by apply list_elem_of_In|]. apply list_elem_of_In.
    apply list_elem_of_omap in Hx as (id & Hid & (ctx & Ectx & Er)%bind_Some). rewrite Ectx. apply list_elem_of_omap. exists id. split; [done|]. by rewrite Er, Est.
Qed.

(** C36: when a container is gone and no request runs twice in it, none of its runs is
    left behind: every allocation is closed once, as failed if its run still runs it
    and cancelled otherwise; every such run is rescheduled by the retry policy,
    listed for allocation when it may run again and failing its request when it may
    not; and after the update the tables know it only as rescheduled. *)
Theorem container_loss_requeues_runs im eid cid reason :
  runs_wf im → ctxs_keyed im → distinct_requests im (allocations_on im eid cid) →
  let u := handle_allocations_for_container_termination im eid cid reason in
  su_updated_allocations u = (λ a, match running_on im a with Some _ => failed_on reason a | None => cancelled_allocation a end) <$> allocations_on im eid cid ∧
  ∀ a r ctx av, a ∈ allocations_on im eid cid → running_on im a = Some (r, ctx, av) →
    let r' := rescheduled reason a r av in
    (fr_status r' = FRS_Pending ∧ r' ∈ unallocated_function_runs u ∨
     fr_status r' = FRS_Completed ∧ reported_done u (run_request_key r)) ∧
    ∀ clock x, im_function_runs (apply_scheduler_update im clock u).1 !! run_key r = Some x → x = r'.
Proof.
  intros [Hruns _] Hk Hd u. pose proof (fail_allocations_all im reason _ Hk Hd) as Hf. fold u in Hf. split; [apply Hf|].
  intros a r ctx av Ha Ea r'. assert (Hup : r' ∈ updated_runs u) by (apply (failed_updated_runs im reason _ u r' Hd Hf); by exists a, r, ctx, av).
  destruct (rescheduled_spec reason a r av) as (S1 & S2 & S3 & S4). fold r' in S1, S2, S3, S4. split.
  - destruct S4 as [S4|S4]; [left; split; [done|]; by apply unallocated_updated|]. right. split; [done|].
    exists (reported_ctx ctx r'). split; [apply (fa_states _ _ _ _ Hf); by exists a, r, ctx, av|].
    unfold reported_ctx, run_is_completed. rewrite S4. cbn. pose proof (rescheduled_outcome reason a r av S4) as Ho. fold r' in Ho. by intros HN%fmap_None.
  - intros clock x Hx. apply apply_update_runs in Hx as [[Hin Hkx]|[_ Hne]]; [|by destruct (Hne r' Hup)].
    apply (failed_updated_runs im reason _ u x Hd Hf) in Hin as (b & rb & cb & vb & Hb & Eb & ->).
    destruct (rescheduled_spec reason b rb vb) as (_ & T2 & _). rewrite T2 in Hkx.
    pose proof Ea as (R1 & _)%running_on_spec. pose proof Eb as (Q1 & _)%running_on_spec.
    rewrite (Hruns _ _ R1), (Hruns _ _ Q1) in Hkx. rewrite Hkx in Q1. assert (rb = r) as -> by congruence.
    assert (a = b) as <- by (by apply (distinct_same im (allocations_on im eid cid) a b r ctx av r cb vb)). rewrite Ea in Eb. by injection Eb as <- <-.
Qed.
End termination.

(** ** An executor that is gone *)

Section deregistration.
Context `{HO : HashOrder}.

Lemma map_iter_empty `{Countable K} {A} : map_iter (∅ : gmap K A) = [].
Proof. apply Permutation_nil. by rewrite map_iter_perm, map_to_list_empty. Qed.
(** An update that only speaks of runs and requests. *)
Definition no_containers (u : SchedulerUpdateRequest) : Prop :=
  su_containers u = ∅ ∧ su_updated_executor_states u = ∅ ∧ su_remove_executors u = [].
Lemma handle_allocations_rest im eid cid reason :
  let u := handle_allocations_for_container_termination im eid cid reason in su_updated_sandboxes u = ∅ ∧ no_containers u.
Proof.
  unfold handle_allocations_for_container_termination. cbv zeta. apply (foldl_ind (λ u, su_updated_sandboxes u = ∅ ∧ no_containers u)); [done|].
  intros u a _ H. rewrite fail_allocation_eq. destruct (running_on im a) as [[[r ctx] av]|]; exact H.
Qed.
(** Updating the scheduler with it does nothing to the containers. *)
Lemma update_no_containers s u :
  no_containers u → wf_view (update_with_intents s (RP_SchedulerUpdate u)).1 = wf_view s.
Proof.
  intros (E1 & E2 & E3). cbn [update_with_intents fst]. unfold update_scheduler_update. rewrite E1, E2, E3, !map_iter_empty. exact eq_refl.
Qed.
(** One container changed. *)
Lemma update_one_container s cid m :
  wf_view (update_with_intents s (RP_SchedulerUpdate (empty_update <| su_containers := {[cid := m]} |>))).1 =
  wf_view (update_container_indices s cid m).
Proof.
  cbn [update_with_intents fst]. unfold update_scheduler_update.
  change (su_updated_executor_states (empty_update <| su_containers := {[cid := m]} |>)) with (∅ : gmap ExecutorId ExecutorServerMetadata).
  rewrite map_iter_empty. cbn [foldl]. change (su_containers (empty_update <| su_containers := {[cid := m]} |>)) with ({[cid := m]} : gmap ContainerId ContainerServerMetadata).
  rewrite map_iter_singleton. cbn [foldl]. rewrite bool_decide_false by (by intros ?%not_elem_of_nil). exact eq_refl.
Qed.
Lemma wf_view_table s s' : wf_view s = wf_view s' → cs_function_containers s = cs_function_containers s'.
Proof. intros H. exact (f_equal (λ v, v.1.1.1.1.1.1.1) H). Qed.

(** An update that only takes sandboxes away. *)
Definition sandboxes_end (u : SchedulerUpdateRequest) : Prop := ∀ k sb, su_updated_sandboxes u !! k = Some sb → sb_status sb = SS_Terminated.
Lemma terminate_for_container_rest im c : sandboxes_end (terminate_sandbox_for_container im c) ∧ no_containers (terminate_sandbox_for_container im c).
Proof.
  assert (H0 : sandboxes_end empty_update) by (intros k sb H; by destruct (lookup_empty_Some k sb)).
  unfold terminate_sandbox_for_container. destruct (ctr_sandbox_id c) as [id|]; [|done]. destruct (im_sandboxes im !! _) as [sb|]; [|done].
  destruct (sandbox_active (sb_status sb)); [|done]. split; [|done]. set (sb' := sb <| sb_status := _ |> <| sb_outcome := _ |>). intros k x Hx.
  change (({[sandbox_key_new (ctr_namespace c) id := sb']} : gmap SandboxKey Sandbox) !! k = Some x) in Hx. by apply lookup_singleton_Some in Hx as [_ <-].
Qed.
Lemma apply_both_sandboxes clock st u k :
  im_sandboxes (apply_both clock st u).1 !! k = sandbox_after (im_sandboxes st.1 !! k) (su_updated_sandboxes u !! k).
Proof. exact (apply_update_sandboxes st.1 clock u k). Qed.
Lemma apply_both_fewer clock st u k sb :
  sandboxes_end u → im_sandboxes (apply_both clock st u).1 !! k = Some sb → im_sandboxes st.1 !! k = Some sb.
Proof.
  intros Hu. rewrite apply_both_sandboxes. destruct (su_updated_sandboxes u !! k) as [x|] eqn:E; simpl; [|done]. by rewrite (Hu k x E).
Qed.

(** The state after some containers of the executor have been removed. *)
Record containers_gone (im0 : InMemoryState) (pre : list ContainerId) (st : InMemoryState * ContainerScheduler) : Prop := MkContainersGone {
  cg_wf : scheduler_wf st.2;
  cg_sandboxes : ∀ k sb, im_sandboxes st.1 !! k = Some sb → im_sandboxes im0 !! k = Some sb;
  cg_dead : ∀ cid m, cid ∈ pre → cs_function_containers st.2 !! cid = Some m → live m = false;
}.
Lemma containers_gone_both clock im0 pre st u :
  sandboxes_end u → no_containers u → containers_gone im0 pre st → containers_gone im0 pre (apply_both clock st u).
Proof.
  intros Hu Hc [H1 H2 H3]. pose proof (update_no_containers st.2 u Hc) as Hv. split.
  - by apply (scheduler_wf_view st.2).
  - intros k sb H. by apply H2, (apply_both_fewer clock st u).
  - intros cid m Hin. unfold apply_both. cbn [snd]. rewrite (wf_view_table _ _ Hv). by apply H3.
Qed.
Lemma remove_executor_container_gone clock im0 eid pre st u cid :
  containers_gone im0 pre st → containers_gone im0 (pre ++ [cid]) (remove_executor_container clock eid (st, u) cid).1.
Proof.
  intros H. unfold remove_executor_container. destruct (handle_allocations_rest st.1 eid cid CTR_ExecutorRemoved) as [R1 R2].
  set (cu := handle_allocations_for_container_termination st.1 eid cid CTR_ExecutorRemoved) in *. cbv zeta. clearbody cu.
  assert (Hcu : sandboxes_end cu) by (intros k sb; rewrite R1; intros Hx; by destruct (lookup_empty_Some k sb)).
  pose proof (containers_gone_both clock im0 pre st cu Hcu R2 H) as H1. set (st1 := apply_both clock st cu) in *. clearbody st1.
  destruct (cs_function_containers st1.2 !! cid) as [fc|] eqn:Efc; cycle 1.
  { destruct H1 as [W1 W2 W3]. split; [done|done|]. intros c m. rewrite elem_of_app, list_elem_of_singleton. intros [?| ->] Hm; [by apply (W3 c)|cbn [fst] in Hm; congruence]. }
  set (fc' := fc <| csm_desired_state := _ |> <| csm_function_container ::= _ |>). cbn [fst].
  pose proof (update_one_container st1.2 cid fc') as Hv. set (s2 := (update_with_intents _ _).1) in *. clearbody s2.
  destruct (terminate_for_container_rest st1.1 (csm_function_container fc')) as [T1 T2]. apply containers_gone_both; [done|done|].
  destruct H1 as [W1 W2 W3]. destruct (update_container_indices_fields st1.2 cid fc') as (F & _). split.
  - cbn [snd]. apply (scheduler_wf_view (update_container_indices st1.2 cid fc')); [done|]. apply update_container_indices_sched_wf; [done| |].
    + intros old. rewrite Efc. intros [= <-]. done.
    + intros uri l Hl Hin. split; [done|]. destruct (wf_reaped _ W1 uri l Hl) as [_ Hd]. by destruct (Hd cid fc Hin Efc).
  - exact W2.
  - cbn [snd]. intros c m. rewrite (wf_view_table _ _ Hv), F, elem_of_app, list_elem_of_singleton, lookup_insert_Some.
    intros Hin [[<- <-]|[Hne Hm]]; [done|]. destruct Hin as [Hin| ->]; [by apply (W3 c)|done].
Qed.

Lemma terminate_for_executor_spec im eid :
  let u := terminate_sandboxes_for_executor im eid in
  sandboxes_end u ∧ no_containers u ∧
  ∀ k sb, im_sandboxes im !! k = Some sb → sb_executor_id sb = Some eid → sandbox_active (sb_status sb) = true → is_Some (su_updated_sandboxes u !! k).
Proof.
  cbv zeta. unfold terminate_sandboxes_for_executor. set (f := λ (u : SchedulerUpdateRequest) (p : SandboxKey * Sandbox), let '(key, sb) := p in _).
  assert (H : sandboxes_end (foldl f empty_update (ord_iter (im_sandboxes im))) ∧ no_containers (foldl f empty_update (ord_iter (im_sandboxes im))) ∧
    ∀ k sb, (k, sb) ∈ ord_iter (im_sandboxes im) → sb_executor_id sb = Some eid → sandbox_active (sb_status sb) = true →
      is_Some (su_updated_sandboxes (foldl f empty_update (ord_iter (im_sandboxes im))) !! k)).
  { apply (foldl_ind_prefix (λ pre u, sandboxes_end u ∧ no_containers u ∧ ∀ k sb, (k, sb) ∈ pre → sb_executor_id sb = Some eid →
      sandbox_active (sb_status sb) = true → is_Some (su_updated_sandboxes u !! k))).
    { split_and!; [intros k sb H; by destruct (lookup_empty_Some k sb)|done..|]. by intros k sb ?%not_elem_of_nil. }
    intros pre [key x] u _ (H1 & H2 & H3). unfold f. set (x' := x <| sb_status := _ |> <| sb_outcome := _ |>).
    destruct (bool_decide (sb_executor_id x = Some eid) && sandbox_active (sb_status x)) eqn:Ec.
    - split_and!; [|done|].
      + intros k sb Hk. change (<[key := x']> (su_updated_sandboxes u) !! k = Some sb) in Hk. apply lookup_insert_Some in Hk as [[_ <-]|[_ ?]]; [done|by apply (H1 k)].
      + intros k sb. rewrite elem_of_app, list_elem_of_singleton. intros Hin He Ha. change (is_Some (<[key := x']> (su_updated_sandboxes u) !! k)).
        rewrite lookup_insert_is_Some'. destruct Hin as [Hin|[= -> ->]]; [right; by apply (H3 k sb)|by left].
    - split_and!; [done..|]. intros k sb. rewrite elem_of_app, list_elem_of_singleton. intros [Hin|[= -> ->]] He Ha; [by apply (H3 k sb)|].
      rewrite He, Ha, bool_decide_true in Ec by done. done. }
  destruct H as (H1 & H2 & H3). split_and!; [done..|]. intros k sb Hk. apply H3. by apply elem_of_ord_iter.
Qed.

Lemma foldl_delete_None `{Countable K} {A} (l : list K) : ∀ (m : gmap K A) k,
  k ∈ l ∨ m !! k = None → foldl (λ m e, delete e m) m l !! k = None.
Proof.
  induction l as [|e l IH]; intros m k; cbn [foldl]; [by intros [?%not_elem_of_nil|?]|]. rewrite elem_of_cons. intros Hk. apply IH.
  destruct (decide (k = e)) as [->|Hne]; [right; apply lookup_delete_eq|]. rewrite lookup_delete_ne by done. naive_solver.
Qed.
Lemma remove_executors_allocations im clock u eid : eid ∈ su_remove_executors u → im_allocations_by_executor (apply_scheduler_update im clock u).1 !! eid = None.
Proof.
  intros Hin. unfold apply_scheduler_update, apply_scheduler_update_inner. destruct (foldl track_allocation _ _) as [im3 ch2]. cbv zeta.
  set (im4 := im3 <| im_allocations_by_executor ::= _ |>). set (im5 := foldl _ im4 _).
  assert (E5 : im_allocations_by_executor im5 = im_allocations_by_executor im4).
  { unfold im5. apply (foldl_ind (λ a, im_allocations_by_executor a = im_allocations_by_executor im4)); [done|]. intros a [key sb] _ <-. apply track_sandbox_allocations. }
  assert (E4 : im_allocations_by_executor im4 !! eid = None).
  { apply foldl_delete_None. by left. }
  rewrite <-E5 in E4. clearbody im5. by destruct (su_function_pool_deficits u), (su_sandbox_pool_deficits u).
Qed.

(** *** Records of allocations *)

(** The update ends a request; a later update never takes that back. *)
Definition ends_request (u : SchedulerUpdateRequest) : Prop := ∃ key ctx, su_updated_request_states u !! key = Some ctx ∧ rc_outcome ctx ≠ None.
Lemma ends_extend u o : ends_request u ∨ ends_request o → ends_request (extend u o).
Proof.
  unfold ends_request. change (su_updated_request_states (extend u o)) with (union_with (λ a b, Some (newer_request_state a b)) (su_updated_request_states u) (su_updated_request_states o)).
  intros [(key & ctx & H & Ho)|(key & ctx & H & Ho)]; exists key; rewrite lookup_union_with, H.
  - destruct (su_updated_request_states o !! key) as [c|]; [|by exists ctx]. cbn. eexists. split; [reflexivity|]. unfold newer_request_state. destruct (rc_outcome ctx) eqn:E; [|done]. destruct (rc_outcome c) eqn:Ec; [by rewrite Ec|by rewrite E].
  - destruct (su_updated_request_states u !! key) as [c|]; [|by exists ctx]. cbn. eexists. split; [reflexivity|]. unfold newer_request_state. destruct (rc_outcome ctx) eqn:E; [|done]. destruct (rc_outcome c); by rewrite E.
Qed.
Lemma forget_runs_records l : ∀ im, im_allocations_by_executor (foldl forget_run im l) = im_allocations_by_executor im.
Proof.
  induction l as [|r l IH]; intros im; [done|]. cbn [foldl]. rewrite IH. unfold forget_run. cbv zeta.
  destruct (bool_decide _); [|done]. unfold demand_decrement. by destruct (run_profile _ r).
Qed.
(** Deleting a request only takes records away. *)
Lemma delete_request_records im ns app req e c i :
  allocation_at (delete_request im ns app req) e c i = allocation_at im e c i ∨ allocation_at (delete_request im ns app req) e c i = None.
Proof.
  unfold delete_request, delete_function_runs, allocation_at. set (im1 := im <| im_request_ctx ::= _ |>). set (runs := (scan_prefix _ _).*2).
  match goal with |- context [im_allocations_by_executor (?x <| im_allocations_by_executor ::= ?f |>)] =>
    change (im_allocations_by_executor (x <| im_allocations_by_executor ::= f |>)) with (f (im_allocations_by_executor x)) end.
  cbv beta. rewrite forget_runs_records, lookup_fmap. change (im_allocations_by_executor im1) with (im_allocations_by_executor im).
  destruct (im_allocations_by_executor im !! e) as [m|]; cbn [fmap option_fmap option_map mbind option_bind]; [|by left]. rewrite lookup_fmap.
  destruct (m !! c) as [m'|]; cbn [fmap option_fmap option_map mbind option_bind]; [|by left]. rewrite map_lookup_filter.
  destruct (m' !! i) as [a|]; cbn [mbind option_bind]; [|by left]. case_guard; cbn; auto.
Qed.
(** The records after an update that adds no allocation and removes no executor. *)
Definition records_kept (ended : Prop) (im im' : InMemoryState) : Prop :=
  im_allocations_by_executor im' = im_allocations_by_executor im ∨
  ended ∧ ∀ e c i, allocation_at im' e c i = allocation_at im e c i ∨ allocation_at im' e c i = None.
Lemma apply_records im clock u : su_new_allocations u = [] → su_remove_executors u = [] → records_kept (ends_request u) im (apply_scheduler_update im clock u).1.
Proof.
  intros En Er. unfold apply_scheduler_update, apply_scheduler_update_inner. rewrite En, Er. cbn [foldl]. cbv zeta. set (im0 := im <| im_clock := clock |>).
  assert (H2 : records_kept (ends_request u) im (foldl track_request (foldl track_run im0 (updated_runs u)) (map_iter (su_updated_request_states u)))).
  { apply (foldl_ind (λ a, records_kept (ends_request u) im a)).
    - left. apply (foldl_ind (λ a, im_allocations_by_executor a = im_allocations_by_executor im)); [done|]. intros a r _ <-. apply track_run_fields.
    - intros a [key ctx] Hin Ha. apply elem_of_map_iter in Hin. unfold track_request. destruct (rc_outcome ctx) eqn:Eo; [|exact Ha]. right.
      split; [exists key, ctx; by rewrite Eo|]. intros e c i. destruct (delete_request_records a (rc_namespace ctx) (rc_application_name ctx) (rc_request_id ctx) e c i) as [->| ->]; [|by right].
      destruct Ha as [Ha|[_ Ha]]; [left; unfold allocation_at; by rewrite Ha|apply Ha]. }
  set (im2 := foldl track_request _ _) in *. clearbody im2.
  match goal with |- context [foldl ?f (?x <| im_allocations_by_executor ::= ?g |>) (map_iter (su_updated_sandboxes u))] =>
    set (im5 := foldl f (x <| im_allocations_by_executor ::= g |>) (map_iter (su_updated_sandboxes u))) end.
  assert (E5 : im_allocations_by_executor im5 = im_allocations_by_executor im2).
  { unfold im5. apply (foldl_ind (λ a, im_allocations_by_executor a = im_allocations_by_executor im2)); [done|]. intros a [key sb] _ <-. apply track_sandbox_allocations. }
  clearbody im5. match goal with |- records_kept _ _ ?x => assert (E : im_allocations_by_executor x = im_allocations_by_executor im2) by
    (by destruct (su_function_pool_deficits u), (su_sandbox_pool_deficits u)) end.
  unfold records_kept, allocation_at in *. by rewrite E.
Qed.
Lemma records_kept_at ended im im' : records_kept ended im im' → ∀ e c i, allocation_at im' e c i = allocation_at im e c i ∨ allocation_at im' e c i = None ∧ ended.
Proof. intros [H|[He H]] e c i; [left; unfold allocation_at; by rewrite H|]. destruct (H e c i); auto. Qed.

(** *** The allocations of one container *)

(** The allocation is closed by the update, as failed or as cancelled. *)
Definition closed_by (reason : ContainerTerminationReason) (u : SchedulerUpdateRequest) (a : Allocation) : Prop :=
  failed_on reason a ∈ su_updated_allocations u ∨ cancelled_allocation a ∈ su_updated_allocations u.
Lemma handle_allocations_closes im eid cid reason :
  let u := handle_allocations_for_container_termination im eid cid reason in
  su_new_allocations u = [] ∧
  su_updated_allocations u = (λ a, match running_on im a with Some _ => failed_on reason a | None => cancelled_allocation a end) <$> allocations_on im eid cid.
Proof.
  unfold handle_allocations_for_container_termination. cbv zeta.
  apply (foldl_ind_prefix (λ pre u, su_new_allocations u = [] ∧
    su_updated_allocations u = (λ a, match running_on im a with Some _ => failed_on reason a | None => cancelled_allocation a end) <$> pre)); [done|].
  intros pre a u _ [H1 H2]. rewrite fail_allocation_eq, fmap_app. cbn [fmap list_fmap]. destruct (running_on im a) as [[[r ctx] av]|]; (split; [exact H1|]); rewrite <-H2; reflexivity.
Qed.
Lemma elem_of_allocations_on im eid cid a : a ∈ allocations_on im eid cid ↔ ∃ i, allocation_at im eid cid i = Some a.
Proof.
  unfold allocations_on, allocation_at. destruct (im_allocations_by_executor im !! eid) as [m|]; cbn [mbind option_bind].
  2:{ split; [by intros ?%not_elem_of_nil|by intros [i ?]]. }
  destruct (m !! cid) as [m'|]; cbn [mbind option_bind]; [|split; [by intros ?%not_elem_of_nil|by intros [i ?]]].
  rewrite list_elem_of_fmap. split.
  - intros ([i x] & -> & H%elem_of_map_iter). by exists i.
  - intros [i H]. exists (i, a). split; [done|]. by apply elem_of_map_iter.
Qed.

(** *** The loop over the containers *)

(** The sandbox of one of the containers. *)
Definition sandbox_of (s : ContainerScheduler) (cids : list ContainerId) (k : SandboxKey) : Prop :=
  ∃ cid m id, cid ∈ cids ∧ cs_function_containers s !! cid = Some m ∧ ctr_sandbox_id (csm_function_container m) = Some id ∧
    k = sandbox_key_new (ctr_namespace (csm_function_container m)) id.
Definition ended_with (o : SandboxOutcome) (sb : Sandbox) : Sandbox := sb <| sb_status := SS_Terminated |> <| sb_outcome := Some o |>.
Definition container_lost : SandboxOutcome := SO_Failure (SFR_ContainerTerminated CTR_ExecutorRemoved).
(** What a sandbox looks like when the containers [pre] are handled: as before and not
    reported, or ended and reported because it is active and of one of them. *)
Definition sandbox_handled (st0 : InMemoryState * ContainerScheduler) (pre : list ContainerId) (now reported : option Sandbox) (k : SandboxKey) : Prop :=
  now = im_sandboxes st0.1 !! k ∧ reported = None ∧ (∀ sb, im_sandboxes st0.1 !! k = Some sb → sandbox_active (sb_status sb) = true → ¬ sandbox_of st0.2 pre k) ∨
  ∃ sb, im_sandboxes st0.1 !! k = Some sb ∧ sandbox_active (sb_status sb) = true ∧ sandbox_of st0.2 pre k ∧ now = None ∧ reported = Some (ended_with container_lost sb).
Definition container_sandbox (m : ContainerServerMetadata) : string * option SandboxId :=
  (ctr_namespace (csm_function_container m), ctr_sandbox_id (csm_function_container m)).
(** The allocations of the containers [pre] and the sandboxes of the containers [done] are
    handled. *)
Record containers_handled (st0 : InMemoryState * ContainerScheduler) (eid : ExecutorId) (pre done : list ContainerId)
    (st : InMemoryState * ContainerScheduler) (u : SchedulerUpdateRequest) : Prop := {
  ch_records : ∀ e c i, allocation_at st.1 e c i = allocation_at st0.1 e c i ∨ allocation_at st.1 e c i = None ∧ ends_request u;
  ch_closed : ∀ cid i a, cid ∈ pre → allocation_at st0.1 eid cid i = Some a → closed_by CTR_ExecutorRemoved u a ∨ allocation_at st.1 eid cid i = None ∧ ends_request u;
  ch_only : ∀ x, x ∈ su_updated_allocations u →
    ∃ cid i a, cid ∈ pre ∧ allocation_at st0.1 eid cid i = Some a ∧ (x = failed_on CTR_ExecutorRemoved a ∨ x = cancelled_allocation a);
  ch_containers : ∀ cid, container_sandbox <$> cs_function_containers st.2 !! cid = container_sandbox <$> cs_function_containers st0.2 !! cid;
  ch_sandboxes : ∀ k, sandbox_handled st0 done (im_sandboxes st.1 !! k) (su_updated_sandboxes u !! k) k;
}.
Lemma sandbox_of_snoc s done cid k :
  sandbox_of s (done ++ [cid]) k ↔ sandbox_of s done k ∨
    ∃ m id, cs_function_containers s !! cid = Some m ∧ ctr_sandbox_id (csm_function_container m) = Some id ∧ k = sandbox_key_new (ctr_namespace (csm_function_container m)) id.
Proof.
  unfold sandbox_of. setoid_rewrite elem_of_app. setoid_rewrite list_elem_of_singleton. split.
  - intros (c & m & id & [Hc| ->] & Hm); [left; by exists c, m, id|right; by exists m, id].
  - intros [(c & m & id & Hc & Hm)|(m & id & Hm)]; [exists c, m, id; by split; [left|]|exists cid, m, id; by split; [right|]].
Qed.
Lemma sandbox_handled_more st0 done done' now reported k :
  (sandbox_of st0.2 done k ↔ sandbox_of st0.2 done' k) → sandbox_handled st0 done now reported k → sandbox_handled st0 done' now reported k.
Proof.
  intros Hd [(H1 & H2 & H3)|(sb & H1 & H2 & H3 & H4)]; [left|right].
  - split_and!; [done|done|]. intros sb Hs Ha. rewrite <-Hd. by apply (H3 sb).
  - exists sb. rewrite <-Hd. done.
Qed.
Lemma extend_no_sandboxes u o : su_updated_sandboxes o = ∅ → su_updated_sandboxes (extend u o) = su_updated_sandboxes u.
Proof. intros E. change (su_updated_sandboxes (extend u o)) with (su_updated_sandboxes o ∪ su_updated_sandboxes u). by rewrite E, (left_id_L ∅ (∪)). Qed.

(** The allocations of one more container. *)
Lemma handled_allocations clock st0 eid pre done st u cid :
  containers_handled st0 eid pre done st u →
  let cu := handle_allocations_for_container_termination st.1 eid cid CTR_ExecutorRemoved in
  containers_handled st0 eid (pre ++ [cid]) done (apply_both clock st cu) (extend u cu).
Proof.
  intros [H1 H2 H3 H4 H5] cu. destruct (handle_allocations_rest st.1 eid cid CTR_ExecutorRemoved) as [R1 R2]. destruct (handle_allocations_closes st.1 eid cid CTR_ExecutorRemoved) as [C1 C2].
  fold cu in R1, R2, C1, C2. clearbody cu. destruct R2 as (R2 & R3 & R4).
  pose proof (records_kept_at _ _ _ (apply_records st.1 clock cu C1 R4)) as Hrec. change (apply_scheduler_update st.1 clock cu).1 with (apply_both clock st cu).1 in Hrec.
  assert (Hgone : ∀ e c i, allocation_at st.1 e c i = None → allocation_at (apply_both clock st cu).1 e c i = None) by (intros e c i E; destruct (Hrec e c i) as [->|[-> _]]; done).
  split.
  - intros e c i. destruct (Hrec e c i) as [->|[-> He]]; [|right; split; [done|apply ends_extend; by right]].
    destruct (H1 e c i) as [->|[-> He]]; [by left|right; split; [done|apply ends_extend; by left]].
  - intros c i a. rewrite elem_of_app, list_elem_of_singleton. unfold closed_by. change (su_updated_allocations (extend u cu)) with (su_updated_allocations u ++ su_updated_allocations cu).
    rewrite !elem_of_app. intros [Hc| ->] Ha.
    + destruct (H2 c i a Hc Ha) as [[?|?]|[Hn He]]; [by auto|by auto|]. right. split; [by apply Hgone|apply ends_extend; by left].
    + destruct (H1 eid cid i) as [E|[E He]]; [|right; split; [by apply Hgone|apply ends_extend; by left]]. left. rewrite Ha in E.
      assert (Hin : (match running_on st.1 a with Some _ => failed_on CTR_ExecutorRemoved a | None => cancelled_allocation a end) ∈ su_updated_allocations cu).
      { rewrite C2. apply list_elem_of_fmap. exists a. split; [done|]. apply elem_of_allocations_on. by exists i. }
      destruct (running_on st.1 a); auto.
  - intros x. change (su_updated_allocations (extend u cu)) with (su_updated_allocations u ++ su_updated_allocations cu). setoid_rewrite elem_of_app. setoid_rewrite list_elem_of_singleton.
    intros [Hx|Hx]; [destruct (H3 x Hx) as (c & i & a & Hc & Ha); exists c, i, a; by split; [left|]|].
    rewrite C2 in Hx. apply list_elem_of_fmap in Hx as (a & -> & [i Ha]%elem_of_allocations_on). exists cid, i, a. split; [by right|].
    destruct (H1 eid cid i) as [E|[E _]]; [|congruence]. split; [congruence|]. destruct (running_on st.1 a); auto.
  - intros c. rewrite <-H4. unfold apply_both. cbn [snd]. by rewrite (wf_view_table _ _ (update_no_containers st.2 cu (conj R2 (conj R3 R4)))).
  - intros k. rewrite apply_both_sandboxes, extend_no_sandboxes, R1 by done. rewrite lookup_empty. apply H5.
Qed.
(** One more container is marked terminated. *)
Lemma handled_container st0 eid pre done im s u cid fc fc' :
  containers_handled st0 eid pre done (im, s) u → cs_function_containers s !! cid = Some fc → container_sandbox fc' = container_sandbox fc →
  let tu := empty_update <| su_containers := {[cid := fc']} |> in
  containers_handled st0 eid pre done (im, (update_with_intents s (RP_SchedulerUpdate tu)).1) (extend u tu).
Proof.
  intros [H1 H2 H3 H4 H5] Hfc Hsb tu. cbn [fst snd] in *.
  assert (He : ends_request u → ends_request (extend u tu)) by (intros; apply ends_extend; by left).
  assert (Ea : su_updated_allocations (extend u tu) = su_updated_allocations u) by apply app_nil_r. unfold closed_by in *. split; unfold closed_by; rewrite ?Ea; cbn [fst snd].
  - intros e c i. destruct (H1 e c i) as [?|[? ?]]; auto.
  - intros c i a Hc Ha. destruct (H2 c i a Hc Ha) as [?|[? ?]]; auto.
  - exact H3.
  - intros c. unfold tu. rewrite <-H4, (wf_view_table _ _ (update_one_container s cid fc')). destruct (update_container_indices_fields s cid fc') as (-> & _).
    rewrite lookup_insert. case_decide; [subst c; rewrite Hfc; cbn; by rewrite Hsb|done].
  - intros k. rewrite extend_no_sandboxes by done. apply H5.
Qed.
(** The sandbox of one more container. *)
Lemma handled_sandbox clock st0 eid pre done st u cid m c :
  containers_handled st0 eid pre done st u → cs_function_containers st0.2 !! cid = Some m →
  (ctr_namespace c, ctr_sandbox_id c) = container_sandbox m → ctr_state c = CS_Terminated CTR_ExecutorRemoved →
  let su := terminate_sandbox_for_container st.1 c in
  containers_handled st0 eid pre (done ++ [cid]) (apply_both clock st su) (extend u su).
Proof.
  intros [H1 H2 H3 H4 H5] Hm Hc Hst su.
  assert (Hsu : su_new_allocations su = [] ∧ su_updated_allocations su = [] ∧ no_containers su ∧ su_updated_request_states su = ∅).
  { unfold su, terminate_sandbox_for_container. destruct (ctr_sandbox_id c); [|done]. destruct (im_sandboxes st.1 !! _) as [sb|]; [|done]. by destruct (sandbox_active _). }
  destruct Hsu as (E1 & E2 & E3 & E4). pose proof E3 as (_ & _ & E5).
  assert (Hnot : ¬ ends_request su) by (intros (key & ctx & H & _); by rewrite E4, lookup_empty in H).
  pose proof (records_kept_at _ _ _ (apply_records st.1 clock su E1 E5)) as Hrec. change (apply_scheduler_update st.1 clock su).1 with (apply_both clock st su).1 in Hrec.
  assert (Hat : ∀ e k i, allocation_at (apply_both clock st su).1 e k i = allocation_at st.1 e k i) by (intros e k i; destruct (Hrec e k i) as [?|[_ ?]]; done).
  assert (He : ends_request u → ends_request (extend u su)) by (intros; apply ends_extend; by left).
  assert (Ea : su_updated_allocations (extend u su) = su_updated_allocations u)
    by (change (su_updated_allocations (extend u su)) with (su_updated_allocations u ++ su_updated_allocations su); by rewrite E2, app_nil_r).
  split; unfold closed_by in *; rewrite ?Ea.
  - intros e k i. rewrite Hat. destruct (H1 e k i) as [?|[? ?]]; auto.
  - intros k i a Hk Ha. rewrite Hat. destruct (H2 k i a Hk Ha) as [?|[? ?]]; auto.
  - exact H3.
  - intros k. rewrite <-H4. unfold apply_both. cbn [snd]. by rewrite (wf_view_table _ _ (update_no_containers st.2 su E3)).
  - intros k. rewrite apply_both_sandboxes. change (su_updated_sandboxes (extend u su)) with (su_updated_sandboxes su ∪ su_updated_sandboxes u).
    specialize (H5 k). unfold container_sandbox in Hc. injection Hc as Hns Hid. clear Hat Hrec Hnot He Ea E1 E2 E3 E4 E5 H1 H2 H3 H4.
    assert (Hmine : sandbox_of st0.2 (done ++ [cid]) k ↔ sandbox_of st0.2 done k ∨ ∃ id, ctr_sandbox_id c = Some id ∧ k = sandbox_key_new (ctr_namespace c) id).
    { rewrite sandbox_of_snoc. setoid_rewrite Hm. rewrite Hns, Hid. split; (intros [?|Hx]; [by left|right]).
      - destruct Hx as (m' & id & [= <-] & ? & ?). eauto.
      - destruct Hx as (id & ? & ?). eauto. }
    assert (Hsame : su_updated_sandboxes su !! k = None → (∀ id, ctr_sandbox_id c = Some id → k = sandbox_key_new (ctr_namespace c) id →
        ∀ sb, im_sandboxes st.1 !! k = Some sb → sandbox_active (sb_status sb) = false) →
      sandbox_handled st0 (done ++ [cid]) (sandbox_after (im_sandboxes st.1 !! k) (su_updated_sandboxes su !! k)) ((su_updated_sandboxes su ∪ su_updated_sandboxes u) !! k) k).
    { intros En Hin. rewrite lookup_union, En, (left_id_L None _). cbn [sandbox_after]. destruct H5 as [(A1 & A2 & A3)|(sb & B1 & B2 & B3 & B4)].
      - left. split_and!; [done|done|]. intros sb Hs Ha. rewrite Hmine. intros [Ho|(id & E & Ek)]; [by apply (A3 sb)|].
        rewrite A1 in Hin. rewrite (Hin id E Ek sb Hs) in Ha. done.
      - right. exists sb. rewrite Hmine. split_and!; [done|done|by left|apply B4|apply B4]. }
    unfold su, terminate_sandbox_for_container in *. destruct (ctr_sandbox_id c) as [id|] eqn:Eid; [|by apply Hsame].
    set (key := sandbox_key_new (ctr_namespace c) id) in *. destruct (im_sandboxes st.1 !! key) as [sb|] eqn:Esb.
    2:{ apply Hsame; [done|]. intros id' [= <-] -> sb Hs. fold key in Hs. congruence. }
    destruct (sandbox_active (sb_status sb)) eqn:Eact.
    2:{ apply Hsame; [done|]. intros id' [= <-] -> sb' Hs. fold key in Hs. congruence. }
    set (sb' := sb <| sb_status := _ |> <| sb_outcome := _ |>) in *.
    change (su_updated_sandboxes (empty_update <| su_updated_sandboxes := {[key := sb']} |>)) with ({[key := sb']} : gmap SandboxKey Sandbox) in *.
    destruct (decide (k = key)) as [->|Hne]; cycle 1.
    { apply Hsame; [by apply lookup_singleton_ne|]. intros id' [= <-] ->. by destruct Hne. }
    right. rewrite lookup_union, lookup_singleton_eq. destruct H5 as [(A1 & _ & _)|(x & _ & _ & _ & A4 & _)]; [|congruence].
    exists sb. split_and!; [congruence|done|apply Hmine; right; eauto|done|].
    rewrite union_Some_l. unfold sb', ended_with, container_lost. by rewrite Hst.
Qed.
Lemma remove_container_handled clock st0 eid pre st u cid :
  containers_handled st0 eid pre pre st u →
  let acc := remove_executor_container clock eid (st, u) cid in containers_handled st0 eid (pre ++ [cid]) (pre ++ [cid]) acc.1 acc.2.
Proof.
  intros H. unfold remove_executor_container. pose proof (handled_allocations clock st0 eid pre pre st u cid H) as H1. cbv zeta in H1 |- *.
  set (cu := handle_allocations_for_container_termination st.1 eid cid CTR_ExecutorRemoved) in *. clearbody cu.
  destruct (apply_both clock st cu) as [im1 s1]. cbn [fst snd] in *. set (u1 := extend u cu) in *. clearbody u1. pose proof (ch_containers _ _ _ _ _ _ H1 cid) as Hm. cbn [snd] in Hm.
  destruct (cs_function_containers s1 !! cid) as [fc|] eqn:Efc; cbn [fst snd].
  - destruct (cs_function_containers st0.2 !! cid) as [m|] eqn:Em; [|done]. cbn in Hm. injection Hm as Hns Hid.
    set (fc' := fc <| csm_desired_state := _ |> <| csm_function_container ::= _ |>).
    pose proof (handled_container st0 eid (pre ++ [cid]) pre im1 s1 u1 cid fc fc' H1 Efc eq_refl) as H2. cbv zeta in H2.
    apply (handled_sandbox clock st0 eid (pre ++ [cid]) pre _ _ cid m (csm_function_container fc') H2 Em); [|done]. unfold container_sandbox. rewrite <-Hns, <-Hid. done.
  - destruct (cs_function_containers st0.2 !! cid) as [m|] eqn:Em; [done|]. destruct H1 as [A1 A2 A3 A4 A5]. split; [done..|]. intros k.
    apply (sandbox_handled_more st0 pre); [|apply A5]. rewrite sandbox_of_snoc. split; [by left|]. intros [?|(m & id & Hm' & _)]; [done|congruence].
Qed.

(** The sandboxes that end with their executor. *)
Lemma terminate_for_executor_exact im eid k :
  let gone sb := bool_decide (sb_executor_id sb = Some eid) && sandbox_active (sb_status sb) in
  su_updated_sandboxes (terminate_sandboxes_for_executor im eid) !! k =
    (im_sandboxes im !! k) ≫= λ sb, if gone sb then Some (ended_with (SO_Failure SFR_ExecutorRemoved) sb) else None.
Proof.
  intros gone. unfold terminate_sandboxes_for_executor. set (f := λ (u : SchedulerUpdateRequest) (p : SandboxKey * Sandbox), let '(key, sb) := p in _).
  assert (H : ∀ l u, NoDup l.*1 → su_updated_sandboxes u !! k = None ∨ k ∉ l.*1 →
    su_updated_sandboxes (foldl f u l) !! k = match su_updated_sandboxes u !! k with Some x => Some x | None =>
      list_find (λ kv, kv.1 = k) l ≫= λ ikv, if gone ikv.2.2 then Some (ended_with (SO_Failure SFR_ExecutorRemoved) ikv.2.2) else None end).
  { induction l as [|[key sb] l IH]; intros u Hnd Hk; [by destruct (_ !! k)|]. apply NoDup_cons in Hnd as [Hn Hnd]. cbn [foldl list_find fst].
    assert (Eu : su_updated_sandboxes (f u (key, sb)) !! k = if gone sb then <[key := ended_with (SO_Failure SFR_ExecutorRemoved) sb]> (su_updated_sandboxes u) !! k else su_updated_sandboxes u !! k)
      by (unfold f; fold (gone sb); by destruct (gone sb)).
    destruct (decide (key = k)) as [->|Hne].
    - assert (Eu0 : su_updated_sandboxes u !! k = None) by (destruct Hk as [?|Hk]; [done|destruct Hk; left]).
      rewrite IH by (done || (right; done)). rewrite Eu, Eu0, lookup_insert_eq. cbn [mbind option_bind snd]. destruct (gone sb); [done|].
      assert (En : list_find (λ kv : SandboxKey * Sandbox, kv.1 = k) l = None).
      { apply list_find_None, Forall_forall. intros [k' x] Hx Hk'. cbn in Hk'. subst k'. apply Hn. by apply (list_elem_of_fmap_2 fst _ (k, x)). }
      by rewrite En.
    - rewrite lookup_insert_ne in Eu by done. assert (Eu' : su_updated_sandboxes (f u (key, sb)) !! k = su_updated_sandboxes u !! k) by (rewrite Eu; by destruct (gone sb)).
      rewrite IH, Eu'; [|done|rewrite Eu'; destruct Hk as [?|Hk]; [by left|right; set_solver]].
      destruct (su_updated_sandboxes u !! k); [done|]. by destruct (list_find (λ kv : SandboxKey * Sandbox, kv.1 = k) l) as [[n x]|]. }
  rewrite H; [|apply NoDup_ord_iter_fst|left; apply lookup_empty]. change (su_updated_sandboxes empty_update !! k) with ((∅ : gmap SandboxKey Sandbox) !! k). rewrite lookup_empty.
  destruct (list_find (λ kv : SandboxKey * Sandbox, kv.1 = k) (ord_iter (im_sandboxes im))) as [[n [k' sb]]|] eqn:Ef.
  - apply list_find_Some in Ef as (Hn & Hk & _). cbn in Hk. subst k'. apply list_elem_of_lookup_2, elem_of_ord_iter in Hn. by rewrite Hn.
  - apply list_find_None in Ef. rewrite Forall_forall in Ef. destruct (im_sandboxes im !! k) as [sb|] eqn:Es; [|done]. destruct (Ef (k, sb)); [by apply elem_of_ord_iter|done].
Qed.

(** C35: deregistering an executor handles everything of it and nothing else.  Its active
    sandboxes are ended and reported as such, with the executor as the reason, and so are
    the active sandboxes of its containers; every other sandbox stays as it is and is not
    reported.  None of its containers is alive, and the indexes of the scheduler stay
    consistent.  Every allocation recorded in its containers is closed, as failed or as
    cancelled, unless its record went away with a request that the deregistration itself
    ended; no other allocation is touched.  Once the update is applied, no allocation is
    recorded for the executor. *)
Theorem deregistration_complete clock st eid :
  scheduler_wf st.2 →
  let '(st', u) := reconciler_deregister_executor clock st eid in
  let cids := executor_container_ids st eid in
  scheduler_wf st'.2 ∧
  (∀ k sb, im_sandboxes st.1 !! k = Some sb → sandbox_active (sb_status sb) = true → sb_executor_id sb = Some eid →
     im_sandboxes st'.1 !! k = None ∧ su_updated_sandboxes u !! k = Some (ended_with (SO_Failure SFR_ExecutorRemoved) sb)) ∧
  (∀ k sb, im_sandboxes st.1 !! k = Some sb → sandbox_active (sb_status sb) = true → sb_executor_id sb ≠ Some eid → sandbox_of st.2 cids k →
     im_sandboxes st'.1 !! k = None ∧ su_updated_sandboxes u !! k = Some (ended_with container_lost sb)) ∧
  (∀ k, (∀ sb, im_sandboxes st.1 !! k = Some sb → sandbox_active (sb_status sb) = true → sb_executor_id sb ≠ Some eid ∧ ¬ sandbox_of st.2 cids k) →
     im_sandboxes st'.1 !! k = im_sandboxes st.1 !! k ∧ su_updated_sandboxes u !! k = None) ∧
  (∀ cid m, cid ∈ cids → cs_function_containers st'.2 !! cid = Some m → live m = false) ∧
  (∀ cid i a, cid ∈ cids → allocation_at st.1 eid cid i = Some a →
     closed_by CTR_ExecutorRemoved u a ∨ allocation_at st'.1 eid cid i = None ∧ ends_request u) ∧
  (∀ x, x ∈ su_updated_allocations u →
     ∃ cid i a, cid ∈ cids ∧ allocation_at st.1 eid cid i = Some a ∧ (x = failed_on CTR_ExecutorRemoved a ∨ x = cancelled_allocation a)) ∧
  ∀ clock', im_allocations_by_executor (apply_scheduler_update st'.1 clock' u).1 !! eid = None.
Proof.
  intros Hs. unfold reconciler_deregister_executor. destruct (terminate_for_executor_spec st.1 eid) as (_ & T2 & _). pose proof (terminate_for_executor_exact st.1 eid) as T. cbv zeta in T.
  assert (Tq : su_new_allocations (terminate_sandboxes_for_executor st.1 eid) = [] ∧ su_updated_allocations (terminate_sandboxes_for_executor st.1 eid) = [] ∧ su_updated_request_states (terminate_sandboxes_for_executor st.1 eid) = ∅).
  { unfold terminate_sandboxes_for_executor. apply (foldl_ind (λ u, su_new_allocations u = [] ∧ su_updated_allocations u = [] ∧ su_updated_request_states u = ∅)); [done|]. intros u [k sb] _ H. by destruct (_ && _). }
  destruct Tq as (Q1 & Q2 & Q3). set (su := terminate_sandboxes_for_executor st.1 eid) in *. clearbody su. cbv zeta. set (st1 := if bool_decide _ then st else _).
  pose proof (update_no_containers st.2 su T2) as Hv.
  assert (Hnot : ¬ ends_request su) by (intros (key & ctx & H & _); by rewrite Q3, lookup_empty in H).
  assert (H1 : wf_view st1.2 = wf_view st.2 ∧ im_allocations_by_executor st1.1 = im_allocations_by_executor st.1 ∧
    ∀ k, im_sandboxes st1.1 !! k = match su_updated_sandboxes su !! k with Some _ => None | None => im_sandboxes st.1 !! k end).
  { unfold st1. case_bool_decide as He; [split_and!; [done|done|]; intros k; by rewrite He, lookup_empty|]. split_and!; [done| |].
    - destruct (apply_records st.1 clock su Q1 (proj2 (proj2 T2))) as [E|[E _]]; [exact E|done].
    - intros k. rewrite apply_both_sandboxes, T. destruct (im_sandboxes st.1 !! k) as [sb|]; [|done]. cbn. by destruct (_ && _). }
  clearbody st1. destruct H1 as (W1 & E1 & S1).
  assert (Eids : executor_container_ids st1 eid = executor_container_ids st eid).
  { unfold executor_container_ids. rewrite E1. replace (cs_executor_states st1.2) with (cs_executor_states st.2) by (symmetry; exact (f_equal (λ v, v.1.2.1) W1)). done. }
  pose proof (wf_view_table _ _ W1) as Ec. assert (Hat : ∀ e c i, allocation_at st1.1 e c i = allocation_at st.1 e c i) by (intros; unfold allocation_at; by rewrite E1).
  unfold remove_all_function_executors_for_executor. rewrite Eids. set (cids := executor_container_ids st eid).
  assert (Hg : containers_gone st1.1 cids (foldl (remove_executor_container clock eid) (st1, empty_update) cids).1 ∧
    containers_handled st1 eid cids cids (foldl (remove_executor_container clock eid) (st1, empty_update) cids).1 (foldl (remove_executor_container clock eid) (st1, empty_update) cids).2).
  { apply (foldl_ind_prefix (λ pre acc, containers_gone st1.1 pre acc.1 ∧ containers_handled st1 eid pre pre acc.1 acc.2)).
    - split; [split; [by apply (scheduler_wf_view st.2)|done|]; by intros c m ?%not_elem_of_nil|]. split; cbn [fst snd].
      + by left.
      + by intros c i a ?%not_elem_of_nil.
      + by intros x ?%not_elem_of_nil.
      + done.
      + intros k. left. split_and!; [done|apply lookup_empty|]. intros sb _ _ (c & m & id & Hc & _). by apply not_elem_of_nil in Hc.
    - intros pre cid [st' u] _ [IH1 IH2]. split; [by apply remove_executor_container_gone|by apply remove_container_handled]. }
  destruct (foldl _ _ _) as [st2 ru]. cbn [fst snd] in Hg. destruct Hg as [[G1 _ G3] [C1 C2 C3 _ C5]].
  assert (Ea : su_updated_allocations (extend (extend (empty_update <| su_remove_executors := [eid] |>) su) ru) = su_updated_allocations ru)
    by (change (([] ++ su_updated_allocations su) ++ su_updated_allocations ru = su_updated_allocations ru); by rewrite Q2).
  set (u := extend (extend _ su) ru) in *.
  assert (Eu : ∀ k, su_updated_sandboxes u !! k = match su_updated_sandboxes ru !! k with Some x => Some x | None => su_updated_sandboxes su !! k end).
  { intros k. change (su_updated_sandboxes u) with (su_updated_sandboxes ru ∪ (su_updated_sandboxes su ∪ ∅)). rewrite (right_id_L ∅ (∪)), lookup_union. by destruct (_ !! k), (_ !! k). }
  assert (Hsb : ∀ k, sandbox_of st1.2 cids k ↔ sandbox_of st.2 cids k) by (intros k; unfold sandbox_of; by rewrite Ec). split_and!.
  - done.
  - intros k sb Hk Ha He. specialize (C5 k). specialize (S1 k). rewrite Eu. rewrite T, Hk in S1 |- *. cbn in S1 |- *. rewrite bool_decide_true, Ha in S1 |- * by done. cbn in S1 |- *.
    destruct C5 as [(A1 & A2 & _)|(x & B1 & _)]; [|congruence]. rewrite A1, A2. done.
  - intros k sb Hk Ha He Ho. specialize (C5 k). specialize (S1 k). rewrite Eu. rewrite T, Hk in S1. cbn in S1. rewrite bool_decide_false in S1 by done. cbn in S1.
    destruct C5 as [(A1 & A2 & A3)|(x & B1 & B2 & B3 & B4 & B5)]; [destruct (A3 sb S1 Ha); by apply Hsb|]. rewrite B4, B5. split; [done|congruence].
  - intros k Hk. specialize (C5 k). specialize (S1 k). rewrite Eu. rewrite T in S1. rewrite T. destruct (im_sandboxes st.1 !! k) as [sb|] eqn:Es; cbn in S1 |- *.
    + specialize (Hk sb eq_refl). destruct (bool_decide (sb_executor_id sb = Some eid) && sandbox_active (sb_status sb)) eqn:Eg.
      { apply andb_true_iff in Eg as [Eg%bool_decide_eq_true Ea']. by destruct (Hk Ea'). }
      destruct C5 as [(A1 & A2 & _)|(x & B1 & B2 & B3 & _)]; [rewrite A1, A2; done|]. assert (x = sb) as -> by congruence. destruct (Hk B2) as [_ Hn]. destruct Hn. by apply Hsb.
    + destruct C5 as [(A1 & A2 & _)|(x & B1 & _)]; [rewrite A1, A2; done|congruence].
  - exact G3.
  - intros cid i a Hc Ha. unfold closed_by. rewrite Ea. rewrite <-Hat in Ha. destruct (C2 cid i a Hc Ha) as [?|[? He]]; [by left|right]. split; [done|]. apply ends_extend. by right.
  - intros x. rewrite Ea. intros (cid & i & a & Hc & Ha & Hx)%C3. rewrite Hat in Ha. by exists cid, i, a.
  - intros clock'. apply remove_executors_allocations. cbn. apply list_elem_of_here.
Qed.
End deregistration.

(** ** Examples *)

(** Two runs of one request, allocated to the same container. *)
Definition allocation_of_ex (id run : string) : Allocation :=
  MkAllocation id (MkAllocationTarget "e1" "c1") run "ns" "app" "v1" "fn" "r1" 0 FRO_Unknown 0 None [] 0 "".
Definition sharing_ctx_ex : RequestCtx :=
  request_ex None (<["x" := function_run_ex "x" "v1" (FRS_Running "a1")]> {["y" := function_run_ex "y" "v1" (FRS_Running "a2")]}).
Definition retriable_state_ex (ctx : RequestCtx) : InMemoryState :=
  running_state_ex ctx <| im_application_versions := {["ns|app|v1" := version_ex 3]} |>
    <| im_function_runs := kmap (λ id, "ns|app|r1|" +:+ id) (rc_function_runs ctx) |>.
Definition sharing_ex : InMemoryState :=
  retriable_state_ex sharing_ctx_ex
    <| im_allocations_by_executor := {["e1" := {["c1" := <["a1" := allocation_of_ex "a1" "x"]> {["a2" := allocation_of_ex "a2" "y"]}]}]} |>.
Definition executor_lost_ex := @reconciler_deregister_executor canonical_order 1 (sharing_ex, idle_scheduler_ex) "e1".
Definition after_loss_ex : InMemoryState := (@apply_scheduler_update canonical_order executor_lost_ex.1.1 1 executor_lost_ex.2).1.

(** An executor that goes away with two runs of one request in the same container
    loses one of them.  The request context is read anew for every allocation, so the
    second update overwrites what the first one recorded: one run is rescheduled, the
    other still counts as running an allocation that no longer exists, and it is
    neither pending nor listed for allocation. *)
Theorem sibling_run_lost :
  running_on sharing_ex (allocation_of_ex "a1" "x") ≠ None ∧ running_on sharing_ex (allocation_of_ex "a2" "y") ≠ None ∧
  al_id <$> su_updated_allocations executor_lost_ex.2 = ["a1"%string; "a2"%string] ∧
  fr_id <$> @unallocated_function_runs canonical_order executor_lost_ex.2 = ["y"%string] ∧
  fr_status <$> im_function_runs after_loss_ex !! "ns|app|r1|y"%string = Some FRS_Pending ∧
  fr_status <$> im_function_runs after_loss_ex !! "ns|app|r1|x"%string = Some (FRS_Running "a1") ∧
  elements (im_unallocated_function_runs after_loss_ex) = ["ns|app|r1|y"%string] ∧
  im_allocations_by_executor after_loss_ex !! "e1"%string = None.
Proof. split_and!; vm_compute; first [discriminate|reflexivity]. Qed.

(** A server that has just started hears from an executor with a busy container. *)
Definition reporting_executor_ex : ExecutorMetadata :=
  executor_ex "e1" (zone "a") <| em_containers := {["c1" := ctr_ex "c1" cres_ex <| ctr_state := CS_Running |>]} |>.
Definition restarted_ex : ContainerScheduler := upsert_executor (insert_pool empty_scheduler (pool_ex None)) reporting_executor_ex.
Definition adopted_ex := @reconcile_executor_state canonical_order 1 (λ _, 10) (sharing_ex, restarted_ex) "e1".

(** A container that is adopted from an executor counts as idle although its
    allocations are known, and the next reap terminates it with two runs in it. *)
Theorem adopted_container_reaped_busy :
  is_ok adopted_ex.2 = true ∧
  (λ m, (live m, elements (csm_allocations m), csm_idle_since m)) <$> cs_function_containers adopted_ex.1.2 !! "c1"%string = Some (true, [], Some 10) ∧
  al_id <$> @allocations_on canonical_order adopted_ex.1.1 "e1" "c1" = ["a1"%string; "a2"%string] ∧
  live <$> cs_function_containers (@reap_idle_containers canonical_order adopted_ex.1.2 0 20).1 !! "c1"%string = Some false.
Proof. split_and!; vm_compute; reflexivity. Qed.

(** One run in the container that goes away. *)
Definition lone_ex : InMemoryState :=
  retriable_state_ex (request_ex None {["x" := function_run_ex "x" "v1" (FRS_Running "a1")]})
    <| im_allocations_by_executor := {["e1" := {["c1" := {["a1" := allocation_of_ex "a1" "x"]}]}]} |>.
Lemma lone_ex_keyed : runs_wf lone_ex ∧ ctxs_keyed lone_ex.
Proof.
  assert (E : im_function_runs lone_ex = {["ns|app|r1|x"%string := function_run_ex "x" "v1" (FRS_Running "a1")]}) by reflexivity.
  split; [split|].
  - intros k r. rewrite E. by intros [<- <-]%lookup_singleton_Some.
  - intros k. rewrite E. split; [intros Hk; by apply not_elem_of_empty in Hk|]. by intros (r & [_ <-]%lookup_singleton_Some & ?).
  - intros key ctx. change (im_request_ctx lone_ex) with
      ({["ns|app|r1"%string := request_ex None {["x" := function_run_ex "x" "v1" (FRS_Running "a1")]}]} : gmap string RequestCtx).
    by intros [<- <-]%lookup_singleton_Some.
Qed.
Definition lone_update_ex := @handle_allocations_for_container_termination canonical_order lone_ex "e1" "c1" CTR_ExecutorRemoved.
Lemma container_loss_requeues_runs_witness :
  al_id <$> su_updated_allocations lone_update_ex = ["a1"%string] ∧
  ∃ r, fr_status r = FRS_Pending ∧ r ∈ @unallocated_function_runs canonical_order lone_update_ex.
Proof.
  destruct (@container_loss_requeues_runs canonical_order lone_ex "e1" "c1" CTR_ExecutorRemoved (proj1 lone_ex_keyed) (proj2 lone_ex_keyed)) as [H1 H2].
  - assert (E : @allocations_on canonical_order lone_ex "e1" "c1" = [allocation_of_ex "a1" "x"]) by reflexivity. rewrite E.
    intros [|[|i]] [|[|j]] a b ra ca va rb cb vb Hi Hj; simpl in *; congruence.
  - fold lone_update_ex in H1, H2. split; [vm_compute; reflexivity|].
    destruct (H2 (allocation_of_ex "a1" "x") (function_run_ex "x" "v1" (FRS_Running "a1"))
      (request_ex None {["x" := function_run_ex "x" "v1" (FRS_Running "a1")]}) (version_ex 3)) as [[[Hp Hu]|[Hc _]] _].
    + apply list_elem_of_here.
    + reflexivity.
    + eexists. split; [exact Hp|exact Hu].
    + vm_compute in Hc. discriminate.
Defined.

Lemma deregistration_complete_witness :
  scheduler_wf executor_lost_ex.1.2 ∧ live <$> cs_function_containers executor_lost_ex.1.2 !! "c1"%string = Some false ∧
  closed_by CTR_ExecutorRemoved executor_lost_ex.2 (allocation_of_ex "a1" "x") ∧ im_allocations_by_executor after_loss_ex !! "e1"%string = None.
Proof.
  pose proof (@deregistration_complete canonical_order 1 (sharing_ex, idle_scheduler_ex) "e1" idle_scheduler_ex_wf) as H. fold executor_lost_ex in H.
  unfold after_loss_ex. assert (Hl : live <$> cs_function_containers executor_lost_ex.1.2 !! "c1"%string = Some false) by (vm_compute; reflexivity).
  assert (Hr : allocation_at executor_lost_ex.1.1 "e1" "c1" "a1" = Some (allocation_of_ex "a1" "x")) by (vm_compute; reflexivity).
  destruct executor_lost_ex as [st' u]. cbn [fst snd] in Hr |- *. destruct H as (H1 & _ & _ & _ & _ & H5 & _ & H8). split; [exact H1|]. split; [exact Hl|]. split; [|exact (H8 1)].
  destruct (H5 "c1" "a1" (allocation_of_ex "a1" "x")) as [[H|H]|[H _]]; [apply (bool_decide_eq_true_1 _); vm_compute; reflexivity|vm_compute; reflexivity|left; exact H|right; exact H|].
  rewrite Hr in H. discriminate H.
Defined.
