(* ===== verification/StateChanges.v ===== *)
(** * State changes

    [StateMachineUpdateRequest::state_changes] of [requests.rs] with the builders of
    [state_changes.rs], and [generate_state_changes_for_payload] of
    [application_processor.rs]: the events a write request stands for.

    [seq] is the value of the shared counter of state-change ids, [now] the time of
    the call; every builder returns the changes and the counter after it. *)
From S2P Require Import Prelude DataModel Updates.

(** One state change, as every builder makes it. *)
Definition new_state_change (seq now : Z) (object_id : string) (ct : ChangeType) (ns app : option string) : list StateChange * Z :=
  ([MkStateChange seq object_id ct now None ns app], wrap64 (seq + 1)).

Definition graph_updates_of (g : RequestUpdates) : GraphUpdates := MkGraphUpdates (ru_request_updates g) (ru_output_function_call_id g).

Definition invoke_application_change (seq now : Z) (ns app : string) (ctx : RequestCtx) : list StateChange * Z :=
  new_state_change seq now (rc_request_id ctx) (CH_InvokeApplication (rc_request_id ctx) ns app) (Some ns) (Some app).
Definition create_function_call_change (seq now : Z) (ns app req : string) (g : RequestUpdates) (source : FunctionCallId) : list StateChange * Z :=
  new_state_change seq now req (CH_CreateFunctionCall (MkFunctionCallEvent ns app req source (graph_updates_of g))) (Some ns) (Some app).
Definition tombstone_application_change (seq now : Z) (ns name : string) : list StateChange * Z :=
  new_state_change seq now name (CH_TombstoneApplication ns name) (Some ns) (Some name).
Definition tombstone_request_change (seq now : Z) (ns app req : string) : list StateChange * Z :=
  new_state_change seq now req (CH_TombstoneRequest ns app req) (Some ns) (Some app).
(** [task_outputs_ingested]. *)
Definition output_event (o : AllocationOutput) : AllocationOutputIngestedEvent :=
  let a := aout_allocation o in
  MkAllocationOutputIngestedEvent (al_namespace a) (al_application a) (al_function a) (aout_request_id o) (al_function_call_id a)
    (aout_data_payload o) (graph_updates_of <$> aout_graph_updates o) (aout_request_exception o) (al_id a) (al_target a)
    (al_outcome a) (al_execution_duration_ms a).
Definition task_outputs_ingested_change (seq now : Z) (o : AllocationOutput) : list StateChange * Z :=
  let a := aout_allocation o in
  new_state_change seq now (al_function_call_id a) (CH_AllocationOutputsIngested (output_event o)) (Some (al_namespace a)) (Some (al_application a)).
Definition create_sandbox_change (seq now : Z) (sb : Sandbox) : list StateChange * Z :=
  new_state_change seq now (sb_id sb) (CH_CreateSandbox (sb_namespace sb) (sb_id sb)) (Some (sb_namespace sb)) None.
Definition terminate_sandbox_change (seq now : Z) (ns id : string) : list StateChange * Z :=
  new_state_change seq now id (CH_TerminateSandbox ns id) (Some ns) None.
Definition create_container_pool_change (seq now : Z) (p : ContainerPool) : list StateChange * Z :=
  new_state_change seq now (cp_id p) (CH_CreateContainerPool (cp_namespace p) (cp_id p)) (Some (cp_namespace p)) None.
Definition update_container_pool_change (seq now : Z) (p : ContainerPool) : list StateChange * Z :=
  new_state_change seq now (cp_id p) (CH_UpdateContainerPool (cp_namespace p) (cp_id p)) (Some (cp_namespace p)) None.
Definition delete_container_pool_change (seq now : Z) (ns : string) (id : ContainerPoolId) : list StateChange * Z :=
  new_state_change seq now id (CH_DeleteContainerPool ns id) (Some ns) None.
(** [create_or_update_application_pools]. *)
Fixpoint create_or_update_application_pools (seq now : Z) (ns : string) (app : Application) (pools : list ContainerPool) : list StateChange * Z :=
  match pools with
  | [] => ([], seq)
  | p :: pools =>
      let '(c, seq1) := new_state_change seq now (cp_id p) (CH_CreateContainerPool ns (cp_id p)) (Some ns) (Some (app_name app)) in
      let '(cs, seq2) := create_or_update_application_pools seq1 now ns app pools in
      (c ++ cs, seq2)
  end.
Definition snapshot_sandbox_change (seq now : Z) (snap : Snapshot) (upload_uri : string) : list StateChange * Z :=
  new_state_change seq now (snap_id snap) (CH_SnapshotSandbox (snap_namespace snap) (snap_sandbox_id snap) (snap_id snap) upload_uri)
    (Some (snap_namespace snap)) None.
Definition dataplane_results_ingested_change (seq now : Z) (ev : DataplaneResultsIngestedEvent) : list StateChange * Z :=
  new_state_change seq now (dr_executor_id ev) (CH_DataplaneResultsIngested ev) None None.

(** [StateMachineUpdateRequest::state_changes]. *)
Definition state_changes (seq now : Z) (payload : RequestPayload) : list StateChange * Z :=
  match payload with
  | RP_InvokeApplication ns app ctx => invoke_application_change seq now ns app ctx
  | RP_CreateFunctionCall ns app req g source => create_function_call_change seq now ns app req g source
  | RP_TombstoneApplication ns name => tombstone_application_change seq now ns name
  | RP_TombstoneRequest ns app req => tombstone_request_change seq now ns app req
  | RP_SchedulerUpdate u => (su_new_state_changes u, seq)
  | RP_DeregisterExecutor _ changes | RP_UpsertExecutor _ _ _ changes => (changes, seq)
  | RP_CreateSandbox sb => create_sandbox_change seq now sb
  | RP_TerminateSandbox ns id => terminate_sandbox_change seq now ns id
  | RP_SnapshotSandbox snap uri => snapshot_sandbox_change seq now snap uri
  | RP_CreateContainerPool p => create_container_pool_change seq now p
  | RP_UpdateContainerPool p => update_container_pool_change seq now p
  | RP_TombstoneContainerPool ns id => delete_container_pool_change seq now ns id
  | RP_CreateOrUpdateApplication ns app _ pools => create_or_update_application_pools seq now ns app pools
  | RP_DataplaneResults ev => dataplane_results_ingested_change seq now ev
  | _ => ([], seq)
  end.

(** The outputs an executor reports with its state, in order. *)
Fixpoint output_changes (seq now : Z) (outputs : list AllocationOutput) : list StateChange * Z :=
  match outputs with
  | [] => ([], seq)
  | o :: outputs =>
      let '(c, seq1) := task_outputs_ingested_change seq now o in
      let '(cs, seq2) := output_changes seq1 now outputs in
      (c ++ cs, seq2)
  end.
(** [generate_state_changes_for_payload]. *)
Definition generate_state_changes_for_payload (seq now : Z) (payload : RequestPayload) : list StateChange * Z :=
  let '(changes, seq1) := state_changes seq now payload in
  match payload with
  | RP_UpsertExecutor _ outputs _ _ => let '(cs, seq2) := output_changes seq1 now outputs in (changes ++ cs, seq2)
  | _ => (changes, seq1)
  end.
