(* ===== verification/RequestEvents.v ===== *)
(** * Request state change events

    [state_store/request_events/mod.rs]: the events observers of a request receive,
    and which of them a write produces.  The [created_at] of an event is the clock,
    an argument. *)
From S2P Require Import Prelude DataModel Updates.

Inductive FunctionRunOutcomeSummary := FOS_Unknown | FOS_Success | FOS_Failure.
#[export] Instance FunctionRunOutcomeSummary_eq_dec : EqDecision FunctionRunOutcomeSummary.
Proof. solve_decision. Defined.
(** [From<&FunctionRunOutcome> for FunctionRunOutcomeSummary]. *)
Definition outcome_summary (o : FunctionRunOutcome) : FunctionRunOutcomeSummary :=
  match o with FRO_Unknown => FOS_Unknown | FRO_Success => FOS_Success | FRO_Failure _ => FOS_Failure end.

(** The fields all events share. *)
Record EventRequest := MkEventRequest {
  er_namespace : string;
  er_application_name : string;
  er_application_version : string;
  er_request_id : string;
  er_created_at : Z;
}.
(** The fields of the events about a function run. *)
Record EventRun := MkEventRun {
  ern_request : EventRequest;
  ern_function_name : string;
  ern_function_run_id : string;
}.
Record RequestStateFinishedOutput := MkRequestStateFinishedOutput {
  rfo_body : option JsonValue;
  rfo_path : string;
  rfo_content_encoding : string;
}.
Inductive RequestStateChangeEvent :=
| EV_RequestStarted (e : EventRequest)
| EV_FunctionRunCreated (e : EventRun)
| EV_FunctionRunCompleted (e : EventRun) (outcome : FunctionRunOutcomeSummary)
| EV_FunctionRunMatchedCache (e : EventRun)
| EV_AllocationCreated (e : EventRun) (allocation_id executor_id container_id : string)
| EV_AllocationCompleted (e : EventRun) (allocation_id : string) (outcome : FunctionRunOutcomeSummary) (container_id : string)
| EV_RequestFinished (e : EventRequest) (outcome : RequestOutcome) (output : option RequestStateFinishedOutput).
#[export] Instance EventRequest_eq_dec : EqDecision EventRequest.
Proof. solve_decision. Defined.
#[export] Instance EventRun_eq_dec : EqDecision EventRun.
Proof. solve_decision. Defined.

(** [FunctionRun::is_new]. *)
Definition is_new (r : FunctionRun) : bool := bool_decide (fr_created_at_clock r = None).

Definition ctx_event (now : Z) (c : RequestCtx) : EventRequest :=
  MkEventRequest (rc_namespace c) (rc_application_name c) (rc_application_version c) (rc_request_id c) now.
Definition run_event (now : Z) (r : FunctionRun) : EventRun :=
  MkEventRun (MkEventRequest (fr_namespace r) (fr_application r) (fr_version r) (fr_request_id r) now) (fr_name r) (fr_id r).
Definition allocation_event (now : Z) (a : Allocation) : EventRun :=
  MkEventRun (MkEventRequest (al_namespace a) (al_application a) (al_application_version a) (al_request_id a) now)
    (al_function a) (al_function_call_id a).
(** [RequestStateChangeEvent::finished]. *)
Definition finished (now : Z) (c : RequestCtx) (outcome : RequestOutcome) (output : option RequestStateFinishedOutput) : RequestStateChangeEvent :=
  EV_RequestFinished (ctx_event now c) outcome output.

Section events.
Context `{HO : HashOrder}.

(** The runs an update lists, from the contexts it carries. *)
Definition listed_runs (u : SchedulerUpdateRequest) : list FunctionRun :=
  flat_map (λ '(key, ids),
    match su_updated_request_states u !! key with
    | Some ctx => omap (λ id, rc_function_runs ctx !! id) (set_iter ids)
    | None => []
    end) (map_iter (su_updated_function_runs u)).
Definition created_event (now : Z) (r : FunctionRun) : option RequestStateChangeEvent :=
  if is_new r then Some (EV_FunctionRunCreated (run_event now r)) else None.
Definition completed_event (now : Z) (r : FunctionRun) : option RequestStateChangeEvent :=
  match fr_status r, fr_outcome r with
  | FRS_Completed, Some o => Some (EV_FunctionRunCompleted (run_event now r) (outcome_summary o))
  | _, _ => None
  end.
Definition allocation_created_event (now : Z) (a : Allocation) : RequestStateChangeEvent :=
  EV_AllocationCreated (allocation_event now a) (al_id a) (at_executor_id (al_target a)) (at_container_id (al_target a)).
Definition allocation_completed_event (now : Z) (a : Allocation) : option RequestStateChangeEvent :=
  match al_outcome a with
  | FRO_Unknown => None
  | o => Some (EV_AllocationCompleted (allocation_event now a) (al_id a) (outcome_summary o) (at_container_id (al_target a)))
  end.
(** [build_request_state_change_events]. *)
Definition build_request_state_change_events (now : Z) (p : RequestPayload) : list RequestStateChangeEvent :=
  match p with
  | RP_InvokeApplication _ _ ctx =>
      EV_RequestStarted (ctx_event now ctx) :: ((λ r, EV_FunctionRunCreated (run_event now r)) <$> (map_iter (rc_function_runs ctx)).*2)
  | RP_SchedulerUpdate u =>
      omap (created_event now) (listed_runs u) ++
      (allocation_created_event now <$> su_new_allocations u) ++
      omap (allocation_completed_event now) (su_updated_allocations u) ++
      omap (completed_event now) (listed_runs u) ++
      omap (λ ctx, (λ o, finished now ctx o None) <$> rc_outcome ctx) (map_iter (su_updated_request_states u)).*2
  | _ => []
  end.
End events.
