(* ===== verification/StateMachine.v ===== *)
(** * The persistent state machine

    [state_store/state_machine.rs]: what every write does to the column families of
    the database, the keys of the rows, and the clocks set by the
    [prepare_for_persistence] methods of [data_model/mod.rs].

    RocksDB is a third-party store: a column family is a finite map, a transaction
    is a database passed from step to step, and [txn.iter(cf, prefix)] is the
    ordered scan of the keys with that prefix.  Rows are kept decoded.  Keys made of
    the eight big-endian bytes of a [u64] are the number itself, since that encoding
    is injective and keeps the order; the one key that embeds such bytes in a longer
    string, the secondary index of requests, keeps them.  The cron parser is a
    parameter. *)
From Stdlib Require Import Ascii.
From S2P Require Import Prelude DataModel Resources Updates InMemoryState FunctionRuns RequestEvents.

(** ** Rows *)

Record PersistedRequestCtx := MkPersistedRequestCtx {
  prc_namespace : string;
  prc_application_name : string;
  prc_application_version : string;
  prc_request_id : string;
  prc_outcome : option RequestOutcome;
  prc_created_at : Z;
  prc_request_error : option RequestError;
  prc_created_at_clock : option Z;
  prc_updated_at_clock : option Z;
  prc_function_runs_count : Z;
  prc_function_calls_count : Z;
}.
#[export] Instance eta_PersistedRequestCtx : Eta PersistedRequestCtx := λ c,
  MkPersistedRequestCtx (prc_namespace c) (prc_application_name c) (prc_application_version c) (prc_request_id c)
    (prc_outcome c) (prc_created_at c) (prc_request_error c) (prc_created_at_clock c) (prc_updated_at_clock c)
    (prc_function_runs_count c) (prc_function_calls_count c).
(** [From<&RequestCtx> for PersistedRequestCtx] and [RequestCtx::from_persisted]. *)
Definition persisted_ctx (c : RequestCtx) : PersistedRequestCtx :=
  MkPersistedRequestCtx (rc_namespace c) (rc_application_name c) (rc_application_version c) (rc_request_id c)
    (rc_outcome c) (rc_created_at c) (rc_request_error c) (rc_created_at_clock c) (rc_updated_at_clock c)
    (Z.of_nat (size (rc_function_runs c))) (Z.of_nat (size (rc_function_calls c))).
Definition from_persisted (p : PersistedRequestCtx) (runs : gmap FunctionCallId FunctionRun)
    (calls : gmap FunctionCallId FunctionCall) : RequestCtx :=
  MkRequestCtx (prc_namespace p) (prc_application_name p) (prc_application_version p) (prc_request_id p)
    (prc_outcome p) (prc_created_at p) (prc_request_error p) (prc_created_at_clock p) (prc_updated_at_clock p)
    runs calls.

Record AllocationUsageEvent := MkAllocationUsageEvent {
  aue_id : Z;
  aue_namespace : string;
  aue_application : string;
  aue_application_version : string;
  aue_request_id : string;
  aue_allocation_id : AllocationId;
  aue_execution_duration_ms : Z;
  aue_function : string;
  aue_created_at_clock : option Z;
  aue_updated_at_clock : option Z;
}.
Record GcUrl := MkGcUrl {
  gc_url : string;
  gc_namespace : string;
  gc_created_at_clock : option Z;
  gc_updated_at_clock : option Z;
}.
Record CronScheduleEntry := MkCronScheduleEntry {
  cse_id : string;
  cse_namespace : string;
  cse_application_name : string;
  cse_cron_expression : string;
  cse_input : option DataPayload;
  cse_next_fire_time_ms : Z;
  cse_last_fired_at_ms : option Z;
  cse_created_at : Z;
  cse_enabled : bool;
}.
#[export] Instance eta_CronScheduleEntry : Eta CronScheduleEntry := λ c,
  MkCronScheduleEntry (cse_id c) (cse_namespace c) (cse_application_name c) (cse_cron_expression c) (cse_input c)
    (cse_next_fire_time_ms c) (cse_last_fired_at_ms c) (cse_created_at c) (cse_enabled c).
Record StateMachineMetadata := MkStateMachineMetadata {
  smm_db_version : Z;
  smm_last_change_idx : Z;
  smm_last_usage_idx : Z;
  smm_last_request_event_idx : Z;
}.

(** The column families written here; the command outbox has its own file. *)
Record Db := MkDb {
  db_namespaces : gmap string Namespace;
  db_applications : gmap string Application;
  db_application_versions : gmap string ApplicationVersion;
  db_request_ctx : gmap string PersistedRequestCtx;
  db_request_ctx_secondary_index : gset string;
  db_allocations : gmap string Allocation;
  db_allocation_usage : gmap Z AllocationUsageEvent;
  db_gc_urls : gmap string GcUrl;
  db_sandboxes : gmap string Sandbox;
  db_function_pools : gmap string ContainerPool;
  db_sandbox_pools : gmap string ContainerPool;
  db_function_runs : gmap string FunctionRun;
  db_function_calls : gmap string FunctionCall;
  db_snapshots : gmap string Snapshot;
  db_executors : gmap string ExecutorMetadata;
  db_payload_queue : gmap Z RequestPayload;
  db_cron_schedules : gmap string CronScheduleEntry;
  db_scheduler_command_intents : gmap Z SchedulerCommandIntent;
  db_request_state_change_events : gmap Z RequestStateChangeEvent;
  db_sm_meta : option StateMachineMetadata;
}.
#[export] Instance eta_Db : Eta Db := λ d,
  MkDb (db_namespaces d) (db_applications d) (db_application_versions d) (db_request_ctx d)
    (db_request_ctx_secondary_index d) (db_allocations d) (db_allocation_usage d) (db_gc_urls d) (db_sandboxes d)
    (db_function_pools d) (db_sandbox_pools d) (db_function_runs d) (db_function_calls d) (db_snapshots d)
    (db_executors d) (db_payload_queue d) (db_cron_schedules d) (db_scheduler_command_intents d)
    (db_request_state_change_events d) (db_sm_meta d).
Definition empty_db : Db := MkDb ∅ ∅ ∅ ∅ ∅ ∅ ∅ ∅ ∅ ∅ ∅ ∅ ∅ ∅ ∅ ∅ ∅ ∅ ∅ None.

Inductive WriteError :=
| WE_ApplicationNotFound
| WE_ApplicationNotEnabled (reason : string)
| WE_ApplicationTombstoned
| WE_RequestAlreadyExists (namespace application request_id : string)
| WE_CronScheduleNotFound (key : string)
| WE_InvalidCron (message : string)
| WE_CommitFailed.

(** ** Keys *)

(** [u64::to_be_bytes], as the characters of the bytes. *)
Fixpoint be_bytes (n : nat) (z : Z) : string :=
  match n with
  | O => EmptyString
  | S n => String (ascii_of_N (Z.to_N ((z / 256 ^ Z.of_nat n) mod 256))) (be_bytes n z)
  end.
(** [secondary_index_key] of [RequestCtx] and [PersistedRequestCtx]. *)
Definition secondary_index_key (ns app : string) (created_at : Z) (req : string) : string :=
  bar ns (bar app (bar (be_bytes 8 created_at) req)).
Definition ctx_secondary_index_key (c : RequestCtx) : string :=
  secondary_index_key (rc_namespace c) (rc_application_name c) (rc_created_at c) (rc_request_id c).
Definition persisted_secondary_index_key (p : PersistedRequestCtx) : string :=
  secondary_index_key (prc_namespace p) (prc_application_name p) (prc_created_at p) (prc_request_id p).
(** [key.split('|').nth(n)]. *)
Fixpoint split_bars (s : string) : string * list string :=
  match s with
  | EmptyString => (EmptyString, [])
  | String c s =>
      let '(w, ws) := split_bars s in
      if Ascii.eqb c "|"%char then (EmptyString, w :: ws) else (String c w, ws)
  end.
Definition segments (s : string) : list string := let '(w, ws) := split_bars s in w :: ws.
(** [RequestCtx::get_request_id_from_secondary_index_key]. *)
Definition get_request_id_from_secondary_index_key (key : string) : option string := segments key !! 3%nat.
(** [FunctionCall::key_for_request], [FunctionCall::key_prefix_for_request] and
    [Allocation::key_prefix_from_request] build the keys of [run_key] and
    [run_key_prefix]. *)
Definition call_key (ns app req : string) (id : FunctionCallId) : string := bar ns (bar app (bar req id)).
(** [GcUrl::key]. *)
Definition gc_key (g : GcUrl) : string := bar (gc_namespace g) (gc_url g).
(** [CronScheduleEntry::key_from_id]. *)
Definition cron_key (ns app id : string) : string := bar ns (bar app id).
Definition cron_entry_key (c : CronScheduleEntry) : string := cron_key (cse_namespace c) (cse_application_name c) (cse_id c).
(** [ContainerPoolKey::key]. *)
Definition pool_row_key (k : ContainerPoolKey) : string := bar (cpk_namespace k) (cpk_pool_id k).

(** ** Clocks *)

#[export] Instance eta_ApplicationVersion : Eta ApplicationVersion := λ v,
  MkApplicationVersion (av_namespace v) (av_name v) (av_created_at v) (av_version v) (av_code v) (av_entrypoint v)
    (av_functions v) (av_edges v) (av_state v) (av_created_at_clock v) (av_updated_at_clock v).
#[export] Instance eta_ContainerPool : Eta ContainerPool := λ p,
  MkContainerPool (cp_id p) (cp_namespace p) (cp_pool_type p) (cp_image p) (cp_resources p) (cp_entrypoint p)
    (cp_network_policy p) (cp_secret_names p) (cp_timeout_secs p) (cp_min_containers p) (cp_max_containers p)
    (cp_buffer_containers p) (cp_created_at p) (cp_tombstoned p) (cp_created_at_clock p) (cp_updated_at_clock p)
    (cp_allow_unauthenticated_access p) (cp_exposed_ports p).

(** The two assignments every [prepare_for_persistence] makes. *)
Definition first_clock (created : option Z) (clock : Z) : option Z := match created with Some c => Some c | None => Some clock end.
Definition prepare_run (clock : Z) (r : FunctionRun) : FunctionRun :=
  r <| fr_created_at_clock ::= λ c, first_clock c clock |> <| fr_updated_at_clock := Some clock |>.
Definition prepare_ctx (clock : Z) (c : RequestCtx) : RequestCtx :=
  c <| rc_created_at_clock ::= λ x, first_clock x clock |> <| rc_updated_at_clock := Some clock |>
    <| rc_function_runs ::= fmap (prepare_run clock) |>.
Definition prepare_app (clock : Z) (a : Application) : Application :=
  a <| app_created_at_clock ::= λ x, first_clock x clock |> <| app_updated_at_clock := Some clock |>.
Definition prepare_version (clock : Z) (a : ApplicationVersion) : ApplicationVersion :=
  a <| av_created_at_clock ::= λ x, first_clock x clock |> <| av_updated_at_clock := Some clock |>.
Definition prepare_sandbox (clock : Z) (a : Sandbox) : Sandbox :=
  a <| sb_created_at_clock ::= λ x, first_clock x clock |> <| sb_updated_at_clock := Some clock |>.
Definition prepare_pool (clock : Z) (a : ContainerPool) : ContainerPool :=
  a <| cp_created_at_clock ::= λ x, first_clock x clock |> <| cp_updated_at_clock := Some clock |>.
(** [StateMachineUpdateRequest::prepare_for_persistence]. *)
Definition prepare_for_persistence (clock : Z) (p : RequestPayload) : RequestPayload :=
  match p with
  | RP_InvokeApplication ns app ctx => RP_InvokeApplication ns app (prepare_ctx clock ctx)
  | RP_SchedulerUpdate u => RP_SchedulerUpdate (u <| su_updated_request_states ::= fmap (prepare_ctx clock) |>)
  | _ => p
  end.

Section state_machine.
Context `{HO : HashOrder}.
(** [compute_next_fire_time]: the cron expression and a time in milliseconds. *)
Context (compute_next_fire_time : string → Z → result string Z).

(** ** Namespaces and requests *)

(** [upsert_namespace]; [now] is [get_epoch_time_in_ms()].  This row is put directly,
    outside the transaction. *)
Definition upsert_namespace (db : Db) (name : string) (bucket region : option string) (clock now : Z) : Db :=
  db <| db_namespaces ::= <[name := MkNamespace name now bucket region (Some clock) (Some clock)]> |>.

Definition put_run (db : Db) (r : FunctionRun) : Db := db <| db_function_runs ::= <[run_key r := r]> |>.
(** [create_request]. *)
Definition create_request (db : Db) (ns app : string) (ctx : RequestCtx) : result WriteError Db :=
  match db_applications db !! app_key ns app with
  | None => Err WE_ApplicationNotFound
  | Some a =>
      match app_state a with
      | AppDisabled reason => Err (WE_ApplicationNotEnabled reason)
      | AppActive =>
          if app_tombstoned a then Err WE_ApplicationTombstoned
          else match db_request_ctx db !! request_ctx_key ctx with
               | Some _ => Err (WE_RequestAlreadyExists ns app (rc_request_id ctx))
               | None =>
                   let db1 := db <| db_request_ctx ::= <[request_ctx_key ctx := persisted_ctx ctx]> |> in
                   let db2 := foldl put_run db1 (map_iter (rc_function_runs ctx)).*2 in
                   let db3 := foldl (λ d c, d <| db_function_calls ::= <[call_key ns app (rc_request_id ctx) (fc_function_call_id c) := c]> |>)
                                db2 (map_iter (rc_function_calls ctx)).*2 in
                   Ok (db3 <| db_request_ctx_secondary_index ::= λ x, {[ctx_secondary_index_key ctx]} ∪ x |>)
               end
      end
  end.

(** The payload paths of a run, marked for garbage collection when it is deleted. *)
Definition run_urls (r : FunctionRun) : gset string :=
  list_to_set ((λ a, dp_path (ia_data_payload a)) <$> fr_input_args r)
  ∪ match fr_output r with Some o => {[dp_path o]} | None => ∅ end.
Definition put_gc_url (ns : string) (clock : Z) (db : Db) (url : string) : Db :=
  let g := MkGcUrl url ns (Some clock) (Some clock) in db <| db_gc_urls ::= <[gc_key g := g]> |>.
(** [delete_request]. *)
Definition sm_delete_request (db : Db) (ns app req : string) (clock : Z) : Db :=
  match db_request_ctx db !! request_key ns app req with
  | None => db
  | Some p =>
      let runs := scan_prefix (run_key_prefix ns app req) (db_function_runs db) in
      let urls := foldl (λ x r, x ∪ run_urls r) ∅ runs.*2 in
      let db1 := foldl (λ d k, d <| db_function_runs ::= delete k |>) db runs.*1 in
      let db2 := foldl (put_gc_url ns clock) db1 (set_iter urls) in
      let calls := scan_prefix (run_key_prefix ns app req) (db_function_calls db2) in
      let db3 := foldl (λ d k, d <| db_function_calls ::= delete k |>) db2 calls.*1 in
      let allocs := scan_prefix (run_key_prefix ns app req) (db_allocations db3) in
      let db4 := foldl (λ d (kv : string * Allocation),
                   if bool_decide (al_request_id kv.2 = req) then d <| db_allocations ::= delete kv.1 |> else d) db3 allocs in
      db4 <| db_request_ctx ::= delete (request_key ns app req) |>
          <| db_request_ctx_secondary_index ::= λ x, x ∖ {[persisted_secondary_index_key p]} |>
  end.

(** ** Applications *)

(** The runs of one request moved to the new version. *)
Definition upgrade_run_row (version : string) (db : Db) (kv : string * FunctionRun) : Db :=
  if bool_decide (fr_version kv.2 ≠ version) && bool_decide (fr_outcome kv.2 = None)
  then db <| db_function_runs ::= <[kv.1 := kv.2 <| fr_version := version |>]> |> else db.
(** [update_requests_for_application]. *)
Definition update_requests_for_application (db : Db) (a : Application) : Db :=
  let '(db1, updated) :=
    foldl (λ '(d, updated) '(key, p),
      if bool_decide (prc_application_version p ≠ app_version a) && bool_decide (prc_outcome p = None) then
        let runs := scan_prefix (run_key_prefix (prc_namespace p) (app_name a) (prc_request_id p)) (db_function_runs d) in
        (foldl (upgrade_run_row (app_version a)) d runs, <[key := p <| prc_application_version := app_version a |>]> updated)
      else (d, updated)) (db, ∅ : gmap string PersistedRequestCtx)
      (scan_prefix (app_key_prefix (app_namespace a) (app_name a)) (db_request_ctx db)) in
  foldl (λ d kv, d <| db_request_ctx ::= <[kv.1 := kv.2]> |>) db1 (map_iter updated).

(** [Application::update]. *)
Definition app_update (a update : Application) : Application :=
  a <| app_version := app_version update |> <| app_code := app_code update |> <| app_functions := app_functions update |>
    <| app_description := app_description update |> <| app_tags := app_tags update |>
    <| app_entrypoint := app_entrypoint update |> <| app_state := app_state update |>.
(** [upsert_container_pool]. *)
Definition upsert_container_pool (db : Db) (p : ContainerPool) (clock : Z) : Db :=
  let p := prepare_pool clock p in
  let key := pool_row_key (pool_key_of_pool p) in
  if is_function_pool p then db <| db_function_pools ::= <[key := p]> |> else db <| db_sandbox_pools ::= <[key := p]> |>.
(** [delete_container_pool]. *)
Definition sm_delete_container_pool (db : Db) (ns pool_id : string) : Db :=
  db <| db_function_pools ::= delete (bar ns pool_id) |> <| db_sandbox_pools ::= delete (bar ns pool_id) |>.
(** [delete_function_pools_by_prefix]. *)
Definition delete_function_pools_by_prefix (db : Db) (prefix : string) : Db :=
  foldl (λ d k, d <| db_function_pools ::= delete k |>) db (scan_prefix prefix (db_function_pools db)).*1.
(** [create_or_update_application]. *)
Definition create_or_update_application (db : Db) (a : Application) (upgrade : bool) (pools : list ContainerPool) (clock : Z) : Db :=
  let key := app_key (app_namespace a) (app_name a) in
  let v := prepare_version clock
             match db_applications db !! key with
             | Some existing => to_version (app_update existing a)
             | None => to_version a
             end in
  let db1 := db <| db_application_versions ::= <[version_key (av_namespace v) (av_name v) (av_version v) := v]> |> in
  let db2 := db1 <| db_applications ::= <[key := prepare_app clock a]> |> in
  let db3 := if upgrade then update_requests_for_application db2 a else db2 in
  let db4 := delete_function_pools_by_prefix db3 (bar (app_namespace a) (bar (app_name a) "")) in
  foldl (λ d p, upsert_container_pool d (prepare_pool clock p) clock) db4 pools.

(** ** Cron schedules *)

(** [create_cron_schedule]. *)
Definition create_cron_schedule (db : Db) (id ns app expr : string) (input : option DataPayload) (clock now : Z) : result WriteError Db :=
  match compute_next_fire_time expr now with
  | Err m => Err (WE_InvalidCron m)
  | Ok next =>
      let e := MkCronScheduleEntry id ns app expr input next None clock true in
      Ok (db <| db_cron_schedules ::= <[cron_entry_key e := e]> |>)
  end.
(** [delete_cron_schedule_by_id]. *)
Definition delete_cron_schedule_by_id (db : Db) (ns app id : string) : Db * bool :=
  match db_cron_schedules db !! cron_key ns app id with
  | Some _ => (db <| db_cron_schedules ::= delete (cron_key ns app id) |>, true)
  | None => (db, false)
  end.
(** [delete_cron_schedules_for_app]. *)
Definition delete_cron_schedules_for_app (db : Db) (ns app : string) : Db * bool :=
  let rows := scan_prefix (app_key_prefix ns app) (db_cron_schedules db) in
  (foldl (λ d k, d <| db_cron_schedules ::= delete k |>) db rows.*1, bool_decide (length rows ≠ 0%nat)).
(** [advance_cron_schedule]. *)
Definition advance_cron_schedule (db : Db) (ns app id expr : string) (fired_at_ms : Z) : result WriteError Db :=
  match db_cron_schedules db !! cron_key ns app id with
  | None => Err (WE_CronScheduleNotFound (cron_key ns app id))
  | Some e =>
      match compute_next_fire_time expr fired_at_ms with
      | Err m => Err (WE_InvalidCron m)
      | Ok next =>
          let e := e <| cse_last_fired_at_ms := Some fired_at_ms |> <| cse_next_fire_time_ms := next |> in
          Ok (db <| db_cron_schedules ::= <[cron_entry_key e := e]> |>)
      end
  end.

(** [delete_application]: also says whether the application had cron schedules. *)
Definition delete_version_row (ns : string) (clock : Z) (db : Db) (kv : string * ApplicationVersion) : Db :=
  let db1 := match av_code kv.2 with Some code => put_gc_url ns clock db (dp_path code) | None => db end in
  db1 <| db_application_versions ::= delete kv.1 |>.
Definition sm_delete_application (db : Db) (ns name : string) (clock : Z) : Db * bool :=
  let '(db1, had_cron) := delete_cron_schedules_for_app db ns name in
  let db2 := db1 <| db_applications ::= delete (app_key ns name) |> in
  let db3 := foldl (λ d (kv : string * PersistedRequestCtx),
               sm_delete_request d (prc_namespace kv.2) (prc_application_name kv.2) (prc_request_id kv.2) clock)
               db2 (scan_prefix (app_key_prefix ns name) (db_request_ctx db2)) in
  let db4 := foldl (delete_version_row ns clock) db3 (scan_prefix (app_key_prefix ns name) (db_application_versions db3)) in
  (delete_function_pools_by_prefix db4 (bar ns (bar name "")), had_cron).

(** ** Sandboxes, snapshots and executors *)

Definition upsert_sandbox (db : Db) (sb : Sandbox) (clock : Z) : Db :=
  db <| db_sandboxes ::= <[sandbox_key sb := prepare_sandbox clock sb]> |>.
Definition upsert_snapshot (db : Db) (s : Snapshot) : Db := db <| db_snapshots ::= <[snapshot_key s := s]> |>.
Definition sm_delete_snapshot (db : Db) (ns id : string) : Db := db <| db_snapshots ::= delete (bar ns id) |>.
Definition sm_upsert_executor (db : Db) (e : ExecutorMetadata) : Db := db <| db_executors ::= <[em_id e := e]> |>.

(** ** Allocations and scheduler updates *)

(** [upsert_allocation] with the sequence of usage events; the last component is
    [usage_recorded]. *)
Definition upsert_allocation (db : Db) (a : Allocation) (usage_seq clock : Z) : Db * Z * bool :=
  let key := allocation_key (al_namespace a) (al_application a) (al_request_id a) (al_id a) in
  match db_allocations db !! key with
  | None => (db, usage_seq, false)
  | Some existing =>
      if allocation_is_terminal existing then (db, usage_seq, false)
      else if bool_decide (al_vector_clock a < al_vector_clock existing) then (db, usage_seq, false)
      else
        let db1 := db <| db_allocations ::= <[key := a]> |> in
        match al_execution_duration_ms a with
        | None => (db1, usage_seq, false)
        | Some ms =>
            let e := MkAllocationUsageEvent usage_seq (al_namespace a) (al_application a) (al_application_version a)
                       (al_request_id a) (al_id a) ms (al_function a) (Some clock) (Some clock) in
            (db1 <| db_allocation_usage ::= <[usage_seq := e]> |>, wrap64 (usage_seq + 1), true)
        end
  end.
Definition put_allocation (db : Db) (a : Allocation) : Db :=
  db <| db_allocations ::= <[allocation_key (al_namespace a) (al_application a) (al_request_id a) (al_id a) := a]> |>.
(** The calls an update lists, from the contexts it carries; the runs are [listed_runs]. *)
Definition written_calls (u : SchedulerUpdateRequest) : list (string * FunctionCall) :=
  flat_map (λ '(key, ids),
    match su_updated_request_states u !! key with
    | Some ctx =>
        (λ c, (call_key (rc_namespace ctx) (rc_application_name ctx) (rc_request_id ctx) (fc_function_call_id c), c))
          <$> omap (λ id, rc_function_calls ctx !! id) (set_iter ids)
    | None => []
    end) (map_iter (su_updated_function_calls u)).
Definition upsert_allocations (db : Db) (l : list Allocation) (usage_seq clock : Z) : Db * Z * bool :=
  foldl (λ '(d, seq, recorded) a, let '(d1, seq1, r) := upsert_allocation d a seq clock in (d1, seq1, recorded || r))
    (db, usage_seq, false) l.
(** [handle_scheduler_update]. *)
Definition handle_scheduler_update (db : Db) (u : SchedulerUpdateRequest) (usage_seq clock : Z) : Db * Z * bool :=
  let db1 := foldl put_allocation db (su_new_allocations u) in
  let db2 := foldl (λ d ctx, d <| db_request_ctx ::= <[request_ctx_key ctx := persisted_ctx ctx]> |>)
               db1 (map_iter (su_updated_request_states u)).*2 in
  let db3 := foldl put_run db2 (listed_runs u) in
  let db4 := foldl (λ d kc, d <| db_function_calls ::= <[kc.1 := kc.2]> |>) db3 (written_calls u) in
  let '(db5, seq, recorded) := upsert_allocations db4 (su_updated_allocations u) usage_seq clock in
  let db6 := foldl (λ d sb, upsert_sandbox d sb clock) db5 (map_iter (su_updated_sandboxes u)).*2 in
  (foldl upsert_snapshot db6 (map_iter (su_updated_snapshots u)).*2, seq, recorded).

(** [remove_allocation_usage_events]. *)
Definition remove_allocation_usage_events (db : Db) (l : list AllocationUsageEvent) : Db :=
  foldl (λ d e, d <| db_allocation_usage ::= delete (aue_id e) |>) db l.

(** [remove_request_state_change_events] and [persist_single_request_state_change_event];
    an event is stored under its id. *)
Definition remove_request_state_change_events (db : Db) (ids : list Z) : Db :=
  foldl (λ d id, d <| db_request_state_change_events ::= delete id |>) db ids.
Definition persist_single_request_state_change_event (db : Db) (id : Z) (e : RequestStateChangeEvent) : Db :=
  db <| db_request_state_change_events ::= <[id := e]> |>.

(** ** The payload queue *)

(** [enqueue_payload] and [dequeue_payloads]. *)
Definition enqueue_payload (db : Db) (seq : Z) (p : RequestPayload) : Db := db <| db_payload_queue ::= <[seq := p]> |>.
(** The rows of a column family keyed by big-endian numbers, in key order. *)
Definition num_iter {A} (m : gmap Z A) : list (Z * A) :=
  omap (λ k, (λ v, (k, v)) <$> m !! k) (merge_sort Z.le (elements (dom m))).
Definition dequeue_payloads (db : Db) (through_seq : Z) : Db :=
  foldl (λ d k, d <| db_payload_queue ::= delete k |>) db
    (take_while (λ kv, bool_decide (kv.1 ≤ through_seq)) (num_iter (db_payload_queue db))).*1.
(** [read_pending_payloads]. *)
Definition read_pending_payloads (db : Db) : list (Z * RequestPayload) := num_iter (db_payload_queue db).
End state_machine.

(** ** Keys whose parts contain no separator *)

Fixpoint bar_free (s : string) : bool :=
  match s with
  | EmptyString => true
  | String c s => negb (Ascii.eqb c "|"%char) && bar_free s
  end.

Lemma bar_cons c a b : bar (String c a) b = String c (bar a b).
Proof. done. Qed.
Lemma bar_nil b : bar "" b = String "|" b.
Proof. done. Qed.
Lemma bar_inj a a' b b' : bar_free a = true → bar_free a' = true → bar a b = bar a' b' → a = a' ∧ b = b'.
Proof.
  revert a'. induction a as [|c a IH]; intros [|c' a']; rewrite ?bar_cons; cbn [bar_free].
  - intros _ _ E. injection E. done.
  - intros _ [Hc _]%andb_true_iff E. injection E. by intros _ <-.
  - intros [Hc _]%andb_true_iff _ E. injection E. by intros _ ->.
  - intros [_ Ha]%andb_true_iff [_ Ha']%andb_true_iff [= -> E]. destruct (IH a' Ha Ha' E) as [-> ->]. done.
Qed.
Lemma prefix_bar a a' p k :
  bar_free a = true → bar_free a' = true → String.prefix (bar a p) (bar a' k) = true → a = a' ∧ String.prefix p k = true.
Proof.
  revert a'. induction a as [|c a IH]; intros [|c' a']; rewrite ?bar_cons, ?bar_nil; cbn [String.prefix bar_free].
  - intros _ _. cbn. destruct (ascii_dec "|" "|"); done.
  - intros _ [Hc _]%andb_true_iff. destruct (ascii_dec "|" c') as [<-|]; [by vm_compute in Hc|done].
  - intros [Hc _]%andb_true_iff _. destruct (ascii_dec c "|") as [->|]; [by vm_compute in Hc|done].
  - intros [_ Ha]%andb_true_iff [_ Ha']%andb_true_iff. destruct (ascii_dec c c') as [->|]; [|done].
    intros H. destruct (IH a' Ha Ha' H) as [-> ?]. done.
Qed.
Lemma prefix_empty k : String.prefix "" k = true.
Proof. by destruct k. Qed.
Lemma prefix_bar_self a p k : String.prefix p k = true → String.prefix (bar a p) (bar a k) = true.
Proof.
  intros H. induction a as [|c a IH]; rewrite ?bar_cons, ?bar_nil; cbn [String.prefix]; [by destruct (ascii_dec "|" "|")|].
  destruct (ascii_dec c c); [|done]. apply IH.
Qed.
(** A key of four parts starts with the prefix of a request exactly when its first
    three parts name the request. *)
Lemma request_prefix_iff ns app req ns' app' req' id :
  bar_free ns = true → bar_free app = true → bar_free req = true →
  bar_free ns' = true → bar_free app' = true → bar_free req' = true →
  String.prefix (run_key_prefix ns app req) (bar ns' (bar app' (bar req' id))) = true ↔ ns = ns' ∧ app = app' ∧ req = req'.
Proof.
  intros ??????. unfold run_key_prefix. split.
  - intros (-> & (-> & (-> & _)%prefix_bar)%prefix_bar)%prefix_bar; done.
  - intros (-> & -> & ->). do 3 apply prefix_bar_self. apply prefix_empty.
Qed.

(** ** Deleting rows *)

Lemma lookup_delete_scanned {A} prefix (m : gmap string A) k :
  foldl (λ m k, delete k m) m (scan_prefix prefix m).*1 !! k = if String.prefix prefix k then None else m !! k.
Proof.
  rewrite lookup_foldl_delete. case_bool_decide as H.
  - apply list_elem_of_fmap in H as ([k' v] & -> & [_ Hp]%elem_of_scan_prefix). cbn. by rewrite Hp.
  - destruct (String.prefix prefix k) eqn:Ep; [|done]. destruct (m !! k) as [v|] eqn:E; [|done]. destruct H.
    apply list_elem_of_fmap. exists (k, v). by rewrite elem_of_scan_prefix.
Qed.
Lemma lookup_delete_matching {A} (P : A → bool) (l : list (string * A)) : ∀ (m : gmap string A) k,
  foldl (λ m (kv : string * A), if P kv.2 then delete kv.1 m else m) m l !! k =
  if bool_decide (k ∈ (List.filter (λ kv : string * A, P kv.2) l).*1) then None else m !! k.
Proof.
  induction l as [|[a x] l IH]; intros m k; cbn [foldl List.filter fst snd]; [done|]. rewrite IH.
  destruct (P x); cbn [fmap list_fmap fst]; [|done]. rewrite lookup_delete.
  repeat case_bool_decide; repeat case_decide; try done; set_solver.
Qed.
Lemma lookup_delete_scanned_if {A} prefix (P : A → bool) (m : gmap string A) k :
  foldl (λ m (kv : string * A), if P kv.2 then delete kv.1 m else m) m (scan_prefix prefix m) !! k =
  match m !! k with Some v => if String.prefix prefix k && P v then None else Some v | None => None end.
Proof.
  rewrite lookup_delete_matching. case_bool_decide as H.
  - apply list_elem_of_fmap in H as ([k' v] & -> & H). apply list_elem_of_In, filter_In in H as [H%list_elem_of_In Hp].
    apply elem_of_scan_prefix in H as [E1 E2]. cbn in Hp |- *. by rewrite E1, E2, Hp.
  - destruct (m !! k) as [v|] eqn:E; [|done]. destruct (String.prefix prefix k && P v) eqn:Ep; [|done].
    apply andb_true_iff in Ep as [E1 E2]. destruct H. apply list_elem_of_fmap. exists (k, v). split; [done|].
    apply list_elem_of_In, filter_In. split; [|done]. by apply list_elem_of_In, elem_of_scan_prefix.
Qed.

(** A loop that writes one column family writes it as a loop over that map. *)
Ltac one_column l :=
  induction l as [|? l IHl]; intros d; cbn [foldl]; [by destruct d|rewrite IHl; by destruct d].
Lemma delete_run_rows l : ∀ d,
  foldl (λ d k, d <| db_function_runs ::= delete k |>) d l = d <| db_function_runs ::= λ m, foldl (λ m k, delete k m) m l |>.
Proof. one_column l. Qed.
Lemma delete_call_rows l : ∀ d,
  foldl (λ d k, d <| db_function_calls ::= delete k |>) d l = d <| db_function_calls ::= λ m, foldl (λ m k, delete k m) m l |>.
Proof. one_column l. Qed.
Lemma delete_pool_rows l : ∀ d,
  foldl (λ d k, d <| db_function_pools ::= delete k |>) d l = d <| db_function_pools ::= λ m, foldl (λ m k, delete k m) m l |>.
Proof. one_column l. Qed.
Lemma delete_cron_rows l : ∀ d,
  foldl (λ d k, d <| db_cron_schedules ::= delete k |>) d l = d <| db_cron_schedules ::= λ m, foldl (λ m k, delete k m) m l |>.
Proof. one_column l. Qed.
Lemma delete_allocation_rows req (l : list (string * Allocation)) : ∀ d,
  foldl (λ d (kv : string * Allocation), if bool_decide (al_request_id kv.2 = req) then d <| db_allocations ::= delete kv.1 |> else d) d l =
  d <| db_allocations ::= λ m, foldl (λ m (kv : string * Allocation), if bool_decide (al_request_id kv.2 = req) then delete kv.1 m else m) m l |>.
Proof.
  induction l as [|? l IH]; intros d; cbn [foldl]; [by destruct d|]. rewrite IH. case_bool_decide; by destruct d.
Qed.
Definition gc_rows (ns : string) (clock : Z) (l : list string) (m : gmap string GcUrl) : gmap string GcUrl :=
  foldl (λ m url, <[bar ns url := MkGcUrl url ns (Some clock) (Some clock)]> m) m l.
Lemma put_gc_urls ns clock l : ∀ d, foldl (put_gc_url ns clock) d l = d <| db_gc_urls ::= gc_rows ns clock l |>.
Proof. one_column l. Qed.
Lemma bar_inj_r a b b' : bar a b = bar a b' → b = b'.
Proof. induction a as [|c a IH]; rewrite ?bar_nil, ?bar_cons; intros E; injection E; auto. Qed.
Lemma lookup_gc_rows ns clock l : ∀ m k,
  gc_rows ns clock l m !! k =
  match list_find (λ url, bar ns url = k) l with
  | Some (_, url) => Some (MkGcUrl url ns (Some clock) (Some clock))
  | None => m !! k
  end.
Proof.
  induction l as [|u l IH]; intros m k; [done|]. unfold gc_rows in *. cbn [foldl]. rewrite IH. cbn [list_find].
  destruct (list_find (λ url, bar ns url = k) l) as [[i v]|] eqn:E.
  - apply list_find_Some in E as (_ & Hv & _). case_decide as Hu; [|done].
    rewrite <-Hu in Hv. by apply bar_inj_r in Hv as ->.
  - case_decide as Hu; cbn; [by subst k; rewrite lookup_insert_eq|by rewrite lookup_insert_ne].
Qed.
Lemma elem_of_urls (l : list FunctionRun) url : ∀ X,
  url ∈ foldl (λ x r, x ∪ run_urls r) X l ↔ url ∈ X ∨ ∃ r, r ∈ l ∧ url ∈ run_urls r.
Proof.
  induction l as [|r l IH]; intros X; cbn [foldl]; [set_solver|]. rewrite IH. set_solver.
Qed.

(** The rows [delete_request] leaves. *)
Definition other_columns (d : Db) :=
  (db_namespaces d, db_applications d, db_application_versions d, db_allocation_usage d, db_sandboxes d,
   db_function_pools d, db_sandbox_pools d, db_snapshots d, db_executors d, db_payload_queue d, db_cron_schedules d,
   db_scheduler_command_intents d, db_request_state_change_events d, db_sm_meta d).
Record request_deleted (d d' : Db) (ns app req : string) (clock : Z) (p : PersistedRequestCtx) : Prop := {
  rd_runs k : db_function_runs d' !! k = if String.prefix (run_key_prefix ns app req) k then None else db_function_runs d !! k;
  rd_calls k : db_function_calls d' !! k = if String.prefix (run_key_prefix ns app req) k then None else db_function_calls d !! k;
  rd_allocations k : db_allocations d' !! k =
    match db_allocations d !! k with
    | Some a => if String.prefix (run_key_prefix ns app req) k && bool_decide (al_request_id a = req) then None else Some a
    | None => None
    end;
  rd_ctx : db_request_ctx d' = delete (request_key ns app req) (db_request_ctx d);
  rd_index : db_request_ctx_secondary_index d' = db_request_ctx_secondary_index d ∖ {[persisted_secondary_index_key p]};
  rd_urls url : (∃ k r, db_function_runs d !! k = Some r ∧ String.prefix (run_key_prefix ns app req) k = true ∧ url ∈ run_urls r) →
    db_gc_urls d' !! bar ns url = Some (MkGcUrl url ns (Some clock) (Some clock));
  rd_gc k : is_Some (db_gc_urls d !! k) → is_Some (db_gc_urls d' !! k);
  rd_others : other_columns d' = other_columns d;
}.

Section deletion.
Context `{HO : HashOrder}.

Lemma sm_delete_request_spec d ns app req clock p :
  db_request_ctx d !! request_key ns app req = Some p →
  request_deleted d (sm_delete_request d ns app req clock) ns app req clock p.
Proof.
  intros Hp. unfold sm_delete_request. rewrite Hp. cbv zeta. rewrite delete_run_rows, put_gc_urls, delete_call_rows, delete_allocation_rows.
  set (urls := set_iter _). assert (Hurls : ∀ url, (∃ k r, db_function_runs d !! k = Some r ∧ String.prefix (run_key_prefix ns app req) k = true ∧ url ∈ run_urls r) → url ∈ urls).
  { intros url (k & r & Hr & Hk & Hu). apply elem_of_set_iter, elem_of_urls. right. exists r. split; [|done].
    apply list_elem_of_fmap. exists (k, r). by rewrite elem_of_scan_prefix. }
  clearbody urls. split.
  - intros k. apply lookup_delete_scanned.
  - intros k. apply lookup_delete_scanned.
  - intros k. pose proof (lookup_delete_scanned_if (run_key_prefix ns app req) (λ a : Allocation, bool_decide (al_request_id a = req))
                           (db_allocations d) k) as H. exact H.
  - done.
  - done.
  - intros url Hu%Hurls. change (gc_rows ns clock urls (db_gc_urls d) !! bar ns url = Some (MkGcUrl url ns (Some clock) (Some clock))).
    rewrite lookup_gc_rows. destruct (list_find _ _) as [[i v]|] eqn:E.
    + apply list_find_Some in E as (_ & Hv & _). by apply bar_inj_r in Hv as ->.
    + apply list_find_None in E. rewrite Forall_forall in E. by destruct (E url).
  - intros k Hk. change (is_Some (gc_rows ns clock urls (db_gc_urls d) !! k)).
    rewrite lookup_gc_rows. by destruct (list_find _ _) as [[i v]|].
  - done.
Qed.

(** The requests of an application, deleted one by one. *)
Definition of_request (p : PersistedRequestCtx) : string := run_key_prefix (prc_namespace p) (prc_application_name p) (prc_request_id p).
Definition among (l : list (string * PersistedRequestCtx)) (k : string) : bool :=
  existsb (λ kv : string * PersistedRequestCtx, String.prefix (of_request kv.2) k) l.
Definition filed_ctx (kv : string * PersistedRequestCtx) : Prop :=
  kv.1 = request_key (prc_namespace kv.2) (prc_application_name kv.2) (prc_request_id kv.2).
Record requests_deleted (d d' : Db) (l : list (string * PersistedRequestCtx)) : Prop := {
  rsd_runs k : db_function_runs d' !! k = if among l k then None else db_function_runs d !! k;
  rsd_calls k : db_function_calls d' !! k = if among l k then None else db_function_calls d !! k;
  rsd_allocations k p a : p ∈ l.*2 → String.prefix (of_request p) k = true → db_allocations d' !! k = Some a → al_request_id a ≠ prc_request_id p;
  rsd_kept k a : among l k = false → db_allocations d !! k = Some a → db_allocations d' !! k = Some a;
  rsd_sub k a : db_allocations d' !! k = Some a → db_allocations d !! k = Some a;
  rsd_ctx k : db_request_ctx d' !! k = if bool_decide (k ∈ l.*1) then None else db_request_ctx d !! k;
  rsd_urls ns url : (∀ p, p ∈ l.*2 → prc_namespace p = ns) →
    (∃ k run, db_function_runs d !! k = Some run ∧ among l k = true ∧ url ∈ run_urls run) → is_Some (db_gc_urls d' !! bar ns url);
  rsd_gc k : is_Some (db_gc_urls d !! k) → is_Some (db_gc_urls d' !! k);
  rsd_others : other_columns d' = other_columns d;
}.
Lemma delete_requests_spec clock l : ∀ d,
  NoDup l.*1 → Forall filed_ctx l → (∀ k p, (k, p) ∈ l → db_request_ctx d !! k = Some p) →
  requests_deleted d (foldl (λ d (kv : string * PersistedRequestCtx),
    sm_delete_request d (prc_namespace kv.2) (prc_application_name kv.2) (prc_request_id kv.2) clock) d l) l.
Proof.
  induction l as [|[k0 p0] l IH]; intros d Hn Hf Hl; cbn [foldl].
  - split; try done; [set_solver|]. intros ns url _ (k & run & _ & Hk & _). done.
  - apply NoDup_cons in Hn as [Hk0 Hn]. apply Forall_cons in Hf as [Hf0 Hf].
    assert (Hp0 : db_request_ctx d !! request_key (prc_namespace p0) (prc_application_name p0) (prc_request_id p0) = Some p0)
      by (unfold filed_ctx in Hf0; cbn in Hf0; rewrite <-Hf0; apply Hl; left).
    pose proof (sm_delete_request_spec d _ _ _ clock p0 Hp0) as Hd. cbn [fst snd].
    set (d1 := sm_delete_request d _ _ _ _) in *. clearbody d1. destruct Hd as [D1 D2 D3 D4 D5 D6 D7 D8].
    fold (of_request p0) in D1, D2, D3, D6. unfold filed_ctx in Hf0. cbn in Hf0. rewrite <-Hf0 in D4.
    assert (Hl1 : ∀ k p, (k, p) ∈ l → db_request_ctx d1 !! k = Some p).
    { intros k p Hin. rewrite D4, lookup_delete_ne; [by apply Hl; right|]. intros <-. apply Hk0, list_elem_of_fmap. by exists (k0, p). }
    specialize (IH d1 Hn Hf Hl1) as [R1 R2 R3 R3' R3'' R4 R5 R6 R7].
    split.
    + intros k. rewrite R1, D1. cbn [among existsb snd]. fold (among l k). by destruct (String.prefix (of_request p0) k), (among l k).
    + intros k. rewrite R2, D2. cbn [among existsb snd]. fold (among l k). by destruct (String.prefix (of_request p0) k), (among l k).
    + intros k p a. cbn [fmap list_fmap snd]. rewrite elem_of_cons. intros [->|Hp] Hk Ha; [|by eapply R3].
      apply R3'' in Ha. rewrite D3 in Ha. destruct (db_allocations d !! k) as [a'|]; [|done].
      rewrite Hk in Ha. cbn in Ha. case_bool_decide; naive_solver.
    + intros k a. cbn [among existsb snd]. fold (among l k). intros [Hk1 Hk2]%orb_false_iff Ha. apply R3'; [done|]. by rewrite D3, Ha, Hk1.
    + intros k a Ha%R3''. rewrite D3 in Ha. destruct (db_allocations d !! k); [|done]. destruct (_ && _); naive_solver.
    + intros k. rewrite R4, D4, lookup_delete. cbn [fmap list_fmap fst].
      repeat case_bool_decide; repeat case_decide; subst; try done; set_solver.
    + intros ns url Hns (k & run & Hrun & Hk & Hu). cbn [fmap list_fmap snd] in Hns.
      cbn [among existsb snd] in Hk. fold (among l k) in Hk. destruct (String.prefix (of_request p0) k) eqn:Ek.
      * apply R6. rewrite <-(Hns p0) by (left; done). rewrite D6; [done|]. by exists k, run.
      * apply R5; [intros p Hp; apply Hns; by right|]. exists k, run. by rewrite D1, Ek.
    + intros k Hk. by apply R6, D7.
    + by rewrite R7.
Qed.

Lemma app_prefix_ctx ns name p :
  bar_free ns = true → bar_free name = true → bar_free (prc_namespace p) = true → bar_free (prc_application_name p) = true →
  String.prefix (app_key_prefix ns name) (request_key (prc_namespace p) (prc_application_name p) (prc_request_id p)) = true →
  prc_namespace p = ns ∧ prc_application_name p = name.
Proof. intros ????. unfold app_key_prefix, request_key. intros (-> & (-> & _)%prefix_bar)%prefix_bar; done. Qed.

Lemma delete_version_rows ns clock l : ∀ d,
  foldl (delete_version_row ns clock) d l =
  d <| db_application_versions ::= λ m, foldl (λ m k, delete k m) m l.*1 |>
    <| db_gc_urls ::= gc_rows ns clock (omap (λ v, dp_path <$> av_code v) l.*2) |>.
Proof.
  induction l as [|[k v] l IH]; intros d; cbn [foldl]; [by destruct d|]. rewrite IH. unfold delete_version_row.
  cbn [fst snd fmap list_fmap omap list_omap]. destruct (av_code v); by destruct d.
Qed.
Lemma gc_rows_keep ns clock l m k : is_Some (m !! k) → is_Some (gc_rows ns clock l m !! k).
Proof. intros H. rewrite lookup_gc_rows. by destruct (list_find _ _) as [[??]|]. Qed.
Lemma gc_rows_have ns clock l m url : url ∈ l → is_Some (gc_rows ns clock l m !! bar ns url).
Proof.
  intros H. rewrite lookup_gc_rows. destruct (list_find _ _) as [[??]|] eqn:E; [done|].
  apply list_find_None in E. rewrite Forall_forall in E. by destruct (E url).
Qed.

(** Deleting a request removes its context, its entry in the secondary index,
    all its function runs and calls and all its allocations, queues every payload of
    its runs for garbage collection, and touches no row of any other request whose
    names contain no separator. *)
Theorem delete_request_complete d ns app req clock p :
  db_request_ctx d !! request_key ns app req = Some p →
  bar_free ns = true → bar_free app = true → bar_free req = true →
  let d' := sm_delete_request d ns app req clock in
  request_deleted d d' ns app req clock p ∧
  (∀ r, bar_free (fr_namespace r) = true → bar_free (fr_application r) = true → bar_free (fr_request_id r) = true →
     ~ (ns = fr_namespace r ∧ app = fr_application r ∧ req = fr_request_id r) →
     db_function_runs d' !! run_key r = db_function_runs d !! run_key r) ∧
  (∀ a, bar_free (al_namespace a) = true → bar_free (al_application a) = true → bar_free (al_request_id a) = true →
     let k := allocation_key (al_namespace a) (al_application a) (al_request_id a) (al_id a) in
     db_allocations d !! k = Some a →
     db_allocations d' !! k =
       if bool_decide (ns = al_namespace a ∧ app = al_application a ∧ req = al_request_id a) then None else Some a).
Proof.
  intros Hp Hns Happ Hreq d'. pose proof (sm_delete_request_spec d ns app req clock p Hp) as Hd. fold d' in Hd. split; [done|].
  destruct Hd as [D1 _ D3 _ _ _ _ _]. split.
  - intros r H1 H2 H3 Hne. rewrite D1. unfold run_key.
    destruct (String.prefix _ _) eqn:E; [|done]. by apply request_prefix_iff in E.
  - intros a H1 H2 H3 k Ha. rewrite D3, Ha. unfold k, allocation_key.
    pose proof (request_prefix_iff ns app req (al_namespace a) (al_application a) (al_request_id a) (al_id a) Hns Happ Hreq H1 H2 H3) as Hiff.
    destruct (String.prefix _ _); repeat case_bool_decide; naive_solver.
Qed.

(** Request rows filed under the key of the request they hold. *)
Definition ctx_rows_wf (d : Db) : Prop :=
  ∀ k p, db_request_ctx d !! k = Some p →
    filed_ctx (k, p) ∧ bar_free (prc_namespace p) = true ∧ bar_free (prc_application_name p) = true.

(** C32: deleting an application leaves none of its rows: not the application, its
    versions, its function pools, its cron schedules or its requests with their runs,
    calls and allocations; the code of every version and the payloads of every run are
    queued for garbage collection, and the rows of other applications are kept. *)
Theorem delete_application_complete d ns name clock :
  ctx_rows_wf d → bar_free ns = true → bar_free name = true →
  let d' := (sm_delete_application d ns name clock).1 in
  let mine k := String.prefix (app_key_prefix ns name) k in
  (∀ k, db_applications d' !! k = if bool_decide (k = app_key ns name) then None else db_applications d !! k) ∧
  (∀ k, db_request_ctx d' !! k = if mine k then None else db_request_ctx d !! k) ∧
  (∀ k, db_application_versions d' !! k = if mine k then None else db_application_versions d !! k) ∧
  (∀ k, db_function_pools d' !! k = if mine k then None else db_function_pools d !! k) ∧
  (∀ k, db_cron_schedules d' !! k = if mine k then None else db_cron_schedules d !! k) ∧
  (∀ k0 p k, db_request_ctx d !! k0 = Some p → mine k0 = true → String.prefix (of_request p) k = true →
     db_function_runs d' !! k = None ∧ db_function_calls d' !! k = None ∧
     (∀ a, db_allocations d' !! k = Some a → al_request_id a ≠ prc_request_id p) ∧
     ∀ run url, db_function_runs d !! k = Some run → url ∈ run_urls run → is_Some (db_gc_urls d' !! bar ns url)) ∧
  (∀ k, (∀ k0 p, db_request_ctx d !! k0 = Some p → mine k0 = true → String.prefix (of_request p) k = false) →
     db_function_runs d' !! k = db_function_runs d !! k ∧ db_function_calls d' !! k = db_function_calls d !! k ∧
     db_allocations d' !! k = db_allocations d !! k) ∧
  (∀ k v code, db_application_versions d !! k = Some v → mine k = true → av_code v = Some code →
     is_Some (db_gc_urls d' !! bar ns (dp_path code))).
Proof.
  intros Hw Hns Hname d' mine. assert (Ed : d' = (sm_delete_application d ns name clock).1) by done. clearbody d'.
  unfold sm_delete_application, delete_cron_schedules_for_app in Ed. rewrite delete_cron_rows in Ed. cbv zeta in Ed.
  set (d2 := (d <| db_cron_schedules ::= _ |>) <| db_applications ::= _ |>) in Ed.
  set (l := scan_prefix (app_key_prefix ns name) (db_request_ctx d2)) in Ed.
  assert (Hl : ∀ k p, (k, p) ∈ l ↔ db_request_ctx d !! k = Some p ∧ mine k = true) by (intros k p; apply elem_of_scan_prefix).
  assert (Hf : Forall filed_ctx l) by (apply Forall_forall; intros [k p] [Hk _]%Hl; by apply Hw).
  assert (Hns' : ∀ p, p ∈ l.*2 → prc_namespace p = ns).
  { intros p ([k p'] & -> & [Hk Hm]%Hl)%list_elem_of_fmap. destruct (Hw _ _ Hk) as (Hfk & ? & ?). unfold filed_ctx in Hfk. cbn in Hfk.
    subst k. by apply (app_prefix_ctx ns name p'). }
  pose proof (delete_requests_spec clock l d2 (NoDup_scan_prefix _ _) Hf ltac:(intros k p [? _]%Hl; done)) as Hr.
  set (d3 := foldl _ d2 l) in *. clearbody d3. unfold delete_function_pools_by_prefix in Ed.
  rewrite delete_version_rows, delete_pool_rows in Ed. subst d'.
  destruct Hr as [R1 R2 R3 R3' R3'' R4 R5 R6 R7].
  assert (Hamong : ∀ k, among l k = true ↔ ∃ k0 p, db_request_ctx d !! k0 = Some p ∧ mine k0 = true ∧ String.prefix (of_request p) k = true).
  { intros k. unfold among. rewrite existsb_exists. split.
    - intros ([k0 p] & [Hk Hm]%list_elem_of_In%Hl & Hp). by exists k0, p.
    - intros (k0 & p & Hk & Hm & Hp). exists (k0, p). split; [|done]. by apply list_elem_of_In, Hl. }
  assert (Happs : db_applications d3 = db_applications d2) by exact (f_equal (λ v, v.1.1.1.1.1.1.1.1.1.1.1.1.2) R7).
  assert (Hvers : db_application_versions d3 = db_application_versions d) by exact (f_equal (λ v, v.1.1.1.1.1.1.1.1.1.1.1.2) R7).
  assert (Hpools : db_function_pools d3 = db_function_pools d) by exact (f_equal (λ v, v.1.1.1.1.1.1.1.1.2) R7).
  assert (Hcron : db_cron_schedules d3 = db_cron_schedules d2) by exact (f_equal (λ v, v.1.1.1.2) R7).
  split_and!.
  - intros k. change (db_applications d3 !! k = if bool_decide (k = app_key ns name) then None else db_applications d !! k).
    rewrite Happs. change (delete (app_key ns name) (db_applications d) !! k = if bool_decide (k = app_key ns name) then None else db_applications d !! k).
    rewrite lookup_delete. case_bool_decide; case_decide; congruence.
  - intros k. change (db_request_ctx d3 !! k = if mine k then None else db_request_ctx d !! k). rewrite R4.
    case_bool_decide as Hk.
    + apply list_elem_of_fmap in Hk as ([k' p] & -> & [_ Hm]%Hl). cbn [fst]. by rewrite Hm.
    + destruct (mine k) eqn:Em; [|done]. change (db_request_ctx d2) with (db_request_ctx d).
      destruct (db_request_ctx d !! k) as [p|] eqn:E; [|done]. destruct Hk. apply list_elem_of_fmap. exists (k, p). by rewrite Hl.
  - intros k. change (foldl (λ m k, delete k m) (db_application_versions d3) (scan_prefix (app_key_prefix ns name) (db_application_versions d3)).*1 !! k
      = if mine k then None else db_application_versions d !! k). rewrite Hvers. apply lookup_delete_scanned.
  - intros k. change (foldl (λ m k, delete k m) (db_function_pools d3) (scan_prefix (bar ns (bar name "")) (db_function_pools d3)).*1 !! k
      = if mine k then None else db_function_pools d !! k). rewrite Hpools. apply lookup_delete_scanned.
  - intros k. change (db_cron_schedules d3 !! k = if mine k then None else db_cron_schedules d !! k). rewrite Hcron. apply lookup_delete_scanned.
  - intros k0 p k Hk0 Hm Hp. assert (Ha : among l k = true) by (apply Hamong; eauto).
    split_and!.
    + etransitivity; [exact (R1 k)|by rewrite Ha].
    + etransitivity; [exact (R2 k)|by rewrite Ha].
    + intros a. apply R3; [|done]. apply list_elem_of_fmap. exists (k0, p). by rewrite Hl.
    + intros run url Hrun Hu. apply gc_rows_keep, (R5 ns url Hns'). exists k, run. done.
  - intros k Hk. change (db_function_runs d3 !! k = db_function_runs d !! k ∧ db_function_calls d3 !! k = db_function_calls d !! k ∧
     db_allocations d3 !! k = db_allocations d !! k).
    assert (Ha : among l k = false).
    { destruct (among l k) eqn:E; [|done]. apply Hamong in E as (k0 & p & ? & ? & E). by rewrite (Hk k0 p) in E. }
    rewrite R1, R2, Ha. split_and!; [done..|]. change (db_allocations d) with (db_allocations d2).
    destruct (db_allocations d2 !! k) as [a|] eqn:E; [by apply R3'|].
    destruct (db_allocations d3 !! k) as [a|] eqn:E3; [|done]. apply R3'' in E3. congruence.
  - intros k v code Hv Hm Hc. apply gc_rows_have. rewrite Hvers. apply list_elem_of_omap. exists v. rewrite Hc. split; [|done].
    apply list_elem_of_fmap. exists (k, v). by rewrite elem_of_scan_prefix.
Qed.
End deletion.

(** ** Usage events *)

Section billing.
Context `{HO : HashOrder}.

Definition alloc_row_key (a : Allocation) : string := allocation_key (al_namespace a) (al_application a) (al_request_id a) (al_id a).
Definition event_key (e : AllocationUsageEvent) : string :=
  allocation_key (aue_namespace e) (aue_application e) (aue_request_id e) (aue_allocation_id e).
(** The usage events a write added: the rows between the two values of the sequence. *)
Definition events_between (d : Db) (seq seq' : Z) : list AllocationUsageEvent :=
  omap (λ i, db_allocation_usage d !! i) (seqZ seq (seq' - seq)).
(** No allocation that was billed can change any more. *)
Definition settled (d : Db) (log : list AllocationUsageEvent) : Prop :=
  ∀ e a, e ∈ log → db_allocations d !! event_key e = Some a → allocation_is_terminal a = true.
Definition billed_once (d : Db) (log : list AllocationUsageEvent) : Prop := NoDup (event_key <$> log) ∧ settled d log.
(** A duration is only reported with the outcome. *)
Definition final_durations (l : list Allocation) : Prop :=
  ∀ a, a ∈ l → al_execution_duration_ms a ≠ None → allocation_is_terminal a = true.

Lemma events_between_nil d seq : events_between d seq seq = [].
Proof. unfold events_between. by rewrite Z.sub_diag. Qed.
Lemma events_between_cons d seq seq' e :
  seq < seq' → db_allocation_usage d !! seq = Some e → events_between d seq seq' = e :: events_between d (seq + 1) seq'.
Proof.
  intros Hlt He. unfold events_between. rewrite seqZ_cons by lia. cbn [omap list_omap]. rewrite He.
  by replace (Z.pred (seq' - seq)) with (seq' - (seq + 1)) by lia.
Qed.
Lemma settled_put d log a k :
  settled d log → (k ∈ event_key <$> log → allocation_is_terminal a = true) →
  settled (d <| db_allocations ::= <[k := a]> |>) log.
Proof.
  intros Hs Hk e b He Hb. change (<[k := a]> (db_allocations d) !! event_key e = Some b) in Hb.
  apply lookup_insert_Some in Hb as [[Ek <-]|[_ Hb]]; [|by apply (Hs e)]. apply Hk. rewrite Ek.
  apply list_elem_of_fmap. eauto.
Qed.
Lemma upsert_allocation_cases d a seq clock :
  upsert_allocation d a seq clock = (d, seq, false) ∨
  ∃ old, db_allocations d !! alloc_row_key a = Some old ∧ allocation_is_terminal old = false ∧
    let d1 := d <| db_allocations ::= <[alloc_row_key a := a]> |> in
    (al_execution_duration_ms a = None ∧ upsert_allocation d a seq clock = (d1, seq, false)) ∨
    (al_execution_duration_ms a ≠ None ∧ ∃ e, event_key e = alloc_row_key a ∧
       upsert_allocation d a seq clock = (d1 <| db_allocation_usage ::= <[seq := e]> |>, wrap64 (seq + 1), true)).
Proof.
  unfold upsert_allocation. fold (alloc_row_key a). destruct (db_allocations d !! alloc_row_key a) as [old|]; [|by left].
  destruct (allocation_is_terminal old) eqn:Et; [by left|]. case_bool_decide; [by left|]. right. exists old. split_and!; [done..|].
  destruct (al_execution_duration_ms a) as [ms|]; [right|by left]. split; [done|]. eexists. split; [|done]. done.
Qed.

Lemma upsert_allocations_billed clock l : ∀ d seq r log,
  billed_once d log → final_durations l → 0 ≤ seq → seq + Z.of_nat (length l) ≤ u64_max →
  let '(d', seq', _) := foldl (λ '(d, seq, recorded) a, let '(d1, seq1, r) := upsert_allocation d a seq clock in (d1, seq1, recorded || r))
                         (d, seq, r) l in
  seq ≤ seq' ≤ seq + Z.of_nat (length l) ∧ billed_once d' (log ++ events_between d' seq seq') ∧
  (∀ i, i < seq → db_allocation_usage d' !! i = db_allocation_usage d !! i).
Proof.
  induction l as [|a l IH]; intros d seq r log Hb Hf H0 Hseq; cbn [foldl].
  - rewrite events_between_nil, app_nil_r. cbn. split_and!; [lia|lia|done|done].
  - cbn [length] in Hseq. destruct Hb as [Hn Hs].
    assert (Hf' : final_durations l) by (intros b Hb; apply Hf; by right).
    destruct (upsert_allocation_cases d a seq clock) as [->|(old & Hold & Ht & [[Hd ->]|(Hd & e & He & ->)])].
    + specialize (IH d seq (r || false) log (conj Hn Hs) Hf' H0 ltac:(lia)). cbv beta iota zeta.
      destruct (foldl _ _ l) as [[d' seq'] r']. destruct IH as (? & ? & ?). cbn [length]. split_and!; [lia|lia|done|done].
    + assert (Hk : alloc_row_key a ∉ event_key <$> log).
      { intros (x & Hx & Hin)%list_elem_of_fmap. rewrite Hx in Hold. rewrite (Hs x old Hin Hold) in Ht. done. }
      specialize (IH (d <| db_allocations ::= <[alloc_row_key a := a]> |>) seq (r || false) log
                    (conj Hn (settled_put d log a _ Hs ltac:(done))) Hf' H0 ltac:(lia)). cbv beta iota zeta.
      destruct (foldl _ _ l) as [[d' seq'] r']. destruct IH as (? & ? & Hi). cbn [length]. split_and!; [lia|lia|done|done].
    + assert (Hk : alloc_row_key a ∉ event_key <$> log).
      { intros (x & Hx & Hin)%list_elem_of_fmap. rewrite Hx in Hold. rewrite (Hs x old Hin Hold) in Ht. done. }
      rewrite wrap64_id by (unfold in_u64, u64_max in *; lia).
      set (d1 := (d <| db_allocations ::= <[alloc_row_key a := a]> |>) <| db_allocation_usage ::= <[seq := e]> |>).
      assert (Hb1 : billed_once d1 (log ++ [e])).
      { split.
        - rewrite fmap_app. apply NoDup_app. split_and!; [done| |apply NoDup_singleton].
          intros x Hx. cbn. rewrite list_elem_of_singleton. intros ->. apply Hk. by rewrite <-He.
        - intros x b Hx Hb. rewrite elem_of_app, list_elem_of_singleton in Hx. destruct Hx as [Hx| ->].
          + exact (settled_put d log a _ Hs ltac:(done) x b Hx Hb).
          + change (<[alloc_row_key a := a]> (db_allocations d) !! event_key e = Some b) in Hb.
            rewrite He, lookup_insert_eq in Hb. injection Hb as <-. apply Hf; [left|done]. }
      specialize (IH d1 (seq + 1) (r || true) (log ++ [e]) Hb1 Hf' ltac:(lia) ltac:(lia)). cbv beta iota zeta. fold d1.
      destruct (foldl _ _ l) as [[d' seq'] r']. destruct IH as (Hr & Hb' & Hi). cbn [length].
      assert (Hrow : db_allocation_usage d' !! seq = Some e).
      { rewrite Hi by lia. change (<[seq := e]> (db_allocation_usage d) !! seq = Some e). apply lookup_insert_eq. }
      split_and!; [lia|lia| |].
      * rewrite (events_between_cons d' seq seq' e) by (done || lia). by rewrite cons_middle, app_assoc.
      * intros i Hlt. rewrite Hi by lia. change (<[seq := e]> (db_allocation_usage d) !! i = db_allocation_usage d !! i).
        by rewrite lookup_insert_ne by lia.
Qed.

(** The writes that concern allocations: scheduler updates, the export of usage
    events and the deletions.  The log holds every usage event ever recorded. *)
Inductive bill_step : Db * Z * list AllocationUsageEvent → Db * Z * list AllocationUsageEvent → Prop :=
| bill_update d seq log u clock d' seq' r :
    (∀ a, a ∈ su_new_allocations u → alloc_row_key a ∉ event_key <$> log) →
    final_durations (su_updated_allocations u) →
    seq + Z.of_nat (length (su_updated_allocations u)) ≤ u64_max →
    handle_scheduler_update d u seq clock = (d', seq', r) →
    bill_step (d, seq, log) (d', seq', log ++ events_between d' seq seq')
| bill_export d seq log l : bill_step (d, seq, log) (remove_allocation_usage_events d l, seq, log)
| bill_delete_request d seq log ns app req clock : bill_step (d, seq, log) (sm_delete_request d ns app req clock, seq, log)
| bill_delete_application d seq log ns name clock : bill_step (d, seq, log) ((sm_delete_application d ns name clock).1, seq, log).

Definition fewer_allocations (d d' : Db) : Prop := ∀ k a, db_allocations d' !! k = Some a → db_allocations d !! k = Some a.
Lemma settled_fewer d d' log : fewer_allocations d d' → settled d log → settled d' log.
Proof. intros Hf Hs e a He Ha. by apply (Hs e), Hf. Qed.
Lemma same_allocations d d' log : db_allocations d' = db_allocations d → settled d log → settled d' log.
Proof. intros E. apply settled_fewer. intros k a. by rewrite E. Qed.
Lemma sm_delete_request_fewer d ns app req clock : fewer_allocations d (sm_delete_request d ns app req clock).
Proof.
  intros k a. destruct (db_request_ctx d !! request_key ns app req) as [p|] eqn:E.
  - rewrite (rd_allocations _ _ _ _ _ _ _ (sm_delete_request_spec d ns app req clock p E)).
    destruct (db_allocations d !! k); [|done]. destruct (_ && _); naive_solver.
  - unfold sm_delete_request. by rewrite E.
Qed.
Lemma sm_delete_application_fewer d ns name clock : fewer_allocations d (sm_delete_application d ns name clock).1.
Proof.
  unfold sm_delete_application, delete_cron_schedules_for_app, delete_function_pools_by_prefix.
  rewrite delete_cron_rows. cbv zeta. rewrite delete_version_rows, delete_pool_rows. cbn [fst].
  set (d2 := _ <| db_applications ::= _ |>). change (fewer_allocations d2 (foldl (λ d (kv : string * PersistedRequestCtx),
    sm_delete_request d (prc_namespace kv.2) (prc_application_name kv.2) (prc_request_id kv.2) clock) d2
    (scan_prefix (app_key_prefix ns name) (db_request_ctx d2)))).
  apply (foldl_ind (fewer_allocations d2)); [by intros k a|]. intros d1 kv _ H1 k a Ha. by apply H1, (sm_delete_request_fewer d1 _ _ _ _ k a Ha).
Qed.

(** What [handle_scheduler_update] does to allocations before and after the upserts. *)
Definition written_before_upserts (d : Db) (u : SchedulerUpdateRequest) : Db :=
  let d1 := foldl put_allocation d (su_new_allocations u) in
  let d2 := foldl (λ d ctx, d <| db_request_ctx ::= <[request_ctx_key ctx := persisted_ctx ctx]> |>)
              d1 (map_iter (su_updated_request_states u)).*2 in
  let d3 := foldl put_run d2 (listed_runs u) in
  foldl (λ d kc, d <| db_function_calls ::= <[kc.1 := kc.2]> |>) d3 (written_calls u).
Definition bill_view (d : Db) := (db_allocations d, db_allocation_usage d).
Lemma written_before_upserts_view d u :
  bill_view (written_before_upserts d u) = bill_view (foldl put_allocation d (su_new_allocations u)).
Proof.
  unfold written_before_upserts. cbv zeta. rewrite (foldl_keeps bill_view) by done. rewrite (foldl_keeps bill_view) by done.
  by rewrite (foldl_keeps bill_view).
Qed.
Lemma put_allocations_settled log l : ∀ d,
  (∀ a, a ∈ l → alloc_row_key a ∉ event_key <$> log) → settled d log → settled (foldl put_allocation d l) log.
Proof.
  intros d Hl Hs. apply (foldl_ind (λ d, settled d log)); [done|]. intros d1 a Ha H1.
  apply settled_put; [done|]. intros Hk. by destruct (Hl a Ha).
Qed.
Lemma billed_once_view d d' log : bill_view d = bill_view d' → billed_once d log → billed_once d' log.
Proof. intros E [Hn Hs]. split; [done|]. apply (same_allocations d); [|done]. symmetry. exact (f_equal fst E). Qed.
Lemma events_between_view d d' seq seq' : bill_view d = bill_view d' → events_between d seq seq' = events_between d' seq seq'.
Proof. intros E. unfold events_between. by rewrite (f_equal snd E : db_allocation_usage d = db_allocation_usage d'). Qed.

Lemma handle_scheduler_update_billed d u seq clock log d' seq' r :
  (∀ a, a ∈ su_new_allocations u → alloc_row_key a ∉ event_key <$> log) → final_durations (su_updated_allocations u) →
  0 ≤ seq → seq + Z.of_nat (length (su_updated_allocations u)) ≤ u64_max →
  handle_scheduler_update d u seq clock = (d', seq', r) → billed_once d log →
  seq ≤ seq' ∧ billed_once d' (log ++ events_between d' seq seq').
Proof.
  intros Hnew Hfin H0 Hseq Hu [Hn Hs]. unfold handle_scheduler_update in Hu. fold (written_before_upserts d u) in Hu. cbv zeta in Hu.
  assert (Hb : billed_once (written_before_upserts d u) log).
  { apply (billed_once_view (foldl put_allocation d (su_new_allocations u))); [by rewrite written_before_upserts_view|].
    split; [done|]. by apply put_allocations_settled. }
  pose proof (upsert_allocations_billed clock (su_updated_allocations u) _ seq false log Hb Hfin H0 Hseq) as H.
  unfold upsert_allocations in Hu. destruct (foldl _ (written_before_upserts d u, seq, false) _) as [[d5 seq5] r5].
  destruct H as (Hr & Hb5 & _). injection Hu as <- <- <-. split; [lia|]. set (d6 := foldl upsert_snapshot _ _).
  assert (E : bill_view d5 = bill_view d6) by (unfold d6; rewrite (foldl_keeps bill_view) by done; by rewrite (foldl_keeps bill_view)).
  rewrite <-(events_between_view d5 d6) by done. by apply (billed_once_view d5).
Qed.

Lemma bill_step_keeps x y :
  bill_step x y → 0 ≤ x.1.2 ∧ billed_once x.1.1 x.2 → 0 ≤ y.1.2 ∧ billed_once y.1.1 y.2.
Proof.
  destruct 1 as [? ? ? ? ? ? ? ? Hnew Hfin Hseq Hu| | |]; cbn [fst snd]; intros [Hp Hb].
  - destruct (handle_scheduler_update_billed _ _ _ _ _ _ _ _ Hnew Hfin Hp Hseq Hu Hb). split; [lia|done].
  - split; [done|]. destruct Hb as [Hn Hs]. split; [done|]. apply (same_allocations d); [|done].
    unfold remove_allocation_usage_events. by rewrite (foldl_keeps db_allocations).
  - split; [done|]. destruct Hb as [Hn Hs]. split; [done|]. by eapply settled_fewer; [apply sm_delete_request_fewer|].
  - split; [done|]. destruct Hb as [Hn Hs]. split; [done|]. by eapply settled_fewer; [apply sm_delete_application_fewer|].
Qed.

(** C31: whatever scheduler updates, exports of usage events and deletions the server
    performs, no allocation is ever billed twice: once a usage event is recorded for
    it, its row stays final, so that late or repeated reports change nothing. *)
Theorem allocation_billed_once d seq s :
  0 ≤ seq → rtc bill_step (d, seq, []) s → NoDup (event_key <$> s.2) ∧ settled s.1.1 s.2.
Proof.
  intros H0 Hr. cut (0 ≤ s.1.2 ∧ billed_once s.1.1 s.2); [intros [_ H]; exact H|].
  remember (d, seq, []) as x eqn:Ex. assert (Hx : 0 ≤ x.1.2 ∧ billed_once x.1.1 x.2).
  { subst x. split; [done|]. split; [constructor|]. intros e a He. by apply elem_of_nil in He. }
  clear Ex H0. revert Hx. induction Hr as [|x y z Hxy Hyz IH]; [done|]. intros Hx. by apply IH, (bill_step_keeps x).
Qed.
End billing.

(** ** The secondary index of requests *)

Lemma split_bars_bar a b : bar_free a = true → segments (bar a b) = a :: segments b.
Proof.
  unfold segments. induction a as [|c a IH]; cbn [bar_free].
  - rewrite bar_nil. cbn. by destruct (split_bars b).
  - intros [Hc Ha]%andb_true_iff. rewrite bar_cons. cbn [split_bars]. specialize (IH Ha).
    destruct (split_bars (bar a b)) as [w ws], (split_bars b) as [w' ws']. injection IH as -> ->.
    by destruct (Ascii.eqb c "|").
Qed.
Lemma segments_free a : bar_free a = true → segments a = [a].
Proof.
  unfold segments. induction a as [|c a IH]; cbn [bar_free]; [done|].
  intros [Hc Ha]%andb_true_iff. cbn [split_bars]. specialize (IH Ha). destruct (split_bars a) as [w ws]. injection IH as -> ->.
  by destruct (Ascii.eqb c "|").
Qed.
(** The request id is read back from the secondary index key whenever no name
    contains the separator and neither does any byte of the creation time. *)
Theorem secondary_index_roundtrip c :
  bar_free (rc_namespace c) = true → bar_free (rc_application_name c) = true → bar_free (rc_request_id c) = true →
  bar_free (be_bytes 8 (rc_created_at c)) = true →
  get_request_id_from_secondary_index_key (ctx_secondary_index_key c) = Some (rc_request_id c).
Proof.
  intros H1 H2 H3 H4. unfold get_request_id_from_secondary_index_key, ctx_secondary_index_key, secondary_index_key.
  by rewrite !split_bars_bar, segments_free.
Qed.

(** ** Examples *)

Definition payload_ex (path : string) : DataPayload := MkDataPayload "p1" path 0 0 10 "h" "json".
Definition input_run_ex (req id : string) : FunctionRun :=
  function_run_ex id "v1" FRS_Pending <| fr_request_id := req |> <| fr_input_args := [MkInputArgs None (payload_ex "s3://in")] |>.
Definition invoked_ctx_ex (req : string) (created_at : Z) : RequestCtx :=
  request_ex None {["c1" := input_run_ex req "c1"]} <| rc_request_id := req |> <| rc_created_at := created_at |>
    <| rc_function_calls := {["c1" := MkFunctionCall "c1" [] "fn" "" None]} |>.
Definition alloc_ex (id : string) (outcome : FunctionRunOutcome) (clock : Z) (ms : option Z) : Allocation :=
  MkAllocation id (MkAllocationTarget "e1" "k1") "c1" "ns" "app" "v1" "fn" "r1" 0 outcome 0 ms [] clock "".
Definition deployed_db_ex : Db := @create_or_update_application canonical_order empty_db deployed_ex false [] 1.
Definition unwrap_db (r : result WriteError Db) : Db := match r with Ok d => d | Err _ => empty_db end.
Definition two_requests_ex : Db :=
  unwrap_db (@create_request canonical_order
    (unwrap_db (@create_request canonical_order deployed_db_ex "ns" "app" (invoked_ctx_ex "r1" 5)))
    "ns" "app" (invoked_ctx_ex "r2" 6)).

Lemma delete_request_complete_witness :
  let d' := @sm_delete_request canonical_order two_requests_ex "ns" "app" "r1" 9 in
  db_function_runs two_requests_ex !! "ns|app|r1|c1" = Some (input_run_ex "r1" "c1") ∧
  db_function_runs d' !! "ns|app|r1|c1" = None ∧ db_request_ctx d' !! "ns|app|r1" = None ∧
  db_function_runs d' !! "ns|app|r2|c1" = db_function_runs two_requests_ex !! "ns|app|r2|c1" ∧
  db_gc_urls d' !! "ns|s3://in" = Some (MkGcUrl "s3://in" "ns" (Some 9) (Some 9)).
Proof.
  destruct (@delete_request_complete canonical_order two_requests_ex "ns" "app" "r1" 9 (persisted_ctx (invoked_ctx_ex "r1" 5))
              ltac:(vm_compute; reflexivity) eq_refl eq_refl eq_refl) as ([D1 _ _ D4 _ D6 _ _] & Hr & _).
  split_and!.
  - vm_compute. reflexivity.
  - rewrite D1. reflexivity.
  - rewrite D4. apply lookup_delete_eq.
  - apply (Hr (input_run_ex "r2" "c1")); [reflexivity..|]. intros (_ & _ & H). discriminate H.
  - apply (D6 "s3://in"). exists "ns|app|r1|c1", (input_run_ex "r1" "c1"). split_and!; [vm_compute; reflexivity..|].
    apply (bool_decide_eq_true_1 _). vm_compute. reflexivity.
Defined.

Lemma two_requests_ex_wf : ctx_rows_wf two_requests_ex.
Proof.
  assert (E : map_Forall (λ k p, k = request_key (prc_namespace p) (prc_application_name p) (prc_request_id p) ∧
     bar_free (prc_namespace p) = true ∧ bar_free (prc_application_name p) = true) (db_request_ctx two_requests_ex)).
  { apply (bool_decide_eq_true_1 _). vm_compute. reflexivity. }
  intros k p Hk. apply (E k p Hk).
Qed.
Lemma delete_application_complete_witness :
  let d' := (@sm_delete_application canonical_order two_requests_ex "ns" "app" 9).1 in
  is_Some (db_application_versions two_requests_ex !! "ns|app|v1") ∧
  db_application_versions d' !! "ns|app|v1" = None ∧ db_request_ctx d' !! "ns|app|r1" = None ∧ db_function_runs d' !! "ns|app|r2|c1" = None.
Proof.
  destruct (@delete_application_complete canonical_order two_requests_ex "ns" "app" 9 two_requests_ex_wf eq_refl eq_refl)
    as (_ & H2 & H3 & _ & _ & H6 & _).
  split_and!.
  - exists (prepare_version 1 (to_version deployed_ex)). vm_compute. reflexivity.
  - exact (H3 "ns|app|v1").
  - exact (H2 "ns|app|r1").
  - apply (H6 "ns|app|r2" (persisted_ctx (invoked_ctx_ex "r2" 6)) "ns|app|r2|c1"); [vm_compute; reflexivity|reflexivity|reflexivity].
Defined.

(** The success of an allocation reported twice. *)
Definition success_ex : SchedulerUpdateRequest :=
  empty_update <| su_updated_allocations := [alloc_ex "a1" FRO_Success 1 (Some 70); alloc_ex "a1" FRO_Success 2 (Some 90)] |>.
Definition allocated_db_ex : Db := put_allocation two_requests_ex (alloc_ex "a1" FRO_Unknown 0 None).
Lemma allocation_billed_once_witness :
  ∃ d' log, rtc (@bill_step canonical_order) (allocated_db_ex, 0, []) (d', 1, log) ∧ NoDup (event_key <$> log) ∧
    (aue_execution_duration_ms <$> log) = [70].
Proof.
  eexists _, _.
  assert (Hr : rtc (@bill_step canonical_order) (allocated_db_ex, 0, [])
    ((@handle_scheduler_update canonical_order allocated_db_ex success_ex 0 3).1.1, 1,
     [] ++ events_between (@handle_scheduler_update canonical_order allocated_db_ex success_ex 0 3).1.1 0 1)).
  { apply rtc_once. eapply (bill_update _ 0 [] success_ex 3 _ 1 true); [..|vm_compute; reflexivity].
    - intros a Ha. by apply elem_of_nil in Ha.
    - intros a Ha _. apply elem_of_cons in Ha as [->|Ha%list_elem_of_singleton]; [reflexivity|by subst a].
    - vm_compute. discriminate. }
  split; [exact Hr|]. split; [|vm_compute; reflexivity].
  apply (@allocation_billed_once canonical_order allocated_db_ex 0 _ ltac:(lia) Hr).
Defined.

Lemma secondary_index_roundtrip_witness :
  get_request_id_from_secondary_index_key (ctx_secondary_index_key (invoked_ctx_ex "r1" 1700000000000)) = Some "r1".
Proof. apply secondary_index_roundtrip; vm_compute; reflexivity. Defined.
(** A request created at a millisecond whose big-endian bytes contain 124, the
    code of the separator, is not found through the secondary index: the id read from
    its key is wrong. *)
Theorem secondary_index_key_misparsed :
  get_request_id_from_secondary_index_key (ctx_secondary_index_key (invoked_ctx_ex "r1" 1700000000124)) = Some "".
Proof. vm_compute. reflexivity. Qed.
