(* ===== verification/Scanner.v ===== *)
(** * Reads from the database

    [state_store/scanner.rs]: point reads, prefix scans with a page limit, and the
    reassembly of a request from its three column families.  [db.iter] started at a
    key enumerates the rows from that key on, in key order. *)
From S2P Require Import Prelude DataModel Updates InMemoryState FunctionRuns RequestEvents StateMachine.

(** ** Scans with a limit *)

(** The loop of [get_rows_from_cf_with_limits]; no limit is [usize::MAX], which the
    number of items never reaches. *)
Fixpoint collect_rows {A} (prefix : string) (limit : option nat) (rows : list (string * A)) (items : list A) : list A * option string :=
  match rows with
  | [] => (items, None)
  | (k, v) :: rows =>
      if negb (String.prefix prefix k) then (items, None)
      else if match limit with Some n => bool_decide (length items < n)%nat | None => true end
           then collect_rows prefix limit rows (items ++ [v])
           else (items, Some k)
  end.
Definition rows_from {A} (m : gmap string A) (start : string) : list (string * A) :=
  List.filter (λ kv, bool_decide (String.le start kv.1)) (ord_iter m).
(** [get_rows_from_cf_with_limits]: the rows and the key to restart from. *)
Definition get_rows_from_cf_with_limits {A} (m : gmap string A) (key_prefix : string) (restart_key : option string) (limit : option nat)
    : list A * option string :=
  collect_rows key_prefix limit (rows_from m (default key_prefix restart_key)) [].
(** [get_all_rows_from_cf]. *)
Definition get_all_rows_from_cf {A} (m : gmap string A) : list (string * A) := ord_iter m.

(** ** Queries *)

Definition list_applications (db : Db) (namespace : string) (cursor : option string) (limit : option nat) : list Application * option string :=
  get_rows_from_cf_with_limits (db_applications db) namespace cursor limit.
Definition get_application (db : Db) (ns name : string) : option Application := db_applications db !! app_key ns name.
Definition get_application_version (db : Db) (ns name version : string) : option ApplicationVersion :=
  match db_application_versions db !! version_key ns name version with
  | Some v => Some v
  | None => to_version <$> get_application db ns name
  end.
Definition get_allocations_by_request_id (db : Db) (ns app req : string) : list Allocation :=
  (get_rows_from_cf_with_limits (db_allocations db) (run_key_prefix ns app req) None None).1.
(** [request_ctx]: the context of a request with its runs and calls. *)
Definition read_request_ctx (db : Db) (ns app req : string) : option RequestCtx :=
  match db_request_ctx db !! request_key ns app req with
  | None => None
  | Some p =>
      let runs := (get_rows_from_cf_with_limits (db_function_runs db) (run_key_prefix ns app req) None None).1 in
      let calls := (get_rows_from_cf_with_limits (db_function_calls db) (run_key_prefix ns app req) None None).1 in
      Some (from_persisted p (foldl (λ m r, <[fr_id r := r]> m) ∅ runs) (foldl (λ m c, <[fc_function_call_id c := c]> m) ∅ calls))
  end.
Definition get_sandbox (db : Db) (ns id : string) : option Sandbox := db_sandboxes db !! bar ns id.
Definition list_sandboxes (db : Db) (ns : string) : list Sandbox :=
  (get_rows_from_cf_with_limits (db_sandboxes db) (bar ns "") None None).1.
Definition list_snapshots (db : Db) (ns : string) : list Snapshot :=
  (get_rows_from_cf_with_limits (db_snapshots db) (bar ns "") None None).1.
Definition find_snapshot_by_id (db : Db) (id : SnapshotId) : option Snapshot :=
  head (List.filter (λ s, bool_decide (snap_id s = id)) (get_rows_from_cf_with_limits (db_snapshots db) "" None None).1).
Definition get_sandbox_pool (db : Db) (ns id : string) : option ContainerPool :=
  db_sandbox_pools db !! bar ns id ≫= λ p, if cp_tombstoned p then None else Some p.
Definition list_sandbox_pools (db : Db) (ns : string) : list ContainerPool :=
  List.filter (λ p, negb (cp_tombstoned p)) (get_rows_from_cf_with_limits (db_sandbox_pools db) (bar ns "") None None).1.
Definition list_executors (db : Db) : list ExecutorMetadata := (get_rows_from_cf_with_limits (db_executors db) "" None None).1.
Definition get_cron_schedules_for_app (db : Db) (ns app : string) : list CronScheduleEntry :=
  (get_rows_from_cf_with_limits (db_cron_schedules db) (app_key_prefix ns app) None None).1.
Definition get_all_cron_schedules (db : Db) : list CronScheduleEntry := (get_rows_from_cf_with_limits (db_cron_schedules db) "" None None).1.
Definition get_cron_schedule (db : Db) (ns app id : string) : option CronScheduleEntry := db_cron_schedules db !! cron_key ns app id.
Definition get_namespace (db : Db) (ns : string) : option Namespace := db_namespaces db !! ns.
Definition get_all_namespaces (db : Db) : list Namespace := (get_rows_from_cf_with_limits (db_namespaces db) "" None None).1.
Definition get_allocation (db : Db) (key : string) : option Allocation := db_allocations db !! key.
Definition get_function_run (db : Db) (ns app req : string) (id : FunctionCallId) : option FunctionRun :=
  db_function_runs db !! call_key ns app req id.
Definition get_snapshot (db : Db) (ns id : string) : option Snapshot := db_snapshots db !! bar ns id.

(** ** Pages *)

Lemma collect_rows_spec {A} prefix n (l : list (string * A)) : ∀ items, (length items ≤ n)%nat →
  let R := take_while (λ kv, String.prefix prefix kv.1) l in
  collect_rows prefix (Some n) l items = (items ++ (take (n - length items) R).*2, fst <$> R !! (n - length items)%nat).
Proof.
  induction l as [|[k v] l IH]; intros items Hn; cbn [collect_rows take_while fst].
  - rewrite take_nil, lookup_nil. cbn. by rewrite app_nil_r.
  - destruct (String.prefix prefix k); cbn [negb]; [|rewrite take_nil, lookup_nil; cbn; by rewrite app_nil_r].
    case_bool_decide as Hl.
    + rewrite IH by (rewrite length_app; cbn; lia). rewrite length_app. cbn [length].
      replace (n - length items)%nat with (S (n - (length items + 1)))%nat by lia. cbn. by rewrite <-app_assoc.
    + replace (n - length items)%nat with 0%nat by lia. cbn. by rewrite app_nil_r.
Qed.
Lemma collect_all_spec {A} prefix (l : list (string * A)) : ∀ items,
  collect_rows prefix None l items = (items ++ (take_while (λ kv, String.prefix prefix kv.1) l).*2, None).
Proof.
  induction l as [|[k v] l IH]; intros items; cbn [collect_rows take_while fst]; [cbn; by rewrite app_nil_r|].
  destruct (String.prefix prefix k); cbn [negb]; [|cbn; by rewrite app_nil_r]. rewrite IH. cbn. by rewrite <-app_assoc.
Qed.
Lemma get_all_with_prefix {A} (m : gmap string A) prefix :
  get_rows_from_cf_with_limits m prefix None None = ((scan_prefix prefix m).*2, None).
Proof. exact (collect_all_spec prefix (rows_from m prefix) []). Qed.

(** What a client that follows the restart keys sees. *)
Fixpoint all_pages {A} (fuel : nat) (m : gmap string A) (prefix : string) (restart : option string) (limit : nat) : list (list A) :=
  match fuel with
  | O => []
  | S fuel =>
      let '(items, next) := get_rows_from_cf_with_limits m prefix restart (Some limit) in
      items :: match next with Some k => all_pages fuel m prefix (Some k) limit | None => [] end
  end.

Lemma filter_from_position {A} (R : list (string * A)) n k v :
  StronglySorted key_le R → NoDup R.*1 → R !! n = Some (k, v) →
  List.filter (λ kv, bool_decide (String.le k kv.1)) R = drop n R.
Proof.
  intros Hs. revert n. induction Hs as [|[a x] R Hs IH Hf]; intros n Hn Hl; [done|].
  rewrite fmap_cons in Hn. apply NoDup_cons in Hn as [Ha Hn]. cbn [List.filter fst]. destruct n as [|n].
  - cbn in Hl. injection Hl as -> ->. rewrite bool_decide_true by reflexivity. cbn [drop]. f_equal.
    rewrite Forall_forall in Hf. clear IH Hs Ha Hn. induction R as [|[b y] R IHR]; [done|]. cbn [List.filter fst].
    rewrite bool_decide_true by (apply (Hf (b, y)); left). f_equal. apply IHR. intros z Hz. apply Hf. by right.
  - cbn in Hl. rewrite bool_decide_false.
    + cbn. by apply IH.
    + intros Hle. rewrite Forall_forall in Hf. assert (Hin : (k, v) ∈ R) by by eapply list_elem_of_lookup_2.
      specialize (Hf _ Hin). unfold key_le in Hf. cbn in Hf. assert (a = k) as -> by (by apply (anti_symm String.le)).
      apply Ha, list_elem_of_fmap. by exists (k, v).
Qed.

Lemma filter_filter {A} (P Q : A → bool) l : List.filter P (List.filter Q l) = List.filter (λ x, P x && Q x) l.
Proof.
  induction l as [|x l IH]; cbn; [done|]. destruct (Q x) eqn:Eq; cbn; rewrite ?andb_false_r, ?andb_true_r, IH; done.
Qed.
Lemma take_while_prefix {A} prefix start (m : gmap string A) :
  String.le prefix start →
  take_while (λ kv, String.prefix prefix kv.1) (rows_from m start) =
  List.filter (λ kv, String.prefix prefix kv.1 && bool_decide (String.le start kv.1)) (ord_iter m).
Proof.
  intros Hp. unfold rows_from. rewrite (take_while_sorted _ key_le); [by rewrite filter_filter|apply filter_sorted, ord_iter_sorted|].
  intros [a x] [b y] Ha _ Hab Hb. apply list_elem_of_In, filter_In in Ha as [_ Ha%bool_decide_eq_true].
  apply (prefix_between prefix a b); [|done|done]. cbn in Ha. by trans start.
Qed.
(** The rows from the restart key on are the rest of the rows. *)
Lemma rows_after_page {A} (m : gmap string A) prefix start n k v :
  String.le prefix start →
  take_while (λ kv, String.prefix prefix kv.1) (rows_from m start) !! n = Some (k, v) →
  String.le prefix k ∧
  take_while (λ kv, String.prefix prefix kv.1) (rows_from m k) = drop n (take_while (λ kv, String.prefix prefix kv.1) (rows_from m start)).
Proof.
  intros Hp Hn. set (R := take_while _ (rows_from m start)) in *.
  assert (HR : R = List.filter (λ kv, String.prefix prefix kv.1 && bool_decide (String.le start kv.1)) (ord_iter m)) by (by apply take_while_prefix).
  assert (Hin : (k, v) ∈ R) by by eapply list_elem_of_lookup_2.
  rewrite HR in Hin. apply list_elem_of_In, filter_In in Hin as [_ [H1 H2%bool_decide_eq_true]%andb_true_iff]. cbn in H1, H2.
  assert (Hk : String.le prefix k) by (by apply prefix_le). split; [done|].
  rewrite <-(filter_from_position R n k v); [| | |done].
  - rewrite (take_while_prefix prefix k) by done. rewrite HR, filter_filter. apply filter_ext. intros [a x]. cbn.
    repeat case_bool_decide; try done; rewrite ?andb_false_r, ?andb_true_r; try done.
    destruct H0. by trans k.
  - rewrite HR. apply filter_sorted, ord_iter_sorted.
  - rewrite HR. eapply sublist_NoDup; [apply (NoDup_ord_iter_fst m)|]. apply fmap_sublist, filter_sublist.
Qed.

(** Reading a column family page by page, following the restart keys, yields
    every row with the prefix exactly once and in key order, no page holds more rows
    than the limit, and the last page is reached: with a positive limit, one page per
    [limit] rows is enough. *)
Theorem paging_complete {A} (m : gmap string A) prefix limit fuel :
  (0 < limit)%nat → (length (scan_prefix prefix m) < fuel * limit)%nat →
  concat (all_pages fuel m prefix None limit) = (scan_prefix prefix m).*2 ∧
  Forall (λ page, (length page ≤ limit)%nat) (all_pages fuel m prefix None limit).
Proof.
  intros Hl Hf.
  cut (∀ restart, String.le prefix (default prefix restart) →
    let R := take_while (λ kv, String.prefix prefix kv.1) (rows_from m (default prefix restart)) in
    (length R < fuel * limit)%nat →
    concat (all_pages fuel m prefix restart limit) = R.*2 ∧ Forall (λ page, (length page ≤ limit)%nat) (all_pages fuel m prefix restart limit)).
  { intros H. exact (H None (reflexivity (R:=String.le) prefix) Hf). }
  clear Hf. induction fuel as [|fuel IH]; intros restart Hp R HR; [lia|]. cbn [all_pages].
  unfold get_rows_from_cf_with_limits. rewrite collect_rows_spec by (cbn; lia). fold R. cbn [length]. rewrite Nat.sub_0_r. cbn [app].
  assert (Hpage : (length (take limit R).*2 ≤ limit)%nat) by (rewrite length_fmap, length_take; lia).
  destruct (R !! limit) as [[k v]|] eqn:E; cbn [fmap option_fmap option_map fst].
  - destruct (rows_after_page m prefix (default prefix restart) limit k v Hp E) as [Hk Er]. fold R in Er.
    destruct (IH (Some k) Hk) as [IH1 IH2].
    { cbn [default from_option id]. rewrite Er, length_drop. assert (limit < length R)%nat by by eapply lookup_lt_Some. lia. }
    cbn [default from_option id] in IH1. rewrite Er in IH1. split; [|by constructor].
    cbn [concat]. rewrite IH1, <-fmap_app, take_drop. done.
  - apply lookup_ge_None in E. cbn [concat]. rewrite app_nil_r, take_ge by done. split; [done|].
    constructor; [rewrite length_fmap; lia|constructor].
Qed.
Lemma paging_complete_witness :
  let m := {["a|1" := 1; "a|2" := 2; "a|3" := 3; "b|1" := 4]} : gmap string Z in
  concat (all_pages 2 m "a|" None 2) = [1; 2; 3] ∧ all_pages 2 m "a|" None 2 = [[1; 2]; [3]].
Proof.
  intros m. destruct (paging_complete m "a|" 2 2 ltac:(lia) ltac:(apply (bool_decide_eq_true_1 _); vm_compute; reflexivity)) as [H _].
  split; [exact H|vm_compute; reflexivity].
Defined.

(** ** Writing and reading a request *)

Lemma lookup_foldl_put `{Countable K} {A} (key : A → K) (l : list A) : ∀ (m : gmap K A) k x,
  NoDup (key <$> l) →
  foldl (λ m x, <[key x := x]> m) m l !! k = Some x ↔ (x ∈ l ∧ key x = k) ∨ (k ∉ key <$> l ∧ m !! k = Some x).
Proof.
  induction l as [|a l IH]; intros m k x Hn; cbn [foldl].
  - split; [intros ?; right; set_solver|set_solver].
  - rewrite fmap_cons in Hn. apply NoDup_cons in Hn as [Ha Hn]. rewrite IH by done. rewrite fmap_cons, not_elem_of_cons, elem_of_cons.
    split.
    + intros [[Hx Hk]|[Hk Hm]]; [by left; auto|]. apply lookup_insert_Some in Hm as [[<- <-]|[Hne Hm]]; [by left; auto|by right; auto].
    + intros [[[->|Hx] Hk]|[[Hne Hk] Hm]].
      * right. subst k. split; [done|apply lookup_insert_eq].
      * by left.
      * right. split; [done|]. by rewrite lookup_insert_ne.
Qed.
Lemma NoDup_row_ids {A B} (f : A → B) (g : B → string) (l : list (string * A)) :
  NoDup l.*1 → (∀ k x, (k, x) ∈ l → k = g (f x)) → NoDup (f <$> l.*2).
Proof.
  induction l as [|[k x] l IH]; cbn; intros Hn Hl; [constructor|].
  apply NoDup_cons in Hn as [Hk Hn]. constructor.
  - rewrite <-list_fmap_compose. intros ([k' x'] & Hx & Hin)%list_elem_of_fmap. cbn in Hx. apply Hk, list_elem_of_fmap.
    exists (k', x'). split; [|done]. cbn. rewrite (Hl k x) by left. rewrite (Hl k' x') by by right. by rewrite Hx.
  - apply IH; [done|]. intros k' x' Hin. apply Hl. by right.
Qed.

(** A context whose runs and calls carry its names and are filed under their ids. *)
Record ctx_wf (c : RequestCtx) : Prop := {
  cw_run id r : rc_function_runs c !! id = Some r →
    fr_id r = id ∧ fr_namespace r = rc_namespace c ∧ fr_application r = rc_application_name c ∧ fr_request_id r = rc_request_id c;
  cw_call id fc : rc_function_calls c !! id = Some fc → fc_function_call_id fc = id;
}.
Definition no_rows_for (d : Db) (prefix : string) : Prop :=
  ∀ k, String.prefix prefix k = true → db_function_runs d !! k = None ∧ db_function_calls d !! k = None.

Section roundtrip.
Context `{HO : HashOrder}.

Lemma lookup_map_values {A} (key : A → string) (m : gmap string A) (old : gmap string A) k x :
  (∀ id y, m !! id = Some y → ∀ id' y', m !! id' = Some y' → key y = key y' → id = id') →
  foldl (λ m x, <[key x := x]> m) old (map_iter m).*2 !! k = Some x ↔
  (∃ id, m !! id = Some x ∧ key x = k) ∨ ((∀ id y, m !! id = Some y → key y ≠ k) ∧ old !! k = Some x).
Proof.
  intros Hinj. rewrite lookup_foldl_put.
  - assert (Hin : ∀ y, y ∈ (map_iter m).*2 ↔ ∃ id, m !! id = Some y).
    { intros y. rewrite list_elem_of_fmap. split.
      - intros ([id y'] & -> & Hy%elem_of_map_iter). eauto.
      - intros (id & Hy%elem_of_map_iter). by exists (id, y). }
    rewrite Hin. split.
    + intros [[(id & Hid) Hk]|[Hk Ho]]; [by left; eauto|]. right. split; [|done]. intros id y Hy <-. apply Hk, list_elem_of_fmap.
      exists y. split; [done|]. apply Hin. eauto.
    + intros [(id & Hid & Hk)|[Hk Ho]]; [by left; eauto|]. right. split; [|done]. intros (y & Hy & (id & Hid)%Hin)%list_elem_of_fmap.
      by apply (Hk id y).
  - assert (Hn := NoDup_map_iter_fst m). assert (Hm : ∀ id y, (id, y) ∈ map_iter m → m !! id = Some y) by (intros id y; apply elem_of_map_iter).
    induction (map_iter m) as [|[id y] l IH]; cbn; [constructor|]. cbn in Hn. apply NoDup_cons in Hn as [Hid Hn]. constructor.
    + rewrite <-list_fmap_compose. intros ([id' y'] & Hk & Hin)%list_elem_of_fmap. cbn in Hk. apply Hid, list_elem_of_fmap.
      exists (id', y'). split; [|done]. cbn. apply (Hinj id y (Hm _ _ ltac:(left)) id' y'); [|done]. apply Hm. by right.
    + apply IH; [done|]. intros id' y' Hin. apply Hm. by right.
Qed.

(** What [create_request] writes, as maps. *)
Lemma create_request_rows d ns app c d' :
  create_request d ns app c = Ok d' →
  db_request_ctx d' = <[request_ctx_key c := persisted_ctx c]> (db_request_ctx d) ∧
  db_function_runs d' = foldl (λ m r, <[run_key r := r]> m) (db_function_runs d) (map_iter (rc_function_runs c)).*2 ∧
  db_function_calls d' = foldl (λ m fc, <[call_key ns app (rc_request_id c) (fc_function_call_id fc) := fc]> m)
                           (db_function_calls d) (map_iter (rc_function_calls c)).*2.
Proof.
  unfold create_request. destruct (db_applications d !! _) as [a|]; [|done]. destruct (app_state a); [|done].
  destruct (app_tombstoned a); [done|]. destruct (db_request_ctx d !! request_ctx_key c); [done|]. cbv zeta. intros [= <-].
  set (runs := (map_iter (rc_function_runs c)).*2). set (calls := (map_iter (rc_function_calls c)).*2). split_and!.
  - cbn [db_request_ctx set_field]. change (db_request_ctx (foldl (λ d0 c0, d0 <| db_function_calls ::= <[call_key ns app (rc_request_id c) (fc_function_call_id c0) := c0]> |>)
      (foldl put_run (d <| db_request_ctx ::= <[request_ctx_key c := persisted_ctx c]> |>) runs) calls) = <[request_ctx_key c := persisted_ctx c]> (db_request_ctx d)).
    rewrite (foldl_keeps db_request_ctx) by done. by rewrite (foldl_keeps db_request_ctx).
  - change (db_function_runs (foldl (λ d0 c0, d0 <| db_function_calls ::= <[call_key ns app (rc_request_id c) (fc_function_call_id c0) := c0]> |>)
      (foldl put_run (d <| db_request_ctx ::= <[request_ctx_key c := persisted_ctx c]> |>) runs) calls) = foldl (λ m r, <[run_key r := r]> m) (db_function_runs d) runs).
    rewrite (foldl_keeps db_function_runs) by done. by rewrite (foldl_proj db_function_runs _ (λ m r, <[run_key r := r]> m)).
  - change (db_function_calls (foldl (λ d0 c0, d0 <| db_function_calls ::= <[call_key ns app (rc_request_id c) (fc_function_call_id c0) := c0]> |>)
      (foldl put_run (d <| db_request_ctx ::= <[request_ctx_key c := persisted_ctx c]> |>) runs) calls) =
      foldl (λ m fc, <[call_key ns app (rc_request_id c) (fc_function_call_id fc) := fc]> m) (db_function_calls d) calls).
    rewrite (foldl_proj db_function_calls _ (λ m fc, <[call_key ns app (rc_request_id c) (fc_function_call_id fc) := fc]> m)) by done.
    by rewrite (foldl_keeps db_function_calls).
Qed.

(** Rows of one request, each under the prefix followed by its id, read back by id. *)
Lemma rows_read_back {A} (id_of : A → string) ns app req (old rows : gmap string A) (items : gmap string A) :
  (∀ k, String.prefix (run_key_prefix ns app req) k = true → old !! k = None) →
  (∀ id x, items !! id = Some x → id_of x = id) →
  (∀ k x, rows !! k = Some x ↔
     (∃ id, items !! id = Some x ∧ call_key ns app req (id_of x) = k) ∨
     ((∀ id y, items !! id = Some y → call_key ns app req (id_of y) ≠ k) ∧ old !! k = Some x)) →
  foldl (λ m x, <[id_of x := x]> m) ∅ (scan_prefix (run_key_prefix ns app req) rows).*2 = items.
Proof.
  intros Hold Hid Hrows.
  assert (Hscan : ∀ k x, (k, x) ∈ scan_prefix (run_key_prefix ns app req) rows ↔ items !! id_of x = Some x ∧ k = call_key ns app req (id_of x)).
  { intros k x. rewrite elem_of_scan_prefix, Hrows. split.
    - intros [[(id & Hx & <-)|[_ Ho]] Hp]; [|by rewrite Hold in Ho]. by rewrite (Hid id x Hx).
    - intros [Hx ->]. split; [left; eauto|]. unfold call_key, run_key_prefix. do 3 apply prefix_bar_self. apply prefix_empty. }
  apply map_eq. intros id. apply option_eq. intros x. rewrite lookup_foldl_put.
  - rewrite list_elem_of_fmap. split.
    + intros [[([k y] & -> & [Hy _]%Hscan) <-]|[_ He]]; [done|]. by rewrite lookup_empty in He.
    + intros Hx. left. assert (E := Hid id x Hx). split; [|done]. exists (call_key ns app req (id_of x), x). split; [done|].
      apply Hscan. by rewrite E.
  - apply (NoDup_row_ids id_of (call_key ns app req)); [apply NoDup_scan_prefix|]. intros k y [_ ->]%Hscan. done.
Qed.
Lemma call_key_inj ns app req id id' : call_key ns app req id = call_key ns app req id' → id = id'.
Proof. unfold call_key. by intros H%bar_inj_r%bar_inj_r%bar_inj_r. Qed.

(** A request that was accepted is read back exactly as it was submitted, with
    all its function runs and calls, as long as no rows of an earlier request with the
    same id are left. *)
Theorem request_roundtrip d c d' :
  create_request d (rc_namespace c) (rc_application_name c) c = Ok d' → ctx_wf c →
  no_rows_for d (run_key_prefix (rc_namespace c) (rc_application_name c) (rc_request_id c)) →
  read_request_ctx d' (rc_namespace c) (rc_application_name c) (rc_request_id c) = Some c.
Proof.
  intros Hc [Hr Hf] Hold. destruct (create_request_rows _ _ _ _ _ Hc) as (E1 & E2 & E3).
  unfold read_request_ctx. change (request_key (rc_namespace c) (rc_application_name c) (rc_request_id c)) with (request_ctx_key c).
  rewrite E1, lookup_insert_eq, !get_all_with_prefix. cbn [fst]. cbv zeta.
  assert (Hkey : ∀ id r, rc_function_runs c !! id = Some r → run_key r = call_key (rc_namespace c) (rc_application_name c) (rc_request_id c) (fr_id r)).
  { intros id r H. destruct (Hr id r H) as (_ & Hns & Happ & Hreq). unfold run_key, call_key. by rewrite Hns, Happ, Hreq. }
  rewrite (rows_read_back fr_id _ _ _ (db_function_runs d) (db_function_runs d') (rc_function_runs c)); [| | |].
  - rewrite (rows_read_back fc_function_call_id _ _ _ (db_function_calls d) (db_function_calls d') (rc_function_calls c)); [by destruct c| | |].
    + intros k Hk. by apply Hold.
    + done.
    + intros k x. rewrite E3. apply (lookup_map_values (λ fc, call_key (rc_namespace c) (rc_application_name c) (rc_request_id c) (fc_function_call_id fc))).
      intros id y Hy id' y' Hy' E%call_key_inj.
      by rewrite <-(Hf id y Hy), <-(Hf id' y' Hy').
  - intros k Hk. by apply Hold.
  - intros id r H. by apply Hr.
  - intros k x. rewrite E2, lookup_map_values.
    + split.
      * intros [(id & Hx & <-)|[Hn Ho]]; [left; exists id; split; [done|]; symmetry; by apply (Hkey id)|].
        right. split; [|done]. intros id y Hy. rewrite <-(Hkey id y Hy). by apply (Hn id).
      * intros [(id & Hx & <-)|[Hn Ho]]; [left; exists id; split; [done|]; by apply (Hkey id)|].
        right. split; [|done]. intros id y Hy. rewrite (Hkey id y Hy). by apply (Hn id).
    + intros id y Hy id' y' Hy'. rewrite (Hkey id y Hy), (Hkey id' y' Hy'). intros E%call_key_inj.
      destruct (Hr id y Hy) as [<- _], (Hr id' y' Hy') as [<- _]. done.
Qed.
End roundtrip.

Lemma invoked_ctx_ex_wf : ctx_wf (invoked_ctx_ex "r1" 5).
Proof.
  split.
  - intros id r H. change (({["c1" := input_run_ex "r1" "c1"]} : gmap string FunctionRun) !! id = Some r) in H. apply lookup_singleton_Some in H as [<- <-]. done.
  - intros id fc H. change (({["c1" := MkFunctionCall "c1" [] "fn" "" None]} : gmap string FunctionCall) !! id = Some fc) in H. apply lookup_singleton_Some in H as [<- <-]. done.
Qed.
Lemma request_roundtrip_witness :
  read_request_ctx (unwrap_db (@create_request canonical_order deployed_db_ex "ns" "app" (invoked_ctx_ex "r1" 5))) "ns" "app" "r1"
  = Some (invoked_ctx_ex "r1" 5).
Proof.
  apply (@request_roundtrip canonical_order deployed_db_ex (invoked_ctx_ex "r1" 5)).
  - reflexivity.
  - apply invoked_ctx_ex_wf.
  - intros k _. split; reflexivity.
Defined.

(** The prefix of the listing has no separator after the namespace, so that the
    applications of every namespace whose name starts with the requested one are
    listed too. *)
Theorem list_applications_leaks :
  let other := deployed_ex <| app_namespace := "ns-of-another-tenant" |> in
  let db := @create_or_update_application canonical_order deployed_db_ex other false [] 1 in
  app_namespace <$> (list_applications db "ns" None None).1 = ["ns-of-another-tenant"; "ns"].
Proof. vm_compute. reflexivity. Qed.
