(* ===== verification/Recovery.v ===== *)
(** * Startup

    [InMemoryState::new] of [state_store/in_memory_state.rs]: the in-memory state
    rebuilt from the database when the server starts. *)
From Stdlib Require Import Ascii.
From S2P Require Import Prelude DataModel Updates InMemoryState SchedulerState ContainerScheduler FunctionRuns RequestEvents StateMachine Scanner.

(** [key.rsplitn(2, '|').last()]: the key without its last part. *)
Fixpoint before_last_bar (s : string) : option string :=
  match s with
  | EmptyString => None
  | String c s =>
      match before_last_bar s with
      | Some p => Some (String c p)
      | None => if Ascii.eqb c "|"%char then Some EmptyString else None
      end
  end.
Definition call_row_request (key : string) : string := default key (before_last_bar key).
Definition run_row_request (r : FunctionRun) : string := request_key (fr_namespace r) (fr_application r) (fr_request_id r).

(** Rows grouped by the request they belong to. *)
Definition group_rows {R A} (request_of : R → string) (item_of : R → A) (id_of : A → string) (rows : list R) : gmap string (gmap string A) :=
  foldl (λ m row, let x := item_of row in
           <[request_of row := <[id_of x := x]> (default ∅ (m !! request_of row))]> m) ∅ rows.
(** One persisted context: its runs and calls are taken out of the groups. *)
Definition rebuild_ctx (acc : gmap string RequestCtx * gmap string (gmap string FunctionRun) * gmap string (gmap string FunctionCall))
    (p : PersistedRequestCtx) :=
  let '(ctxs, runs, calls) := acc in
  let key := request_key (prc_namespace p) (prc_application_name p) (prc_request_id p) in
  let ctx := from_persisted p (default ∅ (runs !! key)) (default ∅ (calls !! key)) in
  (<[request_ctx_key ctx := ctx]> ctxs, delete key runs, delete key calls).
Definition load_request_ctxs (db : Db) : gmap string RequestCtx :=
  let runs := group_rows run_row_request id fr_id (get_all_rows_from_cf (db_function_runs db)).*2 in
  let calls := group_rows (λ kv : string * FunctionCall, call_row_request kv.1) snd fc_function_call_id (get_all_rows_from_cf (db_function_calls db)) in
  (foldl rebuild_ctx (∅, runs, calls)
     (List.filter (λ p, bool_decide (prc_outcome p = None)) (get_all_rows_from_cf (db_request_ctx db)).*2)).1.1.

Definition load_run (im : InMemoryState) (r : FunctionRun) : InMemoryState :=
  let im1 := if run_is_pending r
             then demand_increment (im <| im_unallocated_function_runs ::= λ x, {[run_key r]} ∪ x |>) r
             else im in
  im1 <| im_function_runs ::= <[run_key r := r]> |>.
Definition load_sandbox (im : InMemoryState) (sb : Sandbox) : InMemoryState :=
  let key := sandbox_key sb in
  let im1 := if awaits_allocation sb then add_pending_sandbox im key (profile_from_container_resources (sb_resources sb)) else im in
  store_sandbox (index_executor (index_container im1 key sb) key sb) key sb.

Section loading.
Context `{HO : HashOrder}.

Definition loaded_runs (ctxs : gmap string RequestCtx) : list FunctionRun :=
  ord_iter ctxs ≫= λ kc : string * RequestCtx, (map_iter (rc_function_runs kc.2)).*2.
(** [InMemoryState::new]. *)
Definition load_state (clock : Z) (catalog : list ExecutorCatalogEntry) (db : Db) : InMemoryState :=
  let ctxs := load_request_ctxs db in
  let im0 := empty_state
    <| im_clock := clock |> <| im_executor_catalog := catalog |>
    <| im_namespaces := foldl (λ m n, <[ns_name n := n]> m) ∅ (get_all_rows_from_cf (db_namespaces db)).*2 |>
    <| im_applications := foldl (λ m a, <[app_key (app_namespace a) (app_name a) := a]> m) ∅ (get_all_rows_from_cf (db_applications db)).*2 |>
    <| im_application_versions := foldl (λ m kv, <[kv.1 := kv.2]> m) ∅ (get_all_rows_from_cf (db_application_versions db)) |>
    <| im_allocations_by_executor := foldl insert_allocation ∅
         (List.filter (λ a, negb (allocation_is_terminal a)) (get_all_rows_from_cf (db_allocations db)).*2) |>
    <| im_request_ctx := ctxs |>
    <| im_snapshots := foldl (λ m s, <[snapshot_key s := s]> m) ∅ (get_all_rows_from_cf (db_snapshots db)).*2 |> in
  let im1 := foldl load_run im0 (loaded_runs ctxs) in
  foldl load_sandbox im1
    (List.filter (λ sb, match sb_status sb with SS_Terminated => false | _ => true end) (get_all_rows_from_cf (db_sandboxes db)).*2).
End loading.

(** ** Groups and prefix scans *)

Lemma group_rows_lookup {R A} (request_of : R → string) (item_of : R → A) (id_of : A → string) rows key :
  default ∅ (group_rows request_of item_of id_of rows !! key) =
  foldl (λ m x, <[id_of x := x]> m) ∅ (item_of <$> List.filter (λ row, bool_decide (request_of row = key)) rows).
Proof.
  unfold group_rows. induction rows as [|row rows IH] using rev_ind; [done|]. rewrite foldl_app. cbn [foldl].
  rewrite List.filter_app, fmap_app, foldl_app, <-IH. cbn [List.filter]. case_bool_decide as Hk.
  - subst key. rewrite lookup_insert_eq. cbn. done.
  - rewrite lookup_insert_ne by done. cbn. done.
Qed.
Lemma filter_snd {A B} (P : B → bool) (l : list (A * B)) : List.filter P l.*2 = (List.filter (λ kv, P kv.2) l).*2.
Proof. induction l as [|[a b] l IH]; cbn; [done|]. rewrite IH. by destruct (P b). Qed.
Lemma scan_prefix_filter {A} prefix (m : gmap string A) :
  scan_prefix prefix m = List.filter (λ kv, String.prefix prefix kv.1) (ord_iter m).
Proof.
  change (take_while (λ kv, String.prefix prefix kv.1) (rows_from m prefix) = List.filter (λ kv, String.prefix prefix kv.1) (ord_iter m)).
  rewrite take_while_prefix by reflexivity. apply filter_ext. intros [k v]. cbn. destruct (String.prefix prefix k) eqn:E; [|done].
  by rewrite bool_decide_true by by apply prefix_le.
Qed.

Lemma bar_assoc a b c : bar (bar a b) c = bar a (bar b c).
Proof. unfold bar. by rewrite !string_app_assoc. Qed.
Lemma call_key_request ns app req id : call_key ns app req id = bar (request_key ns app req) id.
Proof. unfold call_key, request_key. by rewrite !bar_assoc. Qed.
Lemma before_last_bar_free b : bar_free b = true → before_last_bar b = None.
Proof. induction b as [|c b IH]; cbn; [done|]. intros [Hc Hb]%andb_true_iff. rewrite IH by done. by destruct (Ascii.eqb c "|"). Qed.
Lemma before_last_bar_bar a b : bar_free b = true → before_last_bar (bar a b) = Some a.
Proof.
  intros Hb. induction a as [|c a IH]; rewrite ?bar_nil, ?bar_cons; cbn [before_last_bar].
  - by rewrite before_last_bar_free.
  - by rewrite IH.
Qed.
Lemma request_key_inj ns app req ns' app' req' :
  bar_free ns = true → bar_free app = true → bar_free ns' = true → bar_free app' = true →
  request_key ns app req = request_key ns' app' req' ↔ ns = ns' ∧ app = app' ∧ req = req'.
Proof.
  intros ????. unfold request_key. split; [|by intros (-> & -> & ->)].
  intros E. apply bar_inj in E as [-> E]; [|done..]. by apply bar_inj in E as [-> ->].
Qed.

(** ** Well-filed rows *)

Definition plain (ns app req : string) : Prop := bar_free ns = true ∧ bar_free app = true ∧ bar_free req = true.
Record db_wf (d : Db) : Prop := {
  dw_ctx k p : db_request_ctx d !! k = Some p → filed_ctx (k, p) ∧ plain (prc_namespace p) (prc_application_name p) (prc_request_id p);
  dw_run k r : db_function_runs d !! k = Some r → k = run_key r ∧ plain (fr_namespace r) (fr_application r) (fr_request_id r);
  dw_call k c : db_function_calls d !! k = Some c →
    ∃ ns app req, k = call_key ns app req (fc_function_call_id c) ∧ plain ns app req ∧ bar_free (fc_function_call_id c) = true;
}.

Lemma run_key_call_key r : run_key r = call_key (fr_namespace r) (fr_application r) (fr_request_id r) (fr_id r).
Proof. done. Qed.
Lemma grouped_runs d ns app req :
  db_wf d → plain ns app req →
  default ∅ (group_rows run_row_request id fr_id (get_all_rows_from_cf (db_function_runs d)).*2 !! request_key ns app req) =
  foldl (λ m r, <[fr_id r := r]> m) ∅ (scan_prefix (run_key_prefix ns app req) (db_function_runs d)).*2.
Proof.
  intros Hw (H1 & H2 & H3). rewrite group_rows_lookup, list_fmap_id, filter_snd, scan_prefix_filter. do 2 f_equal.
  apply filter_ext_in. intros [k r] Hin%list_elem_of_In%elem_of_ord_iter. cbn. destruct (dw_run _ Hw _ _ Hin) as (-> & H1' & H2' & H3').
  apply Bool.eq_true_iff_eq. rewrite bool_decide_eq_true. unfold run_row_request. rewrite request_key_inj by done.
  pose proof (request_prefix_iff ns app req (fr_namespace r) (fr_application r) (fr_request_id r) (fr_id r) H1 H2 H3 H1' H2' H3') as Hi.
  unfold run_key. rewrite Hi. naive_solver.
Qed.
Lemma grouped_calls d ns app req :
  db_wf d → plain ns app req →
  default ∅ (group_rows (λ kv : string * FunctionCall, call_row_request kv.1) snd fc_function_call_id (get_all_rows_from_cf (db_function_calls d)) !! request_key ns app req) =
  foldl (λ m c, <[fc_function_call_id c := c]> m) ∅ (scan_prefix (run_key_prefix ns app req) (db_function_calls d)).*2.
Proof.
  intros Hw (H1 & H2 & H3). rewrite group_rows_lookup, scan_prefix_filter. do 2 f_equal.
  apply filter_ext_in. intros [k c] Hin%list_elem_of_In%elem_of_ord_iter. cbn.
  destruct (dw_call _ Hw _ _ Hin) as (ns' & app' & req' & -> & (H1' & H2' & H3') & Hid).
  apply Bool.eq_true_iff_eq. rewrite bool_decide_eq_true. unfold call_row_request. rewrite call_key_request, before_last_bar_bar by done. cbn.
  rewrite request_key_inj by done. rewrite <-call_key_request. unfold call_key.
  rewrite (request_prefix_iff ns app req ns' app' req' _ H1 H2 H3 H1' H2' H3'). naive_solver.
Qed.

Definition persisted_key (p : PersistedRequestCtx) : string := request_key (prc_namespace p) (prc_application_name p) (prc_request_id p).
Lemma rebuild_ctxs l : ∀ ctxs runs calls, NoDup (persisted_key <$> l) →
  let res := (foldl rebuild_ctx (ctxs, runs, calls) l).1.1 in
  (∀ p, p ∈ l → res !! persisted_key p = Some (from_persisted p (default ∅ (runs !! persisted_key p)) (default ∅ (calls !! persisted_key p)))) ∧
  (∀ k, k ∉ persisted_key <$> l → res !! k = ctxs !! k).
Proof.
  induction l as [|p l IH]; intros ctxs runs calls Hn; cbn [foldl].
  - split; [set_solver|done].
  - rewrite fmap_cons in Hn. apply NoDup_cons in Hn as [Hp Hn]. cbv zeta. unfold rebuild_ctx at 2 4. fold (persisted_key p). cbv zeta.
    set (ctx := from_persisted p _ _). assert (Ek : request_ctx_key ctx = persisted_key p) by done. rewrite Ek.
    destruct (IH (<[persisted_key p := ctx]> ctxs) (delete (persisted_key p) runs) (delete (persisted_key p) calls) Hn) as [IH1 IH2]. split.
    + intros q [->|Hq]%elem_of_cons.
      * rewrite IH2 by done. apply lookup_insert_eq.
      * rewrite IH1 by done. assert (persisted_key p ≠ persisted_key q) by (intros E; apply Hp; rewrite E; by apply list_elem_of_fmap_2).
        by rewrite !lookup_delete_ne.
    + intros k. rewrite fmap_cons, not_elem_of_cons. intros [Hk Hk']. rewrite IH2 by done. by rewrite lookup_insert_ne.
Qed.

(** The rows of unfinished requests, in the order they are loaded. *)
Definition unfinished_rows (d : Db) : list PersistedRequestCtx :=
  List.filter (λ p, bool_decide (prc_outcome p = None)) (get_all_rows_from_cf (db_request_ctx d)).*2.
Lemma unfinished_rows_spec d p :
  db_wf d → p ∈ unfinished_rows d ↔ db_request_ctx d !! persisted_key p = Some p ∧ prc_outcome p = None.
Proof.
  intros Hw. unfold unfinished_rows. rewrite list_elem_of_In, filter_In, <-list_elem_of_In, bool_decide_eq_true, list_elem_of_fmap.
  split.
  - intros [([k q] & -> & Hk%elem_of_ord_iter) Ho]. destruct (dw_ctx _ Hw _ _ Hk) as [Hf _]. unfold filed_ctx in Hf. cbn in Hf |- *.
    unfold persisted_key. by rewrite <-Hf.
  - intros [Hk Ho]. split; [|done]. exists (persisted_key p, p). split; [done|]. by apply elem_of_ord_iter.
Qed.
Lemma unfinished_rows_NoDup d : db_wf d → NoDup (persisted_key <$> unfinished_rows d).
Proof.
  intros Hw. unfold unfinished_rows, get_all_rows_from_cf. rewrite filter_snd, <-list_fmap_compose.
  assert (E : (persisted_key ∘ snd) <$> List.filter (λ kv : string * PersistedRequestCtx, bool_decide (prc_outcome kv.2 = None)) (ord_iter (db_request_ctx d)) =
    (List.filter (λ kv : string * PersistedRequestCtx, bool_decide (prc_outcome kv.2 = None)) (ord_iter (db_request_ctx d))).*1).
  { apply list_fmap_ext. intros i [k p] Hi%list_elem_of_lookup_2. apply list_elem_of_In, filter_In in Hi as [Hi%list_elem_of_In%elem_of_ord_iter _].
    destruct (dw_ctx _ Hw _ _ Hi) as [Hf _]. unfold filed_ctx in Hf. cbn in Hf |- *. by rewrite Hf. }
  rewrite E. eapply sublist_NoDup; [apply (NoDup_ord_iter_fst (db_request_ctx d))|]. apply fmap_sublist, filter_sublist.
Qed.

Definition unfinished (c : RequestCtx) : option RequestCtx := match rc_outcome c with None => Some c | Some _ => None end.

(** C34: after a restart the server holds exactly the unfinished requests of the
    database, each with all its runs and calls: loading everything in one pass and
    grouping it gives the same contexts as reading each request on its own. *)
Theorem recovery_restores_requests d ns app req :
  db_wf d → plain ns app req →
  load_request_ctxs d !! request_key ns app req = read_request_ctx d ns app req ≫= unfinished.
Proof.
  intros Hw Hpl. unfold load_request_ctxs. fold (unfinished_rows d). cbv zeta.
  set (runs := group_rows run_row_request _ _ _). set (calls := group_rows (λ kv : string * FunctionCall, _) _ _ _).
  destruct (rebuild_ctxs (unfinished_rows d) ∅ runs calls (unfinished_rows_NoDup d Hw)) as [H1 H2].
  unfold read_request_ctx. destruct (db_request_ctx d !! request_key ns app req) as [p|] eqn:Ep.
  - assert (Ek : request_key ns app req = persisted_key p) by (destruct (dw_ctx _ Hw _ _ Ep) as [Hf _]; exact Hf).
    rewrite !get_all_with_prefix. cbn [fst mbind option_bind unfinished from_persisted rc_outcome].
    destruct (prc_outcome p) eqn:Eo.
    + rewrite H2; [rewrite lookup_empty; by unfold unfinished; cbn; rewrite Eo|]. intros (q & Eq & [Hq Hq']%unfinished_rows_spec)%list_elem_of_fmap; [|done].
      rewrite <-Eq, Ep in Hq. injection Hq as <-. congruence.
    + rewrite Ek, H1 by (apply unfinished_rows_spec; [done|]; by rewrite <-Ek). rewrite <-Ek.
      unfold runs, calls. rewrite (grouped_runs d ns app req Hw Hpl), (grouped_calls d ns app req Hw Hpl).
      unfold unfinished. cbn. by rewrite Eo.
  - rewrite H2; [by rewrite lookup_empty|]. intros (q & Eq & [Hq _]%unfinished_rows_spec)%list_elem_of_fmap; [|done].
    rewrite <-Eq in Hq. congruence.
Qed.

(** ** The rebuilt state *)

Lemma load_run_view im r :
  run_key r ∉ im_unallocated_function_runs im →
  run_view (load_run im r) = run_view (track_run im r) ∧ sandbox_view (load_run im r) = sandbox_view (track_run im r) ∧
  im_allocations_by_executor (load_run im r) = im_allocations_by_executor (track_run im r).
Proof.
  intros Hn. unfold load_run, track_run. rewrite bool_decide_eq_false_2 by done. destruct (run_is_pending r); [done|].
  split_and!; [|done..]. unfold run_view. cbn. do 3 f_equal. symmetry. apply difference_disjoint_L. set_solver.
Qed.
Lemma load_runs_wf l : ∀ im,
  state_wf im → NoDup (run_key <$> l) → (∀ r, r ∈ l → im_function_runs im !! run_key r = None) →
  Z.of_nat (size (im_unallocated_function_runs im) + length l) ≤ u64_max →
  let im' := foldl load_run im l in
  state_wf im' ∧ sandbox_view im' = sandbox_view im ∧ im_allocations_by_executor im' = im_allocations_by_executor im ∧
  (∀ r, r ∈ l → im_function_runs im' !! run_key r = Some r) ∧
  ∀ k, k ∉ run_key <$> l → im_function_runs im' !! k = im_function_runs im !! k.
Proof.
  induction l as [|r l IH]; intros im Hw Hnd Hf Hr; cbn [foldl]; [split_and!; [done..|set_solver|done]|].
  rewrite fmap_cons in Hnd. apply NoDup_cons in Hnd as [Hn Hnd]. simpl in Hr. cbv zeta.
  pose proof (Hf r (list_elem_of_here _ _)) as Hnone.
  assert (Hnp : run_key r ∉ im_unallocated_function_runs im) by (destruct Hw as [[_ Hp] _]; rewrite Hp, Hnone; naive_solver).
  destruct (load_run_view im r Hnp) as (E1 & E2 & E3). destruct (track_run_fields im r) as (F1 & F2 & _ & F4 & _ & F6).
  assert (G1 : im_function_runs (load_run im r) = <[run_key r := r]> (im_function_runs im)) by (rewrite <-F1; unfold run_view in E1; congruence).
  assert (G2 : im_unallocated_function_runs (load_run im r) = im_unallocated_function_runs (track_run im r)) by (unfold run_view in E1; congruence).
  destruct (IH (load_run im r)) as (I1 & I2 & I3 & I4 & I5).
  - apply (run_view_wf (track_run im r)); [done|]. apply track_run_wf; [done| |unfold room; lia]. unfold same_demand. by rewrite Hnone.
  - done.
  - intros r' Hr'. rewrite G1, lookup_insert_ne; [apply Hf; by right|]. intros E. apply Hn. rewrite E. by apply list_elem_of_fmap_2.
  - rewrite G2. pose proof (subseteq_size _ _ F2). pose proof (size_insert_elem (run_key r) (im_unallocated_function_runs im)). case_decide; lia.
  - split_and!; [done|congruence|congruence|..].
    + intros r' [->|Hr']%elem_of_cons; [|by apply I4]. rewrite I5, G1 by done. apply lookup_insert_eq.
    + intros k. rewrite fmap_cons, not_elem_of_cons. intros [Hk Hk']. rewrite I5, G1, lookup_insert_ne by done. done.
Qed.

Lemma load_sandbox_tracked im sb :
  sandboxes_wf im → sandbox_room im → sandbox_key sb ∉ im_pending_sandboxes im → sb_status sb ≠ SS_Terminated →
  sandbox_tracked (sandbox_key sb) sb im (load_sandbox im sb).
Proof.
  intros Hw Hr Hn Ht. unfold load_sandbox. cbv zeta. destruct (awaits_allocation sb) eqn:Ea.
  - eapply sandbox_tracked_view; [|apply add_pending_tracked; [done|done|done|exact Ea]].
    unfold index_container, index_executor. by destruct (sb_container_id sb), (sb_executor_id sb).
  - eapply sandbox_tracked_view; [|apply store_tracked; [done|done|rewrite Ea; naive_solver]].
    unfold index_container, index_executor. by destruct (sb_container_id sb), (sb_executor_id sb).
Qed.
Lemma load_sandbox_allocations im sb : allocs_view (load_sandbox im sb) = allocs_view im.
Proof.
  unfold load_sandbox, index_container, index_executor. by destruct (awaits_allocation sb), (sb_container_id sb), (sb_executor_id sb).
Qed.
Lemma load_sandboxes_wf l : ∀ im,
  sandboxes_wf im → NoDup (sandbox_key <$> l) →
  (∀ sb, sb ∈ l → sandbox_key sb ∉ im_pending_sandboxes im ∧ sb_status sb ≠ SS_Terminated) →
  Z.of_nat (size (im_pending_sandboxes im) + length l) ≤ u64_max →
  let im' := foldl load_sandbox im l in
  sandboxes_wf im' ∧ run_view im' = run_view im ∧ allocs_view im' = allocs_view im.
Proof.
  induction l as [|sb l IH]; intros im Hw Hnd Hf Hr; cbn [foldl]; [done|].
  rewrite fmap_cons in Hnd. apply NoDup_cons in Hnd as [Hn Hnd]. simpl in Hr. cbv zeta.
  destruct (Hf sb (list_elem_of_here _ _)) as [Hnp Ht].
  assert (Hs : sandbox_tracked (sandbox_key sb) sb im (load_sandbox im sb)) by (apply load_sandbox_tracked; [done|unfold sandbox_room; lia|done|done]).
  destruct (IH (load_sandbox im sb)) as (I1 & I2 & I3).
  - by apply (sandbox_tracked_wf (sandbox_key sb) sb im).
  - done.
  - intros sb' Hin. destruct (Hf sb' (list_elem_of_further _ _ _ Hin)) as [Hnp' Ht']. split; [|done].
    assert (sandbox_key sb' ≠ sandbox_key sb) by (intros E; apply Hn; rewrite <-E; by apply list_elem_of_fmap_2).
    rewrite (st_pending _ _ _ _ Hs). destruct (awaits_allocation sb); set_solver.
  - assert (Hsub : im_pending_sandboxes (load_sandbox im sb) ⊆ {[sandbox_key sb]} ∪ im_pending_sandboxes im)
      by (rewrite (st_pending _ _ _ _ Hs); destruct (awaits_allocation sb); set_solver).
    pose proof (subseteq_size _ _ Hsub). pose proof (size_insert_elem (sandbox_key sb) (im_pending_sandboxes im)). case_decide; lia.
  - split_and!; [done|rewrite I2; apply Hs|rewrite I3; apply load_sandbox_allocations].
Qed.

Lemma request_runs d key i r :
  db_wf d →
  default ∅ (group_rows run_row_request id fr_id (get_all_rows_from_cf (db_function_runs d)).*2 !! key) !! i = Some r ↔
  db_function_runs d !! run_key r = Some r ∧ run_row_request r = key ∧ fr_id r = i.
Proof.
  intros Hw. rewrite group_rows_lookup, list_fmap_id, filter_snd.
  assert (Hin : ∀ x, x ∈ (List.filter (λ kv : string * FunctionRun, bool_decide (run_row_request kv.2 = key)) (ord_iter (db_function_runs d))).*2 ↔
    db_function_runs d !! run_key x = Some x ∧ run_row_request x = key).
  { intros x. rewrite list_elem_of_fmap. split.
    - intros ([k y] & -> & Hy). apply list_elem_of_In, filter_In in Hy as [Hy%list_elem_of_In%elem_of_ord_iter Hk%bool_decide_eq_true].
      destruct (dw_run _ Hw _ _ Hy) as [-> _]. done.
    - intros [Hx Hk]. exists (run_key x, x). split; [done|]. apply list_elem_of_In, filter_In. split.
      + by apply list_elem_of_In, elem_of_ord_iter.
      + by apply bool_decide_eq_true. }
  unfold get_all_rows_from_cf. rewrite lookup_foldl_put.
  - rewrite Hin, lookup_empty. naive_solver.
  - apply NoDup_fmap_2_strong.
    + intros x y [Hx Hkx]%Hin [Hy Hky]%Hin Hid. enough (run_key x = run_key y) by congruence.
      rewrite !run_key_call_key, !call_key_request. fold (run_row_request x) (run_row_request y). by rewrite Hkx, Hky, Hid.
    + apply NoDup_fmap_2_strong; [|eapply sublist_NoDup; [|apply filter_sublist]; apply (NoDup_fmap_1 fst), NoDup_ord_iter_fst].
      intros [k x] [k' y] Hx%list_elem_of_In Hy%list_elem_of_In. apply filter_In in Hx as [Hx%list_elem_of_In%elem_of_ord_iter _], Hy as [Hy%list_elem_of_In%elem_of_ord_iter _].
      cbn. intros <-. destruct (dw_run _ Hw _ _ Hx) as [-> _], (dw_run _ Hw _ _ Hy) as [-> _]. done.
Qed.

Lemma loaded_ctx d k c :
  db_wf d →
  load_request_ctxs d !! k = Some c ↔ ∃ p, p ∈ unfinished_rows d ∧ k = persisted_key p ∧
    c = from_persisted p (default ∅ (group_rows run_row_request id fr_id (get_all_rows_from_cf (db_function_runs d)).*2 !! k))
      (default ∅ (group_rows (λ kv : string * FunctionCall, call_row_request kv.1) snd fc_function_call_id (get_all_rows_from_cf (db_function_calls d)) !! k)).
Proof.
  intros Hw. unfold load_request_ctxs. fold (unfinished_rows d). cbv zeta.
  set (runs := group_rows run_row_request _ _ _). set (calls := group_rows (λ kv : string * FunctionCall, _) _ _ _).
  destruct (rebuild_ctxs (unfinished_rows d) ∅ runs calls (unfinished_rows_NoDup d Hw)) as [H1 H2]. split.
  - intros Hk. destruct (decide (k ∈ persisted_key <$> unfinished_rows d)) as [(p & -> & Hp)%list_elem_of_fmap|Hn].
    + exists p. rewrite H1 in Hk by done. split_and!; congruence.
    + rewrite H2, lookup_empty in Hk by done. done.
  - intros (p & Hp & -> & ->). by apply H1.
Qed.

Section loaded.
Context `{HO : HashOrder}.

Lemma elem_of_loaded_runs d r :
  db_wf d →
  r ∈ loaded_runs (load_request_ctxs d) ↔ db_function_runs d !! run_key r = Some r ∧ ∃ p, p ∈ unfinished_rows d ∧ run_row_request r = persisted_key p.
Proof.
  intros Hw. unfold loaded_runs. rewrite list_elem_of_bind. split.
  - intros ([k c] & Hr & Hk%elem_of_ord_iter). apply list_elem_of_fmap in Hr as ([i r'] & -> & Hr%elem_of_map_iter). cbn in Hr |- *.
    apply loaded_ctx in Hk as (p & Hp & -> & ->); [|done]. apply request_runs in Hr as (Hr & Hk & _); [|done]. eauto.
  - intros (Hr & p & Hp & Hk). eexists (persisted_key p, _). split; [|apply elem_of_ord_iter, loaded_ctx; [done|]; exists p; done].
    cbn. apply list_elem_of_fmap. exists (fr_id r, r). split; [done|]. apply elem_of_map_iter, request_runs; done.
Qed.
Lemma loaded_runs_NoDup d : db_wf d → NoDup (run_key <$> loaded_runs (load_request_ctxs d)).
Proof.
  intros Hw. apply NoDup_fmap_2_strong.
  { intros x y [Hx _]%elem_of_loaded_runs [Hy _]%elem_of_loaded_runs E; [|done..]. rewrite E in Hx. congruence. }
  assert (Hrun : ∀ k c r, (k, c) ∈ ord_iter (load_request_ctxs d) → r ∈ (map_iter (rc_function_runs c)).*2 →
    run_row_request r = k ∧ rc_function_runs c !! fr_id r = Some r).
  { intros k c r Hk%elem_of_ord_iter Hr. apply list_elem_of_fmap in Hr as ([i r'] & -> & Hr%elem_of_map_iter). cbn in Hr |- *.
    apply loaded_ctx in Hk as (p & Hp & -> & ->); [|done]. pose proof Hr as Hr'. apply request_runs in Hr' as (_ & Hk & Hi); [|done].
    by rewrite Hi. }
  apply NoDup_bind.
  - intros [k1 c1] [k2 c2] r H1 H2 Hr1 Hr2. destruct (Hrun _ _ _ H1 Hr1) as [<- _], (Hrun _ _ _ H2 Hr2) as [<- _].
    apply elem_of_ord_iter in H1, H2. rewrite H1 in H2. congruence.
  - intros [k c] Hk. cbn. apply NoDup_fmap_2_strong; [|apply (NoDup_fmap_1 fst), NoDup_map_iter_fst].
    intros [i x] [j y] Hx Hy E. cbn in E. subst y. apply elem_of_ord_iter, loaded_ctx in Hk as (p & Hp & -> & ->); [|done].
    apply elem_of_map_iter, request_runs in Hx as (_ & _ & <-); [|done]. apply elem_of_map_iter, request_runs in Hy as (_ & _ & <-); [|done]. done.
  - apply (NoDup_fmap_1 fst), NoDup_ord_iter_fst.
Qed.
End loaded.

(** Sandboxes are filed under their keys. *)
Definition sandboxes_filed (d : Db) : Prop := ∀ k sb, db_sandboxes d !! k = Some sb → k = sandbox_key sb.
(** An allocation is of a stored run of an unfinished request.  An allocation row that is
    not terminal need not be: when a request fails, the rows of its other running
    allocations stay as they are ([failed_request_leaves_allocation]). *)
Definition allocation_live (d : Db) (a : Allocation) : Prop :=
  ∃ r p, db_function_runs d !! allocation_run_key a = Some r ∧ fr_id r = al_function_call_id a ∧
    db_request_ctx d !! run_row_request r = Some p ∧ prc_outcome p = None.

Lemma load_allocations l im e c i a :
  allocation_at (im <| im_allocations_by_executor ::= λ m, foldl insert_allocation m l |>) e c i = Some a → a ∈ l ∨ allocation_at im e c i = Some a.
Proof.
  induction l as [|b l IH] using rev_ind; [by right|]. intros H.
  set (im1 := im <| im_allocations_by_executor ::= λ m, foldl insert_allocation m l |>) in *.
  assert (E : allocation_at (im <| im_allocations_by_executor ::= λ m, foldl insert_allocation m (l ++ [b]) |>) e c i =
              allocation_at (im1 <| im_allocations_by_executor ::= λ m, insert_allocation m b |>) e c i)
    by (unfold allocation_at; cbn; by rewrite foldl_app).
  rewrite E, lookup_insert_allocation in H. case_decide; [injection H as <-; set_solver|]. destruct (IH H); set_solver.
Qed.
Lemma load_allocations_complete l im a :
  a ∈ l → ∃ a', allocation_at (im <| im_allocations_by_executor ::= λ m, foldl insert_allocation m l |>) (at_executor_id (al_target a)) (at_container_id (al_target a)) (al_id a) = Some a' ∧ a' ∈ l.
Proof.
  induction l as [|b l IH] using rev_ind; [by intros ?%not_elem_of_nil|]. intros Ha.
  set (im1 := im <| im_allocations_by_executor ::= λ m, foldl insert_allocation m l |>) in *.
  assert (E : ∀ e c i, allocation_at (im <| im_allocations_by_executor ::= λ m, foldl insert_allocation m (l ++ [b]) |>) e c i =
              allocation_at (im1 <| im_allocations_by_executor ::= λ m, insert_allocation m b |>) e c i)
    by (intros; unfold allocation_at; cbn; by rewrite foldl_app).
  setoid_rewrite E. setoid_rewrite lookup_insert_allocation. case_decide as Hd; [exists b; set_solver|].
  apply elem_of_app in Ha as [Ha|Ha%list_elem_of_singleton]; [|subst b; by destruct Hd]. destruct (IH Ha) as (a' & H1 & H2). exists a'. set_solver.
Qed.
Lemma length_ord_iter {A} (m : gmap string A) : length (ord_iter m) = size m.
Proof.
  rewrite <-length_map_to_list. apply Permutation_length, NoDup_Permutation.
  - apply (NoDup_fmap_1 fst), NoDup_ord_iter_fst.
  - apply NoDup_map_to_list.
  - intros [k v]. by rewrite elem_of_ord_iter, elem_of_map_to_list.
Qed.

Lemma live_sandboxes_NoDup d : sandboxes_filed d →
  NoDup (sandbox_key <$> List.filter (λ sb, match sb_status sb with SS_Terminated => false | _ => true end) (get_all_rows_from_cf (db_sandboxes d)).*2).
Proof.
  intros Hl. rewrite filter_snd, <-list_fmap_compose. unfold get_all_rows_from_cf.
  set (l := List.filter _ _). assert (E : (sandbox_key ∘ snd) <$> l = l.*1).
  { apply list_fmap_ext. intros i [k sb] Hi%list_elem_of_lookup_2. apply list_elem_of_In, filter_In in Hi as [Hi%list_elem_of_In%elem_of_ord_iter _].
    cbn. symmetry. exact (Hl _ _ Hi). }
  rewrite E. eapply sublist_NoDup; [apply (NoDup_ord_iter_fst (db_sandboxes d))|]. apply fmap_sublist, filter_sublist.
Qed.

Lemma run_unfinished d r :
  db_wf d →
  (∃ p, p ∈ unfinished_rows d ∧ run_row_request r = persisted_key p) ↔
  ∃ p, db_request_ctx d !! run_row_request r = Some p ∧ prc_outcome p = None.
Proof.
  intros Hw. split.
  - intros (p & [Hp Ho]%unfinished_rows_spec & ->); [|done]. eauto.
  - intros (p & Hp & Ho). destruct (dw_ctx _ Hw _ _ Hp) as [Hf _]. exists p. unfold filed_ctx in Hf. cbn in Hf. fold (persisted_key p) in Hf.
    split; [|done]. apply unfinished_rows_spec; [done|]. by rewrite <-Hf.
Qed.

Section recovered.
Context `{HO : HashOrder}.

(** C33: what a server starts from after a restart.  The indexes of the runs and of the
    sandboxes satisfy the invariants that every later update preserves, and exactly the runs
    of the unfinished requests are tracked.  Exactly the allocations that are not terminal
    are recorded under their executor and container, and such an allocation is of a
    tracked run if and only if its run is stored and its request is unfinished.  So the whole
    invariant holds when that is true of every allocation row that is not terminal; it
    is not when a request failed while other allocations of it were running. *)
Theorem recovered_state_consistent clock catalog d :
  db_wf d → sandboxes_filed d →
  Z.of_nat (length (loaded_runs (load_request_ctxs d))) ≤ u64_max → Z.of_nat (size (db_sandboxes d)) ≤ u64_max →
  let im := load_state clock catalog d in
  state_wf im ∧ sandboxes_wf im ∧
  (∀ k r, im_function_runs im !! k = Some r ↔
    db_function_runs d !! k = Some r ∧ ∃ p, db_request_ctx d !! run_row_request r = Some p ∧ prc_outcome p = None) ∧
  (∀ e c i a, allocation_at im e c i = Some a →
    ∃ k, db_allocations d !! k = Some a ∧ allocation_is_terminal a = false ∧ (tracked_by im a ↔ allocation_live d a)) ∧
  (∀ k a, db_allocations d !! k = Some a → allocation_is_terminal a = false →
    ∃ a', allocation_at im (at_executor_id (al_target a)) (at_container_id (al_target a)) (al_id a) = Some a') ∧
  ((∀ k a, db_allocations d !! k = Some a → allocation_is_terminal a = false → allocation_live d a) → state_inv im).
Proof.
  intros Hw Hl Hr Hs im. unfold load_state in im. cbv zeta in im.
  set (im0 := empty_state <| im_clock := clock |> <| im_executor_catalog := catalog |> <| im_namespaces := _ |> <| im_applications := _ |>
     <| im_application_versions := _ |> <| im_allocations_by_executor := _ |> <| im_request_ctx := _ |> <| im_snapshots := _ |>) in im.
  set (l := loaded_runs (load_request_ctxs d)) in *. set (sbs := List.filter _ _) in im.
  assert (Hw0 : state_wf im0).
  { destruct empty_state_inv as [[[H1 H2] [H3 H4]] _ _]. split; split; [done|done|done|]. exact H4. }
  assert (Hs0 : sandboxes_wf im0) by (apply (sandbox_view_wf empty_state); [done|apply empty_state_inv]).
  destruct (load_runs_wf l im0 Hw0 (loaded_runs_NoDup d Hw)) as (R1 & R2 & R3 & R4 & R5); [done|exact Hr|].
  assert (Hp0 : im_pending_sandboxes (foldl load_run im0 l) = ∅)
    by (change (∅ : gset SandboxKey) with (im_pending_sandboxes im0); unfold sandbox_view in R2; congruence).
  assert (Hlen : (length sbs ≤ size (db_sandboxes d))%nat).
  { unfold sbs. rewrite filter_snd, length_fmap. etrans; [apply sublist_length, filter_sublist|].
    unfold get_all_rows_from_cf. by rewrite length_ord_iter. }
  destruct (load_sandboxes_wf sbs (foldl load_run im0 l)) as (S1 & S2 & S3).
  - by apply (sandbox_view_wf im0).
  - by apply live_sandboxes_NoDup.
  - intros sb Hsb. apply list_elem_of_In, filter_In in Hsb as [_ Hst]. split; [|intros E; by rewrite E in Hst].
    rewrite Hp0. apply not_elem_of_empty.
  - rewrite Hp0, size_empty. lia.
  - fold im in S1, S2, S3. assert (Hruns : ∀ k r, im_function_runs im !! k = Some r ↔ r ∈ l ∧ run_key r = k).
    { intros k r. assert (im_function_runs im = im_function_runs (foldl load_run im0 l)) as -> by (unfold run_view in S2; congruence).
      split; [|intros [Hin <-]; by apply R4]. intros Hk. destruct (decide (k ∈ run_key <$> l)) as [(r' & -> & Hin)%list_elem_of_fmap|Hn].
      - rewrite R4 in Hk by done. split; congruence.
      - by rewrite R5 in Hk. }
    assert (E : im_allocations_by_executor im = im_allocations_by_executor im0) by (rewrite <-R3; unfold allocs_view in S3; congruence).
    assert (Hat : ∀ e c i, allocation_at im e c i = allocation_at im0 e c i) by (intros; unfold allocation_at; by rewrite E).
    assert (Hrt : ∀ k r, im_function_runs im !! k = Some r ↔ db_function_runs d !! k = Some r ∧ ∃ p, db_request_ctx d !! run_row_request r = Some p ∧ prc_outcome p = None).
    { intros k r. rewrite Hruns. unfold l. rewrite (elem_of_loaded_runs d r Hw), run_unfinished by done. split.
      - intros [[Hk Hp] <-]. done.
      - intros [Hk Hp]. destruct (dw_run _ Hw _ _ Hk) as [-> _]. done. }
    assert (Hsound : ∀ e c i a, allocation_at im e c i = Some a → ∃ k, db_allocations d !! k = Some a ∧ allocation_is_terminal a = false).
    { intros e c i a Ha. rewrite Hat in Ha. apply (load_allocations _ empty_state) in Ha as [Ha|Ha]; [|done].
      apply list_elem_of_In, filter_In in Ha as [Ha%list_elem_of_In Ht%negb_true_iff]. apply list_elem_of_fmap in Ha as ([k a'] & -> & Ha%elem_of_ord_iter). by exists k. }
    assert (Htr : ∀ a, tracked_by im a ↔ allocation_live d a).
    { intros a. unfold tracked_by, allocation_live. split.
      - intros (r & [Hd (p & Hp & Ho)]%Hrt & Hid). by exists r, p.
      - intros (r & p & Hd & Hid & Hp & Ho). exists r. split; [|done]. apply Hrt. eauto. }
    assert (Hwf : state_wf im) by by apply (run_view_wf (foldl load_run im0 l)).
    split_and!; [done|done|done| | |].
    + intros e c i a Ha. destruct (Hsound e c i a Ha) as (k & Hk & Ht). by exists k.
    + intros k a Hk Ht. setoid_rewrite Hat. destruct (load_allocations_complete (List.filter (λ a, negb (allocation_is_terminal a)) (get_all_rows_from_cf (db_allocations d)).*2) empty_state a) as (a' & H & _); [|by exists a'].
      apply list_elem_of_In, filter_In. split; [|by rewrite Ht]. apply list_elem_of_In, list_elem_of_fmap. exists (k, a). split; [done|]. by apply elem_of_ord_iter.
    + intros Hlive. split; [done|done|]. intros e c i a Ha. apply Htr. destruct (Hsound e c i a Ha) as (k & Hk & Ht). by eapply Hlive.
Qed.
End recovered.

(** ** Examples *)

(** A database with one unfinished and one finished request. *)
Definition restart_db_ex : Db :=
  two_requests_ex
    <| db_request_ctx ::= alter (λ p, p <| prc_outcome := Some RO_Success |>) "ns|app|r2" |>
    <| db_allocations := {["ns|app|r1|a1" := alloc_ex "a1" FRO_Unknown 1 None]} |>.
Lemma restart_db_ex_wf : db_wf restart_db_ex.
Proof.
  assert (E1 : map_Forall (λ k p, k = request_key (prc_namespace p) (prc_application_name p) (prc_request_id p) ∧
     bar_free (prc_namespace p) = true ∧ bar_free (prc_application_name p) = true ∧ bar_free (prc_request_id p) = true) (db_request_ctx restart_db_ex))
    by (apply (bool_decide_eq_true_1 _); vm_compute; reflexivity).
  assert (E2 : map_Forall (λ k r, k = run_key r ∧
     bar_free (fr_namespace r) = true ∧ bar_free (fr_application r) = true ∧ bar_free (fr_request_id r) = true) (db_function_runs restart_db_ex))
    by (apply (bool_decide_eq_true_1 _); vm_compute; reflexivity).
  assert (E3 : map_Forall (λ k c, (k = call_key "ns" "app" "r1" (fc_function_call_id c) ∨ k = call_key "ns" "app" "r2" (fc_function_call_id c)) ∧
     bar_free (fc_function_call_id c) = true) (db_function_calls restart_db_ex))
    by (apply (bool_decide_eq_true_1 _); vm_compute; reflexivity).
  split.
  - intros k p Hk. exact (E1 k p Hk).
  - intros k r Hk. exact (E2 k r Hk).
  - intros k c Hk. destruct (E3 k c Hk) as [[H|H] Hb]; [exists "ns", "app", "r1"|exists "ns", "app", "r2"]; exact (conj H (conj (conj eq_refl (conj eq_refl eq_refl)) Hb)).
Qed.
Lemma recovery_restores_requests_witness :
  load_request_ctxs restart_db_ex !! "ns|app|r1" = read_request_ctx restart_db_ex "ns" "app" "r1" ≫= unfinished ∧
  (rc_function_runs <$> load_request_ctxs restart_db_ex !! "ns|app|r1") ≫= (.!! "c1") = Some (input_run_ex "r1" "c1") ∧
  load_request_ctxs restart_db_ex !! "ns|app|r2" = None.
Proof.
  split_and!.
  - exact (recovery_restores_requests restart_db_ex "ns" "app" "r1" restart_db_ex_wf (conj eq_refl (conj eq_refl eq_refl))).
  - vm_compute. reflexivity.
  - pose proof (recovery_restores_requests restart_db_ex "ns" "app" "r2" restart_db_ex_wf (conj eq_refl (conj eq_refl eq_refl))) as H.
    exact H.
Defined.
Lemma restart_db_ex_filed : sandboxes_filed restart_db_ex.
Proof. intros k sb H. assert (E : db_sandboxes restart_db_ex = ∅) by exact eq_refl. rewrite E, lookup_empty in H. discriminate H. Qed.
Lemma restart_db_ex_live k a : db_allocations restart_db_ex !! k = Some a → allocation_live restart_db_ex a.
Proof.
  intros H. assert (E : db_allocations restart_db_ex = {["ns|app|r1|a1" := alloc_ex "a1" FRO_Unknown 1 None]}) by exact eq_refl.
  rewrite E in H. apply lookup_singleton_Some in H as [<- <-]. exists (input_run_ex "r1" "c1"), (persisted_ctx (invoked_ctx_ex "r1" 5)).
  split_and!; vm_compute; reflexivity.
Qed.
Lemma recovered_state_consistent_witness :
  let im := @load_state canonical_order 7 [] restart_db_ex in
  state_inv im ∧ im_function_runs im !! "ns|app|r1|c1" = Some (input_run_ex "r1" "c1") ∧ im_function_runs im !! "ns|app|r2|c1" = None ∧
  im_unallocated_function_runs im = {["ns|app|r1|c1"]}.
Proof.
  destruct (@recovered_state_consistent canonical_order 7 [] restart_db_ex restart_db_ex_wf restart_db_ex_filed) as (_ & _ & _ & _ & _ & H).
  - vm_compute. discriminate.
  - vm_compute. discriminate.
  - split_and!; [apply H; intros k a Hk _; exact (restart_db_ex_live k a Hk)|..]; vm_compute; reflexivity.
Defined.

(** A request with two running allocations, as it is stored; the first one reports a
    failure that ends the request, and the update is written. *)
Definition siblings_ex : RequestCtx :=
  MkRequestCtx "ns" "app" "v1" "r1" None 0 None None None
    (<["c1" := function_run_ex "c1" "v1" (FRS_Running "a1")]> {["c2" := function_run_ex "c2" "v1" (FRS_Running "a2")]})
    (<["c1" := call_ex "c1" []]> {["c2" := call_ex "c2" []]}).
Definition sibling_row_ex : Allocation := allocation_ex <| al_id := "a2" |> <| al_function_call_id := "c2" |>.
Definition siblings_db_ex : Db :=
  empty_db <| db_request_ctx := {["ns|app|r1" := persisted_ctx siblings_ex]} |>
    <| db_function_runs := <["ns|app|r1|c1" := function_run_ex "c1" "v1" (FRS_Running "a1")]> {["ns|app|r1|c2" := function_run_ex "c2" "v1" (FRS_Running "a2")]} |>
    <| db_allocations := <["ns|app|r1|a1" := allocation_ex]> {["ns|app|r1|a2" := sibling_row_ex]} |>.
Definition failed_db_ex : Db :=
  match @handle_allocation_ingestion canonical_order salted_ex unit (λ k, inr (db_allocations siblings_db_ex !! k)) 3 (running_state_ex siblings_ex)
          empty_scheduler (report_ex (FRO_Failure FRF_FunctionError) None) 0 0 with
  | Some (_, inr u) => (@handle_scheduler_update canonical_order siblings_db_ex u 0 1).1.1
  | _ => siblings_db_ex
  end.
(** A failure that ends a request closes the allocation that reported it, and no other.
    The row of the sibling stays not terminal although its request is finished, and a
    restart records it again under its container, while neither the request nor the run
    comes back: the state the server starts from does not satisfy the invariant. *)
Theorem failed_request_leaves_allocation :
  let im := @load_state canonical_order 7 [] failed_db_ex in
  (prc_outcome <$> db_request_ctx failed_db_ex !! "ns|app|r1") = Some (Some (RO_Failure RF_FunctionError)) ∧
  (allocation_is_terminal <$> db_allocations failed_db_ex !! "ns|app|r1|a1") = Some true ∧
  db_allocations failed_db_ex !! "ns|app|r1|a2" = Some sibling_row_ex ∧
  allocation_at im "e1" "k1" "a2" = Some sibling_row_ex ∧ im_function_runs im = ∅ ∧ ¬ state_inv im.
Proof.
  intros im. split_and!; try (vm_compute; reflexivity). intros [_ _ H].
  destruct (H "e1" "k1" "a2" sibling_row_ex) as (r & Hr & _); [vm_compute; reflexivity|]. vm_compute in Hr. discriminate.
Qed.
