(* ===== verification/Listing.v ===== *)
(** * Listing the requests of an application

    [StateReader::list_requests] of [state_store/scanner.rs] and
    [RocksDBDriver::get_key_range] of [state_store/driver/rocksdb.rs]: pages of the
    secondary index, whose keys embed the creation time of the requests. *)
From Stdlib Require Import Ascii.
From S2P Require Import Prelude DataModel InMemoryState StateMachine Scanner Recovery.

Inductive CursorDirection := CD_Forward | CD_Backward.
Record Range := MkRange {
  range_items : list string;
  range_direction : CursorDirection;
  range_prev_cursor : option string;
  range_next_cursor : option string;
}.

(** ** Key ranges *)

(** The keys an iterator with a lower (inclusive) and an upper (exclusive) bound
    visits.  A forward listing walks from the newest key to the oldest. *)
Definition in_range (lower upper k : string) : bool := bool_decide (String.le lower k) && negb (bool_decide (String.le upper k)).
Definition walk (dir : CursorDirection) (lower upper : string) (keys : gset string) : list string :=
  let ks := List.filter (in_range lower upper) (sorted_strings keys) in
  match dir with CD_Forward => reverse ks | CD_Backward => ks end.
(** [seek_for_prev] and [seek]: the keys from the cursor on. *)
Definition seek (dir : CursorDirection) (cursor : string) (ks : list string) : list string :=
  match dir with
  | CD_Forward => List.filter (λ k, bool_decide (String.le k cursor)) ks
  | CD_Backward => List.filter (λ k, bool_decide (String.le cursor k)) ks
  end.
(** The iterator after it was positioned: the key at the cursor is skipped. *)
Definition positioned (dir : CursorDirection) (cursor : option string) (ks : list string) : list string :=
  match cursor with Some c => tail (seek dir c ks) | None => ks end.
Definition get_key_range (keys : gset string) (lower upper : string) (direction : option CursorDirection) (cursor : option string) (limit : nat) : Range :=
  let dir := default CD_Forward direction in
  let ks := positioned dir cursor (walk dir lower upper keys) in
  let items := take limit ks in
  let beyond := match drop limit ks with [] => None | _ => last items end in
  let before := match cursor with Some _ => head items | None => None end in
  match dir with
  | CD_Forward => MkRange items dir before beyond
  | CD_Backward => MkRange items dir beyond before
  end.

(** [get_rows_from_cf_multi_key]: keys without a row are left out. *)
Definition get_rows_from_cf_multi_key {A} (m : gmap string A) (keys : list string) : list A := omap (λ k, m !! k) keys.

Definition index_bound (ns app : string) (time : Z) : string := app_key_prefix ns app +:+ be_bytes 8 time.
(** [list_requests], at the time [now] in milliseconds. *)
Definition list_requests (db : Db) (now : Z) (ns app : string) (cursor : option string) (limit : nat) (direction : option CursorDirection)
    : list PersistedRequestCtx * option string * option string :=
  let range := get_key_range (db_request_ctx_secondary_index db) (index_bound ns app 0) (index_bound ns app now) direction cursor limit in
  let keys := request_key ns app <$> omap get_request_id_from_secondary_index_key (range_items range) in
  let keys := match range_direction range with CD_Backward => reverse keys | CD_Forward => keys end in
  (get_rows_from_cf_multi_key (db_request_ctx db) keys, range_prev_cursor range, range_next_cursor range).

(** What a client that follows the next cursor sees. *)
Fixpoint request_pages (fuel : nat) (db : Db) (now : Z) (ns app : string) (cursor : option string) (limit : nat) : list (list PersistedRequestCtx) :=
  match fuel with
  | O => []
  | S fuel =>
      let '(page, _, next) := list_requests db now ns app cursor limit None in
      page :: match next with Some c => request_pages fuel db now ns app (Some c) limit | None => [] end
  end.

(** ** Walking an index *)

Lemma filter_sorted_drop {A} (R : A → A → Prop) `{!Reflexive R, !AntiSymm (=) R} (P : A → bool) (l : list A) : ∀ i c,
  (∀ k, P k = true ↔ R c k) → StronglySorted R l → NoDup l → l !! i = Some c → List.filter P l = drop i l.
Proof.
  induction l as [|a l IH]; intros i c HP Hs Hn Hi; [done|].
  apply StronglySorted_inv in Hs as [Hs Hf]. apply NoDup_cons in Hn as [Ha Hn]. rewrite Forall_forall in Hf. cbn [List.filter].
  destruct i as [|i]; cbn in Hi |- *.
  - injection Hi as ->. rewrite (proj2 (HP c)) by done. f_equal. clear IH Hs Hn Ha.
    induction l as [|b l IHl]; [done|]. cbn. rewrite (proj2 (HP b)) by (apply Hf; left). f_equal. apply IHl. intros x Hx. apply Hf. by right.
  - assert (Hin : c ∈ l) by by eapply list_elem_of_lookup_2. destruct (P a) eqn:EP; [|by eapply IH].
    apply HP in EP. assert (a = c) as -> by (apply (anti_symm R); [by apply Hf|done]). done.
Qed.

#[local] Instance flip_le_antisymm : AntiSymm (=) (flip String.le).
Proof. intros x y H1 H2. by apply (anti_symm String.le). Qed.
Lemma sorted_strings_sorted X : StronglySorted String.le (sorted_strings X).
Proof. apply StronglySorted_merge_sort; apply _. Qed.
Lemma sorted_strings_NoDup X : NoDup (sorted_strings X).
Proof. unfold sorted_strings. rewrite merge_sort_Permutation. apply NoDup_elements. Qed.
Lemma StronglySorted_reverse {A} (R : A → A → Prop) l : StronglySorted R l → StronglySorted (flip R) (reverse l).
Proof.
  induction 1 as [|x l Hs IH Hf]; [constructor|]. rewrite reverse_cons. apply StronglySorted_app_2; [|done|by repeat constructor].
  intros a b Ha ->%list_elem_of_singleton. rewrite Forall_forall in Hf. exact (Hf a (proj1 (elem_of_reverse _ _) Ha)).
Qed.

Lemma walk_forward_sorted lower upper keys : StronglySorted (flip String.le) (walk CD_Forward lower upper keys).
Proof. apply StronglySorted_reverse, filter_sorted, sorted_strings_sorted. Qed.
Lemma walk_forward_NoDup lower upper keys : NoDup (walk CD_Forward lower upper keys).
Proof.
  unfold walk. rewrite reverse_Permutation. eapply sublist_NoDup; [apply (sorted_strings_NoDup keys)|apply filter_sublist].
Qed.

(** The cursor of a page is the last key of the page before it. *)
Lemma walk_forward_drop lower upper keys i c :
  walk CD_Forward lower upper keys !! i = Some c →
  positioned CD_Forward (Some c) (walk CD_Forward lower upper keys) = drop (S i) (walk CD_Forward lower upper keys).
Proof.
  intros Hi. cbn [positioned seek]. set (l := walk CD_Forward lower upper keys) in *.
  rewrite (filter_sorted_drop (flip String.le) _ l i c); [| | | |done].
  - cbn. change (drop 1 (drop i l) = drop (S i) l). rewrite drop_drop. f_equal. lia.
  - intros k. apply bool_decide_eq_true.
  - apply walk_forward_sorted.
  - apply walk_forward_NoDup.
Qed.
Lemma last_take_drop {A} (l : list A) n : drop n l ≠ [] → last (take n l) = if decide (n = 0%nat) then None else l !! pred n.
Proof.
  intros Hd. assert (n < length l)%nat by (destruct (decide (n < length l)%nat) as [|H]; [done|destruct Hd; apply drop_ge; lia]).
  rewrite last_lookup, length_take, Nat.min_l by lia. case_decide; [by subst|]. apply lookup_take_lt. lia.
Qed.

Lemma request_pages_walk fuel db now ns app limit : ∀ cursor i,
  (0 < limit)%nat →
  let l := walk CD_Forward (index_bound ns app 0) (index_bound ns app now) (db_request_ctx_secondary_index db) in
  positioned CD_Forward cursor l = drop i l → (length (drop i l) ≤ fuel * limit)%nat →
  concat (request_pages fuel db now ns app cursor limit) =
  omap (λ k, get_request_id_from_secondary_index_key k ≫= λ req, db_request_ctx db !! request_key ns app req) (drop i l) ∧
  Forall (λ page, (length page ≤ limit)%nat) (request_pages fuel db now ns app cursor limit).
Proof.
  set (l := walk _ _ _ _). induction fuel as [|fuel IH]; intros cursor i Hl l' Hp Hf; subst l'; fold l in Hp, Hf |- *; cbn [request_pages].
  { rewrite (nil_length_inv (drop i l)) by lia. split; [done|constructor]. }
  unfold list_requests, get_key_range. cbn [default from_option id]. fold l. rewrite Hp. set (ks := drop i l) in *.
  cbn [range_items range_direction range_prev_cursor range_next_cursor]. unfold get_rows_from_cf_multi_key.
  set (page := omap _ (request_key ns app <$> _)).
  assert (Epage : page = omap (λ k, get_request_id_from_secondary_index_key k ≫= λ req, db_request_ctx db !! request_key ns app req) (take limit ks)).
  { unfold page. generalize (take limit ks). clear. induction l as [|k l IH]; [done|]. cbn [omap list_omap].
    destruct (get_request_id_from_secondary_index_key k); cbn; [|exact IH]. destruct (db_request_ctx db !! _); [f_equal|]; exact IH. }
  assert (Hpl : (length page ≤ limit)%nat).
  { rewrite Epage. etrans; [apply length_omap_le|]. rewrite length_take. lia. }
  destruct (drop limit ks) as [|k0 rest] eqn:Ed.
  - split; [|by repeat constructor]. cbn. rewrite app_nil_r, Epage. f_equal. rewrite <-(take_drop limit ks) at 2. by rewrite Ed, app_nil_r.
  - rewrite last_take_drop by (by rewrite Ed). rewrite decide_False by lia.
    assert (Hlen : (limit < length ks)%nat) by (apply (f_equal length) in Ed; rewrite length_drop in Ed; cbn in Ed; lia).
    destruct (ks !! pred limit) as [c|] eqn:Ec; [|apply lookup_ge_None in Ec; lia].
    assert (Hc : l !! (i + pred limit)%nat = Some c) by (unfold ks in Ec; by rewrite lookup_drop in Ec).
    destruct (IH (Some c) (S (i + pred limit)) Hl (walk_forward_drop _ _ _ _ _ Hc)) as [IH1 IH2].
    { fold l. unfold ks in Hlen, Hf. rewrite length_drop in Hlen, Hf |- *. lia. }
    split; [|by constructor]. cbn [concat]. rewrite IH1, Epage. rewrite <-omap_app. f_equal. fold l.
    replace (S (i + pred limit))%nat with (i + limit)%nat by lia. rewrite <-drop_drop. apply take_drop.
Qed.

(** ** The order of index keys *)

(** Numbers written with a fixed number of digits, most significant first, each one
    byte: [digit + off]. *)
Fixpoint fixed (base off : Z) (n : nat) (z : Z) : string :=
  match n with
  | O => EmptyString
  | S n => String (ascii_of_N (Z.to_N (off + (z / base ^ Z.of_nat n) mod base))) (fixed base off n z)
  end.
Lemma be_bytes_fixed n z : be_bytes n z = fixed 256 0 n z.
Proof. induction n as [|n IH]; [done|]. cbn [be_bytes fixed]. by rewrite IH. Qed.

Section fixed.
Context (base off : Z) (Hbase : 0 < base) (Hoff : 0 ≤ off) (Hbyte : off + base ≤ 256).

Lemma ascii_byte_compare a b :
  0 ≤ a < base → 0 ≤ b < base → Ascii.compare (ascii_of_N (Z.to_N (off + a))) (ascii_of_N (Z.to_N (off + b))) = Z.compare a b.
Proof using Hbase Hoff Hbyte.
  intros Ha Hb. unfold Ascii.compare. rewrite !N_ascii_embedding by lia. rewrite Z2N.inj_compare by lia. apply Z.add_compare_mono_l.
Qed.
Lemma fixed_mod n : ∀ z m, (n ≤ m)%nat → fixed base off n (z mod base ^ Z.of_nat m) = fixed base off n z.
Proof using Hbase.
  induction n as [|n IH]; intros z m Hm; [done|]. cbn [fixed]. rewrite IH by lia. do 4 f_equal.
  assert (0 < base ^ Z.of_nat n) by (apply Z.pow_pos_nonneg; lia).
  replace (Z.of_nat m) with (Z.of_nat n + (1 + Z.of_nat (m - n - 1))) by lia. rewrite !Z.pow_add_r, Z.pow_1_r by lia.
  assert (0 < base ^ Z.of_nat (m - n - 1)) by (apply Z.pow_pos_nonneg; lia).
  rewrite Z.rem_mul_r by lia. rewrite Z.mul_comm, Z.div_add, Z.div_small, Z.add_0_l by (try apply Z.mod_pos_bound; lia).
  rewrite Z.rem_mul_r by lia. rewrite Z.mul_comm, Z.mod_add by lia. apply Z.mod_mod. lia.
Qed.
Lemma fixed_le n : ∀ a b x y,
  0 ≤ a < base ^ Z.of_nat n → 0 ≤ b < base ^ Z.of_nat n →
  String.le (fixed base off n a +:+ x) (fixed base off n b +:+ y) ↔ a < b ∨ (a = b ∧ String.le x y).
Proof using Hbase Hoff Hbyte.
  induction n as [|n IH]; intros a b x y Ha Hb.
  { change (base ^ Z.of_nat 0) with 1 in *. cbn. split; [intros H; right; split; [lia|done]|intros [H|[_ H]]; [lia|done]]. }
  set (p := base ^ Z.of_nat n) in *. assert (Hp : 0 < p) by (apply Z.pow_pos_nonneg; lia).
  assert (Ep : base ^ Z.of_nat (S n) = base * p) by (unfold p; rewrite Nat2Z.inj_succ, Z.pow_succ_r; lia). rewrite Ep in *.
  assert (Hqa : 0 ≤ a / p < base) by (split; [apply Z.div_pos; lia|apply Z.div_lt_upper_bound; lia]).
  assert (Hqb : 0 ≤ b / p < base) by (split; [apply Z.div_pos; lia|apply Z.div_lt_upper_bound; lia]).
  change (fixed base off (S n) a +:+ x) with (String (ascii_of_N (Z.to_N (off + (a / p) mod base))) (fixed base off n a +:+ x)).
  change (fixed base off (S n) b +:+ y) with (String (ascii_of_N (Z.to_N (off + (b / p) mod base))) (fixed base off n b +:+ y)).
  rewrite !(Z.mod_small (_ / p)) by done. rewrite string_le_cons, ascii_byte_compare by done.
  rewrite <-(fixed_mod n a n), <-(fixed_mod n b n) by done. fold p. rewrite IH by (apply Z.mod_pos_bound; lia).
  pose proof (Z.div_mod a p ltac:(lia)). pose proof (Z.div_mod b p ltac:(lia)).
  pose proof (Z.mod_pos_bound a p Hp). pose proof (Z.mod_pos_bound b p Hp).
  assert (Hc : ascii_of_N (Z.to_N (off + a / p)) = ascii_of_N (Z.to_N (off + b / p)) ↔ a / p = b / p).
  { split; [|by intros ->]. intros E. apply (f_equal N_of_ascii) in E. rewrite !N_ascii_embedding in E by lia. lia. }
  rewrite Hc, Z.compare_lt_iff. split.
  - intros [Hlt|[Heq [Hlt|[Heq' Hle]]]]; [left; nia|left; nia|right; split; [nia|done]].
  - intros [Hlt|[-> Hle]]; [|right; split; [done|right; done]]. destruct (Z.lt_total (a / p) (b / p)) as [?|[?|?]]; [by left|right; split; [done|left; nia]|nia].
Qed.
End fixed.
Lemma be_bytes_le n a b x y :
  0 ≤ a < 256 ^ Z.of_nat n → 0 ≤ b < 256 ^ Z.of_nat n →
  String.le (be_bytes n a +:+ x) (be_bytes n b +:+ y) ↔ a < b ∨ (a = b ∧ String.le x y).
Proof. rewrite !be_bytes_fixed. apply fixed_le; lia. Qed.
Lemma app_le_cancel p x y : String.le (p +:+ x) (p +:+ y) ↔ String.le x y.
Proof.
  induction p as [|c p IH]; [done|]. change ((String c p) +:+ x) with (String c (p +:+ x)). change ((String c p) +:+ y) with (String c (p +:+ y)).
  rewrite string_le_cons, IH. split; [intros [H|[_ H]]; [|done]|by right]. exfalso. unfold Ascii.compare in H. by rewrite N.compare_refl in H.
Qed.

(** ** Listing *)

Lemma string_app_empty s : s +:+ "" = s.
Proof. induction s as [|c s IH]; [done|]. exact (f_equal (String c) IH). Qed.
Lemma prefix_app_self p s : String.prefix p (p +:+ s) = true.
Proof. induction p as [|c p IH]; [by destruct s|]. change (String c p +:+ s) with (String c (p +:+ s)). cbn [String.prefix]. destruct (ascii_dec c c); [exact IH|done]. Qed.

(** The index has one key per stored request, and no byte of a creation time is the
    separator. *)
Record index_wf (d : Db) : Prop := {
  iw_ctx k p : db_request_ctx d !! k = Some p →
    filed_ctx (k, p) ∧ plain (prc_namespace p) (prc_application_name p) (prc_request_id p) ∧
    0 ≤ prc_created_at p < 256 ^ 8 ∧ bar_free (be_bytes 8 (prc_created_at p)) = true;
  iw_index k : k ∈ db_request_ctx_secondary_index d ↔ ∃ p, db_request_ctx d !! persisted_key p = Some p ∧ k = persisted_secondary_index_key p;
}.

Lemma index_key_shape p :
  persisted_secondary_index_key p = app_key_prefix (prc_namespace p) (prc_application_name p) +:+ (be_bytes 8 (prc_created_at p) +:+ ("|" +:+ prc_request_id p)).
Proof.
  unfold persisted_secondary_index_key, secondary_index_key, app_key_prefix, bar. by rewrite !string_app_assoc.
Qed.
Lemma index_key_in_range ns app now p :
  bar_free ns = true → bar_free app = true → 0 ≤ now < 256 ^ 8 →
  plain (prc_namespace p) (prc_application_name p) (prc_request_id p) → 0 ≤ prc_created_at p < 256 ^ 8 →
  in_range (index_bound ns app 0) (index_bound ns app now) (persisted_secondary_index_key p) = true ↔
  prc_namespace p = ns ∧ prc_application_name p = app ∧ prc_created_at p < now.
Proof.
  intros Hns Happ Hnow (Hpn & Hpa & _) Ht. unfold in_range. rewrite andb_true_iff, negb_true_iff, bool_decide_eq_true, bool_decide_eq_false.
  assert (Hsame : prc_namespace p = ns → prc_application_name p = app →
    ∀ t, 0 ≤ t < 256 ^ 8 → String.le (index_bound ns app t) (persisted_secondary_index_key p) ↔ t ≤ prc_created_at p).
  { intros <- <- t Hb. rewrite index_key_shape. unfold index_bound. rewrite app_le_cancel.
    pose proof (be_bytes_le 8 t (prc_created_at p) "" ("|" +:+ prc_request_id p) Hb Ht) as H. rewrite string_app_empty in H. rewrite H.
    split; [lia|]. intros Hle. destruct (decide (t = prc_created_at p)) as [->|]; [right; split; [done|]|left; lia]. by apply (prefix_le ""). }
  split; [|intros (E1 & E2 & Hlt); rewrite !Hsame by (done || lia); lia].
  intros [Hlo Hup]. assert (Hpre : String.prefix (app_key_prefix ns app) (persisted_secondary_index_key p) = true).
  { apply (prefix_between _ _ (index_bound ns app now)).
    - etrans; [|exact Hlo]. apply prefix_le. unfold index_bound. apply prefix_app_self.
    - destruct (total String.le (persisted_secondary_index_key p) (index_bound ns app now)) as [H|H]; [done|by destruct (Hup H)].
    - apply prefix_app_self. }
  assert (prc_namespace p = ns ∧ prc_application_name p = app) as [E1 E2].
  { unfold app_key_prefix, persisted_secondary_index_key, secondary_index_key in Hpre. apply prefix_bar in Hpre as [-> Hpre]; [|done..].
    apply prefix_bar in Hpre as [-> _]; done. }
  split_and!; [done..|]. rewrite Hsame in Hup by (done || lia). lia.
Qed.
Lemma index_row d p :
  index_wf d → db_request_ctx d !! persisted_key p = Some p →
  (get_request_id_from_secondary_index_key (persisted_secondary_index_key p) ≫= λ req, db_request_ctx d !! request_key (prc_namespace p) (prc_application_name p) req) = Some p.
Proof.
  intros Hw Hp. destruct (iw_ctx _ Hw _ _ Hp) as (_ & (H1 & H2 & H3) & _ & H4).
  unfold get_request_id_from_secondary_index_key, persisted_secondary_index_key, secondary_index_key.
  rewrite !split_bars_bar, segments_free by done. exact Hp.
Qed.
Lemma StronglySorted_omap {A B} (R : A → A → Prop) (S : B → B → Prop) (f : A → option B) l :
  (∀ x y a b, x ∈ l → y ∈ l → R x y → f x = Some a → f y = Some b → S a b) → StronglySorted R l → StronglySorted S (omap f l).
Proof.
  intros HS Hl. induction Hl as [|x l Hl IH Hf]; [constructor|]. cbn. assert (IH' : StronglySorted S (omap f l)).
  { apply IH. intros ?????? . apply HS; by right. }
  destruct (f x) as [a|] eqn:E; [|done]. constructor; [done|]. apply Forall_forall. intros b (y & Hy & Eb)%list_elem_of_omap.
  rewrite Forall_forall in Hf. eapply HS; [left|by right|by apply Hf|done|done].
Qed.
Lemma NoDup_omap {A B} (f : A → option B) l :
  (∀ x y a, x ∈ l → y ∈ l → f x = Some a → f y = Some a → x = y) → NoDup l → NoDup (omap f l).
Proof.
  intros Hf. induction 1 as [|x l Hx Hl IH]; [constructor|]. cbn. assert (IH' : NoDup (omap f l)) by (apply IH; intros ??? ??; apply Hf; by right).
  destruct (f x) as [a|] eqn:E; [|done]. constructor; [|done]. intros (y & Hy & Ea)%list_elem_of_omap.
  apply Hx. by rewrite (Hf x y a (list_elem_of_here _ _) (list_elem_of_further _ _ _ Hy) E Ea).
Qed.

(** C40: following the next cursor from the first page lists every request of the
    application that was created before now exactly once, newest first, in pages
    within the limit, and requests of no other application; as many pages as the index
    has entries, divided by the limit, are enough.  The index holds exactly the keys of the
    stored requests, the database does not change between the pages (a deletion can
    make a request disappear from the listing, [deleted_cursor_skips_request]), and neither
    the names nor the eight bytes of a creation time contain the separator (a request with
    such a time is not listed, [secondary_index_key_misparsed]). *)
Theorem request_listing_complete d now ns app limit fuel :
  index_wf d → bar_free ns = true → bar_free app = true → 0 ≤ now < 256 ^ 8 →
  (0 < limit)%nat → (size (db_request_ctx_secondary_index d) ≤ fuel * limit)%nat →
  let pages := request_pages fuel d now ns app None limit in
  (∀ p, p ∈ concat pages ↔
     db_request_ctx d !! persisted_key p = Some p ∧ prc_namespace p = ns ∧ prc_application_name p = app ∧ prc_created_at p < now) ∧
  NoDup (concat pages) ∧ StronglySorted (λ p q, prc_created_at q ≤ prc_created_at p) (concat pages) ∧
  Forall (λ page, (length page ≤ limit)%nat) pages.
Proof.
  intros Hw Hns Happ Hnow Hl Hf pages.
  set (l := walk CD_Forward (index_bound ns app 0) (index_bound ns app now) (db_request_ctx_secondary_index d)).
  assert (Hlen : (length l ≤ fuel * limit)%nat).
  { etrans; [|exact Hf]. unfold l, walk. rewrite length_reverse. etrans; [apply sublist_length, filter_sublist|].
    unfold sorted_strings. by rewrite merge_sort_Permutation. }
  destruct (request_pages_walk fuel d now ns app limit None 0 Hl eq_refl Hlen) as [Hc Hp]. fold l pages in Hc, Hp.
  change (drop 0 l) with l in Hc. rewrite Hc. set (f := λ k, _ ≫= _).
  assert (Hin : ∀ k, k ∈ l ↔ ∃ p, k = persisted_secondary_index_key p ∧
    (db_request_ctx d !! persisted_key p = Some p ∧ prc_namespace p = ns ∧ prc_application_name p = app ∧ prc_created_at p < now) ∧ f k = Some p).
  { intros k. unfold l, walk. rewrite elem_of_reverse, list_elem_of_In, filter_In, <-list_elem_of_In, elem_of_sorted_strings, (iw_index _ Hw).
    split.
    - intros [(p & Hp0 & ->) Hr]. destruct (iw_ctx _ Hw _ _ Hp0) as (_ & Hpl & Ht & _). apply index_key_in_range in Hr as (<- & <- & Hr); [|done..].
      exists p. split_and!; [done..|]. by apply index_row.
    - intros (p & -> & (Hp0 & <- & <- & Hr) & _). destruct (iw_ctx _ Hw _ _ Hp0) as (_ & Hpl & Ht & _). split; [eauto|].
      by apply index_key_in_range. }
  assert (Hof : ∀ k p, k ∈ l → f k = Some p → k = persisted_secondary_index_key p ∧ db_request_ctx d !! persisted_key p = Some p ∧
    prc_namespace p = ns ∧ prc_application_name p = app ∧ prc_created_at p < now).
  { intros k p (p' & -> & H & E)%Hin E'. rewrite E in E'. injection E' as ->. done. }
  split_and!; [| | |done].
  - intros p. rewrite list_elem_of_omap. split.
    + intros (k & Hk & E). by apply (Hof k).
    + intros H. exists (persisted_secondary_index_key p). assert (Hk : persisted_secondary_index_key p ∈ l).
      { apply Hin. exists p. split; [done|]. split; [exact H|]. destruct H as (H & <- & <- & _). by apply index_row. }
      split; [done|]. destruct H as (H & <- & <- & _). by apply index_row.
  - apply NoDup_omap.
    + intros x y p Hx Hy Ex Ey. destruct (Hof x p Hx Ex) as [-> _], (Hof y p Hy Ey) as [-> _]. done.
    + apply walk_forward_NoDup.
  - apply (StronglySorted_omap (flip String.le)); [|apply walk_forward_sorted].
    intros x y p q Hx Hy Hle Ex Ey. destruct (Hof x p Hx Ex) as (-> & Hp0 & E1 & E2 & _), (Hof y q Hy Ey) as (-> & Hq0 & E3 & E4 & _).
    destruct (iw_ctx _ Hw _ _ Hp0) as (_ & _ & Ht & _), (iw_ctx _ Hw _ _ Hq0) as (_ & _ & Ht' & _).
    unfold flip in Hle. rewrite !index_key_shape, E1, E2, E3, E4, app_le_cancel, (be_bytes_le 8) in Hle by done. lia.
Qed.

(** ** Examples *)

Definition three_requests_ex : Db :=
  unwrap_db (@create_request canonical_order two_requests_ex "ns" "app" (invoked_ctx_ex "r3" 7)).
Lemma three_requests_ex_wf : index_wf three_requests_ex.
Proof.
  assert (E1 : map_Forall (λ k p, filed_ctx (k, p) ∧ (bar_free (prc_namespace p) = true ∧ bar_free (prc_application_name p) = true ∧ bar_free (prc_request_id p) = true) ∧
     (0 ≤ prc_created_at p < 256 ^ 8) ∧ bar_free (be_bytes 8 (prc_created_at p)) = true) (db_request_ctx three_requests_ex))
    by (unfold filed_ctx; cbn [fst snd]; apply (bool_decide_eq_true_1 _); vm_compute; reflexivity).
  assert (E2 : set_Forall (λ k, Exists (λ req, ∃ p, Some p = db_request_ctx three_requests_ex !! request_key "ns" "app" req ∧ k = persisted_secondary_index_key p) ["r1"; "r2"; "r3"])
    (db_request_ctx_secondary_index three_requests_ex)).
  { assert (E : db_request_ctx_secondary_index three_requests_ex = {[secondary_index_key "ns" "app" 5 "r1"; secondary_index_key "ns" "app" 6 "r2"; secondary_index_key "ns" "app" 7 "r3"]})
      by (vm_compute; reflexivity).
    rewrite E. intros k. rewrite !elem_of_union, !elem_of_singleton. intros [[->| ->]| ->].
    - apply Exists_cons_hd. eexists. split; [vm_compute; reflexivity|vm_compute; reflexivity].
    - apply Exists_cons_tl, Exists_cons_hd. eexists. split; [vm_compute; reflexivity|vm_compute; reflexivity].
    - apply Exists_cons_tl, Exists_cons_tl, Exists_cons_hd. eexists. split; [vm_compute; reflexivity|vm_compute; reflexivity]. }
  assert (E3 : map_Forall (λ k p, persisted_secondary_index_key p ∈ db_request_ctx_secondary_index three_requests_ex) (db_request_ctx three_requests_ex))
    by (apply (bool_decide_eq_true_1 _); vm_compute; reflexivity).
  split; [intros k p Hk; exact (E1 k p Hk)|]. intros k. split.
  - intros (req & _ & p & Hp & Hk)%E2%Exists_exists. exists p. split; [|exact Hk]. symmetry in Hp. destruct (E1 _ _ Hp) as [Hf _].
    unfold filed_ctx in Hf. cbn [fst snd] in Hf. unfold persisted_key. rewrite <-Hf. exact Hp.
  - intros (p & Hp & ->). exact (E3 _ _ Hp).
Qed.
Lemma request_listing_complete_witness :
  let pages := request_pages 2 three_requests_ex 9 "ns" "app" None 2 in
  NoDup (concat pages) ∧ map (map prc_request_id) pages = [["r3"; "r2"]; ["r1"]].
Proof.
  destruct (request_listing_complete three_requests_ex 9 "ns" "app" 2 2 three_requests_ex_wf eq_refl eq_refl) as (_ & H & _).
  - split; vm_compute; congruence.
  - lia.
  - apply (bool_decide_eq_true_1 _). vm_compute. reflexivity.
  - split; [exact H|vm_compute; reflexivity].
Defined.

(** The cursor of a page is the key of its last request and the next page skips
    the first key it seeks to: when that request is deleted in between, the seek lands
    on the request after it, which is then never listed. *)
Theorem deleted_cursor_skips_request :
  let '(page, _, next) := list_requests three_requests_ex 9 "ns" "app" None 1 None in
  let db := @sm_delete_request canonical_order three_requests_ex "ns" "app" "r3" 9 in
  let '(rest, _, more) := list_requests db 9 "ns" "app" next 10 None in
  prc_request_id <$> page = ["r3"] ∧ prc_request_id <$> rest = ["r1"] ∧ more = None ∧ is_Some (db_request_ctx db !! request_key "ns" "app" "r2").
Proof.
  assert (H : bool_decide (let '(page, _, next) := list_requests three_requests_ex 9 "ns" "app" None 1 None in
    let db := @sm_delete_request canonical_order three_requests_ex "ns" "app" "r3" 9 in
    let '(rest, _, more) := list_requests db 9 "ns" "app" next 10 None in
    prc_request_id <$> page = ["r3"] ∧ prc_request_id <$> rest = ["r1"] ∧ more = None ∧ is_Some (db_request_ctx db !! request_key "ns" "app" "r2")) = true)
    by (vm_compute; reflexivity).
  exact (bool_decide_eq_true_1 _ H).
Qed.
