(* ===== verification/ApplicationProcessor.v ===== *)
(** * The event loop

    [ApplicationProcessor] of [application_processor.rs]: the reaction to every
    state change, the batch that applies queued requests, the retry of pending work
    at startup and the pool reconciliation.

    The loop threads the in-memory state, the container scheduler and the
    feasibility cache of the batch through all processors, and stops at the first
    error of a state change: a state and error monad.  What is random or read from a
    clock comes from an [Oracle]; [ls_tick] counts the questions asked so far.  The
    outer [None] is a panic, or a propagation that exceeds [fuel].  The database
    read of an allocation and SHA-256 are parameters. *)
From S2P Require Import Prelude DataModel Resources Updates InMemoryState Blocked SchedulerState Placement ContainerScheduler SchedulerUpdates BufferReconciler FunctionRuns FunctionAllocator SandboxProcessor ContainerReconciler StateChanges StateMachine.

(** ** The monad *)

Inductive LoopError (E : Type) :=
| LE_Scheduler (e : SchedulerError)
| LE_Resources (e : ResourceError)
| LE_Database (e : E).
Arguments LE_Scheduler {E} _.
Arguments LE_Resources {E} _.
Arguments LE_Database {E} _.

Record Oracle := MkOracle {
  or_run : nat → nat → RunChoice;
  or_sandbox : nat → SandboxChoice;
  or_now : nat → Instant;
  or_inst : nat → ContainerId → Instant;
  or_time_ns : nat → Z;
  or_pool : nat → nat → Choice;
}.

Record LoopState := MkLoopState {
  ls_im : InMemoryState;
  ls_sched : ContainerScheduler;
  ls_cache : FeasibilityCache;
  ls_tick : nat;
}.
#[export] Instance eta_LoopState : Eta LoopState := λ l, MkLoopState (ls_im l) (ls_sched l) (ls_cache l) (ls_tick l).

Definition Loop (E A : Type) : Type := LoopState → option (LoopState * result (LoopError E) A).
Definition loop_ret {E A} (x : A) : Loop E A := λ l, Some (l, Ok x).
Definition loop_bind {E A B} (m : Loop E A) (f : A → Loop E B) : Loop E B := λ l,
  match m l with
  | Some (l1, Ok x) => f x l1
  | Some (l1, Err e) => Some (l1, Err e)
  | None => None
  end.
Definition loop_get {E} : Loop E LoopState := λ l, Some (l, Ok l).
Definition loop_sched {E} (f : ContainerScheduler → ContainerScheduler) : Loop E unit := λ l, Some (l <| ls_sched ::= f |>, Ok tt).
Declare Scope loop_scope.
Delimit Scope loop_scope with loop.
Notation "x <- m ;; k" := (loop_bind m (λ x, k)) (at level 60, m at next level, right associativity) : loop_scope.
Notation "m ;;; k" := (loop_bind m (λ _, k)) (at level 60, right associativity) : loop_scope.
Open Scope loop_scope.

Inductive StateChangeResult :=
| SCR_SchedulerUpdate (u : SchedulerUpdateRequest)
| SCR_ImmediateWrite (payload : RequestPayload).

(** [SandboxKey::namespace] and [SandboxKey::sandbox_id]. *)
Definition key_namespace (key : SandboxKey) : string := default ""%string (segments key !! 0%nat).
Definition key_sandbox_id (key : SandboxKey) : string := default ""%string (segments key !! 1%nat).

Section processor.
Context `{HO : HashOrder} {E : Type}.
Context (queue_size : Z) (o : Oracle) (get_allocation : string → E + option Allocation) (sha256_hex : string → string) (fuel : nat).

(** ** Calls of the processors *)

(** [apply_scheduler_update] with the clock of the in-memory state. *)
Definition apply_update (u : SchedulerUpdateRequest) : Loop E unit := λ l,
  Some (l <| ls_im ::= λ im, (apply_scheduler_update im (im_clock im) u).1 |>, Ok tt).
Definition allocate_runs (runs : list FunctionRun) : Loop E SchedulerUpdateRequest := λ l,
  let '(s, cache, res) := allocate_function_runs queue_size (ls_im l) (or_run o (ls_tick l)) (ls_sched l) runs (ls_cache l) in
  Some (MkLoopState (ls_im l) s cache (S (ls_tick l)), match res with Ok u => Ok u | Err e => Err (LE_Scheduler e) end).
Definition allocate_request_runs (ns app req : string) : Loop E SchedulerUpdateRequest := λ l,
  let '(s, cache, res) := allocate_request queue_size (ls_im l) (or_run o (ls_tick l)) (ls_sched l) ns app req (ls_cache l) in
  Some (MkLoopState (ls_im l) s cache (S (ls_tick l)), match res with Ok u => Ok u | Err e => Err (LE_Scheduler e) end).
Definition allocate_sandbox_key (ns id : string) : Loop E SchedulerUpdateRequest := λ l,
  match allocate_sandbox_by_key (ls_im l) (ls_sched l) ns id (ls_cache l) (or_sandbox o (ls_tick l)) with
  | Some (s, cache, res) =>
      Some (MkLoopState (ls_im l) s cache (S (ls_tick l)), match res with Ok u => Ok u | Err e => Err (LE_Scheduler e) end)
  | None => None
  end.
(** The loop over the unblocked sandboxes. *)
Fixpoint allocate_sandboxes (keys : list SandboxKey) (u : SchedulerUpdateRequest) : Loop E SchedulerUpdateRequest :=
  match keys with
  | [] => loop_ret u
  | key :: keys => r <- allocate_sandbox_key (key_namespace key) (key_sandbox_id key);; allocate_sandboxes keys (extend u r)
  end.
Definition ingest_allocation (ev : AllocationOutputIngestedEvent) : Loop E SchedulerUpdateRequest := λ l,
  match handle_allocation_ingestion sha256_hex get_allocation fuel (ls_im l) (ls_sched l) ev (or_now o (ls_tick l)) (or_time_ns o (ls_tick l)) with
  | Some (s, inr u) => Some (l <| ls_sched := s |> <| ls_tick ::= S |>, Ok u)
  | Some (s, inl e) => Some (l <| ls_sched := s |> <| ls_tick ::= S |>, Err (LE_Database e))
  | None => None
  end.
(** [unblock_for_freed_resources] on the tracker of the scheduler. *)
Definition unblock (class : ExecutorClass) (budget_mb : Z) : Loop E UnblockedWork := λ l,
  let '(t, w) := unblock_for_freed_resources (cs_blocked_work (ls_sched l)) class budget_mb in
  Some (l <| ls_sched ::= λ s, s <| cs_blocked_work := t |> |>, Ok w).
(** Runs allocated only when there are any. *)
Definition allocate_pending (keys : list FunctionRunKey) (u : SchedulerUpdateRequest) : Loop E SchedulerUpdateRequest :=
  l <- loop_get;;
  let runs := resolve_pending_function_runs (ls_im l) keys in
  if bool_decide (length runs = 0%nat) then loop_ret u else r <- allocate_runs runs;; loop_ret (extend u r).
Definition reconcile_executor (eid : ExecutorId) : Loop E SchedulerUpdateRequest := λ l,
  let '(st, res) := reconcile_executor_state (im_clock (ls_im l)) (or_inst o (ls_tick l)) (ls_im l, ls_sched l) eid in
  Some (MkLoopState st.1 st.2 (ls_cache l) (S (ls_tick l)), match res with Ok u => Ok u | Err e => Err (LE_Resources e) end).
Definition deregister (eid : ExecutorId) : Loop E SchedulerUpdateRequest := λ l,
  let '(st, u) := reconciler_deregister_executor (im_clock (ls_im l)) (ls_im l, ls_sched l) eid in
  Some (MkLoopState st.1 st.2 (ls_cache l) (ls_tick l), Ok u).

(** ** State changes *)

Definition handle_create_function_call (ev : FunctionCallEvent) : Loop E SchedulerUpdateRequest := λ l,
  match handle_blocking_function_call sha256_hex (ls_im l) ev (or_time_ns o (ls_tick l)) with
  | None => None
  | Some u =>
      (apply_update u;;;
       r <- allocate_runs (unallocated_function_runs u);;
       loop_ret (extend u r)) (l <| ls_tick ::= S |>)
  end.

(** The memory freed on a container that has room again. *)
Definition freed_memory (s : ContainerScheduler) (cid : ContainerId) : Z :=
  match cs_function_containers s !! cid with
  | Some fc => if negb (is_terminated (csm_desired_state fc)) && bool_decide (Z.of_nat (size (csm_allocations fc)) < capacity queue_size fc)
               then cres_memory_mb (ctr_resources (csm_function_container fc)) else 0
  | None => 0
  end.

Definition handle_allocation_outputs (ev : AllocationOutputIngestedEvent) : Loop E SchedulerUpdateRequest :=
  u <- ingest_allocation ev;;
  apply_update u;;;
  u1 <- (if bool_decide (length (unallocated_function_runs u) = 0%nat) then loop_ret u
         else r <- allocate_runs (unallocated_function_runs u);; apply_update r;;; loop_ret (extend u r));;
  l <- loop_get;;
  let freed_memory_mb := freed_memory (ls_sched l) (at_container_id (ao_allocation_target ev)) in
  if bool_decide (0 < freed_memory_mb) then
    w <- unblock (get_executor_class (ls_sched l) (at_executor_id (ao_allocation_target ev))) freed_memory_mb;;
    u2 <- allocate_pending (uw_function_run_keys w) u1;;
    allocate_sandboxes (uw_sandbox_keys w) u2
  else loop_ret u1.

Definition handle_executor_upserted (eid : ExecutorId) : Loop E SchedulerUpdateRequest :=
  u <- reconcile_executor eid;;
  if bool_decide (su_containers u = ∅) && bool_decide (su_updated_executor_states u = ∅) then loop_ret u
  else
    u1 <- (if bool_decide (length (unallocated_function_runs u) = 0%nat) then loop_ret u
           else r <- allocate_runs (unallocated_function_runs u);; apply_update r;;; loop_ret (extend u r));;
    l <- loop_get;;
    let budget_mb := match cs_executor_states (ls_sched l) !! eid with
                     | Some st => host_memory_bytes (esm_free_resources st) / (1024 * 1024)
                     | None => 0
                     end in
    w <- unblock (get_executor_class (ls_sched l) eid) budget_mb;;
    if bool_decide (length (uw_sandbox_keys w) = 0%nat) && bool_decide (length (uw_function_run_keys w) = 0%nat) then loop_ret u1
    else
      u2 <- allocate_pending (uw_function_run_keys w) u1;;
      allocate_sandboxes (uw_sandbox_keys w) u2.

Definition handle_tombstone_executor (eid : ExecutorId) : Loop E SchedulerUpdateRequest :=
  u <- deregister eid;;
  r <- allocate_runs (unallocated_function_runs u);;
  l <- loop_get;;
  loop_ret (extend (extend u r)
    (fail_in_progress_snapshots_for_executor (ls_im l) eid "Executor became unavailable during snapshot")).

Definition handle_terminate_sandbox (ns id : string) : Loop E SchedulerUpdateRequest := λ l,
  let '(s, u) := terminate_sandbox (ls_im l) (ls_sched l) ns id in Some (l <| ls_sched := s |>, Ok u).
Definition handle_snapshot_sandbox (ns : string) (snapshot : SnapshotId) : Loop E SchedulerUpdateRequest :=
  l <- loop_get;;
  let key := snapshot_key_new ns snapshot in
  loop_ret match im_snapshots (ls_im l) !! key with
           | Some snap => empty_update <| su_updated_snapshots := {[key := snap]} |>
           | None => empty_update
           end.

(** Step 1 of [DataplaneResultsIngested], one container that terminated: the update
    and the memory it freed. *)
Definition terminate_reported (eid : ExecutorId) (csu : ContainerStateUpdateInfo) (acc : SchedulerUpdateRequest * Z) : Loop E (SchedulerUpdateRequest * Z) := λ l,
  let reason := default CTR_Unknown (csu_termination_reason csu) in
  let '(cu, freed) :=
    match cs_function_containers (ls_sched l) !! csu_container_id csu with
    | None => (empty_update, 0)
    | Some m =>
        let fc := csm_function_container m <| ctr_state := CS_Terminated reason |> in
        let meta := new_container_metadata eid fc (CS_Terminated reason) (or_now o (ls_tick l)) in
        let cu0 := empty_update <| su_containers := {[csu_container_id csu := meta]} |> in
        let cu1 := match cs_executor_states (ls_sched l) !! eid with
                   | Some st => match remove_container st fc with
                                | (st', Ok _) => cu0 <| su_updated_executor_states := {[eid := st']} |>
                                | (_, Err _) => cu0
                                end
                   | None => cu0
                   end in
        (extend cu1 (terminate_sandbox_for_container (ls_im l) fc), cres_memory_mb (ctr_resources fc))
    end in
  (loop_sched (λ s, apply_container_update s cu);;;
   apply_update cu;;;
   loop_ret (extend acc.1 cu, wrap64 (acc.2 + freed))) (l <| ls_tick ::= S |>).
Fixpoint terminate_all_reported (eid : ExecutorId) (l : list ContainerStateUpdateInfo) (acc : SchedulerUpdateRequest * Z) : Loop E (SchedulerUpdateRequest * Z) :=
  match l with
  | [] => loop_ret acc
  | csu :: l => acc1 <- terminate_reported eid csu acc;; terminate_all_reported eid l acc1
  end.
(** Step 1b. *)
Fixpoint promote_started (ids : list ContainerId) (u : SchedulerUpdateRequest) : Loop E SchedulerUpdateRequest :=
  match ids with
  | [] => loop_ret u
  | cid :: ids =>
      l <- loop_get;;
      let p := promote_sandbox_for_started_container (ls_im l) (ls_sched l) cid in
      if bool_decide (su_updated_sandboxes p = ∅) && bool_decide (su_containers p = ∅) then promote_started ids u
      else
        loop_sched (λ s, apply_container_update s p);;;
        apply_update p;;;
        promote_started ids (extend u p)
  end.
(** Step 2: the results, and the memory of every container that has room again,
    counted once. *)
Fixpoint ingest_results (evs : list AllocationOutputIngestedEvent) (u : SchedulerUpdateRequest) (counted : gset ContainerId) (freed : Z)
    : Loop E (SchedulerUpdateRequest * Z) :=
  match evs with
  | [] => loop_ret (u, freed)
  | ev :: evs =>
      au <- ingest_allocation ev;;
      apply_update au;;;
      l <- loop_get;;
      let cid := at_container_id (ao_allocation_target ev) in
      if bool_decide (cid ∈ counted) then ingest_results evs (extend u au) counted freed
      else ingest_results evs (extend u au) ({[cid]} ∪ counted) (wrap64 (freed + freed_memory (ls_sched l) cid))
  end.
Definition handle_dataplane_results (ev : DataplaneResultsIngestedEvent) : Loop E SchedulerUpdateRequest :=
  t <- terminate_all_reported (dr_executor_id ev) (dr_container_state_updates ev) (empty_update, 0);;
  u1 <- promote_started (dr_container_started_ids ev) t.1;;
  r <- ingest_results (dr_allocation_events ev) u1 ∅ t.2;;
  let '(u2, freed) := r in
  l <- loop_get;;
  w <- (if bool_decide (0 < freed) then unblock (get_executor_class (ls_sched l) (dr_executor_id ev)) freed else loop_ret (MkUnblockedWork [] []));;
  l3 <- loop_get;;
  let unblocked := resolve_pending_function_runs (ls_im l3) (uw_function_run_keys w) in
  u3 <- (if bool_decide (length unblocked = 0%nat) then loop_ret u2
         else a <- allocate_runs unblocked;; apply_update a;;; loop_ret (extend u2 a));;
  u4 <- (if bool_decide (length (unallocated_function_runs u3) = 0%nat) then loop_ret u3
         else a <- allocate_runs (unallocated_function_runs u3);; apply_update a;;; loop_ret (extend u3 a));;
  allocate_sandboxes (uw_sandbox_keys w) u4.

(** [handle_state_change]. *)
Definition handle_state_change (ct : ChangeType) : Loop E StateChangeResult :=
  let scheduler m := u <- m;; loop_ret (SCR_SchedulerUpdate u) in
  match ct with
  | CH_CreateFunctionCall ev => scheduler (handle_create_function_call ev)
  | CH_InvokeApplication req ns app => scheduler (allocate_request_runs ns app req)
  | CH_AllocationOutputsIngested ev => scheduler (handle_allocation_outputs ev)
  | CH_ExecutorUpserted eid => scheduler (handle_executor_upserted eid)
  | CH_TombStoneExecutor eid => scheduler (handle_tombstone_executor eid)
  | CH_TombstoneApplication ns app => loop_ret (SCR_ImmediateWrite (RP_DeleteApplicationRequest ns app))
  | CH_TombstoneRequest ns app req => loop_ret (SCR_ImmediateWrite (RP_DeleteRequestRequest ns app req))
  | CH_CreateSandbox ns id => scheduler (allocate_sandbox_key ns id)
  | CH_TerminateSandbox ns id => scheduler (handle_terminate_sandbox ns id)
  | CH_SnapshotSandbox ns _ snapshot _ => scheduler (handle_snapshot_sandbox ns snapshot)
  | CH_CreateContainerPool _ _ | CH_UpdateContainerPool _ _ => scheduler (loop_ret empty_update)
  | CH_DeleteContainerPool ns id => loop_ret (SCR_ImmediateWrite (RP_DeleteContainerPool ns id))
  | CH_DataplaneResultsIngested ev => scheduler (handle_dataplane_results ev)
  end.
End processor.
