(* ===== verification/Outbox.v ===== *)
(** * The command outbox

    Commands for executors are persisted before they are delivered.
    [state_store/mod.rs] keeps, per executor, the commands with their sequence
    numbers, the next sequence number and the last acknowledged one, all in the column
    family [ExecutorCommandOutbox]; the intents the scheduler writes with its output
    are moved there page by page. *)
From Stdlib Require Import Ascii.
From stdpp Require Import functions.
From S2P Require Import Prelude DataModel Updates InMemoryState StateMachine Scanner Recovery Listing.

(** A protobuf message with a sequence number: [Command] and
    [SequencedAllocationResult]; the body is kept as its bytes. *)
Record Sequenced := MkSequenced {
  sq_seq : Z;
  sq_body : Bytes;
}.
#[global] Instance eta_Sequenced : Eta Sequenced := λ s, MkSequenced (sq_seq s) (sq_body s).
#[global] Instance Sequenced_eq_dec : EqDecision Sequenced.
Proof. solve_decision. Defined.
Notation Command := Sequenced.

(** The rows of the column family: sequence numbers and commands. *)
Inductive OutboxRow := OR_Seq (n : Z) | OR_Command (c : Command).
Notation Outbox := (gmap string OutboxRow).

(** ** Keys *)

(** [{:020}] of a [u64]. *)
Fixpoint dec_digits (n : nat) (z : Z) : string :=
  match n with
  | O => EmptyString
  | S n => String (ascii_of_N (Z.to_N (48 + (z / 10 ^ Z.of_nat n) mod 10))) (dec_digits n z)
  end.
(** [parse::<u64>]. *)
Definition digit (c : ascii) : option Z :=
  let n := Z.of_N (N_of_ascii c) in if bool_decide (48 ≤ n ≤ 57) then Some (n - 48) else None.
Fixpoint parse_digits (s : string) (acc : Z) : option Z :=
  match s with
  | EmptyString => Some acc
  | String c s =>
      match digit c with
      | Some d => let acc := acc * 10 + d in if bool_decide (acc ≤ u64_max) then parse_digits s acc else None
      | None => None
      end
  end.
Definition parse_u64 (s : string) : option Z :=
  match s with
  | EmptyString => None
  | String c EmptyString => parse_digits s 0
  | String c s' => if Ascii.eqb c "+"%char then parse_digits s' 0 else parse_digits s 0
  end.
(** [key.rsplit_once('|')], the part after the separator. *)
Fixpoint after_last_bar (s : string) : option string :=
  match s with
  | EmptyString => None
  | String c s =>
      match after_last_bar s with
      | Some p => Some p
      | None => if Ascii.eqb c "|"%char then Some s else None
      end
  end.

Definition executor_cmd_key (e : ExecutorId) (seq : Z) : string := bar "cmd" (bar e (dec_digits 20 seq)).
Definition executor_cmd_prefix_key (e : ExecutorId) : string := bar "cmd" (bar e "").
Definition executor_cmd_ack_key (e : ExecutorId) : string := bar "ack" e.
Definition executor_cmd_next_key (e : ExecutorId) : string := bar "next" e.
Definition parse_executor_cmd_seq (key : string) : option Z := after_last_bar key ≫= parse_u64.

(** ** Operations *)

Definition saturating_add (a b : Z) : Z := Z.min u64_max (a + b).
(** The number stored under a key, if there is one. *)
Definition read_seq (ob : Outbox) (key : string) (missing : Z) : Z :=
  match ob !! key with Some (OR_Seq n) => n | _ => missing end.
Definition read_executor_cmd_ack (ob : Outbox) (e : ExecutorId) : Z := read_seq ob (executor_cmd_ack_key e) 0.
Definition read_executor_cmd_next (ob : Outbox) (e : ExecutorId) : Z := read_seq ob (executor_cmd_next_key e) 1.

(** The database part of [enqueue_executor_commands]: the rows and the numbered
    commands. *)
Fixpoint number_commands (e : ExecutorId) (ob : Outbox) (next : Z) (commands : list Command) : Outbox * Z * list Command :=
  match commands with
  | [] => (ob, next, [])
  | c :: commands =>
      let c := c <| sq_seq := next |> in
      let '(ob', next', rest) := number_commands e (<[executor_cmd_key e next := OR_Command c]> ob) (saturating_add next 1) commands in
      (ob', next', c :: rest)
  end.
Definition enqueue_commands_db (ob : Outbox) (e : ExecutorId) (commands : list Command) : Outbox * list Command :=
  match commands with
  | [] => (ob, [])
  | _ =>
      let '(ob', next, numbered) := number_commands e ob (read_executor_cmd_next ob e) commands in
      (<[executor_cmd_next_key e := OR_Seq next]> ob', numbered)
  end.

(** [move_scheduler_command_intents_to_outbox]: one intent. *)
Record Moving := MkMoving {
  mv_outbox : Outbox;
  mv_intents : gmap Z SchedulerCommandIntent;
  mv_next_seq_by_executor : gmap ExecutorId Z;
  mv_enqueued : gmap ExecutorId (list Command);
}.
Definition move_intent (st : Moving) (kv : Z * SchedulerCommandIntent) : Moving :=
  let e := sci_executor_id kv.2 in
  let next := match mv_next_seq_by_executor st !! e with Some n => n | None => read_executor_cmd_next (mv_outbox st) e end in
  let c := MkSequenced next (sci_command kv.2) in
  MkMoving (<[executor_cmd_key e next := OR_Command c]> (mv_outbox st)) (delete kv.1 (mv_intents st))
    (<[e := saturating_add next 1]> (mv_next_seq_by_executor st))
    (<[e := default [] (mv_enqueued st !! e) ++ [c]]> (mv_enqueued st)).

Section outbox.
Context `{HO : HashOrder}.

Definition move_scheduler_command_intents_to_outbox (ob : Outbox) (intents : gmap Z SchedulerCommandIntent) (max_items : nat)
    : Outbox * gmap Z SchedulerCommandIntent * gmap ExecutorId (list Command) :=
  let st := foldl move_intent (MkMoving ob intents ∅ ∅) (take max_items (num_iter intents)) in
  let ob' := foldl (λ ob kv, <[executor_cmd_next_key kv.1 := OR_Seq kv.2]> ob) (mv_outbox st) (map_iter (mv_next_seq_by_executor st)) in
  (ob', mv_intents st, mv_enqueued st).
End outbox.

(** [load_executor_pending_commands]. *)
Definition pending_row (acked : Z) (kv : string * OutboxRow) : option Command :=
  match parse_executor_cmd_seq kv.1 with
  | Some seq => if bool_decide (seq ≤ acked) then None else match kv.2 with OR_Command c => Some c | OR_Seq _ => None end
  | None => None
  end.
Definition load_executor_pending_commands (ob : Outbox) (e : ExecutorId) : Z * list Command :=
  let acked := read_executor_cmd_ack ob e in
  (acked, omap (pending_row acked) (scan_prefix (executor_cmd_prefix_key e) ob)).

(** [ack_executor_commands]. *)
Definition row_acked (effective : Z) (key : string) : bool :=
  match parse_executor_cmd_seq key with Some seq => bool_decide (seq ≤ effective) | None => false end.
Definition ack_executor_commands (ob : Outbox) (e : ExecutorId) (acked_seq : Z) : Outbox :=
  let effective := Z.max acked_seq (read_executor_cmd_ack ob e) in
  let ob1 := <[executor_cmd_ack_key e := OR_Seq effective]> ob in
  foldl (λ ob kv, if row_acked effective kv.1 then delete kv.1 ob else ob) ob1 (scan_prefix (executor_cmd_prefix_key e) ob1).

(** [reset_executor_command_outbox]. *)
Definition reset_executor_command_outbox (ob : Outbox) (e : ExecutorId) : Outbox :=
  let ob1 := foldl (λ ob kv, delete kv.1 ob) ob (scan_prefix (executor_cmd_prefix_key e) ob) in
  <[executor_cmd_next_key e := OR_Seq 1]> (<[executor_cmd_ack_key e := OR_Seq 0]> ob1).

(** ** Keys *)

Lemma dec_digits_fixed n z : dec_digits n z = fixed 10 48 n z.
Proof. induction n as [|n IH]; [done|]. cbn [dec_digits fixed]. by rewrite IH. Qed.
Lemma dec_digits_le n a b x y :
  0 ≤ a < 10 ^ Z.of_nat n → 0 ≤ b < 10 ^ Z.of_nat n →
  String.le (dec_digits n a +:+ x) (dec_digits n b +:+ y) ↔ a < b ∨ (a = b ∧ String.le x y).
Proof. rewrite !dec_digits_fixed. apply fixed_le; lia. Qed.
Lemma u64_fits n : 0 ≤ n ≤ u64_max → 0 ≤ n < 10 ^ Z.of_nat 20.
Proof. unfold u64_max. lia. Qed.
Lemma dec_digits_bar_free n z : bar_free (dec_digits n z) = true.
Proof.
  induction n as [|n IH]; [done|]. cbn [dec_digits bar_free]. rewrite IH, andb_true_r. apply negb_true_iff, Ascii.eqb_neq. intros E.
  apply (f_equal N_of_ascii) in E. assert (0 ≤ (z / 10 ^ Z.of_nat n) mod 10 < 10) by (apply Z.mod_pos_bound; lia).
  rewrite N_ascii_embedding in E by lia. change (N_of_ascii "|") with 124%N in E. lia.
Qed.
Lemma digit_dec d : 0 ≤ d < 10 → digit (ascii_of_N (Z.to_N (48 + d))) = Some d.
Proof. intros Hd. unfold digit. rewrite N_ascii_embedding, Z2N.id by lia. rewrite bool_decide_true by lia. f_equal. lia. Qed.
Lemma parse_dec_digits n : ∀ z acc,
  0 ≤ acc → acc * 10 ^ Z.of_nat n + z mod 10 ^ Z.of_nat n ≤ u64_max →
  parse_digits (dec_digits n z) acc = Some (acc * 10 ^ Z.of_nat n + z mod 10 ^ Z.of_nat n).
Proof.
  induction n as [|n IH]; intros z acc Ha Hb.
  { change (10 ^ Z.of_nat 0) with 1 in *. rewrite Z.mod_1_r. cbn. f_equal. lia. }
  cbn [dec_digits parse_digits]. set (p := 10 ^ Z.of_nat n) in *. assert (Hp : 0 < p) by (apply Z.pow_pos_nonneg; lia).
  assert (Ep : 10 ^ Z.of_nat (S n) = p * 10) by (unfold p; rewrite Nat2Z.inj_succ, Z.pow_succ_r; lia). rewrite Ep in *.
  assert (Hd : 0 ≤ (z / p) mod 10 < 10) by (apply Z.mod_pos_bound; lia). rewrite digit_dec by done.
  rewrite Z.rem_mul_r in * by lia. assert (0 ≤ z mod p < p) by (apply Z.mod_pos_bound; lia). cbv zeta.
  rewrite bool_decide_true by nia. rewrite IH by (fold p; nia). fold p. f_equal. ring.
Qed.
Lemma parse_no_plus c s : c ≠ "+"%char → parse_u64 (String c s) = parse_digits (String c s) 0.
Proof. intros Hc%Ascii.eqb_neq. destruct s; [done|]. unfold parse_u64. by rewrite Hc. Qed.
Lemma parse_dec n : 0 ≤ n ≤ u64_max → parse_u64 (dec_digits 20 n) = Some n.
Proof.
  intros Hn. assert (E : parse_u64 (dec_digits 20 n) = parse_digits (dec_digits 20 n) 0).
  { change (dec_digits 20 n) with (String (ascii_of_N (Z.to_N (48 + (n / 10 ^ Z.of_nat 19) mod 10))) (dec_digits 19 n)).
    apply parse_no_plus. intros E. apply (f_equal N_of_ascii) in E.
    assert (0 ≤ (n / 10 ^ Z.of_nat 19) mod 10 < 10) by (apply Z.mod_pos_bound; lia).
    rewrite N_ascii_embedding in E by lia. change (N_of_ascii "+") with 43%N in E. lia. }
  pose proof (u64_fits n Hn). rewrite E, parse_dec_digits by (try rewrite Z.mod_small by done; lia). by rewrite Z.mod_small.
Qed.
Lemma after_last_bar_free b : bar_free b = true → after_last_bar b = None.
Proof. induction b as [|c b IH]; cbn; [done|]. intros [Hc Hb]%andb_true_iff. rewrite IH by done. by destruct (Ascii.eqb c "|"). Qed.
Lemma after_last_bar_bar a b : bar_free b = true → after_last_bar (bar a b) = Some b.
Proof.
  intros Hb. induction a as [|c a IH]; rewrite ?bar_nil, ?bar_cons; cbn [after_last_bar].
  - by rewrite after_last_bar_free.
  - by rewrite IH.
Qed.
Lemma parse_cmd_key e n : 0 ≤ n ≤ u64_max → parse_executor_cmd_seq (executor_cmd_key e n) = Some n.
Proof.
  intros Hn. unfold parse_executor_cmd_seq, executor_cmd_key. rewrite <-bar_assoc, after_last_bar_bar by apply dec_digits_bar_free.
  by apply parse_dec.
Qed.
Lemma dec_digits_inj n n' : 0 ≤ n ≤ u64_max → 0 ≤ n' ≤ u64_max → dec_digits 20 n = dec_digits 20 n' → n = n'.
Proof. intros Hn Hn' E. apply (f_equal parse_u64) in E. rewrite !parse_dec in E by done. congruence. Qed.
Lemma cmd_key_inj e n e' n' :
  0 ≤ n ≤ u64_max → 0 ≤ n' ≤ u64_max → executor_cmd_key e n = executor_cmd_key e' n' → e = e' ∧ n = n'.
Proof.
  intros Hn Hn' E. unfold executor_cmd_key in E. rewrite <-!bar_assoc in E.
  assert (E1 := f_equal before_last_bar E). assert (E2 := f_equal after_last_bar E).
  rewrite !before_last_bar_bar in E1 by apply dec_digits_bar_free. rewrite !after_last_bar_bar in E2 by apply dec_digits_bar_free.
  apply (inj Some) in E1, E2. split; [|by apply dec_digits_inj]. by apply bar_inj in E1 as [_ E1].
Qed.
Lemma cmd_key_prefix e e' n :
  bar_free e = true → bar_free e' = true → String.prefix (executor_cmd_prefix_key e) (executor_cmd_key e' n) = true ↔ e = e'.
Proof.
  intros He He'. unfold executor_cmd_prefix_key, executor_cmd_key. split.
  - intros H. apply prefix_bar in H as [_ H]; [|done..]. by apply prefix_bar in H as [-> _].
  - intros ->. do 2 apply prefix_bar_self. apply prefix_empty.
Qed.

(** ** One log per executor *)

(** What the outbox stands for: for every executor the bodies of the commands sent to
    it and how many of them it has acknowledged. *)
Notation Logs := (ExecutorId → Z * list Bytes).
Definition row_of (x : Z * list Bytes) (n : Z) : option OutboxRow :=
  if bool_decide (x.1 < n) then (λ b, OR_Command (MkSequenced n b)) <$> x.2 !! Z.to_nat (n - 1) else None.
Definition append_log (ls : Logs) (e : ExecutorId) (bs : list Bytes) : Logs := <[e := ((ls e).1, (ls e).2 ++ bs)]> ls.
Fixpoint numbered (n : Z) (bs : list Bytes) : list Command :=
  match bs with [] => [] | b :: bs => MkSequenced n b :: numbered (n + 1) bs end.

Definition outbox_keys (ob : Outbox) : Prop :=
  ∀ k r, ob !! k = Some r →
    (∃ e, k = executor_cmd_ack_key e ∨ k = executor_cmd_next_key e) ∨
    (∃ e n, bar_free e = true ∧ 0 ≤ n ≤ u64_max ∧ k = executor_cmd_key e n).
Record rows_are (ob : Outbox) (ls : Logs) : Prop := {
  ra_keys : outbox_keys ob;
  ra_ack e : bar_free e = true → read_executor_cmd_ack ob e = (ls e).1;
  ra_rows e n : bar_free e = true → 0 ≤ n ≤ u64_max → ob !! executor_cmd_key e n = row_of (ls e) n;
  ra_bound e : 0 ≤ (ls e).1 ≤ Z.of_nat (length (ls e).2) ∧ Z.of_nat (length (ls e).2) < u64_max;
}.
Definition next_is (ob : Outbox) (ls : Logs) : Prop :=
  ∀ e, bar_free e = true → read_executor_cmd_next ob e = 1 + Z.of_nat (length (ls e).2).
Definition outbox_refines (ob : Outbox) (ls : Logs) : Prop := rows_are ob ls ∧ next_is ob ls.

Lemma cmd_ack_key e n e' : executor_cmd_key e n ≠ executor_cmd_ack_key e'.
Proof. intros E. by apply bar_inj in E as [E _]. Qed.
Lemma cmd_next_key e n e' : executor_cmd_key e n ≠ executor_cmd_next_key e'.
Proof. intros E. by apply bar_inj in E as [E _]. Qed.
Lemma ack_next_key e e' : executor_cmd_ack_key e ≠ executor_cmd_next_key e'.
Proof. intros E. by apply bar_inj in E as [E _]. Qed.
Lemma next_key_inj e e' : executor_cmd_next_key e = executor_cmd_next_key e' → e = e'.
Proof. intros E. by apply bar_inj in E as [_ E]. Qed.
Lemma ack_key_inj e e' : executor_cmd_ack_key e = executor_cmd_ack_key e' → e = e'.
Proof. intros E. by apply bar_inj in E as [_ E]. Qed.
Lemma read_seq_ne ob k r key d : key ≠ k → read_seq (<[k := r]> ob) key d = read_seq ob key d.
Proof. intros H. unfold read_seq. by rewrite lookup_insert_ne. Qed.

Lemma row_of_append acked log b n :
  0 ≤ n → 0 ≤ acked ≤ Z.of_nat (length log) →
  row_of (acked, log ++ [b]) n = if decide (n = 1 + Z.of_nat (length log)) then Some (OR_Command (MkSequenced n b)) else row_of (acked, log) n.
Proof.
  intros Hn Ha. unfold row_of. cbn [fst snd]. case_bool_decide as Hc; [|rewrite decide_False by lia; done].
  destruct (decide (n = 1 + Z.of_nat (length log))) as [->|Hne].
  - rewrite lookup_app_r by lia. by replace (Z.to_nat (1 + Z.of_nat (length log) - 1) - length log)%nat with 0%nat by lia.
  - destruct (decide (Z.to_nat (n - 1) < length log)%nat); [by rewrite lookup_app_l|].
    rewrite !lookup_ge_None_2; [done|lia|rewrite length_app; cbn; lia].
Qed.
Lemma put_command ob ls e b :
  rows_are ob ls → bar_free e = true → Z.of_nat (S (length (ls e).2)) < u64_max →
  let n := 1 + Z.of_nat (length (ls e).2) in
  let ob' := <[executor_cmd_key e n := OR_Command (MkSequenced n b)]> ob in
  rows_are ob' (append_log ls e [b]) ∧ ∀ e', read_executor_cmd_next ob' e' = read_executor_cmd_next ob e'.
Proof.
  intros [Hk Ha Hr Hb] He Hlt n ob'. pose proof (Hb e) as [Hbe Hbe']. split.
  - split.
    + intros k r [[<- _]|[_ H]]%lookup_insert_Some; [|by eapply Hk]. right. exists e, n. split_and!; [done|lia|lia|done].
    + intros e' He'. unfold ob', read_executor_cmd_ack. rewrite read_seq_ne by (intros E; by eapply cmd_ack_key).
      fold (read_executor_cmd_ack ob e'). rewrite Ha by done. unfold append_log.
      destruct (decide (e' = e)) as [->|]; [by rewrite fn_lookup_insert|by rewrite fn_lookup_insert_ne].
    + intros e' m He' Hm. unfold ob', append_log. destruct (decide (e' = e)) as [->|Hne].
      * rewrite fn_lookup_insert. rewrite row_of_append by lia. fold n. case_decide as Hmn; [subst m; apply lookup_insert_eq|].
        rewrite lookup_insert_ne; [rewrite Hr by done; by destruct (ls e)|]. intros E. apply cmd_key_inj in E as [_ E]; [congruence|lia|done].
      * rewrite fn_lookup_insert_ne, lookup_insert_ne by (done || (intros E; apply cmd_key_inj in E as [E _]; [congruence|lia|done])). by apply Hr.
    + intros e'. unfold append_log. destruct (decide (e' = e)) as [->|]; [|rewrite fn_lookup_insert_ne by done; apply Hb].
      rewrite fn_lookup_insert. cbn. rewrite length_app. cbn. lia.
  - intros e'. unfold ob', read_executor_cmd_next. apply read_seq_ne. intros E. by eapply cmd_next_key.
Qed.
Lemma put_next ob ls e v :
  rows_are ob ls →
  rows_are (<[executor_cmd_next_key e := OR_Seq v]> ob) ls ∧
  ∀ e', read_executor_cmd_next (<[executor_cmd_next_key e := OR_Seq v]> ob) e' = if decide (e' = e) then v else read_executor_cmd_next ob e'.
Proof.
  intros [Hk Ha Hr Hb]. split; [split; [|..|done]|].
  - intros k r [[<- _]|[_ H]]%lookup_insert_Some; [left; eauto|by eapply Hk].
  - intros e' He'. unfold read_executor_cmd_ack. rewrite read_seq_ne by (intros E; by eapply ack_next_key). by apply Ha.
  - intros e' n He' Hn. rewrite lookup_insert_ne; [by apply Hr|]. intros E. by eapply cmd_next_key.
  - intros e'. unfold read_executor_cmd_next. case_decide as E; [subst; unfold read_seq; by rewrite lookup_insert_eq|].
    apply read_seq_ne. intros E'%next_key_inj. congruence.
Qed.

(** *** Enqueueing *)

Lemma append_log_nil ls e : append_log ls e [] e = ls e ∧ ∀ e', append_log ls e [] e' = ls e'.
Proof.
  assert (H : ∀ e', append_log ls e [] e' = ls e').
  { intros e'. unfold append_log. destruct (decide (e' = e)) as [->|]; [|by rewrite fn_lookup_insert_ne].
    rewrite fn_lookup_insert, app_nil_r. by destruct (ls e). }
  split; apply H.
Qed.
Lemma append_log_cons ls e b bs e' : append_log (append_log ls e [b]) e bs e' = append_log ls e (b :: bs) e'.
Proof.
  unfold append_log. destruct (decide (e' = e)) as [->|]; [|by rewrite !fn_lookup_insert_ne].
  rewrite !fn_lookup_insert. cbn. by rewrite <-app_assoc.
Qed.
Lemma rows_are_ext ob ls ls' : (∀ e, ls e = ls' e) → rows_are ob ls → rows_are ob ls'.
Proof.
  intros E [Hk Ha Hr Hb]. split; [done|..].
  - intros e He. rewrite <-E. by apply Ha.
  - intros e n He Hn. rewrite <-E. by apply Hr.
  - intros e. rewrite <-E. apply Hb.
Qed.

Lemma number_commands_spec e cs : ∀ ob ls,
  rows_are ob ls → bar_free e = true → Z.of_nat (length (ls e).2 + length cs) < u64_max →
  let next := 1 + Z.of_nat (length (ls e).2) in
  let '(ob', next', cs') := number_commands e ob next cs in
  rows_are ob' (append_log ls e (sq_body <$> cs)) ∧ (∀ e', read_executor_cmd_next ob' e' = read_executor_cmd_next ob e') ∧
  next' = next + Z.of_nat (length cs) ∧ cs' = numbered next (sq_body <$> cs).
Proof.
  induction cs as [|c cs IH]; intros ob ls Hr He Hb next; cbn [number_commands].
  { split_and!; [|done|cbn; lia|done]. eapply rows_are_ext; [|exact Hr]. intros e'. symmetry. apply append_log_nil. }
  cbn [length] in Hb. destruct (put_command ob ls e (sq_body c) Hr He) as [P1 P2]; [lia|]. fold next in P1, P2.
  change (c <| sq_seq := next |>) with (MkSequenced next (sq_body c)).
  set (ob1 := <[executor_cmd_key e next := _]> ob) in *. pose proof (ra_bound _ _ Hr e) as [Hb1 Hb2].
  assert (El : length (append_log ls e [sq_body c] e).2 = S (length (ls e).2)).
  { unfold append_log. rewrite fn_lookup_insert. cbn. rewrite length_app. cbn. lia. }
  assert (Es : saturating_add next 1 = 1 + Z.of_nat (length (append_log ls e [sq_body c] e).2)) by (rewrite El; unfold saturating_add; lia).
  rewrite Es. specialize (IH ob1 _ P1 He ltac:(rewrite El; lia)). cbv zeta in IH.
  destruct (number_commands e ob1 _ cs) as [[ob' next'] cs']. destruct IH as (I1 & I2 & I3 & I4). split_and!.
  - eapply rows_are_ext; [|exact I1]. intros e'. apply append_log_cons.
  - intros e'. by rewrite I2, P2.
  - rewrite I3, El. cbn [length]. lia.
  - rewrite I4, El. cbn. do 2 f_equal. lia.
Qed.
Lemma enqueue_refines ob ls e cs :
  outbox_refines ob ls → bar_free e = true → Z.of_nat (length (ls e).2 + length cs) < u64_max →
  let '(ob', cs') := enqueue_commands_db ob e cs in
  outbox_refines ob' (append_log ls e (sq_body <$> cs)) ∧ cs' = numbered (1 + Z.of_nat (length (ls e).2)) (sq_body <$> cs).
Proof.
  intros [Hr Hn] He Hb. destruct cs as [|c cs]; [cbn|].
  { split; [|done]. split; [eapply rows_are_ext; [|exact Hr]; intros e'; symmetry; apply append_log_nil|].
    intros e' He'. rewrite (proj2 (append_log_nil ls e)). by apply Hn. }
  unfold enqueue_commands_db. rewrite (Hn e He).
  pose proof (number_commands_spec e (c :: cs) ob ls Hr He Hb) as H. cbv zeta in H.
  destruct (number_commands e ob _ (c :: cs)) as [[ob' next'] cs']. destruct H as (H1 & H2 & H3 & H4). split; [|exact H4].
  destruct (put_next ob' _ e next' H1) as [P1 P2]. split; [done|]. intros e' He'. rewrite P2. unfold append_log. case_decide as E.
  - subst e'. rewrite fn_lookup_insert. cbn [snd]. rewrite length_app, length_fmap, H3. cbn [length]. lia.
  - rewrite H2, fn_lookup_insert_ne by congruence. by apply Hn.
Qed.

(** *** Deleting rows *)

Lemma foldl_delete_when {A} (P : string * A → bool) (l : list (string * A)) : ∀ (m : gmap string A) k,
  foldl (λ m kv, if P kv then delete kv.1 m else m) m l !! k = if decide (k ∈ (List.filter P l).*1) then None else m !! k.
Proof.
  induction l as [|kv l IH]; intros m k; cbn [foldl List.filter]; [by rewrite decide_False by set_solver|].
  rewrite IH. destruct (P kv); [|done]. rewrite fmap_cons. destruct (decide (k ∈ (List.filter P l).*1)) as [Hk|Hk].
  - by rewrite decide_True by (right; done).
  - destruct (decide (k = kv.1)) as [->|Hne]; [rewrite decide_True by left; apply lookup_delete_eq|].
    rewrite decide_False by (rewrite not_elem_of_cons; done). by rewrite lookup_delete_ne.
Qed.
(** The rows of one executor are found by its prefix. *)
Lemma scanned_keys ob e k :
  outbox_keys ob → bar_free e = true →
  k ∈ (scan_prefix (executor_cmd_prefix_key e) ob).*1 ↔ ∃ n, 0 ≤ n ≤ u64_max ∧ k = executor_cmd_key e n ∧ is_Some (ob !! k).
Proof.
  intros Hk He. rewrite list_elem_of_fmap. split.
  - intros ([k' r] & -> & [Hr Hp]%elem_of_scan_prefix). cbn. destruct (Hk _ _ Hr) as [(e' & [->| ->])|(e' & n & He' & Hn & ->)].
    + by apply prefix_bar in Hp as [? _].
    + by apply prefix_bar in Hp as [? _].
    + apply cmd_key_prefix in Hp as <-; [|done..]. exists n. split_and!; [lia|lia|done|eauto].
  - intros (n & Hn & -> & r & Hrow). exists (executor_cmd_key e n, r). split; [done|]. apply elem_of_scan_prefix.
    split; [done|by apply cmd_key_prefix].
Qed.
Lemma filter_fst_elem {A} (P : string → bool) (l : list (string * A)) k :
  k ∈ (List.filter (λ kv, P kv.1) l).*1 ↔ k ∈ l.*1 ∧ P k = true.
Proof.
  rewrite !list_elem_of_fmap. split.
  - intros (kv & -> & H). apply list_elem_of_In, filter_In in H as [H ?]. split; [|done]. exists kv. split; [done|]. by apply list_elem_of_In.
  - intros [(kv & -> & H) HP]. exists kv. split; [done|]. apply list_elem_of_In, filter_In. split; [by apply list_elem_of_In|done].
Qed.

Lemma row_of_ack acked eff log n : acked ≤ eff → row_of (eff, log) n = if bool_decide (n ≤ eff) then None else row_of (acked, log) n.
Proof. intros H. unfold row_of. cbn. repeat case_bool_decide; try done; lia. Qed.
Lemma put_ack ob ls e v :
  rows_are ob ls →
  let ob' := <[executor_cmd_ack_key e := OR_Seq v]> ob in
  outbox_keys ob' ∧
  (∀ e', bar_free e' = true → read_executor_cmd_ack ob' e' = if decide (e' = e) then v else (ls e').1) ∧
  (∀ e' n, ob' !! executor_cmd_key e' n = ob !! executor_cmd_key e' n) ∧
  (∀ e', read_executor_cmd_next ob' e' = read_executor_cmd_next ob e').
Proof.
  intros [Hk Ha Hr Hb] ob'. split_and!.
  - intros k r [[<- _]|[_ H]]%lookup_insert_Some; [left; eauto|by eapply Hk].
  - intros e' He'. unfold read_executor_cmd_ack. case_decide as E; [subst; unfold read_seq, ob'; by rewrite lookup_insert_eq|].
    unfold ob'. rewrite read_seq_ne by (intros E'%ack_key_inj; congruence). by apply Ha.
  - intros e' n. apply lookup_insert_ne. intros E. symmetry in E. by eapply cmd_ack_key.
  - intros e'. unfold read_executor_cmd_next. apply read_seq_ne. intros E. symmetry in E. by eapply ack_next_key.
Qed.

(** Dropping command rows leaves the cursors alone. *)
Lemma drop_rows (P : string → bool) (ob : Outbox) e :
  outbox_keys ob → bar_free e = true →
  let ob' := foldl (λ ob kv, if P kv.1 then delete kv.1 ob else ob) ob (scan_prefix (executor_cmd_prefix_key e) ob) in
  outbox_keys ob' ∧
  (∀ e', read_executor_cmd_ack ob' e' = read_executor_cmd_ack ob e') ∧ (∀ e', read_executor_cmd_next ob' e' = read_executor_cmd_next ob e') ∧
  ∀ e' n, 0 ≤ n ≤ u64_max → ob' !! executor_cmd_key e' n =
    if decide (e' = e ∧ P (executor_cmd_key e n) = true) then None else ob !! executor_cmd_key e' n.
Proof.
  intros Hk He ob'. assert (Hl : ∀ k, ob' !! k = if decide (k ∈ (scan_prefix (executor_cmd_prefix_key e) ob).*1 ∧ P k = true) then None else ob !! k).
  { intros k. unfold ob'. rewrite (foldl_delete_when (λ kv, P kv.1)).
    pose proof (filter_fst_elem P (scan_prefix (executor_cmd_prefix_key e) ob) k) as Hf.
    destruct (decide (k ∈ (List.filter _ _).*1)), (decide (k ∈ _ ∧ _)); tauto. }
  assert (Hcursor : ∀ k d, (∀ n, k ≠ executor_cmd_key e n) → read_seq ob' k d = read_seq ob k d).
  { intros k d Hne. unfold read_seq. rewrite Hl, decide_False; [done|]. intros [(n & _ & -> & _)%scanned_keys _]; [|done..]. by eapply Hne. }
  split_and!.
  - intros k r. rewrite Hl. case_decide; [done|]. apply Hk.
  - intros e'. apply Hcursor. intros n E. symmetry in E. by eapply cmd_ack_key.
  - intros e'. apply Hcursor. intros n E. symmetry in E. by eapply cmd_next_key.
  - intros e' n Hn. rewrite Hl. destruct (ob !! executor_cmd_key e' n) as [r|] eqn:Er; [|by repeat case_decide].
    assert (Hi : executor_cmd_key e' n ∈ (scan_prefix (executor_cmd_prefix_key e) ob).*1 ↔ e' = e).
    { rewrite scanned_keys by done. split.
      - intros (m & Hm & E & _). by apply cmd_key_inj in E as [-> _].
      - intros ->. exists n. rewrite Er. eauto. }
    repeat case_decide; try done; rewrite Hi in *; naive_solver.
Qed.
Lemma ack_refines ob ls e s :
  outbox_refines ob ls → bar_free e = true → 0 ≤ s ≤ Z.of_nat (length (ls e).2) →
  outbox_refines (ack_executor_commands ob e s) (<[e := (Z.max s (ls e).1, (ls e).2)]> ls).
Proof.
  intros [Hr Hn] He Hs. unfold ack_executor_commands. rewrite (ra_ack _ _ Hr e He). set (eff := Z.max s (ls e).1).
  destruct (put_ack ob ls e eff Hr) as (A1 & A2 & A3 & A4). set (ob1 := <[executor_cmd_ack_key e := OR_Seq eff]> ob) in *. cbv zeta.
  destruct (drop_rows (row_acked eff) ob1 e A1 He) as (D1 & D2 & D3 & D4). split; [split|].
  - done.
  - intros e' He'. rewrite D2, A2 by done. destruct (decide (e' = e)) as [->|]; [by rewrite fn_lookup_insert|by rewrite fn_lookup_insert_ne].
  - intros e' n He' Hn'. rewrite D4, A3, (ra_rows _ _ Hr) by done.
    destruct (decide (e' = e)) as [->|Hne]; [|rewrite decide_False by naive_solver; by rewrite fn_lookup_insert_ne].
    assert (Hp : row_acked eff (executor_cmd_key e n) = bool_decide (n ≤ eff)) by (unfold row_acked; by rewrite parse_cmd_key).
    rewrite fn_lookup_insert, (row_of_ack (ls e).1) by (unfold eff; lia). rewrite <-Hp. destruct (ls e).
    destruct (row_acked eff _); [by rewrite decide_True|by rewrite decide_False by naive_solver].
  - intros e'. destruct (decide (e' = e)) as [->|]; [|rewrite fn_lookup_insert_ne by done; apply Hr].
    rewrite fn_lookup_insert. pose proof (ra_bound _ _ Hr e). cbn. unfold eff. lia.
  - intros e' He'. rewrite D3, A4, Hn by done. destruct (decide (e' = e)) as [->|]; [by rewrite fn_lookup_insert|by rewrite fn_lookup_insert_ne].
Qed.
Lemma reset_refines ob ls e :
  outbox_refines ob ls → bar_free e = true → outbox_refines (reset_executor_command_outbox ob e) (<[e := (0, [])]> ls).
Proof.
  intros [Hr Hn] He. unfold reset_executor_command_outbox.
  destruct (drop_rows (λ _, true) ob e (ra_keys _ _ Hr) He) as (D1 & D2 & D3 & D4).
  set (ob1 := foldl _ ob _) in *. change (foldl (λ ob kv, delete kv.1 ob) ob (scan_prefix (executor_cmd_prefix_key e) ob)) with ob1.
  assert (Hr1 : rows_are ob1 (<[e := ((ls e).1, replicate (Z.to_nat (ls e).1) "")]> ls)).
  { pose proof (ra_bound _ _ Hr) as Hb. split; [done|..].
    - intros e' He'. rewrite D2, (ra_ack _ _ Hr) by done. destruct (decide (e' = e)) as [->|]; [by rewrite fn_lookup_insert|by rewrite fn_lookup_insert_ne].
    - intros e' n He' Hn'. rewrite D4 by done. destruct (decide (e' = e)) as [->|]; [|rewrite decide_False by naive_solver; rewrite fn_lookup_insert_ne by done; by apply Hr].
      rewrite decide_True, fn_lookup_insert by done. unfold row_of. cbn. case_bool_decide; [|done].
      rewrite lookup_ge_None_2; [done|]. rewrite length_replicate. specialize (Hb e). lia.
    - intros e'. specialize (Hb e'). destruct (decide (e' = e)) as [->|]; [|by rewrite fn_lookup_insert_ne].
      rewrite fn_lookup_insert. cbn. rewrite length_replicate. lia. }
  destruct (put_ack ob1 _ e 0 Hr1) as (A1 & A2 & A3 & A4). set (ob2 := <[executor_cmd_ack_key e := OR_Seq 0]> ob1) in *.
  assert (Hr2 : rows_are ob2 (<[e := (0, [])]> ls)).
  { split; [done|..].
    - intros e' He'. rewrite A2 by done. destruct (decide (e' = e)) as [->|]; [by rewrite fn_lookup_insert|by rewrite !fn_lookup_insert_ne].
    - intros e' n He' Hn'. rewrite A3, (ra_rows _ _ Hr1) by done. destruct (decide (e' = e)) as [->|]; [|by rewrite !fn_lookup_insert_ne].
      rewrite !fn_lookup_insert. unfold row_of. cbn. pose proof (ra_bound _ _ Hr e). repeat case_bool_decide; try done.
      all: by rewrite lookup_ge_None_2 by (rewrite length_replicate; lia).
    - intros e'. destruct (decide (e' = e)) as [->|]; [rewrite fn_lookup_insert; cbn; unfold u64_max; lia|rewrite fn_lookup_insert_ne by done; apply Hr]. }
  destruct (put_next ob2 _ e 1 Hr2) as [P1 P2]. split; [done|]. intros e' He'. rewrite P2.
  destruct (decide (e' = e)) as [->|]; [by rewrite fn_lookup_insert|]. rewrite fn_lookup_insert_ne, A4, D3 by done. by apply Hn.
Qed.

(** *** Loading *)

Lemma elem_of_numbered n bs c : c ∈ numbered n bs ↔ ∃ i b, bs !! i = Some b ∧ c = MkSequenced (n + Z.of_nat i) b.
Proof.
  revert n. induction bs as [|b bs IH]; intros n; cbn [numbered].
  - split; [by intros ?%elem_of_nil|]. by intros (i & b & H & _).
  - rewrite elem_of_cons, IH. split.
    + intros [->|(i & b' & Hi & ->)]; [exists 0%nat, b; split; [done|]; f_equal; lia|]. exists (S i), b'. split; [done|]. f_equal. lia.
    + intros ([|i] & b' & Hi & ->); cbn in Hi; [left; injection Hi as ->; f_equal; lia|right]. exists i, b'. split; [done|]. f_equal. lia.
Qed.
Definition seq_le (c d : Command) : Prop := sq_seq c ≤ sq_seq d.
Lemma numbered_sorted n bs : StronglySorted seq_le (numbered n bs).
Proof.
  revert n. induction bs as [|b bs IH]; intros n; cbn [numbered]; [constructor|]. constructor; [apply IH|]. apply Forall_forall.
  intros c (i & b' & _ & ->)%elem_of_numbered. unfold seq_le. cbn. lia.
Qed.
Lemma numbered_NoDup n bs : NoDup (numbered n bs).
Proof.
  revert n. induction bs as [|b bs IH]; intros n; cbn [numbered]; constructor; [|apply IH].
  intros (i & b' & _ & E)%elem_of_numbered. injection E as E _. lia.
Qed.
Lemma bar_le_cancel a x y : String.le (bar a x) (bar a y) ↔ String.le x y.
Proof. unfold bar. rewrite <-!string_app_assoc. apply app_le_cancel. Qed.
Lemma cmd_key_le e n n' :
  0 ≤ n ≤ u64_max → 0 ≤ n' ≤ u64_max → String.le (executor_cmd_key e n) (executor_cmd_key e n') ↔ n ≤ n'.
Proof.
  intros Hn Hn'. unfold executor_cmd_key. rewrite !bar_le_cancel.
  pose proof (dec_digits_le 20 n n' "" "" (u64_fits _ Hn) (u64_fits _ Hn')) as H. rewrite !string_app_empty in H. rewrite H.
  split; [lia|]. intros Hle. destruct (decide (n = n')); [right; split; done|left; lia].
Qed.
Lemma scanned_row ob ls e kv :
  rows_are ob ls → bar_free e = true → kv ∈ scan_prefix (executor_cmd_prefix_key e) ob →
  ∃ n b, 0 ≤ n ≤ u64_max ∧ kv = (executor_cmd_key e n, OR_Command (MkSequenced n b)) ∧ (ls e).1 < n ∧ (ls e).2 !! Z.to_nat (n - 1) = Some b.
Proof.
  intros Hr He Hkv. assert (Hk : kv.1 ∈ (scan_prefix (executor_cmd_prefix_key e) ob).*1) by by apply list_elem_of_fmap_2.
  apply scanned_keys in Hk as (n & Hn & Ek & _); [|apply Hr|done]. destruct kv as [k r]. cbn in Ek. subst k.
  apply elem_of_scan_prefix in Hkv as [Hkv _]. rewrite (ra_rows _ _ Hr) in Hkv by done. unfold row_of in Hkv. case_bool_decide; [|done].
  apply fmap_Some in Hkv as (b & Hb & ->). exists n, b. done.
Qed.
Lemma NoDup_fst_eq {A B} (l : list (A * B)) x y : NoDup l.*1 → x ∈ l → y ∈ l → x.1 = y.1 → x = y.
Proof.
  intros Hn (i & Hi)%list_elem_of_lookup (j & Hj)%list_elem_of_lookup E. assert (i = j) as ->; [|congruence].
  eapply (NoDup_lookup l.*1); [done|rewrite list_lookup_fmap, Hi; done|rewrite list_lookup_fmap, Hj; cbn; by rewrite E].
Qed.
Lemma load_spec ob ls e :
  outbox_refines ob ls → bar_free e = true →
  load_executor_pending_commands ob e = ((ls e).1, numbered ((ls e).1 + 1) (drop (Z.to_nat (ls e).1) (ls e).2)).
Proof.
  intros [Hr _] He. unfold load_executor_pending_commands. rewrite (ra_ack _ _ Hr e He). f_equal.
  pose proof (ra_bound _ _ Hr e) as [Hb1 Hb2]. set (acked := (ls e).1) in *. set (log := (ls e).2) in *. set (rows := scan_prefix _ ob).
  assert (Hrow : ∀ kv, kv ∈ rows → ∃ n b, 0 ≤ n ≤ u64_max ∧ kv.1 = executor_cmd_key e n ∧ pending_row acked kv = Some (MkSequenced n b) ∧ acked < n ∧ log !! Z.to_nat (n - 1) = Some b).
  { intros kv (n & b & Hn & -> & Ha & Hl)%(scanned_row ob ls); [|done..]. exists n, b. split_and!; [lia|lia|done| |done|done].
    unfold pending_row. cbn [fst snd]. rewrite parse_cmd_key, bool_decide_false by (done || (unfold acked; lia)). done. }
  apply (StronglySorted_unique_strong seq_le).
  - intros c d (kv & Hkv & Ec)%list_elem_of_omap (i & b' & Hi & ->)%elem_of_numbered H1 H2. destruct (Hrow kv Hkv) as (n & b & Hn & _ & Ec' & Ha & Hl).
    rewrite Ec in Ec'. injection Ec' as ->. unfold seq_le in H1, H2. cbn in H1, H2. assert (n = acked + 1 + Z.of_nat i) as -> by lia. f_equal.
    rewrite lookup_drop in Hi. replace (Z.to_nat (acked + 1 + Z.of_nat i - 1)) with (Z.to_nat acked + i)%nat in Hl by lia. congruence.
  - apply (StronglySorted_omap key_le); [|unfold rows; rewrite scan_prefix_filter; apply filter_sorted, ord_iter_sorted].
    intros x y c d Hx Hy Hle Ec Ed. destruct (Hrow x Hx) as (n & b & Hn & Ek & Ec' & _), (Hrow y Hy) as (n' & b' & Hn' & Ek' & Ed' & _).
    rewrite Ec in Ec'. rewrite Ed in Ed'. injection Ec' as ->. injection Ed' as ->. unfold key_le in Hle. rewrite Ek, Ek', cmd_key_le in Hle by done. done.
  - apply numbered_sorted.
  - apply NoDup_Permutation; [|apply numbered_NoDup|].
    + apply NoDup_omap; [|apply (NoDup_fmap_1 fst), NoDup_scan_prefix].
      intros x y c Hx Hy Ec Ed. destruct (Hrow x Hx) as (n & b & Hn & Ek & Ec' & _), (Hrow y Hy) as (n' & b' & Hn' & Ek' & Ed' & _).
      rewrite Ec in Ec'. rewrite Ed in Ed'. rewrite Ec' in Ed'. injection Ed' as -> _.
      apply (NoDup_fst_eq rows); [apply NoDup_scan_prefix|done|done|congruence].
    + intros c. rewrite list_elem_of_omap, elem_of_numbered. split.
      * intros (kv & Hkv & Ec). destruct (Hrow kv Hkv) as (n & b & Hn & _ & Ec' & Ha & Hl). exists (Z.to_nat (n - 1 - acked)), b.
        rewrite lookup_drop. split; [|rewrite Ec in Ec'; injection Ec' as ->; f_equal; lia]. rewrite <-Hl. f_equal. lia.
      * intros (i & b & Hi & ->). rewrite lookup_drop in Hi. assert (Z.to_nat acked + i < length log)%nat by by eapply lookup_lt_Some.
        set (n := acked + 1 + Z.of_nat i). assert (Hn : 0 ≤ n ≤ u64_max) by lia. exists (executor_cmd_key e n, OR_Command (MkSequenced n b)). split.
        -- apply elem_of_scan_prefix. split; [|by apply cmd_key_prefix]. rewrite (ra_rows _ _ Hr) by done. unfold row_of. fold acked log.
           rewrite bool_decide_true by lia. replace (Z.to_nat (n - 1)) with (Z.to_nat acked + i)%nat by lia. by rewrite Hi.
        -- unfold pending_row. cbn [fst snd]. rewrite parse_cmd_key, bool_decide_false by (done || lia). done.
Qed.

(** *** Moving intents *)

Definition moved (e : ExecutorId) (page : list (Z * SchedulerCommandIntent)) : list Bytes :=
  (λ kv, sci_command kv.2) <$> List.filter (λ kv, bool_decide (sci_executor_id kv.2 = e)) page.
Definition append_moved (ls : Logs) (page : list (Z * SchedulerCommandIntent)) : Logs :=
  λ e, ((ls e).1, (ls e).2 ++ moved e page).
Lemma moved_snoc e page kv :
  moved e (page ++ [kv]) = moved e page ++ (if decide (sci_executor_id kv.2 = e) then [sci_command kv.2] else []).
Proof.
  unfold moved. rewrite List.filter_app, fmap_app. f_equal. cbn [List.filter]. case_bool_decide; case_decide; done.
Qed.
Lemma numbered_snoc n bs b : numbered n (bs ++ [b]) = numbered n bs ++ [MkSequenced (n + Z.of_nat (length bs)) b].
Proof.
  revert n. induction bs as [|b' bs IH]; intros n; cbn [numbered app length]; [by rewrite Z.add_0_r|].
  rewrite IH. cbn [app]. do 4 f_equal. lia.
Qed.
Lemma moved_length e page : (length (moved e page) ≤ length page)%nat.
Proof. unfold moved. rewrite length_fmap. apply sublist_length, filter_sublist. Qed.

Record move_state (ob : Outbox) (ls : Logs) (page : list (Z * SchedulerCommandIntent)) (st : Moving) : Prop := {
  ms_rows : rows_are (mv_outbox st) (append_moved ls page);
  ms_next e : read_executor_cmd_next (mv_outbox st) e = read_executor_cmd_next ob e;
  ms_cached e : mv_next_seq_by_executor st !! e =
    match moved e page with [] => None | l => Some (1 + Z.of_nat (length (ls e).2) + Z.of_nat (length l)) end;
  ms_enqueued e : mv_enqueued st !! e = match moved e page with [] => None | l => Some (numbered (1 + Z.of_nat (length (ls e).2)) l) end;
}.
Lemma move_intents_state ob ls intents page :
  outbox_refines ob ls →
  (∀ kv, kv ∈ page → bar_free (sci_executor_id kv.2) = true) →
  (∀ e, Z.of_nat (length (ls e).2 + length page) < u64_max) →
  move_state ob ls page (foldl move_intent (MkMoving ob intents ∅ ∅) page).
Proof.
  intros [Hr Hn]. induction page as [|kv page IH] using rev_ind; intros Hf Hb.
  { split; cbn; [|done|intros e; apply lookup_empty..]. eapply rows_are_ext; [|exact Hr]. intros e. unfold append_moved.
    change (moved e []) with (@nil Bytes). rewrite app_nil_r. by destruct (ls e). }
  destruct IH as [I1 I2 I3 I4]; [intros kv' ?; apply Hf; set_solver|intros e; specialize (Hb e); rewrite length_app in Hb; lia|].
  rewrite foldl_app. cbn [foldl]. set (st := foldl _ _ page) in *. unfold move_intent. set (e := sci_executor_id kv.2).
  assert (He : bar_free e = true) by (apply Hf; set_solver). specialize (Hb e). rewrite length_app in Hb. cbn [length] in Hb.
  pose proof (moved_length e page) as Hml. set (next := match mv_next_seq_by_executor st !! e with Some n => n | None => _ end).
  assert (En : next = 1 + Z.of_nat (length (append_moved ls page e).2)).
  { unfold next. rewrite I3, I2, (Hn e He). cbn. rewrite length_app. destruct (moved e page); cbn; lia. }
  destruct (put_command (mv_outbox st) (append_moved ls page) e (sci_command kv.2) I1 He) as [P1 P2].
  { cbn. rewrite length_app. lia. }
  rewrite <-En in P1, P2. split; cbn [mv_outbox mv_intents mv_next_seq_by_executor mv_enqueued].
  - eapply rows_are_ext; [|exact P1]. intros e'. unfold append_log, append_moved. rewrite moved_snoc. fold e.
    destruct (decide (e' = e)) as [->|]; [rewrite fn_lookup_insert, decide_True by done; cbn; by rewrite app_assoc|].
    rewrite fn_lookup_insert_ne, decide_False by congruence. by rewrite app_nil_r.
  - intros e'. by rewrite P2, I2.
  - intros e'. rewrite moved_snoc. fold e. destruct (decide (e = e')) as [<-|Hne].
    + rewrite lookup_insert_eq, En. unfold saturating_add, append_moved. cbn. rewrite length_app.
      destruct (moved e page) as [|b l]; cbn; [f_equal; lia|]. rewrite length_app. cbn [length] in *. f_equal. lia.
    + rewrite lookup_insert_ne, I3, app_nil_r by done. done.
  - intros e'. rewrite moved_snoc. fold e. destruct (decide (e = e')) as [<-|Hne].
    + rewrite lookup_insert_eq, I4, En. unfold append_moved. cbn. rewrite length_app. destruct (moved e page) as [|b l] eqn:Em.
      * cbn. do 3 f_equal. lia.
      * cbn [default from_option id app]. change (b :: (l ++ [sci_command kv.2])) with ((b :: l) ++ [sci_command kv.2]).
        rewrite numbered_snoc. cbn [length]. do 3 f_equal. apply (f_equal (λ n, [MkSequenced n (sci_command kv.2)])). lia.
    + rewrite lookup_insert_ne, I4, app_nil_r by done. done.
Qed.
Lemma put_nexts (l : list (ExecutorId * Z)) : ∀ ob ls,
  NoDup l.*1 → rows_are ob ls →
  let ob' := foldl (λ ob kv, <[executor_cmd_next_key kv.1 := OR_Seq kv.2]> ob) ob l in
  rows_are ob' ls ∧ (∀ e v, (e, v) ∈ l → read_executor_cmd_next ob' e = v) ∧ (∀ e, e ∉ l.*1 → read_executor_cmd_next ob' e = read_executor_cmd_next ob e).
Proof.
  induction l as [|[e v] l IH]; intros ob ls Hd Hr; cbn [foldl fst snd]; [split_and!; [done|set_solver|done]|].
  rewrite fmap_cons in Hd. apply NoDup_cons in Hd as [He Hd]. destruct (put_next ob ls e v Hr) as [P1 P2].
  destruct (IH _ ls Hd P1) as (I1 & I2 & I3). split_and!; [done|..].
  - intros e' v' [[= -> ->]|Hin]%elem_of_cons; [|by apply I2]. rewrite I3, P2 by done. by rewrite decide_True.
  - intros e'. rewrite fmap_cons, not_elem_of_cons. cbn. intros [Hne Hn']. rewrite I3, P2 by done. by rewrite decide_False.
Qed.
Lemma moved_intents l : ∀ st k, mv_intents (foldl move_intent st l) !! k = if decide (k ∈ l.*1) then None else mv_intents st !! k.
Proof.
  induction l as [|kv l IH]; intros st k; cbn [foldl]; [by rewrite decide_False by set_solver|].
  rewrite IH. cbn [move_intent mv_intents]. rewrite fmap_cons. destruct (decide (k ∈ l.*1)) as [Hk|Hk]; [by rewrite decide_True by (right; done)|].
  destruct (decide (k = kv.1)) as [->|Hne]; [rewrite decide_True by left; apply lookup_delete_eq|].
  rewrite decide_False by (rewrite not_elem_of_cons; done). by rewrite lookup_delete_ne.
Qed.

Section refinement.
Context `{HO : HashOrder}.

Lemma move_refines ob ls intents max_items :
  let page := take max_items (num_iter intents) in
  outbox_refines ob ls →
  (∀ kv, kv ∈ page → bar_free (sci_executor_id kv.2) = true) → (∀ e, Z.of_nat (length (ls e).2 + length page) < u64_max) →
  let '(ob', intents', enqueued) := move_scheduler_command_intents_to_outbox ob intents max_items in
  outbox_refines ob' (append_moved ls page) ∧
  (∀ e, default [] (enqueued !! e) = numbered (1 + Z.of_nat (length (ls e).2)) (moved e page)) ∧
  ∀ k, intents' !! k = if decide (k ∈ page.*1) then None else intents !! k.
Proof.
  intros page Href Hf Hb. unfold move_scheduler_command_intents_to_outbox. fold page.
  destruct (move_intents_state ob ls intents page Href Hf Hb) as [M1 M2 M3 M4]. pose proof (moved_intents page (MkMoving ob intents ∅ ∅)) as M5.
  set (st := foldl move_intent _ page) in *. clearbody st.
  destruct (put_nexts (map_iter (mv_next_seq_by_executor st)) (mv_outbox st) _ (NoDup_map_iter_fst _) M1) as (P1 & P2 & P3).
  split_and!; [split; [done|]|..|exact M5].
  - intros e He. unfold append_moved at 1. cbn. rewrite length_app. pose proof (M3 e) as Hc. destruct (moved e page) as [|b l] eqn:Em.
    + rewrite P3, M2, (proj2 Href e He); [cbn; lia|]. intros ([e' v] & -> & Hin%elem_of_map_iter)%list_elem_of_fmap. cbn in Hc. congruence.
    + rewrite (P2 e _ (proj2 (elem_of_map_iter _ _ _) Hc)). lia.
  - intros e. rewrite M4. by destruct (moved e page).
Qed.

(** C19: the outbox, three kinds of rows under textual keys in one column family,
    implements one log per executor: enqueueing appends and numbers consecutively,
    a page of intents is appended to the logs of its executors in order and removed,
    an acknowledgement only moves the acknowledged position, a reset empties the log,
    and loading returns the commands not yet acknowledged, in order. *)
Theorem outbox_refinement ob ls e :
  outbox_refines ob ls → bar_free e = true →
  load_executor_pending_commands ob e = ((ls e).1, numbered ((ls e).1 + 1) (drop (Z.to_nat (ls e).1) (ls e).2)) ∧
  (∀ cs, Z.of_nat (length (ls e).2 + length cs) < u64_max →
     let '(ob', cs') := enqueue_commands_db ob e cs in
     outbox_refines ob' (append_log ls e (sq_body <$> cs)) ∧ cs' = numbered (1 + Z.of_nat (length (ls e).2)) (sq_body <$> cs)) ∧
  (∀ s, 0 ≤ s ≤ Z.of_nat (length (ls e).2) → outbox_refines (ack_executor_commands ob e s) (<[e := (Z.max s (ls e).1, (ls e).2)]> ls)) ∧
  outbox_refines (reset_executor_command_outbox ob e) (<[e := (0, [])]> ls) ∧
  (∀ intents max_items, let page := take max_items (num_iter intents) in
     (∀ kv, kv ∈ page → bar_free (sci_executor_id kv.2) = true) → (∀ e, Z.of_nat (length (ls e).2 + length page) < u64_max) →
     let '(ob', intents', enqueued) := move_scheduler_command_intents_to_outbox ob intents max_items in
     outbox_refines ob' (append_moved ls page) ∧
     (∀ e, default [] (enqueued !! e) = numbered (1 + Z.of_nat (length (ls e).2)) (moved e page)) ∧
     ∀ k, intents' !! k = if decide (k ∈ page.*1) then None else intents !! k).
Proof.
  intros Href He. split_and!.
  - by apply load_spec.
  - intros cs Hb. by apply enqueue_refines.
  - intros s Hs. by apply ack_refines.
  - by apply reset_refines.
  - intros intents max_items page Hf Hb. by apply move_refines.
Qed.
End refinement.

(** ** Examples *)

Lemma empty_outbox_refines : outbox_refines ∅ (λ _, (0, [])).
Proof.
  split; [split|].
  - intros k r H. by rewrite lookup_empty in H.
  - done.
  - intros e n _ _. rewrite lookup_empty. unfold row_of. cbn. by case_bool_decide.
  - intros e. cbn. unfold u64_max. lia.
  - done.
Qed.
Lemma outbox_refinement_witness :
  let ob := (enqueue_commands_db ∅ "e1" [MkSequenced 0 "add"; MkSequenced 0 "run"]).1 in
  outbox_refines ob (append_log (λ _, (0, [])) "e1" ["add"; "run"]) ∧
  load_executor_pending_commands (ack_executor_commands ob "e1" 1) "e1" = (1, [MkSequenced 2 "run"]).
Proof.
  pose proof (@outbox_refinement canonical_order ∅ (λ _, (0, [])) "e1" empty_outbox_refines eq_refl) as (_ & H & _).
  specialize (H [MkSequenced 0 "add"; MkSequenced 0 "run"] ltac:(vm_compute; reflexivity)).
  split; [exact (proj1 H)|vm_compute; reflexivity].
Defined.
