(* ===== verification/StateStore.v ===== *)
(** * The store

    [IndexifyState] of [state_store/mod.rs]: one write is prepared, dispatched to the
    state machine, accompanied by its events, its entry in the payload queue and its
    command intents, and committed together with the metadata of the counters.  The
    commit itself is RocksDB's: whether it succeeds is an argument, and so is the parser
    of cron expressions. *)
From S2P Require Import Prelude DataModel Updates InMemoryState SchedulerState ContainerScheduler FunctionRuns RequestEvents StateMachine Scanner Recovery.

Inductive CronEvent :=
| CE_Upserted (namespace application_name schedule_id : string)
| CE_Removed (namespace application_name schedule_id : string)
| CE_AllRemoved (namespace application_name : string).
Record PersistentWriteResult := MkPersistentWriteResult {
  pw_should_notify_usage_reporter : bool;
  pw_cron_event : option CronEvent;
  pw_payload_enqueued : bool;
  pw_request_state_changes : list RequestStateChangeEvent;
}.

(** The database and the counters of [IndexifyState]. *)
Record Store := MkStore {
  ss_db : Db;
  ss_db_version : Z;
  ss_state_change_id_seq : Z;
  ss_usage_event_id_seq : Z;
  ss_request_event_id_seq : Z;
  ss_payload_seq : Z;
  ss_intent_seq : Z;
  ss_intent_backlog : Z;
  ss_export_request_events : bool;
}.
#[global] Instance eta_Store : Eta Store := λ s,
  MkStore (ss_db s) (ss_db_version s) (ss_state_change_id_seq s) (ss_usage_event_id_seq s) (ss_request_event_id_seq s)
    (ss_payload_seq s) (ss_intent_seq s) (ss_intent_backlog s) (ss_export_request_events s).

(** [should_enqueue] of [write_in_persistent_store_inner]. *)
Definition should_enqueue (p : RequestPayload) : bool :=
  match p with
  | RP_SchedulerUpdate _ | RP_DeleteApplicationRequest _ _ | RP_DeleteRequestRequest _ _ _ | RP_DeleteContainerPool _ _
  | RP_CreateCronSchedule _ _ _ _ _ | RP_DeleteCronSchedule _ _ _ | RP_AdvanceCronSchedule _ _ _ _ _ => false
  | _ => true
  end.

Section store.
Context `{HO : HashOrder}.
Context (compute_next_fire_time : string → Z → result string Z).

(** The snapshot and sandbox a snapshot report refers to: in memory, or in the
    database. *)
Definition reported_snapshot (im : InMemoryState) (db : Db) (id : SnapshotId) : option Snapshot :=
  match find_snapshot im id with Some (_, s) => Some s | None => find_snapshot_by_id db id end.
Definition snapshotted_sandbox (im : InMemoryState) (db : Db) (s : Snapshot) : option Sandbox :=
  match im_sandboxes im !! sandbox_key_new (snap_namespace s) (snap_sandbox_id s) with
  | Some sb => Some sb
  | None => get_sandbox db (snap_namespace s) (snap_sandbox_id s)
  end.
(** Store the settled snapshot and terminate its sandbox. *)
Definition settle_snapshot (im : InMemoryState) (db : Db) (clock : Z) (s : Snapshot) : Db :=
  let db1 := upsert_snapshot db s in
  match snapshotted_sandbox im db s with
  | Some sb => upsert_sandbox db1 (sb <| sb_status := SS_Terminated |>) clock
  | None => db1
  end.

(** What a payload writes in the transaction, besides the direct write of a
    namespace: the rows, the usage sequence, whether usage was recorded, and the event
    for the cron processor. *)
Definition write_payload (im : InMemoryState) (db : Db) (usage_seq clock now : Z) (p : RequestPayload)
    : result WriteError (Db * Z * bool * option CronEvent) :=
  let plain db' := Ok (db', usage_seq, false, None) in
  match p with
  | RP_InvokeApplication ns app ctx =>
      match create_request db ns app ctx with Ok db' => plain db' | Err e => Err e end
  | RP_SchedulerUpdate u =>
      let '(db', seq, recorded) := handle_scheduler_update db u usage_seq clock in Ok (db', seq, recorded, None)
  | RP_CreateOrUpdateApplication _ app upgrade pools => plain (create_or_update_application db app upgrade pools clock)
  | RP_DeleteApplicationRequest ns name =>
      let '(db', had_cron) := sm_delete_application db ns name clock in
      Ok (db', usage_seq, false, if had_cron then Some (CE_AllRemoved ns name) else None)
  | RP_DeleteRequestRequest ns app req => plain (sm_delete_request db ns app req clock)
  | RP_UpsertExecutor e _ _ _ => plain (sm_upsert_executor db e)
  | RP_CreateCronSchedule id ns app expr input =>
      match create_cron_schedule compute_next_fire_time db id ns app expr input clock now with
      | Ok db' => Ok (db', usage_seq, false, Some (CE_Upserted ns app id))
      | Err e => Err e
      end
  | RP_DeleteCronSchedule ns app id =>
      let '(db', existed) := delete_cron_schedule_by_id db ns app id in
      Ok (db', usage_seq, false, if existed then Some (CE_Removed ns app id) else None)
  | RP_AdvanceCronSchedule ns app id expr fired_at =>
      match advance_cron_schedule compute_next_fire_time db ns app id expr fired_at with Ok db' => plain db' | Err e => Err e end
  | RP_CreateSandbox sb => plain (upsert_sandbox db sb clock)
  | RP_SnapshotSandbox s uri =>
      let db1 := upsert_snapshot db (s <| snap_upload_uri := Some uri |>) in
      match get_sandbox db (snap_namespace s) (snap_sandbox_id s) with
      | Some sb => plain (upsert_sandbox db1 (sb <| sb_status := SS_Snapshotting (snap_id s) |> <| sb_snapshot_id := Some (snap_id s) |>) clock)
      | None => plain db1
      end
  | RP_CompleteSnapshot id uri size =>
      match reported_snapshot im db id with
      | Some s => plain (settle_snapshot im db clock
                           (s <| snap_status := SnapCompleted |> <| snap_uri := Some uri |> <| snap_size_bytes := Some size |>))
      | None => plain db
      end
  | RP_FailSnapshot id error =>
      match reported_snapshot im db id with
      | Some s => plain (settle_snapshot im db clock (s <| snap_status := SnapFailed error |>))
      | None => plain db
      end
  | RP_DeleteSnapshot ns id => plain (sm_delete_snapshot db ns id)
  | RP_CreateContainerPool pool | RP_UpdateContainerPool pool => plain (upsert_container_pool db pool clock)
  | RP_TombstoneContainerPool ns id =>
      match get_sandbox_pool db ns id with
      | Some pool => plain (upsert_container_pool db (pool <| cp_tombstoned := true |>) clock)
      | None => plain db
      end
  | RP_DeleteContainerPool ns id => plain (sm_delete_container_pool db ns id)
  | _ => plain db
  end.

Definition persist_events (db : Db) (seq : Z) (events : list RequestStateChangeEvent) : Db * Z :=
  foldl (λ '(d, n) e, (persist_single_request_state_change_event d n e, wrap64 (n + 1))) (db, seq) events.
(** [persist_scheduler_command_intents]. *)
Definition persist_scheduler_command_intents (db : Db) (seq : Z) (intents : list SchedulerCommandIntent) : Db * Z :=
  foldl (λ '(d, n) i, (d <| db_scheduler_command_intents ::= <[n := i]> |>, wrap64 (n + 1))) (db, seq) intents.

(** [write_in_persistent_store_inner]. *)
Definition persist (commit_ok : bool) (im : InMemoryState) (now : Z) (s : Store) (request : RequestPayload)
    (dequeue_through_seq : option Z) (extra_intents : list SchedulerCommandIntent) : Store * result WriteError PersistentWriteResult :=
  let events := build_request_state_change_events now request in
  let clock := ss_state_change_id_seq s in
  let p := prepare_for_persistence clock request in
  let db0 := match p with
             | RP_CreateNameSpace name bucket region => upsert_namespace (ss_db s) name bucket region clock now
             | _ => ss_db s
             end in
  match write_payload im db0 (ss_usage_event_id_seq s) clock now p with
  | Err e => (s <| ss_db := db0 |>, Err e)
  | Ok (db1, usage_seq, notify, cron) =>
      let '(db2, event_seq) := if ss_export_request_events s then persist_events db1 (ss_request_event_id_seq s) events
                               else (db1, ss_request_event_id_seq s) in
      let enqueue := should_enqueue p in
      let db3 := if enqueue then enqueue_payload db2 (ss_payload_seq s) p else db2 in
      let payload_seq := if enqueue then wrap64 (ss_payload_seq s + 1) else ss_payload_seq s in
      let intents := match p with RP_SchedulerUpdate u => su_scheduler_command_intents u | _ => [] end ++ extra_intents in
      let '(db4, intent_seq) := persist_scheduler_command_intents db3 (ss_intent_seq s) intents in
      let db5 := db4 <| db_sm_meta := Some (MkStateMachineMetadata (ss_db_version s) (ss_state_change_id_seq s) usage_seq event_seq) |> in
      let db6 := match dequeue_through_seq with Some seq => dequeue_payloads db5 seq | None => db5 end in
      let s' := s <| ss_usage_event_id_seq := usage_seq |> <| ss_request_event_id_seq := event_seq |>
                  <| ss_payload_seq := payload_seq |> <| ss_intent_seq := intent_seq |> in
      if commit_ok
      then (s' <| ss_db := db6 |> <| ss_intent_backlog ::= λ n, wrap64 (n + Z.of_nat (length intents)) |>,
            Ok (MkPersistentWriteResult notify cron enqueue events))
      else (s' <| ss_db := db0 |>, Err WE_CommitFailed)
  end.

(** What a committed write wakes: the scheduler, the usage reporter, the cron
    processor and the subscribers of request events. *)
Record Notifications := MkNotifications {
  no_change_event : bool;
  no_usage_event : bool;
  no_cron_event : option CronEvent;
  no_request_state_changes : list RequestStateChangeEvent;
}.
Definition notify_all (w : PersistentWriteResult) : Notifications :=
  MkNotifications (pw_payload_enqueued w) (pw_should_notify_usage_reporter w) (pw_cron_event w) (pw_request_state_changes w).
Definition notify_output (w : PersistentWriteResult) : Notifications :=
  MkNotifications false (pw_should_notify_usage_reporter w) None (pw_request_state_changes w).
Definition notified (f : PersistentWriteResult → Notifications) (r : Store * result WriteError PersistentWriteResult)
    : Store * result WriteError Notifications :=
  (r.1, match r.2 with Ok w => Ok (f w) | Err e => Err e end).
Definition write (commit_ok : bool) (im : InMemoryState) (now : Z) (s : Store) (request : RequestPayload) : Store * result WriteError Notifications :=
  notified notify_all (persist commit_ok im now s request None []).
Definition write_scheduler_output (commit_ok : bool) (im : InMemoryState) (now : Z) (s : Store) (request : RequestPayload)
    : Store * result WriteError Notifications :=
  notified notify_output (persist commit_ok im now s request None []).
Definition write_with_scheduler_command_intents (commit_ok : bool) (im : InMemoryState) (now : Z) (s : Store) (request : RequestPayload)
    (intents : list SchedulerCommandIntent) : Store * result WriteError Notifications :=
  notified notify_output (persist commit_ok im now s request None intents).
Definition write_scheduler_output_and_dequeue (commit_ok : bool) (im : InMemoryState) (now : Z) (s : Store) (request : RequestPayload)
    (dequeue_through_seq : Z) : Store * result WriteError Notifications :=
  notified notify_output (persist commit_ok im now s request (Some dequeue_through_seq) []).

(** [IndexifyState::new]: the counters from the metadata and the queues, the in-memory
    state and the scheduler from the rows. *)
Definition open_store (db : Db) (export : bool) : Store :=
  let meta := default (MkStateMachineMetadata 0 0 0 0) (db_sm_meta db) in
  let intents := num_iter (db_scheduler_command_intents db) in
  MkStore db (smm_db_version meta) (smm_last_change_idx meta) (smm_last_usage_idx meta) (smm_last_request_event_idx meta)
    (match last (read_pending_payloads db) with Some (seq, _) => wrap64 (seq + 1) | None => 0 end)
    (match last intents with Some (seq, _) => Z.min u64_max (seq + 1) | None => 0 end)
    (Z.of_nat (length intents)) export.
Definition open_app_state (catalog : list ExecutorCatalogEntry) (db : Db) : InMemoryState * ContainerScheduler :=
  let meta := default (MkStateMachineMetadata 0 0 0 0) (db_sm_meta db) in
  (load_state (smm_last_change_idx meta) catalog db,
   foldl upsert_executor
     (new_scheduler (get_all_rows_from_cf (db_function_pools db)).*2 (get_all_rows_from_cf (db_sandbox_pools db)).*2)
     (list_executors db)).
End store.

(** ** Rows in numeric order *)

Definition num_le {A} (x y : Z * A) : Prop := x.1 ≤ y.1.
Lemma elem_of_num_iter {A} (m : gmap Z A) k v : (k, v) ∈ num_iter m ↔ m !! k = Some v.
Proof.
  unfold num_iter. rewrite list_elem_of_omap. split.
  - intros (k' & _ & H). apply fmap_Some in H as (v' & H & [= -> ->]). done.
  - intros H. exists k. rewrite H. split; [|done]. rewrite merge_sort_Permutation, elem_of_elements. by apply elem_of_dom_2 in H.
Qed.
Lemma num_iter_fst {A} (m : gmap Z A) : (num_iter m).*1 = merge_sort Z.le (elements (dom m)).
Proof.
  unfold num_iter. assert (H : ∀ k, k ∈ merge_sort Z.le (elements (dom m)) → is_Some (m !! k)).
  { intros k. rewrite merge_sort_Permutation, elem_of_elements. apply elem_of_dom. }
  induction (merge_sort Z.le (elements (dom m))) as [|k l IH]; [done|]. cbn. destruct (H k (list_elem_of_here _ _)) as [v ->]. cbn.
  f_equal. apply IH. intros k' Hk'. apply H. by right.
Qed.
Lemma num_iter_NoDup_fst {A} (m : gmap Z A) : NoDup (num_iter m).*1.
Proof. rewrite num_iter_fst, merge_sort_Permutation. apply NoDup_elements. Qed.
Lemma sorted_by_fst {A} (l : list (Z * A)) : StronglySorted Z.le l.*1 → StronglySorted num_le l.
Proof.
  induction l as [|x l IH]; [constructor|]. rewrite fmap_cons. intros [Hs Hf]%StronglySorted_inv. constructor; [by apply IH|].
  rewrite Forall_fmap in Hf. exact Hf.
Qed.
Lemma num_iter_sorted {A} (m : gmap Z A) : StronglySorted num_le (num_iter m).
Proof. apply sorted_by_fst. rewrite num_iter_fst. apply StronglySorted_merge_sort; apply _. Qed.
(** The enumeration is the sorted list of the rows. *)
Lemma num_iter_unique {A} (m : gmap Z A) (l : list (Z * A)) :
  StronglySorted num_le l → NoDup l.*1 → (∀ k v, (k, v) ∈ l ↔ m !! k = Some v) → num_iter m = l.
Proof.
  intros Hs Hn Hl. apply (StronglySorted_unique_strong num_le); [|apply num_iter_sorted|done|].
  - intros [k v] [k' v'] Hx%elem_of_num_iter Hy%Hl H1 H2. unfold num_le in H1, H2. cbn in H1, H2. assert (k = k') as <- by lia. congruence.
  - apply NoDup_Permutation; [apply (NoDup_fmap_1 fst), num_iter_NoDup_fst|by apply (NoDup_fmap_1 fst)|].
    intros [k v]. by rewrite elem_of_num_iter, Hl.
Qed.
Lemma num_iter_snoc {A} (m : gmap Z A) n v : (∀ k x, m !! k = Some x → k < n) → num_iter (<[n := v]> m) = num_iter m ++ [(n, v)].
Proof.
  intros Hn. assert (Hnone : m !! n = None) by (destruct (m !! n) as [x|] eqn:E; [specialize (Hn _ _ E); lia|done]). apply num_iter_unique.
  - apply StronglySorted_app_2; [|apply num_iter_sorted|repeat constructor]. intros [k x] y Hx%elem_of_num_iter ->%list_elem_of_singleton.
    specialize (Hn _ _ Hx). unfold num_le. cbn. lia.
  - rewrite fmap_app. apply NoDup_app. split_and!; [apply num_iter_NoDup_fst| |apply NoDup_singleton].
    intros k ([k' x] & -> & Hx%elem_of_num_iter)%list_elem_of_fmap. cbn. rewrite list_elem_of_singleton. specialize (Hn _ _ Hx). lia.
  - intros k x. rewrite elem_of_app, elem_of_num_iter, list_elem_of_singleton, lookup_insert_Some. split.
    + intros [H|[= -> ->]]; [right; split; [specialize (Hn _ _ H); lia|done]|by left].
    + intros [[-> ->]|[_ H]]; [by right|by left].
Qed.
Lemma num_iter_filter {A} (m m' : gmap Z A) (P : Z → bool) :
  (∀ k, m' !! k = if P k then m !! k else None) → num_iter m' = List.filter (λ kv, P kv.1) (num_iter m).
Proof.
  intros Hm. apply num_iter_unique.
  - apply filter_sorted, num_iter_sorted.
  - eapply sublist_NoDup; [apply (num_iter_NoDup_fst m)|]. apply fmap_sublist, filter_sublist.
  - intros k v. rewrite list_elem_of_In, filter_In, <-list_elem_of_In, elem_of_num_iter, Hm. cbn. destruct (P k); naive_solver.
Qed.

(** ** The payload queue *)

Lemma dequeue_queue db t :
  num_iter (db_payload_queue (dequeue_payloads db t)) = List.filter (λ kv, bool_decide (t < kv.1)) (num_iter (db_payload_queue db)).
Proof.
  pose proof (num_iter_filter (db_payload_queue db) (db_payload_queue (dequeue_payloads db t)) (λ k, bool_decide (t < k))) as H. apply H.
  clear H. intros k. unfold dequeue_payloads.
  rewrite (take_while_sorted _ num_le) by (first [apply num_iter_sorted|intros a b _ _ Hab Hb; rewrite bool_decide_eq_true in *; unfold num_le in Hab; lia]).
  assert (E : ∀ l d, db_payload_queue (foldl (λ d k, d <| db_payload_queue ::= delete k |>) d l) = foldl (λ m k, delete k m) (db_payload_queue d) l).
  { induction l as [|x l IH]; intros d; [done|]. cbn [foldl]. by rewrite IH. }
  rewrite E, lookup_foldl_delete. case_bool_decide as Hk; case_bool_decide as Ht; try done.
  - apply list_elem_of_fmap in Hk as ([k' v] & -> & Hk). apply list_elem_of_In, filter_In in Hk as [_ Hk%bool_decide_eq_true]. cbn in *. lia.
  - destruct (db_payload_queue db !! k) as [v|] eqn:Ev; [|done]. destruct Hk. apply list_elem_of_fmap. exists (k, v). split; [done|].
    apply list_elem_of_In, filter_In. split; [by apply list_elem_of_In, elem_of_num_iter|]. apply bool_decide_eq_true. cbn. lia.
Qed.

Definition queue (s : Store) : list (Z * RequestPayload) := read_pending_payloads (ss_db s).

Section queue.
Context `{HO : HashOrder} (compute_next_fire_time : string → Z → result string Z).

Lemma delete_request_queue d ns app req clock : db_payload_queue (sm_delete_request d ns app req clock) = db_payload_queue d.
Proof.
  unfold sm_delete_request. destruct (db_request_ctx d !! _); [|done]. cbn [db_payload_queue set_field].
  change (db_payload_queue (?x <| db_request_ctx ::= _ |> <| db_request_ctx_secondary_index ::= _ |>)) with (db_payload_queue x).
  rewrite (foldl_keeps db_payload_queue) by (intros ? kv; by case_bool_decide).
  by rewrite !(foldl_keeps db_payload_queue).
Qed.
Lemma update_requests_queue d a : db_payload_queue (update_requests_for_application d a) = db_payload_queue d.
Proof.
  unfold update_requests_for_application. set (step := λ '(d, updated) '(key, p), _). set (rows := scan_prefix _ _).
  assert (H : ∀ acc, db_payload_queue (foldl step acc rows).1 = db_payload_queue acc.1).
  { intros acc. apply (foldl_keeps (λ acc : Db * gmap string PersistedRequestCtx, db_payload_queue acc.1)). intros [d' upd] [k p]. cbn.
    destruct (_ && _); [|done]. cbn. apply foldl_keeps. intros x kv. unfold upgrade_run_row. by destruct (_ && _). }
  specialize (H (d, ∅)). destruct (foldl step (d, ∅) rows) as [d1 updated]. rewrite (foldl_keeps db_payload_queue) by done. exact H.
Qed.
Lemma upsert_pool_queue d p clock : db_payload_queue (upsert_container_pool d p clock) = db_payload_queue d.
Proof. unfold upsert_container_pool. by destruct (is_function_pool _). Qed.
Lemma create_application_queue d a up pools clock : db_payload_queue (create_or_update_application d a up pools clock) = db_payload_queue d.
Proof.
  unfold create_or_update_application, delete_function_pools_by_prefix. rewrite (foldl_keeps db_payload_queue) by (intros; apply upsert_pool_queue).
  rewrite (foldl_keeps db_payload_queue) by done. destruct up; [by rewrite update_requests_queue|done].
Qed.
Lemma delete_application_queue d ns name clock : db_payload_queue (sm_delete_application d ns name clock).1 = db_payload_queue d.
Proof.
  unfold sm_delete_application, delete_cron_schedules_for_app, delete_function_pools_by_prefix. cbn [fst].
  rewrite (foldl_keeps db_payload_queue) by done.
  rewrite (foldl_keeps db_payload_queue) by (intros x kv; unfold delete_version_row; by destruct (av_code kv.2)).
  rewrite (foldl_keeps db_payload_queue) by (intros; apply delete_request_queue).
  change (db_payload_queue (?x <| db_applications ::= _ |>)) with (db_payload_queue x). by rewrite (foldl_keeps db_payload_queue).
Qed.
Lemma create_request_queue d ns app ctx d' : create_request d ns app ctx = Ok d' → db_payload_queue d' = db_payload_queue d.
Proof.
  unfold create_request. destruct (db_applications d !! _) as [a|]; [|done]. destruct (app_state a); [|done]. destruct (app_tombstoned a); [done|].
  destruct (db_request_ctx d !! _); [done|]. intros [= <-].
  change (db_payload_queue (?x <| db_request_ctx_secondary_index ::= _ |>)) with (db_payload_queue x). by rewrite !(foldl_keeps db_payload_queue).
Qed.
Lemma upsert_allocations_queue l clock : ∀ acc,
  db_payload_queue (foldl (λ '(d, seq, recorded) a, let '(d1, seq1, r) := upsert_allocation d a seq clock in (d1, seq1, recorded || r)) acc l).1.1 = db_payload_queue acc.1.1.
Proof.
  intros acc. apply (foldl_keeps (λ acc : Db * Z * bool, db_payload_queue acc.1.1)). intros [[d seq] rec] a. unfold upsert_allocation.
  destruct (db_allocations d !! _) as [x|]; [|done]. destruct (allocation_is_terminal x); [done|]. case_bool_decide; [done|].
  by destruct (al_execution_duration_ms a).
Qed.
Lemma scheduler_update_queue d u seq clock : db_payload_queue (handle_scheduler_update d u seq clock).1.1 = db_payload_queue d.
Proof.
  unfold handle_scheduler_update, upsert_allocations.
  match goal with |- context [foldl _ (?d4, seq, false) (su_updated_allocations u)] => set (db4 := d4) end.
  pose proof (upsert_allocations_queue (su_updated_allocations u) clock (db4, seq, false)) as H.
  destruct (foldl _ (db4, seq, false) (su_updated_allocations u)) as [[d5 s5] r5]. cbn [fst] in H |- *.
  do 2 rewrite (foldl_keeps db_payload_queue) by (intros; exact eq_refl). rewrite H. unfold db4.
  do 4 rewrite (foldl_keeps db_payload_queue) by (intros; exact eq_refl). exact eq_refl.
Qed.
Lemma settle_snapshot_queue im d clock sn : db_payload_queue (settle_snapshot im d clock sn) = db_payload_queue d.
Proof. unfold settle_snapshot. destruct (snapshotted_sandbox im d _); exact eq_refl. Qed.
Lemma write_payload_queue im d seq clock now p d' seq' b ce :
  write_payload compute_next_fire_time im d seq clock now p = Ok (d', seq', b, ce) → db_payload_queue d' = db_payload_queue d.
Proof.
  unfold write_payload. destruct p.
  - destruct (create_request d namespace application_name ctx) as [x|] eqn:E; [|done]. intros [= <- <- <- <-]. by eapply create_request_queue.
  - intros [= <- <- <- <-]. exact eq_refl.
  - intros [= <- <- <- <-]. exact eq_refl.
  - intros [= <- <- <- <-]. apply create_application_queue.
  - intros [= <- <- <- <-]. exact eq_refl.
  - intros [= <- <- <- <-]. exact eq_refl.
  - intros [= <- <- <- <-]. exact eq_refl.
  - intros [= <- <- <- <-]. exact eq_refl.
  - intros [= <- <- <- <-]. exact eq_refl.
  - intros [= <- <- <- <-]. exact eq_refl.
  - destruct (get_sandbox d _ _); intros [= <- <- <- <-]; exact eq_refl.
  - destruct (reported_snapshot im d _); intros [= <- <- <- <-]; [apply settle_snapshot_queue|exact eq_refl].
  - destruct (reported_snapshot im d _); intros [= <- <- <- <-]; [apply settle_snapshot_queue|exact eq_refl].
  - intros [= <- <- <- <-]. exact eq_refl.
  - intros [= <- <- <- <-]. apply upsert_pool_queue.
  - intros [= <- <- <- <-]. apply upsert_pool_queue.
  - intros [= <- <- <- <-]. exact eq_refl.
  - unfold create_cron_schedule. destruct (compute_next_fire_time _ _); [|done]. intros [= <- <- <- <-]. exact eq_refl.
  - unfold delete_cron_schedule_by_id. destruct (db_cron_schedules d !! _); intros [= <- <- <- <-]; exact eq_refl.
  - unfold advance_cron_schedule. destruct (db_cron_schedules d !! _); [|done]. destruct (compute_next_fire_time _ _); [|done]. intros [= <- <- <- <-]. exact eq_refl.
  - pose proof (scheduler_update_queue d update seq clock) as H. destruct (handle_scheduler_update d update seq clock) as [[x s] r]. intros [= <- <- <- <-]. exact H.
  - pose proof (delete_application_queue d namespace name clock) as H. destruct (sm_delete_application d namespace name clock) as [x h]. intros [= <- <- <- <-]. exact H.
  - intros [= <- <- <- <-]. apply delete_request_queue.
  - destruct (get_sandbox_pool d _ _); intros [= <- <- <- <-]; [apply upsert_pool_queue|exact eq_refl].
  - intros [= <- <- <- <-]. exact eq_refl.
Qed.
End queue.

(** ** The contract of the payload queue *)

(** Every queued sequence number is below the next one. *)
Definition queue_wf (s : Store) : Prop := ∀ seq p, db_payload_queue (ss_db s) !! seq = Some p → 0 ≤ seq < ss_payload_seq s.

(** The abstract queue: entries in arrival order. *)
Definition queue_push (q : list (Z * RequestPayload)) (seq : Z) (p : RequestPayload) : list (Z * RequestPayload) :=
  if should_enqueue p then q ++ [(seq, p)] else q.
Definition queue_pop (q : list (Z * RequestPayload)) (through : option Z) : list (Z * RequestPayload) :=
  match through with
  | Some t => List.filter (λ kv, bool_decide (t < kv.1)) q
  | None => q
  end.

Section contract.
Context `{HO : HashOrder} (compute_next_fire_time : string → Z → result string Z).
Local Notation persist := (persist compute_next_fire_time).

Lemma persist_events_queue events : ∀ db seq, db_payload_queue (persist_events db seq events).1 = db_payload_queue db.
Proof.
  intros db seq. apply (foldl_keeps (λ acc : Db * Z, db_payload_queue acc.1)). by intros [d n] e.
Qed.
Lemma persist_intents_queue intents : ∀ db seq, db_payload_queue (persist_scheduler_command_intents db seq intents).1 = db_payload_queue db.
Proof.
  intros db seq. apply (foldl_keeps (λ acc : Db * Z, db_payload_queue acc.1)). by intros [d n] e.
Qed.

(** One write on the payload queue. *)
Lemma persist_queue ok im now s r through extra :
  queue_wf s → 0 ≤ ss_payload_seq s < u64_max →
  let p := prepare_for_persistence (ss_state_change_id_seq s) r in
  match persist ok im now s r through extra with
  | (s', Ok w) =>
      queue s' = queue_pop (queue_push (queue s) (ss_payload_seq s) p) through ∧ pw_payload_enqueued w = should_enqueue p ∧
      ss_payload_seq s' = ss_payload_seq s + (if should_enqueue p then 1 else 0)
  | (s', Err _) => queue s' = queue s ∧ ss_payload_seq s ≤ ss_payload_seq s' ≤ ss_payload_seq s + (if should_enqueue p then 1 else 0)
  end ∧ queue_wf (persist ok im now s r through extra).1.
Proof.
  intros Hwf Hseq p. unfold persist. fold p.
  set (db0 := match p with RP_CreateNameSpace _ _ _ => _ | _ => _ end).
  assert (E0 : db_payload_queue db0 = db_payload_queue (ss_db s)) by (unfold db0; by destruct p).
  destruct (write_payload compute_next_fire_time im db0 _ _ now p) as [[[[db1 useq] notify] cron]|e] eqn:Ew.
  2:{ cbn. unfold queue_wf, queue, read_pending_payloads. cbn. rewrite E0. split; [split; [done|destruct (should_enqueue p); lia]|done]. }
  apply write_payload_queue in Ew. set (ev := if ss_export_request_events s then _ else _).
  assert (E2 : db_payload_queue ev.1 = db_payload_queue db1).
  { unfold ev. destruct (ss_export_request_events s); [apply persist_events_queue|done]. }
  destruct ev as [db2 eseq]. cbn [fst] in E2. cbv zeta.
  set (db3 := if should_enqueue p then _ else db2). set (intents := _ ++ extra).
  assert (Hnum : num_iter (db_payload_queue db3) = queue_push (queue s) (ss_payload_seq s) p).
  { unfold db3, queue_push, queue, read_pending_payloads, enqueue_payload. destruct (should_enqueue p); cbn [db_payload_queue set_field].
    - change (num_iter (<[ss_payload_seq s := p]> (db_payload_queue db2)) = num_iter (db_payload_queue (ss_db s)) ++ [(ss_payload_seq s, p)]).
      rewrite E2, Ew, E0. apply num_iter_snoc. intros k x Hk. apply Hwf in Hk. lia.
    - by rewrite E2, Ew, E0. }
  pose proof (persist_intents_queue intents db3 (ss_intent_seq s)) as E4.
  destruct (persist_scheduler_command_intents db3 (ss_intent_seq s) intents) as [db4 iseq]. cbn [fst] in E4.
  assert (Hw : should_enqueue p = true → wrap64 (ss_payload_seq s + 1) = ss_payload_seq s + 1) by (intros _; apply wrap64_id; unfold in_u64, u64_max in *; lia).
  set (db5 := db4 <| db_sm_meta := _ |>). change (db_payload_queue db4) with (db_payload_queue db5) in E4.
  set (db6 := match through with Some _ => _ | None => _ end).
  assert (H6 : num_iter (db_payload_queue db6) = queue_pop (queue_push (queue s) (ss_payload_seq s) p) through).
  { rewrite <-Hnum, <-E4. unfold db6. destruct through; [apply dequeue_queue|done]. }
  destruct ok.
  - split; [split_and!; [exact H6|exact eq_refl|]|].
    + cbn. destruct (should_enqueue p); [by apply Hw|lia].
    + intros k x Hk. cbn [fst] in *. change (db_payload_queue db6 !! k = Some x) in Hk. apply elem_of_num_iter in Hk. rewrite H6 in Hk.
      assert (Hin : (k, x) ∈ queue_push (queue s) (ss_payload_seq s) p).
      { destruct through; cbn in Hk; [|done]. by apply list_elem_of_In, filter_In in Hk as [Hk%list_elem_of_In _]. }
      cbn. unfold queue_push in Hin. destruct (should_enqueue p).
      * rewrite Hw by done. apply elem_of_app in Hin as [Hin%elem_of_num_iter%Hwf|Hin%list_elem_of_singleton]; [lia|]. injection Hin as -> ->. lia.
      * by apply elem_of_num_iter, Hwf in Hin.
  - cbn. unfold queue_wf, queue, read_pending_payloads. cbn. rewrite E0. split.
    + split; [done|]. destruct (should_enqueue p); [rewrite Hw by done|]; lia.
    + intros k x Hk%Hwf. destruct (should_enqueue p); [rewrite Hw by done|]; lia.
Qed.

(** A scheduler output is rejected only by the commit. *)
Lemma scheduler_write_ok ok im now s u through extra : is_ok (persist ok im now s (RP_SchedulerUpdate u) through extra).2 = ok.
Proof.
  unfold persist. cbn [prepare_for_persistence write_payload]. destruct (handle_scheduler_update _ _ _ _) as [[d1 useq] rec].
  destruct (if ss_export_request_events s then _ else _) as [d2 eseq]. cbn [should_enqueue].
  destruct (persist_scheduler_command_intents _ _ _) as [d4 iseq]. by destruct ok.
Qed.
Lemma last_max (l : list (Z * RequestPayload)) x : StronglySorted num_le l → last l = Some x → ∀ y, y ∈ l → y.1 ≤ x.1.
Proof.
  intros Hs Hl y Hy. apply last_Some in Hl as (l' & ->). apply elem_of_app in Hy as [Hy|Hy%list_elem_of_singleton]; [|subst; lia].
  apply (StronglySorted_app_1_elem_of num_le _ _ y x Hs); [done|]. by apply list_elem_of_singleton.
Qed.
(** *** Writers between a read of the queue and the commit of its results *)

(** One write by any task: a client's, or the processor's own immediate write. *)
Record Writing := MkWriting {
  wr_commit_ok : bool;
  wr_im : InMemoryState;
  wr_now : Z;
  wr_request : RequestPayload;
  wr_intents : list SchedulerCommandIntent;
}.
Definition do_write (s : Store) (w : Writing) : Store * result WriteError Notifications :=
  write_with_scheduler_command_intents compute_next_fire_time (wr_commit_ok w) (wr_im w) (wr_now w) s (wr_request w) (wr_intents w).
(** The entry an acknowledged write leaves in the queue. *)
Definition acknowledged (s : Store) (w : Writing) : list (Z * RequestPayload) :=
  if is_ok (do_write s w).2 then queue_push [] (ss_payload_seq s) (prepare_for_persistence (ss_state_change_id_seq s) (wr_request w)) else [].
Fixpoint all_acknowledged (s : Store) (ws : list Writing) : list (Z * RequestPayload) :=
  match ws with
  | [] => []
  | w :: ws => acknowledged s w ++ all_acknowledged (do_write s w).1 ws
  end.

Lemma do_write_queue s w :
  queue_wf s → 0 ≤ ss_payload_seq s < u64_max →
  queue (do_write s w).1 = queue s ++ acknowledged s w ∧ queue_wf (do_write s w).1 ∧
  ss_payload_seq s ≤ ss_payload_seq (do_write s w).1 ≤ ss_payload_seq s + 1 ∧ Forall (λ e, e.1 = ss_payload_seq s) (acknowledged s w).
Proof.
  intros Hwf Hseq. unfold acknowledged, do_write, write_with_scheduler_command_intents, notified.
  destruct (persist_queue (wr_commit_ok w) (wr_im w) (wr_now w) s (wr_request w) None (wr_intents w) Hwf Hseq) as [H Hw].
  destruct (persist _ _ _ s _ None _) as [s' [r|e]]; cbn in H, Hw |- *.
  - destruct H as (Hq & _ & Hs). unfold queue_push in *. split_and!; [|done|destruct (should_enqueue _); lia..|].
    + rewrite Hq. destruct (should_enqueue _); [done|by rewrite app_nil_r].
    + destruct (should_enqueue _); repeat constructor.
  - destruct H as [Hq Hs]. rewrite Hq, app_nil_r. split_and!; [done|done|lia|destruct (should_enqueue _); lia|constructor].
Qed.
Lemma do_writes_queue ws : ∀ s,
  queue_wf s → 0 ≤ ss_payload_seq s → ss_payload_seq s + Z.of_nat (length ws) < u64_max →
  let s' := foldl (λ s w, (do_write s w).1) s ws in
  queue s' = queue s ++ all_acknowledged s ws ∧ queue_wf s' ∧
  ss_payload_seq s ≤ ss_payload_seq s' ≤ ss_payload_seq s + Z.of_nat (length ws) ∧ Forall (λ e, ss_payload_seq s ≤ e.1) (all_acknowledged s ws).
Proof.
  induction ws as [|w ws IH]; intros s Hwf H0 Hlen; cbn [foldl all_acknowledged length] in *.
  { rewrite app_nil_r. split_and!; [done|done|lia|lia|constructor]. }
  destruct (do_write_queue s w Hwf ltac:(lia)) as (Hq & Hw & Hs & Ha).
  destruct (IH (do_write s w).1 Hw ltac:(lia) ltac:(lia)) as (Hq' & Hw' & Hs' & Ha').
  split_and!; [|done|lia|lia|].
  - by rewrite Hq', Hq, app_assoc.
  - apply Forall_app. split; [eapply Forall_impl; [exact Ha|]|eapply Forall_impl; [exact Ha'|]]; intros e He; cbv beta in He |- *; lia.
Qed.
Lemma pop_pending (q new : list (Z * RequestPayload)) (m : Z) :
  Forall (λ e, e.1 ≤ m) q → Forall (λ e, m < e.1) new → queue_pop (q ++ new) (Some m) = new.
Proof.
  intros Hq Hn. cbn. rewrite List.filter_app.
  assert (E1 : List.filter (λ kv, bool_decide (m < kv.1)) q = []).
  { induction Hq as [|e q He _ IH]; [done|]. cbn. by rewrite bool_decide_eq_false_2 by lia. }
  assert (E2 : List.filter (λ kv, bool_decide (m < kv.1)) new = new).
  { clear E1. induction Hn as [|e l He _ IH]; [done|]. cbn. rewrite bool_decide_eq_true_2 by lia. by rewrite IH. }
  by rewrite E1, E2.
Qed.

(** A restart finds the queue as it was left. *)
Lemma open_store_queue db export :
  (∀ seq p, db_payload_queue db !! seq = Some p → 0 ≤ seq < u64_max) →
  queue (open_store db export) = num_iter (db_payload_queue db) ∧ queue_wf (open_store db export) ∧ 0 ≤ ss_payload_seq (open_store db export) ≤ u64_max.
Proof.
  intros Hb. split; [done|]. unfold queue_wf. cbn.
  destruct (last (read_pending_payloads db)) as [[seq p]|] eqn:El; cbn.
  - assert (Hin : 0 ≤ seq < u64_max). { apply last_Some in El as (l & El). apply (Hb _ p), elem_of_num_iter. fold (read_pending_payloads db). rewrite El. apply elem_of_app. right. by apply list_elem_of_singleton. }
    rewrite wrap64_id by (unfold in_u64, u64_max in *; lia). split; [|lia]. intros k x Hk. split; [apply Hb in Hk; lia|].
    apply elem_of_num_iter in Hk. apply (last_max _ _ (num_iter_sorted _) El) in Hk. cbn in Hk. lia.
  - apply last_None in El. split; [|unfold u64_max; lia]. intros k x Hk%elem_of_num_iter. unfold read_pending_payloads in El. rewrite El in Hk. by apply not_elem_of_nil in Hk.
Qed.

(** C20: the payload queue is a first-in-first-out queue that neither loses nor
    repeats a payload.  Let the processor read the pending payloads, and let any
    writes, failed ones included, happen before its results are written: then the
    queue is the pending payloads followed by exactly the acknowledged ones in the
    order of their acknowledgements; if the results commit, exactly the pending ones
    are gone; if they do not, the queue is unchanged; and a restart at any of these
    points finds the same queue and numbers later payloads behind it. *)
Theorem payload_queue_fifo s ws commit_ok im now u max_seq p :
  queue_wf s → 0 ≤ ss_payload_seq s → ss_payload_seq s + Z.of_nat (length ws) < u64_max → last (queue s) = Some (max_seq, p) →
  let s1 := foldl (λ s w, (do_write s w).1) s ws in
  let '(s2, r) := write_scheduler_output_and_dequeue compute_next_fire_time commit_ok im now s1 (RP_SchedulerUpdate u) max_seq in
  queue s1 = queue s ++ all_acknowledged s ws ∧
  queue s2 = (if is_ok r then all_acknowledged s ws else queue s1) ∧
  is_ok r = commit_ok ∧
  (∀ x export, x = s1 ∨ x = s2 → let x' := open_store (ss_db x) export in queue x' = queue x ∧ queue_wf x').
Proof.
  intros Hwf H0 Hlen Hlast s1. destruct (do_writes_queue ws s Hwf H0 Hlen) as (Hq & Hw1 & Hs1 & Ha). fold s1 in Hq, Hw1, Hs1.
  unfold write_scheduler_output_and_dequeue, notified.
  pose proof (scheduler_write_ok commit_ok im now s1 u (Some max_seq) []) as Hok.
  destruct (persist_queue commit_ok im now s1 (RP_SchedulerUpdate u) (Some max_seq) [] Hw1 ltac:(lia)) as [H Hw2].
  destruct (persist _ _ _ s1 _ _ _) as [s2 r]. cbn [fst snd] in *.
  assert (Hmax : Forall (λ e, e.1 ≤ max_seq) (queue s)).
  { apply Forall_forall. intros e He. by apply (last_max _ _ (num_iter_sorted _) Hlast). }
  assert (Hm : max_seq < ss_payload_seq s).
  { apply last_Some in Hlast as (l & Hl). eapply Hwf, elem_of_num_iter. change (num_iter _) with (queue s). rewrite Hl. apply elem_of_app. right. by apply list_elem_of_singleton. }
  assert (Hnew : Forall (λ e, max_seq < e.1) (all_acknowledged s ws)) by (eapply Forall_impl; [exact Ha|cbv beta; intros; lia]).
  assert (Hb : ∀ x, queue_wf x → ss_payload_seq x ≤ u64_max → ∀ seq y, db_payload_queue (ss_db x) !! seq = Some y → 0 ≤ seq < u64_max)
    by (intros x Hx Hle seq y Hy%Hx; lia).
  split; [exact Hq|]. split_and!.
  - destruct r as [w|e]; [|by destruct H]. destruct H as (H & _ & _). cbn [is_ok]. rewrite H. change (queue_push ?q _ _) with q.
    rewrite Hq. by apply pop_pending.
  - by destruct r.
  - intros x export Hx. destruct (open_store_queue (ss_db x) export) as (E & Hx' & _).
    { destruct Hx as [->| ->]; apply Hb; [done|lia|done|]. destruct r; [destruct H as (_ & _ & H)|destruct H as [_ H]]; cbn in H; lia. }
    by split.
Qed.
End contract.

(** *** Witness *)

Definition no_cron : string → Z → result string Z := λ _ _, Err "no cron expressions"%string.
(** One payload pending; then one acknowledged write, one that fails to commit and one
    more. *)
Definition pending_ex : Store :=
  (@write canonical_order no_cron true empty_state 5 (open_store empty_db false) (RP_CreateNameSpace "a" None None)).1.
Definition writes_ex : list Writing :=
  [MkWriting true empty_state 6 (RP_CreateNameSpace "b" None None) []; MkWriting false empty_state 7 (RP_CreateNameSpace "c" None None) [];
   MkWriting true empty_state 8 (RP_CreateNameSpace "d" None None) []].
Lemma payload_queue_fifo_witness :
  queue pending_ex = [(0, RP_CreateNameSpace "a" None None)] ∧
  let s1 := foldl (λ s w, (@do_write canonical_order no_cron s w).1) pending_ex writes_ex in
  let '(s2, r) := @write_scheduler_output_and_dequeue canonical_order no_cron true empty_state 9 s1 (RP_SchedulerUpdate empty_update) 0 in
  is_ok r = true ∧ queue s2 = [(1, RP_CreateNameSpace "b" None None); (3, RP_CreateNameSpace "d" None None)].
Proof.
  split; [vm_compute; reflexivity|].
  pose proof (@payload_queue_fifo canonical_order no_cron pending_ex writes_ex true empty_state 9 empty_update 0 (RP_CreateNameSpace "a" None None)) as H.
  assert (Hwf : queue_wf pending_ex).
  { intros k x Hk%elem_of_num_iter. change (num_iter (db_payload_queue (ss_db pending_ex))) with (queue pending_ex) in Hk.
    replace (queue pending_ex) with [(0, RP_CreateNameSpace "a" None None)] in Hk by (vm_compute; reflexivity).
    apply list_elem_of_singleton in Hk. injection Hk as -> ->. by vm_compute. }
  specialize (H Hwf ltac:(by vm_compute) ltac:(by vm_compute) ltac:(by vm_compute)). cbv zeta in H |- *.
  destruct (@write_scheduler_output_and_dequeue canonical_order no_cron true empty_state 9 _ _ 0) as [s2 r] eqn:E.
  destruct H as (_ & H2 & H3 & _). rewrite H3 in H2. split; [exact H3|]. rewrite H2. vm_compute. reflexivity.
Defined.
