(* ===== verification/Delivery.v ===== *)
(** * Delivery of commands and results

    [state_store/executor_connection.rs] buffers the commands and results of one
    executor, [executor_api/polling.rs] hands them out to its long polls,
    [state_store/mod.rs] keeps the connections, [executors/command_emission.rs] drains
    the scheduler's intents, and [dataplane/src/service.rs] applies what it polled.
    The size of an encoded message is a parameter. *)
From stdpp Require Import functions.
From S2P Require Import Prelude DataModel Updates InMemoryState StateMachine Scanner Recovery Listing Outbox StateStore.

(** ** The connection of an executor *)

Definition MAX_POLL_RESPONSE_BYTES : Z := 8 * 1024 * 1024.

Record ExecutorConnection := MkExecutorConnection {
  ec_pending_commands : list Command;
  ec_pending_results : list Sequenced;
  ec_next_result_seq : Z;
  ec_last_acked_command_seq : Z;
  ec_request_full_state : bool;
}.
#[global] Instance eta_ExecutorConnection : Eta ExecutorConnection := λ c,
  MkExecutorConnection (ec_pending_commands c) (ec_pending_results c) (ec_next_result_seq c) (ec_last_acked_command_seq c)
    (ec_request_full_state c).
Definition new_connection : ExecutorConnection := MkExecutorConnection [] [] 1 0 false.

(** An item that exceeds the size of a poll response: its sequence number and size. *)
Record OversizedItem := MkOversizedItem { oi_seq : Z; oi_len : Z }.

Section connection.
Context (encoded_len : Sequenced → Z).

(** [capped_clone_by_encoded_size]. *)
Fixpoint capped_loop (limit : Z) (items selected : list Sequenced) (total : Z) : list Sequenced :=
  match items with
  | [] => selected
  | i :: items =>
      if match selected with [] => true | _ => false end || bool_decide (saturating_add total (encoded_len i) ≤ limit)
      then capped_loop limit items (selected ++ [i]) (saturating_add total (encoded_len i))
      else selected
  end.
Definition capped_clone_by_encoded_size (items : list Sequenced) (limit : Z) : list Sequenced := capped_loop limit items [] 0.
(** The loop at the head of [clone_commands_capped] and [clone_results_capped]. *)
Fixpoint drop_oversized (limit : Z) (buf : list Sequenced) : list Sequenced :=
  match buf with
  | [] => []
  | i :: rest => if bool_decide (encoded_len i ≤ limit) then buf else drop_oversized limit rest
  end.

Definition push_commands (conn : ExecutorConnection) (cmds : list Command) : result OversizedItem ExecutorConnection :=
  match List.find (λ c, bool_decide (MAX_POLL_RESPONSE_BYTES < encoded_len c)) cmds with
  | Some c => Err (MkOversizedItem (sq_seq c) (encoded_len c))
  | None => Ok (conn <| ec_pending_commands ::= λ buf, buf ++ cmds |>)
  end.
Definition clone_commands_capped (conn : ExecutorConnection) (limit : Z) : list Command * ExecutorConnection :=
  let buf := drop_oversized limit (ec_pending_commands conn) in
  (capped_clone_by_encoded_size buf limit, conn <| ec_pending_commands := buf |>).
Definition replace_commands (conn : ExecutorConnection) (cmds : list Command) : ExecutorConnection :=
  conn <| ec_pending_commands := cmds |>.
Definition drain_commands_up_to (conn : ExecutorConnection) (acked : Z) : ExecutorConnection :=
  conn <| ec_pending_commands ::= List.filter (λ c, bool_decide (acked < sq_seq c)) |>.
Definition observe_command_ack (conn : ExecutorConnection) (acked : option Z) : ExecutorConnection * bool :=
  let observed := default 0 acked in
  let prev := ec_last_acked_command_seq conn in
  if bool_decide (observed < prev) then (conn <| ec_last_acked_command_seq := 0 |> <| ec_request_full_state := true |>, true)
  else if bool_decide (prev < observed) then (conn <| ec_last_acked_command_seq := observed |>, false)
  else (conn, false).
Definition take_full_state_request (conn : ExecutorConnection) : bool * ExecutorConnection :=
  (ec_request_full_state conn, conn <| ec_request_full_state := false |>).
Definition restore_acked_command_seq (conn : ExecutorConnection) (seq : Z) : ExecutorConnection :=
  conn <| ec_last_acked_command_seq := seq |>.
Definition restore_next_result_seq (conn : ExecutorConnection) (next : Z) : ExecutorConnection :=
  conn <| ec_next_result_seq := Z.max next 1 |>.
Definition push_result (conn : ExecutorConnection) (entry : Bytes) : result OversizedItem ExecutorConnection :=
  let seq := ec_next_result_seq conn in
  let r := MkSequenced seq entry in
  if bool_decide (MAX_POLL_RESPONSE_BYTES < encoded_len r) then Err (MkOversizedItem seq (encoded_len r))
  else Ok (conn <| ec_pending_results ::= λ buf, buf ++ [r] |> <| ec_next_result_seq := saturating_add seq 1 |>).
Definition clone_results_capped (conn : ExecutorConnection) (limit : Z) : list Sequenced * ExecutorConnection :=
  let buf := drop_oversized limit (ec_pending_results conn) in
  (capped_clone_by_encoded_size buf limit, conn <| ec_pending_results := buf |>).
Definition drain_results_up_to (conn : ExecutorConnection) (acked : Z) : ExecutorConnection :=
  conn <| ec_pending_results ::= List.filter (λ r, bool_decide (acked < sq_seq r)) |>.
Definition reset_for_full_sync (conn : ExecutorConnection) : ExecutorConnection :=
  conn <| ec_pending_commands := [] |> <| ec_pending_results := [] |> <| ec_next_result_seq := 1 |>
       <| ec_last_acked_command_seq := 0 |> <| ec_request_full_state := false |>.

(** ** The connections of the server *)

Record Server := MkServer {
  sv_outbox : Outbox;
  sv_intents : gmap Z SchedulerCommandIntent;
  sv_connections : gmap ExecutorId ExecutorConnection;
  sv_next_result_seq : gmap ExecutorId Z;
}.
#[global] Instance eta_Server : Eta Server := λ s,
  MkServer (sv_outbox s) (sv_intents s) (sv_connections s) (sv_next_result_seq s).

(** Push to the connection of an executor, if it has one; the error leaves the buffer
    as it is. *)
Definition push_to (s : Server) (e : ExecutorId) (cmds : list Command) : Server * option OversizedItem :=
  match sv_connections s !! e with
  | None => (s, None)
  | Some conn =>
      match push_commands conn cmds with
      | Ok conn' => (s <| sv_connections ::= <[e := conn']> |>, None)
      | Err err => (s, Some err)
      end
  end.
(** [enqueue_executor_commands]: the rows are committed before the push is tried. *)
Definition enqueue_executor_commands (s : Server) (e : ExecutorId) (cmds : list Command) : Server * option OversizedItem :=
  match cmds with
  | [] => (s, None)
  | _ => let '(ob, numbered) := enqueue_commands_db (sv_outbox s) e cmds in push_to (s <| sv_outbox := ob |>) e numbered
  end.

Definition build_executor_connection (s : Server) (e : ExecutorId) : ExecutorConnection :=
  let '(acked, pending) := load_executor_pending_commands (sv_outbox s) e in
  replace_commands
    (restore_next_result_seq (restore_acked_command_seq new_connection acked) (default 1 (sv_next_result_seq s !! e))) pending.
(** [ensure_executor_connection_internal]: whether the connection is new. *)
Definition ensure_executor_connection (s : Server) (e : ExecutorId) : Server * bool :=
  match sv_connections s !! e with
  | Some _ => (s, false)
  | None => (s <| sv_connections ::= <[e := build_executor_connection s e]> |>, true)
  end.
Definition register_executor_connection (s : Server) (e : ExecutorId) : Server :=
  let '(s1, created) := ensure_executor_connection s e in
  if created then
    s1 <| sv_connections ::= alter (λ c, restore_next_result_seq c 1) e |> <| sv_next_result_seq ::= <[e := 1]> |>
  else
    s1 <| sv_outbox := reset_executor_command_outbox (sv_outbox s1) e |>
       <| sv_connections ::= alter reset_for_full_sync e |> <| sv_next_result_seq ::= <[e := 1]> |>.
Definition deregister_executor_connection (s : Server) (e : ExecutorId) : Server :=
  match sv_connections s !! e with
  | None => s
  | Some conn =>
      s <| sv_connections ::= delete e |>
        <| sv_next_result_seq ::= <[e := Z.max (ec_next_result_seq conn) 1]> |>
        <| sv_outbox := reset_executor_command_outbox (sv_outbox s) e |>
  end.
Definition clear_executor_result_seq (s : Server) (e : ExecutorId) : Server := s <| sv_next_result_seq ::= delete e |>.

(** [emit_commands_for_executor] with the commands of the desired state, when there is
    one. *)
Definition emit_commands_for_executor (s : Server) (e : ExecutorId) (force_full_sync : bool) (snapshot : option (list Command)) : Server :=
  match sv_connections s !! e with
  | None => s
  | Some _ =>
      let s1 := if force_full_sync
                then s <| sv_outbox := reset_executor_command_outbox (sv_outbox s) e |> <| sv_connections ::= alter reset_for_full_sync e |>
                else s in
      match snapshot with
      | None => s1
      | Some cmds => (enqueue_executor_commands s1 e cmds).1
      end
  end.

(** ** Long polls *)

(** The part of [long_poll_commands] before it waits. *)
Definition poll_commands (s : Server) (e : ExecutorId) (acked : option Z) : Server * list Command :=
  match sv_connections s !! e with
  | None => (s, [])
  | Some conn =>
      let conn1 := (observe_command_ack conn acked).1 in
      let ob1 := match acked with Some seq => ack_executor_commands (sv_outbox s) e seq | None => sv_outbox s end in
      let conn2 := match acked with Some seq => drain_commands_up_to conn1 seq | None => conn1 end in
      let '(items, conn3) := clone_commands_capped conn2 MAX_POLL_RESPONSE_BYTES in
      (s <| sv_outbox := ob1 |> <| sv_connections ::= <[e := conn3]> |>, items)
  end.
(** The part after it was woken up. *)
Definition poll_commands_woken (s : Server) (e : ExecutorId) : Server * list Command :=
  match sv_connections s !! e with
  | None => (s, [])
  | Some conn =>
      let '(items, conn1) := clone_commands_capped conn MAX_POLL_RESPONSE_BYTES in
      (s <| sv_connections ::= <[e := conn1]> |>, items)
  end.
Definition poll_results (s : Server) (e : ExecutorId) (acked : option Z) : Server * list Sequenced :=
  match sv_connections s !! e with
  | None => (s, [])
  | Some conn =>
      let conn1 := match acked with Some seq => drain_results_up_to conn seq | None => conn end in
      let '(items, conn2) := clone_results_capped conn1 MAX_POLL_RESPONSE_BYTES in
      (s <| sv_connections ::= <[e := conn2]> |>, items)
  end.

(** ** Draining the intents of the scheduler *)

Context `{HO : HashOrder}.
Definition PAGE_SIZE : nat := 256.
Definition move_page (s : Server) : Server * gmap ExecutorId (list Command) :=
  let '(ob, intents, enqueued) := move_scheduler_command_intents_to_outbox (sv_outbox s) (sv_intents s) PAGE_SIZE in
  (s <| sv_outbox := ob |> <| sv_intents := intents |>, enqueued).
Definition push_page (s : Server) (enqueued : gmap ExecutorId (list Command)) : Server :=
  foldl (λ s kv, (push_to s kv.1 kv.2).1) s (map_iter enqueued).
(** [drain_and_emit_scheduler_command_intents]; a page that moved nothing ends it. *)
Fixpoint drain_and_emit (fuel : nat) (s : Server) : Server :=
  match fuel with
  | O => s
  | S fuel =>
      let '(s1, enqueued) := move_page s in
      if bool_decide (enqueued = ∅) then s1 else drain_and_emit fuel (push_page s1 enqueued)
  end.

(** ** The executor *)

(** The cursors of the dataplane, and the commands it has applied since it was last
    registered. *)
Record Dataplane := MkDataplane {
  dp_last_applied_command_seq : Z;
  dp_last_applied_result_seq : Z;
  dp_applied : list Command;
}.
#[global] Instance eta_Dataplane : Eta Dataplane := λ d,
  MkDataplane (dp_last_applied_command_seq d) (dp_last_applied_result_seq d) (dp_applied d).

(** [handle_command]: whether the cursor advances past a command. *)
Context (handle_command : Command → bool).

Fixpoint apply_commands (next_seq : Z) (dp : Dataplane) (batch : list Command) : Dataplane :=
  match batch with
  | [] => dp
  | c :: batch =>
      if bool_decide (sq_seq c < next_seq) then apply_commands next_seq dp batch
      else if bool_decide (next_seq < sq_seq c) then dp
      else if handle_command c
           then apply_commands (saturating_add next_seq 1)
                  (dp <| dp_last_applied_command_seq := sq_seq c |> <| dp_applied ::= λ l, l ++ [c] |>) batch
           else dp
  end.
(** One answer of the poll loop. *)
Definition process_commands (dp : Dataplane) (batch : list Command) : Dataplane :=
  apply_commands (saturating_add (dp_last_applied_command_seq dp) 1) dp batch.
Definition acked_command_seq (dp : Dataplane) : option Z :=
  let seq := dp_last_applied_command_seq dp in if bool_decide (0 < seq) then Some seq else None.
Fixpoint apply_results (next_seq : Z) (dp : Dataplane) (batch : list Sequenced) : Dataplane :=
  match batch with
  | [] => dp
  | r :: batch =>
      if bool_decide (sq_seq r < next_seq) then apply_results next_seq dp batch
      else if bool_decide (next_seq < sq_seq r) then dp
      else apply_results (saturating_add next_seq 1) (dp <| dp_last_applied_result_seq := sq_seq r |>) batch
  end.
Definition process_results (dp : Dataplane) (batch : list Sequenced) : Dataplane :=
  apply_results (saturating_add (dp_last_applied_result_seq dp) 1) dp batch.
(** The cursors after the server accepted a registration. *)
Definition registered (dp : Dataplane) : Dataplane :=
  dp <| dp_last_applied_command_seq := 0 |> <| dp_last_applied_result_seq := 0 |> <| dp_applied := [] |>.
End connection.

(** ** Numbered batches *)



Section capped.
Context (encoded_len : Sequenced → Z).

Lemma capped_loop_prefix limit items : ∀ selected total, ∃ j,
  capped_loop encoded_len limit items selected total = selected ++ take j items ∧ (selected = [] → items ≠ [] → (0 < j)%nat).
Proof.
  induction items as [|i items IH]; intros selected total; cbn [capped_loop]; [exists 0%nat; by rewrite app_nil_r|].
  destruct (match selected with [] => true | _ => false end || _) eqn:E.
  - destruct (IH (selected ++ [i]) (saturating_add total (encoded_len i))) as (j & Hj & _). exists (S j). rewrite Hj, <-app_assoc. split; [done|lia].
  - exists 0%nat. rewrite app_nil_r. split; [done|]. intros ->. by cbn in E.
Qed.
End capped.

(** ** The executor applies a prefix of the log *)

Section dataplane.
Context (handle_command : Command → bool).

End dataplane.

(** ** One registration *)

(** The server, the batches that were moved to the outbox of the executor and are not
    pushed yet, and the executor. *)
Record World := MkWorld {
  w_server : Server;
  w_in_flight : list (list Command);
  w_dataplane : Dataplane;
}.

Section delivery.
Context (encoded_len : Sequenced → Z) (handle_command : Command → bool) `{HO : HashOrder} (e : ExecutorId).

Definition small (c : Command) : Prop := encoded_len c ≤ MAX_POLL_RESPONSE_BYTES.
(** The answer of a poll is processed, or lost. *)
Definition answered (delivered : bool) (dp : Dataplane) (items : list Command) : Dataplane :=
  if delivered then process_commands handle_command dp items else dp.

(** The command of an intent, if the intent is for the executor. *)
Definition intended_for (i : SchedulerCommandIntent) : list Bytes := if decide (sci_executor_id i = e) then [sci_command i] else [].

(** What happens between two registrations, labelled with the commands the scheduler
    decides on for the executor: an intent is persisted under the next sequence number,
    a page of intents is moved to the outbox, a moved batch is pushed to the connection,
    the executor polls, or a poll that waited is woken up. *)
Inductive world_step : list Bytes → World → World → Prop :=
| ws_intend s seq i fl dp :
    (∀ k j, sv_intents s !! k = Some j → k < seq) →
    world_step (intended_for i) (MkWorld s fl dp) (MkWorld (s <| sv_intents ::= <[seq := i]> |>) fl dp)
| ws_move s s' enqueued fl dp :
    move_page s = (s', enqueued) →
    (∀ kv, kv ∈ num_iter (sv_intents s) → bar_free (sci_executor_id kv.2) = true) →
    Forall small (default [] (enqueued !! e)) →
    world_step [] (MkWorld s fl dp) (MkWorld s' (fl ++ [default [] (enqueued !! e)]) dp)
| ws_push s batch fl dp :
    world_step [] (MkWorld s (batch :: fl) dp) (MkWorld (push_to encoded_len s e batch).1 fl dp)
| ws_poll s s' items fl dp delivered :
    poll_commands encoded_len s e (acked_command_seq dp) = (s', items) →
    world_step [] (MkWorld s fl dp) (MkWorld s' fl (answered delivered dp items))
| ws_wake s s' items fl dp delivered :
    poll_commands_woken encoded_len s e = (s', items) →
    world_step [] (MkWorld s fl dp) (MkWorld s' fl (answered delivered dp items)).

(** A number of steps and what the scheduler decided on in them, in order. *)
Inductive history : nat → list Bytes → World → World → Prop :=
| history_none w : history 0 [] w w
| history_step n l ls w w1 w' : world_step l w w1 → history n ls w1 w' → history (S n) (l ++ ls) w w'.








(** *** From a registration on *)


(** The executor polls once more and processes the answer. *)
Definition poll_round (w : World) : World :=
  let '(s', items) := poll_commands encoded_len (w_server w) e (acked_command_seq (w_dataplane w)) in
  MkWorld s' (w_in_flight w) (process_commands handle_command (w_dataplane w) items).


End delivery.

(** ** A gap in the buffer *)

Section gap.
Context (encoded_len : Sequenced → Z) (handle_command : Command → bool) `{HO : HashOrder} (e : ExecutorId).

(** The first buffered command is beyond the one the executor waits for. *)
Record gapped (k : Z) (w : World) : Prop := {
  gp_dataplane : dp_last_applied_command_seq (w_dataplane w) = k;
  gp_bound : 0 ≤ k < u64_max;
  gp_buffer : ∃ conn c rest, sv_connections (w_server w) !! e = Some conn ∧ ec_pending_commands conn = c :: rest ∧
    k + 1 < sq_seq c ∧ encoded_len c ≤ MAX_POLL_RESPONSE_BYTES;
}.
Lemma capped_loop_head limit i items : ∃ rest, capped_loop encoded_len limit (i :: items) [] 0 = i :: rest.
Proof.
  destruct (capped_loop_prefix encoded_len limit (i :: items) [] 0) as (j & -> & Hj). destruct j as [|j]; [specialize (Hj eq_refl ltac:(done)); lia|].
  by exists (take j items).
Qed.
Lemma answer_gapped delivered dp k c rest :
  dp_last_applied_command_seq dp = k → 0 ≤ k < u64_max → k + 1 < sq_seq c → answered handle_command delivered dp (c :: rest) = dp.
Proof.
  intros Hk Hb Hc. destruct delivered; [|done]. cbn. unfold process_commands. cbn [apply_commands]. rewrite Hk.
  unfold saturating_add. rewrite bool_decide_false, bool_decide_true by lia. done.
Qed.
Lemma clone_gapped conn c rest :
  ec_pending_commands conn = c :: rest → encoded_len c ≤ MAX_POLL_RESPONSE_BYTES →
  ∃ items, clone_commands_capped encoded_len conn MAX_POLL_RESPONSE_BYTES = (c :: items, conn).
Proof.
  intros E Hc. unfold clone_commands_capped. rewrite E. cbn [drop_oversized]. rewrite bool_decide_true by done.
  unfold capped_clone_by_encoded_size. destruct (capped_loop_head MAX_POLL_RESPONSE_BYTES c rest) as (items & ->). exists items. f_equal.
  destruct conn. cbn in E. by subst.
Qed.
Lemma step_gapped k l w w' : gapped k w → world_step encoded_len handle_command e l w w' → gapped k w'.
Proof.
  intros [Hk Hb (conn & c & rest & Hc & Ebuf & Hseq & Hsm)] Hstep.
  destruct Hstep as [s seq i fl dp Hi|s s' enqueued fl dp Hm Hf _|s batch fl dp|s s' items fl dp delivered Hpoll|s s' items fl dp delivered Hpoll];
    cbn [w_server w_in_flight w_dataplane] in *.
  - split; [done|done|]. exists conn, c, rest. done.
  - unfold move_page in Hm. destruct (move_scheduler_command_intents_to_outbox _ _ _) as [[ob' intents'] enq]. injection Hm as <- <-.
    split; [done|done|]. exists conn, c, rest. done.
  - unfold push_to. rewrite Hc. destruct (push_commands encoded_len conn batch) as [conn'|err] eqn:Ep; cbn [fst]; [|split; eauto 10].
    split; [done|done|]. exists conn', c, (rest ++ batch). cbn. rewrite lookup_insert_eq. split_and!; [done| |done|done].
    unfold push_commands in Ep. destruct (List.find _ _); [done|]. injection Ep as <-. cbn. by rewrite Ebuf.
  - unfold poll_commands in Hpoll. rewrite Hc in Hpoll. set (acked := acked_command_seq dp) in Hpoll.
    assert (Ha : ∀ seq, acked = Some seq → seq < sq_seq c).
    { intros seq E. unfold acked, acked_command_seq in E. case_bool_decide; [|done]. injection E as <-. lia. }
    set (conn2 := match acked with Some seq => drain_commands_up_to _ seq | None => _ end) in Hpoll.
    assert (E2 : ∃ rest2, ec_pending_commands conn2 = c :: rest2).
    { assert (E1 : ec_pending_commands (observe_command_ack conn acked).1 = c :: rest)
        by (unfold observe_command_ack; repeat case_bool_decide; done).
      unfold conn2. destruct acked as [seq|]; [|by exists rest]. cbn. rewrite E1. cbn. rewrite bool_decide_true by auto. eauto. }
    destruct E2 as (rest2 & E2). destruct (clone_gapped conn2 c rest2 E2 Hsm) as (its & Ecl). rewrite Ecl in Hpoll. injection Hpoll as <- <-.
    split; cbn [w_server w_dataplane]; [by rewrite (answer_gapped _ _ k)|done|]. exists conn2, c, rest2. cbn. rewrite lookup_insert_eq. done.
  - unfold poll_commands_woken in Hpoll. rewrite Hc in Hpoll. destruct (clone_gapped conn c rest Ebuf Hsm) as (its & Ecl). rewrite Ecl in Hpoll.
    injection Hpoll as <- <-. split; cbn [w_server w_dataplane]; [by rewrite (answer_gapped _ _ k)|done|].
    exists conn, c, rest. cbn. rewrite lookup_insert_eq. done.
Qed.
Lemma gapped_forever k n l w w' : gapped k w → history encoded_len handle_command e n l w w' → gapped k w'.
Proof. intros Hg Hr. induction Hr as [|n l ls w w1 w' H1 Hr IH]; [done|]. by eapply IH, step_gapped. Qed.
End gap.

(** ** Examples *)

(** Command bodies of one byte, except an oversized one. *)
Definition len_ex (c : Sequenced) : Z := if bool_decide (sq_body c = "big") then MAX_POLL_RESPONSE_BYTES + 1 else 1.
Definition accept_ex (c : Command) : bool := true.
Definition cmd_ex (body : Bytes) : Command := MkSequenced 0 body.
Definition connected_ex : Server := MkServer ∅ ∅ {["e1" := new_connection]} ∅.
Definition emit_ex (s : Server) (bodies : list Bytes) : Server := emit_commands_for_executor len_ex s "e1" true (Some (cmd_ex <$> bodies)).
Definition intend_ex (s : Server) (seq : Z) (body : Bytes) : Server := s <| sv_intents ::= <[seq := MkSchedulerCommandIntent "e1" body]> |>.
Definition move_ex (s : Server) : Server * list Command :=
  let '(s', enqueued) := @move_page canonical_order s in (s', default [] (enqueued !! "e1")).
Definition round_ex (w : World) : World := poll_round len_ex accept_ex "e1" w.


(** A batch is moved to the outbox, the executor registers again before the batch is
    pushed, then the batch is pushed, and a new command follows. *)
Definition before_ex : World :=
  round_ex (MkWorld (emit_ex connected_ex ["a"; "b"; "c"]) [] (registered (MkDataplane 0 0 []))).
Definition stale_ex : Server * list Command := move_ex (intend_ex (w_server before_ex) 0 "d").
Definition reregistered_ex : Server := emit_ex (register_executor_connection stale_ex.1 "e1") ["a"].
Definition late_push_ex : World :=
  round_ex (MkWorld (push_to len_ex reregistered_ex "e1" stale_ex.2).1 [] (registered (w_dataplane before_ex))).
Definition blocked_ex : World :=
  let '(s, batch) := move_ex (intend_ex (w_server late_push_ex) 1 "f") in
  round_ex (MkWorld (push_to len_ex s "e1" batch).1 [] (w_dataplane late_push_ex)).

(** Intents are moved to the outbox outside the lock under which they are pushed.
    When the executor registers again in between, the batch with its old sequence
    numbers is pushed onto the fresh stream; the executor refuses to skip the gap, and
    whatever is emitted, pushed and polled afterwards, it never applies another
    command, although the outbox holds one for it. *)
Theorem stale_batch_blocks_executor :
  dp_last_applied_command_seq (w_dataplane blocked_ex) = 1 ∧
  load_executor_pending_commands (sv_outbox (w_server blocked_ex)) "e1" = (1, [MkSequenced 2 "f"]) ∧
  ∀ n l w, @history len_ex accept_ex canonical_order "e1" n l blocked_ex w → dp_last_applied_command_seq (w_dataplane w) = 1.
Proof.
  split; [vm_compute; reflexivity|]. split; [vm_compute; reflexivity|]. intros n l w Hw.
  apply (gp_dataplane len_ex "e1"), (@gapped_forever len_ex accept_ex canonical_order "e1" 1 n l blocked_ex w); [|exact Hw]. split; [vm_compute; reflexivity|vm_compute; split; [discriminate|reflexivity]|].
  assert (E : (ec_pending_commands <$> sv_connections (w_server blocked_ex) !! "e1") = Some [MkSequenced 4 "d"; MkSequenced 2 "f"]) by (vm_compute; reflexivity).
  apply fmap_Some in E as (conn & Hc & Hb). exists conn, (MkSequenced 4 "d"), [MkSequenced 2 "f"].
  split_and!; [exact Hc|symmetry; exact Hb|reflexivity|vm_compute; discriminate].
Qed.

(** A command that is too large for a poll response takes a sequence number. *)
Definition oversized_ex : Server * list Command := move_ex (intend_ex (emit_ex connected_ex []) 0 "big").
Definition after_oversized_ex : World :=
  let '(s, batch) := move_ex (intend_ex (push_to len_ex oversized_ex.1 "e1" oversized_ex.2).1 1 "x") in
  MkWorld (push_to len_ex s "e1" batch).1 [] (registered (MkDataplane 0 0 [])).

(** A command beyond the size of a poll response is persisted with a sequence
    number and only then refused by the buffer: the executor waits for that number,
    and no later command is ever applied. *)
Theorem oversized_command_blocks_executor :
  (push_to len_ex oversized_ex.1 "e1" oversized_ex.2).2 = Some (MkOversizedItem 1 (MAX_POLL_RESPONSE_BYTES + 1)) ∧
  ∀ n l w, @history len_ex accept_ex canonical_order "e1" n l after_oversized_ex w → dp_last_applied_command_seq (w_dataplane w) = 0.
Proof.
  split; [vm_compute; reflexivity|]. intros n l w Hw.
  apply (gp_dataplane len_ex "e1"), (@gapped_forever len_ex accept_ex canonical_order "e1" 0 n l after_oversized_ex w); [|exact Hw]. split; [vm_compute; reflexivity|vm_compute; split; [discriminate|reflexivity]|].
  assert (E : (ec_pending_commands <$> sv_connections (w_server after_oversized_ex) !! "e1") = Some [MkSequenced 2 "x"]) by (vm_compute; reflexivity).
  apply fmap_Some in E as (conn & Hc & Hb). exists conn, (MkSequenced 2 "x"), [].
  split_and!; [exact Hc|symmetry; exact Hb|reflexivity|vm_compute; discriminate].
Qed.
