(* ===== verification/ProtoConvert.v ===== *)
(** * Wire messages and their conversions

    The messages of [proto/executor_api.proto] that executors and the server exchange,
    and [proto_convert.rs], [pb_helpers.rs] and [crates/blob-store/src/uri.rs], which
    map them to the data model and back.  An [optional] field is an [option]; an
    enumeration field holds the number on the wire, read through the accessor that the
    protobuf compiler generates.  [url::Url::parse] with [host_str] and [nanoid!] are
    parameters. *)
From Stdlib Require Import Ascii.
From S2P Require Import Prelude DataModel Resources.
Open Scope string_scope.
Open Scope list_scope.
Open Scope Z_scope.

(** ** Results *)

Definition result_bind {E A B} (m : result E A) (f : A → result E B) : result E B :=
  match m with Ok x => f x | Err e => Err e end.
Declare Scope result_scope.
Delimit Scope result_scope with result.
Notation "x ?<- m ;; k" := (result_bind m (λ x, k)) (at level 60, m at next level, right associativity) : result_scope.
Open Scope result_scope.
(** [Option::ok_or]. *)
Definition ok_or {A} (x : option A) (e : string) : result string A := match x with Some a => Ok a | None => Err e end.
(** [Option::transpose] of an [Option<Result>]. *)
Definition transpose {E A B} (f : A → result E B) (x : option A) : result E (option B) :=
  match x with
  | None => Ok None
  | Some a => b ?<- f a;; Ok (Some b)
  end.
(** [collect::<Result<Vec<_>>>]. *)
Fixpoint collect {E A B} (f : A → result E B) (l : list A) : result E (list B) :=
  match l with
  | [] => Ok []
  | a :: l => b ?<- f a;; bs ?<- collect f l;; Ok (b :: bs)
  end.

(** ** Enumerations *)

Inductive GpuModelPb := GM_Unknown | GM_NvidiaA10040gb | GM_NvidiaA10080gb | GM_NvidiaH10080gb | GM_NvidiaTeslaT4 | GM_NvidiaA6000 | GM_NvidiaA10.
Inductive DataPayloadEncoding := DPE_Unknown | DPE_Utf8Json | DPE_Utf8Text | DPE_BinaryPickle | DPE_BinaryZip | DPE_Raw.
Inductive ContainerStatus := CSt_Unknown | CSt_Pending | CSt_Running | CSt_Terminated.
Inductive ContainerTypePb := CTy_Unknown | CTy_Function | CTy_Sandbox.
Inductive ExecutorStatus := ESt_Unknown | ESt_StartingUp | ESt_Running | ESt_Drained | ESt_Stopped.
Inductive ContainerTerminationReasonPb :=
| TR_Unknown | TR_StartupFailedInternalError | TR_StartupFailedFunctionError | TR_StartupFailedFunctionTimeout | TR_Unhealthy
| TR_InternalError | TR_FunctionTimeout | TR_FunctionCancelled | TR_Oom | TR_ProcessCrash | TR_StartupFailedBadImage.
Inductive AllocationFailureReason :=
| AFR_Unknown | AFR_InternalError | AFR_FunctionError | AFR_FunctionTimeout | AFR_RequestError | AFR_AllocationCancelled
| AFR_ContainerTerminated | AFR_Oom | AFR_ConstraintUnsatisfiable | AFR_ExecutorRemoved | AFR_StartupFailedInternalError
| AFR_StartupFailedFunctionError | AFR_StartupFailedFunctionTimeout | AFR_StartupFailedBadImage.

(** The values in the order of their numbers on the wire. *)
Definition gpu_models : list GpuModelPb :=
  [GM_Unknown; GM_NvidiaA10040gb; GM_NvidiaA10080gb; GM_NvidiaH10080gb; GM_NvidiaTeslaT4; GM_NvidiaA6000; GM_NvidiaA10].
Definition payload_encodings : list DataPayloadEncoding := [DPE_Unknown; DPE_Utf8Json; DPE_Utf8Text; DPE_BinaryPickle; DPE_BinaryZip; DPE_Raw].
Definition container_statuses : list ContainerStatus := [CSt_Unknown; CSt_Pending; CSt_Running; CSt_Terminated].
Definition container_types : list ContainerTypePb := [CTy_Unknown; CTy_Function; CTy_Sandbox].
Definition executor_statuses : list ExecutorStatus := [ESt_Unknown; ESt_StartingUp; ESt_Running; ESt_Drained; ESt_Stopped].
Definition termination_reasons : list ContainerTerminationReasonPb :=
  [TR_Unknown; TR_StartupFailedInternalError; TR_StartupFailedFunctionError; TR_StartupFailedFunctionTimeout; TR_Unhealthy;
   TR_InternalError; TR_FunctionTimeout; TR_FunctionCancelled; TR_Oom; TR_ProcessCrash; TR_StartupFailedBadImage].
Definition failure_reasons : list AllocationFailureReason :=
  [AFR_Unknown; AFR_InternalError; AFR_FunctionError; AFR_FunctionTimeout; AFR_RequestError; AFR_AllocationCancelled;
   AFR_ContainerTerminated; AFR_Oom; AFR_ConstraintUnsatisfiable; AFR_ExecutorRemoved; AFR_StartupFailedInternalError;
   AFR_StartupFailedFunctionError; AFR_StartupFailedFunctionTimeout; AFR_StartupFailedBadImage].

(** [try_from(i32)] of an enumeration, and the accessor of an optional field: a missing
    or unknown number reads as the first value. *)
Definition enum_try_from {A} (values : list A) (n : Z) : option A := if bool_decide (0 ≤ n) then values !! Z.to_nat n else None.
Definition enum_get {A} (values : list A) (first : A) (x : option Z) : A := default first (x ≫= enum_try_from values).

(** ** Messages *)

Record GpuResourcesPb := MkGpuResourcesPb { gpb_count : option Z; gpb_model : option Z }.
Record HostResourcesPb := MkHostResourcesPb {
  hrp_cpu_count : option Z;
  hrp_memory_bytes : option Z;
  hrp_disk_bytes : option Z;
  hrp_gpu : option GpuResourcesPb;
}.
Record ContainerResourcesPb := MkContainerResourcesPb {
  crp_cpu_ms_per_sec : option Z;
  crp_memory_bytes : option Z;
  crp_disk_bytes : option Z;
  crp_gpu : option GpuResourcesPb;
}.
Record FunctionRef := MkFunctionRef {
  ref_namespace : option string;
  ref_application_name : option string;
  ref_function_name : option string;
  ref_application_version : option string;
}.
Record AllowedFunction := MkAllowedFunction {
  alf_namespace : option string;
  alf_application_name : option string;
  alf_function_name : option string;
  alf_application_version : option string;
}.
Record DataPayloadPb := MkDataPayloadPb {
  dpb_uri : option string;
  dpb_encoding : option Z;
  dpb_encoding_version : option Z;
  dpb_content_type : option string;
  dpb_metadata_size : option Z;
  dpb_offset : option Z;
  dpb_size : option Z;
  dpb_sha256_hash : option string;
  dpb_source_function_call_id : option string;
  dpb_id : option string;
}.
Record NetworkPolicyPb := MkNetworkPolicyPb {
  npb_allow_internet_access : option bool;
  npb_allow_out : list string;
  npb_deny_out : list string;
}.
Record SandboxMetadataPb := MkSandboxMetadataPb {
  smp_timeout_secs : option Z;
  smp_entrypoint : list string;
  smp_image : option string;
  smp_network_policy : option NetworkPolicyPb;
  smp_sandbox_id : option string;
  smp_snapshot_uri : option string;
}.
Record ContainerDescription := MkContainerDescription {
  cd_id : option string;
  cd_function : option FunctionRef;
  cd_secret_names : list string;
  cd_initialization_timeout_ms : option Z;
  cd_application : option DataPayloadPb;
  cd_resources : option ContainerResourcesPb;
  cd_max_concurrency : option Z;
  cd_allocation_timeout_ms : option Z;
  cd_sandbox_metadata : option SandboxMetadataPb;
  cd_container_type : option Z;
  cd_pool_id : option string;
}.
Record ContainerStatePb := MkContainerStatePb {
  csp_description : option ContainerDescription;
  csp_status : option Z;
  csp_termination_reason : option Z;
}.
Record ExecutorStatePb := MkExecutorStatePb {
  esp_executor_id : option string;
  esp_hostname : option string;
  esp_version : option string;
  esp_status : option Z;
  esp_total_resources : option HostResourcesPb;
  esp_total_container_resources : option HostResourcesPb;
  esp_allowed_functions : list AllowedFunction;
  esp_container_states : list ContainerStatePb;
  esp_labels : gmap string string;
  esp_state_hash : option string;
  esp_server_clock : option Z;
  esp_catalog_entry_name : option string;
  esp_proxy_address : option string;
}.
Record DataplaneStateFullSync := MkDataplaneStateFullSync {
  dsf_hostname : option string;
  dsf_version : option string;
  dsf_total_resources : option HostResourcesPb;
  dsf_total_container_resources : option HostResourcesPb;
  dsf_allowed_functions : list AllowedFunction;
  dsf_labels : gmap string string;
  dsf_catalog_entry_name : option string;
  dsf_proxy_address : option string;
  dsf_container_states : list ContainerStatePb;
}.
Inductive FunctionArgSource :=
| FAS_FunctionCallId (id : string)
| FAS_InlineData (data : DataPayloadPb).
Record FunctionArgPb := MkFunctionArgPb { fap_source : option FunctionArgSource }.
Record FunctionCallPb := MkFunctionCallPb {
  fcp_id : option string;
  fcp_target : option FunctionRef;
  fcp_args : list FunctionArgPb;
  fcp_call_metadata : option Bytes;
}.
Record ReduceOpPb := MkReduceOpPb {
  rop_id : option string;
  rop_collection : list FunctionArgPb;
  rop_reducer : option FunctionRef;
  rop_call_metadata : option Bytes;
}.
Inductive ExecutionPlanOp :=
| EPO_FunctionCall (call : FunctionCallPb)
| EPO_Reduce (op : ReduceOpPb).
Record ExecutionPlanUpdate := MkExecutionPlanUpdate { epu_op : option ExecutionPlanOp }.
Record AllocationPb := MkAllocationPb {
  apb_function : option FunctionRef;
  apb_allocation_id : option string;
  apb_function_call_id : option string;
  apb_request_id : option string;
  apb_args : list DataPayloadPb;
  apb_request_data_payload_uri_prefix : option string;
  apb_request_error_payload_uri_prefix : option string;
  apb_container_id : option string;
  apb_function_call_metadata : option Bytes;
  apb_replay_mode : option Z;
  apb_last_event_clock : option Z;
}.

(** ** Blob store paths *)

(** [str::strip_prefix]. *)
Fixpoint strip_prefix (p s : string) : option string :=
  match p, s with
  | EmptyString, _ => Some s
  | String a p, String b s => if Ascii.eqb a b then strip_prefix p s else None
  | String _ _, EmptyString => None
  end.
(** [str::split_once]: around the first occurrence of a character. *)
Fixpoint split_once (c : Ascii.ascii) (s : string) : option (string * string) :=
  match s with
  | EmptyString => None
  | String a s => if Ascii.eqb a c then Some ("", s) else (λ '(l, r), (String a l, r)) <$> split_once c s
  end.
Definition is_file_uri (uri : string) : bool := bool_decide (is_Some (strip_prefix "file://" uri)).
Definition is_s3_uri (uri : string) : bool := bool_decide (is_Some (strip_prefix "s3://" uri)).
Definition parse_s3_uri (uri : string) : result string (string * string) :=
  rest ?<- ok_or (strip_prefix "s3://" uri) ("Not an S3 URI: " +:+ uri);;
  ok_or (split_once "/"%char rest) ("Invalid S3 URI (no key): s3://" +:+ rest).
Definition file_uri_to_path (uri : string) : result string string := ok_or (strip_prefix "file://" uri) ("Not a file URI: " +:+ uri).

(** The host a URL parses to: [None] when it does not parse, [Some None] without a
    host. *)
Section blob_store.
Context (url_host : string → option (option string)).
Definition bucket_name_from_s3_url (blob_store_url : string) : string :=
  match url_host blob_store_url with Some (Some bucket) => bucket | _ => "" end.
Definition blob_store_path_to_url (path scheme blob_store_url : string) : string :=
  if bool_decide (scheme = "file") then scheme +:+ ":///" +:+ path
  else if bool_decide (scheme = "s3") then scheme +:+ "://" +:+ bucket_name_from_s3_url blob_store_url +:+ "/" +:+ path
  else "not supported blob store scheme: " +:+ scheme.
Definition blob_store_url_to_path (url scheme blob_store_url : string) : string :=
  if bool_decide (scheme = "file") then default url (strip_prefix (scheme +:+ ":///") url)
  else if bool_decide (scheme = "s3") then default url (strip_prefix (scheme +:+ "://" +:+ bucket_name_from_s3_url blob_store_url +:+ "/") url)
  else "not supported blob store scheme: " +:+ scheme.
End blob_store.

(** ** Resources *)

Definition GPU_MODEL_NVIDIA_H100_80GB : string := "H100".
Definition GPU_MODEL_NVIDIA_A100_40GB : string := "A100-40GB".
Definition GPU_MODEL_NVIDIA_A100_80GB : string := "A100-80GB".
Definition GPU_MODEL_NVIDIA_TESLA_T4 : string := "T4".
Definition GPU_MODEL_NVIDIA_A6000 : string := "A6000".
Definition GPU_MODEL_NVIDIA_A10 : string := "A10".

(** The number of a [GpuModel] on the wire. *)
Definition gpu_model_number (m : GpuModelPb) : Z :=
  match m with
  | GM_Unknown => 0 | GM_NvidiaA10040gb => 1 | GM_NvidiaA10080gb => 2 | GM_NvidiaH10080gb => 3 | GM_NvidiaTeslaT4 => 4
  | GM_NvidiaA6000 => 5 | GM_NvidiaA10 => 6
  end.
Definition gpu_to_pb (g : GPUResources) : result string GpuResourcesPb :=
  if bool_decide (gpu_count g = 0) then Err "data_model gpu_resources.count is 0"
  else
    model ?<- (if bool_decide (gpu_model g = GPU_MODEL_NVIDIA_A100_40GB) then Ok GM_NvidiaA10040gb
               else if bool_decide (gpu_model g = GPU_MODEL_NVIDIA_A100_80GB) then Ok GM_NvidiaA10080gb
               else if bool_decide (gpu_model g = GPU_MODEL_NVIDIA_H100_80GB) then Ok GM_NvidiaH10080gb
               else if bool_decide (gpu_model g = GPU_MODEL_NVIDIA_TESLA_T4) then Ok GM_NvidiaTeslaT4
               else if bool_decide (gpu_model g = GPU_MODEL_NVIDIA_A6000) then Ok GM_NvidiaA6000
               else if bool_decide (gpu_model g = GPU_MODEL_NVIDIA_A10) then Ok GM_NvidiaA10
               else Err "unknown data_model gpu_resources.model");;
    Ok (MkGpuResourcesPb (Some (gpu_count g)) (Some (gpu_model_number model))).
Definition gpu_from_pb (g : GpuResourcesPb) : result string GPUResources :=
  if bool_decide (default 0 (gpb_count g) = 0) then Err "proto gpu_resources.count is 0"
  else
    model ?<- match enum_get gpu_models GM_Unknown (gpb_model g) with
              | GM_Unknown => Err "proto gpu_resources.model is unknown"
              | GM_NvidiaA10040gb => Ok GPU_MODEL_NVIDIA_A100_40GB
              | GM_NvidiaA10080gb => Ok GPU_MODEL_NVIDIA_A100_80GB
              | GM_NvidiaH10080gb => Ok GPU_MODEL_NVIDIA_H100_80GB
              | GM_NvidiaTeslaT4 => Ok GPU_MODEL_NVIDIA_TESLA_T4
              | GM_NvidiaA6000 => Ok GPU_MODEL_NVIDIA_A6000
              | GM_NvidiaA10 => Ok GPU_MODEL_NVIDIA_A10
              end;;
    Ok (MkGPU (default 0 (gpb_count g)) model).
Definition host_to_pb (h : HostResources) : result string HostResourcesPb :=
  gpu ?<- transpose gpu_to_pb (host_gpu h);;
  Ok (MkHostResourcesPb (Some (host_cpu_ms_per_sec h / 1000)) (Some (host_memory_bytes h)) (Some (host_disk_bytes h)) gpu).
Definition host_from_pb (h : HostResourcesPb) : result string HostResources :=
  cpu ?<- ok_or (hrp_cpu_count h) "cpu_count is required";;
  memory ?<- ok_or (hrp_memory_bytes h) "memory_bytes is required";;
  disk ?<- ok_or (hrp_disk_bytes h) "disk_bytes is required";;
  gpu ?<- transpose gpu_from_pb (hrp_gpu h);;
  Ok (MkHostResources (wrap32 (cpu * 1000)) memory disk gpu).
Definition cres_from_pb (r : ContainerResourcesPb) : result string ContainerResources :=
  cpu ?<- ok_or (crp_cpu_ms_per_sec r) "cpu_ms_per_sec is required";;
  memory ?<- ok_or (crp_memory_bytes r) "memory_bytes is required";;
  disk ?<- ok_or (crp_disk_bytes r) "disk_bytes is required";;
  gpu ?<- transpose gpu_from_pb (crp_gpu r);;
  Ok (MkContainerResources cpu (memory / 1024 / 1024) (disk / 1024 / 1024) gpu).
Definition cres_to_pb (r : ContainerResources) : result string ContainerResourcesPb :=
  gpu ?<- match transpose gpu_to_pb (cres_gpu r) with
          | Ok g => Ok g
          | Err e => Err ("failed to convert GPU resources: " +:+ e)
          end;;
  Ok (MkContainerResourcesPb (Some (cres_cpu_ms_per_sec r)) (Some (mb_to_bytes (cres_memory_mb r)))
        (Some (mb_to_bytes (cres_ephemeral_disk_mb r))) gpu).

(** ** Executors and containers *)

Definition allowlist_from_pb (f : AllowedFunction) : FunctionAllowlist :=
  MkFunctionAllowlist (alf_namespace f) (alf_application_name f) (alf_function_name f).
Definition executor_state_from_pb (s : ExecutorStatus) : ExecutorState :=
  match s with
  | ESt_StartingUp => ES_StartingUp
  | ESt_Running => ES_Running
  | ESt_Drained => ES_Drained
  | ESt_Stopped => ES_Stopped
  | ESt_Unknown => ES_Unknown
  end.
(** [TryFrom<ContainerTerminationReason>] and [proto_container_termination_to_internal]:
    the same table. *)
Definition termination_reason_from_pb (r : ContainerTerminationReasonPb) : ContainerTerminationReason :=
  match r with
  | TR_Unknown => CTR_Unknown
  | TR_StartupFailedInternalError => CTR_StartupFailedInternalError
  | TR_StartupFailedFunctionError => CTR_StartupFailedFunctionError
  | TR_StartupFailedFunctionTimeout => CTR_StartupFailedFunctionTimeout
  | TR_Unhealthy => CTR_Unhealthy
  | TR_InternalError => CTR_InternalError
  | TR_FunctionTimeout => CTR_FunctionTimeout
  | TR_FunctionCancelled => CTR_FunctionCancelled
  | TR_Oom => CTR_Oom
  | TR_ProcessCrash => CTR_ProcessCrash
  | TR_StartupFailedBadImage => CTR_StartupFailedBadImage
  end.

(** [TryFrom<ContainerState> for Container]. *)
Definition container_from_pb (st : ContainerStatePb) : result string Container :=
  let d := csp_description st in
  let reason := termination_reason_from_pb (enum_get termination_reasons TR_Unknown (csp_termination_reason st)) in
  id ?<- ok_or (d ≫= cd_id) "id is required";;
  ref ?<- ok_or (d ≫= cd_function) "function ref is required";;
  namespace ?<- ok_or (ref_namespace ref) "namespace is required";;
  app ?<- ok_or (ref_application_name ref) "application_name is required";;
  fn ?<- ok_or (ref_function_name ref) "function_name is required";;
  version ?<- ok_or (ref_application_version ref) "application_version is required";;
  res ?<- ok_or (d ≫= cd_resources) "resources is required";;
  resources ?<- cres_from_pb res;;
  let max_concurrency := default 1 (d ≫= cd_max_concurrency) in
  let container_type := match d with
                        | Some d => match enum_get container_types CTy_Unknown (cd_container_type d) with
                                    | CTy_Unknown | CTy_Function => CT_Function
                                    | CTy_Sandbox => CT_Sandbox
                                    end
                        | None => CT_Function
                        end in
  let secret_names := match d with Some d => cd_secret_names d | None => [] end in
  let meta := d ≫= cd_sandbox_metadata in
  let state := match enum_get container_statuses CSt_Unknown (csp_status st) with
               | CSt_Unknown => CS_Unknown
               | CSt_Pending => CS_Pending
               | CSt_Running => CS_Running
               | CSt_Terminated => CS_Terminated reason
               end in
  let pool_id := match d ≫= cd_pool_id with
                 | Some p => Some p
                 | None => match container_type with CT_Function => Some (for_function app fn version) | CT_Sandbox => None end
                 end in
  Ok (MkContainer id namespace app fn version state resources max_concurrency container_type
        (meta ≫= smp_image) secret_names (default 0 (meta ≫= smp_timeout_secs))
        (match meta with Some m => smp_entrypoint m | None => [] end) None (meta ≫= smp_sandbox_id) pool_id None None None).

(** [TryFrom<ExecutorState> for ExecutorMetadata]; the builder rejects a missing
    required field. *)
Definition executor_from_pb (s : ExecutorStatePb) : result string ExecutorMetadata :=
  id ?<- ok_or (esp_executor_id s) "executor_id is required";;
  let allowed := allowlist_from_pb <$> esp_allowed_functions s in
  containers ?<- collect container_from_pb (esp_container_states s);;
  host ?<- match esp_total_container_resources s with
           | None => Ok None
           | Some h =>
               _ ?<- ok_or (hrp_cpu_count h) "cpu_count is required";;
               _ ?<- ok_or (hrp_memory_bytes h) "memory_bytes is required";;
               _ ?<- ok_or (hrp_disk_bytes h) "disk_bytes is required";;
               r ?<- host_from_pb h;; Ok (Some r)
           end;;
  version ?<- ok_or (esp_version s) "`executor_version` must be initialized";;
  addr ?<- ok_or (esp_hostname s) "`addr` must be initialized";;
  host ?<- ok_or host "`host_resources` must be initialized";;
  hash ?<- ok_or (esp_state_hash s) "`state_hash` must be initialized";;
  Ok (MkExecutorMetadata id version (match allowed with [] => None | _ => Some allowed end) addr (esp_labels s)
        (foldl (λ m c, <[ctr_id c := c]> m) ∅ containers) host
        (executor_state_from_pb (enum_get executor_statuses ESt_Unknown (esp_status s))) false hash
        (default 0 (esp_server_clock s)) (esp_catalog_entry_name s) None None (esp_proxy_address s)).

(** The proto-to-internal half of [handle_full_state]: malformed containers are skipped. *)
Definition full_state_from_pb (executor_id : ExecutorId) (s : DataplaneStateFullSync) : result string ExecutorMetadata :=
  host ?<- transpose host_from_pb (dsf_total_container_resources s);;
  let allowed := allowlist_from_pb <$> dsf_allowed_functions s in
  let containers := omap (λ c, match container_from_pb c with Ok c => Some c | Err _ => None end) (dsf_container_states s) in
  Ok (MkExecutorMetadata executor_id (default "" (dsf_version s)) (match allowed with [] => None | _ => Some allowed end)
        (default "" (dsf_hostname s)) (dsf_labels s) (foldl (λ m c, <[ctr_id c := c]> m) ∅ containers)
        (default (MkHostResources 0 0 0 None) host) ES_Running false "" 0 (dsf_catalog_entry_name s) None None (dsf_proxy_address s)).

(** ** Failure reasons *)

Definition proto_failure_reason_to_internal (r : AllocationFailureReason) : FunctionRunFailureReason :=
  match r with
  | AFR_Unknown => FRF_Unknown
  | AFR_InternalError => FRF_InternalError
  | AFR_FunctionError => FRF_FunctionError
  | AFR_FunctionTimeout => FRF_FunctionTimeout
  | AFR_RequestError => FRF_RequestError
  | AFR_AllocationCancelled => FRF_FunctionRunCancelled
  | AFR_ContainerTerminated => FRF_FunctionExecutorTerminated
  | AFR_Oom => FRF_OutOfMemory
  | AFR_ConstraintUnsatisfiable => FRF_ConstraintUnsatisfiable
  | AFR_ExecutorRemoved => FRF_ExecutorRemoved
  | AFR_StartupFailedInternalError => FRF_ContainerStartupInternalError
  | AFR_StartupFailedFunctionError => FRF_ContainerStartupFunctionError
  | AFR_StartupFailedFunctionTimeout => FRF_ContainerStartupFunctionTimeout
  | AFR_StartupFailedBadImage => FRF_ContainerStartupBadImage
  end.
Definition proto_failure_reason_to_termination_reason (r : AllocationFailureReason) : ContainerTerminationReason :=
  match r with
  | AFR_StartupFailedInternalError => CTR_StartupFailedInternalError
  | AFR_StartupFailedFunctionError => CTR_StartupFailedFunctionError
  | AFR_StartupFailedFunctionTimeout => CTR_StartupFailedFunctionTimeout
  | AFR_StartupFailedBadImage => CTR_StartupFailedBadImage
  | AFR_Oom => CTR_Oom
  | AFR_FunctionTimeout => CTR_FunctionTimeout
  | AFR_FunctionError | AFR_ContainerTerminated => CTR_Unhealthy
  | _ => CTR_Unknown
  end.

(** ** Payloads and calls *)

(** [DataPayloadEncoding] of a content type; [string_to_data_payload_encoding]. *)
Definition string_to_data_payload_encoding (v : string) : DataPayloadEncoding :=
  if bool_decide (v = "application/json") then DPE_Utf8Json
  else if bool_decide (v = "application/python-pickle") then DPE_BinaryPickle
  else if bool_decide (v = "application/zip") then DPE_BinaryZip
  else if bool_decide (v = "text/plain") then DPE_Utf8Text
  else DPE_Raw.
Definition payload_encoding_number (e : DataPayloadEncoding) : Z :=
  match e with DPE_Unknown => 0 | DPE_Utf8Json => 1 | DPE_Utf8Text => 2 | DPE_BinaryPickle => 3 | DPE_BinaryZip => 4 | DPE_Raw => 5 end.

Section payloads.
Context (url_host : string → option (option string)).
(** The scheme and the URL of the blob store of a namespace, and a fresh id. *)
Context (blob_store : string → string * string).

(** [prepare_data_payload]; [fresh] is [nanoid!()]. *)
Definition prepare_data_payload (fresh : string) (msg : DataPayloadPb) (scheme url : string) : result string DataPayload :=
  uri ?<- ok_or (dpb_uri msg) "uri is required";;
  size ?<- ok_or (dpb_size msg) "size is required";;
  sha ?<- ok_or (dpb_sha256_hash msg) "sha256_hash is required";;
  enc ?<- ok_or (dpb_encoding msg) "encoding is required";;
  enc ?<- ok_or (enum_try_from payload_encodings enc) "unknown enumeration value";;
  let encoding := match enc with
                  | DPE_Utf8Json => "application/json"
                  | DPE_BinaryPickle => "application/python-pickle"
                  | DPE_Utf8Text => "text/plain"
                  | DPE_BinaryZip => "application/zip"
                  | DPE_Raw | DPE_Unknown => "application/octet-stream"
                  end in
  let encoding := match dpb_content_type msg with
                  | Some ct => if bool_decide (ct = "") then encoding else ct
                  | None => encoding
                  end in
  Ok (MkDataPayload (default fresh (dpb_id msg)) (blob_store_url_to_path url_host uri scheme url) (default 0 (dpb_metadata_size msg))
        (default 0 (dpb_offset msg)) size sha encoding).

Definition to_internal_function_arg (fresh : string) (arg : FunctionArgPb) (scheme url : string) : result string FunctionArgs :=
  source ?<- ok_or (fap_source arg) "source is required";;
  match source with
  | FAS_FunctionCallId id => Ok (FA_FunctionRunOutput id)
  | FAS_InlineData data => p ?<- prepare_data_payload fresh data scheme url;; Ok (FA_DataPayload p)
  end.
(** [fresh] numbers the arguments: every payload without an id gets its own. *)
Definition to_internal_function_args (fresh : nat → string) (args : list FunctionArgPb) (scheme url : string) : result string (list FunctionArgs) :=
  collect (λ '(i, arg), to_internal_function_arg (fresh i) arg scheme url) (zip (seq 0 (length args)) args).
Definition to_internal_function_call (fresh : nat → string) (call : FunctionCallPb) (source_function_call_id : option string) : result string FunctionCall :=
  target ?<- ok_or (fcp_target call) "target is required";;
  namespace ?<- ok_or (ref_namespace target) "namespace is required";;
  let '(scheme, url) := blob_store namespace in
  id ?<- ok_or (fcp_id call) "id is required";;
  fn ?<- ok_or (ref_function_name target) "function_name is required";;
  inputs ?<- to_internal_function_args fresh (fcp_args call) scheme url;;
  Ok (MkFunctionCall id inputs fn (default "" (fcp_call_metadata call)) source_function_call_id).
Definition to_internal_reduce_op (fresh : nat → string) (op : ReduceOpPb) : result string ReduceOperation :=
  reducer ?<- ok_or (rop_reducer op) "reducer is required";;
  namespace ?<- ok_or (ref_namespace reducer) "namespace is required";;
  let '(scheme, url) := blob_store namespace in
  id ?<- ok_or (rop_id op) "reduce op id is required";;
  fn ?<- ok_or (ref_function_name reducer) "function_name is required";;
  meta ?<- ok_or (rop_call_metadata op) "call_metadata is required";;
  collection ?<- to_internal_function_args fresh (rop_collection op) scheme url;;
  Ok (MkReduceOperation id collection fn meta).
Definition to_internal_compute_op (fresh : nat → string) (u : ExecutionPlanUpdate) (source_function_call_id : option string) : result string ComputeOp :=
  op ?<- ok_or (epu_op u) "op is required";;
  match op with
  | EPO_FunctionCall call => c ?<- to_internal_function_call fresh call source_function_call_id;; Ok (CO_FunctionCall c)
  | EPO_Reduce r => r ?<- to_internal_reduce_op fresh r;; Ok (CO_Reduce r)
  end.
End payloads.

(** ** Round trips *)

Lemma strip_prefix_app p s : strip_prefix p (p +:+ s) = Some s.
Proof. induction p as [|a p IH]; [done|]. change (String a p +:+ s) with (String a (p +:+ s)). cbn [strip_prefix]. by rewrite Ascii.eqb_refl. Qed.
Lemma strip_prefix_Some p s r : strip_prefix p s = Some r → s = p +:+ r.
Proof.
  revert s. induction p as [|a p IH]; intros s; cbn [strip_prefix]; [by intros [= ->]|]. destruct s as [|b s]; [done|].
  destruct (Ascii.eqb a b) eqn:E; [|done]. intros H%IH. apply Ascii.eqb_eq in E. by rewrite E, H.
Qed.

(** A path sent to an executor and sent back is the same path. *)
Lemma blob_path_roundtrip url_host path scheme url :
  scheme = "file" ∨ scheme = "s3" →
  blob_store_url_to_path url_host (blob_store_path_to_url url_host path scheme url) scheme url = path.
Proof.
  unfold blob_store_url_to_path, blob_store_path_to_url. intros [->| ->].
  - rewrite !bool_decide_eq_true_2 by done. by rewrite <-string_app_assoc, strip_prefix_app.
  - rewrite !(bool_decide_eq_false_2 ("s3" = "file")) by done. rewrite !bool_decide_eq_true_2 by done.
    set (b := bucket_name_from_s3_url url_host url).
    assert (E : "s3" +:+ "://" +:+ b +:+ "/" +:+ path = ("s3" +:+ "://" +:+ b +:+ "/") +:+ path) by (by rewrite !string_app_assoc).
    by rewrite E, strip_prefix_app.
Qed.

Lemma gpu_roundtrip g p : gpu_to_pb g = Ok p → gpu_from_pb p = Ok g.
Proof.
  destruct g as [n m]. unfold gpu_to_pb. cbn [gpu_count gpu_model]. case_bool_decide as Hn; [done|].
  repeat (case_bool_decide; [subst; intros [= <-]; unfold gpu_from_pb; cbn; by rewrite bool_decide_eq_false_2|]). done.
Qed.
Lemma gpu_roundtrip_pb p g : gpu_from_pb p = Ok g → ∃ q, gpu_to_pb g = Ok q ∧ gpu_from_pb q = Ok g.
Proof.
  unfold gpu_from_pb at 1. case_bool_decide as Hn; [done|]. intros H.
  assert (Hq : ∃ q, gpu_to_pb g = Ok q).
  { destruct (enum_get gpu_models GM_Unknown (gpb_model p)); cbn in H; [done|injection H as <-; unfold gpu_to_pb; cbn [gpu_count gpu_model]; rewrite (bool_decide_eq_false_2 _ Hn); eexists; reflexivity..]. }
  destruct Hq as [q Hq]. exists q. split; [done|]. by apply gpu_roundtrip.
Qed.
Lemma mb_bytes_roundtrip mb : 0 ≤ mb → mb * 1048576 < 2 ^ 64 → mb_to_bytes mb / 1024 / 1024 = mb.
Proof.
  intros H0 H1. unfold mb_to_bytes. rewrite !wrap64_id by (unfold in_u64; lia || (rewrite wrap64_id by (unfold in_u64; lia); unfold in_u64; lia)).
  rewrite Z.div_div by lia. replace (mb * 1024 * 1024) with (mb * (1024 * 1024)) by lia. by rewrite Z.div_mul.
Qed.

(** The size of a container whose bytes fit in 64 bits. *)
Definition representable (r : ContainerResources) : Prop :=
  (0 ≤ cres_memory_mb r ∧ cres_memory_mb r * 1048576 < 2 ^ 64) ∧ (0 ≤ cres_ephemeral_disk_mb r ∧ cres_ephemeral_disk_mb r * 1048576 < 2 ^ 64).
Lemma cres_roundtrip r p : representable r → cres_to_pb r = Ok p → cres_from_pb p = Ok r.
Proof.
  intros [Hm Hd] H. destruct r as [cpu m d g]. cbn in Hm, Hd. unfold cres_to_pb in H. cbn [cres_gpu cres_cpu_ms_per_sec cres_memory_mb cres_ephemeral_disk_mb] in H.
  unfold transpose in H. destruct g as [g|].
  - destruct (gpu_to_pb g) as [q|] eqn:E; cbn in H; [|done]. injection H as <-. unfold cres_from_pb. cbn.
    rewrite (gpu_roundtrip _ _ E). cbn. by rewrite !mb_bytes_roundtrip by lia.
  - injection H as <-. unfold cres_from_pb. cbn. by rewrite !mb_bytes_roundtrip by lia.
Qed.

(** ** GPUs an executor reports *)

(** [str::contains]. *)
Fixpoint contains (p s : string) : bool :=
  bool_decide (is_Some (strip_prefix p s)) || match s with EmptyString => false | String _ s => contains p s end.
(** [product_name_to_gpu_model] of the dataplane, on the name [nvidia-smi] prints. *)
Definition product_name_to_gpu_model (name : string) : GpuModelPb :=
  if String.prefix "NVIDIA A100" name && contains "80GB" name then GM_NvidiaA10080gb
  else if String.prefix "NVIDIA A100" name && contains "40GB" name then GM_NvidiaA10040gb
  else if String.prefix "NVIDIA H100" name && contains "80GB" name then GM_NvidiaH10080gb
  else if String.prefix "Tesla T4" name then GM_NvidiaTeslaT4
  else if String.prefix "NVIDIA RTX A6000" name then GM_NvidiaA6000
  else if String.prefix "NVIDIA A10" name then GM_NvidiaA10
  else GM_Unknown.
(** [gpu_resources_from_info], on the product names of the GPUs found. *)
Definition gpu_resources_from_info (gpus : list string) : option GpuResourcesPb :=
  match gpus with
  | [] => None
  | name :: _ => Some (MkGpuResourcesPb (Some (len_u32 (length gpus))) (Some (gpu_model_number (product_name_to_gpu_model name))))
  end.

(** An executor whose first GPU is of a model outside the table cannot register:
    whatever else its full state says, the conversion fails, because the error of the
    GPU is propagated.  The conversion of [ExecutorState] computes host resources
    without the unknown GPU first and then overwrites them with the failing
    conversion. *)
Theorem unknown_gpu_rejects_executor id full st gpus name h :
  product_name_to_gpu_model name = GM_Unknown → hrp_gpu h = gpu_resources_from_info (name :: gpus) →
  dsf_total_container_resources full = Some h → esp_total_container_resources st = Some h →
  is_ok (full_state_from_pb id full) = false ∧ is_ok (executor_from_pb st) = false.
Proof.
  intros Hn Hg Hf Hs.
  assert (Hh : is_ok (host_from_pb h) = false).
  { unfold host_from_pb. rewrite Hg. cbn [gpu_resources_from_info]. rewrite Hn. unfold gpu_from_pb. cbn [gpb_count gpb_model default].
    destruct (hrp_cpu_count h), (hrp_memory_bytes h), (hrp_disk_bytes h); try done. cbn [ok_or result_bind transpose]. by case_bool_decide. }
  split.
  - unfold full_state_from_pb. rewrite Hf. cbn [transpose]. by destruct (host_from_pb h).
  - unfold executor_from_pb. rewrite Hs. destruct (esp_executor_id st); [|done]. cbn [ok_or result_bind].
    destruct (collect _ _); [|done]. cbn [result_bind].
    destruct (hrp_cpu_count h), (hrp_memory_bytes h), (hrp_disk_bytes h); try done. cbn [ok_or result_bind]. by destruct (host_from_pb h).
Qed.
Lemma unknown_gpu_rejects_executor_witness :
  product_name_to_gpu_model "NVIDIA L40S" = GM_Unknown ∧
  let h := MkHostResourcesPb (Some 8) (Some 1024) (Some 1024) (gpu_resources_from_info ["NVIDIA L40S"]) in
  is_ok (full_state_from_pb "e1" (MkDataplaneStateFullSync None None None (Some h) [] ∅ None None [])) = false.
Proof.
  split; [vm_compute; reflexivity|]. intros h.
  refine (proj1 (unknown_gpu_rejects_executor "e1" _ (MkExecutorStatePb None None None None None (Some h) [] [] ∅ None None None None) []
    "NVIDIA L40S" h _ _ _ _)); [vm_compute; reflexivity|reflexivity|reflexivity|reflexivity].
Defined.
