(* ===== verification/CommandEmission.v ===== *)
(** * Commands for the executors

    [executors/command_emission.rs] and the parts of [executors.rs] it calls: the
    commands a scheduler update turns into, and the full desired state of an executor
    that is sent when it registers or asks for a resynchronisation.  The protobuf
    encoding of a command, the blob stores of the namespaces and the URL parser are
    parameters. *)
From S2P Require Import Prelude DataModel Resources Updates InMemoryState SchedulerState Placement ContainerScheduler FunctionRuns ProtoConvert.
Open Scope string_scope.
Open Scope list_scope.
Open Scope Z_scope.

(** The [oneof] of [Command]. *)
Inductive CommandBody :=
| CB_AddContainer (container : ContainerDescription)
| CB_RemoveContainer (container_id : string) (reason : option Z)
| CB_RunAllocation (allocation : AllocationPb)
| CB_KillAllocation (allocation_id : string)
| CB_UpdateContainerDescription (container_id : string) (sandbox_metadata : option SandboxMetadataPb)
| CB_SnapshotContainer (container_id snapshot_id upload_uri : string).

(** [network_policy_to_pb]. *)
Definition network_policy_to_pb (np : NetworkPolicy) : NetworkPolicyPb :=
  MkNetworkPolicyPb (Some (np_allow_internet_access np)) (np_allow_out np) (np_deny_out np).
(** [DataPayload::request_key_prefix]. *)
Definition request_key_prefix (ns app req : string) : string := ns +:+ "/" +:+ app +:+ "/" +:+ req.
(** [timeout_secs.saturating_mul(1000).try_into().unwrap_or(u32::MAX)]. *)
Definition timeout_ms (secs : Z) : Z := let ms := Z.min u64_max (secs * 1000) in if bool_decide (ms ≤ u32_max) then ms else u32_max.

(** [DesiredStateFunctionExecutor], [PendingSnapshot], [DesiredExecutorState] and
    [ExecutorStateSnapshot]. *)
Record DesiredStateFunctionExecutor := MkDesiredFE {
  dfe_function_executor : ContainerServerMetadata;
  dfe_resources : ContainerResources;
  dfe_secret_names : list string;
  dfe_initialization_timeout_ms : Z;
  dfe_code_payload : option DataPayload;
  dfe_image : option string;
  dfe_allocation_timeout_ms : Z;
  dfe_sandbox_timeout_secs : Z;
  dfe_entrypoint : list string;
  dfe_network_policy : option NetworkPolicy;
  dfe_snapshot_uri : option string;
}.
Record PendingSnapshot := MkPendingSnapshot { psn_container_id : string; psn_snapshot_id : string; psn_upload_uri : string }.
Record DesiredExecutorState := MkDesiredExecutorState {
  des_containers : list DesiredStateFunctionExecutor;
  des_function_run_allocations : gmap ContainerId (list Allocation);
  des_pending_snapshots : list PendingSnapshot;
  des_clock : Z;
}.
Record ExecutorStateSnapshot := MkExecutorStateSnapshot {
  ess_containers : list ContainerDescription;
  ess_allocations : list AllocationPb;
  ess_pending_snapshots : list PendingSnapshot;
  ess_clock : option Z;
}.

Section emission.
Context `{HO : HashOrder}.
Context (url_host : string → option (option string)) (blob_store : string → string * string) (encode : CommandBody → Bytes).

(** The version of a container's application and its function there. *)
Definition container_version (im : InMemoryState) (c : Container) : option ApplicationVersion :=
  im_application_versions im !! version_key (ctr_namespace c) (ctr_application_name c) (ctr_version c).
Definition container_function (im : InMemoryState) (c : Container) : option Function_ :=
  container_version im c ≫= λ v, av_functions v !! ctr_function_name c.
Definition container_type_number (t : ContainerType) : Z := match t with CT_Function => 1 | CT_Sandbox => 2 end.
Definition container_ref (c : Container) : FunctionRef :=
  MkFunctionRef (Some (ctr_namespace c)) (Some (ctr_application_name c)) (Some (ctr_function_name c)) (Some (ctr_version c)).

(** [build_container_description_from_meta]. *)
Definition build_container_description_from_meta (im : InMemoryState) (meta : ContainerServerMetadata) : option ContainerDescription :=
  let fe := csm_function_container meta in
  let node := container_function im fe in
  let code := (λ code, MkDataPayloadPb (Some (blob_store_path_to_url url_host (dp_path code) (blob_store (ctr_namespace fe)).1 (blob_store (ctr_namespace fe)).2))
                         (Some (payload_encoding_number DPE_BinaryZip)) (Some 0) (Some "application/zip") (Some 0) (Some 0) (Some (dp_size code))
                         (Some (dp_sha256_hash code)) None (Some (dp_id code))) <$> (container_version im fe ≫= av_code) in
  let sandbox_metadata :=
    if bool_decide (ctr_container_type fe = CT_Sandbox)
    then Some (MkSandboxMetadataPb (if bool_decide (0 < ctr_timeout_secs fe) then Some (ctr_timeout_secs fe) else None) (ctr_entrypoint fe)
                 (ctr_image fe) (network_policy_to_pb <$> ctr_network_policy fe) (ctr_sandbox_id fe) (ctr_snapshot_uri fe))
    else None in
  match cres_to_pb (ctr_resources fe) with
  | Err _ => None
  | Ok resources =>
      Some (MkContainerDescription (Some (ctr_id fe)) (Some (container_ref fe)) (default [] (node ≫= fn_secret_names))
              (Some (default (timeout_ms (ctr_timeout_secs fe)) (fn_initialization_timeout <$> node))) code (Some resources)
              (Some (ctr_max_concurrency fe)) (Some (default (timeout_ms (ctr_timeout_secs fe)) (fn_timeout <$> node))) sandbox_metadata
              (Some (container_type_number (ctr_container_type fe))) (ctr_pool_id fe))
  end.

(** One argument of an allocation. *)
Definition arg_to_proto (ns : string) (arg : InputArgs) : DataPayloadPb :=
  let p := ia_data_payload arg in
  MkDataPayloadPb (Some (blob_store_path_to_url url_host (dp_path p) (blob_store ns).1 (blob_store ns).2))
    (Some (payload_encoding_number (string_to_data_payload_encoding (dp_encoding p)))) (Some 0) (Some (dp_encoding p)) (Some (dp_metadata_size p))
    (Some (dp_offset p)) (Some (dp_size p)) (Some (dp_sha256_hash p)) (ia_function_call_id arg) (Some (dp_id p)).
Definition payload_uri_prefix (a : Allocation) : string :=
  (blob_store (al_namespace a)).2 +:+ "/" +:+ request_key_prefix (al_namespace a) (al_application a) (al_request_id a).
(** [allocation_to_proto]. *)
Definition allocation_to_proto (a : Allocation) : AllocationPb :=
  MkAllocationPb (Some (MkFunctionRef (Some (al_namespace a)) (Some (al_application a)) (Some (al_function a)) None)) (Some (al_id a))
    (Some (al_function_call_id a)) (Some (al_request_id a)) (arg_to_proto (al_namespace a) <$> al_input_args a) (Some (payload_uri_prefix a))
    (Some (payload_uri_prefix a)) (Some (at_container_id (al_target a))) (Some (al_call_metadata a)) None None.

(** ** Commands of an update *)

Definition container_command_priority (cid : ContainerId) (meta : ContainerServerMetadata) (updated : gset ContainerId) : Z :=
  if is_terminated (csm_desired_state meta) then 0
  else if bool_decide (csm_container_type meta = CT_Sandbox) && bool_decide (cid ∈ updated) then 1
  else if bool_decide (ctr_state (csm_function_container meta) = CS_Pending) then 2
  else 3.
Definition updated_sandbox_container_ids (u : SchedulerUpdateRequest) : gset ContainerId :=
  list_to_set (omap sb_container_id (map_iter (su_updated_sandboxes u)).*2).
Definition command_le (updated : gset ContainerId) (x y : ContainerId * ContainerServerMetadata) : Prop :=
  pair_le (container_command_priority x.1 x.2 updated, x.1) (container_command_priority y.1 y.2 updated, y.1).
#[export] Instance command_le_dec updated : RelDecision (command_le updated).
Proof. intros x y. unfold command_le. apply _. Defined.
(** The command of one container, if any. *)
Definition container_command (im : InMemoryState) (updated : gset ContainerId) (cid : ContainerId) (meta : ContainerServerMetadata) : option CommandBody :=
  if is_terminated (csm_desired_state meta) then Some (CB_RemoveContainer cid None)
  else if bool_decide (ctr_state (csm_function_container meta) = CS_Pending)
  then CB_AddContainer <$> build_container_description_from_meta im meta
  else if bool_decide (csm_container_type meta = CT_Sandbox) && bool_decide (cid ∈ updated)
  then (λ d, CB_UpdateContainerDescription cid (cd_sandbox_metadata d)) <$> build_container_description_from_meta im meta
  else None.
Definition container_commands (im : InMemoryState) (u : SchedulerUpdateRequest) : list (ExecutorId * CommandBody) :=
  let updated := updated_sandbox_container_ids u in
  omap (λ '(cid, meta), (λ c, (csm_executor_id meta, c)) <$> container_command im updated cid meta)
    (merge_sort (command_le updated) (map_iter (su_containers u))).
Definition snapshot_command (im : InMemoryState) (u : SchedulerUpdateRequest) (s : Snapshot) : option (ExecutorId * CommandBody) :=
  let key := sandbox_key_new (snap_namespace s) (snap_sandbox_id s) in
  match match su_updated_sandboxes u !! key with Some sb => Some sb | None => im_sandboxes im !! key end with
  | None => None
  | Some sb =>
      eid ← sb_executor_id sb;
      match snap_status s with
      | SnapInProgress =>
          uri ← snap_upload_uri s;
          cid ← sb_container_id sb;
          Some (eid, CB_SnapshotContainer cid (snap_id s) uri)
      | _ => None
      end
  end.
Definition update_commands (im : InMemoryState) (u : SchedulerUpdateRequest) : list (ExecutorId * CommandBody) :=
  container_commands im u ++
  ((λ a, (at_executor_id (al_target a), CB_RunAllocation (allocation_to_proto a))) <$> su_new_allocations u) ++
  omap (snapshot_command im u) (map_iter (su_updated_snapshots u)).*2.
(** [rebuild_scheduler_command_intents]. *)
Definition rebuild_scheduler_command_intents (u : SchedulerUpdateRequest) (im : InMemoryState) : SchedulerUpdateRequest :=
  u <| su_scheduler_command_intents := (λ '(eid, c), MkSchedulerCommandIntent eid (encode c)) <$> update_commands im u |>.

(** ** The full desired state *)

Definition desired_fe (im : InMemoryState) (meta : ContainerServerMetadata) : DesiredStateFunctionExecutor :=
  let fe := csm_function_container meta in
  let node := container_function im fe in
  MkDesiredFE meta (ctr_resources fe) (default [] (node ≫= fn_secret_names))
    (default (timeout_ms (ctr_timeout_secs fe)) (fn_initialization_timeout <$> node))
    ((λ code, MkDataPayload (dp_id code) (dp_path code) 0 0 (dp_size code) (dp_sha256_hash code) "DATA_PAYLOAD_ENCODING_BINARY_ZIP")
       <$> (container_version im fe ≫= av_code))
    (ctr_image fe) (default (timeout_ms (ctr_timeout_secs fe)) (fn_timeout <$> node)) (ctr_timeout_secs fe) (ctr_entrypoint fe)
    (ctr_network_policy fe) (ctr_snapshot_uri fe).
Definition pending_snapshot (im : InMemoryState) (eid : ExecutorId) (sb : Sandbox) : option PendingSnapshot :=
  match sb_status sb with
  | SS_Snapshotting sid =>
      sb_eid ← sb_executor_id sb;
      if bool_decide (sb_eid = eid) then
        cid ← sb_container_id sb;
        snap ← im_snapshots im !! snapshot_key_new (sb_namespace sb) sid;
        uri ← snap_upload_uri snap;
        Some (MkPendingSnapshot cid sid uri)
      else None
  | _ => None
  end.
Definition active_containers (s : ContainerScheduler) (st : ExecutorServerMetadata) : list ContainerServerMetadata :=
  omap (λ cid, match cs_function_containers s !! cid with
               | Some fc => if is_terminated (csm_desired_state fc) then None else Some fc
               | None => None
               end) (set_iter (esm_function_container_ids st)).
Definition container_allocations (im : InMemoryState) (eid : ExecutorId) (cid : ContainerId) : list Allocation :=
  match im_allocations_by_executor im !! eid ≫= lookup cid with Some m => (map_iter m).*2 | None => [] end.
Definition desired_state (im : InMemoryState) (s : ContainerScheduler) (eid : ExecutorId) : option DesiredExecutorState :=
  ex ← cs_executors s !! eid;
  if em_tombstoned ex then None else
  st ← cs_executor_states s !! eid;
  let active := active_containers s st in
  Some (MkDesiredExecutorState (desired_fe im <$> active)
          (foldl (λ m meta, let cid := ctr_id (csm_function_container meta) in <[cid := container_allocations im eid cid]> m) ∅ active)
          (omap (pending_snapshot im eid) (ord_iter (im_sandboxes im)).*2) (im_clock im)).
(** The description [get_executor_state] builds for one container. *)
Definition desired_description (d : DesiredStateFunctionExecutor) : option ContainerDescription :=
  let fe := csm_function_container (dfe_function_executor d) in
  let code := (λ code, MkDataPayloadPb (Some (blob_store_path_to_url url_host (dp_path code) (blob_store (ctr_namespace fe)).1 (blob_store (ctr_namespace fe)).2))
                         (Some (payload_encoding_number DPE_BinaryZip)) (Some 0) (Some "application/zip") (Some (dp_metadata_size code)) (Some (dp_offset code))
                         (Some (dp_size code)) (Some (dp_sha256_hash code)) None (Some (dp_id code))) <$> dfe_code_payload d in
  let sandbox_metadata :=
    if bool_decide (ctr_container_type fe = CT_Sandbox)
    then Some (MkSandboxMetadataPb (if bool_decide (0 < dfe_sandbox_timeout_secs d) then Some (dfe_sandbox_timeout_secs d) else None) (dfe_entrypoint d)
                 (dfe_image d) (network_policy_to_pb <$> dfe_network_policy d) (ctr_sandbox_id fe) (dfe_snapshot_uri d))
    else None in
  match cres_to_pb (dfe_resources d) with
  | Err _ => None
  | Ok resources =>
      Some (MkContainerDescription (Some (ctr_id fe)) (Some (container_ref fe)) (dfe_secret_names d) (Some (dfe_initialization_timeout_ms d)) code
              (Some resources) (Some (ctr_max_concurrency fe)) (Some (dfe_allocation_timeout_ms d)) sandbox_metadata
              (Some (container_type_number (ctr_container_type fe))) (ctr_pool_id fe))
  end.
(** The message [get_executor_state] builds for one allocation, from the container it
    is listed under. *)
Definition desired_allocation (cid : ContainerId) (a : Allocation) : AllocationPb :=
  MkAllocationPb (Some (MkFunctionRef (Some (al_namespace a)) (Some (al_application a)) (Some (al_function a)) None)) (Some (al_id a))
    (Some (al_function_call_id a)) (Some (al_request_id a)) (arg_to_proto (al_namespace a) <$> al_input_args a) (Some (payload_uri_prefix a))
    (Some (payload_uri_prefix a)) (Some cid) (Some (al_call_metadata a)) None None.
Definition get_executor_state (im : InMemoryState) (s : ContainerScheduler) (eid : ExecutorId) : option ExecutorStateSnapshot :=
  d ← desired_state im s eid;
  Some (MkExecutorStateSnapshot (omap desired_description (des_containers d))
          (flat_map (λ '(cid, l), desired_allocation cid <$> l) (map_iter (des_function_run_allocations d)))
          (des_pending_snapshots d) (Some (des_clock d))).
(** [commands_from_full_snapshot]. *)
Definition commands_from_full_snapshot (s : ExecutorStateSnapshot) : list CommandBody :=
  (CB_AddContainer <$> ess_containers s) ++ (CB_RunAllocation <$> ess_allocations s) ++
  ((λ p, CB_SnapshotContainer (psn_container_id p) (psn_snapshot_id p) (psn_upload_uri p)) <$> ess_pending_snapshots s).
(** What [emit_commands_for_executor] enqueues. *)
Definition full_sync_commands (im : InMemoryState) (s : ContainerScheduler) (eid : ExecutorId) : list CommandBody :=
  match get_executor_state im s eid with Some snapshot => commands_from_full_snapshot snapshot | None => [] end.
End emission.

(** ** The order and content of the commands *)

(** A sorted list whose smaller elements satisfy [p] first splits there. *)
Lemma sorted_split {A} (R : A → A → Prop) (p : A → bool) (l : list A) :
  StronglySorted R l → (∀ x y, R x y → p y = true → p x = true) →
  l = List.filter p l ++ List.filter (λ x, negb (p x)) l.
Proof.
  intros Hs Hp. induction Hs as [|x l Hs IH Hf]; [done|]. cbn. destruct (p x) eqn:E; cbn; [by f_equal|].
  assert (En : List.filter p l = []).
  { clear IH Hs. induction Hf as [|y l Hy Hf IH]; [done|]. cbn. destruct (p y) eqn:Ey; [|done]. by rewrite (Hp _ _ Hy Ey) in E. }
  rewrite En in IH |- *. cbn in *. by f_equal.
Qed.


Section commands.
Context `{HO : HashOrder}.
Context (url_host : string → option (option string)) (blob_store : string → string * string).
Local Notation describe := (build_container_description_from_meta url_host blob_store).
Local Notation command_of := (container_command url_host blob_store).
Local Notation to_proto := (allocation_to_proto url_host blob_store).

#[local] Instance command_le_trans updated : Transitive (command_le updated).
Proof. intros x y z. apply pair_le_trans. Qed.
#[local] Instance command_le_total updated : Total (command_le updated).
Proof. intros x y. apply pair_le_total. Qed.
Definition sorted_containers (u : SchedulerUpdateRequest) : list (ContainerId * ContainerServerMetadata) :=
  merge_sort (command_le (updated_sandbox_container_ids u)) (map_iter (su_containers u)).
Lemma elem_of_sorted_containers u cid meta : (cid, meta) ∈ sorted_containers u ↔ su_containers u !! cid = Some meta.
Proof. unfold sorted_containers. rewrite merge_sort_Permutation. apply elem_of_map_iter. Qed.
Lemma sorted_containers_split u :
  sorted_containers u = List.filter (λ x, is_terminated (csm_desired_state x.2)) (sorted_containers u) ++
                        List.filter (λ x, negb (is_terminated (csm_desired_state x.2))) (sorted_containers u).
Proof.
  apply (sorted_split (command_le (updated_sandbox_container_ids u))); [apply StronglySorted_merge_sort; apply _|].
  intros [c m] [c' m'] H Ht. cbn in *. unfold command_le, pair_le, container_command_priority in H. cbn in H. rewrite Ht in H.
  destruct (is_terminated (csm_desired_state m)); [done|]. exfalso.
  destruct (_ && _) in H; [lia|]. case_bool_decide; lia.
Qed.

(** The command of a container in full: a removal when it is marked terminated, the
    description when it is still pending, and the new metadata when it is a running
    sandbox container whose sandbox the update changes. *)
Lemma container_command_spec im updated cid meta c :
  command_of im updated cid meta = Some c ↔
  if is_terminated (csm_desired_state meta) then c = CB_RemoveContainer cid None
  else ∃ d, describe im meta = Some d ∧
    (ctr_state (csm_function_container meta) = CS_Pending ∧ c = CB_AddContainer d ∨
     ctr_state (csm_function_container meta) ≠ CS_Pending ∧ csm_container_type meta = CT_Sandbox ∧ cid ∈ updated ∧
     c = CB_UpdateContainerDescription cid (cd_sandbox_metadata d)).
Proof.
  unfold container_command. destruct (is_terminated _); [split; [by intros [= <-]|by intros ->]|]. split.
  - intros Hc. case_bool_decide as Hp; [apply fmap_Some in Hc as (d & Hd & ->); naive_solver|].
    destruct (_ && _) eqn:E; [|done]. apply andb_true_iff in E as [E1%bool_decide_eq_true E2%bool_decide_eq_true].
    apply fmap_Some in Hc as (d & Hd & ->). naive_solver.
  - intros (d & Hd & [[Hp ->]|(Hp & E1 & E2 & ->)]); rewrite Hd; [by rewrite bool_decide_eq_true_2|].
    by rewrite bool_decide_eq_false_2, !bool_decide_eq_true_2 by done.
Qed.
(** The command of a snapshot: it is in progress, it has a place to upload to, and its
    sandbox, in the update or else in the tables, runs on an executor. *)
Lemma snapshot_command_spec im u s eid c :
  snapshot_command im u s = Some (eid, c) ↔
  ∃ sb cid uri, snap_status s = SnapInProgress ∧ snap_upload_uri s = Some uri ∧
    (let key := sandbox_key_new (snap_namespace s) (snap_sandbox_id s) in
     su_updated_sandboxes u !! key = Some sb ∨ su_updated_sandboxes u !! key = None ∧ im_sandboxes im !! key = Some sb) ∧
    sb_executor_id sb = Some eid ∧ sb_container_id sb = Some cid ∧ c = CB_SnapshotContainer cid (snap_id s) uri.
Proof.
  unfold snapshot_command. set (key := sandbox_key_new _ _). cbv zeta. split.
  - destruct (match su_updated_sandboxes u !! key with Some sb => Some sb | None => _ end) as [sb|] eqn:Esb; [|done].
    destruct (sb_executor_id sb) as [e|] eqn:Ee; [|done]. cbn. destruct (snap_status s) eqn:Es; [|done|done]. destruct (snap_upload_uri s) as [uri|] eqn:Eu; [|done]. cbn.
    destruct (sb_container_id sb) as [cid|] eqn:Ec; [|done]. intros [= <- <-]. exists sb, cid, uri. split_and!; [done|done| |done|done|done].
    destruct (su_updated_sandboxes u !! key); [left; exact Esb|right; by split].
  - intros (sb & cid & uri & Es & Eu & Hsb & Ee & Ec & ->).
    assert (E : match su_updated_sandboxes u !! key with Some sb => Some sb | None => im_sandboxes im !! key end = Some sb) by (destruct Hsb as [->|[-> ->]]; done).
    rewrite E, Ee. cbn. rewrite Es, Eu. cbn. by rewrite Ec.
Qed.

(** C26: the commands of a scheduler update come in the order executors rely on, and they
    are exactly these.  The containers of the update, each once, are listed with those
    marked terminated first, then the claimed sandbox containers, the pending ones and the
    rest, by id within each group; each of the terminated ones gets a removal, a pending
    one its description and a running sandbox container whose sandbox the update changes
    its new metadata, unless no description can be built, and the rest get nothing.  Then
    comes one command per new allocation, in order, and last one per snapshot of the
    update that is in progress, with a place to upload to and a sandbox that runs
    on an executor; the other snapshots get nothing.  So no container gets two container
    commands, and no snapshot two. *)
Theorem update_commands_exact (im : InMemoryState) (u : SchedulerUpdateRequest) :
  let updated := updated_sandbox_container_ids u in
  ∃ gone kept snaps,
    update_commands url_host blob_store im u =
      ((λ x, (csm_executor_id x.2, CB_RemoveContainer x.1 None)) <$> gone) ++
      omap (λ x, (λ c, (csm_executor_id x.2, c)) <$> command_of im updated x.1 x.2) kept ++
      ((λ a, (at_executor_id (al_target a), CB_RunAllocation (to_proto a))) <$> su_new_allocations u) ++
      omap (snapshot_command im u) snaps.*2 ∧
    gone ++ kept ≡ₚ map_to_list (su_containers u) ∧ NoDup (gone ++ kept).*1 ∧ StronglySorted (command_le updated) (gone ++ kept) ∧
    snaps ≡ₚ map_to_list (su_updated_snapshots u) ∧ NoDup snaps.*1 ∧
    Forall (λ x, is_terminated (csm_desired_state x.2) = true) gone ∧
    Forall (λ x, is_terminated (csm_desired_state x.2) = false ∧
      ∀ c, command_of im updated x.1 x.2 = Some c ↔
        ∃ d, describe im x.2 = Some d ∧
          (ctr_state (csm_function_container x.2) = CS_Pending ∧ c = CB_AddContainer d ∨
           ctr_state (csm_function_container x.2) ≠ CS_Pending ∧ csm_container_type x.2 = CT_Sandbox ∧ x.1 ∈ updated ∧
           c = CB_UpdateContainerDescription x.1 (cd_sandbox_metadata d))) kept ∧
    ∀ s eid c, snapshot_command im u s = Some (eid, c) ↔
      ∃ sb cid uri, snap_status s = SnapInProgress ∧ snap_upload_uri s = Some uri ∧
        (let key := sandbox_key_new (snap_namespace s) (snap_sandbox_id s) in
         su_updated_sandboxes u !! key = Some sb ∨ su_updated_sandboxes u !! key = None ∧ im_sandboxes im !! key = Some sb) ∧
        sb_executor_id sb = Some eid ∧ sb_container_id sb = Some cid ∧ c = CB_SnapshotContainer cid (snap_id s) uri.
Proof.
  intros updated. set (ended := λ x : ContainerId * ContainerServerMetadata, is_terminated (csm_desired_state x.2)).
  pose proof (sorted_containers_split u) as Esplit. fold ended in Esplit. change (λ x, negb (is_terminated (csm_desired_state x.2))) with (λ x, negb (ended x)) in Esplit.
  set (gone := List.filter ended _) in Esplit. set (kept := List.filter (λ x, negb (ended x)) _) in Esplit.
  assert (Hg : Forall (λ x, ended x = true) gone) by (apply Forall_forall; intros x Hx%list_elem_of_In; by apply filter_In in Hx as [_ Hx]).
  assert (Hk : Forall (λ x, ended x = false) kept) by (apply Forall_forall; intros x Hx%list_elem_of_In; apply filter_In in Hx as [_ Hx]; by apply negb_true_iff).
  assert (Hp : gone ++ kept ≡ₚ map_to_list (su_containers u)) by (rewrite <-Esplit; unfold sorted_containers; by rewrite merge_sort_Permutation, map_iter_perm).
  exists gone, kept, (map_iter (su_updated_snapshots u)). split_and!; [|done| | |apply map_iter_perm|apply NoDup_map_iter_fst|done| |apply snapshot_command_spec].
  - unfold update_commands. rewrite (app_assoc (_ <$> gone)). f_equal. unfold container_commands. fold updated.
    change (merge_sort (command_le updated) (map_iter (su_containers u))) with (sorted_containers u). rewrite Esplit, omap_app. f_equal.
    + clear -Hg. induction Hg as [|[cid meta] l Hx Hl IH]; [done|]. unfold ended in Hx. cbn in Hx |- *. unfold container_command at 1. rewrite Hx. cbn. by rewrite IH.
    + clear. induction kept as [|[cid meta] l IH]; [done|]. cbn. by rewrite IH.
  - rewrite Hp. apply NoDup_fst_map_to_list.
  - rewrite <-Esplit. apply StronglySorted_merge_sort; apply _.
  - eapply Forall_impl; [exact Hk|]. intros [cid meta] Hx. unfold ended in Hx. cbn in Hx |- *. split; [done|]. intros c. rewrite container_command_spec. by rewrite Hx.
Qed.
End commands.

(** ** The full desired state *)

Section full_sync.
Context `{HO : HashOrder}.
Context (url_host : string → option (option string)) (blob_store : string → string * string).
Local Notation describe := (build_container_description_from_meta url_host blob_store).
Local Notation to_proto := (allocation_to_proto url_host blob_store).

(** Both code paths describe a container in the same way. *)
Lemma desired_description_same im meta : desired_description url_host blob_store (desired_fe im meta) = describe im meta.
Proof.
  unfold desired_description, build_container_description_from_meta, desired_fe. cbn. destruct (cres_to_pb _); [|done].
  by destruct (container_version im (csm_function_container meta) ≫= av_code).
Qed.
Lemma elem_of_active s st fc :
  fc ∈ active_containers s st ↔ ∃ cid, cid ∈ esm_function_container_ids st ∧ cs_function_containers s !! cid = Some fc ∧ live fc = true.
Proof.
  unfold active_containers, live. rewrite list_elem_of_omap. split.
  - intros (cid & Hc%elem_of_set_iter & H). exists cid. destruct (cs_function_containers s !! cid) as [fc'|]; [|done].
    destruct (is_terminated (csm_desired_state fc')) eqn:E; [done|]. injection H as <-. by rewrite E.
  - intros (cid & Hc & Hfc & Hl%negb_true_iff). exists cid. rewrite elem_of_set_iter, Hfc, Hl. done.
Qed.
(** The allocations of the active containers. *)
Lemma lookup_active_allocations im eid (l : list ContainerServerMetadata) cid x : ∀ m : gmap ContainerId (list Allocation),
  foldl (λ m meta, let c := ctr_id (csm_function_container meta) in <[c := container_allocations im eid c]> m) m l !! cid = Some x ↔
  (∃ fc, fc ∈ l ∧ ctr_id (csm_function_container fc) = cid) ∧ x = container_allocations im eid cid ∨
  (∀ fc, fc ∈ l → ctr_id (csm_function_container fc) ≠ cid) ∧ m !! cid = Some x.
Proof.
  induction l as [|fc l IH]; intros m; cbn [foldl].
  - split; [intros H; right; split; [by intros fc ?%not_elem_of_nil|done]|]. intros [[(fc & ?%not_elem_of_nil & _) _]|[_ H]]; done.
  - rewrite IH. cbv zeta. destruct (decide (ctr_id (csm_function_container fc) = cid)) as [<-|Hne].
    + rewrite lookup_insert_eq. split.
      * intros [[(f & Hf & E) ->]|[Hn [= <-]]]; left; (split; [|done]); exists fc; (split; [by left|done]).
      * intros [[_ ->]|[Hn _]]; [|by destruct (Hn fc (list_elem_of_here _ _))].
        destruct (decide (Exists (λ f, ctr_id (csm_function_container f) = ctr_id (csm_function_container fc)) l)) as [He|He].
        -- left. apply Exists_exists in He as (f & Hf & E). split; [by exists f|done].
        -- right. split; [|done]. intros f Hf E. apply He, Exists_exists. by exists f.
    + rewrite lookup_insert_ne by done. split.
      * intros [[(f & Hf & E) ->]|[Hn Hm]]; [left; split; [exists f; split; [by right|done]|done]|].
        right. split; [|done]. intros f [-> | Hf]%elem_of_cons; [done|by apply Hn].
      * intros [[(f & Hf & E) ->]|[Hn Hm]].
        -- left. split; [|done]. apply elem_of_cons in Hf as [-> | Hf]; [done|by exists f].
        -- right. split; [|done]. intros f Hf. apply Hn. by right.
Qed.
Lemma elem_of_container_allocations im eid cid a :
  a ∈ container_allocations im eid cid ↔ ∃ id, allocation_at im eid cid id = Some a.
Proof.
  unfold container_allocations, allocation_at. destruct (im_allocations_by_executor im !! eid) as [m|]; cbn; [|split; [by intros ?%not_elem_of_nil|by intros [? ?]]].
  destruct (m !! cid) as [x|]; cbn; [|split; [by intros ?%not_elem_of_nil|by intros [? ?]]]. rewrite list_elem_of_fmap. split.
  - intros ([id a'] & -> & H%elem_of_map_iter). by exists id.
  - intros [id H]. exists (id, a). split; [done|]. by apply elem_of_map_iter.
Qed.

(** C27: a full synchronisation sends an executor exactly its desired state: the
    description of every container it should run, worded as the incremental command
    that created it, one run command per allocation outstanding on these containers,
    and the snapshots in progress; containers marked terminated are left out.  The
    hypothesis says that allocations are listed under the container they target. *)
Theorem full_sync_exact (im : InMemoryState) (s : ContainerScheduler) (eid : ExecutorId) ex st :
  cs_executors s !! eid = Some ex → em_tombstoned ex = false → cs_executor_states s !! eid = Some st →
  (∀ cid id a, allocation_at im eid cid id = Some a → at_container_id (al_target a) = cid) →
  let should_run fc := ∃ cid, cid ∈ esm_function_container_ids st ∧ cs_function_containers s !! cid = Some fc ∧ live fc = true in
  ∀ c, c ∈ full_sync_commands url_host blob_store im s eid ↔
    (∃ fc d, should_run fc ∧ describe im fc = Some d ∧ c = CB_AddContainer d) ∨
    (∃ fc id a, should_run fc ∧ allocation_at im eid (ctr_id (csm_function_container fc)) id = Some a ∧ c = CB_RunAllocation (to_proto a)) ∨
    (∃ key sb p, im_sandboxes im !! key = Some sb ∧ pending_snapshot im eid sb = Some p ∧
       c = CB_SnapshotContainer (psn_container_id p) (psn_snapshot_id p) (psn_upload_uri p)).
Proof.
  intros Hex Ht Hst Htgt should_run c.
  unfold full_sync_commands, get_executor_state, desired_state. rewrite Hex. cbn [mbind option_bind]. rewrite Ht, Hst. cbn [mbind option_bind].
  unfold commands_from_full_snapshot. cbn [ess_containers ess_allocations ess_pending_snapshots des_containers des_function_run_allocations des_pending_snapshots].
  rewrite !elem_of_app, !list_elem_of_fmap. apply Morphisms_Prop.or_iff_morphism; [|apply Morphisms_Prop.or_iff_morphism].
  - split.
    + intros (d & -> & (x & (fc & -> & Hfc%elem_of_active)%list_elem_of_fmap & Hd)%list_elem_of_omap). rewrite desired_description_same in Hd. by exists fc, d.
    + intros (fc & d & Hfc%elem_of_active & Hd & ->). exists d. split; [done|]. apply list_elem_of_omap. exists (desired_fe im fc).
      split; [by apply list_elem_of_fmap_2|]. by rewrite desired_description_same.
  - split.
    + intros (p & -> & Hp). apply list_elem_of_In, in_flat_map in Hp as ([cid l] & Hl%list_elem_of_In%elem_of_map_iter & Hp%list_elem_of_In).
      apply list_elem_of_fmap in Hp as (a & -> & Ha). apply lookup_active_allocations in Hl as [[(fc & Hfc%elem_of_active & <-) ->]|[_ H]]; [|by rewrite lookup_empty in H].
      apply elem_of_container_allocations in Ha as [id Ha]. exists fc, id, a. split; [done|]. split; [done|].
      unfold desired_allocation, allocation_to_proto. by rewrite (Htgt _ _ _ Ha).
    + intros (fc & id & a & Hfc%elem_of_active & Ha & ->). exists (to_proto a). split; [done|].
      apply list_elem_of_In, in_flat_map. exists (ctr_id (csm_function_container fc), container_allocations im eid (ctr_id (csm_function_container fc))). split.
      * apply list_elem_of_In, elem_of_map_iter, lookup_active_allocations. left. split; [by exists fc|done].
      * apply list_elem_of_In, list_elem_of_fmap. exists a. split; [|apply elem_of_container_allocations; by exists id].
        unfold desired_allocation, allocation_to_proto. by rewrite (Htgt _ _ _ Ha).
  - split.
    + intros (p & -> & (sb & ([key sb'] & -> & Hk%elem_of_ord_iter)%list_elem_of_fmap & Hp)%list_elem_of_omap). by exists key, sb', p.
    + intros (key & sb & p & Hk & Hp & ->). exists p. split; [done|]. apply list_elem_of_omap. exists sb. split; [|done].
      apply list_elem_of_fmap. exists (key, sb). split; [done|]. by apply elem_of_ord_iter.
Qed.
End full_sync.

(** ** A container reported back *)

(** What a report keeps of a container: not its network policy, its snapshot or its
    clocks, and of a function container none of the sandbox settings. *)
Definition as_reported (secrets : list string) (state : ContainerState) (c : Container) : Container :=
  let sandbox := bool_decide (ctr_container_type c = CT_Sandbox) in
  MkContainer (ctr_id c) (ctr_namespace c) (ctr_application_name c) (ctr_function_name c) (ctr_version c) state (ctr_resources c)
    (ctr_max_concurrency c) (ctr_container_type c) (if sandbox then ctr_image c else None) secrets
    (if sandbox then Z.max 0 (ctr_timeout_secs c) else 0) (if sandbox then ctr_entrypoint c else []) None
    (if sandbox then ctr_sandbox_id c else None)
    (match ctr_pool_id c with
     | Some p => Some p
     | None => if sandbox then None else Some (for_function (ctr_application_name c) (ctr_function_name c) (ctr_version c))
     end) None None None.

Section reports.
Context (url_host : string → option (option string)) (blob_store : string → string * string).
Local Notation describe := (build_container_description_from_meta url_host blob_store).

(** C28: a container survives the round trip through the executor.  The description
    the server sends, reported back in any state, converts to the same container in
    that state, with the identity, the resources, the concurrency and the pool intact;
    only the settings [as_reported] drops are lost. *)
Theorem container_report_roundtrip im meta d status reason :
  representable (ctr_resources (csm_function_container meta)) → describe im meta = Some d →
  container_from_pb (MkContainerStatePb (Some d) status reason) =
    Ok (as_reported (cd_secret_names d)
          (match enum_get container_statuses CSt_Unknown status with
           | CSt_Unknown => CS_Unknown
           | CSt_Pending => CS_Pending
           | CSt_Running => CS_Running
           | CSt_Terminated => CS_Terminated (termination_reason_from_pb (enum_get termination_reasons TR_Unknown reason))
           end) (csm_function_container meta)).
Proof.
  intros Hr Hd. unfold build_container_description_from_meta in Hd. set (c := csm_function_container meta) in *.
  destruct (cres_to_pb (ctr_resources c)) as [r|] eqn:Er; [|done]. injection Hd as <-.
  unfold container_from_pb. cbn [csp_description csp_status csp_termination_reason mbind option_bind cd_id cd_function cd_resources cd_max_concurrency cd_container_type cd_secret_names cd_sandbox_metadata cd_pool_id ok_or result_bind
    ref_namespace ref_application_name ref_function_name ref_application_version container_ref].
  rewrite (cres_roundtrip _ _ Hr Er). cbn [result_bind default]. f_equal. unfold as_reported.
  destruct (ctr_container_type c); cbn.
  - f_equal. rewrite bool_decide_eq_true_2 by done. cbn. case_bool_decide; cbn; lia.
  - done.
Qed.

(** The secrets of a sandbox never reach the executor.  The secret names of a
    description come from the function of the application only, so the container the
    scheduler creates for a sandbox, or for a pool of sandboxes, is described without
    any, whatever secrets the sandbox or the pool asks for. *)
Theorem sandbox_secrets_not_sent im meta d :
  container_function im (csm_function_container meta) = None → describe im meta = Some d → cd_secret_names d = [].
Proof.
  intros Hn Hd. unfold build_container_description_from_meta in Hd. destruct (cres_to_pb _); [|done]. injection Hd as <-. cbn. by rewrite Hn.
Qed.
End reports.

(** ** Witnesses *)

Definition no_host : string → option (option string) := λ _, None.
Definition file_store : string → string * string := λ _, ("file", "file:///blobs").
Definition outstanding_ex : InMemoryState :=
  empty_state <| im_allocations_by_executor := {["e1" := {["c1" := {["a1" := allocation_ex <| al_target := MkAllocationTarget "e1" "c1" |>]}]}]} |>.
Lemma full_sync_exact_witness :
  CB_RunAllocation (allocation_to_proto no_host file_store (allocation_ex <| al_target := MkAllocationTarget "e1" "c1" |>))
    ∈ @full_sync_commands canonical_order no_host file_store outstanding_ex idle_scheduler_ex "e1".
Proof.
  apply (@full_sync_exact canonical_order no_host file_store outstanding_ex idle_scheduler_ex "e1" (executor_ex "e1" (zone "a")) claimed_esm_ex).
  - vm_compute. reflexivity.
  - reflexivity.
  - vm_compute. reflexivity.
  - intros cid id a H. unfold allocation_at in H. apply bind_Some in H as (m & Hm & H).
    change (im_allocations_by_executor outstanding_ex) with ({["e1" := {["c1" := {["a1" := allocation_ex <| al_target := MkAllocationTarget "e1" "c1" |>]}]}]} : gmap ExecutorId (gmap ContainerId (gmap AllocationId Allocation))) in Hm.
    apply lookup_singleton_Some in Hm as [_ <-]. apply bind_Some in H as (m & Hm & H). apply lookup_singleton_Some in Hm as [<- <-]. apply lookup_singleton_Some in H as [_ <-]. reflexivity.
  - right. left. exists (csm_ex 5), "a1", (allocation_ex <| al_target := MkAllocationTarget "e1" "c1" |>). split_and!; [|vm_compute; reflexivity|reflexivity].
    exists "c1". split_and!; [apply (bool_decide_eq_true_1 _); vm_compute; reflexivity|vm_compute; reflexivity|reflexivity].
Defined.
Definition secret_sandbox_ex : ContainerServerMetadata :=
  MkContainerServerMetadata "e1"
    (MkContainer "sb1" "ns" "" "sb1" "" CS_Pending cres_ex 1 CT_Sandbox (Some "image") ["API_KEY"] 60 [] None (Some "sb1") None None None None)
    CS_Running CT_Sandbox ∅ None.
Lemma sandbox_secrets_not_sent_witness :
  ctr_secret_names (csm_function_container secret_sandbox_ex) = ["API_KEY"] ∧
  ∃ d, build_container_description_from_meta no_host file_store empty_state secret_sandbox_ex = Some d ∧ cd_secret_names d = [].
Proof.
  split; [reflexivity|].
  destruct (build_container_description_from_meta no_host file_store empty_state secret_sandbox_ex) as [d|] eqn:E.
  - exists d. split; [reflexivity|]. exact (sandbox_secrets_not_sent no_host file_store empty_state secret_sandbox_ex d ltac:(vm_compute; reflexivity) E).
  - vm_compute in E. discriminate.
Defined.
Lemma container_report_roundtrip_witness :
  ∃ d, build_container_description_from_meta no_host file_store empty_state secret_sandbox_ex = Some d ∧
    container_from_pb (MkContainerStatePb (Some d) (Some 2) None) =
      Ok (csm_function_container secret_sandbox_ex <| ctr_state := CS_Running |> <| ctr_secret_names := [] |>).
Proof.
  destruct (build_container_description_from_meta no_host file_store empty_state secret_sandbox_ex) as [d|] eqn:E.
  - exists d. split; [reflexivity|]. rewrite (container_report_roundtrip no_host file_store empty_state secret_sandbox_ex d (Some 2) None); [|split; split; vm_compute; congruence|exact E].
    vm_compute in E. injection E as <-. vm_compute. reflexivity.
  - vm_compute in E. discriminate.
Defined.
