(* ===== verification/EventLoop.v ===== *)
(** * The batch

    The outer half of [ApplicationProcessor]: [write_sm_update], which takes the pending
    payloads of the queue through every processor and commits the result,
    [apply_immediate_payload], [retry_pending_work], [run_pool_reconciliation] and
    [validate_app_constraints].

    While a batch runs, other tasks write to the store: [Others] holds the writes they
    will make before each access of the batch, and the payloads they were acknowledged
    for.  Whether a commit succeeds is decided by [commits]. *)
From stdpp Require Import pretty.
From S2P Require Import Prelude DataModel Resources Updates InMemoryState Blocked SchedulerState Placement ContainerScheduler SchedulerUpdates BufferReconciler FunctionRuns FunctionAllocator SandboxProcessor ContainerReconciler StateChanges RequestEvents StateMachine Scanner Recovery ApplicationProcessor StateStore ProtoConvert CommandEmission.
Open Scope string_scope.
Open Scope list_scope.
Open Scope Z_scope.
Open Scope loop_scope.

(** The in-memory state and the scheduler the server publishes. *)
Notation AppState := (InMemoryState * ContainerScheduler)%type.

Record Others := MkOthers {
  ot_script : list (list Writing);
  ot_acked : list (Z * RequestPayload);
}.
Record LoopBatch := MkLoopBatch {
  lb_loop : LoopState;
  lb_store : Store;
  lb_others : Others;
  lb_update : SchedulerUpdateRequest;
}.
#[export] Instance eta_LoopBatch : Eta LoopBatch := λ b, MkLoopBatch (lb_loop b) (lb_store b) (lb_others b) (lb_update b).

Inductive BatchOutcome := BO_Empty | BO_Failed | BO_Done (committed : bool).

Section event_loop.
Context `{HO : HashOrder}.
Context (queue_size : Z) (o : Oracle) (sha256_hex : string → string) (fuel : nat).
Context (compute_next_fire_time : string → Z → result string Z).
Context (url_host : string → option (option string)) (blob_store : string → string * string) (encode : CommandBody → Bytes).
Context (commits : nat → bool) (now_ms : nat → Z).

Local Notation rebuild := (rebuild_scheduler_command_intents url_host blob_store encode).
(** [StateReader::get_allocation] on the rows of a store. *)
Definition stored_allocation (s : Store) (key : string) : string + option Allocation := inr (db_allocations (ss_db s) !! key).

(** The writes of the other tasks before the next access of the batch. *)
Definition other_writes (s : Store) (ot : Others) : Store * Others :=
  match ot_script ot with
  | [] => (s, ot)
  | ws :: script =>
      (foldl (λ s w, (do_write compute_next_fire_time s w).1) s ws,
       MkOthers script (ot_acked ot ++ all_acknowledged compute_next_fire_time s ws))
  end.
Definition meanwhile (b : LoopBatch) : LoopBatch :=
  let '(s, ot) := other_writes (lb_store b) (lb_others b) in b <| lb_store := s |> <| lb_others := ot |>.

(** [apply_immediate_payload]; an error is logged and the batch goes on. *)
Definition apply_immediate_payload (payload : RequestPayload) (b0 : LoopBatch) : LoopBatch :=
  let b := meanwhile b0 in
  let l := lb_loop b in
  let command_update := rebuild (update_with_intents (ls_sched l) payload).2 (ls_im l) in
  let '(s, r) := write_with_scheduler_command_intents compute_next_fire_time (commits (ls_tick l)) (ls_im l) (now_ms (ls_tick l)) (lb_store b)
                   payload (su_scheduler_command_intents command_update) in
  match r with
  | Err _ => b <| lb_store := s |> <| lb_loop := l <| ls_tick ::= S |> |>
  | Ok _ =>
      b <| lb_store := s |>
        <| lb_loop := MkLoopState (update_state (ls_im l) (im_clock (ls_im l)) (now_ms (ls_tick l)) payload).1
                        (update_with_intents (ls_sched l) payload).1 (ls_cache l) (S (ls_tick l)) |>
  end.

(** One state change: its update becomes visible to the next one. *)
Definition process_change (ct : ChangeType) (b : LoopBatch) : option LoopBatch :=
  match handle_state_change queue_size o (stored_allocation (lb_store b)) sha256_hex fuel ct (lb_loop b) with
  | None => None
  | Some (l, Ok (SCR_SchedulerUpdate u)) =>
      Some (b <| lb_loop := l <| ls_im ::= λ im, (apply_scheduler_update im (im_clock im) u).1 |> <| ls_sched ::= λ s, apply_container_update s u |> |>
              <| lb_update ::= λ m, extend m u |>)
  | Some (l, Ok (SCR_ImmediateWrite payload)) => Some (apply_immediate_payload payload (b <| lb_loop := l |>))
  | Some (l, Err _) => Some (b <| lb_loop := l |>)
  end.
Fixpoint process_changes (changes : list StateChange) (b : LoopBatch) : option LoopBatch :=
  match changes with
  | [] => Some b
  | c :: changes => match process_change (sc_change_type c) b with Some b1 => process_changes changes b1 | None => None end
  end.
(** One payload of the queue. *)
Definition process_payload (clock : Z) (payload : RequestPayload) (b : LoopBatch) : option LoopBatch :=
  let l := lb_loop b in
  let l1 := l <| ls_im := (update_state (ls_im l) clock (now_ms (ls_tick l)) payload).1 |> <| ls_sched := (update_with_intents (ls_sched l) payload).1 |> in
  let '(changes, seq) := generate_state_changes_for_payload (ss_state_change_id_seq (lb_store b)) (now_ms (ls_tick l)) payload in
  process_changes changes (b <| lb_loop := l1 |> <| lb_store ::= λ s, s <| ss_state_change_id_seq := seq |> |>).
Fixpoint process_payloads (clock : Z) (pending : list (Z * RequestPayload)) (b : LoopBatch) : option LoopBatch :=
  match pending with
  | [] => Some b
  | (_, payload) :: pending => match process_payload clock payload b with Some b1 => process_payloads clock pending b1 | None => None end
  end.

(** *** Reaping before a batch *)

(** The memory the reaped containers free, by class of executor. *)
Definition freed_per_class (s : ContainerScheduler) (u : SchedulerUpdateRequest) : gmap ExecutorClass Z :=
  foldl (λ m meta, if is_terminated (csm_desired_state meta)
                   then let class := get_executor_class s (csm_executor_id meta) in
                        <[class := wrap64 (default 0 (m !! class) + cres_memory_mb (ctr_resources (csm_function_container meta)))]> m
                   else m) ∅ (map_iter (su_containers u)).*2.
Fixpoint unblock_classes (classes : list (ExecutorClass * Z)) (w : UnblockedWork) : Loop string UnblockedWork :=
  match classes with
  | [] => loop_ret w
  | (class, freed_mb) :: classes =>
      w1 <- unblock class freed_mb;;
      unblock_classes classes (MkUnblockedWork (uw_sandbox_keys w ++ uw_sandbox_keys w1) (uw_function_run_keys w ++ uw_function_run_keys w1))
  end.
Definition reap_and_unblock : Loop string SchedulerUpdateRequest := λ l,
  let '(s1, reap_update) := reap_idle_containers (ls_sched l) 0 (or_now o (ls_tick l)) in
  let l1 := l <| ls_sched := s1 |> <| ls_tick ::= S |> in
  if bool_decide (su_containers reap_update = ∅) then loop_ret empty_update l1
  else
    (apply_update reap_update;;;
     w <- unblock_classes (map_iter (freed_per_class s1 reap_update)) (MkUnblockedWork [] []);;
     l2 <- loop_get;;
     let runs := resolve_pending_function_runs (ls_im l2) (uw_function_run_keys w) in
     let merged := extend empty_update reap_update in
     u1 <- (if bool_decide (length runs = 0%nat) then loop_ret merged
            else r <- allocate_runs queue_size o runs;; apply_update r;;; loop_ret (extend merged r));;
     if bool_decide (length (uw_sandbox_keys w) = 0%nat) then loop_ret u1
     else sb <- allocate_sandboxes o (uw_sandbox_keys w) empty_update;; apply_update sb;;; loop_ret (extend u1 sb)) l1.

(** [write_sm_update]. *)
Definition write_sm_update (app : AppState) (s : Store) (ot : Others) : option (AppState * Store * Others * BatchOutcome) :=
  match last (read_pending_payloads (ss_db s)) with
  | None => Some (app, s, ot, BO_Empty)
  | Some (max_seq, _) =>
      match reap_and_unblock (MkLoopState app.1 app.2 ∅ 0) with
      | None => None
      | Some (_, Err _) => Some (app, s, ot, BO_Failed)
      | Some (l, Ok u) =>
          match process_payloads (ss_state_change_id_seq s) (read_pending_payloads (ss_db s)) (MkLoopBatch l s ot u) with
          | None => None
          | Some b0 =>
              let b := meanwhile b0 in
              let l := lb_loop b in
              let '(s', r) := write_scheduler_output_and_dequeue compute_next_fire_time (commits (ls_tick l)) app.1 (now_ms (ls_tick l)) (lb_store b)
                                (RP_SchedulerUpdate (rebuild (lb_update b) (ls_im l))) max_seq in
              Some ((ls_im l, ls_sched l), s', lb_others b, BO_Done (is_ok r))
          end
      end
  end.

(** ** Startup and pool maintenance *)

(** The loop of [retry_pending_work] over the pending sandboxes. *)
Fixpoint retry_sandboxes (keys : list SandboxKey) (u : SchedulerUpdateRequest) : Loop string SchedulerUpdateRequest :=
  match keys with
  | [] => loop_ret u
  | key :: keys =>
      r <- allocate_sandbox_key o (key_namespace key) (key_sandbox_id key);;
      apply_update r;;;
      loop_sched (λ s, apply_container_update s r);;;
      retry_sandboxes keys (extend u r)
  end.
Definition retry_pending (sandboxes : list SandboxKey) (runs : list FunctionRunKey) : Loop string SchedulerUpdateRequest :=
  u <- retry_sandboxes sandboxes empty_update;;
  l <- loop_get;;
  let function_runs := resolve_pending_function_runs (ls_im l) runs in
  if bool_decide (length function_runs = 0%nat) then loop_ret u
  else
    r <- allocate_runs queue_size o function_runs;;
    apply_update r;;;
    loop_sched (λ s, apply_container_update s r);;;
    loop_ret (extend u r).
(** [retry_pending_work]; on an error nothing is published. *)
Definition retry_pending_work (app : AppState) (s : Store) : option (AppState * Store * bool) :=
  let sandboxes := sorted_strings (im_pending_sandboxes app.1) in
  let runs := sorted_strings (im_unallocated_function_runs app.1) in
  match sandboxes, runs with
  | [], [] => Some (app, s, true)
  | _, _ =>
      match retry_pending sandboxes runs (MkLoopState app.1 app.2 ∅ 0) with
      | None => None
      | Some (_, Err _) => Some (app, s, false)
      | Some (l, Ok u) =>
          let '(s', r) := write_scheduler_output compute_next_fire_time (commits (ls_tick l)) app.1 (now_ms (ls_tick l)) s
                            (RP_SchedulerUpdate (rebuild u (ls_im l))) in
          match r with
          | Ok _ => Some ((ls_im l, ls_sched l), s', true)
          | Err _ => Some (app, s', false)
          end
      end
  end.

(** [run_pool_reconciliation]. *)
Definition run_pool_reconciliation (app : AppState) (s : Store) : option (AppState * Store * bool) :=
  match reconcile app.1 (or_pool o 0) fuel app.2 ∅ with
  | None => None
  | Some (sched, _, u) =>
      if bool_decide (su_containers u = ∅) && bool_decide (su_updated_executor_states u = ∅) then Some (app, s, true)
      else
        let u := rebuild u app.1 in
        let '(s', r) := write_scheduler_output compute_next_fire_time (commits 0) app.1 (now_ms 0) s (RP_SchedulerUpdate u) in
        match r with
        | Ok _ => Some (((apply_scheduler_update app.1 (im_clock app.1) u).1, apply_container_update sched u), s', true)
        | Err _ => Some (app, s', false)
        end
  end.

(** [validate_app_constraints]: the applications whose state changes. *)
Definition unsatisfiable_reason : string := "The application contains functions that have unsatisfiable placement constraints".
Definition revalidated (im : InMemoryState) (a : Application) : option Application :=
  let target := if is_ok (can_be_scheduled a (im_executor_catalog im)) then AppActive else AppDisabled unsatisfiable_reason in
  match app_state a, target with
  | AppActive, AppActive => None
  | AppDisabled r, AppDisabled r' => if bool_decide (r = r') then None else Some (a <| app_state := target |>)
  | _, _ => Some (a <| app_state := target |>)
  end.
Definition validation_payload (a : Application) : RequestPayload := RP_CreateOrUpdateApplication (app_namespace a) a true [].
Fixpoint write_all (app : AppState) (payloads : list RequestPayload) (tick : nat) (s : Store) : Store * bool :=
  match payloads with
  | [] => (s, true)
  | p :: payloads =>
      match write compute_next_fire_time (commits tick) app.1 (now_ms tick) s p with
      | (s1, Ok _) => write_all app payloads (S tick) s1
      | (s1, Err _) => (s1, false)
      end
  end.
Definition validate_app_constraints (app : AppState) (s : Store) : Store * bool :=
  write_all app (validation_payload <$> omap (revalidated app.1) (map_iter (im_applications app.1)).*2) 0 s.
End event_loop.

(** ** Every payload is processed once *)

Section queue.
Context `{HO : HashOrder}.
Context (queue_size : Z) (o : Oracle) (sha256_hex : string → string) (fuel : nat).
Context (compute_next_fire_time : string → Z → result string Z).
Context (url_host : string → option (option string)) (blob_store : string → string * string) (encode : CommandBody → Bytes).
Context (commits : nat → bool) (now_ms : nat → Z).
Local Notation immediate := (apply_immediate_payload compute_next_fire_time url_host blob_store encode commits now_ms).
Local Notation change := (process_change queue_size o sha256_hex fuel compute_next_fire_time url_host blob_store encode commits now_ms).
Local Notation changes := (process_changes queue_size o sha256_hex fuel compute_next_fire_time url_host blob_store encode commits now_ms).
Local Notation payload_step := (process_payload queue_size o sha256_hex fuel compute_next_fire_time url_host blob_store encode commits now_ms).
Local Notation payloads := (process_payloads queue_size o sha256_hex fuel compute_next_fire_time url_host blob_store encode commits now_ms).

(** What holds of the queue during a batch that began in store [s] with [room] sequence
    numbers in use at most. *)
Record queue_grown (s : Store) (room : Z) (s' : Store) (ot : Others) : Prop := {
  qg_wf : queue_wf s';
  qg_queue : queue s' = queue s ++ ot_acked ot;
  qg_seq : 0 ≤ ss_payload_seq s ≤ ss_payload_seq s';
  qg_room : ss_payload_seq s' + Z.of_nat (length (concat (ot_script ot))) ≤ room;
  qg_new : Forall (λ e, ss_payload_seq s ≤ e.1) (ot_acked ot);
}.

Lemma other_writes_grown s room s' ot :
  room < u64_max → queue_grown s room s' ot →
  let '(s2, ot2) := other_writes compute_next_fire_time s' ot in queue_grown s room s2 ot2.
Proof.
  intros Hroom [H1 H2 H3 H4 H5]. unfold other_writes. destruct ot as [[|ws script] acked]; [done|]. cbn [ot_script ot_acked concat] in *.
  rewrite length_app in H4.
  destruct (do_writes_queue compute_next_fire_time ws s' H1 ltac:(lia) ltac:(lia)) as (Hq & Hw & Hs & Ha).
  split; cbn [ot_acked ot_script]; [exact Hw| |lia|lia|].
  - rewrite Hq, H2. by rewrite app_assoc.
  - apply Forall_app. split; [done|]. eapply Forall_impl; [exact Ha|]. intros e He. cbv beta in *. lia.
Qed.
Lemma meanwhile_grown s room b :
  room < u64_max → queue_grown s room (lb_store b) (lb_others b) →
  queue_grown s room (lb_store (meanwhile compute_next_fire_time b)) (lb_others (meanwhile compute_next_fire_time b)).
Proof.
  intros Hroom H. pose proof (other_writes_grown s room _ _ Hroom H) as H'. unfold meanwhile.
  destruct (other_writes compute_next_fire_time (lb_store b) (lb_others b)) as [s2 ot2]. exact H'.
Qed.
Lemma immediate_grown s room p b :
  room < u64_max → should_enqueue p = false → prepare_for_persistence (ss_state_change_id_seq (lb_store (meanwhile compute_next_fire_time b))) p = p →
  queue_grown s room (lb_store b) (lb_others b) →
  queue_grown s room (lb_store (immediate p b)) (lb_others (immediate p b)).
Proof.
  intros Hroom Hp Hprep H. apply (meanwhile_grown _ _ _ Hroom) in H. unfold apply_immediate_payload.
  set (b1 := meanwhile compute_next_fire_time b) in *. cbv zeta. unfold write_with_scheduler_command_intents, notified.
  set (intents := su_scheduler_command_intents _). destruct H as [H1 H2 H3 H4 H5].
  destruct (persist_queue compute_next_fire_time (commits (ls_tick (lb_loop b1))) (ls_im (lb_loop b1)) (now_ms (ls_tick (lb_loop b1)))
    (lb_store b1) p None intents H1 ltac:(lia)) as [Hq Hw].
  rewrite Hprep, Hp in Hq. unfold queue_push, queue_pop in Hq. rewrite Hp in Hq.
  destruct (persist compute_next_fire_time _ _ _ (lb_store b1) p None intents) as [s2 [w|e]]; cbn [fst snd] in *.
  - destruct Hq as (Hq & _ & Hs). change (queue_grown s room s2 (lb_others b1)). split; [exact Hw|by rewrite <-H2|lia|lia|done].
  - destruct Hq as (Hq & Hs). change (queue_grown s room s2 (lb_others b1)). split; [exact Hw|by rewrite <-H2|lia|lia|done].
Qed.
(** Only deletions are written immediately. *)
Lemma immediate_payload get ct l l' p :
  handle_state_change (E:=string) queue_size o get sha256_hex fuel ct l = Some (l', Ok (SCR_ImmediateWrite p)) →
  should_enqueue p = false ∧ ∀ clock, prepare_for_persistence clock p = p.
Proof.
  assert (Hno : ∀ m : Loop string SchedulerUpdateRequest, loop_bind m (λ u, loop_ret (SCR_SchedulerUpdate u)) l = Some (l', Ok (SCR_ImmediateWrite p)) → False).
  { intros m. unfold loop_bind, loop_ret. by destruct (m l) as [[l1 [u|e]]|]. }
  destruct ct; cbn [handle_state_change]; try (intros H; exfalso; exact (Hno _ H)); intros [= <- <-]; done.
Qed.
Lemma change_grown s room ct b b' :
  room < u64_max → queue_grown s room (lb_store b) (lb_others b) → change ct b = Some b' → queue_grown s room (lb_store b') (lb_others b').
Proof.
  intros Hroom H. unfold process_change. destruct (handle_state_change _ _ _ _ _ _ _) as [[l [[u|p]|e]]|] eqn:E; [|..|done].
  - by intros [= <-].
  - apply immediate_payload in E as [E1 E2]. intros [= <-]. by apply immediate_grown.
  - by intros [= <-].
Qed.

(** *** The moments of a batch *)

(** The batch takes up a payload, or handles a state change. *)
Inductive during (clock : Z) : LoopBatch → LoopBatch → Prop :=
| du_payload payload b :
    let l := lb_loop b in
    let l1 := l <| ls_im := (update_state (ls_im l) clock (now_ms (ls_tick l)) payload).1 |> <| ls_sched := (update_with_intents (ls_sched l) payload).1 |> in
    let seq := (generate_state_changes_for_payload (ss_state_change_id_seq (lb_store b)) (now_ms (ls_tick l)) payload).2 in
    during clock b (b <| lb_loop := l1 |> <| lb_store ::= λ s, s <| ss_state_change_id_seq := seq |> |>)
| du_change ct b b' : change ct b = Some b' → during clock b b'.

Lemma during_grown s room clock b b' :
  room < u64_max → queue_grown s room (lb_store b) (lb_others b) → rtc (during clock) b b' → queue_grown s room (lb_store b') (lb_others b').
Proof.
  intros Hroom H Hd. induction Hd as [|b b1 b2 Hs _ IH]; [done|]. apply IH. destruct Hs as [p b|ct b b1 Hc]; [|by eapply change_grown]. destruct H as [H1 H2 H3 H4 H5]. by split.
Qed.
Lemma changes_during clock l : ∀ b,
  match changes l b with
  | Some b' => rtc (during clock) b b'
  | None => ∃ b' ct, rtc (during clock) b b' ∧ change ct b' = None
  end.
Proof.
  induction l as [|c l IH]; intros b; cbn [process_changes]; [done|]. destruct (change (sc_change_type c) b) as [b1|] eqn:E; [|by exists b, (sc_change_type c)].
  specialize (IH b1). apply (du_change clock) in E. destruct (changes l b1) as [b2|]; [by eapply rtc_l|]. destruct IH as (b2 & ct & H1 & H2). exists b2, ct. split; [by eapply rtc_l|done].
Qed.
Lemma payloads_during clock l : ∀ b,
  match payloads clock l b with
  | Some b' => rtc (during clock) b b'
  | None => ∃ b' ct, rtc (during clock) b b' ∧ change ct b' = None
  end.
Proof.
  induction l as [|[seq p] l IH]; intros b; cbn [process_payloads]; [done|]. unfold process_payload at 1. pose proof (du_payload clock p b) as Hp. cbv zeta in Hp.
  destruct (generate_state_changes_for_payload _ _ p) as [cs sq]. cbn [snd] in Hp. set (b1 := _ <| lb_store ::= _ |>) in Hp |- *. pose proof (changes_during clock cs b1) as Hc.
  destruct (changes cs b1) as [b2|]; [|destruct Hc as (b2 & ct & H1 & H2); exists b2, ct; split; [by eapply rtc_l|done]].
  specialize (IH b2). destruct (payloads clock l b2) as [b3|]; [eapply rtc_l; [exact Hp|]; by etrans|]. destruct IH as (b3 & ct & H1 & H2). exists b3, ct. split; [|done]. eapply rtc_l; [exact Hp|]. by etrans.
Qed.

(** C13: a batch takes exactly the payloads that were pending when it began.  Whatever the
    other tasks write in the meantime and whatever it writes itself, at every moment before
    its last transaction the queue holds the pending payloads followed by those acknowledged
    since, in order; so nothing is lost if the server stops there, or if a handler does not
    come back.  If the batch ends, it has processed exactly the pending payloads: when its
    output commits, the output is the update of all of them and the queue holds exactly the
    payloads acknowledged during the batch; when the commit fails, the pending ones are still
    in front of them; an empty queue or an error before the first payload leaves everything
    as it was.  The queue stays well-formed, so the next batch, or a restart, continues
    there. *)
Theorem batch_takes_pending_once app s script :
  queue_wf s → 0 ≤ ss_payload_seq s → ss_payload_seq s + Z.of_nat (length (concat script)) < u64_max →
  (∀ l u b, rtc (during (ss_state_change_id_seq s)) (MkLoopBatch l s (MkOthers script []) u) b →
     queue_wf (lb_store b) ∧ queue (lb_store b) = queue s ++ ot_acked (lb_others b)) ∧
  match write_sm_update queue_size o sha256_hex fuel compute_next_fire_time url_host blob_store encode commits now_ms app s (MkOthers script []) with
  | None => (* a handler does not come back *)
      reap_and_unblock queue_size o (MkLoopState app.1 app.2 ∅ 0) = None ∨
      ∃ l u b ct, rtc (during (ss_state_change_id_seq s)) (MkLoopBatch l s (MkOthers script []) u) b ∧ change ct b = None
  | Some (app', s', ot', outcome) =>
      queue_wf s' ∧
      match outcome with
      | BO_Empty => queue s = [] ∧ s' = s ∧ app' = app
      | BO_Failed => s' = s ∧ app' = app
      | BO_Done committed =>
          (∃ l u b1 max_seq, reap_and_unblock queue_size o (MkLoopState app.1 app.2 ∅ 0) = Some (l, Ok u) ∧
             payloads (ss_state_change_id_seq s) (queue s) (MkLoopBatch l s (MkOthers script []) u) = Some b1 ∧
             fst <$> last (queue s) = Some max_seq ∧
             let b := meanwhile compute_next_fire_time b1 in
             app' = (ls_im (lb_loop b), ls_sched (lb_loop b)) ∧ ot' = lb_others b ∧
             s' = (write_scheduler_output_and_dequeue compute_next_fire_time (commits (ls_tick (lb_loop b))) app.1 (now_ms (ls_tick (lb_loop b))) (lb_store b)
                     (RP_SchedulerUpdate (rebuild_scheduler_command_intents url_host blob_store encode (lb_update b) (ls_im (lb_loop b)))) max_seq).1) ∧
          if committed then queue s' = ot_acked ot' ∧ Forall (λ e, Forall (λ e', e.1 < e'.1) (ot_acked ot')) (queue s)
          else queue s' = queue s ++ ot_acked ot'
      end
  end.
Proof.
  intros Hwf H0 Hroom. set (room := ss_payload_seq s + Z.of_nat (length (concat script))) in *.
  assert (Hstart : ∀ l u, queue_grown s room (lb_store (MkLoopBatch l s (MkOthers script []) u)) (lb_others (MkLoopBatch l s (MkOthers script []) u))).
  { intros l u. split; cbn [lb_store lb_others ot_acked ot_script]; [done|by rewrite app_nil_r|lia|unfold room; lia|constructor]. }
  split. { intros l u b Hd. by destruct (during_grown s room _ _ b Hroom (Hstart l u) Hd) as [H1 H2 _ _ _]. }
  unfold write_sm_update. change (read_pending_payloads (ss_db s)) with (queue s).
  destruct (last (queue s)) as [[max_seq p]|] eqn:El; [|apply last_None in El; by split_and!].
  destruct (reap_and_unblock queue_size o _) as [[l [u|e]]|] eqn:Er; [|done|by left].
  pose proof (payloads_during (ss_state_change_id_seq s) (queue s) (MkLoopBatch l s (MkOthers script []) u)) as Hd.
  destruct (payloads _ _ _) as [b|] eqn:Eb; [|right; destruct Hd as (b & ct & H1 & H2); by exists l, u, b, ct].
  pose proof (during_grown s room _ _ b Hroom (Hstart l u) Hd) as Hg. apply (meanwhile_grown _ _ _ Hroom) in Hg.
  destruct Hg as [H1 H2 H3 H4 H5]. set (b1 := meanwhile compute_next_fire_time b) in *.
  unfold write_scheduler_output_and_dequeue, notified. set (out := rebuild_scheduler_command_intents _ _ _ _ _).
  destruct (persist_queue compute_next_fire_time (commits (ls_tick (lb_loop b1))) app.1 (now_ms (ls_tick (lb_loop b1)))
    (lb_store b1) (RP_SchedulerUpdate out) (Some max_seq) [] H1 ltac:(lia)) as [Hq Hw].
  destruct (persist compute_next_fire_time _ _ _ (lb_store b1) _ _ _) as [s2 r] eqn:Ep. cbn [fst snd] in *.
  assert (Hmax : ∀ e, e ∈ queue s → e.1 ≤ max_seq) by (intros e He; by apply (last_max _ _ (num_iter_sorted _) El)).
  assert (Hm : max_seq < ss_payload_seq s).
  { apply last_Some in El as (q & Hl). eapply Hwf, elem_of_num_iter. change (num_iter _) with (queue s). rewrite Hl. apply elem_of_app. right. by apply list_elem_of_singleton. }
  assert (Hnew : Forall (λ e, max_seq < e.1) (ot_acked (lb_others b1))) by (eapply Forall_impl; [exact H5|cbv beta; intros; lia]).
  split; [exact Hw|]. split.
  { exists l, u, b, max_seq. fold b1 out. rewrite Ep. by split_and!. }
  destruct r as [w|e]; cbn [is_ok].
  - destruct Hq as (Hq & _ & _). split.
    + rewrite Hq. change (queue_push ?q _ _) with q. rewrite H2. apply pop_pending; [|done]. apply Forall_forall. exact Hmax.
    + apply Forall_forall. intros e He. eapply Forall_impl; [exact Hnew|]. intros e' He'. cbv beta in *. specialize (Hmax _ He). lia.
  - destruct Hq as [Hq _]. by rewrite Hq.
Qed.
End queue.

(** ** Validation at startup *)

Section validation.
Context `{HO : HashOrder}.

(** Re-validating an application deletes its stored pools.  The payload carries no
    pools, which the scheduler reads as no change; the database transaction deletes
    every function pool of the application first, so after it no row with the
    application's prefix is left and a restart comes up without these pools. *)
Theorem validation_drops_pools db (s : ContainerScheduler) a clock :
  let p := validation_payload a in
  let db' := create_or_update_application db a true [] clock in
  (∀ cron im usage now, write_payload cron im db usage clock now p = Ok (db', usage, false, None)) ∧
  (update_with_intents s p).1 = s ∧
  ∀ key pool, db_function_pools db' !! key = Some pool → String.prefix (bar (app_namespace a) (bar (app_name a) "")) key = false.
Proof.
  intros p db'. split; [done|]. split; [done|]. intros key pool. unfold db', create_or_update_application. cbn [foldl].
  set (db3 := update_requests_for_application _ _). set (prefix := bar (app_namespace a) _). unfold delete_function_pools_by_prefix.
  assert (E : ∀ l d, db_function_pools (foldl (λ d k, d <| db_function_pools ::= delete k |>) d l) = foldl (λ m k, delete k m) (db_function_pools d) l).
  { induction l as [|x l IH]; intros d; [done|]. cbn [foldl]. by rewrite IH. }
  rewrite E, lookup_foldl_delete. case_bool_decide as Hk; [done|]. intros Hp. destruct (String.prefix prefix key) eqn:Ep; [|done].
  destruct Hk. apply list_elem_of_fmap. exists (key, pool). split; [done|]. by apply elem_of_scan_prefix.
Qed.
End validation.

(** ** Concrete runs *)

(** Fresh names salted by the batch, no randomness, a clock that stands still. *)
Definition oracle_ex (salt : string) : Oracle :=
  let name k n m := k +:+ salt +:+ pretty (N.of_nat n) +:+ pretty (N.of_nat m) in
  MkOracle (λ n m, MkRunChoice (name "c" n m) 0 7 (name "a" n m) 0) (λ _, MkSandboxChoice 0 7) (λ _, 7) (λ _ _, 7) (λ _, 0)
    (λ n m, MkChoice (name "p" n m) 0 7).
Definition encode_ex (c : CommandBody) : Bytes :=
  match c with
  | CB_AddContainer d => "add " +:+ default "" (cd_id d)
  | CB_RemoveContainer id _ => "remove " +:+ id
  | CB_RunAllocation a => "run " +:+ default "" (apb_allocation_id a)
  | CB_KillAllocation id => "kill " +:+ id
  | CB_UpdateContainerDescription id _ => "update " +:+ id
  | CB_SnapshotContainer id _ _ => "snapshot " +:+ id
  end.
Definition batch_ex (salt : string) (commit : bool) (app : AppState) (s : Store) (ot : Others) : option (AppState * Store * Others * BatchOutcome) :=
  @write_sm_update canonical_order 1 (oracle_ex salt) (λ s, s) 100 no_cron no_host file_store encode_ex (λ _, commit) (λ _, 0) app s ot.
Definition write_ex (im : InMemoryState) (s : Store) (p : RequestPayload) : Store := (@write canonical_order no_cron true im 5 s p).1.
(** A request of one function, invoked while the application runs one idle container. *)
Definition invocation_ex : RequestPayload :=
  RP_InvokeApplication "ns" "app"
    (MkRequestCtx "ns" "app" "v1" "r1" None 0 None None None {["c1" := function_run_ex "c1" "v1" FRS_Pending]} {["c1" := call_ex "c1" []]}).
Definition served_ex : AppState := (serving_ex, idle_scheduler_ex).
Definition queued_ex : Store := write_ex serving_ex (open_store (empty_db <| db_applications := im_applications serving_ex |>) true) invocation_ex.

Lemma batch_takes_pending_once_witness :
  match batch_ex "" true served_ex queued_ex (MkOthers [writes_ex] []) with
  | Some (_, s', _, BO_Done true) => queue s' = [(1, RP_CreateNameSpace "b" None None); (3, RP_CreateNameSpace "d" None None)]
  | _ => False
  end.
Proof.
  assert (Hq : (queue queued_ex).*1 = [0]) by (vm_compute; reflexivity).
  assert (Hwf : queue_wf queued_ex).
  { intros k x Hk%elem_of_num_iter. change (num_iter (db_payload_queue (ss_db queued_ex))) with (queue queued_ex) in Hk.
    apply (list_elem_of_fmap_2 fst) in Hk. rewrite Hq in Hk. apply list_elem_of_singleton in Hk. change (k = 0) in Hk. subst k.
    split; vm_compute; congruence. }
  assert (H0 : 0 ≤ ss_payload_seq queued_ex) by (vm_compute; congruence).
  assert (Hroom : ss_payload_seq queued_ex + Z.of_nat (length (concat [writes_ex])) < u64_max) by (vm_compute; congruence).
  assert (Eo : (λ r : AppState * Store * Others * BatchOutcome, (r.2, ot_acked r.1.2)) <$> batch_ex "" true served_ex queued_ex (MkOthers [writes_ex] []) =
    Some (BO_Done true, [(1, RP_CreateNameSpace "b" None None); (3, RP_CreateNameSpace "d" None None)])) by (vm_compute; reflexivity).
  pose proof (@batch_takes_pending_once canonical_order 1 (oracle_ex "") (λ s, s) 100 no_cron no_host file_store encode_ex (λ _, true) (λ _, 0)
    served_ex queued_ex [writes_ex] Hwf H0 Hroom) as [_ H].
  change (@write_sm_update canonical_order 1 (oracle_ex "") (λ s, s) 100 no_cron no_host file_store encode_ex (λ _, true) (λ _, 0)
    served_ex queued_ex (MkOthers [writes_ex] [])) with (batch_ex "" true served_ex queued_ex (MkOthers [writes_ex] [])) in H.
  destruct (batch_ex "" true served_ex queued_ex (MkOthers [writes_ex] [])) as [[[[app' s'] ot'] outcome]|]; [|discriminate].
  apply (inj Some) in Eo. apply pair_equal_spec in Eo as [Eo1 Eo2]. change (outcome = BO_Done true) in Eo1. change (ot_acked ot' = [(1, RP_CreateNameSpace "b" None None); (3, RP_CreateNameSpace "d" None None)]) in Eo2.
  subst outcome. destruct H as [_ [_ [H' _]]]. rewrite H'. exact Eo2.
Defined.

(** A failed commit leaks a container slot.  The batch publishes its in-memory
    result although the transaction did not commit; the payload stays queued, the next
    batch invokes the request again, and the run is placed a second time.  The slot of
    the first placement stays taken by an allocation that is in no table and that no
    executor was told of. *)
Theorem failed_commit_leaks_capacity :
  match batch_ex "x" false served_ex queued_ex (MkOthers [] []) with
  | Some (app1, s1, _, BO_Done false) =>
      match batch_ex "y" true app1 s1 (MkOthers [] []) with
      | Some (app2, s2, _, BO_Done true) =>
          csm_allocations <$> cs_function_containers app2.2 !! "c1" = Some {["ax10"]} ∧
          fr_status <$> im_function_runs app2.1 !! "ns|app|r1|c1" = Some (FRS_Running "ay10") ∧
          (map_to_list (db_allocations (ss_db s2))).*1 = ["ns|app|r1|ay10"] ∧
          (sci_command <$> (num_iter (db_scheduler_command_intents (ss_db s2))).*2) = ["add cy10"; "run ay10"] ∧
          queue s2 = []
      | _ => False
      end
  | _ => False
  end.
Proof. vm_compute. split_and!; reflexivity. Qed.

(** The report of a finished run, with what it asks to run next. *)
Definition reported_ex (call allocation container : string) (graph : option GraphUpdates) : RequestPayload :=
  RP_DataplaneResults (MkDataplaneResultsIngestedEvent "e1"
    [MkAllocationOutputIngestedEvent "ns" "app" "fn" "r1" call None graph None allocation (MkAllocationTarget "e1" container) FRO_Success (Some 5)] [] []).
Definition created_events (s : Store) : list string :=
  omap (λ e, match e with EV_FunctionRunCreated e => Some (ern_function_run_id e) | _ => None end) (num_iter (db_request_state_change_events (ss_db s))).*2.

(** The creation of a run is announced more than once.  The clock that marks a
    run as no longer new is set on the copy that is persisted; the copy in memory, and
    every update built from it, still counts as new.  Here the run that the first one
    spawns is announced when it is created and again when it completes. *)
Theorem creation_announced_twice :
  match batch_ex "" true served_ex queued_ex (MkOthers [] []) with
  | Some (app1, s1, _, _) =>
      match batch_ex "" true app1 (write_ex app1.1 s1 (reported_ex "c1" "a10" "c1" (Some (MkGraphUpdates [CO_FunctionCall (call_ex "c2" [])] "c2"))))
              (MkOthers [] []) with
      | Some (app2, s2, _, _) =>
          created_events s2 = ["c1"; "c2"] ∧
          match batch_ex "" true app2 (write_ex app2.1 s2 (reported_ex "c2" "a20" "c1" None)) (MkOthers [] []) with
          | Some (_, s3, _, BO_Done true) => created_events s3 = ["c1"; "c2"; "c2"]
          | _ => False
          end
      | None => False
      end
  | None => False
  end.
Proof. vm_compute. split; reflexivity. Qed.

(** A pool that wants one container, and no executor to place it on. *)
Definition unplaceable_ex : ContainerScheduler := mark_pool_dirty (insert_pool empty_scheduler sandbox_pool_ex) (pool_key_of_pool sandbox_pool_ex).
(** Unmet pool demand is not published.  When the reconciler can place nothing, it
    reports how many containers are missing, but its update has no container and no
    executor state and is dropped as a whole: the pending resources, from which
    capacity is planned, show no demand at all. *)
Theorem pool_deficits_dropped :
  let s := open_store empty_db false in
  (λ r, su_sandbox_pool_deficits r.2) <$> @reconcile canonical_order empty_state (or_pool (oracle_ex "") 0) 100 unplaceable_ex ∅ =
    Some (Some {[profile_from_container_resources (cp_resources sandbox_pool_ex) := 1]}) ∧
  @run_pool_reconciliation canonical_order (oracle_ex "") 100 no_cron no_host file_store encode_ex (λ _, true) (λ _, 0) (empty_state, unplaceable_ex) s =
    Some ((empty_state, unplaceable_ex), s, true) ∧
  pr_sandbox_pool_deficits (im_pending_resources empty_state) = ∅.
Proof.
  intros s. split; [apply (bool_decide_eq_true_1 _); vm_compute; reflexivity|]. split; [|reflexivity].
  assert (B : match @reconcile canonical_order empty_state (or_pool (oracle_ex "") 0) 100 unplaceable_ex ∅ with
              | Some (_, _, u) => bool_decide (su_containers u = ∅) && bool_decide (su_updated_executor_states u = ∅)
              | None => false
              end = true) by (vm_compute; reflexivity).
  unfold run_pool_reconciliation. cbn [fst snd]. destruct (reconcile _ _ _ _ _) as [[[sched cache] u]|]; [|discriminate]. by rewrite B.
Qed.
