(* ===== verification/CronProcessor.v ===== *)
(** * The cron processor

    [processor/cron_processor.rs]: the schedules waiting in a delay queue, the events
    that keep it in step with the stored schedules, and the firing of a schedule.

    The delay queue holds entries under keys of its own; the key it gives to a new entry
    is a parameter, of which it is documented that it is not in use.  Times are
    milliseconds since the epoch: an entry inserted with a delay is due at the sum. *)
From S2P Require Import Prelude DataModel Updates InMemoryState FunctionRuns RequestEvents StateMachine Scanner StateStore.
Open Scope string_scope.
Open Scope list_scope.
Open Scope Z_scope.

Record CronScheduleKey := MkCronScheduleKey {
  csk_namespace : string;
  csk_application_name : string;
  csk_schedule_id : string;
}.
#[export] Instance CronScheduleKey_eq_dec : EqDecision CronScheduleKey.
Proof. solve_decision. Defined.
#[export] Instance CronScheduleKey_countable : Countable CronScheduleKey.
Proof.
  apply (inj_countable' (λ k, (csk_namespace k, csk_application_name k, csk_schedule_id k)) (λ '(a, b, c), MkCronScheduleKey a b c)).
  by intros [].
Defined.
Definition entry_key (e : CronScheduleEntry) : CronScheduleKey := MkCronScheduleKey (cse_namespace e) (cse_application_name e) (cse_id e).

(** The delay queue, by its keys, with the time each entry is due, and [active_keys]. *)
Record CronQueue := MkCronQueue {
  cq_entries : gmap Z (CronScheduleKey * Z);
  cq_active : gmap CronScheduleKey (Z * Z);
}.

(** The deduplicated events of [apply_events]. *)
Record CronEvents := MkCronEvents {
  ce_all_removed : gset (string * string);
  ce_deduped : gmap (string * string * string) CronEvent;
}.
Definition dedup_event (acc : CronEvents) (ev : CronEvent) : CronEvents :=
  let keep ns app id := if bool_decide ((ns, app) ∈ ce_all_removed acc) then acc
                        else MkCronEvents (ce_all_removed acc) (<[(ns, app, id) := ev]> (ce_deduped acc)) in
  match ev with
  | CE_AllRemoved ns app =>
      MkCronEvents ({[(ns, app)]} ∪ ce_all_removed acc)
        (filter (λ kv, ¬ (kv.1.1.1 = ns ∧ kv.1.1.2 = app)) (ce_deduped acc))
  | CE_Upserted ns app id => keep ns app id
  | CE_Removed ns app id => keep ns app id
  end.

Section cron.
Context `{HO : HashOrder}.
Context (fresh_key : gset Z → Z).
Context (compute_next_fire_time : string → Z → result string Z).

(** Insert a schedule that fires at [next]. *)
Definition track (now : Z) (key : CronScheduleKey) (next : Z) (q : CronQueue) : CronQueue :=
  let h := fresh_key (dom (cq_entries q)) in
  MkCronQueue (<[h := (key, if bool_decide (next ≤ now) then now else next)]> (cq_entries q)) (<[key := (h, next)]> (cq_active q)).
(** Remove a schedule; [DelayQueue::remove] panics on a key it does not hold. *)
Definition untrack (key : CronScheduleKey) (q : CronQueue) : option CronQueue :=
  match cq_active q !! key with
  | None => Some q
  | Some (h, _) =>
      match cq_entries q !! h with
      | Some _ => Some (MkCronQueue (delete h (cq_entries q)) (delete key (cq_active q)))
      | None => None
      end
  end.
Fixpoint untrack_all (keys : list CronScheduleKey) (q : CronQueue) : option CronQueue :=
  match keys with
  | [] => Some q
  | k :: keys => untrack k q ≫= untrack_all keys
  end.

(** [load_all_schedules]. *)
Definition load_all_schedules (db : Db) (now : Z) (q : CronQueue) : CronQueue :=
  foldl (λ q e, if cse_enabled e then track now (entry_key e) (cse_next_fire_time_ms e) q else q) q (get_all_cron_schedules db).

(** One deduplicated event. *)
Definition apply_event (db : Db) (now : Z) (ev : CronEvent) (q : CronQueue) : option CronQueue :=
  match ev with
  | CE_Upserted ns app id =>
      let key := MkCronScheduleKey ns app id in
      match get_cron_schedule db ns app id with
      | Some e => q1 ← untrack key q; Some (if cse_enabled e then track now key (cse_next_fire_time_ms e) q1 else q1)
      | None => untrack key q
      end
  | CE_Removed ns app id => untrack (MkCronScheduleKey ns app id) q
  | CE_AllRemoved _ _ => Some q
  end.
Fixpoint apply_all (db : Db) (now : Z) (evs : list CronEvent) (q : CronQueue) : option CronQueue :=
  match evs with
  | [] => Some q
  | ev :: evs => apply_event db now ev q ≫= apply_all db now evs
  end.
(** [apply_events]. *)
Definition of_app (ns app : string) (k : CronScheduleKey) : bool := bool_decide (csk_namespace k = ns) && bool_decide (csk_application_name k = app).
Fixpoint remove_apps (apps : list (string * string)) (q : CronQueue) : option CronQueue :=
  match apps with
  | [] => Some q
  | (ns, app) :: apps => untrack_all (List.filter (of_app ns app) (map_iter (cq_active q)).*1) q ≫= remove_apps apps
  end.
Definition apply_events (db : Db) (now : Z) (events : list CronEvent) (q : CronQueue) : option CronQueue :=
  let acc := foldl dedup_event (MkCronEvents ∅ ∅) events in
  q1 ← remove_apps (set_iter (ce_all_removed acc)) q;
  apply_all db now (map_iter (ce_deduped acc)).*2 q1.

(** [fire_cron]: the invocation written for a schedule, if any. *)
Definition cron_request (db : Db) (key : CronScheduleKey) (e : CronScheduleEntry) (request_id : string) (now now_ns : Z) : result string (option RequestPayload) :=
  match get_application db (csk_namespace key) (csk_application_name key) with
  | None => Ok None
  | Some app =>
      if app_tombstoned app then Ok None
      else match app_state app with
      | AppDisabled _ => Ok None
      | AppActive =>
          match app_entrypoint app with
          | None => Ok None
          | Some ep =>
              match app_functions app !! ep_function_name ep with
              | None => Err "entrypoint function not found"
              | Some f =>
                  let args := match cse_input e with Some p => [MkInputArgs None p] | None => [] end in
                  let inputs := match cse_input e with Some p => [FA_DataPayload p] | None => [] end in
                  let call := MkFunctionCall request_id inputs (fn_name f) "" None in
                  match get_application_version db (csk_namespace key) (app_name app) (app_version app) with
                  | None => Err "application version not found"
                  | Some v =>
                      let run := create_function_run v call args request_id now_ns in
                      let ctx := MkRequestCtx (csk_namespace key) (app_name app) (app_version app) request_id None now None None None
                                   {[fr_id run := run]} {[request_id := call]} in
                      Ok (Some (RP_InvokeApplication (csk_namespace key) (app_name app) ctx))
                  end
              end
          end
      end
  end.
(** [fire_and_reschedule]: the queue and the store after it; [None] is an error, which
    leaves the schedule out of the queue.  [commit1] and [commit2] say whether the
    advance and the invocation commit. *)
Definition fire_and_reschedule (commit1 commit2 : bool) (im : InMemoryState) (now now_ns : Z) (request_id : string) (key : CronScheduleKey)
    (q : CronQueue) (s : Store) : CronQueue * Store * bool :=
  match get_cron_schedule (ss_db s) (csk_namespace key) (csk_application_name key) (csk_schedule_id key) with
  | None => (q, s, true)
  | Some e =>
      match compute_next_fire_time (cse_cron_expression e) now with
      | Err _ => (q, s, false)
      | Ok next =>
          match write compute_next_fire_time commit1 im now s
                  (RP_AdvanceCronSchedule (csk_namespace key) (csk_application_name key) (csk_schedule_id key) (cse_cron_expression e) now) with
          | (s1, Err _) => (q, s1, false)
          | (s1, Ok _) =>
              let q1 := track now key next q in
              match cron_request (ss_db s1) key e request_id now now_ns with
              | Ok (Some p) => (q1, (write compute_next_fire_time commit2 im now s1 p).1, true)
              | _ => (q1, s1, true)
              end
          end
      end
  end.
(** An entry of the delay queue expires. *)
Definition expire (h : Z) (key : CronScheduleKey) (q : CronQueue) : CronQueue := MkCronQueue (delete h (cq_entries q)) (delete key (cq_active q)).

(** ** The loop *)

(** One turn of the loop of [start]: events, an expired entry, or a write by another
    task. *)
Inductive cron_step : CronQueue * Store → CronQueue * Store → Prop :=
| cs_events q s now events q' : apply_events (ss_db s) now events q = Some q' → cron_step (q, s) (q', s)
| cs_fire q s now now_ns h key due commit1 commit2 im request_id q' s' ok :
    cq_entries q !! h = Some (key, due) → due ≤ now →
    fire_and_reschedule commit1 commit2 im now now_ns request_id key (expire h key q) s = (q', s', ok) → cron_step (q, s) (q', s')
| cs_other q s s' : cron_step (q, s) (q, s').
End cron.

(** Every active schedule has exactly one entry in the delay queue, and every entry
    belongs to an active schedule. *)
Definition cron_inv (q : CronQueue) : Prop :=
  (∀ k h t, cq_active q !! k = Some (h, t) → ∃ due, cq_entries q !! h = Some (k, due) ∧ t ≤ due) ∧
  (∀ h k due, cq_entries q !! h = Some (k, due) → ∃ t, cq_active q !! k = Some (h, t)).

Section removal.
Context `{HO : HashOrder}.

Lemma cron_inv_empty : cron_inv (MkCronQueue ∅ ∅).
Proof. by split; intros ???; cbn; rewrite lookup_empty. Qed.
Lemma expire_inv h key due q : cq_entries q !! h = Some (key, due) → cron_inv q → cron_inv (expire h key q).
Proof.
  intros Hh [H1 H2]. destruct (H2 _ _ _ Hh) as [t Ht]. split; cbn [expire cq_active cq_entries].
  - intros k h' t' Hk. apply lookup_delete_Some in Hk as [Hne Hk]. destruct (H1 _ _ _ Hk) as (d & Hd & Hle). exists d.
    split; [|done]. rewrite lookup_delete_ne; [done|]. intros <-. congruence.
  - intros h' k d Hd. apply lookup_delete_Some in Hd as [Hne Hd]. destruct (H2 _ _ _ Hd) as [t' Ht']. exists t'.
    rewrite lookup_delete_ne; [done|]. intros <-. congruence.
Qed.
Lemma untrack_inv key q : cron_inv q →
  ∃ q', untrack key q = Some q' ∧ cron_inv q' ∧ cq_active q' = delete key (cq_active q).
Proof.
  intros H. unfold untrack. destruct (cq_active q !! key) as [[h t]|] eqn:Ek.
  - destruct (proj1 H _ _ _ Ek) as (due & Hd & _). rewrite Hd. eexists. split; [done|]. split; [by eapply (expire_inv h key)|done].
  - exists q. split; [done|]. split; [done|]. by rewrite delete_id.
Qed.
Lemma untrack_all_inv keys : ∀ q, cron_inv q →
  ∃ q', untrack_all keys q = Some q' ∧ cron_inv q' ∧ ∀ k, cq_active q' !! k = if bool_decide (k ∈ keys) then None else cq_active q !! k.
Proof.
  induction keys as [|key keys IH]; intros q Hq; [by exists q|]. cbn [untrack_all].
  destruct (untrack_inv key q Hq) as (q1 & -> & Hq1 & E1). cbn. destruct (IH q1 Hq1) as (q2 & -> & Hq2 & E2).
  exists q2. split; [done|]. split; [done|]. intros k. rewrite E2, E1, lookup_delete. destruct (decide (key = k)) as [->|Hne].
  - rewrite (bool_decide_eq_true_2 (k ∈ k :: keys)) by set_solver. by case_bool_decide.
  - by rewrite (bool_decide_ext (k ∈ key :: keys) (k ∈ keys)) by set_solver.
Qed.
Lemma remove_apps_inv apps : ∀ q, cron_inv q →
  ∃ q', remove_apps apps q = Some q' ∧ cron_inv q' ∧
    ∀ k, cq_active q' !! k = if bool_decide ((csk_namespace k, csk_application_name k) ∈ apps) then None else cq_active q !! k.
Proof.
  induction apps as [|[ns app] apps IH]; intros q Hq; [by exists q|]. cbn [remove_apps].
  destruct (untrack_all_inv (List.filter (of_app ns app) (map_iter (cq_active q)).*1) q Hq) as (q1 & -> & Hq1 & E1). cbn.
  destruct (IH q1 Hq1) as (q2 & -> & Hq2 & E2). exists q2. split; [done|]. split; [done|]. intros k. rewrite E2, E1.
  assert (Hk : k ∈ List.filter (of_app ns app) (map_iter (cq_active q)).*1 ↔ (csk_namespace k, csk_application_name k) = (ns, app) ∧ is_Some (cq_active q !! k)).
  { rewrite list_elem_of_In, filter_In, <-list_elem_of_In. unfold of_app. rewrite andb_true_iff, !bool_decide_eq_true, list_elem_of_fmap. split.
    - intros [([k' v] & -> & Hv%elem_of_map_iter) [<- <-]]. split; [done|by eexists].
    - intros [[= -> ->] [v Hv]]. split; [|done]. exists (k, v). split; [done|by apply elem_of_map_iter]. }
  destruct (decide ((csk_namespace k, csk_application_name k) = (ns, app))) as [Ek|Ek].
  - rewrite (bool_decide_eq_true_2 (_ ∈ (ns, app) :: apps)) by (rewrite Ek; set_solver). case_bool_decide; [done|]. case_bool_decide as Hf; [done|].
    destruct (cq_active q !! k) as [v|] eqn:Ev; [|done]. destruct Hf. apply Hk. by split.
  - rewrite (bool_decide_ext (_ ∈ (ns, app) :: apps) ((csk_namespace k, csk_application_name k) ∈ apps)) by (rewrite elem_of_cons; tauto).
    case_bool_decide; [done|]. rewrite bool_decide_eq_false_2; [done|]. intros [? _]%Hk. done.
Qed.
End removal.

Section invariant.
Context `{HO : HashOrder}.
Context (fresh_key : gset Z → Z) (fresh_key_new : ∀ X, fresh_key X ∉ X).
Context (compute_next_fire_time : string → Z → result string Z).

Lemma track_inv now key next q : cq_active q !! key = None → cron_inv q → cron_inv (track fresh_key now key next q).
Proof using fresh_key_new.
  intros Hk [H1 H2]. unfold track. set (h := fresh_key (dom (cq_entries q))).
  assert (Hh : cq_entries q !! h = None) by (apply not_elem_of_dom, fresh_key_new). split; cbn [cq_active cq_entries].
  - intros k h' t Hk'. apply lookup_insert_Some in Hk' as [[<- [= <- <-]]|[Hne Hk']].
    + rewrite lookup_insert_eq. eexists. split; [done|]. case_bool_decide; lia.
    + destruct (H1 _ _ _ Hk') as (due & Hd & Ht). exists due. rewrite lookup_insert_ne by congruence. done.
  - intros h' k due Hd. apply lookup_insert_Some in Hd as [[<- [= <- <-]]|[Hne Hd]].
    + exists next. by rewrite lookup_insert_eq.
    + destruct (H2 _ _ _ Hd) as [t Ht]. exists t. rewrite lookup_insert_ne by congruence. done.
Qed.
Lemma apply_event_inv db now ev q : cron_inv q → ∃ q', apply_event fresh_key db now ev q = Some q' ∧ cron_inv q'.
Proof using fresh_key_new.
  intros Hq. destruct ev as [ns app id|ns app id|ns app]; cbn [apply_event]; [| |by exists q].
  - destruct (untrack_inv (MkCronScheduleKey ns app id) q Hq) as (q1 & E & Hq1 & Ea). destruct (get_cron_schedule db ns app id) as [e|]; rewrite E; cbn.
    + eexists. split; [done|]. destruct (cse_enabled e); [|done]. apply track_inv; [|done]. by rewrite Ea, lookup_delete_eq.
    + by exists q1.
  - destruct (untrack_inv (MkCronScheduleKey ns app id) q Hq) as (q1 & E & Hq1 & _). by exists q1.
Qed.
Lemma apply_events_inv db now events q : cron_inv q → ∃ q', apply_events fresh_key db now events q = Some q' ∧ cron_inv q'.
Proof using fresh_key_new.
  intros Hq. unfold apply_events. destruct (remove_apps_inv (set_iter (ce_all_removed (foldl dedup_event (MkCronEvents ∅ ∅) events))) q Hq) as (q1 & -> & Hq1 & _).
  cbn. revert q1 Hq1. induction (map_iter _).*2 as [|ev evs IH]; intros q1 Hq1; cbn [apply_all]; [by exists q1|].
  destruct (apply_event_inv db now ev q1 Hq1) as (q2 & -> & Hq2). cbn. by apply IH.
Qed.
Lemma fire_inv commit1 commit2 im now now_ns rid key q s :
  cq_active q !! key = None → cron_inv q → cron_inv (fire_and_reschedule fresh_key compute_next_fire_time commit1 commit2 im now now_ns rid key q s).1.1.
Proof using fresh_key_new.
  intros Hk Hq. unfold fire_and_reschedule. destruct (get_cron_schedule _ _ _ _) as [e|]; [|done].
  destruct (compute_next_fire_time _ now) as [next|]; [|done]. destruct (write _ commit1 _ _ _ _) as [s1 [n|er]]; [|done].
  destruct (cron_request _ _ _ _ _ _) as [[p|]|]; cbn [fst]; by apply track_inv.
Qed.
(** A schedule is filed under its own key. *)
Definition cron_rows_wf (db : Db) : Prop := ∀ k e, db_cron_schedules db !! k = Some e → k = cron_entry_key e.
Lemma entry_key_inj_on e e' : entry_key e = entry_key e' → cron_entry_key e = cron_entry_key e'.
Proof. unfold entry_key, cron_entry_key. by intros [= -> -> ->]. Qed.
Lemma load_loop_inv now l : ∀ q, cron_inv q → NoDup (entry_key <$> l) → (∀ e, e ∈ l → cq_active q !! entry_key e = None) →
  cron_inv (foldl (λ q e, if cse_enabled e then track fresh_key now (entry_key e) (cse_next_fire_time_ms e) q else q) q l) ∧
  ∀ k t, (∃ h, cq_active (foldl (λ q e, if cse_enabled e then track fresh_key now (entry_key e) (cse_next_fire_time_ms e) q else q) q l) !! k = Some (h, t)) ↔
    (∃ h, cq_active q !! k = Some (h, t)) ∨ ∃ e, e ∈ l ∧ cse_enabled e = true ∧ entry_key e = k ∧ cse_next_fire_time_ms e = t.
Proof using fresh_key_new.
  induction l as [|e l IH]; intros q Hq Hn Hl; cbn [foldl].
  { split; [done|]. intros k t. split; [by left|]. intros [H|(e & He%not_elem_of_nil & _)]; done. }
  apply NoDup_cons in Hn as [Hne Hn].
  assert (Hfree : ∀ e', e' ∈ l → entry_key e' ≠ entry_key e) by (intros e' He' E; apply Hne; rewrite <-E; by apply list_elem_of_fmap_2).
  destruct (cse_enabled e) eqn:Ee.
  - destruct (IH (track fresh_key now (entry_key e) (cse_next_fire_time_ms e) q)) as [Hi Ha].
    + apply track_inv; [apply Hl; by left|done].
    + done.
    + intros e' He'. cbn. rewrite lookup_insert_ne by (intros E; by apply (Hfree e' He')). apply Hl. by right.
    + split; [done|]. intros k t. rewrite Ha. cbn [track cq_active]. split.
      * intros [[h Hk]|(e' & He' & H)]; [|right; exists e'; split; [by right|done]].
        apply lookup_insert_Some in Hk as [[<- [= _ <-]]|[_ Hk]]; [|by left; exists h]. right. exists e. split; [by left|done].
      * intros [[h Hk]|(e' & He' & H1 & <- & <-)].
        -- left. exists h. rewrite lookup_insert_ne; [done|]. intros <-. rewrite Hl in Hk by (by left). done.
        -- apply elem_of_cons in He' as [->|He']; [left; eexists; by rewrite lookup_insert_eq|]. right. by exists e'.
  - destruct (IH q Hq Hn) as [Hi Ha]; [intros e' He'; apply Hl; by right|]. split; [done|]. intros k t. rewrite Ha. split.
    + intros [H|(e' & He' & H)]; [by left|]. right. exists e'. split; [by right|done].
    + intros [H|(e' & He' & H1 & H)]; [by left|]. apply elem_of_cons in He' as [->|He']; [congruence|]. right. by exists e'.
Qed.
End invariant.

(** ** Stored schedules *)

Lemma all_cron_schedules db : get_all_cron_schedules db = (ord_iter (db_cron_schedules db)).*2.
Proof.
  unfold get_all_cron_schedules, get_rows_from_cf_with_limits. cbn [default].
  assert (E : rows_from (db_cron_schedules db) "" = ord_iter (db_cron_schedules db)).
  { unfold rows_from. generalize (ord_iter (db_cron_schedules db)). intros l. induction l as [|[k v] l IH]; [done|]. cbn [List.filter].
    rewrite bool_decide_eq_true_2; [by rewrite IH|]. apply prefix_le. by destruct k. }
  rewrite E. clear E. generalize (ord_iter (db_cron_schedules db)). intros l.
  assert (H : ∀ items, (collect_rows "" None l items).1 = items ++ l.*2).
  { induction l as [|[k v] l IH]; intros items; cbn [collect_rows]; [by rewrite app_nil_r|]. assert (Ek : String.prefix "" k = true) by (by destruct k). rewrite Ek. cbn [negb].
    rewrite IH. by rewrite <-app_assoc. }
  exact (H []).
Qed.
Lemma elem_of_all_cron_schedules db e : e ∈ get_all_cron_schedules db ↔ ∃ k, db_cron_schedules db !! k = Some e.
Proof.
  rewrite all_cron_schedules, list_elem_of_fmap. split.
  - intros ([k e'] & -> & H%elem_of_ord_iter). by exists k.
  - intros [k H]. exists (k, e). split; [done|by apply elem_of_ord_iter].
Qed.
Definition row_key (k : CronScheduleKey) : string := cron_key (csk_namespace k) (csk_application_name k) (csk_schedule_id k).
Lemma all_cron_schedules_NoDup db : cron_rows_wf db → NoDup (entry_key <$> get_all_cron_schedules db).
Proof.
  intros Hw. rewrite all_cron_schedules. apply (NoDup_fmap_1 row_key).
  assert (E : row_key <$> (entry_key <$> (ord_iter (db_cron_schedules db)).*2) = (ord_iter (db_cron_schedules db)).*1).
  { rewrite <-!list_fmap_compose. apply list_fmap_ext. intros i [k e] He%list_elem_of_lookup_2%elem_of_ord_iter%Hw. by rewrite He. }
  rewrite E. apply NoDup_ord_iter_fst.
Qed.

Section rows.
Context `{HO : HashOrder} (compute_next_fire_time : string → Z → result string Z).

(** The schedules after a write are those its transaction wrote. *)
Lemma persist_cron ok im now s p s' r :
  persist compute_next_fire_time ok im now s p None [] = (s', r) → (∀ n b g, p ≠ RP_CreateNameSpace n b g) → prepare_for_persistence (ss_state_change_id_seq s) p = p ∨ (∃ ns app ctx, p = RP_InvokeApplication ns app ctx) →
  match r with
  | Ok _ => ∃ db1 useq b ev, write_payload compute_next_fire_time im (ss_db s) (ss_usage_event_id_seq s) (ss_state_change_id_seq s) now
                               (prepare_for_persistence (ss_state_change_id_seq s) p) = Ok (db1, useq, b, ev) ∧
              db_cron_schedules (ss_db s') = db_cron_schedules db1
  | Err _ => db_cron_schedules (ss_db s') = db_cron_schedules (ss_db s)
  end.
Proof.
  intros E Hns Hp. unfold persist in E. set (q := prepare_for_persistence (ss_state_change_id_seq s) p) in *.
  assert (Ed : match q with RP_CreateNameSpace name bucket region => upsert_namespace (ss_db s) name bucket region (ss_state_change_id_seq s) now | _ => ss_db s end = ss_db s).
  { destruct Hp as [->|(ns & app & ctx & Hp)]; [|unfold q; by rewrite Hp]. destruct p; try done. by destruct (Hns name blob_storage_bucket blob_storage_region). }
  rewrite Ed in E. clear Ed.
  destruct (write_payload _ _ _ _ _ _ q) as [[[[db1 useq] b] ev]|e]; [|by injection E as <- <-].
  set (evs := if ss_export_request_events s then _ else _) in E.
  assert (E2 : db_cron_schedules evs.1 = db_cron_schedules db1).
  { unfold evs. destruct (ss_export_request_events s); [|done]. unfold persist_events.
    apply (foldl_keeps (λ acc : Db * Z, db_cron_schedules acc.1)). by intros [d n] x. }
  destruct evs as [db2 eseq]. cbn [fst] in E2. cbv zeta in E.
  match type of E with context [persist_scheduler_command_intents ?d ?n ?l] =>
    assert (E4 : db_cron_schedules (persist_scheduler_command_intents d n l).1 = db_cron_schedules d);
    [unfold persist_scheduler_command_intents; apply (foldl_keeps (λ acc : Db * Z, db_cron_schedules acc.1)); by intros [x y] z|];
    destruct (persist_scheduler_command_intents d n l) as [db4 iseq] end.
  cbn [fst] in E4. destruct ok; injection E as <- <-; [|done]. exists db1, useq, b, ev. split; [done|].
  change (db_cron_schedules db4 = db_cron_schedules db1). rewrite E4. by destruct (should_enqueue q).
Qed.
Lemma create_request_cron d ns app ctx d' : create_request d ns app ctx = Ok d' → db_cron_schedules d' = db_cron_schedules d.
Proof.
  unfold create_request. destruct (db_applications d !! _) as [a|]; [|done]. destruct (app_state a); [|done]. destruct (app_tombstoned a); [done|].
  destruct (db_request_ctx d !! _); [done|]. intros [= <-].
  change (db_cron_schedules (?x <| db_request_ctx_secondary_index ::= _ |>)) with (db_cron_schedules x). by rewrite !(foldl_keeps db_cron_schedules).
Qed.
End rows.

(** ** What the processor guarantees *)

Section claims.
Context `{HO : HashOrder}.
Context (fresh_key : gset Z → Z) (fresh_key_new : ∀ X, fresh_key X ∉ X).
Context (compute_next_fire_time : string → Z → result string Z) (next_is_later : ∀ expr t n, compute_next_fire_time expr t = Ok n → t < n).
Local Notation step := (cron_step fresh_key compute_next_fire_time).
Local Notation load := (load_all_schedules fresh_key).
Local Notation fire := (fire_and_reschedule fresh_key compute_next_fire_time).

Lemma load_inv db now : cron_rows_wf db →
  cron_inv (load db now (MkCronQueue ∅ ∅)) ∧
  ∀ k t, (∃ h, cq_active (load db now (MkCronQueue ∅ ∅)) !! k = Some (h, t)) ↔
    ∃ e, e ∈ get_all_cron_schedules db ∧ cse_enabled e = true ∧ entry_key e = k ∧ cse_next_fire_time_ms e = t.
Proof using fresh_key_new.
  intros Hw. unfold load_all_schedules.
  destruct (load_loop_inv fresh_key fresh_key_new now (get_all_cron_schedules db) (MkCronQueue ∅ ∅) cron_inv_empty (all_cron_schedules_NoDup db Hw)) as [H1 H2].
  { intros e _. apply lookup_empty. }
  split; [done|]. intros k t. rewrite H2. split; [|by right]. intros [[h Hh]|H]; [|done]. cbn in Hh. by rewrite lookup_empty in Hh.
Qed.
Lemma step_inv x y : step x y → cron_inv x.1 → cron_inv y.1.
Proof using fresh_key_new.
  destruct 1 as [q s now events q' E|q s now now_ns h key due c1 c2 im rid q' s' ok Hh Hd E|]; cbn [fst]; intros Hq; [| |done].
  - destruct (apply_events_inv fresh_key fresh_key_new (ss_db s) now events q Hq) as (q2 & E2 & H2). congruence.
  - pose proof (fire_inv fresh_key fresh_key_new compute_next_fire_time c1 c2 im now now_ns rid key (expire h key q) s) as H. rewrite E in H. apply H.
    + apply lookup_delete_eq.
    + by eapply expire_inv.
Qed.

(** C30: from startup on, whatever events arrive, schedules expire and other tasks
    write, every active schedule waits under exactly one entry of the delay queue and
    every entry belongs to an active schedule; so no schedule is queued twice and
    removing one never hits a missing entry. *)
Theorem cron_queue_consistent db now s q s' :
  cron_rows_wf db → rtc step (load db now (MkCronQueue ∅ ∅), s) (q, s') →
  cron_inv q ∧ ∀ db' now' events, is_Some (apply_events fresh_key db' now' events q).
Proof using fresh_key_new.
  intros Hw Hr. assert (Hq : cron_inv q).
  { assert (Hgo : ∀ x y : CronQueue * Store, rtc step x y → cron_inv x.1 → cron_inv y.1).
    { intros x y. induction 1 as [|x y z Hs _ IH]; [done|]. intros Hx. apply IH. by eapply step_inv. }
    exact (Hgo _ _ Hr (proj1 (load_inv db now Hw))). }
  split; [done|]. intros db' now' events. destruct (apply_events_inv fresh_key fresh_key_new db' now' events q Hq) as (q' & E & _). by exists q'.
Qed.

(** A schedule never fires twice for one due time.  If firing leaves an invocation
    in the payload queue, then it is the only one, the stored schedule already names a
    fire time after now, and both this processor and any processor started later wait
    for that time; so a crash at any point can lose an invocation but not repeat it.
    The hypothesis on [compute_next_fire_time] is that the next occurrence is later than
    the time it is computed from. *)
Theorem cron_never_fires_twice commit1 commit2 im now now_ns request_id key q s q' s' ok :
  queue_wf s → 0 ≤ ss_payload_seq s < u64_max → cron_rows_wf (ss_db s) →
  fire commit1 commit2 im now now_ns request_id key q s = (q', s', ok) →
  queue s' = queue s ∨
  ∃ p e, queue s' = queue s ++ [p] ∧ db_cron_schedules (ss_db s') !! row_key key = Some e ∧ now < cse_next_fire_time_ms e ∧
    (∃ h, cq_active q' !! key = Some (h, cse_next_fire_time_ms e)) ∧
    (∀ now' h due, cq_entries (load (ss_db s') now' (MkCronQueue ∅ ∅)) !! h = Some (entry_key e, due) → cse_next_fire_time_ms e ≤ due).
Proof using fresh_key_new next_is_later.
  intros Hwf Hseq Hrows. unfold fire_and_reschedule, get_cron_schedule. fold (row_key key).
  destruct (db_cron_schedules (ss_db s) !! row_key key) as [e|] eqn:Ee; [|intros [= <- <- <-]; by left].
  destruct (compute_next_fire_time (cse_cron_expression e) now) as [next|] eqn:En; [|intros [= <- <- <-]; by left].
  unfold write, notified. set (adv := RP_AdvanceCronSchedule _ _ _ _ _).
  destruct (persist_queue compute_next_fire_time commit1 im now s adv None [] Hwf Hseq) as [Hq1 Hw1].
  destruct (persist compute_next_fire_time commit1 im now s adv None []) as [s1 [w|er]] eqn:E1; cbn [fst snd] in *; [|intros [= <- <- <-]; left; exact (proj1 Hq1)].
  destruct Hq1 as (Hq1 & _ & Hs1). change (queue s1 = queue s) in Hq1. change (ss_payload_seq s1 = ss_payload_seq s + 0) in Hs1.
  destruct (persist_cron compute_next_fire_time commit1 im now s adv s1 (Ok w) E1 ltac:(done) ltac:(by left)) as (db1 & useq & b & ev & Ewp & Hc1).
  change (match advance_cron_schedule compute_next_fire_time (ss_db s) (csk_namespace key) (csk_application_name key) (csk_schedule_id key) (cse_cron_expression e) now with
          | Ok db' => Ok (db', ss_usage_event_id_seq s, false, None) | Err e => Err e end = Ok (db1, useq, b, ev)) in Ewp.
  unfold advance_cron_schedule in Ewp. fold (row_key key) in Ewp. rewrite Ee, En in Ewp. injection Ewp as <- <- <- <-.
  set (e' := e <| cse_last_fired_at_ms := Some now |> <| cse_next_fire_time_ms := next |>) in *.
  assert (Hkey : cron_entry_key e' = row_key key) by (symmetry; exact (Hrows _ _ Ee)).
  change (db_cron_schedules (ss_db s1) = <[cron_entry_key e' := e']> (db_cron_schedules (ss_db s))) in Hc1. rewrite Hkey in Hc1.
  destruct (cron_request (ss_db s1) key e request_id now now_ns) as [[p|]|] eqn:Ep; [|intros [= <- <- <-]; by left..].
  assert (Hp : ∃ ns app ctx, p = RP_InvokeApplication ns app ctx).
  { revert Ep. unfold cron_request. destruct (get_application _ _ _) as [app|]; [|done]. destruct (app_tombstoned app); [done|]. destruct (app_state app); [|done].
    destruct (app_entrypoint app) as [ep|]; [|done]. destruct (app_functions app !! _) as [f|]; [|done]. destruct (get_application_version _ _ _ _) as [v|]; [|done].
    intros [= <-]. eauto. }
  destruct Hp as (ns & app & ctx & ->).
  destruct (persist_queue compute_next_fire_time commit2 im now s1 (RP_InvokeApplication ns app ctx) None [] Hw1 ltac:(lia)) as [Hq2 _].
  destruct (persist compute_next_fire_time commit2 im now s1 (RP_InvokeApplication ns app ctx) None []) as [s2 [w2|er]] eqn:E2; cbn [fst snd] in *.
  2:{ intros [= <- <- <-]. left. rewrite <-Hq1. exact (proj1 Hq2). }
  destruct Hq2 as (Hq2 & _ & _). intros [= <- <- <-]. right.
  destruct (persist_cron compute_next_fire_time commit2 im now s1 _ s2 (Ok w2) E2 ltac:(done) ltac:(right; eauto)) as (db2 & useq2 & b2 & ev2 & Ewp2 & Hc2).
  assert (Hc : db_cron_schedules (ss_db s2) = <[row_key key := e']> (db_cron_schedules (ss_db s))).
  { rewrite Hc2, <-Hc1. cbn [prepare_for_persistence write_payload] in Ewp2. destruct (create_request _ _ _ _) as [db3|] eqn:Ecr; [|done].
    injection Ewp2 as <- <- <- <-. by apply create_request_cron in Ecr. }
  assert (Hrows2 : cron_rows_wf (ss_db s2)).
  { intros k x. rewrite Hc. intros [[<- <-]|[_ Hx]]%lookup_insert_Some; [by rewrite Hkey|by apply Hrows]. }
  eexists _, e'. split; [rewrite Hq2; change (queue_push ?q _ _) with (q ++ [(ss_payload_seq s1, prepare_for_persistence (ss_state_change_id_seq s1) (RP_InvokeApplication ns app ctx))]); cbn [queue_pop]; by rewrite Hq1|].
  split; [by rewrite Hc, lookup_insert_eq|]. split; [exact (next_is_later _ _ _ En)|]. split; [eexists; apply lookup_insert_eq|].
  intros now' h due Hdue. destruct (load_inv (ss_db s2) now' Hrows2) as [[H1 H2] H3]. destruct (H2 _ _ _ Hdue) as [t Ht].
  destruct (proj1 (H3 (entry_key e') t)) as (x & (k & Hx)%elem_of_all_cron_schedules & _ & Exk & <-); [by exists h|].
  assert (k = row_key key) as ->.
  { rewrite <-Hkey. rewrite (Hrows2 _ _ Hx). unfold cron_entry_key, entry_key in *. by injection Exk as -> -> ->. }
  rewrite Hc, lookup_insert_eq in Hx. injection Hx as <-. destruct (H1 _ _ _ Ht) as (due' & Hd' & Hle). rewrite Hdue in Hd'. by injection Hd' as <-.
Qed.

(** One failed write silences a schedule.  The entry of an expired schedule is taken
    off the queue before it is advanced; when the advance does not commit, nothing puts
    it back, so the schedule fires no more until it is changed or the server restarts,
    although it is still stored and enabled. *)
Theorem failed_advance_drops_schedule commit2 im now now_ns request_id h key due q s e next :
  cron_inv q → cq_entries q !! h = Some (key, due) → db_cron_schedules (ss_db s) !! row_key key = Some e →
  compute_next_fire_time (cse_cron_expression e) now = Ok next →
  let '(q', s', ok) := fire false commit2 im now now_ns request_id key (expire h key q) s in
  ok = false ∧ db_cron_schedules (ss_db s') = db_cron_schedules (ss_db s) ∧ cq_active q' !! key = None ∧
  ∀ h' due', cq_entries q' !! h' ≠ Some (key, due').
Proof.
  intros Hq Hh He En. unfold fire_and_reschedule, get_cron_schedule. fold (row_key key). rewrite He, En.
  unfold write, notified. destruct (persist _ false im now s _ None []) as [s1 r] eqn:E1.
  assert (Hr : ∃ er, r = Err er).
  { assert (Hf : is_ok (persist compute_next_fire_time false im now s (RP_AdvanceCronSchedule (csk_namespace key) (csk_application_name key) (csk_schedule_id key) (cse_cron_expression e) now) None []).2 = false).
    { unfold persist. destruct (write_payload _ _ _ _ _ _ _) as [[[[d1 u1] n1] c1]|]; [|done]. destruct (if ss_export_request_events s then _ else _) as [d2 es].
      cbv zeta. destruct (persist_scheduler_command_intents _ _ _) as [d4 iseq]. done. }
    rewrite E1 in Hf. cbn in Hf. destruct r as [|er]; [done|by exists er]. }
  destruct Hr as [er ->]. cbn [fst snd]. pose proof (expire_inv h key due q Hh Hq) as [I1 I2].
  assert (Ha : cq_active (expire h key q) !! key = None) by apply lookup_delete_eq.
  split; [done|]. split; [exact (persist_cron compute_next_fire_time false im now s _ s1 (Err er) E1 ltac:(done) ltac:(by left))|]. split; [done|].
  intros h' due' H. destruct (I2 _ _ _ H) as [t Ht]. congruence.
Qed.
End claims.

(** ** Witnesses *)

(** A schedule every minute, of an application with an entry point. *)
Definition every_minute : string → Z → result string Z := λ _ t, Ok (t + 60000).
Definition scheduled_app_ex : Application := deployed_ex <| app_entrypoint := Some (MkEntryPoint "fn" "" "" "" "") |>.
Definition schedule_ex : CronScheduleEntry := MkCronScheduleEntry "s1" "ns" "app" "* * * * *" None 60000 None 0 true.
Definition cron_db_ex : Db :=
  empty_db <| db_applications := {["ns|app" := scheduled_app_ex]} |> <| db_application_versions := {["ns|app|v1" := to_version scheduled_app_ex]} |>
    <| db_cron_schedules := {["ns|app|s1" := schedule_ex]} |>.
Definition schedule_key_ex : CronScheduleKey := MkCronScheduleKey "ns" "app" "s1".
Definition cron_store_ex : Store := open_store cron_db_ex false.
Definition loaded_ex : CronQueue := load_all_schedules fresh cron_db_ex 1000 (MkCronQueue ∅ ∅).
Lemma cron_db_ex_wf : cron_rows_wf cron_db_ex.
Proof.
  intros k e H. change (db_cron_schedules cron_db_ex) with ({["ns|app|s1" := schedule_ex]} : gmap string CronScheduleEntry) in H.
  apply lookup_singleton_Some in H as [<- <-]. reflexivity.
Qed.
Lemma every_minute_later expr t n : every_minute expr t = Ok n → t < n.
Proof. intros [= <-]. lia. Qed.

Lemma cron_queue_consistent_witness :
  cron_inv loaded_ex ∧ is_Some (@apply_events canonical_order fresh cron_db_ex 2000 [CE_Removed "ns" "app" "s1"] loaded_ex).
Proof.
  destruct (@cron_queue_consistent canonical_order fresh (λ X, is_fresh X) every_minute cron_db_ex 1000 cron_store_ex loaded_ex cron_store_ex cron_db_ex_wf (rtc_refl _ _)) as [H1 H2].
  split; [exact H1|]. apply H2.
Defined.
Lemma cron_never_fires_twice_witness :
  ∃ p e, queue (@fire_and_reschedule canonical_order fresh every_minute true true empty_state 60000 0 "r1" schedule_key_ex (MkCronQueue ∅ ∅) cron_store_ex).1.2 = [p] ∧
    db_cron_schedules (ss_db (@fire_and_reschedule canonical_order fresh every_minute true true empty_state 60000 0 "r1" schedule_key_ex (MkCronQueue ∅ ∅) cron_store_ex).1.2)
      !! "ns|app|s1" = Some e ∧ 60000 < cse_next_fire_time_ms e.
Proof.
  destruct (@fire_and_reschedule canonical_order fresh every_minute true true empty_state 60000 0 "r1" schedule_key_ex (MkCronQueue ∅ ∅) cron_store_ex) as [[q' s'] ok] eqn:E.
  assert (Hwf : queue_wf cron_store_ex) by (intros k x Hk; change (db_payload_queue (ss_db cron_store_ex)) with (∅ : gmap Z RequestPayload) in Hk; by rewrite lookup_empty in Hk).
  assert (Hseq : 0 ≤ ss_payload_seq cron_store_ex < u64_max) by (split; vm_compute; congruence).
  destruct (@cron_never_fires_twice canonical_order fresh (λ X, is_fresh X) every_minute every_minute_later true true empty_state 60000 0 "r1"
    schedule_key_ex (MkCronQueue ∅ ∅) cron_store_ex q' s' ok Hwf Hseq cron_db_ex_wf E) as [H|(p & e & H1 & H2 & H3 & _)].
  - exfalso. apply (f_equal (length ∘ queue ∘ snd ∘ fst)) in E. cbn [compose fst snd] in E. unfold compose in E. cbn [fst snd] in E. rewrite H in E. vm_compute in E. discriminate.
  - exists p, e. cbn [fst snd]. split; [exact H1|]. split; [exact H2|exact H3].
Defined.
Lemma failed_advance_drops_schedule_witness :
  let '(q', _, ok) := @fire_and_reschedule canonical_order fresh every_minute false true empty_state 60000 0 "r1" schedule_key_ex (expire 0 schedule_key_ex loaded_ex) cron_store_ex in
  ok = false ∧ cq_active q' !! schedule_key_ex = None.
Proof.
  assert (Hq : cron_inv loaded_ex) by exact (proj1 (load_inv fresh (λ X, is_fresh X) cron_db_ex 1000 cron_db_ex_wf)).
  pose proof (@failed_advance_drops_schedule canonical_order fresh every_minute true empty_state 60000 0 "r1" 0 schedule_key_ex 60000 loaded_ex cron_store_ex
    schedule_ex 120000 Hq ltac:(vm_compute; reflexivity) ltac:(vm_compute; reflexivity) eq_refl) as H.
  destruct (@fire_and_reschedule _ _ _ _ _ _ _ _ _ _ _ _) as [[q' s'] ok]. destruct H as (H1 & _ & H3 & _). split; [exact H1|exact H3].
Defined.
