(* ===== verification/ExecutorManager.v ===== *)
(** * The executor manager

    [executors.rs]: the deadlines by which executors must send a heartbeat, the table of
    registered executors, their deregistration, and the reap of executors that did not
    come back after a restart; with [handle_full_state] and [sync_executor_full_state] of
    [executor_api.rs], which register an executor.

    Instants are nanoseconds.  The store and the command buffers are those of the state
    store and of the delivery of commands; whether a write commits is an argument.  The
    purge of routed function-call results on deregistration is not part of this state. *)
From S2P Require Import Prelude DataModel Updates InMemoryState SchedulerState Placement ContainerScheduler StateMachine Scanner Recovery Outbox Delivery StateStore ProtoConvert CommandEmission.
Open Scope string_scope.
Open Scope list_scope.
Open Scope Z_scope.

Definition EXECUTOR_TIMEOUT : Z := 30 * 1000000000.
(** The delay before a failed deregistration is tried again. *)
Definition RETRY_DELAY : Z := 1000000000.
Definition far_future (now : Z) : Z := now + 24 * 60 * 60 * 1000000000.

(** [heartbeat_deadline_queue], [runtime_data] and the state the manager shares. *)
Record ExecutorManager := MkExecutorManager {
  xm_deadlines : gmap ExecutorId Instant;
  xm_runtime_data : gmap ExecutorId Z;
  xm_store : Store;
  xm_server : Server;
}.
#[export] Instance eta_ExecutorManager : Eta ExecutorManager := λ m,
  MkExecutorManager (xm_deadlines m) (xm_runtime_data m) (xm_store m) (xm_server m).

(** [tombstone_executor] and [upsert_executor] of [state_changes.rs]. *)
Definition tombstone_executor (seq now_ms : Z) (id : ExecutorId) : list StateChange * Z :=
  ([MkStateChange seq id (CH_TombStoneExecutor id) now_ms None None None], wrap64 (seq + 1)).
Definition upsert_executor_change (seq now_ms : Z) (id : ExecutorId) : list StateChange * Z :=
  ([MkStateChange seq id (CH_ExecutorUpserted id) now_ms None None None], wrap64 (seq + 1)).

Section manager.
Context `{HO : HashOrder} (compute_next_fire_time : string → Z → result string Z).
Context (url_host : string → option (option string)) (blob_store : string → string * string) (encode : CommandBody → Bytes) (encoded_len : Command → Z).

(** The earliest deadline, that of the head of the priority queue. *)
Definition peek_deadline (m : ExecutorManager) : option Instant :=
  foldl (λ acc d, match acc with None => Some d | Some x => Some (Z.min x d) end) None (map_iter (xm_deadlines m)).*2.
(** What is sent to the timer of the monitor. *)
Definition next_deadline (now : Instant) (m : ExecutorManager) : Instant := default (far_future now) (peek_deadline m).

Definition heartbeat_v2 (now : Instant) (id : ExecutorId) (m : ExecutorManager) : ExecutorManager :=
  m <| xm_deadlines ::= <[id := now + EXECUTOR_TIMEOUT]> |>.
Definition register_executor (e : ExecutorMetadata) (m : ExecutorManager) : ExecutorManager :=
  m <| xm_runtime_data ::= <[em_id e := em_clock e]> |>.

(** [deregister_executor_internal]; [None] is an error of the write. *)
Definition deregister_executor_internal (commit_ok : bool) (im : InMemoryState) (now_ms : Z) (id : ExecutorId) (m : ExecutorManager)
    : ExecutorManager * bool :=
  let was_registered := bool_decide (is_Some (xm_runtime_data m !! id)) in
  let '(s1, ok) :=
    if was_registered then
      let '(changes, seq) := tombstone_executor (ss_state_change_id_seq (xm_store m)) now_ms id in
      let '(s, r) := write compute_next_fire_time commit_ok im now_ms (xm_store m <| ss_state_change_id_seq := seq |>) (RP_DeregisterExecutor id changes) in
      (s, is_ok r)
    else (xm_store m, true) in
  if ok then
    (MkExecutorManager (delete id (xm_deadlines m)) (delete id (xm_runtime_data m)) s1
       (clear_executor_result_seq (deregister_executor_connection (xm_server m) id) id), true)
  else (m <| xm_store := s1 |>, false).

(** The executors whose deadline is not after [now], earliest first, as they are popped. *)
Definition deadline_le (x y : ExecutorId * Instant) : Prop := x.2 ≤ y.2.
#[export] Instance deadline_le_dec : RelDecision deadline_le.
Proof. intros x y. unfold deadline_le. apply _. Defined.
Definition lapsed (now : Instant) (m : ExecutorManager) : list ExecutorId :=
  (List.filter (λ x, bool_decide (x.2 ≤ now)) (merge_sort deadline_le (map_iter (xm_deadlines m)))).*1.
(** Deregister the lapsed executors; one that fails is queued again. *)
Fixpoint deregister_lapsed (commits : ExecutorId → bool) (im : InMemoryState) (now now_ms : Z) (ids : list ExecutorId) (m : ExecutorManager) : ExecutorManager :=
  match ids with
  | [] => m
  | id :: ids =>
      let '(m1, ok) := deregister_executor_internal (commits id) im now_ms id m in
      deregister_lapsed commits im now now_ms ids (if ok then m1 else m1 <| xm_deadlines ::= <[id := now + RETRY_DELAY]> |>)
  end.
(** [process_lapsed_executors]. *)
Definition process_lapsed_executors (commits : ExecutorId → bool) (im : InMemoryState) (now now_ms : Z) (m : ExecutorManager) : ExecutorManager :=
  let ids := lapsed now m in
  deregister_lapsed commits im now now_ms ids (m <| xm_deadlines ::= λ d, foldl (λ d id, delete id d) d ids |>).

(** [sync_executor_full_state]. *)
Definition sync_executor_full_state (commit_ok : bool) (im : InMemoryState) (now_ms : Z) (e : ExecutorMetadata) (m : ExecutorManager) : ExecutorManager * bool :=
  let m1 := register_executor e m in
  let '(changes, seq) := upsert_executor_change (ss_state_change_id_seq (xm_store m1)) now_ms (em_id e) in
  let '(s, r) := write compute_next_fire_time commit_ok im now_ms (xm_store m1 <| ss_state_change_id_seq := seq |>) (RP_UpsertExecutor e [] true changes) in
  (m1 <| xm_store := s |>, is_ok r).
(** [handle_full_state]: on success the connection exists and holds the full desired
    state. *)
Definition handle_full_state (commit_ok : bool) (app : InMemoryState * ContainerScheduler) (now_ms : Z) (id : ExecutorId) (full : DataplaneStateFullSync)
    (m : ExecutorManager) : ExecutorManager * result string unit :=
  match full_state_from_pb id full with
  | Err e => (m, Err e)
  | Ok e =>
      let '(m1, ok) := sync_executor_full_state commit_ok app.1 now_ms e m in
      if ok then
        let snapshot := (λ s, (λ c, MkSequenced 0 (encode c)) <$> commands_from_full_snapshot s) <$> get_executor_state url_host blob_store app.1 app.2 id in
        (m1 <| xm_server := emit_commands_for_executor encoded_len (register_executor_connection (xm_server m1) id) id true snapshot |>, Ok tt)
      else (m1, Err "write failed")
  end.

(** [schedule_clean_lapsed_executors], after its delay: the executors that hold
    allocations or running sandboxes and are not known to the scheduler. *)
Definition missing_executors (app : InMemoryState * ContainerScheduler) : gset ExecutorId :=
  let unknown id := bool_decide (cs_executors app.2 !! id = None) in
  list_to_set (List.filter unknown (map_iter (im_allocations_by_executor app.1)).*1) ∪
  list_to_set (omap (λ sb, match sb_status sb with
                           | SS_Running => id ← sb_executor_id sb; if unknown id then Some id else None
                           | _ => None
                           end) (ord_iter (im_sandboxes app.1)).*2).
Definition clean_lapsed_executors (commits : ExecutorId → bool) (app : InMemoryState * ContainerScheduler) (now_ms : Z) (m : ExecutorManager) : ExecutorManager :=
  foldl (λ m id, (deregister_executor_internal (commits id) app.1 now_ms id m).1) m (set_iter (missing_executors app)).
End manager.

(** ** Silent executors *)

Section silence.
Context `{HO : HashOrder} (compute_next_fire_time : string → Z → result string Z).
Local Notation deregister := (deregister_executor_internal compute_next_fire_time).

Definition is_registered (m : ExecutorManager) (id : ExecutorId) : bool := bool_decide (is_Some (xm_runtime_data m !! id)).
(** The executor a payload deregisters. *)
Definition deregistered (p : RequestPayload) : option ExecutorId := match p with RP_DeregisterExecutor id _ => Some id | _ => None end.

Lemma deregister_write_ok ok im now s id cs : is_ok (write compute_next_fire_time ok im now s (RP_DeregisterExecutor id cs)).2 = ok.
Proof.
  unfold write, notified, persist. cbn [prepare_for_persistence write_payload]. destruct (if ss_export_request_events s then _ else _) as [d2 es].
  cbv zeta. destruct (persist_scheduler_command_intents _ _ _) as [d4 iseq]. by destruct ok.
Qed.
Lemma deregister_spec ok im now_ms id m :
  queue_wf (xm_store m) → 0 ≤ ss_payload_seq (xm_store m) < u64_max →
  let '(m', r) := deregister ok im now_ms id m in
  r = negb (is_registered m id) || ok ∧
  xm_deadlines m' = (if r then delete id (xm_deadlines m) else xm_deadlines m) ∧
  xm_runtime_data m' = (if r then delete id (xm_runtime_data m) else xm_runtime_data m) ∧
  queue_wf (xm_store m') ∧ ss_payload_seq (xm_store m) ≤ ss_payload_seq (xm_store m') ≤ ss_payload_seq (xm_store m) + 1 ∧
  ∃ l, queue (xm_store m') = queue (xm_store m) ++ l ∧ (deregistered <$> l.*2) = if is_registered m id && ok then [Some id] else [].
Proof.
  intros Hwf Hseq. unfold deregister_executor_internal. fold (is_registered m id). destruct (is_registered m id) eqn:Er; cbn [negb orb andb].
  2:{ cbn [xm_deadlines xm_runtime_data xm_store]. split_and!; [done|done|done|done|lia|lia|]. exists []. by rewrite app_nil_r. }
  cbv zeta beta iota. cbn [tombstone_executor]. set (seq := wrap64 (ss_state_change_id_seq (xm_store m) + 1)). set (cs := [_]).
  set (s0 := xm_store m <| ss_state_change_id_seq := seq |>). pose proof (deregister_write_ok ok im now_ms s0 id cs) as Hok. unfold write, notified in *.
  destruct (persist_queue compute_next_fire_time ok im now_ms s0 (RP_DeregisterExecutor id cs) None [] Hwf Hseq) as [Hq Hw].
  change (queue s0) with (queue (xm_store m)) in Hq. change (ss_payload_seq s0) with (ss_payload_seq (xm_store m)) in Hq.
  destruct (persist compute_next_fire_time ok im now_ms s0 _ None []) as [s1 [w|e]]; cbn [fst snd is_ok] in *; subst ok; cbn [xm_deadlines xm_runtime_data xm_store].
  - destruct Hq as (Hq & _ & Hs). split_and!; [done|done|done|exact Hw|rewrite Hs; cbn; lia|rewrite Hs; cbn; lia|]. eexists. split; [exact Hq|done].
  - destruct Hq as (Hq & Hs). split_and!; [done|done|done|exact Hw|apply Hs|apply Hs|]. exists []. rewrite app_nil_r. split; [exact Hq|done].
Qed.
Lemma deregister_lapsed_spec commits im now now_ms ids : ∀ m,
  NoDup ids → (∀ id, id ∈ ids → xm_deadlines m !! id = None) →
  queue_wf (xm_store m) → 0 ≤ ss_payload_seq (xm_store m) → ss_payload_seq (xm_store m) + Z.of_nat (length ids) < u64_max →
  let m' := deregister_lapsed compute_next_fire_time commits im now now_ms ids m in
  (∀ id, xm_deadlines m' !! id = if bool_decide (id ∈ ids) then (if is_registered m id && negb (commits id) then Some (now + RETRY_DELAY) else None)
                                 else xm_deadlines m !! id) ∧
  (∀ id, xm_runtime_data m' !! id = if bool_decide (id ∈ ids) && commits id then None else xm_runtime_data m !! id) ∧
  queue_wf (xm_store m') ∧
  ∃ l, queue (xm_store m') = queue (xm_store m) ++ l ∧ (deregistered <$> l.*2) = Some <$> List.filter (λ id, is_registered m id && commits id) ids.
Proof.
  induction ids as [|id ids IH]; intros m Hn Hd Hwf H0 Hlen; cbn [deregister_lapsed].
  { split_and!; [done|done|done|]. exists []. by rewrite app_nil_r. }
  cbn [length] in Hlen. apply NoDup_cons in Hn as [Hnin Hn]. pose proof (deregister_spec (commits id) im now_ms id m Hwf ltac:(lia)) as Hs.
  destruct (deregister (commits id) im now_ms id m) as [m1 r]. destruct Hs as (Hr & Hd1 & Hr1 & Hw1 & Hs1 & l1 & Hq1 & Hl1).
  set (m2 := if r then m1 else m1 <| xm_deadlines ::= <[id := now + RETRY_DELAY]> |>).
  assert (Est : xm_store m2 = xm_store m1) by (unfold m2; by destruct r).
  assert (Ert : xm_runtime_data m2 = xm_runtime_data m1) by (unfold m2; by destruct r).
  assert (Hid : xm_deadlines m !! id = None) by (apply Hd; by left).
  assert (Edl : ∀ i, xm_deadlines m2 !! i = if bool_decide (i = id) then (if r then None else Some (now + RETRY_DELAY)) else xm_deadlines m !! i).
  { intros i. unfold m2. destruct r; cbn [xm_deadlines set_field].
    - rewrite Hd1, lookup_delete. case_bool_decide; case_decide; congruence.
    - change (<[id := now + RETRY_DELAY]> (xm_deadlines m1) !! i = if bool_decide (i = id) then Some (now + RETRY_DELAY) else xm_deadlines m !! i).
      rewrite Hd1, lookup_insert. case_bool_decide; case_decide; congruence. }
  assert (Ereg : ∀ i, i ≠ id → is_registered m2 i = is_registered m i).
  { intros i Hi. unfold is_registered. rewrite Ert, Hr1. destruct r; [by rewrite lookup_delete_ne|done]. }
  destruct (IH m2 Hn) as (I1 & I2 & I3 & l2 & I4 & I5).
  { intros i Hi. rewrite Edl, bool_decide_eq_false_2 by (intros ->; done). apply Hd. by right. }
  { by rewrite Est. } { rewrite Est. lia. } { rewrite Est. lia. }
  split_and!.
  - intros i. rewrite I1, Edl. destruct (decide (i = id)) as [->|Hi].
    + rewrite (bool_decide_eq_true_2 (id ∈ id :: ids)) by (by left). rewrite (bool_decide_eq_false_2 (id ∈ ids)) by done. rewrite bool_decide_eq_true_2 by done.
      rewrite Hr. by destruct (is_registered m id), (commits id).
    + rewrite (bool_decide_ext (i ∈ id :: ids) (i ∈ ids)) by (rewrite elem_of_cons; naive_solver). by rewrite Ereg, (bool_decide_eq_false_2 (i = id)) by done.
  - intros i. rewrite I2, Ert, Hr1. destruct (decide (i = id)) as [->|Hi].
    + rewrite (bool_decide_eq_true_2 (id ∈ id :: ids)) by (by left). rewrite (bool_decide_eq_false_2 (id ∈ ids)) by done. cbn [andb].
      assert (Hnr : is_registered m id = false → xm_runtime_data m !! id = None).
      { intros H. apply eq_None_not_Some. by apply bool_decide_eq_false_1 in H. }
      destruct r; [rewrite lookup_delete_eq|]; destruct (commits id), (is_registered m id); try done; symmetry; by apply Hnr.
    + rewrite (bool_decide_ext (i ∈ id :: ids) (i ∈ ids)) by (rewrite elem_of_cons; naive_solver). destruct r; [by rewrite lookup_delete_ne|done].
  - done.
  - exists (l1 ++ l2). rewrite I4, Est, Hq1, app_assoc, !fmap_app, Hl1, I5. split; [done|]. cbn [List.filter].
    assert (Ef : List.filter (λ i, is_registered m2 i && commits i) ids = List.filter (λ i, is_registered m i && commits i) ids).
    { apply filter_ext_in. intros i Hi%list_elem_of_In. rewrite Ereg; [done|]. by intros ->. }
    rewrite Ef. by destruct (is_registered m id && commits id).
Qed.
Lemma elem_of_lapsed now m id : id ∈ lapsed now m ↔ ∃ d, xm_deadlines m !! id = Some d ∧ d ≤ now.
Proof.
  unfold lapsed. rewrite list_elem_of_fmap. split.
  - intros ([i d] & -> & Hx). apply list_elem_of_In, filter_In in Hx as [Hx%list_elem_of_In Hd%bool_decide_eq_true].
    rewrite merge_sort_Permutation in Hx. apply elem_of_map_iter in Hx. by exists d.
  - intros (d & Hd & Hle). exists (id, d). split; [done|]. apply list_elem_of_In, filter_In. split; [|by apply bool_decide_eq_true].
    apply list_elem_of_In. rewrite merge_sort_Permutation. by apply elem_of_map_iter.
Qed.
Lemma NoDup_lapsed now m : NoDup (lapsed now m).
Proof.
  unfold lapsed. eapply sublist_NoDup; [|apply fmap_sublist, filter_sublist]. rewrite (fmap_Permutation _ _ _ (merge_sort_Permutation deadline_le _)). apply NoDup_map_iter_fst.
Qed.
End silence.

Section watch.
Context `{HO : HashOrder} (compute_next_fire_time : string → Z → result string Z).
Context (url_host : string → option (option string)) (blob_store : string → string * string) (encode : CommandBody → Bytes) (encoded_len : Command → Z).
Local Notation deregister := (deregister_executor_internal compute_next_fire_time).
Local Notation full_state := (handle_full_state compute_next_fire_time url_host blob_store encode encoded_len).
Local Notation process_lapsed := (process_lapsed_executors compute_next_fire_time).

(** What happens to the manager: a heartbeat, a heartbeat with the full state, a
    report of being stopped, and a round of the monitor. *)
Inductive em_step : ExecutorManager → ExecutorManager → Prop :=
| es_heartbeat now id m : em_step m (heartbeat_v2 now id m)
| es_full_state now now_ms commit_ok app id full m : em_step m (full_state commit_ok app now_ms id full (heartbeat_v2 now id m)).1
| es_stopped now_ms commit_ok im id m : em_step m (deregister commit_ok im now_ms id m).1
| es_monitor commits im now now_ms m :
    em_step m (process_lapsed commits im now now_ms m)
| es_store m s : em_step m (m <| xm_store := s |>).

(** Every registered executor has a deadline. *)
Definition watched (m : ExecutorManager) : Prop := ∀ id, is_Some (xm_runtime_data m !! id) → is_Some (xm_deadlines m !! id).

Lemma deregister_tables commit_ok im now_ms id m :
  let '(m', r) := deregister commit_ok im now_ms id m in
  xm_deadlines m' = (if r then delete id (xm_deadlines m) else xm_deadlines m) ∧
  xm_runtime_data m' = (if r then delete id (xm_runtime_data m) else xm_runtime_data m).
Proof.
  unfold deregister_executor_internal. case_bool_decide; [|done]. cbn [tombstone_executor]. destruct (write _ _ _ _ _ _) as [s [w|e]]; done.
Qed.
Lemma deregister_watched commit_ok im now_ms id m : watched m → watched (deregister commit_ok im now_ms id m).1.
Proof.
  intros Hm. pose proof (deregister_tables commit_ok im now_ms id m) as H. destruct (deregister commit_ok im now_ms id m) as [m' r]. destruct H as [Hd Hr].
  intros i. cbn [fst]. rewrite Hd, Hr. destruct r; [|apply Hm]. rewrite !lookup_delete_is_Some. intros [Hi Hx]. split; [done|by apply Hm].
Qed.
Lemma full_state_watched commit_ok app now now_ms id full m :
  watched m → watched (full_state commit_ok app now_ms id full (heartbeat_v2 now id m)).1.
Proof.
  intros Hm. assert (Hh : watched (heartbeat_v2 now id m)).
  { intros i Hi. apply Hm in Hi. unfold heartbeat_v2. cbn. apply lookup_insert_is_Some'. by right. }
  unfold handle_full_state. destruct (full_state_from_pb id full) as [e|er] eqn:Ef; [|done].
  assert (Eid : em_id e = id).
  { unfold full_state_from_pb in Ef. destruct (transpose _ _); [|done]. cbn in Ef. by injection Ef as <-. }
  unfold sync_executor_full_state. cbn [upsert_executor_change]. destruct (write _ _ _ _ _ _) as [s r].
  assert (Hx : ∀ m', xm_deadlines m' = xm_deadlines (heartbeat_v2 now id m) → xm_runtime_data m' = xm_runtime_data (register_executor e (heartbeat_v2 now id m)) → watched m').
  { intros m' E1 E2 i. rewrite E1, E2. unfold register_executor, heartbeat_v2. cbn. rewrite !lookup_insert_is_Some', Eid. intros [->|Hi]; [by left|]. right. by apply Hm. }
  destruct r as [w|er]; cbn [is_ok fst]; by apply Hx.
Qed.
Lemma deregister_lapsed_watched commits im now now_ms ids : ∀ m,
  (∀ id, is_Some (xm_runtime_data m !! id) → is_Some (xm_deadlines m !! id) ∨ id ∈ ids) →
  watched (deregister_lapsed compute_next_fire_time commits im now now_ms ids m).
Proof.
  induction ids as [|id ids IH]; intros m Hm; cbn [deregister_lapsed].
  { intros i Hi. destruct (Hm i Hi) as [H|H%not_elem_of_nil]; done. }
  pose proof (deregister_tables (commits id) im now_ms id m) as H. destruct (deregister (commits id) im now_ms id m) as [m1 r]. destruct H as [Hd Hr].
  apply IH. intros i. destruct r.
  - rewrite Hr, Hd, !lookup_delete_is_Some. intros [Hi Hx]. destruct (Hm i Hx) as [H|[->|H]%elem_of_cons]; [by left|done|by right].
  - change (is_Some (xm_runtime_data m1 !! i) → is_Some (<[id := now + RETRY_DELAY]> (xm_deadlines m1) !! i) ∨ i ∈ ids). rewrite Hr, Hd, lookup_insert_is_Some'.
    intros Hx. destruct (Hm i Hx) as [H|[->|H]%elem_of_cons]; [by left; right|by left; left|by right].
Qed.
Lemma lookup_foldl_delete_deadlines ids : ∀ (d : gmap ExecutorId Instant) id,
  foldl (λ d id, delete id d) d ids !! id = if bool_decide (id ∈ ids) then None else d !! id.
Proof. intros d id. exact (lookup_foldl_delete ids d id). Qed.
Lemma step_watched m m' : em_step m m' → watched m → watched m'.
Proof.
  destruct 1 as [now id m|now now_ms c app id full m|now_ms c im id m|commits im now now_ms m|m s]; intros Hm.
  - intros i Hi. apply Hm in Hi. unfold heartbeat_v2. cbn. apply lookup_insert_is_Some'. by right.
  - by apply full_state_watched.
  - by apply deregister_watched.
  - unfold process_lapsed_executors. apply deregister_lapsed_watched. intros id Hi. apply Hm in Hi. cbn [xm_deadlines set_field].
    change (is_Some (foldl (λ d id, delete id d) (xm_deadlines m) (lapsed now m) !! id) ∨ id ∈ lapsed now m). rewrite lookup_foldl_delete_deadlines.
    case_bool_decide; [by right|by left].
  - exact Hm.
Qed.

(** C29: no executor that stops sending heartbeats stays registered.  In every state
    the manager can reach, each registered executor has a deadline; and a round of the
    monitor at [now] takes exactly the executors whose deadline has passed: those that
    were registered and whose tombstone commits are deregistered, with one tombstone in
    the payload queue each; those whose write fails stay registered and are due again
    after [RETRY_DELAY]; no other executor changes. *)
Theorem silent_executors_deregistered store server m commits im now now_ms :
  rtc em_step (MkExecutorManager ∅ ∅ store server) m →
  queue_wf (xm_store m) → 0 ≤ ss_payload_seq (xm_store m) → ss_payload_seq (xm_store m) + Z.of_nat (size (xm_deadlines m)) < u64_max →
  let m' := process_lapsed commits im now now_ms m in
  let silent id := ∃ d, xm_deadlines m !! id = Some d ∧ d ≤ now in
  watched m ∧
  (∀ id, silent id → xm_runtime_data m' !! id = (if commits id then None else xm_runtime_data m !! id) ∧
     xm_deadlines m' !! id = if is_registered m id && negb (commits id) then Some (now + RETRY_DELAY) else None) ∧
  (∀ id, ¬ silent id → xm_runtime_data m' !! id = xm_runtime_data m !! id ∧ xm_deadlines m' !! id = xm_deadlines m !! id) ∧
  ∃ l ids, queue (xm_store m') = queue (xm_store m) ++ l ∧ (deregistered <$> l.*2) = Some <$> ids ∧ NoDup ids ∧
    ∀ id, id ∈ ids ↔ silent id ∧ is_registered m id = true ∧ commits id = true.
Proof.
  intros Hr Hwf H0 Hlen m' silent.
  assert (Hw : watched m).
  { assert (Hgo : ∀ x y, rtc em_step x y → watched x → watched y) by (induction 1; [done|]; eauto using step_watched).
    apply (Hgo _ _ Hr). intros id. cbn. rewrite lookup_empty. by intros [? ?]. }
  assert (Hl : (length (lapsed now m) ≤ size (xm_deadlines m))%nat).
  { unfold lapsed. rewrite length_fmap. etransitivity; [apply List.filter_length_le|]. rewrite merge_sort_Permutation, map_iter_perm, length_map_to_list. done. }
  destruct (deregister_lapsed_spec compute_next_fire_time commits im now now_ms (lapsed now m) (m <| xm_deadlines ::= λ d, foldl (λ d id, delete id d) d (lapsed now m) |>)
    (NoDup_lapsed now m)) as (D1 & D2 & _ & l & D3 & D4).
  { intros id Hid. change (foldl (λ d id, delete id d) (xm_deadlines m) (lapsed now m) !! id = None). rewrite lookup_foldl_delete_deadlines. by rewrite bool_decide_eq_true_2. }
  { exact Hwf. } { exact H0. } { change (ss_payload_seq (xm_store m) + Z.of_nat (length (lapsed now m)) < u64_max). lia. }
  split; [exact Hw|]. split_and!.
  - intros id Hs. pose proof (proj2 (elem_of_lapsed now m id) Hs) as Hin. specialize (D1 id). specialize (D2 id). rewrite bool_decide_eq_true_2 in D1, D2 by exact Hin. split; [exact D2|exact D1].
  - intros id Hs. assert (Hin : ¬ id ∈ lapsed now m) by (intros Hin; by apply Hs, (elem_of_lapsed now m id)). specialize (D1 id). specialize (D2 id).
    rewrite bool_decide_eq_false_2 in D1, D2 by exact Hin. split; [exact D2|]. etransitivity; [exact D1|].
    change (foldl (λ d id, delete id d) (xm_deadlines m) (lapsed now m) !! id = xm_deadlines m !! id). rewrite lookup_foldl_delete_deadlines. by rewrite bool_decide_eq_false_2.
  - eexists l, _. split; [exact D3|]. split; [exact D4|]. split.
    + eapply sublist_NoDup; [apply (NoDup_lapsed now m)|apply filter_sublist].
    + intros id. rewrite list_elem_of_In, filter_In, <-list_elem_of_In, elem_of_lapsed, andb_true_iff. done.
Qed.

(** ** The reap after a restart *)

Lemma foldl_upsert_executors l : ∀ s id,
  is_Some (cs_executors (foldl upsert_executor s l) !! id) ↔ is_Some (cs_executors s !! id) ∨ ∃ e, e ∈ l ∧ em_id e = id.
Proof.
  induction l as [|e l IH]; intros s id; cbn [foldl].
  - split; [by left|]. intros [H|(e & H%not_elem_of_nil & _)]; done.
  - rewrite IH. destruct (upsert_executor_classes s e) as [-> _]. rewrite lookup_insert_is_Some'. split.
    + intros [[H|H]|(e' & He & H)]; [right; exists e; split; [left|]; done|by left|right; exists e'; split; [by right|done]].
    + intros [H|(e' & [->|He]%elem_of_cons & H)]; [by left; right|by left; left|by right; exists e'].
Qed.
Lemma missing_unknown app id : id ∈ missing_executors app → cs_executors app.2 !! id = None.
Proof.
  unfold missing_executors. rewrite elem_of_union, !elem_of_list_to_set. intros [H|H].
  - apply list_elem_of_In, filter_In in H as [_ H]. by apply bool_decide_eq_true in H.
  - apply list_elem_of_omap in H as (sb & _ & H). destruct (sb_status sb); try done. destruct (sb_executor_id sb) as [x|]; [|done]. cbn in H.
    case_bool_decide; [|done]. by injection H as ->.
Qed.
Lemma deregister_unregistered commit_ok im now_ms id m :
  xm_runtime_data m !! id = None → 
  let m' := (deregister commit_ok im now_ms id m).1 in
  xm_store m' = xm_store m ∧ xm_runtime_data m' = delete id (xm_runtime_data m).
Proof.
  intros H. unfold deregister_executor_internal. rewrite H. rewrite bool_decide_eq_false_2 by (by intros [? ?]). done.
Qed.

(** The reap of executors that did not come back after a restart deregisters
    nobody.  Every executor with a row in the database is known to the scheduler from
    the moment the state is loaded, so it is never among the missing ones; and when
    every executor that did register is known to the scheduler, the reap writes nothing,
    since a tombstone is only written for a registered executor.  The allocations and
    running sandboxes of the missing executors stay assigned to them. *)
Theorem startup_reap_writes_nothing catalog db app commits now_ms m :
  (∀ id, is_Some (xm_runtime_data m !! id) → is_Some (cs_executors app.2 !! id)) →
  (∀ key e, db_executors db !! key = Some e → em_id e ∉ missing_executors (open_app_state catalog db)) ∧
  xm_store (clean_lapsed_executors compute_next_fire_time commits app now_ms m) = xm_store m.
Proof.
  intros Hm. split.
  - intros key e He Hmiss%missing_unknown. unfold open_app_state in Hmiss. cbn [snd] in Hmiss.
    assert (Hx : is_Some (cs_executors (foldl upsert_executor (new_scheduler (get_all_rows_from_cf (db_function_pools db)).*2 (get_all_rows_from_cf (db_sandbox_pools db)).*2) (list_executors db)) !! em_id e)).
    { apply foldl_upsert_executors. right. exists e. split; [|done]. unfold list_executors. rewrite get_all_with_prefix. cbn [fst].
      apply list_elem_of_fmap. exists (key, e). split; [done|]. apply elem_of_scan_prefix. split; [exact He|by destruct key]. }
    rewrite Hmiss in Hx. by destruct Hx.
  - unfold clean_lapsed_executors. set (l := set_iter _).
    assert (Hl : ∀ id, id ∈ l → cs_executors app.2 !! id = None) by (intros id Hid; apply missing_unknown; by apply elem_of_set_iter).
    clearbody l. revert m Hm. induction l as [|id l IH]; intros m Hm; [done|]. cbn [foldl].
    assert (Hr : xm_runtime_data m !! id = None).
    { apply eq_None_not_Some. intros H%Hm. rewrite (Hl id) in H by (by left). by destruct H. }
    destruct (deregister_unregistered (commits id) app.1 now_ms id m Hr) as [E1 E2]. rewrite IH; [exact E1| |].
    + intros i Hi. apply Hl. by right.
    + intros i. rewrite E2, lookup_delete_is_Some. intros [_ H]. by apply Hm.
Qed.
End watch.

(** *** Witnesses *)

Definition full_state_ex : DataplaneStateFullSync := MkDataplaneStateFullSync (Some "host") (Some "1") None None [] ∅ None None [].
Definition manager_ex : ExecutorManager := MkExecutorManager ∅ ∅ (open_store empty_db false) (MkServer ∅ ∅ ∅ ∅).
Definition joined_ex (now : Instant) (id : ExecutorId) (m : ExecutorManager) : ExecutorManager :=
  (@handle_full_state canonical_order no_cron no_host file_store (λ _, "") (λ _, 1) true (empty_state, new_scheduler [] []) now id full_state_ex
     (heartbeat_v2 now id m)).1.
(** Two executors join; only the second one sends another heartbeat. *)
Definition watched_ex : ExecutorManager := heartbeat_v2 20000000000 "e2" (joined_ex 2 "e2" (joined_ex 1 "e1" manager_ex)).
Definition monitored_ex : ExecutorManager :=
  @process_lapsed_executors canonical_order no_cron (λ _, true) empty_state 31000000000 31000 watched_ex.

Lemma silent_executors_deregistered_witness :
  is_registered watched_ex "e1" = true ∧ is_registered watched_ex "e2" = true ∧
  xm_runtime_data monitored_ex !! "e1" = None ∧ is_Some (xm_runtime_data monitored_ex !! "e2") ∧
  (deregistered <$> (queue (xm_store monitored_ex)).*2) = [None; None; Some "e1"].
Proof.
  assert (R : is_registered watched_ex "e1" = true ∧ is_registered watched_ex "e2" = true) by (split; vm_compute; reflexivity).
  assert (Hs : rtc (@em_step canonical_order no_cron no_host file_store (λ _, "") (λ _, 1)) manager_ex watched_ex).
  { apply (rtc_l _ _ (joined_ex 1 "e1" manager_ex)); [exact (es_full_state _ _ _ _ _ 1 1 true _ "e1" full_state_ex manager_ex)|].
    apply (rtc_l _ _ (joined_ex 2 "e2" (joined_ex 1 "e1" manager_ex))); [exact (es_full_state _ _ _ _ _ 2 2 true _ "e2" full_state_ex _)|].
    apply rtc_once. exact (es_heartbeat _ _ _ _ _ 20000000000 "e2" _). }
  assert (Hq : Forall (λ e, 0 ≤ e.1 < ss_payload_seq (xm_store watched_ex)) (queue (xm_store watched_ex))).
  { apply (bool_decide_eq_true_1 _). vm_compute. reflexivity. }
  assert (Hb : 0 ≤ ss_payload_seq (xm_store watched_ex) ∧ ss_payload_seq (xm_store watched_ex) + Z.of_nat (size (xm_deadlines watched_ex)) < u64_max).
  { apply (bool_decide_eq_true_1 _). vm_compute. reflexivity. }
  assert (Hd : xm_deadlines watched_ex !! "e1" = Some 30000000001 ∧ xm_deadlines watched_ex !! "e2" = Some 50000000000) by (split; vm_compute; reflexivity).
  assert (Q : (deregistered <$> (queue (xm_store monitored_ex)).*2) = [None; None; Some "e1"]) by (vm_compute; reflexivity).
  destruct R as [R1 R2], Hb as [Hb1 Hb2], Hd as [Hd1 Hd2].
  assert (Hwf : queue_wf (xm_store watched_ex)).
  { intros k x Hk%elem_of_num_iter. rewrite Forall_forall in Hq. exact (Hq _ Hk). }
  destruct (@silent_executors_deregistered canonical_order no_cron no_host file_store (λ _, "") (λ _, 1) _ _ watched_ex (λ _, true) empty_state 31000000000 31000 Hs Hwf Hb1 Hb2)
    as (_ & H1 & H2 & _).
  change (process_lapsed_executors _ _ _ _ _ _) with monitored_ex in H1, H2.
  split; [exact R1|]. split; [exact R2|]. split; [|split; [|exact Q]].
  - apply (H1 "e1"). exists 30000000001. split; [exact Hd1|lia].
  - destruct (H2 "e2") as [H _].
    + intros (d & Hd & Hle). rewrite Hd2 in Hd. injection Hd as <-. lia.
    + rewrite H. apply (bool_decide_eq_true_1 _). exact R2.
Defined.

(** An allocation on an executor that the restarted server never hears of: the reap
    finds the executor missing and writes nothing. *)
Definition stranded_ex : InMemoryState := empty_state <| im_allocations_by_executor := {["e9" := ∅]} |>.
Lemma startup_reap_writes_nothing_witness :
  "e9" ∈ @missing_executors canonical_order (stranded_ex, new_scheduler [] []) ∧
  xm_store (@clean_lapsed_executors canonical_order no_cron (λ _, true) (stranded_ex, new_scheduler [] []) 5 manager_ex) = xm_store manager_ex.
Proof.
  split; [apply (bool_decide_eq_true_1 _); vm_compute; reflexivity|].
  apply (@startup_reap_writes_nothing canonical_order no_cron [] empty_db (stranded_ex, new_scheduler [] []) (λ _, true) 5 manager_ex).
  intros id [x Hx]. discriminate Hx.
Defined.
