(* ===== verification/ResultRouting.v ===== *)
(** * Routing the results of function calls

    [executor_api/result_routing.rs] with the routes of [state_store/mod.rs]: a function
    that calls another one waits for the result on its own executor, and the router
    remembers which allocation waits for which call.  The router caches the routes, which
    are rows of the database.

    A handler is a [Call]: it maps the state of the service to the state it leaves and an
    error message or a value.  [api_faults] says which of the coming database operations
    succeed; past its end all of them do. *)
From stdpp Require Import pretty.
From S2P Require Import Prelude DataModel Updates InMemoryState FunctionRuns StateMachine Scanner Outbox Delivery StateStore ProtoConvert ExecutorManager.
Open Scope string_scope.
Open Scope list_scope.
Open Scope Z_scope.

(** ** Messages *)

Record ExecutionPlanUpdates := MkExecutionPlanUpdates {
  eps_updates : list ExecutionPlanUpdate;
  eps_root_function_call_id : option string;
}.
Record FunctionCallRequest := MkFunctionCallRequest {
  fcr_namespace : option string;
  fcr_application : option string;
  fcr_request_id : option string;
  fcr_updates : option ExecutionPlanUpdates;
  fcr_source_function_call_id : option string;
}.
Record FunctionCallResult := MkFunctionCallResult {
  fcx_namespace : option string;
  fcx_request_id : option string;
  fcx_function_call_id : option string;
  fcx_outcome_code : option Z;
  fcx_failure_reason : option Z;
  fcx_return_value : option DataPayloadPb;
  fcx_request_error : option DataPayloadPb;
}.
Inductive LogEntry :=
| LE_CallFunction (call : FunctionCallRequest)
| LE_FunctionCallResult (res : FunctionCallResult).
Record AllocationLogEntry := MkAllocationLogEntry {
  ale_allocation_id : string;
  ale_clock : Z;
  ale_entry : option LogEntry;
}.
Inductive ReturnValue :=
| RV_Value (dp : DataPayloadPb)
| RV_Updates (updates : ExecutionPlanUpdates).
Record AllocationCompleted := MkAllocationCompleted {
  ac_allocation_id : string;
  ac_function : option FunctionRef;
  ac_function_call_id : option string;
  ac_request_id : option string;
  ac_return_value : option ReturnValue;
  ac_execution_duration_ms : option Z;
}.
Record AllocationFailed := MkAllocationFailed {
  af_allocation_id : string;
  af_reason : Z;
  af_function : option FunctionRef;
  af_function_call_id : option string;
  af_request_id : option string;
  af_request_error : option DataPayloadPb;
  af_execution_duration_ms : option Z;
  af_container_id : option string;
}.
(** [AllocationOutcomeCode]. *)
Definition OUTCOME_SUCCESS : Z := 1.
Definition OUTCOME_FAILURE : Z := 2.

(** ** The state of the service *)

Record PersistedFunctionCallRoute := MkPersistedRoute {
  pr_parent_allocation_id : string;
  pr_original_function_call_id : string;
  pr_executor_id : ExecutorId;
}.
Record PendingFunctionCall := MkPendingCall {
  pc_parent_allocation_id : string;
  pc_original_function_call_id : string;
  pc_executor_id : ExecutorId;
}.
Definition from_persisted_route (r : PersistedFunctionCallRoute) : PendingFunctionCall :=
  MkPendingCall (pr_parent_allocation_id r) (pr_original_function_call_id r) (pr_executor_id r).

Record Api := MkApi {
  api_manager : ExecutorManager;
  api_pending : gmap string PendingFunctionCall;
  api_routes : gmap string PersistedFunctionCallRoute;
  api_faults : list bool;
}.
#[export] Instance eta_Api : Eta Api := λ a, MkApi (api_manager a) (api_pending a) (api_routes a) (api_faults a).

Definition Call (A : Type) : Type := Api → Api * result string A.
Definition call_ret {A} (x : A) : Call A := λ a, (a, Ok x).
Definition call_err {A} (e : string) : Call A := λ a, (a, Err e).
Definition call_bind {A B} (m : Call A) (f : A → Call B) : Call B := λ a,
  match m a with (a1, Ok x) => f x a1 | (a1, Err e) => (a1, Err e) end.
(** [if let Err(e) = m]: go on with [h] after an error. *)
Definition call_catch {A} (m : Call A) (h : string → Call A) : Call A := λ a,
  match m a with (a1, Ok x) => (a1, Ok x) | (a1, Err e) => h e a1 end.
Definition call_lift {A} (r : result string A) : Call A := λ a, (a, r).
Definition modify (f : Api → Api) : Call unit := λ a, (f a, Ok tt).
Definition gets {A} (f : Api → A) : Call A := λ a, (a, Ok (f a)).
Declare Scope call_scope.
Delimit Scope call_scope with call.
Notation "x <~ m ;; k" := (call_bind m (λ x, k)) (at level 60, m at next level, right associativity) : call_scope.
Notation "m ~;; k" := (call_bind m (λ _, k)) (at level 60, right associativity) : call_scope.
Open Scope call_scope.
Open Scope Z_scope.

Section routing.
Context (db_error : string) (encoded_len : Sequenced → Z) (encode_log : AllocationLogEntry → Bytes).

(** A database operation, which may fail. *)
Definition db_op : Call unit := λ a,
  match api_faults a with
  | [] => (a, Ok tt)
  | ok :: fs => (a <| api_faults := fs |>, if ok then Ok tt else Err db_error)
  end.

(** ** Persisted routes *)

Definition upsert_function_call_route (fc parent original : string) (e : ExecutorId) : Call unit :=
  db_op ~;; modify (λ a, a <| api_routes ::= <[fc := MkPersistedRoute parent original e]> |>).
Definition get_function_call_route (fc : string) : Call (option PersistedFunctionCallRoute) :=
  db_op ~;; gets (λ a, api_routes a !! fc).
Definition take_function_call_route (fc : string) : Call (option PersistedFunctionCallRoute) :=
  route <~ get_function_call_route fc;;
  match route with
  | None => call_ret None
  | Some r => db_op ~;; modify (λ a, a <| api_routes ::= delete fc |>) ~;; call_ret (Some r)
  end.
Definition delete_function_call_route (fc : string) : Call unit :=
  db_op ~;; modify (λ a, a <| api_routes ::= delete fc |>).
Definition purge_function_call_routes_for_executor (e : ExecutorId) : Call nat :=
  db_op ~;;
  before <~ gets (λ a, size (api_routes a));;
  modify (λ a, a <| api_routes ::= filter (λ kr, pr_executor_id kr.2 ≠ e) |>) ~;;
  gets (λ a, (before - size (api_routes a))%nat).

(** ** The router *)

Definition register (fc parent original : string) (e : ExecutorId) : Call unit :=
  upsert_function_call_route fc parent original e ~;;
  modify (λ a, a <| api_pending ::= <[fc := MkPendingCall parent original e]> |>).

Inductive RegistrationOutcome := RO_Inserted | RO_Replaced | RO_Unchanged.
Record ParentRequestContext := MkParentRequestContext { prx_namespace : string; prx_application : string; prx_request_id : string }.

Definition alive (a : option Allocation) : bool := match a with Some x => negb (allocation_is_terminal x) | None => false end.
Definition is_allocation_alive_for_request (ctx : ParentRequestContext) (allocation_id : string) : Call bool :=
  db_op ~;;
  gets (λ a, alive (get_allocation (ss_db (xm_store (api_manager a))) (allocation_key (prx_namespace ctx) (prx_application ctx) (prx_request_id ctx) allocation_id))).

(** [entry(fc).or_insert(route)]. *)
Definition or_insert (fc : string) (route : PendingFunctionCall) : Call unit :=
  modify (λ a, match api_pending a !! fc with Some _ => a | None => a <| api_pending ::= <[fc := route]> |> end).
Definition lookup_route (fc : string) : Call (option PendingFunctionCall) :=
  cached <~ gets (λ a, api_pending a !! fc);;
  match cached with
  | Some r => call_ret (Some r)
  | None => o <~ get_function_call_route fc;; call_ret (from_persisted_route <$> o)
  end.
Definition register_from_parent (fc parent original : string) (e : ExecutorId) (ctx : ParentRequestContext) : Call RegistrationOutcome :=
  existing <~ lookup_route fc;;
  match existing with
  | Some r =>
      if bool_decide (pc_parent_allocation_id r = parent) && bool_decide (pc_executor_id r = e)
      then or_insert fc r ~;; call_ret RO_Unchanged
      else if bool_decide (pc_original_function_call_id r ≠ fc) then
        live <~ is_allocation_alive_for_request ctx (pc_parent_allocation_id r);;
        if live : bool then or_insert fc r ~;; call_ret RO_Unchanged
        else register fc parent (pc_original_function_call_id r) e ~;; call_ret RO_Replaced
      else register fc parent original e ~;; call_ret RO_Replaced
  | None => register fc parent original e ~;; call_ret RO_Inserted
  end.

Definition purge_executor (e : ExecutorId) : Call nat :=
  before <~ gets (λ a, size (api_pending a));;
  modify (λ a, a <| api_pending ::= filter (λ kr, pc_executor_id kr.2 ≠ e) |>) ~;;
  after <~ gets (λ a, size (api_pending a));;
  persisted <~ purge_function_call_routes_for_executor e;;
  call_ret (Nat.max persisted (before - after)).

(** [take]: an error of the deletion is logged only. *)
Definition take_route (fc : string) : Call (option PendingFunctionCall) :=
  cached <~ gets (λ a, api_pending a !! fc);;
  match cached with
  | Some r =>
      modify (λ a, a <| api_pending ::= delete fc |>) ~;;
      call_catch (delete_function_call_route fc) (λ _, call_ret tt) ~;;
      call_ret (Some r)
  | None => o <~ take_function_call_route fc;; call_ret (from_persisted_route <$> o)
  end.

(** ** Delivering a result *)

Definition build_result_log_entry (parent original : string) (completed : AllocationCompleted) (value : option DataPayloadPb) : AllocationLogEntry :=
  MkAllocationLogEntry parent 0
    (Some (LE_FunctionCallResult
       (MkFunctionCallResult (ac_function completed ≫= ref_namespace) (ac_request_id completed) (Some original) (Some OUTCOME_SUCCESS) None value None))).
Definition build_failure_log_entry (parent original : string) (failed : AllocationFailed) : AllocationLogEntry :=
  MkAllocationLogEntry parent 0
    (Some (LE_FunctionCallResult
       (MkFunctionCallResult (af_function failed ≫= ref_namespace) (af_request_id failed) (Some original) (Some OUTCOME_FAILURE)
          (Some (af_reason failed)) None (af_request_error failed)))).

(** The two ways in which a push fails; only the first one can be told from others. *)
Inductive PushError := PE_MissingConnection | PE_Oversized (item : OversizedItem).
Definition push_error_message (e : PushError) : string :=
  match e with
  | PE_MissingConnection => "executor connection not found"
  | PE_Oversized i => "allocation result seq " +:+ pretty (oi_seq i) +:+ " exceeds max poll item size: " +:+ pretty (oi_len i) +:+ " > " +:+ pretty MAX_POLL_RESPONSE_BYTES +:+ " bytes"
  end.
Definition push_result_to_executor (e : ExecutorId) (entry : AllocationLogEntry) (a : Api) : Api * option PushError :=
  match sv_connections (xm_server (api_manager a)) !! e with
  | None => (a, Some PE_MissingConnection)
  | Some conn =>
      match push_result encoded_len conn (encode_log entry) with
      | Ok conn' => (a <| api_manager ::= λ m, m <| xm_server ::= λ s, s <| sv_connections ::= <[e := conn']> |> |> |>, None)
      | Err item => (a, Some (PE_Oversized item))
      end
  end.
(** Push and, when that fails for another reason than a missing connection, put the
    route back. *)
Definition deliver (fc : string) (r : PendingFunctionCall) (entry : AllocationLogEntry) : Call unit := λ a,
  match push_result_to_executor (pc_executor_id r) entry a with
  | (a1, None) => (a1, Ok tt)
  | (a1, Some PE_MissingConnection) => (a1, Ok tt)
  | (a1, Some err) =>
      (call_catch (register fc (pc_parent_allocation_id r) (pc_original_function_call_id r) (pc_executor_id r)) (λ _, call_ret tt) ~;;
       call_err (push_error_message err)) a1
  end.
Definition is_parent_allocation_alive (parent : string) (function : option FunctionRef) (request_id : option string) : Call bool :=
  match function ≫= ref_namespace, function ≫= ref_application_name, request_id with
  | Some ns, Some app, Some req => is_allocation_alive_for_request (MkParentRequestContext ns app req) parent
  | _, _, _ => call_ret false
  end.

Definition try_route_result (fc : string) (completed : AllocationCompleted) : Call unit :=
  route <~ take_route fc;;
  match route with
  | None => call_ret tt
  | Some r =>
      live <~ is_parent_allocation_alive (pc_parent_allocation_id r) (ac_function completed) (ac_request_id completed);;
      if live : bool then
        let entry := build_result_log_entry (pc_parent_allocation_id r) (pc_original_function_call_id r) completed in
        let put_back fc := register fc (pc_parent_allocation_id r) (pc_original_function_call_id r) (pc_executor_id r) in
        match ac_return_value completed with
        | Some (RV_Value dp) => deliver fc r (entry (Some dp))
        | Some (RV_Updates updates) =>
            match eps_root_function_call_id updates with
            | Some downstream => call_catch (put_back downstream) (λ err, call_catch (put_back fc) (λ _, call_ret tt) ~;; call_err err)
            | None => call_catch (put_back fc) (λ _, call_ret tt) ~;; call_err "AllocationCompleted Updates missing root_function_call_id"
            end
        | None => deliver fc r (entry None)
        end
      else call_ret tt
  end.
Definition try_route_failure (fc : string) (failed : AllocationFailed) : Call unit :=
  route <~ take_route fc;;
  match route with
  | None => call_ret tt
  | Some r =>
      live <~ is_parent_allocation_alive (pc_parent_allocation_id r) (af_function failed) (af_request_id failed);;
      if live : bool then deliver fc r (build_failure_log_entry (pc_parent_allocation_id r) (pc_original_function_call_id r) failed)
      else call_ret tt
  end.
End routing.

(** ** Log entries *)

Section log_entries.
Context `{HO : HashOrder} (compute_next_fire_time : string → Z → result string Z).
Context (url_host : string → option (option string)) (blob_store : string → string * string).
Context (db_error : string) (show_error : WriteError → string).

(** [IndexifyState::write] as a [Call]; [im] is the published in-memory state. *)
Definition api_write (im : InMemoryState) (now : Z) (p : RequestPayload) : Call unit := λ a,
  let ok := default true (head (api_faults a)) in
  let '(s, r) := write compute_next_fire_time ok im now (xm_store (api_manager a)) p in
  (a <| api_faults ::= tail |> <| api_manager ::= λ m, m <| xm_store := s |> |>, match r with Ok _ => Ok tt | Err e => Err (show_error e) end).

(** The calls of an update that get a route: reductions get none. *)
Definition update_call_id (u : ExecutionPlanUpdate) : option string :=
  match epu_op u with Some (EPO_FunctionCall fc) => fcp_id fc | _ => None end.
Fixpoint register_calls (ids : list string) (allocation_id : string) (e : ExecutorId) (ctx : ParentRequestContext) : Call unit :=
  match ids with
  | [] => call_ret tt
  | fc :: ids => register_from_parent db_error fc allocation_id fc e ctx ~;; register_calls ids allocation_id e ctx
  end.
Definition to_compute_ops (fresh : nat → nat → string) (us : list ExecutionPlanUpdate) (source : string) : result string (list ComputeOp) :=
  collect (λ '(i, u), to_internal_compute_op url_host blob_store (fresh i) u (Some source)) (zip (seq 0 (length us)) us).

(** [fresh_root] is the id of a call without one. *)
Definition handle_log_entry (im : InMemoryState) (now : Z) (fresh : nat → nat → string) (fresh_root : string) (e : ExecutorId) (entry : AllocationLogEntry) : Call unit :=
  match ale_entry entry with
  | Some (LE_CallFunction call) =>
      namespace <~ call_lift (ok_or (fcr_namespace call) "CallFunction missing namespace");;
      application <~ call_lift (ok_or (fcr_application call) "CallFunction missing application");;
      request_id <~ call_lift (ok_or (fcr_request_id call) "CallFunction missing request_id");;
      register_calls (match fcr_updates call with Some us => omap update_call_id (eps_updates us) | None => [] end)
        (ale_allocation_id entry) e (MkParentRequestContext namespace application request_id) ~;;
      source <~ call_lift (ok_or (fcr_source_function_call_id call) "CallFunction missing source_function_call_id");;
      updates <~ call_lift (ok_or (fcr_updates call) "CallFunction missing updates");;
      ops <~ call_lift (to_compute_ops fresh (eps_updates updates) source);;
      api_write im now
        (RP_CreateFunctionCall namespace application request_id (MkRequestUpdates ops (default fresh_root (eps_root_function_call_id updates))) source)
  | _ => call_ret tt
  end.
End log_entries.

(** ** One table of routes *)

Definition route_of (a : Api) (fc : string) : option PendingFunctionCall := from_persisted_route <$> api_routes a !! fc.
(** Nothing fails, and what the cache holds is what the rows say. *)
Definition quiet (a : Api) : Prop := api_faults a = [].
Definition cached (a : Api) : Prop := ∀ fc r, api_pending a !! fc = Some r → route_of a fc = Some r.
Definition put_route (fc : string) (r : PendingFunctionCall) (a : Api) : Api :=
  a <| api_routes ::= <[fc := MkPersistedRoute (pc_parent_allocation_id r) (pc_original_function_call_id r) (pc_executor_id r)]> |> <| api_pending ::= <[fc := r]> |>.
Definition drop_route (fc : string) (a : Api) : Api := a <| api_pending ::= delete fc |> <| api_routes ::= delete fc |>.
Definition parent_alive (db : Db) (r : PendingFunctionCall) (function : option FunctionRef) (request_id : option string) : bool :=
  match function ≫= ref_namespace, function ≫= ref_application_name, request_id with
  | Some ns, Some app, Some req => alive (get_allocation db (allocation_key ns app req (pc_parent_allocation_id r)))
  | _, _, _ => false
  end.

Lemma bind_ok {A B} (m : Call A) (f : A → Call B) a a1 x : m a = (a1, Ok x) → call_bind m f a = f x a1.
Proof. unfold call_bind. by intros ->. Qed.

Section quiet.
Context (db_error : string) (encoded_len : Sequenced → Z) (encode_log : AllocationLogEntry → Bytes).
Local Notation api_db a := (ss_db (xm_store (api_manager a))).

Lemma put_route_of fc r a fc' : route_of (put_route fc r a) fc' = if bool_decide (fc' = fc) then Some r else route_of a fc'.
Proof. unfold route_of, put_route. cbn. rewrite lookup_insert. case_bool_decide; case_decide; subst; try done. by destruct r. Qed.
Lemma drop_route_of fc a fc' : route_of (drop_route fc a) fc' = if bool_decide (fc' = fc) then None else route_of a fc'.
Proof. unfold route_of, drop_route. cbn. rewrite lookup_delete. case_bool_decide; case_decide; by subst. Qed.
Lemma put_route_cached fc r a : cached a → cached (put_route fc r a).
Proof.
  intros Ha fc' r'. rewrite put_route_of. change (api_pending (put_route fc r a)) with (<[fc := r]> (api_pending a)). rewrite lookup_insert.
  case_decide; subst; [by rewrite bool_decide_eq_true_2|]. rewrite bool_decide_eq_false_2 by congruence. apply Ha.
Qed.
Lemma drop_route_cached fc a : cached a → cached (drop_route fc a).
Proof.
  intros Ha fc' r'. rewrite drop_route_of. change (api_pending (drop_route fc a)) with (delete fc (api_pending a)). rewrite lookup_delete.
  case_decide; subst; [done|]. rewrite bool_decide_eq_false_2 by congruence. apply Ha.
Qed.

Lemma db_op_quiet a : quiet a → db_op db_error a = (a, Ok tt).
Proof. unfold quiet, db_op. by intros ->. Qed.
Lemma register_quiet fc parent original e a : quiet a →
  register db_error fc parent original e a = (put_route fc (MkPendingCall parent original e) a, Ok tt).
Proof. intros Ha. unfold register, upsert_function_call_route, call_bind. by rewrite db_op_quiet. Qed.
Lemma lookup_route_quiet fc a : quiet a → cached a → lookup_route db_error fc a = (a, Ok (route_of a fc)).
Proof.
  intros Ha Hc. unfold lookup_route, call_bind, gets. cbn. destruct (api_pending a !! fc) as [r|] eqn:E; [by rewrite (Hc _ _ E)|].
  unfold get_function_call_route, call_bind. by rewrite db_op_quiet.
Qed.
Lemma take_route_quiet fc a : quiet a → cached a → take_route db_error fc a = (drop_route fc a, Ok (route_of a fc)).
Proof.
  intros Ha Hc. unfold take_route, call_bind, gets. cbn. destruct (api_pending a !! fc) as [r|] eqn:E.
  - rewrite (Hc _ _ E). unfold call_catch, delete_function_call_route, call_bind. cbn. rewrite db_op_quiet by done. done.
  - unfold take_function_call_route, get_function_call_route, call_bind. rewrite db_op_quiet by done. unfold gets, route_of. cbn.
    destruct (api_routes a !! fc) as [p|] eqn:Er; cbn; [rewrite db_op_quiet by done; cbn|]; unfold drop_route; destruct a as [m p0 rs fs]; cbn in *.
    + by rewrite (delete_id p0).
    + by rewrite (delete_id p0), (delete_id rs).
Qed.
Lemma alive_quiet ctx id a : quiet a →
  is_allocation_alive_for_request db_error ctx id a =
    (a, Ok (alive (get_allocation (api_db a) (allocation_key (prx_namespace ctx) (prx_application ctx) (prx_request_id ctx) id)))).
Proof. intros Ha. unfold is_allocation_alive_for_request, call_bind. by rewrite db_op_quiet. Qed.
Lemma parent_alive_quiet r function request_id a : quiet a →
  is_parent_allocation_alive db_error (pc_parent_allocation_id r) function request_id a = (a, Ok (parent_alive (api_db a) r function request_id)).
Proof.
  intros Ha. unfold is_parent_allocation_alive, parent_alive. destruct (function ≫= ref_namespace), (function ≫= ref_application_name), request_id; try done.
  by rewrite alive_quiet.
Qed.
End quiet.

(** ** Histories *)

Inductive RouteOp :=
| RT_Call (fc parent : string) (e : ExecutorId) (ctx : ParentRequestContext)
| RT_Completed (fc : string) (completed : AllocationCompleted)
| RT_Failed (fc : string) (failed : AllocationFailed)
| RT_Purge (e : ExecutorId)
| RT_LoseCache.

Section histories.
Context (db_error : string) (encoded_len : Sequenced → Z) (encode_log : AllocationLogEntry → Bytes).
Local Notation api_db a := (ss_db (xm_store (api_manager a))).

Definition route_op (op : RouteOp) : Call unit :=
  match op with
  | RT_Call fc parent e ctx => register_from_parent db_error fc parent fc e ctx ~;; call_ret tt
  | RT_Completed fc completed => try_route_result db_error encoded_len encode_log fc completed
  | RT_Failed fc failed => try_route_failure db_error encoded_len encode_log fc failed
  | RT_Purge e => purge_executor db_error e ~;; call_ret tt
  | RT_LoseCache => modify (λ a, a <| api_pending := ∅ |>)
  end.
Fixpoint route_ops (ops : list RouteOp) (a : Api) : Api * list (result string unit) :=
  match ops with
  | [] => (a, [])
  | op :: ops => let '(a1, r) := route_op op a in let '(a2, rs) := route_ops ops a1 in (a2, r :: rs)
  end.

(** *** The cache cannot be observed *)

Definition same_routes (a b : Api) : Prop :=
  api_manager a = api_manager b ∧ api_routes a = api_routes b ∧ quiet a ∧ quiet b ∧ cached a ∧ cached b.
Definition blind {A} (m : Call A) : Prop := ∀ a b, same_routes a b → same_routes (m a).1 (m b).1 ∧ (m a).2 = (m b).2.

Lemma same_route_of a b fc : same_routes a b → route_of a fc = route_of b fc.
Proof. intros (_ & H & _). unfold route_of. by rewrite H. Qed.
Lemma blind_ret {A} (x : A) : blind (call_ret x).
Proof. by intros a b H. Qed.
Lemma blind_err {A} e : blind (@call_err A e).
Proof. by intros a b H. Qed.
Lemma blind_bind {A B} (m : Call A) (f : A → Call B) : blind m → (∀ x, blind (f x)) → blind (call_bind m f).
Proof.
  intros Hm Hf a b H. destruct (Hm a b H) as [H1 H2]. unfold call_bind. destruct (m a) as [a1 r], (m b) as [b1 r']. cbn in *. subst r'.
  destruct r as [x|e]; [by apply Hf|done].
Qed.
Lemma blind_catch {A} (m : Call A) (h : string → Call A) : blind m → (∀ e, blind (h e)) → blind (call_catch m h).
Proof.
  intros Hm Hf a b H. destruct (Hm a b H) as [H1 H2]. unfold call_catch. destruct (m a) as [a1 r], (m b) as [b1 r']. cbn in *. subst r'.
  destruct r as [x|e]; [done|by apply Hf].
Qed.
Lemma blind_register fc parent original e : blind (register db_error fc parent original e).
Proof.
  intros a b (Hm & Hr & Ha & Hb & Hca & Hcb). rewrite !register_quiet by done. cbn [fst snd]. split; [|done]. repeat split; try done; [by cbn; rewrite Hr| |]; by apply put_route_cached.
Qed.
Lemma blind_take fc : blind (take_route db_error fc).
Proof.
  intros a b H. pose proof (same_route_of a b fc H) as E. destruct H as (Hm & Hr & Ha & Hb & Hca & Hcb). rewrite !take_route_quiet by done. cbn [fst snd].
  split; [|by rewrite E]. repeat split; try done; [by cbn; rewrite Hr| |]; by apply drop_route_cached.
Qed.
Lemma blind_parent_alive r function request_id : blind (is_parent_allocation_alive db_error (pc_parent_allocation_id r) function request_id).
Proof. intros a b H. destruct H as (Hm & Hr & Ha & Hb & Hca & Hcb). rewrite !parent_alive_quiet by done. cbn [fst snd]. by rewrite Hm. Qed.
Lemma blind_deliver fc r entry : blind (deliver db_error encoded_len encode_log fc r entry).
Proof.
  intros a b (Hm & Hr & Ha & Hb & Hca & Hcb). unfold deliver, push_result_to_executor. rewrite Hm. destruct (sv_connections _ !! _) as [conn|]; [|done].
  destruct (push_result _ conn _) as [conn'|item].
  - cbn. by rewrite Hm.
  - apply blind_bind; [apply blind_catch; [apply blind_register|intros; apply blind_ret]|intros; apply blind_err|]. by repeat split.
Qed.
Lemma blind_or_insert fc r a b : same_routes a b → route_of a fc = Some r → same_routes (or_insert fc r a).1 (or_insert fc r b).1.
Proof.
  intros H Er. pose proof (same_route_of a b fc H) as E. destruct H as (Hm & Hr & Ha & Hb & Hca & Hcb).
  assert (Hx : ∀ x, cached x → route_of x fc = Some r → cached (or_insert fc r x).1).
  { intros x Hx Ex. unfold or_insert, modify. cbn. destruct (api_pending x !! fc); [done|]. intros fc' r'. cbn. rewrite lookup_insert. case_decide; subst.
    - intros [= <-]. done.
    - apply Hx. }
  assert (Hy : ∀ x, api_manager (or_insert fc r x).1 = api_manager x ∧ api_routes (or_insert fc r x).1 = api_routes x ∧ api_faults (or_insert fc r x).1 = api_faults x).
  { intros x. unfold or_insert, modify. cbn. by destruct (api_pending x !! fc). }
  destruct (Hy a) as (A1 & A2 & A3), (Hy b) as (B1 & B2 & B3). unfold same_routes, quiet. rewrite A1, A2, A3, B1, B2, B3. repeat split; try done; (apply Hx; [done|congruence]).
Qed.
Lemma blind_call fc parent e ctx : blind (register_from_parent db_error fc parent fc e ctx).
Proof.
  intros a b H. pose proof (same_route_of a b fc H) as E. pose proof H as (Hm & Hr & Ha & Hb & Hca & Hcb). unfold register_from_parent.
  rewrite (bind_ok _ _ _ _ _ (lookup_route_quiet db_error fc a Ha Hca)), (bind_ok _ _ _ _ _ (lookup_route_quiet db_error fc b Hb Hcb)), <-E. destruct (route_of a fc) as [r|] eqn:Er.
  2:{ apply blind_bind; [apply blind_register|intros; apply blind_ret|done]. }
  destruct (bool_decide _ && bool_decide _).
  { unfold call_bind. cbn. split; [by apply blind_or_insert|done]. }
  case_bool_decide; [|apply blind_bind; [apply blind_register|intros; apply blind_ret|done]].
  rewrite (bind_ok _ _ _ _ _ (alive_quiet db_error ctx _ a Ha)), (bind_ok _ _ _ _ _ (alive_quiet db_error ctx _ b Hb)), Hm. destruct (alive _).
  - unfold call_bind. cbn. split; [by apply blind_or_insert|done].
  - apply blind_bind; [apply blind_register|intros; apply blind_ret|done].
Qed.
Lemma cached_purge a e : cached a → cached (a <| api_pending ::= filter (λ kr, pc_executor_id kr.2 ≠ e) |> <| api_routes ::= filter (λ kr, pr_executor_id kr.2 ≠ e) |>).
Proof.
  intros Ha fc r Hr. apply map_lookup_filter_Some in Hr as [Hr Hne]. specialize (Ha _ _ Hr). unfold route_of in *. apply fmap_Some in Ha as (p & Hp & ->).
  apply fmap_Some. exists p. split; [|done]. by apply map_lookup_filter_Some.
Qed.
Lemma purge_quiet e a : quiet a →
  (purge_executor db_error e a).1 = a <| api_pending ::= filter (λ kr, pc_executor_id kr.2 ≠ e) |> <| api_routes ::= filter (λ kr, pr_executor_id kr.2 ≠ e) |> ∧
  is_ok (purge_executor db_error e a).2 = true.
Proof.
  intros Ha. unfold purge_executor, purge_function_call_routes_for_executor, call_bind, gets, modify. cbn. by rewrite db_op_quiet.
Qed.
Lemma blind_op op : op ≠ RT_LoseCache → blind (route_op op).
Proof.
  intros Hop. destruct op as [fc parent e ctx|fc c|fc f|e|]; [| | | |done]; cbn [route_op].
  - apply blind_bind; [apply blind_call|intros; apply blind_ret].
  - apply blind_bind; [apply blind_take|]. intros [r|]; [|apply blind_ret]. apply blind_bind; [apply blind_parent_alive|]. intros [|]; [|apply blind_ret]. cbv zeta.
    destruct (ac_return_value c) as [[dp|us]|]; [apply blind_deliver| |apply blind_deliver]. destruct (eps_root_function_call_id us).
    + apply blind_catch; [apply blind_register|]. intros err. apply blind_bind; [|intros; apply blind_err]. apply blind_catch; [apply blind_register|intros; apply blind_ret].
    + apply blind_bind; [|intros; apply blind_err]. apply blind_catch; [apply blind_register|intros; apply blind_ret].
  - apply blind_bind; [apply blind_take|]. intros [r|]; [|apply blind_ret]. apply blind_bind; [apply blind_parent_alive|]. intros [|]; [apply blind_deliver|apply blind_ret].
  - intros a b (Hm & Hr & Ha & Hb & Hca & Hcb). unfold call_bind. destruct (purge_quiet e a Ha) as [Ea Ra], (purge_quiet e b Hb) as [Eb Rb].
    destruct (purge_executor db_error e a) as [a1 ra], (purge_executor db_error e b) as [b1 rb]. cbn in *. destruct ra, rb; try done. cbn. split; [|done]. subst.
    repeat split; try done; [by cbn; rewrite Hr| |]; by apply cached_purge.
Qed.
Lemma same_routes_refl a : quiet a → cached a → same_routes a a.
Proof. by repeat split. Qed.
Lemma same_routes_trans a b c : same_routes a b → same_routes b c → same_routes a c.
Proof. intros (H1 & H2 & H3 & H4 & H5 & H6) (G1 & G2 & G3 & G4 & G5 & G6). unfold same_routes. rewrite H1, H2. by repeat split. Qed.
Lemma lose_cache_same a : quiet a → cached a → same_routes (a <| api_pending := ∅ |>) a.
Proof. intros Ha Hc. split_and!; [done|done|done|done| |done]. intros fc r. cbn. by rewrite lookup_empty. Qed.

Definition keeps_cache (op : RouteOp) : bool := match op with RT_LoseCache => false | _ => true end.
(** The answers of the operations other than the loss of the cache. *)
Definition answers (ops : list RouteOp) (rs : list (result string unit)) : list (result string unit) :=
  (List.filter (λ x, keeps_cache x.1) (zip ops rs)).*2.
Lemma route_ops_blind ops : ∀ a b, same_routes a b →
  same_routes (route_ops ops a).1 (route_ops (List.filter keeps_cache ops) b).1 ∧
  answers ops (route_ops ops a).2 = (route_ops (List.filter keeps_cache ops) b).2.
Proof.
  induction ops as [|op ops IH]; intros a b H; [done|]. cbn [route_ops List.filter]. destruct (keeps_cache op) eqn:Ek.
  - cbn [route_ops]. destruct (blind_op op ltac:(by intros ->) a b H) as [H1 H2]. destruct (route_op op a) as [a1 r], (route_op op b) as [b1 r']. cbn in H1, H2. subst r'.
    destruct (IH a1 b1 H1) as [I1 I2]. destruct (route_ops ops a1) as [a2 rs], (route_ops _ b1) as [b2 rs']. cbn in *. split; [done|].
    unfold answers in *. cbn. rewrite Ek. cbn. by rewrite I2.
  - destruct op; try done. cbn [route_op modify]. destruct (IH (a <| api_pending := ∅ |>) b) as [I1 I2].
    { eapply same_routes_trans; [|exact H]. destruct H as (_ & _ & Ha & _ & Hc & _). by apply lose_cache_same. }
    destruct (route_ops ops _) as [a2 rs]. by cbn in *.
Qed.

(** C25: the in-memory table of routes is a pure cache of the persisted one.  Without
    database errors, whatever the order of calls, completions, failures and purges, losing
    the table at any points of the history changes neither the answers nor the results
    that are delivered nor the routes that remain. *)
Theorem route_cache_transparent a ops :
  quiet a → cached a →
  let '(a1, rs1) := route_ops ops a in
  let '(a2, rs2) := route_ops (List.filter keeps_cache ops) a in
  api_manager a1 = api_manager a2 ∧ (∀ fc, route_of a1 fc = route_of a2 fc) ∧ answers ops rs1 = rs2 ∧ cached a1.
Proof.
  intros Ha Hc. destruct (route_ops_blind ops a a (same_routes_refl a Ha Hc)) as [H1 H2].
  destruct (route_ops ops a) as [a1 rs1], (route_ops (List.filter keeps_cache ops) a) as [a2 rs2]. cbn in *.
  split_and!; [apply H1|intros fc; by apply same_route_of|done|by destruct H1 as (_ & _ & _ & _ & H & _)].
Qed.

(** *** Chains of tail calls *)

Lemma route_op_inv op a : quiet a → cached a → quiet (route_op op a).1 ∧ cached (route_op op a).1.
Proof.
  intros Ha Hc. destruct (keeps_cache op) eqn:Ek.
  - destruct (blind_op op ltac:(by intros ->) a a (same_routes_refl a Ha Hc)) as [(_ & _ & H1 & _ & H2 & _) _]. done.
  - by destruct op.
Qed.
Lemma route_ops_app ops1 ops2 a : (route_ops (ops1 ++ ops2) a).1 = (route_ops ops2 (route_ops ops1 a).1).1.
Proof.
  revert a. induction ops1 as [|op ops1 IH]; intros a; [done|]. cbn [route_ops app]. destruct (route_op op a) as [a1 r]. specialize (IH a1).
  destruct (route_ops (ops1 ++ ops2) a1), (route_ops ops1 a1). done.
Qed.
Lemma route_ops_cons op ops a : (route_ops (op :: ops) a).1 = (route_ops ops (route_op op a).1).1.
Proof. cbn. destruct (route_op op a) as [a1 r]. cbn. by destruct (route_ops ops a1). Qed.
Lemma route_ops_inv ops : ∀ a, quiet a → cached a → quiet (route_ops ops a).1 ∧ cached (route_ops ops a).1.
Proof.
  induction ops as [|op ops IH]; intros a Ha Hc; [done|]. rewrite route_ops_cons. destruct (route_op_inv op a Ha Hc). by apply IH.
Qed.

(** The call that takes over when a completion is a tail call. *)
Definition downstream (c : AllocationCompleted) : option string :=
  match ac_return_value c with Some (RV_Updates us) => eps_root_function_call_id us | _ => None end.
(** What other allocations and executors may do while [r] waits for [fc]. *)
Definition harmless (db : Db) (fc : string) (r : PendingFunctionCall) (op : RouteOp) : Prop :=
  match op with
  | RT_Call fc' parent e ctx =>
      fc' ≠ fc ∨ parent = pc_parent_allocation_id r ∧ e = pc_executor_id r ∨
      pc_original_function_call_id r ≠ fc ∧
      alive (get_allocation db (allocation_key (prx_namespace ctx) (prx_application ctx) (prx_request_id ctx) (pc_parent_allocation_id r))) = true
  | RT_Completed fc' c => fc' ≠ fc ∧ downstream c ≠ Some fc
  | RT_Failed fc' _ => fc' ≠ fc
  | RT_Purge e => e ≠ pc_executor_id r
  | RT_LoseCache => True
  end.

Lemma deliver_spec fc r entry a : quiet a →
  let '(a', _) := deliver db_error encoded_len encode_log fc r entry a in
  xm_store (api_manager a') = xm_store (api_manager a) ∧ ∀ fc', fc' ≠ fc → route_of a' fc' = route_of a fc'.
Proof.
  intros Ha. unfold deliver, push_result_to_executor. destruct (sv_connections _ !! _) as [conn|]; [|done]. destruct (push_result _ conn _) as [conn'|item]; [done|].
  unfold call_bind, call_catch. rewrite register_quiet by done. cbn. split; [done|]. intros fc' Hne. rewrite put_route_of. by rewrite bool_decide_eq_false_2.
Qed.
Lemma completed_spec fc c a : quiet a → cached a →
  let '(a', _) := route_op (RT_Completed fc c) a in
  xm_store (api_manager a') = xm_store (api_manager a) ∧ ∀ fc', fc' ≠ fc → downstream c ≠ Some fc' → route_of a' fc' = route_of a fc'.
Proof.
  intros Ha Hc. cbn [route_op]. unfold try_route_result. rewrite (bind_ok _ _ _ _ _ (take_route_quiet db_error fc a Ha Hc)).
  assert (Hd : ∀ fc', fc' ≠ fc → route_of (drop_route fc a) fc' = route_of a fc') by (intros fc' Hne; rewrite drop_route_of; by rewrite bool_decide_eq_false_2).
  destruct (route_of a fc) as [r|]; [|cbn; by auto].
  rewrite (bind_ok _ _ _ _ _ (parent_alive_quiet db_error r _ _ (drop_route fc a) Ha)). destruct (parent_alive _ _ _ _); [|cbn; by auto]. cbv zeta. unfold downstream.
  assert (Hdel : ∀ entry, let '(a', _) := deliver db_error encoded_len encode_log fc r entry (drop_route fc a) in
      xm_store (api_manager a') = xm_store (api_manager a) ∧ ∀ fc', fc' ≠ fc → route_of a' fc' = route_of a fc').
  { intros entry. pose proof (deliver_spec fc r entry (drop_route fc a) Ha) as H. destruct (deliver _ _ _ _ _ _ _) as [a' x]. destruct H as [H1 H2].
    split; [exact H1|]. intros fc' Hne. rewrite H2 by done. by apply Hd. }
  destruct (ac_return_value c) as [[dp|us]|].
  - specialize (Hdel (build_result_log_entry (pc_parent_allocation_id r) (pc_original_function_call_id r) c (Some dp))). destruct (deliver _ _ _ _ _ _ _). destruct Hdel. by auto.
  - destruct (eps_root_function_call_id us) as [d|]; unfold call_catch, call_bind; rewrite register_quiet by done; cbn; (split; [done|]); intros fc' Hne Hne'; rewrite put_route_of.
    + rewrite bool_decide_eq_false_2 by congruence. by apply Hd.
    + rewrite bool_decide_eq_false_2 by congruence. by apply Hd.
  - specialize (Hdel (build_result_log_entry (pc_parent_allocation_id r) (pc_original_function_call_id r) c None)). destruct (deliver _ _ _ _ _ _ _). destruct Hdel. by auto.
Qed.
Lemma failed_spec fc f a : quiet a → cached a →
  let '(a', _) := route_op (RT_Failed fc f) a in
  xm_store (api_manager a') = xm_store (api_manager a) ∧ ∀ fc', fc' ≠ fc → route_of a' fc' = route_of a fc'.
Proof.
  intros Ha Hc. cbn [route_op]. unfold try_route_failure. rewrite (bind_ok _ _ _ _ _ (take_route_quiet db_error fc a Ha Hc)).
  assert (Hd : ∀ fc', fc' ≠ fc → route_of (drop_route fc a) fc' = route_of a fc') by (intros fc' Hne; rewrite drop_route_of; by rewrite bool_decide_eq_false_2).
  destruct (route_of a fc) as [r|]; [|cbn; by auto].
  rewrite (bind_ok _ _ _ _ _ (parent_alive_quiet db_error r _ _ (drop_route fc a) Ha)). destruct (parent_alive _ _ _ _); [|cbn; by auto].
  pose proof (deliver_spec fc r (build_failure_log_entry (pc_parent_allocation_id r) (pc_original_function_call_id r) f) (drop_route fc a) Ha) as H.
  destruct (deliver _ _ _ _ _ _ _) as [a' x]. destruct H as [H1 H2]. split; [exact H1|]. intros fc' Hne. rewrite H2 by done. by apply Hd.
Qed.
Lemma call_spec fc parent e ctx a : quiet a → cached a →
  let '(a', _) := route_op (RT_Call fc parent e ctx) a in
  xm_store (api_manager a') = xm_store (api_manager a) ∧
  ∀ fc' r, route_of a fc' = Some r → harmless (api_db a) fc' r (RT_Call fc parent e ctx) → route_of a' fc' = Some r.
Proof.
  intros Ha Hc. cbn [route_op harmless]. unfold register_from_parent, call_bind at 1. rewrite (bind_ok _ _ _ _ _ (lookup_route_quiet db_error fc a Ha Hc)).
  assert (Hp : ∀ original, let a' := put_route fc (MkPendingCall parent original e) a in
    xm_store (api_manager a') = xm_store (api_manager a) ∧ ∀ fc' r, route_of a fc' = Some r → fc ≠ fc' → route_of a' fc' = Some r).
  { intros original. split; [done|]. intros fc' r Hr Hne. rewrite put_route_of, bool_decide_eq_false_2 by congruence. done. }
  assert (Ho : ∀ r0, xm_store (api_manager (or_insert fc r0 a).1) = xm_store (api_manager a) ∧ ∀ fc', route_of (or_insert fc r0 a).1 fc' = route_of a fc').
  { intros r0. unfold or_insert, modify. cbn. by destruct (api_pending a !! fc). }
  destruct (route_of a fc) as [r0|] eqn:E0.
  2:{ rewrite (bind_ok _ _ _ _ _ (register_quiet db_error fc parent fc e a Ha)). cbn. split; [exact eq_refl|]. intros fc' r Hr _. apply (proj2 (Hp _)); [done|]. intros ->. congruence. }
  destruct (bool_decide _ && bool_decide _) eqn:Esame.
  { unfold call_bind. cbn. destruct (Ho r0) as [H1 H2]. split; [done|]. intros fc' r Hr _. by rewrite H2. }
  apply andb_false_iff in Esame.
  destruct (bool_decide (pc_original_function_call_id r0 ≠ fc)) eqn:Eorig; [apply bool_decide_eq_true in Eorig|apply bool_decide_eq_false, dec_stable in Eorig].
  2:{ rewrite (bind_ok _ _ _ _ _ (register_quiet db_error fc parent fc e a Ha)). cbn. split; [exact eq_refl|]. intros fc' r Hr [Hne|[[-> ->]|[Hne _]]]; [by apply (proj2 (Hp _))| |].
    - apply (proj2 (Hp _)); [done|]. intros ->. rewrite E0 in Hr. injection Hr as ->. destruct Esame as [H|H]; apply bool_decide_eq_false in H; done.
    - apply (proj2 (Hp _)); [done|]. intros ->. rewrite E0 in Hr. injection Hr as ->. done. }
  rewrite (bind_ok _ _ _ _ _ (alive_quiet db_error ctx _ a Ha)). destruct (alive _) eqn:El.
  { unfold call_bind. cbn. destruct (Ho r0) as [H1 H2]. split; [done|]. intros fc' r Hr _. by rewrite H2. }
  rewrite (bind_ok _ _ _ _ _ (register_quiet db_error fc parent _ e a Ha)). cbn. split; [exact eq_refl|]. intros fc' r Hr Hh. apply (proj2 (Hp _)); [done|]. intros ->. rewrite E0 in Hr. injection Hr as ->.
  destruct Hh as [Hne|[[-> ->]|[_ Hl]]]; [done| |congruence]. destruct Esame as [H|H]; apply bool_decide_eq_false in H; done.
Qed.
Lemma call_ok fc parent e ctx a : quiet a → cached a → is_ok (register_from_parent db_error fc parent fc e ctx a).2 = true.
Proof.
  intros Ha Hc. unfold register_from_parent. rewrite (bind_ok _ _ _ _ _ (lookup_route_quiet db_error fc a Ha Hc)). destruct (route_of a fc) as [r0|].
  2:{ by rewrite (bind_ok _ _ _ _ _ (register_quiet db_error fc parent fc e a Ha)). }
  destruct (bool_decide _ && bool_decide _); [done|]. destruct (bool_decide (pc_original_function_call_id r0 ≠ fc)).
  - rewrite (bind_ok _ _ _ _ _ (alive_quiet db_error ctx _ a Ha)). destruct (alive _); [done|]. by rewrite (bind_ok _ _ _ _ _ (register_quiet db_error fc parent _ e a Ha)).
  - by rewrite (bind_ok _ _ _ _ _ (register_quiet db_error fc parent fc e a Ha)).
Qed.
Lemma harmless_keeps op a fc r : quiet a → cached a → route_of a fc = Some r → harmless (api_db a) fc r op →
  route_of (route_op op a).1 fc = Some r ∧ xm_store (api_manager (route_op op a).1) = xm_store (api_manager a).
Proof.
  intros Ha Hc Hr Hh. destruct op as [fc' parent e ctx|fc' c|fc' f|e|].
  - pose proof (call_spec fc' parent e ctx a Ha Hc) as H. destruct (route_op _ a) as [a' x]. destruct H as [H1 H2]. split; [by apply H2|done].
  - pose proof (completed_spec fc' c a Ha Hc) as H. destruct (route_op _ a) as [a' x]. destruct H as [H1 H2], Hh as [Hne Hd]. split; [cbn; rewrite H2 by congruence; done|done].
  - pose proof (failed_spec fc' f a Ha Hc) as H. destruct (route_op _ a) as [a' x]. destruct H as [H1 H2]. cbn in Hh. split; [cbn; rewrite H2 by congruence; done|done].
  - cbn [route_op]. unfold call_bind. destruct (purge_quiet e a Ha) as [E _]. destruct (purge_executor db_error e a) as [a' x]. cbn in E.
    assert (Hx : route_of a' fc = Some r ∧ xm_store (api_manager a') = xm_store (api_manager a)).
    { subst a'. split; [|done]. unfold route_of in *. apply fmap_Some in Hr as (p & Hp & ->). apply fmap_Some. exists p. split; [|done].
      apply map_lookup_filter_Some. split; [done|]. cbn in Hh |- *. congruence. }
    by destruct x.
  - done.
Qed.
Lemma harmless_ops ops : ∀ a fc r, quiet a → cached a → route_of a fc = Some r → Forall (harmless (api_db a) fc r) ops →
  route_of (route_ops ops a).1 fc = Some r ∧ xm_store (api_manager (route_ops ops a).1) = xm_store (api_manager a).
Proof.
  induction ops as [|op ops IH]; intros a fc r Ha Hc Hr Hh; [done|]. rewrite route_ops_cons. inversion Hh as [|? ? H1 H2]; subst.
  destruct (harmless_keeps op a fc r Ha Hc Hr H1) as [K1 K2], (route_op_inv op a Ha Hc) as [Q1 Q2].
  destruct (IH (route_op op a).1 fc r Q1 Q2 K1) as [I1 I2]; [by rewrite K2|]. split; [done|congruence].
Qed.

(** The value a completion returns, when it is not a tail call. *)
Definition returned (c : AllocationCompleted) : option (option DataPayloadPb) :=
  match ac_return_value c with None => Some None | Some (RV_Value dp) => Some (Some dp) | Some (RV_Updates _) => None end.
(** The result of a report fits a poll response, whichever allocation waits for it and
    whatever number it is given. *)
Definition entry_fits (entry : AllocationLogEntry) : Prop := ∀ seq, encoded_len (MkSequenced seq (encode_log entry)) ≤ MAX_POLL_RESPONSE_BYTES.
Definition completed_fits (c : AllocationCompleted) : Prop := ∀ parent call v, returned c = Some v → entry_fits (build_result_log_entry parent call c v).
Definition failed_fits (f : AllocationFailed) : Prop := ∀ parent call, entry_fits (build_failure_log_entry parent call f).

(** A result that fits is delivered or dropped, and a tail call without a root is the
    only other error. *)
Lemma deliver_ok fc r entry a : entry_fits entry → is_ok (deliver db_error encoded_len encode_log fc r entry a).2 = true.
Proof.
  intros Hfit. unfold deliver, push_result_to_executor. destruct (sv_connections _ !! _) as [conn|]; [|done]. unfold push_result.
  rewrite bool_decide_eq_false_2; [done|]. specialize (Hfit (ec_next_result_seq conn)). lia.
Qed.
Lemma completed_answer fc c a : quiet a → cached a → completed_fits c →
  let ans := (route_op (RT_Completed fc c) a).2 in ans = Ok tt ∨ ans = Err "AllocationCompleted Updates missing root_function_call_id".
Proof.
  intros Ha Hc Hfit. cbn [route_op]. unfold try_route_result. rewrite (bind_ok _ _ _ _ _ (take_route_quiet db_error fc a Ha Hc)). destruct (route_of a fc) as [r|]; [|by left].
  rewrite (bind_ok _ _ _ _ _ (parent_alive_quiet db_error r _ _ (drop_route fc a) Ha)). destruct (parent_alive _ _ _ _); [|by left]. cbv zeta.
  assert (Hd : ∀ parent call v, returned c = Some v → (deliver db_error encoded_len encode_log fc r (build_result_log_entry parent call c v) (drop_route fc a)).2 = Ok tt).
  { intros parent call v Hv. pose proof (deliver_ok fc r _ (drop_route fc a) (Hfit parent call v Hv)) as H. destruct (deliver _ _ _ _ _ _ _) as [a' [[]|]]; done. }
  unfold returned in Hd. destruct (ac_return_value c) as [[dp|us]|]; [left; by apply Hd| |left; by apply Hd].
  destruct (eps_root_function_call_id us); unfold call_catch, call_bind; rewrite register_quiet by done; [by left|by right].
Qed.
Lemma failed_answer fc f a : quiet a → cached a → failed_fits f → (route_op (RT_Failed fc f) a).2 = Ok tt.
Proof.
  intros Ha Hc Hfit. cbn [route_op]. unfold try_route_failure. rewrite (bind_ok _ _ _ _ _ (take_route_quiet db_error fc a Ha Hc)). destruct (route_of a fc) as [r|]; [|done].
  rewrite (bind_ok _ _ _ _ _ (parent_alive_quiet db_error r _ _ (drop_route fc a) Ha)). destruct (parent_alive _ _ _ _); [|done].
  pose proof (deliver_ok fc r _ (drop_route fc a) (Hfit (pc_parent_allocation_id r) (pc_original_function_call_id r))) as H.
  destruct (deliver _ _ _ _ _ _ _) as [a' [[]|]]; done.
Qed.

(** A hop of a chain: what others do, and the completion that hands over to the next
    call. *)
Record Hop := MkHop { hop_others : list RouteOp; hop_completed : AllocationCompleted; hop_next : string }.
Fixpoint chain_ops (fc : string) (hops : list Hop) : list RouteOp :=
  match hops with
  | [] => []
  | h :: hops => hop_others h ++ RT_Completed fc (hop_completed h) :: chain_ops (hop_next h) hops
  end.
Fixpoint chain_end (fc : string) (hops : list Hop) : string :=
  match hops with [] => fc | h :: hops => chain_end (hop_next h) hops end.
Fixpoint chain_ok (db : Db) (r : PendingFunctionCall) (fc : string) (hops : list Hop) : Prop :=
  match hops with
  | [] => True
  | h :: hops =>
      Forall (harmless db fc r) (hop_others h) ∧ downstream (hop_completed h) = Some (hop_next h) ∧
      parent_alive db r (ac_function (hop_completed h)) (ac_request_id (hop_completed h)) = true ∧ chain_ok db r (hop_next h) hops
  end.

Lemma hop_moves_route a fc r c next : quiet a → cached a → route_of a fc = Some r → downstream c = Some next →
  parent_alive (api_db a) r (ac_function c) (ac_request_id c) = true →
  route_op (RT_Completed fc c) a = (put_route next r (drop_route fc a), Ok tt).
Proof.
  intros Ha Hc Hr Hd Hl. cbn [route_op]. unfold try_route_result. rewrite (bind_ok _ _ _ _ _ (take_route_quiet db_error fc a Ha Hc)), Hr.
  rewrite (bind_ok _ _ _ _ _ (parent_alive_quiet db_error r _ _ (drop_route fc a) Ha)). change (api_db (drop_route fc a)) with (api_db a). rewrite Hl. cbv zeta.
  unfold downstream in Hd. destruct (ac_return_value c) as [[dp|us]|]; try done. rewrite Hd. unfold call_catch. rewrite register_quiet by done. by destruct r.
Qed.
Lemma chain_reaches_end hops : ∀ a fc r, quiet a → cached a → route_of a fc = Some r → chain_ok (api_db a) r fc hops →
  let a' := (route_ops (chain_ops fc hops) a).1 in
  quiet a' ∧ cached a' ∧ route_of a' (chain_end fc hops) = Some r ∧ xm_store (api_manager a') = xm_store (api_manager a).
Proof.
  induction hops as [|h hops IH]; intros a fc r Ha Hc Hr Hok; [done|]. destruct Hok as (Hh & Hd & Hl & Hok). cbn [chain_ops chain_end]. rewrite route_ops_app, route_ops_cons.
  destruct (harmless_ops (hop_others h) a fc r Ha Hc Hr Hh) as [K1 K2], (route_ops_inv (hop_others h) a Ha Hc) as [Q1 Q2]. set (a1 := (route_ops (hop_others h) a).1) in *.
  rewrite (hop_moves_route a1 fc r (hop_completed h) (hop_next h)) by (try done; by rewrite K2). cbn [fst].
  destruct (IH (put_route (hop_next h) r (drop_route fc a1)) (hop_next h) r) as (I1 & I2 & I3 & I4).
  - exact Q1.
  - by apply put_route_cached, drop_route_cached.
  - rewrite put_route_of. by rewrite bool_decide_eq_true_2.
  - change (chain_ok (api_db a1) r (hop_next h) hops). by rewrite K2.
  - split_and!; [done|done|done|]. rewrite I4. exact K2.
Qed.

(** C24: the value at the end of a chain of tail calls reaches the allocation that made
    the first call.  A parent waits for [fc]; the call hands over to another one, that one
    to the next, and so on, while other allocations register, complete and fail calls with
    other ids, other executors are purged, and calls of the chain are announced again by the
    functions that run them.  Suppose that no database operation fails (one failed read can
    lose the route, [failed_read_loses_route]), that the parent is alive at every completion
    of the chain, that its executor still has a connection, and that the encoded result
    fits a poll response.  Then the last completion appends exactly one result to the buffer
    of the parent's executor, with the next number, the parent's allocation and the id of
    the call it made; the route is gone and no other connection changes. *)
Theorem tail_call_result_delivered a fc r hops others c v conn :
  quiet a → cached a → route_of a fc = Some r → chain_ok (api_db a) r fc hops →
  Forall (harmless (api_db a) (chain_end fc hops) r) others →
  parent_alive (api_db a) r (ac_function c) (ac_request_id c) = true → returned c = Some v →
  let a1 := (route_ops (chain_ops fc hops ++ others) a).1 in
  let entry := build_result_log_entry (pc_parent_allocation_id r) (pc_original_function_call_id r) c v in
  let item := MkSequenced (ec_next_result_seq conn) (encode_log entry) in
  sv_connections (xm_server (api_manager a1)) !! pc_executor_id r = Some conn → encoded_len item ≤ MAX_POLL_RESPONSE_BYTES →
  let '(a2, ans) := route_op (RT_Completed (chain_end fc hops) c) a1 in
  ans = Ok tt ∧ route_of a2 (chain_end fc hops) = None ∧
  (∀ e, sv_connections (xm_server (api_manager a2)) !! e =
        if bool_decide (e = pc_executor_id r)
        then Some (conn <| ec_pending_results ::= λ buf, buf ++ [item] |> <| ec_next_result_seq ::= λ n, saturating_add n 1 |>)
        else sv_connections (xm_server (api_manager a1)) !! e).
Proof.
  intros Ha Hc Hr Hok Hh Hl Hv a1 entry item Hconn Hfit. destruct (chain_reaches_end hops a fc r Ha Hc Hr Hok) as (Q1 & Q2 & Q3 & Q4).
  set (a0 := (route_ops (chain_ops fc hops) a).1) in *. assert (E1 : a1 = (route_ops others a0).1) by apply route_ops_app.
  destruct (harmless_ops others a0 (chain_end fc hops) r Q1 Q2 Q3) as [K1 K2]; [by rewrite Q4|].
  destruct (route_ops_inv others a0 Q1 Q2) as [P1 P2]. rewrite <-E1 in K1, K2, P1, P2. clearbody a1. cbn [route_op]. unfold try_route_result.
  rewrite (bind_ok _ _ _ _ _ (take_route_quiet db_error _ a1 P1 P2)), K1.
  rewrite (bind_ok _ _ _ _ _ (parent_alive_quiet db_error r _ _ (drop_route (chain_end fc hops) a1) P1)).
  replace (parent_alive _ r _ _) with true by (rewrite <-Hl; change (api_db (drop_route (chain_end fc hops) a1)) with (api_db a1); by rewrite K2, Q4). cbv zeta.
  assert (Hdel : deliver db_error encoded_len encode_log (chain_end fc hops) r entry (drop_route (chain_end fc hops) a1) =
    (drop_route (chain_end fc hops) a1 <| api_manager ::= λ m, m <| xm_server ::= λ s, s <| sv_connections ::=
       <[pc_executor_id r := conn <| ec_pending_results ::= λ buf, buf ++ [item] |> <| ec_next_result_seq ::= λ n, saturating_add n 1 |>]> |> |> |>, Ok tt)).
  { unfold deliver, push_result_to_executor. change (api_manager (drop_route (chain_end fc hops) a1)) with (api_manager a1). rewrite Hconn. unfold push_result.
    fold item. rewrite bool_decide_eq_false_2 by lia. done. }
  replace (match ac_return_value c with Some _ => _ | None => _ end) with (deliver db_error encoded_len encode_log (chain_end fc hops) r entry)
    by (unfold entry, returned in *; destruct (ac_return_value c) as [[dp|us]|]; [by injection Hv as <-|discriminate Hv|by injection Hv as <-]).
  rewrite Hdel. split; [done|]. split.
  - change (route_of (drop_route (chain_end fc hops) a1) (chain_end fc hops) = None). rewrite drop_route_of. by rewrite bool_decide_eq_true_2.
  - intros e. change (<[pc_executor_id r := conn <| ec_pending_results ::= λ buf, buf ++ [item] |> <| ec_next_result_seq ::= λ n, saturating_add n 1 |>]>
      (sv_connections (xm_server (api_manager a1))) !! e = if bool_decide (e = pc_executor_id r) then Some (conn <| ec_pending_results ::= λ buf, buf ++ [item] |> <| ec_next_result_seq ::= λ n, saturating_add n 1 |>) else sv_connections (xm_server (api_manager a1)) !! e).
    rewrite lookup_insert. case_decide; case_bool_decide; congruence.
Qed.

(** A database error at the wrong moment loses a result: the route is taken before the
    parent is looked up, and when that read fails, it is not put back.  The completion is
    reported as failed, but the next attempt finds no route. *)
Theorem failed_read_loses_route a fc r c ns app req :
  api_pending a !! fc = Some r → api_faults a = [true; false] →
  ac_function c ≫= ref_namespace = Some ns → ac_function c ≫= ref_application_name = Some app → ac_request_id c = Some req →
  let '(a1, ans1) := try_route_result db_error encoded_len encode_log fc c a in
  let '(a2, ans2) := try_route_result db_error encoded_len encode_log fc c a1 in
  ans1 = Err db_error ∧ ans2 = Ok tt ∧ route_of a1 fc = None ∧ api_manager a2 = api_manager a.
Proof.
  intros Hp Hf Hns Happ Hreq. set (a1 := drop_route fc a <| api_faults := [] |>).
  assert (E : try_route_result db_error encoded_len encode_log fc c a = (a1, Err db_error)).
  { unfold try_route_result, take_route, is_parent_allocation_alive, is_allocation_alive_for_request, delete_function_call_route, call_bind, call_catch, gets, modify, db_op.
    rewrite Hp. cbn. rewrite Hf. cbn. rewrite Hns, Happ, Hreq. done. }
  rewrite E. assert (Q : quiet a1) by done. assert (P : api_pending a1 !! fc = None) by (cbn; apply lookup_delete_eq). assert (R : api_routes a1 !! fc = None) by (cbn; apply lookup_delete_eq).
  assert (E2 : try_route_result db_error encoded_len encode_log fc c a1 = (a1, Ok tt)).
  { unfold try_route_result, take_route, take_function_call_route, get_function_call_route, call_bind, gets. rewrite P, (db_op_quiet db_error a1 Q). cbn. unfold a1 in R. cbn in R. by rewrite R. }
  rewrite E2. split_and!; [done|done|unfold route_of; by rewrite R|done].
Qed.
End histories.

(** *** Witnesses *)

Definition ref_ex : FunctionRef := MkFunctionRef (Some "ns") (Some "app") (Some "fn") None.
(** An allocation [p] of request [r] is running, its executor is connected and it waits
    for the call [f1]; only the row of the route is there. *)
Definition waiting_ex : Api :=
  MkApi (MkExecutorManager ∅ {["e1" := 0]}
           (open_store (empty_db <| db_allocations := {[allocation_key "ns" "app" "r" "p" := allocation_ex]} |>) false)
           (MkServer ∅ ∅ {["e1" := new_connection]} ∅))
    ∅ {["f1" := MkPersistedRoute "p" "f1" "e1"]} [].
Definition tail_call_ex : AllocationCompleted :=
  MkAllocationCompleted "a1" (Some ref_ex) (Some "f1") (Some "r") (Some (RV_Updates (MkExecutionPlanUpdates [] (Some "f2")))) None.
Definition value_ex : DataPayloadPb := MkDataPayloadPb (Some "file:///blobs/x") (Some 1) None None None None (Some 4) (Some "h") None None.
Definition answer_ex : AllocationCompleted := MkAllocationCompleted "a2" (Some ref_ex) (Some "f2") (Some "r") (Some (RV_Value value_ex)) None.
Definition announced_ex : RouteOp := RT_Call "f2" "a1" "e2" (MkParentRequestContext "ns" "app" "r").
Definition encode_log_ex (entry : AllocationLogEntry) : Bytes :=
  match ale_entry entry with Some (LE_FunctionCallResult res) => ale_allocation_id entry +:+ "/" +:+ default "" (fcx_function_call_id res) | _ => "" end.

Lemma route_cache_transparent_witness :
  let ops := [RT_Completed "f1" tail_call_ex; RT_LoseCache; announced_ex; RT_LoseCache; RT_Completed "f2" answer_ex] in
  (ec_pending_results <$> sv_connections (xm_server (api_manager (route_ops "db" len_ex encode_log_ex ops waiting_ex).1)) !! "e1") = Some [MkSequenced 1 "p/f1"].
Proof.
  intros ops. pose proof (route_cache_transparent "db" len_ex encode_log_ex waiting_ex ops eq_refl) as H.
  assert (Hx : (ec_pending_results <$> sv_connections (xm_server (api_manager (route_ops "db" len_ex encode_log_ex (List.filter keeps_cache ops) waiting_ex).1)) !! "e1") = Some [MkSequenced 1 "p/f1"])
    by (vm_compute; reflexivity).
  assert (Hc : cached waiting_ex) by (intros fc r Hr; discriminate Hr). specialize (H Hc).
  destruct (route_ops _ _ _ ops waiting_ex) as [a1 rs1], (route_ops _ _ _ (List.filter keeps_cache ops) waiting_ex) as [a2 rs2]. destruct H as (E & _). cbn [fst] in *.
  rewrite E. exact Hx.
Defined.
Lemma tail_call_result_delivered_witness :
  let hops := [MkHop [] tail_call_ex "f2"] in
  let a1 := (route_ops "db" len_ex encode_log_ex (chain_ops "f1" hops ++ [announced_ex; RT_LoseCache; RT_Purge "e2"]) waiting_ex).1 in
  (ec_pending_results <$> sv_connections (xm_server (api_manager (route_op "db" len_ex encode_log_ex (RT_Completed "f2" answer_ex) a1).1)) !! "e1") = Some [MkSequenced 1 "p/f1"].
Proof.
  intros hops a1.
  assert (Hconn : sv_connections (xm_server (api_manager a1)) !! "e1" = Some new_connection) by (vm_compute; reflexivity).
  assert (Hal : parent_alive (ss_db (xm_store (api_manager waiting_ex))) (MkPendingCall "p" "f1" "e1") (Some ref_ex) (Some "r") = true) by (vm_compute; reflexivity).
  pose proof (tail_call_result_delivered "db" len_ex encode_log_ex waiting_ex "f1" (MkPendingCall "p" "f1" "e1") hops [announced_ex; RT_LoseCache; RT_Purge "e2"] answer_ex (Some value_ex)
    new_connection eq_refl) as H.
  assert (Hc : cached waiting_ex) by (intros fc r Hr; discriminate Hr).
  specialize (H Hc eq_refl). assert (Hok : chain_ok (ss_db (xm_store (api_manager waiting_ex))) (MkPendingCall "p" "f1" "e1") "f1" hops).
  { split; [apply Forall_nil; exact I|]. split; [reflexivity|]. split; [exact Hal|exact I]. }
  specialize (H Hok). assert (Hh : Forall (harmless (ss_db (xm_store (api_manager waiting_ex))) "f2" (MkPendingCall "p" "f1" "e1")) [announced_ex; RT_LoseCache; RT_Purge "e2"]).
  { repeat apply Forall_cons_2; [|exact I|discriminate|apply Forall_nil; exact I]. right. right. split; [discriminate|exact Hal]. }
  specialize (H Hh Hal eq_refl Hconn ltac:(vm_compute; discriminate)). change (chain_end "f1" hops) with "f2" in H.
  change ((route_ops "db" len_ex encode_log_ex (chain_ops "f1" hops ++ [announced_ex; RT_LoseCache; RT_Purge "e2"]) waiting_ex).1) with a1 in H.
  destruct (route_op "db" len_ex encode_log_ex (RT_Completed "f2" answer_ex) a1) as [a2 ans]. destruct H as (_ & _ & H). cbn [fst]. rewrite (H "e1"). reflexivity.
Defined.
