(* ===== verification/ExecutorApi.v ===== *)
(** * The executor API

    [executor_api.rs] with [executor_api/report_processing.rs] and
    [executor_api/heartbeat_helpers.rs]: the heartbeat of an executor with the reports it
    carries, from the check of every message to the payloads written for the scheduler,
    and the two long-poll requests.

    Errors are their messages, since the code tells malformed reports from other failures
    by the text.  What a handler reads from outside is in a [HeartbeatEnv]. *)
From Stdlib Require Import Ascii.
From stdpp Require Import pretty.
From S2P Require Import Prelude DataModel Updates InMemoryState SchedulerState ContainerScheduler FunctionRuns StateMachine Scanner Outbox Delivery StateStore ProtoConvert CommandEmission ExecutorManager ResultRouting.
Open Scope string_scope.
Open Scope list_scope.
Open Scope call_scope.
Open Scope Z_scope.

(** ** Messages *)

Inductive Response :=
| RS_ContainerStarted (container_id : string)
| RS_ContainerTerminated (container_id : string) (reason : Z)
| RS_AllocationScheduled (allocation_id : string)
| RS_SnapshotCompleted (container_id snapshot_id snapshot_uri : string) (size_bytes : Z)
| RS_SnapshotFailed (container_id snapshot_id error_message : string).
Record CommandResponse := MkCommandResponse {
  cr_command_seq : option Z;
  cr_response : option Response;
}.
Inductive Outcome :=
| OC_Completed (completed : AllocationCompleted)
| OC_Failed (failed : AllocationFailed).
(** [AllocationOutcome] is its optional [Outcome]. *)
Record HeartbeatRequest := MkHeartbeatRequest {
  hr_executor_id : option string;
  hr_status : option Z;
  hr_full_state : option DataplaneStateFullSync;
  hr_command_responses : list CommandResponse;
  hr_allocation_outcomes : list (option Outcome);
  hr_allocation_log_entries : list AllocationLogEntry;
}.

(** ** Malformed reports *)

Definition ascii_lower (c : ascii) : ascii :=
  let n := nat_of_ascii c in if (Nat.leb 65 n && Nat.leb n 90)%nat then ascii_of_nat (n + 32) else c.
Fixpoint to_ascii_lowercase (s : string) : string :=
  match s with "" => "" | String c s => String (ascii_lower c) (to_ascii_lowercase s) end.
Definition is_malformed_payload_error (message : string) : bool :=
  let m := to_ascii_lowercase message in
  contains "missing " m || contains " is empty" m || contains "invalid" m || contains "malformed" m.

Definition proto_container_termination_to_internal (r : ContainerTerminationReasonPb) : ContainerTerminationReason :=
  match r with
  | TR_Unknown => CTR_Unknown
  | TR_StartupFailedInternalError => CTR_StartupFailedInternalError
  | TR_StartupFailedFunctionError => CTR_StartupFailedFunctionError
  | TR_StartupFailedFunctionTimeout => CTR_StartupFailedFunctionTimeout
  | TR_Unhealthy => CTR_Unhealthy
  | TR_InternalError => CTR_InternalError
  | TR_FunctionTimeout => CTR_FunctionTimeout
  | TR_FunctionCancelled => CTR_FunctionCancelled
  | TR_Oom => CTR_Oom
  | TR_ProcessCrash => CTR_ProcessCrash
  | TR_StartupFailedBadImage => CTR_StartupFailedBadImage
  end.

(** The published state, the clocks and the fresh ids; the numbers name the report, the
    operation in it and the argument of that. *)
Record HeartbeatEnv := MkHeartbeatEnv {
  he_app : InMemoryState * ContainerScheduler;
  he_now : Instant;
  he_now_ms : Z;
  he_fresh : nat → nat → nat → string;
  he_fresh_root : nat → string;
}.

Inductive AllocationIngestDisposition := AD_Applied | AD_SkippedNoop.

Section api.
Context `{HO : HashOrder} (compute_next_fire_time : string → Z → result string Z).
Context (url_host : string → option (option string)) (blob_store : string → string * string).
Context (encode : CommandBody → Bytes) (encoded_len : Sequenced → Z) (encode_log : AllocationLogEntry → Bytes).
Context (db_error : string) (show_error : WriteError → string).
Context (env : HeartbeatEnv).

Definition submit (p : RequestPayload) : Call unit := api_write compute_next_fire_time show_error (he_app env).1 (he_now_ms env) p.
Definition write_dataplane_results (e : ExecutorId) (events : list AllocationOutputIngestedEvent) (updates : list ContainerStateUpdateInfo) (started : list ContainerId) : Call unit :=
  submit (RP_DataplaneResults (MkDataplaneResultsIngestedEvent e events updates started)).
Definition handle_snapshot_completed (snapshot_id snapshot_uri : string) (size_bytes : Z) : Call unit :=
  if bool_decide (snapshot_id = "") then call_err "SnapshotCompleted: snapshot_id is empty"
  else if bool_decide (snapshot_uri = "") then call_err "SnapshotCompleted: snapshot_uri is empty"
  else submit (RP_CompleteSnapshot snapshot_id snapshot_uri size_bytes).
Definition handle_snapshot_failed (snapshot_id error : string) : Call unit :=
  if bool_decide (snapshot_id = "") then call_err "SnapshotFailed: snapshot_id is empty"
  else submit (RP_FailSnapshot snapshot_id error).

(** Go on after an error; it counts as a failed item unless it is a malformed report. *)
Definition count_failure (m : Call unit) : Call nat := λ a,
  match m a with
  | (a1, Ok _) => (a1, Ok 0%nat)
  | (a1, Err e) => (a1, Ok (if is_malformed_payload_error e then 0 else 1)%nat)
  end.

(** ** Command responses *)

Record Collected := MkCollected {
  cl_failed : nat;
  cl_updates : list ContainerStateUpdateInfo;
  cl_started : list ContainerId;
}.
Definition collect_response (resp : CommandResponse) (acc : Collected) : Call Collected :=
  match cr_response resp with
  | None | Some (RS_AllocationScheduled _) => call_ret acc
  | Some (RS_ContainerTerminated id reason) =>
      let reason := proto_container_termination_to_internal (enum_get termination_reasons TR_Unknown (Some reason)) in
      call_ret (MkCollected (cl_failed acc) (cl_updates acc ++ [MkContainerStateUpdateInfo id (Some reason)]) (cl_started acc))
  | Some (RS_ContainerStarted id) => call_ret (MkCollected (cl_failed acc) (cl_updates acc) (cl_started acc ++ [id]))
  | Some (RS_SnapshotCompleted _ id uri size) =>
      n <~ count_failure (handle_snapshot_completed id uri size);; call_ret (MkCollected (cl_failed acc + n) (cl_updates acc) (cl_started acc))
  | Some (RS_SnapshotFailed _ id error) =>
      n <~ count_failure (handle_snapshot_failed id error);; call_ret (MkCollected (cl_failed acc + n) (cl_updates acc) (cl_started acc))
  end.
Fixpoint collect_responses (l : list CommandResponse) (acc : Collected) : Call Collected :=
  match l with
  | [] => call_ret acc
  | resp :: l => acc <~ collect_response resp acc;; collect_responses l acc
  end.
Definition process_command_responses (e : ExecutorId) (l : list CommandResponse) : Call nat :=
  acc <~ collect_responses l (MkCollected 0 [] []);;
  match cl_updates acc, cl_started acc with
  | [], [] => call_ret (cl_failed acc)
  | updates, started => write_dataplane_results e [] updates started ~;; call_ret (cl_failed acc)
  end.

(** ** Outcomes of allocations *)

Definition read_allocation (ns app req id : string) : Call (option Allocation) :=
  db_op db_error ~;; gets (λ a, get_allocation (ss_db (xm_store (api_manager a))) (allocation_key ns app req id)).
(** The ids every outcome must have. *)
Record OutcomeIds := MkOutcomeIds { oi_namespace : string; oi_application : string; oi_fn_name : string; oi_request_id : string; oi_function_call_id : string }.
Definition outcome_ids (what : string) (function : option FunctionRef) (request_id function_call_id : option string) : result string OutcomeIds :=
  function ?<- ok_or function (what +:+ " missing function");;
  namespace ?<- ok_or (ref_namespace function) (what +:+ " missing namespace");;
  application ?<- ok_or (ref_application_name function) (what +:+ " missing application_name");;
  fn_name ?<- ok_or (ref_function_name function) (what +:+ " missing function_name");;
  request_id ?<- ok_or request_id (what +:+ " missing request_id");;
  function_call_id ?<- ok_or function_call_id (what +:+ " missing function_call_id");;
  Ok (MkOutcomeIds namespace application fn_name request_id function_call_id).

(** The value or the graph updates a completion returns. *)
Definition convert_return (item : nat) (ids : OutcomeIds) (rv : option ReturnValue) : result string (option DataPayload * option GraphUpdates) :=
  match rv with
  | Some (RV_Value dp) =>
      let '(scheme, url) := blob_store (oi_namespace ids) in
      p ?<- prepare_data_payload url_host (he_fresh env item 0%nat 0%nat) dp scheme url;; Ok (Some p, None)
  | Some (RV_Updates us) =>
      ops ?<- to_compute_ops url_host blob_store (he_fresh env item) (eps_updates us) (oi_function_call_id ids);;
      Ok (None, Some (MkGraphUpdates ops (default (he_fresh_root env item) (eps_root_function_call_id us))))
  | None => Ok (None, None)
  end.
Definition process_allocation_completed (item : nat) (e : ExecutorId) (c : AllocationCompleted) : Call AllocationIngestDisposition :=
  ids <~ call_lift (outcome_ids "AllocationCompleted" (ac_function c) (ac_request_id c) (ac_function_call_id c));;
  allocation <~ read_allocation (oi_namespace ids) (oi_application ids) (oi_request_id ids) (ac_allocation_id c);;
  match allocation with
  | None => call_ret AD_SkippedNoop
  | Some al =>
      out <~ call_lift (convert_return item ids (ac_return_value c));;
      write_dataplane_results e
        [MkAllocationOutputIngestedEvent (oi_namespace ids) (oi_application ids) (oi_fn_name ids) (oi_request_id ids) (oi_function_call_id ids)
           out.1 out.2 None (al_id al) (al_target al) FRO_Success (ac_execution_duration_ms c)] [] [] ~;;
      call_ret AD_Applied
  end.
Definition process_allocation_failed (item : nat) (e : ExecutorId) (f : AllocationFailed) : Call AllocationIngestDisposition :=
  let reason := enum_get failure_reasons AFR_Unknown (Some (af_reason f)) in
  ids <~ call_lift (outcome_ids "AllocationFailed" (af_function f) (af_request_id f) (af_function_call_id f));;
  allocation <~ read_allocation (oi_namespace ids) (oi_application ids) (oi_request_id ids) (af_allocation_id f);;
  match allocation with
  | None => call_ret AD_SkippedNoop
  | Some al =>
      let '(scheme, url) := blob_store (oi_namespace ids) in
      exception <~ call_lift (transpose (λ dp, prepare_data_payload url_host (he_fresh env item 0%nat 0%nat) dp scheme url) (af_request_error f));;
      let updates := match af_container_id f with
                     | Some cid => [MkContainerStateUpdateInfo cid (Some (proto_failure_reason_to_termination_reason reason))]
                     | None => []
                     end in
      write_dataplane_results e
        [MkAllocationOutputIngestedEvent (oi_namespace ids) (oi_application ids) (oi_fn_name ids) (oi_request_id ids) (oi_function_call_id ids)
           None None exception (al_id al) (al_target al) (FRO_Failure (proto_failure_reason_to_internal reason)) (af_execution_duration_ms f)] updates [] ~;;
      call_ret AD_Applied
  end.

(** Ingest, then route; the two outcomes differ only in what is called. *)
Definition ingest_and_route (ingest : Call AllocationIngestDisposition) (route : option (Call unit)) : Call nat := λ a,
  match ingest a with
  | (a1, Ok AD_Applied) => match route with Some m => count_failure m a1 | None => (a1, Ok 0%nat) end
  | (a1, Ok AD_SkippedNoop) => (a1, Ok 0%nat)
  | (a1, Err e) => (a1, Ok (if is_malformed_payload_error e then 0 else 1)%nat)
  end.
Definition process_outcome (item : nat) (e : ExecutorId) (o : option Outcome) : Call nat :=
  match o with
  | Some (OC_Completed c) =>
      ingest_and_route (process_allocation_completed item e c) ((λ fc, try_route_result db_error encoded_len encode_log fc c) <$> ac_function_call_id c)
  | Some (OC_Failed f) =>
      ingest_and_route (process_allocation_failed item e f) ((λ fc, try_route_failure db_error encoded_len encode_log fc f) <$> af_function_call_id f)
  | None => call_ret 0%nat
  end.
Definition process_log_entry (item : nat) (e : ExecutorId) (entry : AllocationLogEntry) : Call nat :=
  count_failure (handle_log_entry compute_next_fire_time url_host blob_store db_error show_error (he_app env).1 (he_now_ms env) (he_fresh env item) (he_fresh_root env item) e entry).
(** Process the items in turn and add up the failures; the items are numbered from
    [item]. *)
Fixpoint process_items {A} (f : nat → A → Call nat) (item : nat) (l : list A) : Call nat :=
  match l with
  | [] => call_ret 0%nat
  | x :: l => n <~ f item x;; rest <~ process_items f (S item) l;; call_ret (n + rest)%nat
  end.
Definition process_allocation_outcomes (item : nat) (e : ExecutorId) (l : list (option Outcome)) : Call nat := process_items (λ i, process_outcome i e) item l.
Definition process_allocation_log_entries (item : nat) (e : ExecutorId) (l : list AllocationLogEntry) : Call nat := process_items (λ i, process_log_entry i e) item l.

(** ** The heartbeat *)

Definition report_failure (failed_items : nat) : string := "heartbeat ingestion failed for " +:+ pretty failed_items +:+ " report item(s)".
Definition process_heartbeat_reports (e : ExecutorId) (known : bool) (r : HeartbeatRequest) : Call unit :=
  if known then
    n1 <~ (λ a, match hr_command_responses r with
                | [] => (a, Ok 0%nat)
                | l => match process_command_responses e l a with (a1, Ok n) => (a1, Ok n) | (a1, Err _) => (a1, Ok 1%nat) end
                end);;
    n2 <~ process_allocation_log_entries 0 e (hr_allocation_log_entries r);;
    n3 <~ process_allocation_outcomes (length (hr_allocation_log_entries r)) e (hr_allocation_outcomes r);;
    if bool_decide (0 < n1 + n2 + n3)%nat then call_err (report_failure (n1 + n2 + n3)) else call_ret tt
  else call_ret tt.

(** A step of the executor manager, with the next fault deciding its write. *)
Definition resolve_executor_known (e : ExecutorId) (full : option DataplaneStateFullSync) : Call bool :=
  match full with
  | Some full => λ a,
      let '(m, r) := handle_full_state compute_next_fire_time url_host blob_store encode encoded_len (default true (head (api_faults a))) (he_app env) (he_now_ms env) e full (api_manager a) in
      (a <| api_manager := m |> <| api_faults ::= if is_ok (full_state_from_pb e full) then tail else id |>, match r with Ok _ => Ok true | Err err => Err err end)
  | None => gets (λ a, bool_decide (is_Some (xm_runtime_data (api_manager a) !! e)))
  end.
(** [deregister_executor] with the purge of the routes of the executor. *)
Definition deregister_and_purge (e : ExecutorId) : Call unit := λ a,
  let registered := bool_decide (is_Some (xm_runtime_data (api_manager a) !! e)) in
  let '(m, ok) := deregister_executor_internal compute_next_fire_time (default true (head (api_faults a))) (he_app env).1 (he_now_ms env) e (api_manager a) in
  let a1 := a <| api_manager := m |> <| api_faults ::= if registered then tail else id |> in
  if ok then (call_catch (purge_executor db_error e) (λ _, call_ret 0%nat) ~;; call_ret tt) a1 else (a1, Err "failed to deregister stopped executor").
Definition maybe_deregister_stopped_executor (e : ExecutorId) (status : option ExecutorStatus) : Call bool :=
  match status with
  | Some ESt_Stopped => deregister_and_purge e ~;; call_ret true
  | _ => call_ret false
  end.
(** [take_full_state_request] on the connection of the executor. *)
Definition take_request (e : ExecutorId) : Call bool := λ a,
  match sv_connections (xm_server (api_manager a)) !! e with
  | Some conn =>
      let '(b, conn') := take_full_state_request conn in
      (a <| api_manager ::= λ m, m <| xm_server ::= λ s, s <| sv_connections ::= <[e := conn']> |> |> |>, Ok b)
  | None => (a, Ok false)
  end.
(** The answer is [send_state]. *)
Definition heartbeat (r : HeartbeatRequest) : Call bool :=
  e <~ call_lift (ok_or (hr_executor_id r) "executor_id required");;
  let status := hr_status r ≫= enum_try_from executor_statuses in
  modify (λ a, a <| api_manager ::= heartbeat_v2 (he_now env) e |>) ~;;
  known <~ resolve_executor_known e (hr_full_state r);;
  report <~ (λ a, let '(a1, res) := process_heartbeat_reports e known r a in (a1, Ok res));;
  stopped <~ maybe_deregister_stopped_executor e status;;
  if stopped : bool then call_lift report ~;; call_ret false
  else
    call_lift report ~;;
    if known : bool then take_request e else call_ret true.

(** ** Long polls *)

Definition poll_commands_rpc (e : ExecutorId) (acked : option Z) : Call (list Command) :=
  modify (λ a, a <| api_manager ::= heartbeat_v2 (he_now env) e |>) ~;;
  λ a,
    match sv_connections (xm_server (api_manager a)) !! e with
    | None => (a, Err "executor not registered")
    | Some _ => let '(s, items) := poll_commands encoded_len (xm_server (api_manager a)) e acked in (a <| api_manager ::= λ m, m <| xm_server := s |> |>, Ok items)
    end.
Definition poll_allocation_results_rpc (e : ExecutorId) (acked : option Z) : Call (list Sequenced) :=
  modify (λ a, a <| api_manager ::= heartbeat_v2 (he_now env) e |>) ~;;
  λ a,
    match sv_connections (xm_server (api_manager a)) !! e with
    | None => (a, Err "executor not registered")
    | Some _ => let '(s, items) := poll_results encoded_len (xm_server (api_manager a)) e acked in (a <| api_manager ::= λ m, m <| xm_server := s |> |>, Ok items)
    end.
End api.

(** ** What the handling of reports leaves alone *)

(** [m] keeps the value of [f]. *)
Definition keeps {A B} (f : Api → B) (m : Call A) : Prop := ∀ a, f (m a).1 = f a.
Section keeps.
Context {B : Type} (f : Api → B).
Lemma keeps_pure {A} (r : result string A) : keeps f (call_lift r).
Proof. done. Qed.
Lemma keeps_ret {A} (x : A) : keeps f (call_ret x).
Proof. done. Qed.
Lemma keeps_err {A} e : keeps f (@call_err A e).
Proof. done. Qed.
Lemma keeps_gets {A} (g : Api → A) : keeps f (gets g).
Proof. done. Qed.
Lemma keeps_modify g : (∀ a, f (g a) = f a) → keeps f (modify g).
Proof. done. Qed.
Lemma keeps_bind {A C} (m : Call A) (k : A → Call C) : keeps f m → (∀ x, keeps f (k x)) → keeps f (call_bind m k).
Proof. intros Hm Hk a. unfold call_bind. specialize (Hm a). destruct (m a) as [a1 [x|e]]; [|done]. by rewrite Hk. Qed.
Lemma keeps_catch {A} (m : Call A) h : keeps f m → (∀ e, keeps f (h e)) → keeps f (call_catch m h).
Proof. intros Hm Hh a. unfold call_catch. specialize (Hm a). destruct (m a) as [a1 [x|e]]; [done|]. by rewrite Hh. Qed.
Lemma keeps_count m : keeps f m → keeps f (count_failure m).
Proof. intros Hm a. unfold count_failure. specialize (Hm a). by destruct (m a) as [a1 [x|e]]. Qed.
Lemma keeps_ingest m route : keeps f m → (∀ k, route = Some k → keeps f k) → keeps f (ingest_and_route m route).
Proof.
  intros Hm Hr a. unfold ingest_and_route. specialize (Hm a). destruct (m a) as [a1 [[|]|e]]; [|done|done].
  destruct route as [k|]; [|done]. rewrite (keeps_count k); [done|by apply Hr].
Qed.
Lemma keeps_items {A} (g : nat → A → Call nat) l : (∀ i x, keeps f (g i x)) → ∀ item, keeps f (process_items g item l).
Proof.
  intros Hg. induction l as [|x l IH]; intros item; [done|]. cbn [process_items]. apply keeps_bind; [done|]. intros n. apply keeps_bind; [done|]. done.
Qed.
End keeps.
Create HintDb keeps.
#[export] Hint Resolve keeps_pure keeps_ret keeps_err keeps_gets keeps_modify keeps_bind keeps_catch keeps_count : keeps.
(** Apply the rules for the combinators and split what is decided by data. *)
Ltac keep_step := match goal with
  | |- keeps _ (match ?x with _ => _ end) => destruct x
  | |- keeps _ (let _ := _ in _) => cbv zeta
  | |- ∀ _, _ => intro
  | |- keeps _ _ => solve [eauto with keeps nocore] || (first [apply keeps_bind|apply keeps_catch|apply keeps_count])
  end.
Ltac keep := repeat keep_step.

Section registrations.
Context `{HO : HashOrder} (compute_next_fire_time : string → Z → result string Z).
Context (url_host : string → option (option string)) (blob_store : string → string * string).
Context (encode : CommandBody → Bytes) (encoded_len : Sequenced → Z) (encode_log : AllocationLogEntry → Bytes).
Context (db_error : string) (show_error : WriteError → string).
Context (env : HeartbeatEnv).
(** The registered executors. *)
Definition registrations (a : Api) : gmap ExecutorId Z := xm_runtime_data (api_manager a).

Lemma db_op_keeps : keeps registrations (db_op db_error).
Proof. intros a. unfold db_op. by destruct (api_faults a). Qed.
Lemma register_keeps fc p o e : keeps registrations (register db_error fc p o e).
Proof. unfold register, upsert_function_call_route. repeat (apply keeps_bind; [|intro]); [apply db_op_keeps|done..]. Qed.
Lemma register_from_parent_keeps fc p o e ctx : keeps registrations (register_from_parent db_error fc p o e ctx).
Proof.
  unfold register_from_parent, lookup_route, get_function_call_route, is_allocation_alive_for_request, or_insert.
  pose proof db_op_keeps. pose proof register_keeps. keep; intros a; cbn; try (by destruct (api_pending a !! fc)).
Qed.
Lemma take_route_keeps fc : keeps registrations (take_route db_error fc).
Proof. unfold take_route, take_function_call_route, get_function_call_route, delete_function_call_route. pose proof db_op_keeps. keep; done. Qed.
Lemma deliver_keeps fc r entry : keeps registrations (deliver db_error encoded_len encode_log fc r entry).
Proof.
  intros a. unfold deliver, push_result_to_executor. destruct (sv_connections _ !! _) as [conn|]; [|done]. destruct (push_result encoded_len conn _); [done|].
  rewrite (keeps_bind registrations); [done| |done]. apply keeps_catch; [apply register_keeps|done].
Qed.
Lemma parent_alive_keeps p function request_id : keeps registrations (is_parent_allocation_alive db_error p function request_id).
Proof. unfold is_parent_allocation_alive, is_allocation_alive_for_request. pose proof db_op_keeps. keep; done. Qed.
Lemma try_route_result_keeps fc c : keeps registrations (try_route_result db_error encoded_len encode_log fc c).
Proof. unfold try_route_result. pose proof take_route_keeps. pose proof deliver_keeps. pose proof parent_alive_keeps. pose proof register_keeps. keep. Qed.
Lemma try_route_failure_keeps fc f : keeps registrations (try_route_failure db_error encoded_len encode_log fc f).
Proof. unfold try_route_failure. pose proof take_route_keeps. pose proof deliver_keeps. pose proof parent_alive_keeps. keep. Qed.
Lemma submit_keeps p : keeps registrations (submit compute_next_fire_time show_error env p).
Proof. intros a. unfold submit, api_write. by destruct (write _ _ _ _ _ _). Qed.
Lemma register_calls_keeps ids al e ctx : keeps registrations (register_calls db_error ids al e ctx).
Proof. pose proof register_from_parent_keeps. induction ids; cbn [register_calls]; keep. Qed.
Lemma process_log_entry_keeps item e entry : keeps registrations (process_log_entry compute_next_fire_time url_host blob_store db_error show_error env item e entry).
Proof. unfold process_log_entry, handle_log_entry. pose proof register_calls_keeps. pose proof submit_keeps as Hs. unfold submit in Hs. keep. Qed.
Lemma process_outcome_keeps item e o : keeps registrations (process_outcome compute_next_fire_time url_host blob_store encoded_len encode_log db_error show_error env item e o).
Proof.
  pose proof db_op_keeps. pose proof submit_keeps. unfold process_outcome, process_allocation_completed, process_allocation_failed, read_allocation, write_dataplane_results.
  destruct o as [[c|f]|]; [| |done]; (apply keeps_ingest; [keep; done|]).
  - intros k Hk. destruct (ac_function_call_id c); [|done]. injection Hk as <-. apply try_route_result_keeps.
  - intros k Hk. destruct (af_function_call_id f); [|done]. injection Hk as <-. apply try_route_failure_keeps.
Qed.
Lemma process_command_responses_keeps e l : keeps registrations (process_command_responses compute_next_fire_time show_error env e l).
Proof.
  pose proof submit_keeps. unfold process_command_responses, write_dataplane_results.
  assert (Hc : ∀ acc, keeps registrations (collect_responses compute_next_fire_time show_error env l acc)).
  { induction l as [|x l IH]; intros acc; [done|]. cbn [collect_responses]. unfold collect_response, handle_snapshot_completed, handle_snapshot_failed. keep. }
  keep.
Qed.
Lemma process_reports_keeps e known r :
  keeps registrations (process_heartbeat_reports compute_next_fire_time url_host blob_store encoded_len encode_log db_error show_error env e known r).
Proof.
  unfold process_heartbeat_reports. destruct known; [|done]. apply keeps_bind.
  { intros a. pose proof (process_command_responses_keeps e (hr_command_responses r) a) as H. destruct (hr_command_responses r); [done|]. by destruct (process_command_responses _ _ _ _ _ a) as [a1 [n|er]]. }
  intros n. apply keeps_bind; [apply keeps_items; intros; apply process_log_entry_keeps|]. intros n2. apply keeps_bind; [apply keeps_items; intros; apply process_outcome_keeps|].
  intros n3. keep.
Qed.
End registrations.

(** ** What a report asks for *)

Section reports.
Context (url_host : string → option (option string)) (blob_store : string → string * string) (env : HeartbeatEnv).

(** The payload a report stands for: none for a report without effect, an error for one
    that cannot be converted. *)
Definition log_request (item : nat) (entry : AllocationLogEntry) : result string (option RequestPayload) :=
  match ale_entry entry with
  | Some (LE_CallFunction call) =>
      namespace ?<- ok_or (fcr_namespace call) "CallFunction missing namespace";;
      application ?<- ok_or (fcr_application call) "CallFunction missing application";;
      request_id ?<- ok_or (fcr_request_id call) "CallFunction missing request_id";;
      source ?<- ok_or (fcr_source_function_call_id call) "CallFunction missing source_function_call_id";;
      updates ?<- ok_or (fcr_updates call) "CallFunction missing updates";;
      ops ?<- to_compute_ops url_host blob_store (he_fresh env item) (eps_updates updates) source;;
      Ok (Some (RP_CreateFunctionCall namespace application request_id
                  (MkRequestUpdates ops (default (he_fresh_root env item) (eps_root_function_call_id updates))) source))
  | _ => Ok None
  end.
Definition stored (allocations : gmap string Allocation) (ids : OutcomeIds) (id : string) : option Allocation :=
  allocations !! allocation_key (oi_namespace ids) (oi_application ids) (oi_request_id ids) id.
Definition outcome_request (allocations : gmap string Allocation) (e : ExecutorId) (item : nat) (o : option Outcome) : result string (option RequestPayload) :=
  let results event updates := Ok (Some (RP_DataplaneResults (MkDataplaneResultsIngestedEvent e [event] updates []))) in
  match o with
  | Some (OC_Completed c) =>
      ids ?<- outcome_ids "AllocationCompleted" (ac_function c) (ac_request_id c) (ac_function_call_id c);;
      match stored allocations ids (ac_allocation_id c) with
      | None => Ok None
      | Some al =>
          out ?<- convert_return url_host blob_store env item ids (ac_return_value c);;
          results (MkAllocationOutputIngestedEvent (oi_namespace ids) (oi_application ids) (oi_fn_name ids) (oi_request_id ids) (oi_function_call_id ids)
                     out.1 out.2 None (al_id al) (al_target al) FRO_Success (ac_execution_duration_ms c)) []
      end
  | Some (OC_Failed f) =>
      let reason := enum_get failure_reasons AFR_Unknown (Some (af_reason f)) in
      ids ?<- outcome_ids "AllocationFailed" (af_function f) (af_request_id f) (af_function_call_id f);;
      match stored allocations ids (af_allocation_id f) with
      | None => Ok None
      | Some al =>
          exception ?<- transpose (λ dp, prepare_data_payload url_host (he_fresh env item 0%nat 0%nat) dp (blob_store (oi_namespace ids)).1 (blob_store (oi_namespace ids)).2)
                          (af_request_error f);;
          results (MkAllocationOutputIngestedEvent (oi_namespace ids) (oi_application ids) (oi_fn_name ids) (oi_request_id ids) (oi_function_call_id ids)
                     None None exception (al_id al) (al_target al) (FRO_Failure (proto_failure_reason_to_internal reason)) (af_execution_duration_ms f))
            (match af_container_id f with
             | Some cid => [MkContainerStateUpdateInfo cid (Some (proto_failure_reason_to_termination_reason reason))]
             | None => []
             end)
      end
  | None => Ok None
  end.
Definition snapshot_request (resp : CommandResponse) : option RequestPayload :=
  match cr_response resp with
  | Some (RS_SnapshotCompleted _ id uri size) => if bool_decide (id = "") || bool_decide (uri = "") then None else Some (RP_CompleteSnapshot id uri size)
  | Some (RS_SnapshotFailed _ id error) => if bool_decide (id = "") then None else Some (RP_FailSnapshot id error)
  | _ => None
  end.
Definition reported_end (resp : CommandResponse) : option ContainerStateUpdateInfo :=
  match cr_response resp with
  | Some (RS_ContainerTerminated id reason) =>
      Some (MkContainerStateUpdateInfo id (Some (proto_container_termination_to_internal (enum_get termination_reasons TR_Unknown (Some reason)))))
  | _ => None
  end.
Definition reported_start (resp : CommandResponse) : option ContainerId :=
  match cr_response resp with Some (RS_ContainerStarted id) => Some id | _ => None end.
Definition container_request (e : ExecutorId) (l : list CommandResponse) : list RequestPayload :=
  match omap reported_end l, omap reported_start l with
  | [], [] => []
  | updates, started => [RP_DataplaneResults (MkDataplaneResultsIngestedEvent e [] updates started)]
  end.

Definition asked (r : result string (option RequestPayload)) : list RequestPayload := match r with Ok (Some p) => [p] | _ => [] end.
Definition refused (r : result string (option RequestPayload)) : bool := match r with Err e => negb (is_malformed_payload_error e) | Ok _ => false end.
(** The reports of a heartbeat, numbered as they are processed. *)
Definition report_results (allocations : gmap string Allocation) (e : ExecutorId) (r : HeartbeatRequest) : list (result string (option RequestPayload)) :=
  imap log_request (hr_allocation_log_entries r) ++
  imap (λ i, outcome_request allocations e (length (hr_allocation_log_entries r) + i)) (hr_allocation_outcomes r).
Definition report_payloads (allocations : gmap string Allocation) (e : ExecutorId) (r : HeartbeatRequest) : list RequestPayload :=
  omap snapshot_request (hr_command_responses r) ++ container_request e (hr_command_responses r) ++ concat (asked <$> report_results allocations e r).
Definition acceptable (allocations : gmap string Allocation) (e : ExecutorId) (r : HeartbeatRequest) : bool :=
  negb (existsb refused (report_results allocations e r)).
End reports.

(** ** Heartbeats without database errors *)

Section ingestion.
Context `{HO : HashOrder} (compute_next_fire_time : string → Z → result string Z).
Context (url_host : string → option (option string)) (blob_store : string → string * string).
Context (encode : CommandBody → Bytes) (encoded_len : Sequenced → Z) (encode_log : AllocationLogEntry → Bytes).
Context (db_error : string) (show_error : WriteError → string).
Context (env : HeartbeatEnv).
Local Notation api_store a := (xm_store (api_manager a)).
Local Notation allocations a := (db_allocations (ss_db (api_store a))).
Local Notation payloads a := ((queue (api_store a)).*2).

(** The state is healthy and the queue has room for [n] payloads. *)
Definition healthy (n : nat) (a : Api) : Prop :=
  quiet a ∧ cached a ∧ queue_wf (api_store a) ∧ 0 ≤ ss_payload_seq (api_store a) ∧ ss_payload_seq (api_store a) + Z.of_nat n < u64_max.
(** [a'] differs from [a] by the payloads [ps] at the end of the queue, by routes and by
    results. *)
Definition grown (ps : list RequestPayload) (a a' : Api) : Prop :=
  (∀ n, healthy (length ps + n) a → healthy n a') ∧ payloads a' = payloads a ++ ps ∧ allocations a' = allocations a.

Lemma grown_refl a : grown [] a a.
Proof. split_and!; [done|by rewrite app_nil_r|done]. Qed.
Lemma grown_trans ps qs a b c : grown ps a b → grown qs b c → grown (ps ++ qs) a c.
Proof.
  intros (H1 & H2 & H3) (G1 & G2 & G3). split_and!.
  - intros n H. apply G1, H1. by rewrite Nat.add_assoc, <-length_app.
  - by rewrite G2, H2, app_assoc.
  - congruence.
Qed.
Lemma healthy_less n m a : healthy n a → (m ≤ n)%nat → healthy m a.
Proof. intros (H1 & H2 & H3 & H4 & H5) Hle. split_and!; try done. lia. Qed.
(** An operation that leaves the store alone. *)
Lemma grown_same_store a a' : (quiet a → cached a → quiet a' ∧ cached a') → api_store a' = api_store a → grown [] a a'.
Proof.
  intros Hq Hs. split_and!.
  - intros n (H1 & H2 & H3 & H4 & H5). destruct (Hq H1 H2). unfold healthy. by rewrite Hs.
  - by rewrite Hs, app_nil_r.
  - by rewrite Hs.
Qed.

(** *** Writing a payload *)

Definition reportable (p : RequestPayload) : bool :=
  match p with RP_CreateFunctionCall _ _ _ _ _ | RP_DataplaneResults _ | RP_CompleteSnapshot _ _ _ | RP_FailSnapshot _ _ => true | _ => false end.
Lemma reportable_write_payload im db useq clock now p : reportable p = true →
  ∃ db', write_payload compute_next_fire_time im db useq clock now p = Ok (db', useq, false, None) ∧ db_allocations db' = db_allocations db.
Proof.
  intros Hp. destruct p; try done; cbn [write_payload]; try (eexists; split; [reflexivity|done]).
  - destruct (reported_snapshot im db snapshot_id) as [s|]; eexists; (split; [reflexivity|]); [|done]. unfold settle_snapshot. by destruct (snapshotted_sandbox im db _).
  - destruct (reported_snapshot im db snapshot_id) as [s|]; eexists; (split; [reflexivity|]); [|done]. unfold settle_snapshot. by destruct (snapshotted_sandbox im db _).
Qed.
Lemma reportable_persist im now s p : reportable p = true →
  let '(s', r) := persist compute_next_fire_time true im now s p None [] in is_ok r = true ∧ db_allocations (ss_db s') = db_allocations (ss_db s).
Proof.
  intros Hp. unfold persist. assert (Hq : prepare_for_persistence (ss_state_change_id_seq s) p = p) by (by destruct p). rewrite Hq.
  replace (match p with RP_CreateNameSpace name bucket region => _ | _ => _ end) with (ss_db s) by (by destruct p).
  destruct (reportable_write_payload im (ss_db s) (ss_usage_event_id_seq s) (ss_state_change_id_seq s) now p Hp) as (db1 & -> & E1).
  set (evs := if ss_export_request_events s then _ else _).
  assert (E2 : db_allocations evs.1 = db_allocations db1).
  { unfold evs. destruct (ss_export_request_events s); [|done]. unfold persist_events. apply (foldl_keeps (λ acc : Db * Z, db_allocations acc.1)). by intros [d n] x. }
  destruct evs as [db2 eseq]. cbn [fst] in E2. cbv zeta.
  match goal with |- context [persist_scheduler_command_intents ?d ?n ?l] =>
    assert (E4 : db_allocations (persist_scheduler_command_intents d n l).1 = db_allocations d);
    [unfold persist_scheduler_command_intents; apply (foldl_keeps (λ acc : Db * Z, db_allocations acc.1)); by intros [x y] z|];
    destruct (persist_scheduler_command_intents d n l) as [db4 iseq] end.
  cbn [fst] in E4. split; [done|]. change (db_allocations db4 = db_allocations (ss_db s)). rewrite E4. rewrite <-E1, <-E2. by destruct (should_enqueue p).
Qed.
Lemma submit_grown p a : reportable p = true → healthy 1 a →
  ∃ a', submit compute_next_fire_time show_error env p a = (a', Ok tt) ∧ grown [p] a a'.
Proof.
  intros Hp (Hq & Hc & Hwf & H0 & H1). unfold submit, api_write, write, notified. rewrite Hq. cbn [head default tail].
  pose proof (reportable_persist (he_app env).1 (he_now_ms env) (api_store a) p Hp) as Hok.
  destruct (persist_queue compute_next_fire_time true (he_app env).1 (he_now_ms env) (api_store a) p None [] Hwf ltac:(lia)) as [HQ HW].
  destruct (persist _ _ _ _ _ p None []) as [s' r]. destruct Hok as [Hok Hal]. destruct r as [w|er]; [|done]. cbn [fst snd] in *.
  destruct HQ as (HQ & _ & Hseq). assert (Hpp : prepare_for_persistence (ss_state_change_id_seq (api_store a)) p = p) by (by destruct p). rewrite Hpp in HQ, Hseq.
  assert (Hen : should_enqueue p = true) by (by destruct p). rewrite Hen in Hseq.
  eexists. split; [reflexivity|]. split_and!.
  - intros n (G1 & G2 & G3 & G4 & G5). split_and!; [|exact G2|exact HW| |].
    + unfold quiet in *. cbn. by rewrite G1.
    + change (0 ≤ ss_payload_seq s'). lia.
    + change (ss_payload_seq s' + Z.of_nat n < u64_max). cbn [length] in G5. lia.
  - change ((queue s').*2 = payloads a ++ [p]). rewrite HQ. unfold queue_push. rewrite Hen. cbn [queue_pop]. by rewrite fmap_app.
  - exact Hal.
Qed.

(** *** Processing an item *)

(** The number of failures [n] of an item is positive when its request is refused; it is 0
    when the request is not refused and its result fits. *)
Definition counts (fit : Prop) (refusal : bool) (n : nat) : Prop := (refusal = true → (0 < n)%nat) ∧ (fit → refusal = false → n = 0%nat).
(** The item asks for [r] and [m] does that: the payload is written, and the item counts
    as failed when [r] is refused. *)
Definition performs (r : result string (option RequestPayload)) (fit : Prop) (m : Call nat) (a : Api) : Prop :=
  ∃ a' n, m a = (a', Ok n) ∧ counts fit (refused r) n ∧ grown (asked r) a a'.
Lemma performs_exactly r fit m a : (∃ a', m a = (a', Ok (if refused r then 1 else 0)%nat) ∧ grown (asked r) a a') → performs r fit m a.
Proof. intros (a' & E & G). exists a', (if refused r then 1 else 0)%nat. split; [done|]. split; [|done]. split; [intros ->; lia|by intros _ ->]. Qed.
(** An item that writes nothing. *)
Lemma done_exactly r fit (m : Api * result string nat) a : m = (a, Ok (if refused r then 1 else 0)%nat) → asked r = [] →
  ∃ a' n, m = (a', Ok n) ∧ counts fit (refused r) n ∧ grown (asked r) a a'.
Proof. intros E H. apply (performs_exactly r fit (λ _, m) a). exists a. rewrite H. split; [done|apply grown_refl]. Qed.
(** What the result of an outcome needs to be deliverable. *)
Definition outcome_fits (o : option Outcome) : Prop :=
  match o with
  | Some (OC_Completed c) => completed_fits encoded_len encode_log c
  | Some (OC_Failed f) => failed_fits encoded_len encode_log f
  | None => True
  end.

Lemma register_calls_quiet ids allocation_id e ctx : ∀ a, quiet a → cached a →
  ∃ a', register_calls db_error ids allocation_id e ctx a = (a', Ok tt) ∧ quiet a' ∧ cached a' ∧ api_store a' = api_store a.
Proof using db_error encode_log encoded_len.
  induction ids as [|fc ids IH]; intros a Ha Hc; [by exists a|]. cbn [register_calls].
  pose proof (call_ok db_error fc allocation_id e ctx a Ha Hc) as Hok.
  destruct (route_op_inv db_error encoded_len encode_log (RT_Call fc allocation_id e ctx) a Ha Hc) as [Q1 Q2].
  pose proof (call_spec db_error encoded_len encode_log fc allocation_id e ctx a Ha Hc) as Hs. cbn [route_op] in Q1, Q2, Hs. unfold call_bind in Q1, Q2, Hs |- *.
  destruct (register_from_parent db_error fc allocation_id fc e ctx a) as [a1 [x|er]]; [|done]. cbn in Q1, Q2, Hs. destruct Hs as [Hs _].
  destruct (IH a1 Q1 Q2) as (a' & -> & H1 & H2 & H3). exists a'. split_and!; [done|done|done|congruence].
Qed.
Lemma grown_after_same a a1 a2 ps : quiet a1 → cached a1 → api_store a1 = api_store a → grown ps a1 a2 → grown ps a a2.
Proof.
  intros Q C E G. apply (grown_trans [] ps a a1 a2); [|done]. by apply grown_same_store.
Qed.
Lemma healthy_same n a a1 : quiet a1 → cached a1 → api_store a1 = api_store a → healthy n a → healthy n a1.
Proof. intros Q C E (_ & _ & H). unfold healthy. by rewrite E. Qed.
Lemma process_log_entry_performs item e entry a : healthy 1 a →
  performs (log_request url_host blob_store env item entry) True
    (process_log_entry compute_next_fire_time url_host blob_store db_error show_error env item e entry) a.
Proof using db_error encode_log encoded_len.
  intros Ha. apply performs_exactly. unfold process_log_entry, handle_log_entry, log_request, count_failure. destruct (ale_entry entry) as [[call|res]|].
  2,3: exists a; (split; [done|apply grown_refl]).
  unfold call_lift, call_bind. destruct (fcr_namespace call) as [ns|]; cbn [ok_or result_bind]; [|exists a; split; [reflexivity|apply grown_refl]].
  destruct (fcr_application call) as [app|]; cbn [ok_or result_bind]; [|exists a; split; [reflexivity|apply grown_refl]].
  destruct (fcr_request_id call) as [req|]; cbn [ok_or result_bind]; [|exists a; split; [reflexivity|apply grown_refl]].
  match goal with |- context [register_calls _ ?ids ?al ?ex ?ctx] => destruct (register_calls_quiet ids al ex ctx a) as (a1 & -> & Q & C & E); [apply Ha|apply Ha|] end.
  assert (Hnil : grown [] a a1) by (by apply grown_same_store).
  destruct (fcr_source_function_call_id call) as [source|]; cbn [ok_or result_bind]; [|exists a1; split; [reflexivity|done]].
  destruct (fcr_updates call) as [us|]; cbn [ok_or result_bind]; [|exists a1; split; [reflexivity|done]].
  destruct (to_compute_ops url_host blob_store (he_fresh env item) (eps_updates us) source) as [ops|er]; cbn [result_bind].
  2:{ exists a1. split; [|done]. cbn [refused]. by destruct (is_malformed_payload_error er). }
  destruct (submit_grown (RP_CreateFunctionCall ns app req (MkRequestUpdates ops (default (he_fresh_root env item) (eps_root_function_call_id us))) source) a1) as (a2 & E2 & G);
    [done|by apply (healthy_same 1 a)|]. unfold submit in E2. rewrite E2. exists a2. split; [done|]. by apply (grown_after_same a a1).
Qed.
Lemma read_allocation_quiet ns app req id a : quiet a →
  read_allocation db_error ns app req id a = (a, Ok (allocations a !! allocation_key ns app req id)).
Proof. intros Ha. unfold read_allocation, call_bind. by rewrite db_op_quiet. Qed.
(** Routing changes neither the payloads nor the allocations. *)
Lemma route_grown op a : quiet a → cached a → api_store (route_op db_error encoded_len encode_log op a).1 = api_store a →
  grown [] a (route_op db_error encoded_len encode_log op a).1.
Proof. intros Ha Hc E. apply grown_same_store; [|done]. intros _ _. by apply route_op_inv. Qed.
Lemma completed_route_grown fc c a : quiet a → cached a →
  ∃ a' n, count_failure (try_route_result db_error encoded_len encode_log fc c) a = (a', Ok n) ∧ (completed_fits encoded_len encode_log c → n = 0%nat) ∧ grown [] a a'.
Proof.
  intros Ha Hc. pose proof (completed_answer db_error encoded_len encode_log fc c a Ha Hc) as Hans.
  pose proof (completed_spec db_error encoded_len encode_log fc c a Ha Hc) as Hs. pose proof (route_grown (RT_Completed fc c) a Ha Hc) as Hg. cbn [route_op] in *. unfold count_failure.
  destruct (try_route_result _ _ _ _ _ a) as [a' ans]. cbn in *. destruct Hs as [Hs _].
  destruct ans as [[]|er]; (eexists _, _; split; [reflexivity|]; split; [|by apply Hg]); [done|]. intros Hfit. destruct (Hans Hfit) as [E|E]; [done|]. by injection E as ->.
Qed.
Lemma failed_route_grown fc f a : quiet a → cached a →
  ∃ a' n, count_failure (try_route_failure db_error encoded_len encode_log fc f) a = (a', Ok n) ∧ (failed_fits encoded_len encode_log f → n = 0%nat) ∧ grown [] a a'.
Proof.
  intros Ha Hc. pose proof (failed_answer db_error encoded_len encode_log fc f a Ha Hc) as Hans.
  pose proof (failed_spec db_error encoded_len encode_log fc f a Ha Hc) as Hs. pose proof (route_grown (RT_Failed fc f) a Ha Hc) as Hg. cbn [route_op] in *. unfold count_failure.
  destruct (try_route_failure _ _ _ _ _ a) as [a' ans]. cbn in *. destruct Hs as [Hs _].
  destruct ans as [[]|er]; (eexists _, _; split; [reflexivity|]; split; [|by apply Hg]); [done|]. intros Hfit. by specialize (Hans Hfit).
Qed.
Lemma outcome_ids_call what function request_id fc ids : outcome_ids what function request_id fc = Ok ids → fc = Some (oi_function_call_id ids).
Proof.
  unfold outcome_ids. destruct function as [f|]; cbn; [|done]. destruct (ref_namespace f); cbn; [|done]. destruct (ref_application_name f); cbn; [|done].
  destruct (ref_function_name f); cbn; [|done]. destruct request_id; cbn; [|done]. destruct fc; cbn; [|done]. by intros [= <-].
Qed.
Lemma process_outcome_performs item e o a : healthy 1 a →
  performs (outcome_request url_host blob_store env (allocations a) e item o) (outcome_fits o)
    (process_outcome compute_next_fire_time url_host blob_store encoded_len encode_log db_error show_error env item e o) a.
Proof.
  intros Ha. pose proof Ha as (Hq & Hc & _). unfold performs, process_outcome, outcome_request, ingest_and_route. destruct o as [[c|f]|].
  - unfold process_allocation_completed, call_lift. unfold call_bind at 1.
    destruct (outcome_ids _ _ _ _) as [ids|er] eqn:Eids; cbn [result_bind]; [|apply done_exactly; [by cbn [refused]; destruct (is_malformed_payload_error er)|done]].
    apply outcome_ids_call in Eids. rewrite Eids. cbn [fmap option_fmap option_map]. rewrite (bind_ok _ _ _ _ _ (read_allocation_quiet _ _ _ _ a Hq)). unfold stored.
    destruct (allocations a !! _) as [al|]; [|by apply done_exactly]. unfold call_bind.
    destruct (convert_return _ _ _ _ _ _) as [out|er]; cbn [result_bind]; [|apply done_exactly; [by cbn [refused]; destruct (is_malformed_payload_error er)|done]].
    unfold write_dataplane_results. match goal with |- context [submit _ _ _ ?p a] => destruct (submit_grown p a) as (a1 & -> & G); [done|done|] end. unfold call_ret.
    destruct (completed_route_grown (oi_function_call_id ids) c a1) as (a2 & n & E2 & N & G2); [apply (proj1 G 0%nat), Ha|apply (proj1 G 0%nat), Ha|].
    exists a2, n. split; [done|]. split; [split; [discriminate|auto]|]. apply (grown_trans _ [] a a1 a2 G G2).
  - unfold process_allocation_failed, call_lift. unfold call_bind at 1.
    destruct (outcome_ids _ _ _ _) as [ids|er] eqn:Eids; cbn [result_bind]; [|apply done_exactly; [by cbn [refused]; destruct (is_malformed_payload_error er)|done]].
    apply outcome_ids_call in Eids. rewrite Eids. cbn [fmap option_fmap option_map]. rewrite (bind_ok _ _ _ _ _ (read_allocation_quiet _ _ _ _ a Hq)). unfold stored.
    destruct (allocations a !! _) as [al|]; [|by apply done_exactly]. destruct (blob_store (oi_namespace ids)) as [scheme url]. unfold call_bind. cbn [fst snd].
    destruct (transpose _ _) as [out|er]; cbn [result_bind]; [|apply done_exactly; [by cbn [refused]; destruct (is_malformed_payload_error er)|done]].
    unfold write_dataplane_results. match goal with |- context [submit _ _ _ ?p a] => destruct (submit_grown p a) as (a1 & -> & G); [done|done|] end. unfold call_ret.
    destruct (failed_route_grown (oi_function_call_id ids) f a1) as (a2 & n & E2 & N & G2); [apply (proj1 G 0%nat), Ha|apply (proj1 G 0%nat), Ha|].
    exists a2, n. split; [done|]. split; [split; [discriminate|auto]|]. apply (grown_trans _ [] a a1 a2 G G2).
  - by apply done_exactly.
Qed.

(** *** Processing a list of items *)

(** The healthy state has room for what the items ask for, and each item performs its
    own request; what it asks for may depend on the stored allocations, which do not
    change. *)
Lemma asked_length rs : (length (concat (asked <$> rs)) ≤ length rs)%nat.
Proof. induction rs as [|[[p|]|er] rs IH]; cbn; lia. Qed.
Lemma process_items_performs {A} (f : nat → A → Call nat) (req : gmap string Allocation → nat → A → result string (option RequestPayload)) (fit : A → Prop) :
  (∀ item x a, healthy 1 a → performs (req (allocations a) item x) (fit x) (f item x) a) →
  ∀ l item a, healthy (length l) a →
  let rs := imap (λ i, req (allocations a) (item + i)%nat) l in
  ∃ a' n, process_items f item l a = (a', Ok n) ∧ counts (Forall fit l) (existsb refused rs) n ∧ grown (concat (asked <$> rs)) a a'.
Proof.
  intros Hf l. induction l as [|x l IH]; intros item a Ha; cbn [process_items].
  { exists a, 0%nat. split_and!; [done|done|apply grown_refl]. }
  destruct (Hf item x a) as (a1 & m & E1 & N1 & G1); [by eapply healthy_less; [exact Ha|cbn; lia]|].
  assert (H1 : healthy (length l) a1).
  { apply (proj1 G1). eapply healthy_less; [exact Ha|]. pose proof (asked_length [req (allocations a) item x]) as Hl. cbn in Hl |- *. rewrite app_nil_r in Hl. lia. }
  destruct (IH (S item) a1 H1) as (a2 & n & E2 & N2 & G2). exists a2, (m + n)%nat.
  rewrite (bind_ok _ _ _ _ _ E1), (bind_ok _ _ _ _ _ E2). split; [done|]. replace (allocations a1) with (allocations a) in * by (symmetry; apply G1).
  cbn [imap]. rewrite Nat.add_0_r.
  replace (imap ((λ i, req (allocations a) (item + i)%nat) ∘ S) l) with (imap (λ i, req (allocations a) (S item + i)%nat) l)
    by (apply imap_ext; intros i y _; cbn; by rewrite Nat.add_succ_r).
  split; [|cbn [fmap list_fmap concat]; by apply (grown_trans _ _ a a1 a2)].
  cbn [existsb]. destruct N1 as [P1 Z1], N2 as [P2 Z2]. split.
  - intros [H|H]%orb_true_iff; [specialize (P1 H)|specialize (P2 H)]; lia.
  - intros [Hx Hl]%Forall_cons [H1' H2']%orb_false_iff. by rewrite Z1, Z2.
Qed.

(** *** Command responses *)

Lemma collect_response_grown resp acc a : healthy 1 a →
  ∃ a', collect_response compute_next_fire_time show_error env resp acc a =
        (a', Ok (MkCollected (cl_failed acc) (cl_updates acc ++ option_list (reported_end resp)) (cl_started acc ++ option_list (reported_start resp)))) ∧
        grown (option_list (snapshot_request resp)) a a'.
Proof.
  intros Ha. unfold collect_response, reported_end, reported_start, snapshot_request. destruct acc as [n us ss]. cbn [cl_failed cl_updates cl_started].
  destruct (cr_response resp) as [[id|id reason|id|c id uri size|c id error]|]; cbn [option_list]; rewrite ?app_nil_r;
    try (exists a; split; [reflexivity|apply grown_refl]).
  - unfold call_bind, count_failure, handle_snapshot_completed. destruct (bool_decide (id = "")); [exists a; split; [by cbn; rewrite Nat.add_0_r|apply grown_refl]|].
    destruct (bool_decide (uri = "")); [exists a; split; [by cbn; rewrite Nat.add_0_r|apply grown_refl]|].
    destruct (submit_grown (RP_CompleteSnapshot id uri size) a) as (a1 & -> & G); [done|done|]. exists a1. split; [by rewrite Nat.add_0_r|done].
  - unfold call_bind, count_failure, handle_snapshot_failed. destruct (bool_decide (id = "")); [exists a; split; [by cbn; rewrite Nat.add_0_r|apply grown_refl]|].
    destruct (submit_grown (RP_FailSnapshot id error) a) as (a1 & -> & G); [done|done|]. exists a1. split; [by rewrite Nat.add_0_r|done].
Qed.
Lemma omap_cons_list {A B} (f : A → option B) x l : omap f (x :: l) = option_list (f x) ++ omap f l.
Proof. cbn. by destruct (f x). Qed.
Lemma length_option_list {A} (o : option A) : (length (option_list o) ≤ 1)%nat.
Proof. destruct o; cbn; lia. Qed.
Lemma collect_responses_grown l : ∀ acc a, healthy (length l) a →
  ∃ a', collect_responses compute_next_fire_time show_error env l acc a =
        (a', Ok (MkCollected (cl_failed acc) (cl_updates acc ++ omap reported_end l) (cl_started acc ++ omap reported_start l))) ∧
        grown (omap snapshot_request l) a a'.
Proof.
  induction l as [|resp l IH]; intros acc a Ha; cbn [collect_responses].
  { exists a. cbn. rewrite !app_nil_r. split; [by destruct acc|apply grown_refl]. }
  destruct (collect_response_grown resp acc a) as (a1 & E1 & G1); [by eapply healthy_less; [exact Ha|cbn; lia]|].
  edestruct IH as (a2 & E2 & G2).
  { apply (proj1 G1 (length l)). eapply healthy_less; [exact Ha|]. pose proof (length_option_list (snapshot_request resp)). cbn. lia. }
  exists a2. rewrite (bind_ok _ _ _ _ _ E1), E2. cbn [cl_failed cl_updates cl_started]. rewrite !omap_cons_list, !app_assoc.
  split; [done|]. by apply (grown_trans _ _ a a1 a2).
Qed.
Lemma process_command_responses_grown e l a : healthy (S (length l)) a →
  ∃ a', process_command_responses compute_next_fire_time show_error env e l a = (a', Ok 0%nat) ∧
        grown (omap snapshot_request l ++ container_request e l) a a'.
Proof.
  intros Ha. unfold process_command_responses, container_request.
  destruct (collect_responses_grown l (MkCollected 0 [] []) a) as (a1 & E1 & G1); [by eapply healthy_less; [exact Ha|lia]|].
  rewrite (bind_ok _ _ _ _ _ E1). cbn [cl_failed cl_updates cl_started app].
  assert (H1 : healthy 1 a1). { apply (proj1 G1). eapply healthy_less; [exact Ha|]. pose proof (length_omap_le snapshot_request l). lia. }
  assert (Hw : ∀ us ss, ∃ a', (write_dataplane_results compute_next_fire_time show_error env e [] us ss ~;; call_ret 0%nat) a1 = (a', Ok 0%nat) ∧
    grown (omap snapshot_request l ++ [RP_DataplaneResults (MkDataplaneResultsIngestedEvent e [] us ss)]) a a').
  { intros us ss. unfold write_dataplane_results, call_bind.
    destruct (submit_grown (RP_DataplaneResults (MkDataplaneResultsIngestedEvent e [] us ss)) a1) as (a2 & -> & G2); [done|done|].
    exists a2. split; [done|]. by apply (grown_trans _ _ a a1 a2). }
  destruct (omap reported_end l); [destruct (omap reported_start l)|]; try apply Hw.
  exists a1. by rewrite app_nil_r.
Qed.

(** *** The heartbeat *)

(** The answer is an error when a report is refused, and only then, as long as the
    results of the outcomes fit. *)
Definition judged (al : gmap string Allocation) (e : ExecutorId) (r : HeartbeatRequest) {A} (ans : result string A) : Prop :=
  (is_ok ans = true → acceptable url_host blob_store env al e r = true) ∧
  (Forall outcome_fits (hr_allocation_outcomes r) → acceptable url_host blob_store env al e r = true → is_ok ans = true).
Lemma process_reports_grown e r a :
  healthy (S (length (hr_command_responses r) + length (hr_allocation_log_entries r) + length (hr_allocation_outcomes r))) a →
  ∃ a' ans, process_heartbeat_reports compute_next_fire_time url_host blob_store encoded_len encode_log db_error show_error env e true r a = (a', ans) ∧
    judged (allocations a) e r ans ∧ grown (report_payloads url_host blob_store env (allocations a) e r) a a'.
Proof.
  intros Ha. unfold process_heartbeat_reports.
  assert (Hresp : ∃ a1, (match hr_command_responses r with [] => (a, Ok 0%nat) | l => match process_command_responses compute_next_fire_time show_error env e l a with (a1, Ok n) => (a1, Ok n) | (a1, Err _) => (a1, Ok 1%nat) end end : Api * result string nat) = (a1, Ok 0%nat) ∧
     grown (omap snapshot_request (hr_command_responses r) ++ container_request e (hr_command_responses r)) a a1).
  { destruct (process_command_responses_grown e (hr_command_responses r) a) as (a1 & E & G); [eapply healthy_less; [exact Ha|lia]|].
    destruct (hr_command_responses r); [exists a; split; [done|apply grown_refl]|]. rewrite E. by exists a1. }
  destruct Hresp as (a1 & E1 & G1). rewrite (bind_ok _ _ _ _ _ E1).
  assert (L1 : (length (omap snapshot_request (hr_command_responses r) ++ container_request e (hr_command_responses r)) ≤ S (length (hr_command_responses r)))%nat).
  { rewrite length_app. pose proof (length_omap_le snapshot_request (hr_command_responses r)). unfold container_request. destruct (omap reported_end _), (omap reported_start _); cbn; lia. }
  destruct (process_items_performs (λ i, process_log_entry compute_next_fire_time url_host blob_store db_error show_error env i e) (λ _, log_request url_host blob_store env) (λ _, True)
    (λ i x b, process_log_entry_performs i e x b) (hr_allocation_log_entries r) 0%nat a1) as (a2 & n2 & E2 & N2 & G2).
  { apply (proj1 G1). eapply healthy_less; [exact Ha|lia]. }
  cbv zeta beta in N2, G2. cbn [Nat.add] in N2, G2.
  change (λ i : nat, log_request url_host blob_store env i) with (log_request url_host blob_store env) in N2, G2. unfold process_allocation_log_entries, process_allocation_outcomes. rewrite (bind_ok _ _ _ _ _ E2).
  pose proof (asked_length (imap (log_request url_host blob_store env) (hr_allocation_log_entries r))) as L2. rewrite length_imap in L2.
  destruct (process_items_performs (λ i, process_outcome compute_next_fire_time url_host blob_store encoded_len encode_log db_error show_error env i e)
    (λ al, outcome_request url_host blob_store env al e) outcome_fits (λ i x b, process_outcome_performs i e x b) (hr_allocation_outcomes r) (length (hr_allocation_log_entries r)) a2) as (a3 & n3 & E3 & N3 & G3).
  { apply (proj1 G2), (proj1 G1). eapply healthy_less; [exact Ha|lia]. }
  rewrite (bind_ok _ _ _ _ _ E3). replace (allocations a2) with (allocations a) in * by (rewrite (proj2 (proj2 G2)); symmetry; apply G1). cbv zeta beta in N3, G3.
  exists a3, (if bool_decide (0 < 0 + n2 + n3)%nat then Err (report_failure (0 + n2 + n3)) else Ok tt). split; [destruct (bool_decide (0 < 0 + n2 + n3)%nat); reflexivity|]. split.
  - unfold judged, acceptable, report_results. rewrite existsb_app. destruct N2 as [P2 Z2], N3 as [P3 Z3]. split.
    + case_bool_decide as Hn; [done|]. intros _. apply negb_true_iff, orb_false_iff. split; apply not_true_iff_false; intros H; [specialize (P2 H)|specialize (P3 H)]; lia.
    + intros Hfit Hacc. apply negb_true_iff, orb_false_iff in Hacc as [H2 H3]. rewrite Z2, Z3 by (try done; by apply Forall_true). done.
  - unfold report_payloads, report_results. rewrite fmap_app, concat_app, app_assoc.
    apply (grown_trans _ _ a a1 a3 G1). by apply (grown_trans _ _ a1 a2 a3).
Qed.

(** A heartbeat that carries reports only: the executor is registered and goes on. *)
Record reporting (e : ExecutorId) (r : HeartbeatRequest) (a : Api) : Prop := {
  reporting_healthy : healthy (S (length (hr_command_responses r) + length (hr_allocation_log_entries r) + length (hr_allocation_outcomes r))) a;
  reporting_id : hr_executor_id r = Some e;
  reporting_no_state : hr_full_state r = None;
  reporting_registered : is_Some (xm_runtime_data (api_manager a) !! e);
  reporting_running : hr_status r ≫= enum_try_from executor_statuses ≠ Some ESt_Stopped;
}.
Lemma heartbeat_reports e r a : reporting e r a →
  ∃ a' ans, heartbeat compute_next_fire_time url_host blob_store encode encoded_len encode_log db_error show_error env r a = (a', ans) ∧
    grown (report_payloads url_host blob_store env (allocations a) e r) a a' ∧ registrations a' = registrations a ∧
    judged (allocations a) e r ans.
Proof.
  intros [Ha He Hfull Hreg Hst]. set (a0 := a <| api_manager ::= heartbeat_v2 (he_now env) e |>).
  destruct (process_reports_grown e r a0 Ha) as (a1 & ans & E1 & Hok & G).
  pose proof (process_reports_keeps compute_next_fire_time url_host blob_store encoded_len encode_log db_error show_error env e true r a0) as K. rewrite E1 in K. cbn [fst] in K.
  change (allocations a0) with (allocations a) in *. change (registrations a0) with (registrations a) in K.
  assert (G1 : grown (report_payloads url_host blob_store env (allocations a) e r) a a1) by (apply (grown_trans [] _ a a0 a1); [by apply grown_same_store|exact G]).
  unfold heartbeat, resolve_executor_known, maybe_deregister_stopped_executor. rewrite He, Hfull. cbn [ok_or]. unfold call_lift at 1. unfold call_bind at 1. unfold call_bind at 1, modify. fold a0.
  unfold call_bind at 1, gets. change (xm_runtime_data (api_manager a0)) with (xm_runtime_data (api_manager a)). rewrite bool_decide_eq_true_2 by done.
  unfold call_bind at 1. rewrite E1.
  replace (match hr_status r ≫= enum_try_from executor_statuses with Some ESt_Stopped => _ | _ => _ end) with (@call_ret bool false)
    by (by destruct (hr_status r ≫= enum_try_from executor_statuses) as [[]|]).
  unfold call_ret, call_bind, call_lift. destruct ans as [[]|er]; [|by exists a1, (Err er)]. unfold judged in *. cbn [is_ok] in Hok.
  unfold take_request. destruct (sv_connections _ !! e) as [conn|]; [|by exists a1, (Ok false)]. destruct (take_full_state_request conn) as [b conn'].
  eexists _, (Ok b). split; [reflexivity|]. split; [|by split]. rewrite <-(app_nil_r (report_payloads _ _ _ _ _ _)). apply (grown_trans _ [] a a1 _ G1). by apply grown_same_store.
Qed.

(** C21: a heartbeat queues exactly what its reports ask for.  The executor is
    registered, does not stop and sends no full state; the database has no errors.  Then
    the payloads of the reports are appended to the queue of the scheduler in the order
    snapshots, containers, calls, outcomes, each with the stored allocation and the
    converted data; a report of an unknown allocation and a malformed one add nothing.
    This holds of results of any size, also when the answer is an error.  The answer is an
    error when some report was refused for another reason than being malformed; it is
    an error only then, as long as the result of every outcome in the heartbeat fits a poll
    response: one that does not is queued, and the heartbeat fails all the same when a
    parent waits for it ([oversized_result_fails_heartbeat]). *)
Theorem heartbeat_queues_reports e r a : reporting e r a →
  let '(a', ans) := heartbeat compute_next_fire_time url_host blob_store encode encoded_len encode_log db_error show_error env r a in
  payloads a' = payloads a ++ report_payloads url_host blob_store env (allocations a) e r ∧ allocations a' = allocations a ∧
  (is_ok ans = true → acceptable url_host blob_store env (allocations a) e r = true) ∧
  (Forall outcome_fits (hr_allocation_outcomes r) → acceptable url_host blob_store env (allocations a) e r = true → is_ok ans = true).
Proof. intros Hr. destruct (heartbeat_reports e r a Hr) as (a' & ans & -> & (_ & G) & _ & Hok). by destruct G, Hok. Qed.

(** A report that can never be read is retried for ever.  The conversion of a payload
    without a uri fails with a message that [is_malformed_payload_error] does not
    recognise, so the heartbeat that carries it fails in every state in which the
    allocation is stored, and each attempt queues the other reports of the heartbeat
    once more. *)
Theorem unreadable_report_blocks_heartbeats e r a c dp ids : reporting e r a →
  Some (OC_Completed c) ∈ hr_allocation_outcomes r →
  outcome_ids "AllocationCompleted" (ac_function c) (ac_request_id c) (ac_function_call_id c) = Ok ids →
  is_Some (stored (allocations a) ids (ac_allocation_id c)) → ac_return_value c = Some (RV_Value dp) → dpb_uri dp = None →
  let '(a', ans) := heartbeat compute_next_fire_time url_host blob_store encode encoded_len encode_log db_error show_error env r a in
  is_ok ans = false ∧ payloads a' = payloads a ++ report_payloads url_host blob_store env (allocations a) e r.
Proof.
  intros Hr Hc Hids [al Hal] Hv Hu. destruct (heartbeat_reports e r a Hr) as (a' & ans & -> & (_ & H1 & _) & _ & [J _]). split; [|done].
  apply not_true_iff_false. intros Hok. specialize (J Hok). revert J. apply not_true_iff_false. unfold acceptable. apply negb_false_iff, existsb_exists. exists (Err "uri is required"). split; [|reflexivity].
  apply list_elem_of_In. unfold report_results. apply elem_of_app. right. apply list_elem_of_lookup in Hc as [i Hi]. apply list_elem_of_lookup. exists i.
  rewrite list_lookup_imap, Hi. cbn [fmap option_fmap option_map]. unfold outcome_request. rewrite Hids. cbn [result_bind]. rewrite Hal. unfold convert_return. rewrite Hv.
  destruct (blob_store (oi_namespace ids)) as [scheme url]. unfold prepare_data_payload. by rewrite Hu.
Qed.
End ingestion.

(** *** Witnesses *)

(** The executor of [waiting_ex] reports that a container started, announces a call, and
    reports the outcome of the allocation [p] and of one the server does not know. *)
Definition heartbeat_env_ex : HeartbeatEnv := MkHeartbeatEnv (empty_state, new_scheduler [] []) 1 1 (λ _ _ _, "id") (λ _, "root").
Definition announce_ex : AllocationLogEntry :=
  MkAllocationLogEntry "p" 0 (Some (LE_CallFunction (MkFunctionCallRequest (Some "ns") (Some "app") (Some "r") (Some (MkExecutionPlanUpdates [] (Some "f3"))) (Some "f0")))).
Definition finished_ex (id : string) : AllocationCompleted := MkAllocationCompleted id (Some ref_ex) (Some "f0") (Some "r") (Some (RV_Value value_ex)) None.
Definition reports_ex : HeartbeatRequest :=
  MkHeartbeatRequest (Some "e1") None None [MkCommandResponse (Some 1) (Some (RS_ContainerStarted "k1"))]
    [Some (OC_Completed (finished_ex "p")); Some (OC_Completed (finished_ex "q"))] [announce_ex].
Definition payload_kind (p : RequestPayload) : string :=
  match p with
  | RP_CreateFunctionCall _ _ _ _ _ => "call"
  | RP_DataplaneResults ev => "results " +:+ String.concat "," (dr_container_started_ids ev ++ (ao_allocation_id <$> dr_allocation_events ev))
  | _ => "other"
  end.
Lemma reporting_ex : reporting "e1" reports_ex waiting_ex.
Proof.
  constructor; [|reflexivity..|eexists; reflexivity|discriminate]. split; [reflexivity|]. split; [intros fc r Hr; discriminate Hr|].
  split; [intros k x Hk; discriminate Hk|]. split; [vm_compute; discriminate|vm_compute; reflexivity].
Qed.
Lemma heartbeat_queues_reports_witness :
  let '(a', ans) := @heartbeat canonical_order no_cron no_host file_store (λ _, "") (λ _, 1) encode_log_ex "db" (λ _, "") heartbeat_env_ex reports_ex waiting_ex in
  is_ok ans = true ∧ (payload_kind <$> (queue (xm_store (api_manager a'))).*2) = ["results k1"; "call"; "results a1"].
Proof.
  pose proof (@heartbeat_queues_reports canonical_order no_cron no_host file_store (λ _, "") (λ _, 1) encode_log_ex "db" (λ _, "") heartbeat_env_ex "e1" reports_ex waiting_ex
    reporting_ex) as H.
  destruct (heartbeat _ _ _ _ _ _ _ _ _ _ _) as [a' ans]. destruct H as (H1 & _ & _ & H2). split; [apply H2; [|vm_compute; reflexivity]|rewrite H1; vm_compute; reflexivity].
  repeat constructor; intros parent call v _ seq; vm_compute; discriminate.
Defined.

(** The child [a1] of the waiting allocation returns a value that is too large for a poll
    response. *)
Definition child_ex : Api := waiting_ex <| api_manager ::= λ m, m <| xm_store ::= λ s, s <| ss_db ::= λ d,
  d <| db_allocations ::= <[allocation_key "ns" "app" "r" "a1" := allocation_ex]> |> |> |> |>.
Definition large_report_ex : HeartbeatRequest :=
  MkHeartbeatRequest (Some "e1") None None [] [Some (OC_Completed (MkAllocationCompleted "a1" (Some ref_ex) (Some "f1") (Some "r") (Some (RV_Value value_ex)) None))] [].
Definition large_heartbeat_ex (a : Api) : Api * result string bool :=
  @heartbeat canonical_order no_cron no_host file_store (λ _, "") (λ _, MAX_POLL_RESPONSE_BYTES + 1) encode_log_ex "db" (λ _, "") heartbeat_env_ex large_report_ex a.
(** An outcome is queued before its result is routed to the parent.  When the result is
    too large for a poll response, routing fails after that and the route is put
    back: the heartbeat fails, the executor sends it again, it fails again, and each time
    the same outcome is queued once more. *)
Theorem oversized_result_fails_heartbeat :
  let '(a1, ans1) := large_heartbeat_ex child_ex in
  let '(a2, ans2) := large_heartbeat_ex a1 in
  is_ok ans1 = false ∧ is_ok ans2 = false ∧ (payload_kind <$> (queue (xm_store (api_manager a2))).*2) = ["results a1"; "results a1"].
Proof. vm_compute. split_and!; reflexivity. Qed.

(** A failure that is going to be retried reaches the parent as the result of the call.
    The run goes back to the pending ones, since its retries are not used up; but the
    parent gets a failure at once, and the value of the retry is not delivered. *)
Definition outcome_ex (entry : AllocationLogEntry) : Bytes :=
  match ale_entry entry with
  | Some (LE_FunctionCallResult res) => if bool_decide (fcx_outcome_code res = Some OUTCOME_FAILURE) then "failure" else "success"
  | _ => ""
  end.
Theorem retried_failure_reported_to_parent :
  let failed := MkAllocationFailed "a1" 2 (Some ref_ex) (Some "f1") (Some "r") None None None in
  let run := fail_all (version_ex 2) (function_run_ex "f1" "v1" (FRS_Running "a1")) [proto_failure_reason_to_internal (enum_get failure_reasons AFR_Unknown (Some 2))] in
  let '(a1, ans1) := try_route_failure "db" len_ex outcome_ex "f1" failed waiting_ex in
  let '(a2, ans2) := try_route_result "db" len_ex outcome_ex "f1" (finished_ex "a2") a1 in
  let delivered a := ec_pending_results <$> sv_connections (xm_server (api_manager a)) !! "e1" in
  fr_status run = FRS_Pending ∧ fr_outcome run = None ∧ ans1 = Ok tt ∧ delivered a1 = Some [MkSequenced 1 "failure"] ∧ ans2 = Ok tt ∧ delivered a2 = delivered a1.
Proof. vm_compute. repeat split. Qed.
