(* ===== verification/StateReporter.v ===== *)
(** * The heartbeat loop of the dataplane

    [dataplane/src/state_reporter.rs] and the heartbeat loop of [dataplane/src/service.rs]:
    the buffers of reports, the heartbeats that carry them in fragments, and the state of
    the connection.

    The loop is modelled against an interface, [ReportServer], of which the executor API
    is an instance.  Reports that arrive while a heartbeat is under way are an argument of
    the fragment. *)
From S2P Require Import Prelude DataModel Updates InMemoryState SchedulerState ContainerScheduler FunctionRuns StateMachine Scanner Outbox Delivery StateStore ProtoConvert CommandEmission ExecutorManager ResultRouting ExecutorApi.
Open Scope string_scope.
Open Scope list_scope.
Open Scope Z_scope.

(** ** Buffers of reports *)

Definition STATE_REPORT_MAX_MESSAGE_SIZE : Z := 10 * 1024 * 1024.
Definition STATE_REPORT_MAX_PENDING_ITEMS : Z := 50000.

Section buffer.
Context {T : Type} (encoded_len : T → Z).

(** One item of a drainer: an item over the capacity is dropped. *)
Definition drainer_step (buf : list T) (item : T) : list T :=
  if bool_decide (STATE_REPORT_MAX_PENDING_ITEMS ≤ Z.of_nat (length buf)) then buf else buf ++ [item].
Fixpoint collect_loop (pending batch : list T) (current_size : Z) : list T :=
  match pending with
  | [] => batch
  | item :: pending =>
      let item_size := encoded_len item in
      if bool_decide (batch = []) then collect_loop pending (batch ++ [item]) (current_size + item_size)
      else if bool_decide (current_size + item_size < STATE_REPORT_MAX_MESSAGE_SIZE)
      then collect_loop pending (batch ++ [item]) (current_size + item_size)
      else batch
  end.
(** The items, their number and whether some remain. *)
Definition collect_items (buf : list T) (base_message_size : Z) : list T * nat * bool :=
  match buf with
  | [] => ([], 0%nat, false)
  | _ => let batch := collect_loop buf [] base_message_size in (batch, length batch, bool_decide (length batch < length buf)%nat)
  end.
Definition drain_sent (count : nat) (buf : list T) : list T :=
  if bool_decide (count = 0%nat) then buf else drop (Nat.min count (length buf)) buf.
Definition size_of (l : list T) : Z := foldr Z.add 0 (encoded_len <$> l).
End buffer.

Record StateReporter := MkStateReporter {
  sr_responses : list CommandResponse;
  sr_activities : list AllocationLogEntry;
  sr_outcomes : list (option Outcome);
}.
(** Reports that reach the drainers, each channel in its order. *)
Definition arrive (r arrived : StateReporter) : StateReporter :=
  MkStateReporter (foldl drainer_step (sr_responses r) (sr_responses arrived)) (foldl drainer_step (sr_activities r) (sr_activities arrived))
    (foldl drainer_step (sr_outcomes r) (sr_outcomes arrived)).

(** ** What the buffers guarantee *)

Section buffer_facts.
Context {T : Type} (encoded_len : T → Z).

Lemma size_of_cons x l : size_of encoded_len (x :: l) = encoded_len x + size_of encoded_len l.
Proof. done. Qed.
(** A started batch goes on as long as it fits. *)
Lemma collect_more pending : ∀ batch size, batch ≠ [] →
  ∃ k, (k ≤ length pending)%nat ∧ collect_loop encoded_len pending batch size = batch ++ take k pending ∧
       ((0 < k)%nat → size + size_of encoded_len (take k pending) < STATE_REPORT_MAX_MESSAGE_SIZE).
Proof.
  induction pending as [|x pending IH]; intros batch size Hb; cbn [collect_loop].
  { exists 0%nat. split_and!; [done|by rewrite app_nil_r|lia]. }
  rewrite (bool_decide_eq_false_2 _ Hb). case_bool_decide as Hx; [|exists 0%nat; split_and!; [lia|by rewrite app_nil_r|lia]].
  destruct (IH (batch ++ [x]) (size + encoded_len x)) as (k & Hk & -> & Hs); [by destruct batch|]. exists (S k). cbn [take length]. split_and!; [lia|by rewrite <-app_assoc|].
  intros _. rewrite size_of_cons. destruct k as [|k]; [rewrite take_0; cbn; lia|]. specialize (Hs ltac:(lia)). lia.
Qed.
(** A collected batch is a prefix, not empty unless the buffer is, and below the limit
    unless it is a single item. *)
Lemma collect_items_spec buf base :
  let '(batch, n, remaining) := collect_items encoded_len buf base in
  batch = take n buf ∧ (n ≤ length buf)%nat ∧ remaining = bool_decide (n < length buf)%nat ∧ (buf ≠ [] → (0 < n)%nat) ∧
  ((n ≤ 1)%nat ∨ base + size_of encoded_len batch < STATE_REPORT_MAX_MESSAGE_SIZE).
Proof.
  unfold collect_items. destruct buf as [|x buf]; [split_and!; [done|done|done|done|left; lia]|]. cbn [collect_loop app]. rewrite bool_decide_eq_true_2 by done.
  destruct (collect_more buf [x] (base + encoded_len x)) as (k & Hk & -> & Hs); [done|]. cbn [app length]. rewrite length_take, Nat.min_l by lia.
  split_and!; [done|lia|done|lia|]. destruct k as [|k]; [left; lia|right]. specialize (Hs ltac:(lia)). rewrite size_of_cons. lia.
Qed.
Lemma drain_sent_spec n (buf more : list T) : (n ≤ length buf)%nat → drain_sent n (buf ++ more) = drop n buf ++ more.
Proof.
  intros Hn. unfold drain_sent. case_bool_decide; subst; [done|]. rewrite length_app, Nat.min_l by lia. by rewrite drop_app_le.
Qed.
End buffer_facts.

(** ** Reports of the three kinds *)

Definition no_reports : StateReporter := MkStateReporter [] [] [].
Definition rep_app (a b : StateReporter) : StateReporter :=
  MkStateReporter (sr_responses a ++ sr_responses b) (sr_activities a ++ sr_activities b) (sr_outcomes a ++ sr_outcomes b).
Definition rep_concat : list StateReporter → StateReporter := foldr rep_app no_reports.
Definition rep_size (a : StateReporter) : nat := length (sr_responses a) + length (sr_activities a) + length (sr_outcomes a).
Definition reports_of (r : HeartbeatRequest) : StateReporter :=
  MkStateReporter (hr_command_responses r) (hr_allocation_log_entries r) (hr_allocation_outcomes r).

Lemma rep_app_assoc a b c : rep_app a (rep_app b c) = rep_app (rep_app a b) c.
Proof. unfold rep_app. cbn. by rewrite !app_assoc. Qed.
Lemma rep_app_nil a : rep_app a no_reports = a.
Proof. unfold rep_app. cbn. rewrite !app_nil_r. by destruct a. Qed.
Lemma rep_nil_app a : rep_app no_reports a = a.
Proof. by destruct a. Qed.
Lemma rep_concat_app l k : rep_concat (l ++ k) = rep_app (rep_concat l) (rep_concat k).
Proof.
  induction l as [|x l IH]; [symmetry; apply rep_nil_app|]. change (rep_app x (rep_concat (l ++ k)) = rep_app (rep_app x (rep_concat l)) (rep_concat k)).
  by rewrite IH, rep_app_assoc.
Qed.
Lemma rep_size_app a b : rep_size (rep_app a b) = (rep_size a + rep_size b)%nat.
Proof. unfold rep_size. cbn. rewrite !length_app. lia. Qed.
Lemma rep_size_nil a : rep_size a = 0%nat → a = no_reports.
Proof. destruct a as [[|] [|] [|]]; unfold rep_size; cbn; intros; try lia. done. Qed.

(** ** The interface of the server *)

Class ReportServer (Srv : Type) := { rpc : HeartbeatRequest → Srv → Srv * result string bool }.

(** ** The service *)

Inductive ConnectionState := CN_Registering | CN_Ready | CN_Unhealthy.
#[export] Instance ConnectionState_eq : EqDecision ConnectionState.
Proof. solve_decision. Defined.

Definition HEARTBEAT_MIN_RETRY_INTERVAL : Z := 1.
Definition HEARTBEAT_MAX_RETRY_INTERVAL : Z := 5.
Definition HEARTBEAT_BACKOFF_MULTIPLIER : Z := 2.

Record ExecutorIdentity := MkExecutorIdentity {
  ei_executor_id : string;
  ei_host_resources : HostResourcesPb;
  ei_allowed_functions : list AllowedFunction;
  ei_labels : gmap string string;
  ei_proxy_address : string;
}.
(** The state the loop shares with the rest of the service, and its own. *)
Record Service := MkService {
  svc_reporter : StateReporter;
  svc_connection_state : ConnectionState;
  svc_send_full_state : bool;
  svc_retry_interval : Z;
  svc_heartbeat_healthy : bool;
  svc_ready : bool;
  svc_cursors : Dataplane;
}.
#[export] Instance eta_Service : Eta Service := λ s,
  MkService (svc_reporter s) (svc_connection_state s) (svc_send_full_state s) (svc_retry_interval s) (svc_heartbeat_healthy s) (svc_ready s) (svc_cursors s).

Section service.
Context (response_len : CommandResponse → Z) (outcome_len : option Outcome → Z) (entry_len : AllocationLogEntry → Z).
Context (hostname version : string) (identity : ExecutorIdentity).
Context `{RS : ReportServer Srv}.

Definition build_full_state (fe_states : list ContainerStatePb) : DataplaneStateFullSync :=
  MkDataplaneStateFullSync (Some hostname) (Some version) (Some (ei_host_resources identity)) (Some (ei_host_resources identity)) (ei_allowed_functions identity)
    (ei_labels identity) None (Some (ei_proxy_address identity)) fe_states.

(** What a fragment takes from the buffers. *)
Record Fragment := MkFragment { fg_request : HeartbeatRequest; fg_counts : nat * nat * nat; fg_remaining : bool }.
Definition RUNNING : Z := 2.
Definition STOPPED : Z := 4.
Definition build_fragment (full_state : option DataplaneStateFullSync) (r : StateReporter) : Fragment :=
  let '(responses, resp_count, resp_remaining) := collect_items response_len (sr_responses r) 0 in
  let base_size := size_of response_len responses in
  let '(outcomes, out_count, out_remaining) := collect_items outcome_len (sr_outcomes r) base_size in
  let base_size := base_size + size_of outcome_len outcomes in
  let '(log_entries, log_count, log_remaining) := collect_items entry_len (sr_activities r) base_size in
  MkFragment (MkHeartbeatRequest (Some (ei_executor_id identity)) (Some RUNNING) full_state responses outcomes log_entries)
    (resp_count, out_count, log_count) (resp_remaining || out_remaining || log_remaining).
Definition drain_fragment (counts : nat * nat * nat) (r : StateReporter) : StateReporter :=
  MkStateReporter (drain_sent counts.1.1 (sr_responses r)) (drain_sent counts.2 (sr_activities r)) (drain_sent counts.1.2 (sr_outcomes r)).

(** How the fragments of a heartbeat end: all sent, a failure, or a request for the full
    state. *)
Inductive Ending := EN_Sent | EN_Failed | EN_NeedsState.

(** The answer of a fragment, and how the heartbeat ends with it, if it does. *)
Definition handle_answer (first for_registration : bool) (f : Fragment) (answer : result string bool) (s : Service) : Service * option Ending :=
  match answer with
  | Ok send_state =>
      let s := s <| svc_retry_interval := HEARTBEAT_MIN_RETRY_INTERVAL |> <| svc_ready := true |> in
      let s := if first && bool_decide (is_Some (hr_full_state (fg_request f))) && for_registration then s <| svc_cursors ::= registered |> else s in
      if first && send_state then (s <| svc_send_full_state := true |> <| svc_connection_state := CN_Registering |>, Some EN_NeedsState)
      else
        let s := s <| svc_send_full_state := false |> <| svc_reporter ::= drain_fragment (fg_counts f) |> in
        let s := if first then s <| svc_heartbeat_healthy := true |> <| svc_connection_state := CN_Ready |> else s in
        (s, if fg_remaining f then None else Some EN_Sent)
  | Err _ => (s <| svc_heartbeat_healthy := false |> <| svc_connection_state := CN_Unhealthy |>, Some EN_Failed)
  end.

(** The fragments of one heartbeat; [arrived] are the reports that come in while the
    next fragments are under way.  [None] is a run that needs more fuel.  The trace holds
    the fragments with their answers. *)
Fixpoint send_fragments (fuel : nat) (first for_registration : bool) (full_state : option DataplaneStateFullSync) (arrived : list StateReporter) (s : Service) (srv : Srv)
    : option (Service * Srv * Ending * list (Fragment * result string bool)) :=
  match fuel with
  | O => None
  | S fuel =>
      let f := build_fragment (if first then full_state else None) (svc_reporter s) in
      let '(srv1, answer) := rpc (fg_request f) srv in
      let s1 := match arrived with x :: _ => s <| svc_reporter ::= λ r, arrive r x |> | [] => s end in
      let '(s2, e) := handle_answer first for_registration f answer s1 in
      match e with
      | Some e => Some (s2, srv1, e, [(f, answer)])
      | None =>
          '(s3, srv3, e, trace) ← send_fragments fuel false for_registration full_state (tail arrived) s2 srv1;
          Some (s3, srv3, e, (f, answer) :: trace)
      end
  end.

(** One turn of the loop up to the wait: [fe_states] are the containers of the
    dataplane. *)
Definition heartbeat_turn (fuel : nat) (fe_states : list ContainerStatePb) (arrived : list StateReporter) (s : Service) (srv : Srv)
    : option (Service * Srv * Ending * list (Fragment * result string bool)) :=
  let for_registration := svc_send_full_state s && bool_decide (svc_connection_state s = CN_Registering) in
  let full_state := if svc_send_full_state s then Some (build_full_state fe_states) else None in
  '(s1, srv1, e, trace) ← send_fragments fuel true for_registration full_state arrived s srv;
  let s2 := match e with
            | EN_Failed => s1 <| svc_retry_interval ::= λ i, Z.min (i * HEARTBEAT_BACKOFF_MULTIPLIER) HEARTBEAT_MAX_RETRY_INTERVAL |>
            | _ => s1
            end in
  Some (s2, srv1, e, trace).
Definition send_stopped_heartbeat (srv : Srv) : Srv * result string bool :=
  rpc (MkHeartbeatRequest (Some (ei_executor_id identity)) (Some STOPPED) None [] [] []) srv.


(** ** Fragments *)

(** The size of a heartbeat as the code limits it: the items of a kind stay below the limit
    together with those of the kinds before them, unless there is a single one of the
    kind; what else is in the message is not counted. *)
Definition fits (r : HeartbeatRequest) : Prop :=
  let n1 := size_of response_len (hr_command_responses r) in
  let n2 := size_of outcome_len (hr_allocation_outcomes r) in
  let n3 := size_of entry_len (hr_allocation_log_entries r) in
  ((length (hr_command_responses r) ≤ 1)%nat ∨ n1 < STATE_REPORT_MAX_MESSAGE_SIZE) ∧
  ((length (hr_allocation_outcomes r) ≤ 1)%nat ∨ n1 + n2 < STATE_REPORT_MAX_MESSAGE_SIZE) ∧
  ((length (hr_allocation_log_entries r) ≤ 1)%nat ∨ n1 + n2 + n3 < STATE_REPORT_MAX_MESSAGE_SIZE).
Definition plain (full : option DataplaneStateFullSync) (r : HeartbeatRequest) : Prop :=
  hr_executor_id r = Some (ei_executor_id identity) ∧ hr_status r = Some RUNNING ∧ hr_full_state r = full.

Lemma build_fragment_spec full r :
  let f := build_fragment full r in
  plain full (fg_request f) ∧ fits (fg_request f) ∧
  ∃ rest, r = rep_app (reports_of (fg_request f)) rest ∧ (∀ more, drain_fragment (fg_counts f) (rep_app r more) = rep_app rest more) ∧
    fg_remaining f = bool_decide (0 < rep_size rest)%nat ∧ ((0 < rep_size rest)%nat → (0 < rep_size (reports_of (fg_request f)))%nat).
Proof.
  unfold build_fragment. pose proof (collect_items_spec response_len (sr_responses r) 0) as H1. destruct (collect_items response_len _ _) as [[b1 n1] m1].
  pose proof (collect_items_spec outcome_len (sr_outcomes r) (size_of response_len b1)) as H2. destruct (collect_items outcome_len _ _) as [[b2 n2] m2].
  pose proof (collect_items_spec entry_len (sr_activities r) (size_of response_len b1 + size_of outcome_len b2)) as H3. destruct (collect_items entry_len _ _) as [[b3 n3] m3].
  destruct H1 as (E1 & L1 & -> & P1 & F1), H2 as (E2 & L2 & -> & P2 & F2), H3 as (E3 & L3 & -> & P3 & F3). cbv zeta. cbn [fg_request fg_counts fg_remaining].
  split; [by split_and!|]. split.
  { unfold fits. cbn [hr_command_responses hr_allocation_outcomes hr_allocation_log_entries]. assert (K1 : length b1 = n1) by (rewrite E1, length_take; lia). assert (K2 : length b2 = n2) by (rewrite E2, length_take; lia).
    assert (K3 : length b3 = n3) by (rewrite E3, length_take; lia). rewrite K1, K2, K3. split_and!; [destruct F1; [by left|right; lia]|done|done]. }
  exists (MkStateReporter (drop n1 (sr_responses r)) (drop n3 (sr_activities r)) (drop n2 (sr_outcomes r))). unfold rep_size, reports_of, rep_app. cbn. subst b1 b2 b3. split_and!.
  - rewrite !take_drop. by destruct r.
  - intros more. unfold drain_fragment. cbn. by rewrite !drain_sent_spec.
  - rewrite !length_drop. repeat case_bool_decide; try done; lia.
  - rewrite !length_drop, !length_take. intros H.
    assert (sr_responses r ≠ [] ∨ sr_outcomes r ≠ [] ∨ sr_activities r ≠ []) as Hne by (destruct (sr_responses r), (sr_outcomes r), (sr_activities r); cbn in *; try lia; auto).
    destruct Hne as [Hne|[Hne|Hne]]; [specialize (P1 Hne)|specialize (P2 Hne)|specialize (P3 Hne)]; lia.
Qed.


Lemma handle_answer_reporter first reg f answer s : 
  svc_reporter (handle_answer first reg f answer s).1 =
  match answer with
  | Ok send_state => if first && send_state then svc_reporter s else drain_fragment (fg_counts f) (svc_reporter s)
  | Err _ => svc_reporter s
  end.
Proof.
  unfold handle_answer. destruct answer as [send|er]; [|done]. destruct first, send, reg; cbn [andb]; destruct (bool_decide (is_Some (hr_full_state (fg_request f)))); done.
Qed.


(** ** A turn ends and sends everything *)

(** What a run of fragments without arrivals achieves. *)
Record fragments_done (r : StateReporter) (s' : Service) (e : Ending) (trace : list (Fragment * result string bool)) : Prop := {
  done_fits : Forall (λ fa, fits (fg_request fa.1)) trace;
  done_sent : e = EN_Sent → svc_reporter s' = no_reports ∧ rep_concat (reports_of ∘ fg_request ∘ fst <$> trace) = r;
  done_failed : e = EN_Failed → ∃ fa, last trace = Some fa ∧ is_ok fa.2 = false;
}.
Lemma send_fragments_ends fuel : ∀ first reg full s srv, (rep_size (svc_reporter s) < fuel)%nat →
  ∃ s' srv' e trace, send_fragments fuel first reg full [] s srv = Some (s', srv', e, trace) ∧ fragments_done (svc_reporter s) s' e trace.
Proof.
  induction fuel as [|fuel IH]; intros first reg full s srv Hfuel; [lia|]. cbn [send_fragments]. cbv zeta.
  destruct (build_fragment_spec (if first then full else None) (svc_reporter s)) as (_ & Hfits & rest & Hr & Hd & Hrem & Hpos).
  set (f := build_fragment (if first then full else None) (svc_reporter s)) in *. destruct (rpc (fg_request f) srv) as [srv1 answer].
  pose proof (handle_answer_reporter first reg f answer s) as Hrep. specialize (Hd no_reports). rewrite !rep_app_nil in Hd.
  destruct (handle_answer first reg f answer s) as [s2 en] eqn:Eh. cbn [fst] in Hrep. unfold handle_answer in Eh.
  destruct answer as [send|er]; [|injection Eh as <- <-; eexists _, _, _, _; split; [reflexivity|]; split; [by constructor|done|intros _; by eexists]].
  destruct (first && send); [injection Eh as <- <-; eexists _, _, _, _; split; [reflexivity|]; split; [by constructor|done|done]|].
  rewrite Hd in Hrep. injection Eh as _ <-. rewrite Hrem. destruct (bool_decide (0 < rep_size rest)%nat) eqn:Eb.
  - apply bool_decide_eq_true_1 in Eb. specialize (Hpos Eb). assert (Hlt : (rep_size (svc_reporter s2) < fuel)%nat) by (rewrite Hrep; rewrite Hr, rep_size_app in Hfuel; lia).
    destruct (IH false reg full s2 srv1 Hlt) as (s3 & srv3 & e3 & t3 & E3 & [D1 D2 D3]). cbn [tail]. rewrite E3. cbn. eexists _, _, _, _. split; [reflexivity|]. split.
    + by constructor.
    + intros He. destruct (D2 He) as [R1 R2]. split; [done|]. cbn. change (rep_app (reports_of (fg_request f)) (rep_concat (reports_of ∘ fg_request ∘ fst <$> t3)) = svc_reporter s).
      by rewrite R2, Hrep, <-Hr.
    + intros He. destruct (D3 He) as (fa & Hl & Hok). exists fa. split; [|done]. rewrite last_cons, Hl. done.
  - apply bool_decide_eq_false_1 in Eb. eexists _, _, _, _. split; [reflexivity|]. assert (rest = no_reports) as -> by (apply rep_size_nil; lia). split; [by constructor| |done].
    intros _. split; [done|]. cbn. by rewrite rep_app_nil, <-(rep_app_nil (reports_of _)), <-Hr.
Qed.
End service.

(** ** The promise of the server *)

(** The server queues payloads for the reports of a registered executor.  [ls_ready n]
    is a server with room for [n] payloads to which the executor is registered;
    [ls_effect i] and [ls_accepts i] are about the [i]-th request from now; [ls_fits] are
    the requests whose results can all be passed on. *)
Class LawfulServer (Srv : Type) `{RS : ReportServer Srv} (e : string) := {
  ls_ready : nat → Srv → Prop;
  ls_queued : Srv → list RequestPayload;
  ls_effect : Srv → nat → HeartbeatRequest → list RequestPayload;
  ls_accepts : Srv → nat → HeartbeatRequest → bool;
  ls_fits : HeartbeatRequest → Prop;
  ls_ready_less : ∀ n m srv, ls_ready n srv → (m ≤ n)%nat → ls_ready m srv;
  ls_law : ∀ n srv r, hr_executor_id r = Some e → hr_status r = Some RUNNING → hr_full_state r = None → ls_ready (S (rep_size (reports_of r)) + n) srv →
    let '(srv', answer) := rpc r srv in
    ls_queued srv' = ls_queued srv ++ ls_effect srv 0 r ∧ ls_ready n srv' ∧ (ls_fits r → ls_accepts srv 0 r = true → is_ok answer = true) ∧
    ∀ i r', ls_effect srv' i r' = ls_effect srv (S i) r' ∧ ls_accepts srv' i r' = ls_accepts srv (S i) r';
}.

Section client.
Context (response_len : CommandResponse → Z) (outcome_len : option Outcome → Z) (entry_len : AllocationLogEntry → Z).
Context (identity : ExecutorIdentity).
Context `{RS : ReportServer Srv} {LS : LawfulServer Srv (ei_executor_id identity)}.
Local Notation requests trace := (fg_request ∘ fst <$> (trace : list (Fragment * result string bool))).

Lemma fragments_queue fuel : ∀ first reg s srv s' srv' e trace,
  send_fragments response_len outcome_len entry_len identity fuel first reg None [] s srv = Some (s', srv', e, trace) →
  ls_ready (S (2 * rep_size (svc_reporter s))) srv →
  ls_queued srv' = ls_queued srv ++ concat (imap (ls_effect srv) (requests trace)) ∧
  ∀ i fa, trace !! i = Some fa → ls_fits (fg_request fa.1) → ls_accepts srv i (fg_request fa.1) = true → is_ok fa.2 = true.
Proof.
  induction fuel as [|fuel IH]; intros first reg s srv s' srv' e trace H Hready; [done|]. cbn [send_fragments] in H. cbv zeta in H.
  replace (if first then None else None) with (@None DataplaneStateFullSync) in H by (by destruct first).
  destruct (build_fragment_spec response_len outcome_len entry_len identity None (svc_reporter s)) as ((P1 & P2 & P3) & _ & rest & Hr & Hd & Hrem & Hpos).
  set (f := build_fragment response_len outcome_len entry_len identity None (svc_reporter s)) in *. specialize (Hd no_reports). rewrite !rep_app_nil in Hd.
  assert (Hn : (S (2 * rep_size (svc_reporter s)) = S (rep_size (reports_of (fg_request f))) + (rep_size (reports_of (fg_request f)) + 2 * rep_size rest))%nat)
    by (rewrite Hr, rep_size_app; lia). rewrite Hn in Hready.
  pose proof (ls_law _ srv (fg_request f) P1 P2 P3 Hready) as Hlaw. destruct (rpc (fg_request f) srv) as [srv1 answer]. destruct Hlaw as (Q1 & R1 & A1 & Hnext).
  pose proof (handle_answer_reporter first reg f answer s) as Hrep. destruct (handle_answer first reg f answer s) as [s2 en] eqn:Eh. cbn [fst] in Hrep. destruct en as [en|].
  - injection H as <- <- <- <-. cbn. rewrite app_nil_r. split; [done|]. intros [|i] fa; [|done]. intros [= <-]. exact A1.
  - destruct (send_fragments response_len outcome_len entry_len identity fuel false reg None (tail []) s2 srv1) as [[[[s3 srv3] e3] t3]|] eqn:E3; [|done]. cbn in H. injection H as <- <- <- <-.
    assert (Hs2 : svc_reporter s2 = rest ∧ fg_remaining f = true).
    { unfold handle_answer in Eh. destruct answer as [send|er]; [|done]. destruct (first && send); [done|]. rewrite Hd in Hrep. split; [done|]. by destruct (fg_remaining f). }
    destruct Hs2 as [Hs2 Hmore]. rewrite Hmore in Hrem. symmetry in Hrem. apply bool_decide_eq_true_1 in Hrem. specialize (Hpos Hrem).
    destruct (IH false reg s2 srv1 s3 srv3 e3 t3 E3) as [Q2 A2].
    { rewrite Hs2. eapply ls_ready_less; [exact R1|]. lia. }
    cbn [fmap list_fmap imap concat fst snd compose]. rewrite Q2, Q1, <-app_assoc. split; [do 3 f_equal; apply imap_ext; intros i r' _; apply Hnext|].
    intros [|i] fa; [intros [= <-]; exact A1|]. cbn [lookup list_lookup]. intros Hi. destruct (Hnext i (fg_request fa.1)) as [_ <-]. by apply A2.
Qed.
End client.

(** ** The executor API as the server *)

Section api_server.
Context `{HO : HashOrder} (compute_next_fire_time : string → Z → result string Z).
Context (url_host : string → option (option string)) (blob_store : string → string * string).
Context (encode : CommandBody → Bytes) (encoded_len : Sequenced → Z) (encode_log : AllocationLogEntry → Bytes).
Context (db_error : string) (show_error : WriteError → string).
(** The clock, the ids and the published state at each heartbeat. *)
Context (env : nat → HeartbeatEnv).
Local Notation api_store a := (xm_store (api_manager a)).
Local Notation allocations a := (db_allocations (ss_db (api_store a))).
Local Notation payloads a := ((queue (api_store a)).*2).

(** The service with the number of heartbeats it has answered. *)
Definition api_rpc (r : HeartbeatRequest) (srv : nat * Api) : nat * Api * result string bool :=
  let '(a, answer) := heartbeat compute_next_fire_time url_host blob_store encode encoded_len encode_log db_error show_error (env srv.1) r srv.2 in
  (S srv.1, a, answer).
#[local] Instance api_report_server : ReportServer (nat * Api) := {| rpc := api_rpc |}.

Lemma report_payloads_length k al e r : (length (report_payloads url_host blob_store k al e r) ≤ S (rep_size (reports_of r)))%nat.
Proof.
  unfold report_payloads, rep_size, reports_of. cbn [sr_responses sr_activities sr_outcomes]. rewrite !length_app.
  pose proof (length_omap_le snapshot_request (hr_command_responses r)). pose proof (asked_length (report_results url_host blob_store k al e r)) as H1.
  unfold report_results in H1 at 2. rewrite length_app, !length_imap in H1.
  assert (length (container_request e (hr_command_responses r)) ≤ 1)%nat by (unfold container_request; destruct (omap reported_end _), (omap reported_start _); cbn [length]; lia). lia.
Qed.

Context (e : string).
#[local] Instance api_lawful_server : LawfulServer (nat * Api) e.
Proof.
  refine {| ls_ready n srv := healthy n srv.2 ∧ is_Some (registrations srv.2 !! e);
            ls_queued srv := payloads srv.2;
            ls_effect srv i r := report_payloads url_host blob_store (env (srv.1 + i)%nat) (allocations srv.2) e r;
            ls_accepts srv i r := acceptable url_host blob_store (env (srv.1 + i)%nat) (allocations srv.2) e r;
            ls_fits r := Forall (outcome_fits encoded_len encode_log) (hr_allocation_outcomes r) |}.
  { intros n m srv [H1 H2] Hle. split; [by eapply healthy_less|done]. }
  intros n [k a] r He Hst Hfull [Hh Hreg]. cbn [fst snd] in *. cbn [rpc api_report_server]. unfold api_rpc. cbn [fst snd]. rewrite Nat.add_0_r.
  destruct (heartbeat_reports compute_next_fire_time url_host blob_store encode encoded_len encode_log db_error show_error (env k) e r a) as (a' & ans & -> & (G1 & G2 & G3) & K & A).
  { split; [|done|done|done|by rewrite Hst]. eapply healthy_less; [exact Hh|]. unfold rep_size, reports_of. cbn. lia. }
  cbn [fst snd]. split_and!; [done| |by rewrite K|apply A|].
  - apply G1. eapply healthy_less; [exact Hh|]. pose proof (report_payloads_length (env k) (allocations a) e r). lia.
  - intros i r'. by rewrite G3, Nat.add_succ_r.
Defined.
End api_server.

(** ** From the buffers to the scheduler *)

Section delivery.
Context `{HO : HashOrder} (compute_next_fire_time : string → Z → result string Z).
Context (url_host : string → option (option string)) (blob_store : string → string * string).
Context (encode : CommandBody → Bytes) (encoded_len : Sequenced → Z) (encode_log : AllocationLogEntry → Bytes).
Context (db_error : string) (show_error : WriteError → string) (env : nat → HeartbeatEnv).
Context (response_len : CommandResponse → Z) (outcome_len : option Outcome → Z) (entry_len : AllocationLogEntry → Z).
Context (hostname version : string) (identity : ExecutorIdentity).
Local Notation allocations a := (db_allocations (ss_db (xm_store (api_manager a)))).
Local Notation payloads a := ((queue (xm_store (api_manager a))).*2).
Local Notation e := (ei_executor_id identity).
Local Notation server := (api_report_server compute_next_fire_time url_host blob_store encode encoded_len encode_log db_error show_error env).

(** C22: reports reach the scheduler.  The executor is registered, the server is not
    asked for the state, no report comes in meanwhile, and no database operation fails.
    One turn of the heartbeat loop sends the buffers in fragments and ends.  In each
    fragment the items of a kind, with those of the kinds before it, stay below the size
    limit unless there is only one of the kind, however large; the rest of the message is
    not counted.  The queue of the scheduler grows by exactly the payloads of the
    fragments, in order, whatever the size of the results.  When the turn ends without a
    failure and without a request for the state, the buffers are empty and the fragments
    were exactly their contents.  If the results in the fragments fit a poll response, the
    turn fails only when the server refuses a report. *)
Theorem reports_reach_scheduler fe_states k a s :
  healthy (S (2 * rep_size (svc_reporter s))) a → is_Some (registrations a !! e) → svc_send_full_state s = false →
  ∃ s' k' a' en trace,
    heartbeat_turn (RS := server) response_len outcome_len entry_len hostname version identity (S (rep_size (svc_reporter s))) fe_states [] s (k, a) = Some (s', (k', a'), en, trace) ∧
    let requests := fg_request ∘ fst <$> trace in
    payloads a' = payloads a ++ concat (imap (λ i r, report_payloads url_host blob_store (env (k + i)%nat) (allocations a) e r) requests) ∧
    Forall (fits response_len outcome_len entry_len) requests ∧
    (en = EN_Sent → svc_reporter s' = no_reports ∧ rep_concat (reports_of <$> requests) = svc_reporter s) ∧
    (en = EN_Failed → Forall (λ r, Forall (outcome_fits encoded_len encode_log) (hr_allocation_outcomes r)) requests →
     existsb negb (imap (λ i r, acceptable url_host blob_store (env (k + i)%nat) (allocations a) e r) requests) = true).
Proof.
  intros Hh Hreg Hst. set (LS := api_lawful_server compute_next_fire_time url_host blob_store encode encoded_len encode_log db_error show_error env e).
  destruct (send_fragments_ends (RS := server) response_len outcome_len entry_len identity (S (rep_size (svc_reporter s))) true false None s (k, a)) as (s' & [k' a'] & en & trace & E & [D1 D2 D3]); [lia|].
  destruct (fragments_queue (RS := server) (LS := LS) response_len outcome_len entry_len identity _ _ _ _ _ _ _ _ _ E) as [Q A]; [by split|].
  unfold heartbeat_turn. rewrite Hst. cbn [andb]. rewrite E. cbn [mbind option_bind]. eexists _, k', a', en, trace. split; [reflexivity|]. cbv zeta. split_and!.
  - exact Q.
  - by apply Forall_fmap.
  - intros ->. rewrite <-list_fmap_compose. apply D2. done.
  - intros Hf Hfit. destruct (D3 Hf) as (fa & Hl & Hok). rewrite last_lookup in Hl. set (i := pred (length trace)) in Hl. specialize (A i fa Hl).
    rewrite Forall_fmap in Hfit. pose proof (Forall_lookup_1 _ _ _ _ Hfit Hl) as Hfit1. specialize (A Hfit1). rewrite Hok in A.
    apply existsb_exists. exists (acceptable url_host blob_store (env (k + i)%nat) (allocations a) e (fg_request fa.1)). split.
    + apply list_elem_of_In, list_elem_of_lookup. exists i. by rewrite list_lookup_imap, list_lookup_fmap, Hl.
    + apply negb_true_iff, not_true_iff_false. intros Hacc. by specialize (A Hacc).
Qed.
End delivery.

(** ** Reports and commands that get lost *)

Section defects.
Context (response_len : CommandResponse → Z) (outcome_len : option Outcome → Z) (entry_len : AllocationLogEntry → Z).
Context (hostname version : string) (identity : ExecutorIdentity) `{RS : ReportServer Srv}.
Local Notation turn := (heartbeat_turn response_len outcome_len entry_len hostname version identity).

Lemma fragments_keep_cursors fuel : ∀ first full arrived s srv s' srv' en trace,
  send_fragments response_len outcome_len entry_len identity fuel first false full arrived s srv = Some (s', srv', en, trace) → svc_cursors s' = svc_cursors s.
Proof.
  induction fuel as [|fuel IH]; intros first full arrived s srv s' srv' en trace H; [done|]. cbn [send_fragments] in H. cbv zeta in H.
  destruct (rpc _ srv) as [srv1 answer]. set (s1 := match arrived with [] => s | x :: _ => _ end) in H. assert (E1 : svc_cursors s1 = svc_cursors s) by (by destruct arrived).
  match type of H with context [handle_answer first false ?f answer s1] => assert (E2 : svc_cursors (handle_answer first false f answer s1).1 = svc_cursors s1);
    [|destruct (handle_answer first false f answer s1) as [s2 [e2|]]] end.
  { unfold handle_answer. rewrite andb_false_r. destruct answer as [send|]; [|done]. by destruct first, send. }
  - injection H as <- <- <- <-. cbn in E2. congruence.
  - destruct (send_fragments _ _ _ _ fuel false _ _ _ s2 srv1) as [[[[s3 srv3] e3] t3]|] eqn:E3; [|done]. cbn in H. injection H as <- <- <- <-.
    rewrite (IH _ _ _ _ _ _ _ _ _ E3). cbn in E2. congruence.
Qed.

(** Commands are lost when a registration has to be repeated.  The heartbeat with the full
    state fails, which marks the connection as unhealthy; the next one succeeds, but since
    the connection is no longer [CN_Registering], the cursors are not reset.  The
    server numbers its commands from 1 again, takes the old cursor for an
    acknowledgement, and drops the commands up to it without having delivered them. *)
Theorem failed_registration_loses_commands fuel1 fuel2 fe1 fe2 arrived1 arrived2 s s1 s2 srv srv1 srv2 srv3 f er en trace encoded_len server conn :
  svc_send_full_state s = true →
  turn fuel1 fe1 arrived1 s srv = Some (s1, srv1, EN_Failed, [(f, Err er)]) →
  turn fuel2 fe2 arrived2 s1 srv2 = Some (s2, srv3, en, trace) →
  0 < dp_last_applied_command_seq (svc_cursors s) →
  sv_connections server !! ei_executor_id identity = Some conn →
  Forall (λ c, sq_seq c ≤ dp_last_applied_command_seq (svc_cursors s)) (ec_pending_commands conn) →
  svc_send_full_state s1 = true ∧ svc_cursors s2 = svc_cursors s ∧
  let '(server', items) := poll_commands encoded_len server (ei_executor_id identity) (acked_command_seq (svc_cursors s2)) in
  items = [] ∧ (ec_pending_commands <$> sv_connections server' !! ei_executor_id identity) = Some [].
Proof.
  intros Hfull H1 H2 Hpos Hconn Hold.
  assert (Hs1 : svc_cursors s1 = svc_cursors s ∧ svc_connection_state s1 = CN_Unhealthy ∧ svc_send_full_state s1 = svc_send_full_state s).
  { unfold heartbeat_turn in H1. destruct fuel1 as [|fuel1]; [done|]. cbn [send_fragments] in H1. cbv zeta in H1. destruct (rpc _ srv) as [x answer].
    destruct answer as [send|er'].
    - destruct (handle_answer _ _ _ (Ok send) _) as [y [z|]]; [by cbn in H1; injection H1|]. destruct (send_fragments _ _ _ _ _ _ _ _ _ _ _) as [[[[? ?] ?] ?]|]; [|done]. by cbn in H1; injection H1.
    - cbn in H1. injection H1 as <- _ _ _. by destruct arrived1. }
  destruct Hs1 as (C1 & U1 & F1). assert (C2 : svc_cursors s2 = svc_cursors s1).
  { unfold heartbeat_turn in H2. rewrite U1, andb_false_r in H2. destruct (send_fragments _ _ _ _ _ _ _ _ _ _ _) as [[[[x y] z] t]|] eqn:E; [|done].
    apply fragments_keep_cursors in E. cbn in H2. injection H2 as <- _ _ _. by destruct z. }
  rewrite C2, C1, F1. split; [done|]. split; [done|]. unfold poll_commands, acked_command_seq. rewrite Hconn, bool_decide_eq_true_2 by done.
  set (k := dp_last_applied_command_seq (svc_cursors s)) in *. set (conn1 := (observe_command_ack conn (Some k)).1).
  assert (Hp : ec_pending_commands conn1 = ec_pending_commands conn) by (unfold conn1, observe_command_ack; cbn; repeat case_bool_decide; done).
  assert (Hd : ec_pending_commands (drain_commands_up_to conn1 k) = []).
  { cbn. rewrite Hp. clear -Hold. induction Hold as [|c l Hc _ IH]; [done|]. cbn. rewrite bool_decide_eq_false_2 by lia. done. }
  unfold clone_commands_capped. rewrite Hd. cbn [drop_oversized capped_clone_by_encoded_size capped_loop]. split; [done|]. cbn. by rewrite lookup_insert_eq.
Qed.
End defects.

(** ** Examples *)

Definition identity_ex : ExecutorIdentity := MkExecutorIdentity "e1" (MkHostResourcesPb (Some 4) (Some 1024) (Some 1024) None) [] ∅ "addr".
(** A response is so large that two of them do not fit one heartbeat. *)
Definition large_ex (r : CommandResponse) : Z := 6 * 1024 * 1024.
Definition started_ex (id : string) : CommandResponse := MkCommandResponse None (Some (RS_ContainerStarted id)).
Definition service_ex (r : StateReporter) : Service := MkService r CN_Ready false 1 true true (MkDataplane 7 3 []).
Definition buffers_ex : StateReporter := MkStateReporter [started_ex "k1"; started_ex "k2"] [] [].
Definition env_ex (n : nat) : HeartbeatEnv := heartbeat_env_ex.
Definition server_ex : ReportServer (nat * Api) :=
  @api_report_server canonical_order no_cron no_host file_store (λ _, "") (λ _, 1) encode_log_ex "db" (λ _, "") env_ex.
Definition turn_ex (RS : ReportServer (nat * Api)) (s : Service) (srv : nat * Api) :=
  heartbeat_turn (RS := RS) large_ex (λ _, 1) (λ _, 1) "host" "1" identity_ex 3 [] [] s srv.
Definition queued_ex (srv : nat * Api) : list string := payload_kind <$> (queue (xm_store (api_manager srv.2))).*2.

Lemma reports_reach_scheduler_witness :
  ∃ s' srv' en trace, turn_ex server_ex (service_ex buffers_ex) (0%nat, waiting_ex) = Some (s', srv', en, trace) ∧ length trace = 2%nat ∧
    queued_ex srv' = ["results k1"; "results k2"].
Proof.
  destruct (@reports_reach_scheduler canonical_order no_cron no_host file_store (λ _, "") (λ _, 1) encode_log_ex "db" (λ _, "") env_ex large_ex (λ _, 1) (λ _, 1) "host" "1" identity_ex
    [] 0 waiting_ex (service_ex buffers_ex)) as (s' & k' & a' & en & trace & E & Q & _).
  - split; [reflexivity|]. split; [intros fc r Hr; discriminate Hr|]. split; [intros k x Hk; discriminate Hk|]. split; [vm_compute; discriminate|vm_compute; reflexivity].
  - eexists. reflexivity.
  - reflexivity.
  - exists s', (k', a'), en, trace. split; [exact E|].
    assert (Et : (λ x : Service * (nat * Api) * Ending * list (Fragment * result string bool), fg_request ∘ fst <$> x.2) <$> turn_ex server_ex (service_ex buffers_ex) (0%nat, waiting_ex) =
      Some [MkHeartbeatRequest (Some "e1") (Some RUNNING) None [started_ex "k1"] [] []; MkHeartbeatRequest (Some "e1") (Some RUNNING) None [started_ex "k2"] [] []]) by (vm_compute; reflexivity).
    assert (E' : turn_ex server_ex (service_ex buffers_ex) (0%nat, waiting_ex) = Some (s', (k', a'), en, trace)) by exact E. rewrite E' in Et. cbn [fmap option_fmap option_map snd] in Et.
    injection Et as Et. split; [rewrite <-(length_fmap (fg_request ∘ fst)), Et; reflexivity|].
    unfold queued_ex. cbn [snd]. rewrite Q. rewrite Et. vm_compute. reflexivity.
Defined.

(** The executor is deregistered between two fragments: the server drops the reports of
    the second one and asks for the state, but the dataplane looks at that answer only
    for the first fragment.  The turn ends as if all was sent, and the second report is
    neither in the buffers nor in the queue. *)
Definition lapse_ex : ReportServer (nat * Api) :=
  {| rpc r srv :=
       let a := if bool_decide (srv.1 = 1%nat) then (deregister_and_purge (HO := canonical_order) no_cron "db" heartbeat_env_ex "e1" srv.2).1 else srv.2 in
       @rpc _ server_ex r (srv.1, a) |}.
Theorem late_fragment_lost :
  match turn_ex lapse_ex (service_ex buffers_ex) (0%nat, waiting_ex) with
  | Some (s', srv', en, trace) =>
      en = EN_Sent ∧ svc_reporter s' = no_reports ∧ svc_connection_state s' = CN_Ready ∧
      (snd <$> trace) = [Ok false; Ok true] ∧ queued_ex srv' = ["results k1"; "other"]
  | None => False
  end.
Proof. vm_compute. repeat split. Qed.

(** A request for the state after a regression of the acknowledgements does not mean that
    the reports were dropped: the server has queued them, the dataplane keeps them and
    sends them again. *)
Definition regressed_ex : Api :=
  waiting_ex <| api_manager ::= λ m, m <| xm_server ::= λ s, s <| sv_connections ::= alter (λ c, c <| ec_request_full_state := true |>) "e1" |> |> |>.
Theorem answered_reports_sent_again :
  match turn_ex server_ex (service_ex (MkStateReporter [started_ex "k1"] [] [])) (0%nat, regressed_ex) with
  | Some (s1, srv1, en1, _) =>
      en1 = EN_NeedsState ∧ queued_ex srv1 = ["results k1"] ∧
      match turn_ex server_ex s1 srv1 with
      | Some (s2, srv2, en2, _) => en2 = EN_Sent ∧ List.filter (λ x, bool_decide (x = "results k1")) (queued_ex srv2) = ["results k1"; "results k1"]
      | None => False
      end
  | None => False
  end.
Proof. vm_compute. repeat split. Qed.
