(* ===== verification/AllocationController.v ===== *)
(** * The allocation controller of the dataplane

    [dataplane/src/allocation_controller] with [gpu_allocator.rs],
    [function_executor/proto_convert.rs]: the one task that owns the function containers
    of an executor and the allocations that run in them.

    The controller is a state machine.  What it spawns is in [ac_tasks], and a task ends
    with an event for the controller; what it does to processes, the state file and
    cancellation tokens is in [ac_effects]; what it reports is in [ac_outcomes],
    [ac_acks] and [ac_responses], the channels that [StateReporter] drains.  Handles of
    uploads and the messages of the function executor are opaque strings. *)
From S2P Require Import Prelude DataModel ProtoConvert CommandEmission ResultRouting ExecutorApi.
Open Scope string_scope.
Open Scope list_scope.
Open Scope Z_scope.

(** ** Numbers on the wire *)

Definition failure_number (r : AllocationFailureReason) : Z :=
  match r with
  | AFR_Unknown => 0 | AFR_InternalError => 1 | AFR_FunctionError => 2 | AFR_FunctionTimeout => 3 | AFR_RequestError => 4
  | AFR_AllocationCancelled => 5 | AFR_ContainerTerminated => 6 | AFR_Oom => 7 | AFR_ConstraintUnsatisfiable => 8 | AFR_ExecutorRemoved => 9
  | AFR_StartupFailedInternalError => 10 | AFR_StartupFailedFunctionError => 11 | AFR_StartupFailedFunctionTimeout => 12 | AFR_StartupFailedBadImage => 13
  end.
Definition termination_number (r : ContainerTerminationReasonPb) : Z :=
  match r with
  | TR_Unknown => 0 | TR_StartupFailedInternalError => 1 | TR_StartupFailedFunctionError => 2 | TR_StartupFailedFunctionTimeout => 3 | TR_Unhealthy => 4
  | TR_InternalError => 5 | TR_FunctionTimeout => 6 | TR_FunctionCancelled => 7 | TR_Oom => 8 | TR_ProcessCrash => 9 | TR_StartupFailedBadImage => 10
  end.
Definition status_number (s : ContainerStatus) : Z := match s with CSt_Unknown => 0 | CSt_Pending => 1 | CSt_Running => 2 | CSt_Terminated => 3 end.

(** ** GPUs *)

Record GpuInfo := MkGpuInfo { gi_uuid : string; gi_product_name : string }.
Record GpuAllocator := MkGpuAllocator { ga_all_gpus : list GpuInfo; ga_free_gpus : list GpuInfo }.
Definition new_gpu_allocator (gpus : list GpuInfo) : GpuAllocator := MkGpuAllocator gpus gpus.
(** [free.pop()], [count] times. *)
Fixpoint pop_gpus (count : nat) (free : list GpuInfo) (uuids : list string) : list string * list GpuInfo :=
  match count with
  | O => (uuids, free)
  | S count => match last free with
               | Some gpu => pop_gpus count (removelast free) (uuids ++ [gi_uuid gpu])
               | None => (uuids, free)
               end
  end.
(** [None] is the error that there are not enough. *)
Definition allocate (count : Z) (ga : GpuAllocator) : option (list string * GpuAllocator) :=
  if bool_decide (Z.of_nat (length (ga_free_gpus ga)) < count) then None
  else let '(uuids, free) := pop_gpus (Z.to_nat count) (ga_free_gpus ga) [] in Some (uuids, MkGpuAllocator (ga_all_gpus ga) free).
Definition deallocate (uuids : list string) (ga : GpuAllocator) : GpuAllocator :=
  foldl (λ ga uuid,
    match List.find (λ g, bool_decide (gi_uuid g = uuid)) (ga_all_gpus ga) with
    | Some gpu => MkGpuAllocator (ga_all_gpus ga) (ga_free_gpus ga ++ [gpu])
    | None => ga
    end) ga uuids.

(** ** Messages and states *)

Record AllocationResult := MkAllocationResult {
  ar_function : option FunctionRef;
  ar_allocation_id : option string;
  ar_function_call_id : option string;
  ar_request_id : option string;
  ar_outcome_code : option Z;
  ar_failure_reason : option Z;
  ar_return_value : option ReturnValue;
  ar_request_error : option DataPayloadPb;
  ar_execution_duration_ms : option Z;
}.
#[export] Instance eta_AllocationResult : Eta AllocationResult := λ r,
  MkAllocationResult (ar_function r) (ar_allocation_id r) (ar_function_call_id r) (ar_request_id r) (ar_outcome_code r) (ar_failure_reason r)
    (ar_return_value r) (ar_request_error r) (ar_execution_duration_ms r).
Record ProcessHandle := MkProcessHandle {
  ph_id : string;
  ph_daemon_addr : option string;
  ph_http_addr : option string;
  ph_container_ip : string;
}.
Record PreparedAllocation := MkPreparedAllocation { pa_inputs : Bytes; pa_request_error_blob_handle : option string }.
Record FinalizationContext := MkFinalizationContext {
  fx_request_error_blob_handle : option string;
  fx_output_blob_handles : list string;
  fx_fe_result : option Bytes;
}.
Definition default_context : FinalizationContext := MkFinalizationContext None [] None.
(** [events::AllocationOutcome], what the runner of an allocation reports. *)
Inductive RunnerOutcome :=
| RU_Completed (result : AllocationResult) (fe_result : option Bytes) (output_blob_handles : list string)
| RU_Cancelled (output_blob_handles : list string)
| RU_Failed (reason : AllocationFailureReason) (error_message : string) (output_blob_handles : list string) (likely_fe_crash : bool)
    (termination_reason : option ContainerTerminationReasonPb).

Inductive FEState :=
| FS_Starting
| FS_Running (handle : ProcessHandle)
| FS_Terminated (reason : ContainerTerminationReasonPb).
Record ManagedFE := MkManagedFE {
  mf_description : ContainerDescription;
  mf_state : FEState;
  mf_max_concurrency : Z;
  mf_allocated_gpu_uuids : list string;
}.
#[export] Instance eta_ManagedFE : Eta ManagedFE := λ f, MkManagedFE (mf_description f) (mf_state f) (mf_max_concurrency f) (mf_allocated_gpu_uuids f).
Inductive AllocationState :=
| AS_Preparing
| AS_WaitingForContainer
| AS_WaitingForSlot
| AS_Running (finalization_ctx : FinalizationContext)
| AS_Finalizing (result : AllocationResult) (terminated_container_id : option string)
| AS_Done.
Record ManagedAllocation := MkManagedAllocation {
  ma_allocation : AllocationPb;
  ma_fe_id : string;
  ma_state : AllocationState;
}.
#[export] Instance eta_ManagedAllocation : Eta ManagedAllocation := λ a, MkManagedAllocation (ma_allocation a) (ma_fe_id a) (ma_state a).

(** Errors of a startup, as far as they are told apart. *)
Inductive StartupError := SE_Image | SE_InitFunction | SE_InitTimedOut | SE_Other.
(** The allocation blamed for a termination is not used. *)
Inductive ACEvent :=
| EV_ContainerStartupComplete (fe_id : string) (res : result StartupError ProcessHandle)
| EV_ContainerTerminated (fe_id : string) (reason : ContainerTerminationReasonPb)
| EV_AllocationPrepared (allocation_id : string) (res : option PreparedAllocation)
| EV_AllocationExecutionFinished (allocation_id : string) (res : RunnerOutcome)
| EV_AllocationFinalizationFinished (allocation_id : string) (is_success : bool).
(** A spawned task that will send an event: [TK_Crash] is the event a failed execution
    sends itself. *)
Inductive Task :=
| TK_Startup (fe_id : string)
| TK_Health (fe_id : string)
| TK_Crash (fe_id : string) (reason : ContainerTerminationReasonPb)
| TK_Prepare (allocation_id : string)
| TK_Execute (allocation_id : string)
| TK_Finalize (allocation_id : string).
Inductive Effect :=
| EF_Kill (handle : ProcessHandle)
| EF_CancelHealth (fe_id : string)
| EF_CancelAllocation (allocation_id : string)
| EF_Persist (fe_id : string) (handle : ProcessHandle)
| EF_Forget (fe_id : string).

Record Controller := MkController {
  ac_containers : gmap string ManagedFE;
  ac_allocations : gmap string ManagedAllocation;
  ac_waiting_queue : gmap string (list string);
  ac_running_count : gmap string Z;
  ac_prepared_data : gmap string (PreparedAllocation * FinalizationContext);
  ac_gpus : GpuAllocator;
  ac_tasks : list Task;
  ac_effects : list Effect;
  ac_outcomes : list Outcome;
  ac_acks : list CommandResponse;
  ac_responses : list CommandResponse;
  ac_attempts : nat;
  ac_states : list ContainerStatePb;
}.
#[export] Instance eta_Controller : Eta Controller := λ c,
  MkController (ac_containers c) (ac_allocations c) (ac_waiting_queue c) (ac_running_count c) (ac_prepared_data c) (ac_gpus c) (ac_tasks c) (ac_effects c)
    (ac_outcomes c) (ac_acks c) (ac_responses c) (ac_attempts c) (ac_states c).
Definition new_controller (gpus : list GpuInfo) : Controller := MkController ∅ ∅ ∅ ∅ ∅ (new_gpu_allocator gpus) [] [] [] [] [] 0 [].

(** ** Conversions *)

Definition termination_to_failure_reason (r : ContainerTerminationReasonPb) : AllocationFailureReason :=
  match r with
  | TR_StartupFailedFunctionTimeout => AFR_StartupFailedFunctionTimeout
  | TR_StartupFailedInternalError => AFR_StartupFailedInternalError
  | TR_StartupFailedFunctionError => AFR_StartupFailedFunctionError
  | TR_StartupFailedBadImage => AFR_StartupFailedBadImage
  | TR_Unhealthy => AFR_FunctionError
  | TR_InternalError => AFR_InternalError
  | TR_FunctionTimeout => AFR_FunctionTimeout
  | TR_Oom => AFR_Oom
  | TR_ProcessCrash => AFR_FunctionError
  | _ => AFR_ContainerTerminated
  end.
Definition make_failure_result (a : AllocationPb) (reason : AllocationFailureReason) : AllocationResult :=
  MkAllocationResult (apb_function a) (apb_allocation_id a) (apb_function_call_id a) (apb_request_id a) (Some OUTCOME_FAILURE) (Some (failure_number reason)) None None None.
Definition make_container_started_response (id : string) : CommandResponse := MkCommandResponse None (Some (RS_ContainerStarted id)).
Definition termination_reason_to_container_termination_reason (r : ContainerTerminationReasonPb) : ContainerTerminationReasonPb :=
  match r with
  | TR_StartupFailedInternalError => TR_StartupFailedInternalError
  | TR_StartupFailedFunctionError => TR_StartupFailedFunctionError
  | TR_StartupFailedFunctionTimeout => TR_StartupFailedFunctionTimeout
  | TR_Unhealthy => TR_Unhealthy
  | TR_InternalError => TR_InternalError
  | TR_FunctionTimeout => TR_FunctionTimeout
  | TR_FunctionCancelled => TR_FunctionCancelled
  | TR_Oom => TR_Oom
  | TR_ProcessCrash => TR_ProcessCrash
  | TR_StartupFailedBadImage => TR_StartupFailedBadImage
  | _ => TR_Unknown
  end.
Definition make_container_terminated_response (id : string) (reason : ContainerTerminationReasonPb) : CommandResponse :=
  MkCommandResponse None (Some (RS_ContainerTerminated id (termination_number (termination_reason_to_container_termination_reason reason)))).
Definition make_allocation_scheduled_response (id : string) (seq : Z) : CommandResponse := MkCommandResponse (Some seq) (Some (RS_AllocationScheduled id)).
Definition make_allocation_failed_outcome (a : AllocationPb) (reason : AllocationFailureReason) (request_error : option DataPayloadPb) (duration : option Z)
    (container_id : option string) : Outcome :=
  OC_Failed (MkAllocationFailed (default "" (apb_allocation_id a)) (failure_number reason) (apb_function a) (apb_function_call_id a) (apb_request_id a) request_error duration container_id).
Definition allocation_result_to_outcome (r : AllocationResult) (container_id : option string) : Outcome :=
  if bool_decide (default 0 (ar_outcome_code r) = OUTCOME_SUCCESS) then
    OC_Completed (MkAllocationCompleted (default "" (ar_allocation_id r)) (ar_function r) (ar_function_call_id r) (ar_request_id r) (ar_return_value r) (ar_execution_duration_ms r))
  else
    let reason := default AFR_InternalError (enum_try_from failure_reasons (default (failure_number AFR_InternalError) (ar_failure_reason r))) in
    make_allocation_failed_outcome
      (MkAllocationPb (ar_function r) (ar_allocation_id r) (ar_function_call_id r) (ar_request_id r) [] None None None None None None)
      reason (ar_request_error r) (ar_execution_duration_ms r) container_id.

Section controller.
(** Whether the bounded channel has room at the n-th attempt to send. *)
Context `{HO : HashOrder} (room : nat → bool).

Definition set_state (id : string) (st : AllocationState) (c : Controller) : Controller := c <| ac_allocations ::= alter (λ a, a <| ma_state := st |>) id |>.
Definition set_fe_state (fe_id : string) (st : FEState) (c : Controller) : Controller := c <| ac_containers ::= alter (λ f, f <| mf_state := st |>) fe_id |>.
Definition spawn (t : Task) (c : Controller) : Controller := c <| ac_tasks ::= λ l, l ++ [t] |>.
Definition perform (e : Effect) (c : Controller) : Controller := c <| ac_effects ::= λ l, l ++ [e] |>.
Definition send_outcome (o : Outcome) (c : Controller) : Controller := c <| ac_outcomes ::= λ l, l ++ [o] |>.
(** [try_send] on [container_state_tx] and on [result_tx]: without room the response is
    dropped. *)
Definition try_send (r : CommandResponse) (c : Controller) : Controller :=
  c <| ac_attempts ::= S |> <| ac_responses ::= λ l, if room (ac_attempts c) then l ++ [r] else l |>.
Definition try_ack (r : CommandResponse) (c : Controller) : Controller :=
  c <| ac_attempts ::= S |> <| ac_acks ::= λ l, if room (ac_attempts c) then l ++ [r] else l |>.

Definition broadcast_state (c : Controller) : Controller :=
  c <| ac_states :=
    (λ kf : string * ManagedFE,
       let '(status, reason) := match mf_state kf.2 with
                                | FS_Starting => (CSt_Pending, None)
                                | FS_Running _ => (CSt_Running, None)
                                | FS_Terminated r => (CSt_Terminated, Some r)
                                end in
       MkContainerStatePb (Some (mf_description kf.2)) (Some (status_number status)) (termination_number <$> reason)) <$> map_iter (ac_containers c) |>.
(** [return_gpus] for a tracked container. *)
Definition return_gpus (fe_id : string) (c : Controller) : Controller :=
  match ac_containers c !! fe_id with
  | Some fe => c <| ac_gpus ::= deallocate (mf_allocated_gpu_uuids fe) |> <| ac_containers ::= alter (λ f, f <| mf_allocated_gpu_uuids := [] |>) fe_id |>
  | None => c
  end.

(** ** Allocations *)

Definition start_finalization (id : string) (r : AllocationResult) (ctx : FinalizationContext) (terminated_container_id : option string) (c : Controller) : Controller :=
  match ac_allocations c !! id with
  | Some _ => spawn (TK_Finalize id) (set_state id (AS_Finalizing r terminated_container_id) c)
  | None => c
  end.
(** The context of an allocation that has not run, taken from the prepared data. *)
Definition take_prepared (id : string) (c : Controller) : FinalizationContext * Controller :=
  (match ac_prepared_data c !! id with Some (_, ctx) => ctx | None => default_context end, c <| ac_prepared_data ::= delete id |>).

Definition failable (fe_id : string) (a : ManagedAllocation) : bool :=
  bool_decide (ma_fe_id a = fe_id) && match ma_state a with AS_Done | AS_Finalizing _ _ => false | _ => true end.
Definition is_startup_failure (r : AllocationFailureReason) : bool :=
  match r with
  | AFR_StartupFailedInternalError | AFR_StartupFailedFunctionError | AFR_StartupFailedFunctionTimeout | AFR_StartupFailedBadImage => true
  | _ => false
  end.
Definition no_blobs (ctx : FinalizationContext) : bool :=
  bool_decide (fx_request_error_blob_handle ctx = None) && bool_decide (fx_output_blob_handles ctx = []) && bool_decide (fx_fe_result ctx = None).
(** One allocation of a lost container that is not running. *)
Definition fail_allocation_of_fe (fe_id : string) (reason : AllocationFailureReason) (id : string) (a : ManagedAllocation) (c : Controller) : Controller :=
  let '(ctx, c) := take_prepared id c in
  if no_blobs ctx
  then set_state id AS_Done (send_outcome (make_allocation_failed_outcome (ma_allocation a) reason None None (Some fe_id)) c)
  else start_finalization id (make_failure_result (ma_allocation a) reason) ctx (Some fe_id) c.
Definition fail_one (fe_id : string) (reason : AllocationFailureReason) (c : Controller) (id : string) : Controller :=
  match ac_allocations c !! id with
  | None => c
  | Some a =>
      match ma_state a with
      | AS_Running _ => perform (EF_CancelAllocation id) c
      | AS_Preparing => fail_allocation_of_fe fe_id reason id a (perform (EF_CancelAllocation id) c)
      | AS_WaitingForContainer | AS_WaitingForSlot => fail_allocation_of_fe fe_id reason id a c
      | AS_Finalizing _ _ | AS_Done => c
      end
  end.
Definition fail_allocations_for_fe (fe_id : string) (reason : AllocationFailureReason) (c : Controller) : Controller :=
  let ids := (filter (λ ka, failable fe_id ka.2 = true) (map_iter (ac_allocations c))).*1 in
  let reason := if is_startup_failure reason then reason else AFR_ContainerTerminated in
  foldl (fail_one fe_id reason) (c <| ac_waiting_queue ::= delete fe_id |>) ids.

Definition cleanup_done_allocations (current : list string) (c : Controller) : Controller :=
  c <| ac_allocations ::= filter (λ ka, match ma_state ka.2 with AS_Done => bool_decide (ka.1 ∈ current) | _ => true end = true) |>.
Definition alive_fe (c : Controller) (fe_id : string) : bool :=
  match ac_containers c !! fe_id with
  | Some fe => match mf_state fe with FS_Terminated _ => false | _ => true end
  | None => false
  end.
(** The reason of a terminated container. *)
Definition known_reason (c : Controller) (fe_id : string) : option AllocationFailureReason :=
  fe ← ac_containers c !! fe_id;
  match mf_state fe with FS_Terminated r => Some (termination_to_failure_reason r) | _ => None end.
Definition add_allocation (c : Controller) (x : string * AllocationPb * Z) : Controller :=
  let '(fe_id, allocation, seq) := x in
  let id := default "" (apb_allocation_id allocation) in
  match ac_allocations c !! id with
  | Some _ => c
  | None =>
      let ack := make_allocation_scheduled_response id seq in
      if alive_fe c fe_id then
        spawn (TK_Prepare id) (try_ack ack c <| ac_allocations ::= <[id := MkManagedAllocation allocation fe_id AS_Preparing]> |>)
      else
        let reason := default AFR_ContainerTerminated (known_reason c fe_id) in
        send_outcome (make_allocation_failed_outcome allocation reason None None (Some fe_id))
          (try_ack ack c <| ac_allocations ::= <[id := MkManagedAllocation allocation fe_id AS_Done]> |>)
  end.
Definition add_allocations (l : list (string * AllocationPb * Z)) (c : Controller) : Controller := foldl add_allocation c l.

(** *** Scheduling *)

(** An allocation that was taken from the queue of its container. *)
Definition run_candidate (fe_id : string) (c : Controller) (id : string) : Controller :=
  match ac_allocations c !! id with
  | None => c
  | Some a =>
      match ma_state a with
      | AS_WaitingForSlot | AS_WaitingForContainer =>
          match ac_prepared_data c !! id with
          | None =>
              spawn (TK_Finalize id) (set_state id (AS_Finalizing (make_failure_result (ma_allocation a) AFR_InternalError) None) c)
          | Some (_, ctx) =>
              spawn (TK_Execute id)
                (set_state id (AS_Running ctx) (c <| ac_prepared_data ::= delete id |>)
                   <| ac_running_count ::= λ m, <[fe_id := default 0 (m !! fe_id) + 1]> m |>)
          end
      | _ => c
      end
  end.
Definition schedule_on (c : Controller) (fe_id : string) : Controller :=
  match ac_containers c !! fe_id with
  | Some fe =>
      match mf_state fe with
      | FS_Running _ =>
          let slots := Z.to_nat (Z.max 0 (mf_max_concurrency fe - default 0 (ac_running_count c !! fe_id))) in
          match ac_waiting_queue c !! fe_id with
          | Some q => foldl (run_candidate fe_id) (c <| ac_waiting_queue ::= <[fe_id := drop slots q]> |>) (take slots q)
          | None => c
          end
      | _ => c
      end
  | None => c
  end.
Definition try_schedule (c : Controller) : Controller := foldl schedule_on c (map_iter (ac_containers c)).*1.

(** *** Events of allocations *)

Definition enqueue (fe_id id : string) (c : Controller) : Controller :=
  c <| ac_waiting_queue ::= λ m, <[fe_id := default [] (m !! fe_id) ++ [id]]> m |>.
Definition handle_allocation_prepared (id : string) (res : option PreparedAllocation) (c : Controller) : Controller :=
  match ac_allocations c !! id with
  | None => c
  | Some a =>
      match ma_state a with
      | AS_Preparing =>
          match res with
          | Some prepared =>
              let fe_id := ma_fe_id a in
              let ctx := MkFinalizationContext (pa_request_error_blob_handle prepared) [] None in
              let wait st c := (enqueue fe_id id (set_state id st c)) <| ac_prepared_data ::= <[id := (prepared, ctx)]> |> in
              match mf_state <$> ac_containers c !! fe_id with
              | Some (FS_Running _) => try_schedule (wait AS_WaitingForSlot c)
              | Some FS_Starting => wait AS_WaitingForContainer c
              | Some (FS_Terminated reason) =>
                  start_finalization id (make_failure_result (ma_allocation a) (termination_to_failure_reason reason)) ctx (Some fe_id) c
              | None => start_finalization id (make_failure_result (ma_allocation a) AFR_ContainerTerminated) ctx (Some fe_id) c
              end
          | None => start_finalization id (make_failure_result (ma_allocation a) AFR_InternalError) default_context None c
          end
      | _ => c
      end
  end.
(** The result and the blobs of an outcome, and the reason of a likely crash. *)
Definition settle_outcome (c : Controller) (a : ManagedAllocation) (ctx : FinalizationContext) (o : RunnerOutcome)
    : AllocationResult * FinalizationContext * option ContainerTerminationReasonPb :=
  match o with
  | RU_Completed r fe_result handles => (r, MkFinalizationContext (fx_request_error_blob_handle ctx) handles fe_result, None)
  | RU_Cancelled handles =>
      (make_failure_result (ma_allocation a) (default AFR_AllocationCancelled (known_reason c (ma_fe_id a))),
       MkFinalizationContext (fx_request_error_blob_handle ctx) handles (fx_fe_result ctx), None)
  | RU_Failed reason _ handles likely_fe_crash termination_reason =>
      (make_failure_result (ma_allocation a) (default reason (known_reason c (ma_fe_id a))),
       MkFinalizationContext (fx_request_error_blob_handle ctx) handles (fx_fe_result ctx),
       if likely_fe_crash then Some (default TR_Unhealthy termination_reason) else None)
  end.
Definition handle_allocation_execution_finished (id : string) (o : RunnerOutcome) (c : Controller) : Controller :=
  match ac_allocations c !! id with
  | None => c
  | Some a =>
      match ma_state a with
      | AS_Running ctx =>
          let fe_id := ma_fe_id a in
          let c := c <| ac_running_count ::= alter (λ n, Z.max 0 (n - 1)) fe_id |> in
          let '(r, ctx, crash) := settle_outcome c a ctx o in
          let c := start_finalization id r ctx None c in
          let c := match crash with Some reason => spawn (TK_Crash fe_id reason) c | None => c end in
          try_schedule c
      | _ => c
      end
  end.
Definition handle_allocation_finalization_finished (id : string) (is_success : bool) (c : Controller) : Controller :=
  match ac_allocations c !! id with
  | None => c
  | Some a =>
      match ma_state a with
      | AS_Finalizing r terminated_container_id =>
          let r := if is_success then r else make_failure_result (ma_allocation a) AFR_InternalError <| ar_execution_duration_ms := ar_execution_duration_ms r |> in
          send_outcome (allocation_result_to_outcome r terminated_container_id) (set_state id AS_Done c)
      | _ => c
      end
  end.
Definition cancel_ac_allocation (id : string) (c : Controller) : Controller :=
  match ac_allocations c !! id with
  | None => c
  | Some a =>
      let finalize c := let '(ctx, c) := take_prepared id c in start_finalization id (make_failure_result (ma_allocation a) AFR_AllocationCancelled) ctx None c in
      match ma_state a with
      | AS_Done | AS_Finalizing _ _ => c
      | AS_Running _ => perform (EF_CancelAllocation id) c
      | AS_Preparing => finalize (perform (EF_CancelAllocation id) c)
      | AS_WaitingForContainer | AS_WaitingForSlot => finalize (c <| ac_waiting_queue ::= alter (List.filter (λ x, bool_decide (x ≠ id))) (ma_fe_id a) |>)
      end
  end.

(** ** Containers *)

Definition send_container_terminated (id : string) (reason : ContainerTerminationReasonPb) (c : Controller) : Controller :=
  try_send (make_container_terminated_response id reason) c.
Definition remove_ac_container (fe_id : string) (c : Controller) : Controller :=
  match ac_containers c !! fe_id with
  | None => c
  | Some fe =>
      match mf_state fe with
      | FS_Terminated _ =>
          c <| ac_containers ::= delete fe_id |> <| ac_waiting_queue ::= delete fe_id |> <| ac_running_count ::= delete fe_id |>
      | st =>
          let c := match st with
                   | FS_Running handle => perform (EF_Forget fe_id) (perform (EF_Kill handle) (perform (EF_CancelHealth fe_id) c))
                   | _ => c
                   end in
          let c := set_fe_state fe_id (FS_Terminated TR_FunctionCancelled) c in
          let c := fail_allocations_for_fe fe_id AFR_ContainerTerminated c in
          send_container_terminated fe_id TR_FunctionCancelled (return_gpus fe_id c)
      end
  end.
Definition gpu_count (d : ContainerDescription) : Z :=
  default 0 (r ← cd_resources d; g ← crp_gpu r; gpb_count g).
Definition create_ac_container (d : ContainerDescription) (c : Controller) : Controller :=
  let fe_id := default "" (cd_id d) in
  let max_concurrency := default 1 (cd_max_concurrency d) in
  let allocated := if bool_decide (0 < gpu_count d) then allocate (gpu_count d) (ac_gpus c) else Some ([], ac_gpus c) in
  match allocated with
  | None =>
      let reason := TR_StartupFailedInternalError in
      let c := c <| ac_containers ::= <[fe_id := MkManagedFE d (FS_Terminated reason) max_concurrency []]> |> in
      broadcast_state (send_container_terminated fe_id reason (fail_allocations_for_fe fe_id (termination_to_failure_reason reason) c))
  | Some (uuids, gpus) =>
      spawn (TK_Startup fe_id) (c <| ac_gpus := gpus |> <| ac_containers ::= <[fe_id := MkManagedFE d FS_Starting max_concurrency uuids]> |>)
  end.
Definition remove_tracked (acc : Controller * bool) (id : string) : Controller * bool :=
  match ac_containers acc.1 !! id with Some _ => (remove_ac_container id acc.1, true) | None => acc end.
Definition create_untracked (acc : Controller * bool) (d : ContainerDescription) : Controller * bool :=
  match cd_id d with
  | Some id => match ac_containers acc.1 !! id with Some _ => acc | None => (create_ac_container d acc.1, true) end
  | None => acc
  end.
Definition reconcile_containers (added : list ContainerDescription) (removed : list string) (c : Controller) : Controller :=
  let '(c, changed) := foldl create_untracked (foldl remove_tracked (c, false) removed) added in
  if changed : bool then broadcast_state c else c.

Definition startup_reason (e : StartupError) : ContainerTerminationReasonPb :=
  match e with
  | SE_Image => TR_StartupFailedBadImage
  | SE_InitFunction => TR_StartupFailedFunctionError
  | SE_InitTimedOut => TR_StartupFailedFunctionTimeout
  | SE_Other => TR_StartupFailedInternalError
  end.
Definition handle_container_startup_complete (fe_id : string) (res : result StartupError ProcessHandle) (c : Controller) : Controller :=
  let kill c := match res with Ok handle => perform (EF_Kill handle) c | Err _ => c end in
  match mf_state <$> ac_containers c !! fe_id with
  | None | Some (FS_Terminated _) | Some (FS_Running _) => kill c
  | Some FS_Starting =>
      match res with
      | Ok handle =>
          let c := set_fe_state fe_id (FS_Running handle) (spawn (TK_Health fe_id) c) in
          let c := try_send (make_container_started_response fe_id) (perform (EF_Persist fe_id handle) c) in
          broadcast_state (try_schedule c)
      | Err e =>
          let reason := startup_reason e in
          let c := fail_allocations_for_fe fe_id (termination_to_failure_reason reason) (set_fe_state fe_id (FS_Terminated reason) c) in
          broadcast_state (send_container_terminated fe_id reason (return_gpus fe_id c))
      end
  end.
Definition handle_container_terminated (fe_id : string) (reason : ContainerTerminationReasonPb) (c : Controller) : Controller :=
  match ac_containers c !! fe_id with
  | None => c
  | Some fe =>
      let terminate c := fail_allocations_for_fe fe_id (termination_to_failure_reason reason) (set_fe_state fe_id (FS_Terminated reason) c) in
      let finish c := broadcast_state (send_container_terminated fe_id reason (perform (EF_Forget fe_id) (return_gpus fe_id c))) in
      match mf_state fe with
      | FS_Terminated _ => c
      | FS_Running handle => finish (perform (EF_Kill handle) (terminate (perform (EF_CancelHealth fe_id) c)))
      | FS_Starting => finish (terminate c)
      end
  end.

(** ** Startup *)

(** [state_file.rs]: a container of the previous run, with the description decoded. *)
Record PersistedContainer := MkPersistedContainer {
  pc_container_id : string;
  pc_handle_id : string;
  pc_daemon_addr : string;
  pc_http_addr : string;
  pc_container_ip : string;
  pc_description : option ContainerDescription;
}.
Definition persisted_handle (e : PersistedContainer) : ProcessHandle := MkProcessHandle (pc_handle_id e) (Some (pc_daemon_addr e)) (Some (pc_http_addr e)) (pc_container_ip e).
(** [alive] is the driver, [None] when it fails; [connect] is the client of the function
    executor. *)
Definition recover_single_entry (alive : ProcessHandle → option bool) (connect : string → bool) (c : Controller) (e : PersistedContainer) : Controller * option string :=
  let fe_id := pc_container_id e in
  let handle := persisted_handle e in
  let skip := (perform (EF_Forget fe_id) c, None) in
  match alive handle with
  | Some true =>
      if connect (pc_daemon_addr e) then
        match pc_description e with
        | Some d =>
            let fe := MkManagedFE d (FS_Running handle) (default 1 (cd_max_concurrency d)) [] in
            (try_send (make_container_started_response fe_id) (spawn (TK_Health fe_id) c <| ac_containers ::= <[fe_id := fe]> |>), Some (pc_handle_id e))
        | None => skip
        end
      else skip
  | _ => skip
  end.
Definition recover_entry (alive : ProcessHandle → option bool) (connect : string → bool) (acc : Controller * list string) (e : PersistedContainer) : Controller * list string :=
  let '(c, handle_id) := recover_single_entry alive connect acc.1 e in (c, acc.2 ++ option_list handle_id).
Definition recover_containers (alive : ProcessHandle → option bool) (connect : string → bool) (entries : list PersistedContainer) (c : Controller) : Controller * list string :=
  let '(c, handles) := foldl (recover_entry alive connect) (c, []) entries in
  (match handles with [] => c | _ => broadcast_state c end, handles).

(** ** The loop *)

Definition handle_event (ev : ACEvent) (c : Controller) : Controller :=
  match ev with
  | EV_ContainerStartupComplete fe_id res => handle_container_startup_complete fe_id res c
  | EV_ContainerTerminated fe_id reason => handle_container_terminated fe_id reason c
  | EV_AllocationPrepared id res => handle_allocation_prepared id res c
  | EV_AllocationExecutionFinished id o => handle_allocation_execution_finished id o c
  | EV_AllocationFinalizationFinished id ok => handle_allocation_finalization_finished id ok c
  end.
Definition allocation_ids (l : list (string * AllocationPb * Z)) : list string := (λ x, default "" (apb_allocation_id x.1.2)) <$> l.
(** [ACCommand::Reconcile]. *)
Definition reconcile_command (added : list ContainerDescription) (removed : list string) (new_allocations : list (string * AllocationPb * Z)) (c : Controller) : Controller :=
  let c := match new_allocations with [] => c | l => cleanup_done_allocations (allocation_ids l) c end in
  try_schedule (add_allocations new_allocations (reconcile_containers added removed c)).

(** ** Shutdown *)

Definition cancel_health (c : Controller) (kf : string * ManagedFE) : Controller :=
  match mf_state kf.2 with FS_Running _ => perform (EF_CancelHealth kf.1) c | _ => c end.
Definition cancel_token (c : Controller) (ka : string * ManagedAllocation) : Controller :=
  match ma_state ka.2 with AS_Preparing | AS_Running _ => perform (EF_CancelAllocation ka.1) c | _ => c end.
Definition fail_for_shutdown (c : Controller) (id : string) : Controller :=
  match ac_allocations c !! id with
  | None => c
  | Some a =>
      match ma_state a with
      | AS_Finalizing _ _ | AS_Done => c
      | st =>
          let '(ctx, c) := match ac_prepared_data c !! id with
                           | Some (_, ctx) => (ctx, c <| ac_prepared_data ::= delete id |>)
                           | None => (match st with AS_Running ctx => ctx | _ => default_context end, set_state id AS_Done c)
                           end in
          start_finalization id (make_failure_result (ma_allocation a) AFR_AllocationCancelled) ctx None c
      end
  end.
(** The events that arrive before the deadline: those of finalizations are handled. *)
Definition drain_event (c : Controller) (ev : ACEvent) : Controller :=
  match ev with EV_AllocationFinalizationFinished id ok => handle_allocation_finalization_finished id ok c | _ => c end.
Definition send_remaining (c : Controller) (ka : string * ManagedAllocation) : Controller :=
  match ma_state ka.2 with
  | AS_Finalizing r t => send_outcome (allocation_result_to_outcome r (match t with Some x => Some x | None => Some (ma_fe_id ka.2) end)) c
  | _ => c
  end.
Definition shutdown_all (events : list ACEvent) (c : Controller) : Controller :=
  let c := foldl cancel_health c (map_iter (ac_containers c)) in
  let c := foldl cancel_token c (map_iter (ac_allocations c)) in
  let c := foldl fail_for_shutdown c (map_iter (ac_allocations c)).*1 in
  let c := foldl (λ c fe_id, return_gpus fe_id c) c (map_iter (ac_containers c)).*1 in
  let c := foldl drain_event c events in
  foldl send_remaining (c <| ac_allocations := ∅ |>) (map_iter (ac_allocations c)).
End controller.

(** ** Steps *)

(** The events a task ends with.  A runner reports a result for its own allocation. *)
Definition result_for (a : AllocationPb) (r : AllocationResult) : Prop :=
  ar_allocation_id r = apb_allocation_id a ∧ ar_function_call_id r = apb_function_call_id a ∧ ar_request_id r = apb_request_id a.
Definition ends_with (c : Controller) (t : Task) (ev : ACEvent) : Prop :=
  match t, ev with
  | TK_Startup x, EV_ContainerStartupComplete y _ => x = y
  | TK_Health x, EV_ContainerTerminated y _ => x = y
  | TK_Crash x r, EV_ContainerTerminated y r' => x = y ∧ r = r'
  | TK_Prepare x, EV_AllocationPrepared y _ => x = y
  | TK_Execute x, EV_AllocationExecutionFinished y o =>
      x = y ∧ match o with
              | RU_Completed r _ _ => ∀ a, ac_allocations c !! y = Some a → result_for (ma_allocation a) r
              | _ => True
              end
  | TK_Finalize x, EV_AllocationFinalizationFinished y _ => x = y
  | _, _ => False
  end.
Definition is_running (a : ManagedAllocation) : bool := match ma_state a with AS_Running _ => true | _ => false end.
Definition is_waiting (a : ManagedAllocation) : bool := match ma_state a with AS_WaitingForContainer | AS_WaitingForSlot => true | _ => false end.
Definition is_done (a : ManagedAllocation) : bool := match ma_state a with AS_Done => true | _ => false end.
Definition runs_on (fe_id : string) (a : ManagedAllocation) : bool := bool_decide (ma_fe_id a = fe_id) && is_running a.
Definition running_on (c : Controller) (fe_id : string) : nat := size (filter (λ ka, runs_on fe_id ka.2 = true) (ac_allocations c)).

(** A command of the server: the containers it adds run at least one allocation at a
    time, and the id of a container that is gone is not used again while allocations of
    the old one still run. *)
Definition admissible (added : list ContainerDescription) (removed : list string) (c : Controller) : Prop :=
  ∀ d id, d ∈ added → cd_id d = Some id →
    1 ≤ default 1 (cd_max_concurrency d) ∧ (id ∈ removed ∨ ac_containers c !! id = None → running_on c id = 0%nat).

Section steps.
Context `{HO : HashOrder} (room : nat → bool).

(** A task ends with an event. *)
Inductive ev_step : Controller → Controller → Prop :=
| es_event c l1 l2 t ev : ac_tasks c = l1 ++ t :: l2 → ends_with c t ev → ev_step c (handle_event room ev (c <| ac_tasks := l1 ++ l2 |>))
(** The health checker of a container that was cancelled. *)
| es_cancelled c l1 l2 fe_id : ac_tasks c = l1 ++ TK_Health fe_id :: l2 → ev_step c (c <| ac_tasks := l1 ++ l2 |>).
(** A step, with the ids of the allocations the server sent. *)
Inductive ac_step : list string → Controller → Controller → Prop :=
| as_reconcile added removed new_allocations c : admissible added removed c → ac_step (allocation_ids new_allocations) c (reconcile_command room added removed new_allocations c)
| as_kill id c : ac_step [] c (cancel_ac_allocation id c)
| as_event c c' : ev_step c c' → ac_step [] c c'.

(** ** The invariant *)

Definition queue_of (c : Controller) (fe_id : string) : list string := default [] (ac_waiting_queue c !! fe_id).
Definition held_gpus (c : Controller) : list string := concat ((mf_allocated_gpu_uuids ∘ snd) <$> map_to_list (ac_containers c)).

(** An allocation in its state; [T] are the tasks under way, and the allocations in [X]
    wait outside of the queue for now. *)
Definition alloc_ok (X : list string) (T : list Task) (c : Controller) (id : string) (a : ManagedAllocation) : Prop :=
  default "" (apb_allocation_id (ma_allocation a)) = id ∧
  match ma_state a with
  | AS_Preparing => TK_Prepare id ∈ T ∧ ac_prepared_data c !! id = None
  | AS_WaitingForContainer | AS_WaitingForSlot =>
      is_Some (ac_prepared_data c !! id) ∧ (id ∉ X → id ∈ queue_of c (ma_fe_id a) ∧ alive_fe c (ma_fe_id a) = true)
  | AS_Running _ => TK_Execute id ∈ T ∧ ac_prepared_data c !! id = None
  | AS_Finalizing r _ => TK_Finalize id ∈ T ∧ ac_prepared_data c !! id = None ∧ result_for (ma_allocation a) r
  | AS_Done => ac_prepared_data c !! id = None
  end.
Definition fe_ok (T : list Task) (c : Controller) (fe_id : string) (f : ManagedFE) : Prop :=
  1 ≤ mf_max_concurrency f ∧ default 0 (ac_running_count c !! fe_id) = Z.of_nat (running_on c fe_id) ∧ Z.of_nat (running_on c fe_id) ≤ mf_max_concurrency f ∧
  (mf_state f = FS_Starting → TK_Startup fe_id ∈ T).
Record core (X : list string) (T : list Task) (c : Controller) : Prop := {
  k_alloc : ∀ id a, ac_allocations c !! id = Some a → alloc_ok X T c id a;
  k_queue : ∀ fe_id, NoDup (queue_of c fe_id) ∧
    ∀ id, id ∈ queue_of c fe_id → id ∉ X ∧ ∃ a, ac_allocations c !! id = Some a ∧ ma_fe_id a = fe_id ∧ is_waiting a = true;
  k_prepared : ∀ id, is_Some (ac_prepared_data c !! id) → is_Some (ac_allocations c !! id);
  k_fe : ∀ fe_id f, ac_containers c !! fe_id = Some f → fe_ok T c fe_id f;
  k_count : ∀ fe_id, ac_containers c !! fe_id = None → ac_running_count c !! fe_id = None;
  k_gpus : (gi_uuid <$> ga_free_gpus (ac_gpus c)) ++ held_gpus c ≡ₚ gi_uuid <$> ga_all_gpus (ac_gpus c);
}.
(** No slot is left free while an allocation waits for it. *)
Definition busy (c : Controller) : Prop :=
  ∀ fe_id f handle, ac_containers c !! fe_id = Some f → mf_state f = FS_Running handle → queue_of c fe_id = [] ∨ mf_max_concurrency f ≤ Z.of_nat (running_on c fe_id).

(** *** Counting *)

Lemma running_insert m id a fe_id :
  size (filter (λ ka, runs_on fe_id ka.2 = true) (<[id := a]> m)) =
  (size (filter (λ ka, runs_on fe_id ka.2 = true) (delete id m : gmap string ManagedAllocation)) + if runs_on fe_id a then 1 else 0)%nat.
Proof.
  rewrite <-insert_delete_eq. destruct (runs_on fe_id a) eqn:E.
  - rewrite map_filter_insert_True by done. rewrite map_size_insert_None; [lia|]. apply map_lookup_filter_None_2. left. apply lookup_delete_eq.
  - rewrite map_filter_insert_False by (cbn; congruence). rewrite delete_delete_eq. lia.
Qed.
Lemma running_split m id a fe_id : m !! id = Some a →
  size (filter (λ ka, runs_on fe_id ka.2 = true) m) =
  (size (filter (λ ka, runs_on fe_id ka.2 = true) (delete id m : gmap string ManagedAllocation)) + if runs_on fe_id a then 1 else 0)%nat.
Proof. intros H. rewrite <-running_insert. by rewrite insert_id. Qed.
Lemma set_state_insert c id a st : ac_allocations c !! id = Some a → ac_allocations (set_state id st c) = <[id := a <| ma_state := st |>]> (ac_allocations c).
Proof.
  intros H. change (ac_allocations (set_state id st c)) with (alter (λ a, a <| ma_state := st |>) id (ac_allocations c)). apply map_eq. intros k.
  destruct (decide (k = id)) as [->|Hne]; [by rewrite lookup_alter_eq, lookup_insert_eq, H|by rewrite lookup_alter_ne, lookup_insert_ne by done].
Qed.
(** The counts after an allocation changes its state. *)
Lemma running_on_insert c c' id a a' fe_id : ac_allocations c !! id = Some a → ac_allocations c' = <[id := a']> (ac_allocations c) →
  (running_on c' fe_id + (if runs_on fe_id a then 1 else 0) = running_on c fe_id + (if runs_on fe_id a' then 1 else 0))%nat.
Proof. intros H E. unfold running_on. rewrite E, running_insert, (running_split _ _ _ _ H). lia. Qed.
Lemma running_on_some c fe_id : (0 < running_on c fe_id)%nat → ∃ id a, ac_allocations c !! id = Some a ∧ ma_fe_id a = fe_id ∧ is_running a = true.
Proof.
  unfold running_on. intros H. destruct (map_choose (filter (λ ka, runs_on fe_id ka.2 = true) (ac_allocations c))) as (id & a & Hf).
  { intros E. rewrite E, map_size_empty in H. lia. }
  apply map_lookup_filter_Some in Hf as [H1 H2]. cbn in H2. unfold runs_on in H2. apply andb_true_iff in H2 as [H2 H3]. exists id, a. by apply bool_decide_eq_true_1 in H2.
Qed.

Lemma running_same c c' fe_id : ac_allocations c = ac_allocations c' → running_on c fe_id = running_on c' fe_id.
Proof. unfold running_on. by intros ->. Qed.

(** *** Changes of one allocation *)

(** What an allocation relies on is still there. *)
Lemma alloc_ok_frame X X' T T' c c' id a :
  alloc_ok X T c id a → T ⊆ T' → ac_prepared_data c' !! id = ac_prepared_data c !! id →
  (is_waiting a = true → id ∉ X' → id ∉ X ∧ (id ∈ queue_of c (ma_fe_id a) → id ∈ queue_of c' (ma_fe_id a)) ∧ (alive_fe c (ma_fe_id a) = true → alive_fe c' (ma_fe_id a) = true)) →
  alloc_ok X' T' c' id a.
Proof.
  intros [Hid H] HT Hp Hw. split; [done|]. rewrite Hp. unfold is_waiting in Hw. destruct (ma_state a); naive_solver.
Qed.
Lemma fe_ok_frame T T' c c' fe_id f :
  fe_ok T c fe_id f → T ⊆ T' → ac_running_count c' !! fe_id = ac_running_count c !! fe_id → running_on c' fe_id = running_on c fe_id → fe_ok T' c' fe_id f.
Proof. intros (H1 & H2 & H3 & H4) HT Hc Hr. unfold fe_ok. rewrite Hc, Hr. split_and!; auto. Qed.
Definition settled_state (T : list Task) (id : string) (a : ManagedAllocation) (st : AllocationState) : Prop :=
  match st with
  | AS_Done => True
  | AS_Finalizing r _ => TK_Finalize id ∈ T ∧ result_for (ma_allocation a) r
  | _ => False
  end.
(** An allocation that is not in a queue is settled; it may have been running, in which
    case the count of its container goes down. *)
Lemma core_settle X T T' c c' id a st :
  core X T c → ac_allocations c !! id = Some a → (∀ fe_id, id ∉ queue_of c fe_id) → settled_state T' id a st → T ⊆ T' →
  ac_allocations c' = <[id := a <| ma_state := st |>]> (ac_allocations c) → ac_prepared_data c' = delete id (ac_prepared_data c) →
  ac_containers c' = ac_containers c → ac_gpus c' = ac_gpus c → ac_waiting_queue c' = ac_waiting_queue c →
  ac_running_count c' = (if is_running a then alter (λ n, Z.max 0 (n - 1)) (ma_fe_id a) else λ m, m) (ac_running_count c) →
  core X T' c'.
Proof.
  intros K Ha Hq Hst HT Eal Epr Ect Egp Ewq Erc.
  assert (Eq : ∀ fe_id, queue_of c' fe_id = queue_of c fe_id) by (intros; unfold queue_of; by rewrite Ewq).
  assert (Ealv : ∀ fe_id, alive_fe c' fe_id = alive_fe c fe_id) by (intros; unfold alive_fe; by rewrite Ect).
  assert (Hr : ∀ fe_id, (running_on c' fe_id + (if runs_on fe_id a then 1 else 0) = running_on c fe_id)%nat).
  { intros fe_id. rewrite (running_on_insert c c' id a _ fe_id Ha Eal). unfold runs_on at 1, is_running. cbn. destruct st; rewrite ?andb_false_r; try lia; done. }
  split.
  - intros k b Hk. rewrite Eal in Hk. apply lookup_insert_Some in Hk as [[<- <-]|[Hne Hk]].
    + split; [apply (k_alloc _ _ _ K _ _ Ha)|]. cbn. rewrite Epr, lookup_delete_eq. unfold settled_state in Hst. destruct st; try done. naive_solver.
    + eapply alloc_ok_frame; [apply (k_alloc _ _ _ K _ _ Hk)|done|by rewrite Epr, lookup_delete_ne|]. intros _ Hx. by rewrite Eq, Ealv.
  - intros fe_id. rewrite Eq. destruct (k_queue _ _ _ K fe_id) as [H1 H2]. split; [done|]. intros k Hk. destruct (H2 k Hk) as (H3 & b & H4 & H5). split; [done|].
    exists b. rewrite Eal, lookup_insert_ne; [done|]. intros <-. by apply (Hq fe_id).
  - intros k. rewrite Epr, Eal. intros [y Hy]. apply lookup_delete_Some in Hy as [Hne Hy]. rewrite lookup_insert_ne by done. apply (k_prepared _ _ _ K). by exists y.
  - intros fe_id f. rewrite Ect. intros Hf. destruct (k_fe _ _ _ K fe_id f Hf) as (F1 & F2 & F3 & F4). specialize (Hr fe_id).
    split; [done|]. split; [|split; [lia|auto]]. rewrite Erc. unfold runs_on in Hr. destruct (is_running a) eqn:Ea; [|rewrite andb_false_r in Hr; lia].
    destruct (decide (ma_fe_id a = fe_id)) as [He|He].
    + rewrite He, lookup_alter_eq. rewrite bool_decide_eq_true_2 in Hr by done. cbn in Hr. destruct (ac_running_count c !! fe_id) as [n|] eqn:En; cbn in *; lia.
    + rewrite lookup_alter_ne by done. rewrite bool_decide_eq_false_2 in Hr by done. cbn in Hr. lia.
  - intros fe_id. rewrite Ect. intros Hf. rewrite Erc. pose proof (k_count _ _ _ K fe_id Hf) as Hn. destruct (is_running a); [|done].
    destruct (decide (ma_fe_id a = fe_id)) as [->|He]; [by rewrite lookup_alter_eq, Hn|by rewrite lookup_alter_ne].
  - unfold held_gpus. rewrite Ect, Egp. apply K.
Qed.
Lemma core_drop X T c id : core (id :: X) T c → (∀ a, ac_allocations c !! id = Some a → is_waiting a = false) → core X T c.
Proof.
  intros K Hid. split; try apply K.
  - intros k a Hk. eapply alloc_ok_frame; [apply (k_alloc _ _ _ K _ _ Hk)|done|done|]. intros Hw Hx. split; [|done].
    apply not_elem_of_cons. split; [|done]. intros ->. by rewrite (Hid _ Hk) in Hw.
  - intros fe_id. destruct (k_queue _ _ _ K fe_id) as [H1 H2]. split; [done|]. intros k Hk. destruct (H2 k Hk) as [H3 H4]. split; [|done]. by apply not_elem_of_cons in H3 as [_ H3].
Qed.
(** The tasks of the controller, and those in [E] besides. *)
Definition inv (E : list Task) (X : list string) (c : Controller) : Prop := core X (E ++ ac_tasks c) c.
Lemma inv_exempt_not_queued E X c id : inv E X c → id ∈ X → ∀ fe_id, id ∉ queue_of c fe_id.
Proof. intros K Hx fe_id Hq. by apply (k_queue _ _ _ K fe_id) in Hq as [? _]. Qed.

(** *** Failing the allocations of a container *)

Lemma fail_result_for a reason : result_for a (make_failure_result a reason).
Proof. done. Qed.
Lemma take_prepared_delete id c : (take_prepared id c).2 = c <| ac_prepared_data ::= delete id |>.
Proof. done. Qed.
Lemma fail_allocation_inv E X c fe_id reason id a : inv E X c → ac_allocations c !! id = Some a → (∀ k, id ∉ queue_of c k) → is_running a = false →
  inv E X (fail_allocation_of_fe fe_id reason id a c) ∧
  ∀ k b, ac_allocations (fail_allocation_of_fe fe_id reason id a c) !! k = Some b → k = id → is_waiting b = false.
Proof.
  intros K Ha Hq Hr. unfold fail_allocation_of_fe, take_prepared. destruct (no_blobs _).
  - match goal with |- inv _ _ ?x ∧ _ => set (c' := x) end. assert (Eal : ac_allocations c' = <[id := a <| ma_state := AS_Done |>]> (ac_allocations c)) by exact (set_state_insert _ id a _ Ha).
    split; [|intros k b; rewrite Eal; intros Hk ->; rewrite lookup_insert_eq in Hk; by injection Hk as <-].
    apply (core_settle X (E ++ ac_tasks c) (E ++ ac_tasks c') c c' id a AS_Done K Ha Hq); try done. by rewrite Hr.
  - unfold start_finalization. change (ac_allocations (c <| ac_prepared_data ::= delete id |>)) with (ac_allocations c). rewrite Ha.
    match goal with |- inv _ _ ?x ∧ _ => set (c' := x) end.
    assert (Eal : ac_allocations c' = <[id := a <| ma_state := AS_Finalizing (make_failure_result (ma_allocation a) reason) (Some fe_id) |>]> (ac_allocations c)) by exact (set_state_insert _ id a _ Ha).
    split; [|intros k b; rewrite Eal; intros Hk ->; rewrite lookup_insert_eq in Hk; by injection Hk as <-].
    apply (core_settle X (E ++ ac_tasks c) (E ++ ac_tasks c') c c' id a (AS_Finalizing (make_failure_result (ma_allocation a) reason) (Some fe_id)) K Ha Hq); try done.
    + split; [|done]. change (ac_tasks c') with (ac_tasks c ++ [TK_Finalize id]). set_solver.
    + change (ac_tasks c') with (ac_tasks c ++ [TK_Finalize id]). set_solver.
    + by rewrite Hr.
Qed.
Lemma inv_effect E X c e : inv E X c → inv E X (perform e c).
Proof. intros K. split; apply K. Qed.
Lemma fail_one_inv E X c fe_id reason id : inv E (id :: X) c → inv E X (fail_one fe_id reason c id).
Proof.
  intros K. unfold fail_one. destruct (ac_allocations c !! id) as [a|] eqn:Ha; [|apply (core_drop _ _ _ id K); intros b Hb; congruence].
  assert (Hq := inv_exempt_not_queued E (id :: X) c id K ltac:(set_solver)).
  destruct (ma_state a) eqn:Est.
  - destruct (fail_allocation_inv E (id :: X) (perform (EF_CancelAllocation id) c) fe_id reason id a (inv_effect _ _ _ _ K) Ha Hq) as [H1 H2]; [by unfold is_running; rewrite Est|].
    apply (core_drop _ _ _ id H1). intros b Hb. by apply (H2 id b Hb).
  - destruct (fail_allocation_inv E (id :: X) c fe_id reason id a K Ha Hq) as [H1 H2]; [by unfold is_running; rewrite Est|]. apply (core_drop _ _ _ id H1). intros b Hb. by apply (H2 id b Hb).
  - destruct (fail_allocation_inv E (id :: X) c fe_id reason id a K Ha Hq) as [H1 H2]; [by unfold is_running; rewrite Est|]. apply (core_drop _ _ _ id H1). intros b Hb. by apply (H2 id b Hb).
  - apply (core_drop _ _ _ id (inv_effect E (id :: X) c (EF_CancelAllocation id) K)). intros b Hb. change (ac_allocations c !! id = Some b) in Hb. unfold is_waiting. replace b with a by congruence. by rewrite Est.
  - apply (core_drop _ _ _ id K). intros b Hb. unfold is_waiting. replace b with a by congruence. by rewrite Est.
  - apply (core_drop _ _ _ id K). intros b Hb. unfold is_waiting. replace b with a by congruence. by rewrite Est.
Qed.
Lemma fail_all_inv E fe_id reason ids : ∀ c, inv E ids c → inv E [] (foldl (fail_one fe_id reason) c ids).
Proof. induction ids as [|id ids IH]; intros c K; [done|]. cbn. by apply IH, fail_one_inv. Qed.

(** *** GPUs *)

Lemma held_insert (m : gmap string ManagedFE) k f :
  concat ((mf_allocated_gpu_uuids ∘ snd) <$> map_to_list (<[k := f]> m)) ≡ₚ
  mf_allocated_gpu_uuids f ++ concat ((mf_allocated_gpu_uuids ∘ snd) <$> map_to_list (delete k m)).
Proof. rewrite <-insert_delete_eq, map_to_list_insert by apply lookup_delete_eq. done. Qed.
Lemma held_split (m : gmap string ManagedFE) k f : m !! k = Some f →
  concat ((mf_allocated_gpu_uuids ∘ snd) <$> map_to_list m) ≡ₚ mf_allocated_gpu_uuids f ++ concat ((mf_allocated_gpu_uuids ∘ snd) <$> map_to_list (delete k m)).
Proof. intros H. rewrite <-held_insert. by rewrite insert_id. Qed.
Lemma pop_gpus_spec n : ∀ free uuids, (n ≤ length free)%nat →
  let '(us, rest) := pop_gpus n free uuids in us ++ (gi_uuid <$> rest) ≡ₚ uuids ++ (gi_uuid <$> free).
Proof.
  induction n as [|n IH]; intros free uuids Hn; cbn [pop_gpus]; [done|]. destruct free as [|g free _] using rev_ind; [cbn in Hn; lia|].
  rewrite last_snoc, removelast_last. specialize (IH free (uuids ++ [gi_uuid g])). destruct (pop_gpus n free _) as [us rest].
  rewrite IH by (rewrite length_app in Hn; cbn in Hn; lia). rewrite fmap_app. cbn. rewrite <-app_assoc. f_equiv. apply Permutation_cons_append.
Qed.
Lemma allocate_spec n ga us ga' : 0 ≤ n → allocate n ga = Some (us, ga') →
  ga_all_gpus ga' = ga_all_gpus ga ∧ us ++ (gi_uuid <$> ga_free_gpus ga') ≡ₚ gi_uuid <$> ga_free_gpus ga.
Proof.
  unfold allocate. intros Hn. case_bool_decide as Hlt; [done|]. pose proof (pop_gpus_spec (Z.to_nat n) (ga_free_gpus ga) []) as H.
  destruct (pop_gpus _ _ _) as [us' rest]. intros [= <- <-]. split; [done|]. apply H. lia.
Qed.
Lemma deallocate_spec us : ∀ ga, Forall (λ u, u ∈ gi_uuid <$> ga_all_gpus ga) us →
  ga_all_gpus (deallocate us ga) = ga_all_gpus ga ∧ (gi_uuid <$> ga_free_gpus (deallocate us ga)) = (gi_uuid <$> ga_free_gpus ga) ++ us.
Proof.
  induction us as [|u us IH]; intros ga Hus; [by rewrite app_nil_r|]. apply Forall_cons in Hus as [Hu Hus]. cbn [deallocate foldl].
  destruct (List.find (λ g, bool_decide (gi_uuid g = u)) (ga_all_gpus ga)) as [g|] eqn:Ef.
  - apply find_some in Ef as [_ Eg]. apply bool_decide_eq_true_1 in Eg. destruct (IH (MkGpuAllocator (ga_all_gpus ga) (ga_free_gpus ga ++ [g])) Hus) as [H1 H2].
    unfold deallocate in *. rewrite H1, H2. split; [done|]. cbn. rewrite fmap_app. cbn. by rewrite <-app_assoc, Eg.
  - exfalso. apply list_elem_of_fmap in Hu as (g & -> & Hg). apply list_elem_of_In in Hg. pose proof (find_none _ _ Ef _ Hg) as Hn. cbn in Hn. by rewrite bool_decide_eq_true_2 in Hn.
Qed.

(** *** Changes of one container *)

Lemma core_container X X' T T' c c' fe_id f' :
  core X T c → T ⊆ T' → ac_allocations c' = ac_allocations c → ac_prepared_data c' = ac_prepared_data c → ac_running_count c' = ac_running_count c →
  ac_containers c' = <[fe_id := f']> (ac_containers c) → fe_ok T' c' fe_id f' →
  (∀ k, queue_of c' k = queue_of c k ∨ queue_of c' k = []) → (∀ k id, id ∈ queue_of c' k → id ∉ X') →
  (∀ id a, ac_allocations c !! id = Some a → is_waiting a = true → id ∉ X' →
    id ∉ X ∧ queue_of c' (ma_fe_id a) = queue_of c (ma_fe_id a) ∧ (alive_fe c (ma_fe_id a) = true → alive_fe c' (ma_fe_id a) = true)) →
  (gi_uuid <$> ga_free_gpus (ac_gpus c')) ++ held_gpus c' ≡ₚ gi_uuid <$> ga_all_gpus (ac_gpus c') →
  core X' T' c'.
Proof.
  intros K HT Eal Epr Erc Ect Hfe Hq HX Hw Hg. assert (Er : ∀ k, running_on c' k = running_on c k) by (intros; unfold running_on; by rewrite Eal). split.
  - intros id a. rewrite Eal. intros Ha. eapply alloc_ok_frame; [apply (k_alloc _ _ _ K _ _ Ha)|done|by rewrite Epr|]. intros H1 H2. destruct (Hw id a Ha H1 H2) as (H3 & H4 & H5). by rewrite H4.
  - intros k. destruct (k_queue _ _ _ K k) as [H1 H2]. destruct (Hq k) as [E|E]; [|rewrite E; split; [apply NoDup_nil_2|intros id Hid; by apply not_elem_of_nil in Hid]].
    split; [by rewrite E|]. intros id Hid. split; [by apply (HX k)|]. rewrite E in Hid. rewrite Eal. by apply H2.
  - intros id. rewrite Epr, Eal. apply K.
  - intros k f. rewrite Ect. intros Hk. apply lookup_insert_Some in Hk as [[<- <-]|[Hne Hk]]; [done|]. eapply fe_ok_frame; [by apply (k_fe _ _ _ K)|done|by rewrite Erc|done].
  - intros k. rewrite Ect, Erc. intros Hk. apply lookup_insert_None in Hk as [Hk _]. by apply K.
  - done.
Qed.

Lemma set_fe_state_insert c fe_id f st : ac_containers c !! fe_id = Some f → ac_containers (set_fe_state fe_id st c) = <[fe_id := f <| mf_state := st |>]> (ac_containers c).
Proof.
  intros H. change (ac_containers (set_fe_state fe_id st c)) with (alter (λ f, f <| mf_state := st |>) fe_id (ac_containers c)). apply map_eq. intros k.
  destruct (decide (k = fe_id)) as [->|Hne]; [by rewrite lookup_alter_eq, lookup_insert_eq, H|by rewrite lookup_alter_ne, lookup_insert_ne by done].
Qed.
Lemma core_same X T T' c c' :
  core X T c → T ⊆ T' → ac_allocations c' = ac_allocations c → ac_prepared_data c' = ac_prepared_data c → ac_running_count c' = ac_running_count c →
  ac_containers c' = ac_containers c → ac_waiting_queue c' = ac_waiting_queue c → ac_gpus c' = ac_gpus c → core X T' c'.
Proof.
  intros K HT Eal Epr Erc Ect Ewq Eg. split; unfold queue_of, held_gpus; rewrite ?Eal, ?Epr, ?Erc, ?Ect, ?Ewq, ?Eg; try apply K.
  - intros id a Ha. eapply alloc_ok_frame; [apply (k_alloc _ _ _ K _ _ Ha)|done|by rewrite Epr|]. unfold queue_of, alive_fe. by rewrite Ewq, Ect.
  - intros k f Hf. eapply fe_ok_frame; [by apply (k_fe _ _ _ K)|done|by rewrite Erc|]. unfold running_on. by rewrite Eal.
Qed.
(** The allocations of a container that has been lost. *)
Lemma fail_allocations_inv E c c1 fe_id f' r reason :
  inv E [] c → ac_tasks c1 = ac_tasks c → ac_allocations c1 = ac_allocations c → ac_prepared_data c1 = ac_prepared_data c → ac_running_count c1 = ac_running_count c →
  ac_waiting_queue c1 = ac_waiting_queue c → ac_containers c1 = <[fe_id := f']> (ac_containers c) → mf_state f' = FS_Terminated r → fe_ok (E ++ ac_tasks c1) c1 fe_id f' →
  (gi_uuid <$> ga_free_gpus (ac_gpus c1)) ++ held_gpus c1 ≡ₚ gi_uuid <$> ga_all_gpus (ac_gpus c1) →
  inv E [] (fail_allocations_for_fe fe_id reason c1).
Proof.
  intros K Et Eal Epr Erc Ewq Ect Est Hfe Hg. unfold fail_allocations_for_fe. apply fail_all_inv.
  set (ids := (filter (λ ka, failable fe_id ka.2 = true) (map_iter (ac_allocations c1))).*1).
  assert (Hids : ∀ id a, ac_allocations c !! id = Some a → id ∈ ids ↔ failable fe_id a = true).
  { intros id a Ha. unfold ids. rewrite list_elem_of_fmap. split.
    - intros ([k b] & -> & Hk). apply list_elem_of_filter in Hk as [H1 H2]. apply elem_of_map_iter in H2. rewrite Eal in H2. cbn in *. by replace a with b by congruence.
    - intros Hf. exists (id, a). split; [done|]. apply list_elem_of_filter. split; [done|]. apply elem_of_map_iter. by rewrite Eal. }
  assert (Hw : ∀ a, is_waiting a = true → failable fe_id a = true ↔ ma_fe_id a = fe_id).
  { intros a. unfold is_waiting, failable. destruct (ma_state a); try done; by rewrite andb_true_r, bool_decide_eq_true. }
  assert (Eq : ∀ k, queue_of (c1 <| ac_waiting_queue ::= delete fe_id |>) k = if decide (k = fe_id) then [] else queue_of c k).
  { intros k. unfold queue_of. change (ac_waiting_queue (c1 <| ac_waiting_queue ::= delete fe_id |>)) with (delete fe_id (ac_waiting_queue c1)).
    rewrite Ewq. destruct (decide (k = fe_id)) as [->|Hne]; [by rewrite lookup_delete_eq|by rewrite lookup_delete_ne]. }
  apply (core_container [] ids (E ++ ac_tasks c) _ c _ fe_id f' K); try done.
  - by rewrite <-Et.
  - intros k. rewrite Eq. destruct (decide (k = fe_id)); auto.
  - intros k id. rewrite Eq. destruct (decide (k = fe_id)); [set_solver|]. intros Hid. destruct (proj2 (k_queue _ _ _ K k) id Hid) as (_ & a & H1 & H2 & H3).
    rewrite (Hids id a H1), (Hw a H3). congruence.
  - intros id a H1 H2. rewrite (Hids id a H1), (Hw a H2), Eq. intros Hne. rewrite decide_False by done. split; [set_solver|]. split; [done|].
    unfold alive_fe. change (ac_containers (c1 <| ac_waiting_queue ::= delete fe_id |>)) with (ac_containers c1). rewrite Ect, lookup_insert_ne by done. done.
Qed.
Lemma return_gpus_inv E X c fe_id : inv E X c → inv E X (return_gpus fe_id c).
Proof.
  intros K. unfold return_gpus. destruct (ac_containers c !! fe_id) as [f|] eqn:Hf; [|done]. match goal with |- inv _ _ ?x => set (c' := x) end.
  assert (Ect : ac_containers c' = <[fe_id := f <| mf_allocated_gpu_uuids := [] |>]> (ac_containers c)).
  { change (ac_containers c') with (alter (λ f, f <| mf_allocated_gpu_uuids := [] |>) fe_id (ac_containers c)). apply map_eq. intros k.
    destruct (decide (k = fe_id)) as [->|Hne]; [by rewrite lookup_alter_eq, lookup_insert_eq, Hf|by rewrite lookup_alter_ne, lookup_insert_ne by done]. }
  assert (Hal : ∀ k, alive_fe c k = true → alive_fe c' k = true).
  { intros k. unfold alive_fe. rewrite Ect. destruct (decide (k = fe_id)) as [->|Hne]; [by rewrite lookup_insert_eq, Hf|by rewrite lookup_insert_ne by done]. }
  apply (core_container X X (E ++ ac_tasks c) _ c c' fe_id (f <| mf_allocated_gpu_uuids := [] |>) K); try done.
  - exact (k_fe _ _ _ K fe_id f Hf).
  - by left.
  - intros k id Hid. by apply (k_queue _ _ _ K k) in Hid as [? _].
  - intros id a _ _ Hx. auto.
  - pose proof (k_gpus _ _ _ K) as Hg. unfold held_gpus in *. rewrite Ect, held_insert. rewrite (held_split _ _ _ Hf) in Hg. cbn [mf_allocated_gpu_uuids set_field app].
    change (ac_gpus c') with (deallocate (mf_allocated_gpu_uuids f) (ac_gpus c)). destruct (deallocate_spec (mf_allocated_gpu_uuids f) (ac_gpus c)) as [H1 H2].
    { apply Forall_forall. intros u Hu. rewrite <-Hg. set_solver. }
    rewrite H1, H2, <-Hg, <-app_assoc. done.
Qed.

(** Failing the allocations of a container leaves the containers, the queues of the
    others and the running allocations as they are. *)
Record untouched (fe_id : string) (c c' : Controller) : Prop := {
  u_containers : ac_containers c' = ac_containers c;
  u_running : ∀ k, running_on c' k = running_on c k;
  u_queue : ∀ k, queue_of c' k = if decide (k = fe_id) then [] else queue_of c k;
  u_gpus : ac_gpus c' = ac_gpus c;
}.
Lemma start_finalization_allocations id r ctx t c a : ac_allocations c !! id = Some a →
  ac_allocations (start_finalization id r ctx t c) = <[id := a <| ma_state := AS_Finalizing r t |>]> (ac_allocations c).
Proof. intros Ha. unfold start_finalization. rewrite Ha. exact (set_state_insert c id a _ Ha). Qed.
Lemma start_finalization_frame id r ctx t c :
  ac_containers (start_finalization id r ctx t c) = ac_containers c ∧ ac_waiting_queue (start_finalization id r ctx t c) = ac_waiting_queue c ∧
  ac_gpus (start_finalization id r ctx t c) = ac_gpus c.
Proof. unfold start_finalization. by destruct (ac_allocations c !! id). Qed.
Lemma fail_allocation_frame fe_id reason id a c : ac_allocations c !! id = Some a → is_running a = false →
  let c' := fail_allocation_of_fe fe_id reason id a c in
  ac_containers c' = ac_containers c ∧ ac_waiting_queue c' = ac_waiting_queue c ∧ ac_gpus c' = ac_gpus c ∧ ∀ k, running_on c' k = running_on c k.
Proof.
  intros Ha Hr c'. assert (∃ st, ac_allocations c' = <[id := a <| ma_state := st |>]> (ac_allocations c) ∧ is_running (a <| ma_state := st |>) = false) as (st & Eal & Hst).
  { unfold c', fail_allocation_of_fe, take_prepared. destruct (no_blobs _); [exists AS_Done; split; [exact (set_state_insert _ id a _ Ha)|done]|].
    rewrite (start_finalization_allocations id _ _ _ _ a) by exact Ha. eexists. split; [reflexivity|done]. }
  assert (∀ k, running_on c' k = running_on c k) as Hk.
  { intros k. pose proof (running_on_insert c c' id a _ k Ha Eal) as H. unfold runs_on in H. rewrite Hr, Hst, !andb_false_r in H. lia. }
  unfold c', fail_allocation_of_fe, take_prepared in *. destruct (no_blobs _); [done|]. match goal with |- context [start_finalization ?i ?r ?x ?t ?d] => destruct (start_finalization_frame i r x t d) as (F1 & F2 & F3) end. by split_and!.
Qed.
Lemma fail_one_frame fe_id reason c id : let c' := fail_one fe_id reason c id in
  ac_containers c' = ac_containers c ∧ ac_waiting_queue c' = ac_waiting_queue c ∧ ac_gpus c' = ac_gpus c ∧ ∀ k, running_on c' k = running_on c k.
Proof.
  unfold fail_one. destruct (ac_allocations c !! id) as [a|] eqn:Ha; [|done].
  destruct (ma_state a) eqn:Est; try done; [apply (fail_allocation_frame fe_id reason id a (perform (EF_CancelAllocation id) c) Ha)|apply (fail_allocation_frame fe_id reason id a c Ha)..];
    unfold is_running; by rewrite Est.
Qed.
Lemma fail_allocations_untouched fe_id reason c : untouched fe_id c (fail_allocations_for_fe fe_id reason c).
Proof.
  unfold fail_allocations_for_fe. generalize (filter (λ ka, failable fe_id ka.2 = true) (map_iter (ac_allocations c))).*1. intros ids.
  assert (untouched fe_id c (c <| ac_waiting_queue ::= delete fe_id |>)) as U.
  { split; try done. intros k. unfold queue_of. change (ac_waiting_queue (c <| ac_waiting_queue ::= delete fe_id |>)) with (delete fe_id (ac_waiting_queue c)).
    destruct (decide (k = fe_id)) as [->|Hne]; [by rewrite lookup_delete_eq|by rewrite lookup_delete_ne]. }
  revert U. generalize (c <| ac_waiting_queue ::= delete fe_id |>). induction ids as [|id ids IH]; intros c1 U; [done|]. cbn. apply IH.
  destruct (fail_one_frame fe_id (if is_startup_failure reason then reason else AFR_ContainerTerminated) c1 id) as (H1 & H2 & H3 & H4). destruct U as [U1 U2 U3 U4].
  split; [congruence|intros; by rewrite H4|intros k; rewrite <-U3; unfold queue_of; by rewrite H2|congruence].
Qed.

(** *** Containers that end *)

(** GPUs of a terminated container have been returned. *)
Definition returned (c : Controller) : Prop := ∀ fe_id f r, ac_containers c !! fe_id = Some f → mf_state f = FS_Terminated r → mf_allocated_gpu_uuids f = [].
(** The end of a container: its state, its allocations and its GPUs. *)
Definition terminated_with (fe_id : string) (reason : ContainerTerminationReasonPb) (failure : AllocationFailureReason) (c : Controller) : Controller :=
  return_gpus fe_id (fail_allocations_for_fe fe_id failure (set_fe_state fe_id (FS_Terminated reason) c)).
Lemma terminated_with_inv E c fe_id f r reason : inv E [] c → ac_containers c !! fe_id = Some f → inv E [] (terminated_with fe_id r reason c).
Proof.
  intros K Hf. apply return_gpus_inv. pose proof (set_fe_state_insert c fe_id f (FS_Terminated r) Hf) as Ect.
  apply (fail_allocations_inv E c _ fe_id (f <| mf_state := FS_Terminated r |>) r reason K); try done.
  - destruct (k_fe _ _ _ K fe_id f Hf) as (F1 & F2 & F3 & F4). by split_and!.
  - pose proof (k_gpus _ _ _ K) as Hg. unfold held_gpus in *. rewrite Ect, held_insert. rewrite (held_split _ _ _ Hf) in Hg. exact Hg.
Qed.
Lemma return_gpus_containers fe_id c f : ac_containers c !! fe_id = Some f → ac_containers (return_gpus fe_id c) = <[fe_id := f <| mf_allocated_gpu_uuids := [] |>]> (ac_containers c).
Proof.
  intros Hf. unfold return_gpus. rewrite Hf. change (alter (λ f, f <| mf_allocated_gpu_uuids := [] |>) fe_id (ac_containers c) = <[fe_id := f <| mf_allocated_gpu_uuids := [] |>]> (ac_containers c)).
  apply map_eq. intros k. destruct (decide (k = fe_id)) as [->|Hne]; [by rewrite lookup_alter_eq, lookup_insert_eq, Hf|by rewrite lookup_alter_ne, lookup_insert_ne by done].
Qed.
Lemma return_gpus_frame fe_id c : (∀ k, running_on (return_gpus fe_id c) k = running_on c k) ∧ (∀ k, queue_of (return_gpus fe_id c) k = queue_of c k) ∧
  ac_allocations (return_gpus fe_id c) = ac_allocations c ∧ ac_tasks (return_gpus fe_id c) = ac_tasks c ∧ ac_outcomes (return_gpus fe_id c) = ac_outcomes c.
Proof. unfold return_gpus. by destruct (ac_containers c !! fe_id). Qed.
Lemma terminated_with_frame fe_id r reason c f : ac_containers c !! fe_id = Some f → let c' := terminated_with fe_id r reason c in
  ac_containers c' = <[fe_id := f <| mf_state := FS_Terminated r |> <| mf_allocated_gpu_uuids := [] |>]> (ac_containers c) ∧
  (∀ k, running_on c' k = running_on c k) ∧ (∀ k, queue_of c' k = if decide (k = fe_id) then [] else queue_of c k).
Proof.
  intros Hf. unfold terminated_with. cbv zeta. set (c1 := set_fe_state _ _ _). destruct (fail_allocations_untouched fe_id reason c1) as [U1 U2 U3 _].
  pose proof (set_fe_state_insert c fe_id f (FS_Terminated r) Hf) as Ect. fold c1 in Ect.
  set (c2 := fail_allocations_for_fe fe_id reason c1) in *. destruct (return_gpus_frame fe_id c2) as (R1 & R2 & _). split_and!.
  - rewrite (return_gpus_containers fe_id c2 (f <| mf_state := FS_Terminated r |>)) by (by rewrite U1, Ect, lookup_insert_eq). rewrite U1, Ect. apply insert_insert_eq.
  - intros k. rewrite R1, U2. done.
  - intros k. rewrite R2, U3. done.
Qed.
Lemma terminated_with_returned fe_id r reason c f : ac_containers c !! fe_id = Some f → returned c → returned (terminated_with fe_id r reason c).
Proof.
  intros Hf HR k g r' Hk. rewrite (proj1 (terminated_with_frame fe_id r reason c f Hf)) in Hk. apply lookup_insert_Some in Hk as [[<- <-]|[_ Hk]]; [done|]. by apply (HR k).
Qed.

Definition sound (E : list Task) (c : Controller) : Prop := inv E [] c ∧ returned c.
(** Changes that concern neither containers nor allocations. *)
Lemma sound_same E c c' :
  sound E c → ac_tasks c ⊆ ac_tasks c' → ac_allocations c' = ac_allocations c → ac_prepared_data c' = ac_prepared_data c → ac_running_count c' = ac_running_count c →
  ac_containers c' = ac_containers c → ac_waiting_queue c' = ac_waiting_queue c → ac_gpus c' = ac_gpus c → sound E c'.
Proof.
  intros [K HR] HT. intros. split; [|unfold returned; by replace (ac_containers c') with (ac_containers c)].
  apply (core_same [] (E ++ ac_tasks c) (E ++ ac_tasks c') c c'); try done. set_solver.
Qed.
Lemma sound_try_send E r c : sound E c → sound E (try_send room r c).
Proof. intros S. by apply (sound_same E c). Qed.
Lemma sound_broadcast E c : sound E c → sound E (broadcast_state c).
Proof. intros S. by apply (sound_same E c). Qed.
Lemma sound_perform E e c : sound E c → sound E (perform e c).
Proof. intros S. by apply (sound_same E c). Qed.
Lemma sound_spawn E t c : sound E c → sound E (spawn t c).
Proof. intros S. apply (sound_same E c); try done. change (ac_tasks (spawn t c)) with (ac_tasks c ++ [t]). set_solver. Qed.
Lemma terminated_with_sound E c fe_id f r reason : sound E c → ac_containers c !! fe_id = Some f → sound E (terminated_with fe_id r reason c).
Proof. intros [K HR] Hf. split; [by eapply terminated_with_inv|by eapply terminated_with_returned]. Qed.
Lemma forget_container_sound E c fe_id f r : sound E c → ac_containers c !! fe_id = Some f → mf_state f = FS_Terminated r →
  sound E (c <| ac_containers ::= delete fe_id |> <| ac_waiting_queue ::= delete fe_id |> <| ac_running_count ::= delete fe_id |>).
Proof.
  intros [K HR] Hf Est. set (c' := c <| ac_containers ::= delete fe_id |> <| ac_waiting_queue ::= delete fe_id |> <| ac_running_count ::= delete fe_id |>).
  assert (Hd : alive_fe c fe_id = false) by (unfold alive_fe; by rewrite Hf, Est).
  assert (Ect : ac_containers c' = delete fe_id (ac_containers c)) by done. assert (Erc : ac_running_count c' = delete fe_id (ac_running_count c)) by done.
  assert (Eq : ∀ k, queue_of c' k = if decide (k = fe_id) then [] else queue_of c k).
  { intros k. unfold queue_of. change (ac_waiting_queue c') with (delete fe_id (ac_waiting_queue c)).
    destruct (decide (k = fe_id)) as [->|Hne]; [by rewrite lookup_delete_eq|by rewrite lookup_delete_ne]. }
  split; [|intros k g r'; rewrite Ect; intros Hk; apply lookup_delete_Some in Hk as [_ Hk]; by apply (HR k)].
  split.
  - intros id a Ha. eapply alloc_ok_frame; [apply (k_alloc _ _ _ K _ _ Ha)|done|done|]. intros Hw _. split; [set_solver|].
    destruct (k_alloc _ _ _ K _ _ Ha) as [_ Ho]. assert (Hal : alive_fe c (ma_fe_id a) = true) by (unfold is_waiting in Hw; destruct (ma_state a); try done; exact (proj2 (proj2 Ho (not_elem_of_nil _)))).
    assert (Hne : ma_fe_id a ≠ fe_id) by (intros E'; rewrite E' in Hal; congruence). rewrite Eq, decide_False by done. split; [done|].
    unfold alive_fe. by rewrite Ect, lookup_delete_ne.
  - intros k. rewrite Eq. destruct (decide (k = fe_id)); [|apply (k_queue _ _ _ K k)]. split; [apply NoDup_nil_2|]. intros id Hid. by apply not_elem_of_nil in Hid.
  - apply K.
  - intros k g. rewrite Ect. intros Hk. apply lookup_delete_Some in Hk as [Hne Hk]. eapply fe_ok_frame; [by apply (k_fe _ _ _ K)|done|by rewrite Erc, lookup_delete_ne|done].
  - intros k. rewrite Ect, Erc. intros Hk. destruct (decide (k = fe_id)) as [->|Hne]; [by rewrite lookup_delete_eq|]. rewrite lookup_delete_ne in Hk by done. rewrite lookup_delete_ne by done. by apply (k_count _ _ _ K).
  - pose proof (k_gpus _ _ _ K) as Hg. unfold held_gpus in *. rewrite Ect. rewrite (held_split _ _ _ Hf), (HR _ _ _ Hf Est) in Hg. exact Hg.
Qed.
Lemma remove_container_shape c fe_id f : ac_containers c !! fe_id = Some f →
  (∃ r, mf_state f = FS_Terminated r ∧ remove_ac_container room fe_id c = c <| ac_containers ::= delete fe_id |> <| ac_waiting_queue ::= delete fe_id |> <| ac_running_count ::= delete fe_id |>) ∨
  ∃ d, remove_ac_container room fe_id c = send_container_terminated room fe_id TR_FunctionCancelled (terminated_with fe_id TR_FunctionCancelled AFR_ContainerTerminated d) ∧
    ∃ l, d = c <| ac_effects := l |>.
Proof.
  intros Hf. unfold remove_ac_container. rewrite Hf. destruct (mf_state f) as [|h|r] eqn:Est; [right|right|left; eauto].
  - exists c. split; [done|]. exists (ac_effects c). by destruct c.
  - eexists. split; [reflexivity|]. eexists. reflexivity.
Qed.
Lemma remove_container_sound E c fe_id : sound E c → sound E (remove_ac_container room fe_id c).
Proof.
  intros S. destruct (ac_containers c !! fe_id) as [f|] eqn:Hf; [|unfold remove_ac_container; by rewrite Hf].
  destruct (remove_container_shape c fe_id f Hf) as [(r & Est & ->)|(d & -> & l & ->)]; [by eapply forget_container_sound|].
  apply sound_try_send. eapply terminated_with_sound; [|exact Hf]. by apply (sound_same E c).
Qed.
Lemma remove_container_frame c fe_id : let c' := remove_ac_container room fe_id c in
  (∀ k, running_on c' k = running_on c k) ∧ ∀ k, ac_containers c' !! k = None → k = fe_id ∨ ac_containers c !! k = None.
Proof.
  cbv zeta. destruct (ac_containers c !! fe_id) as [f|] eqn:Hf; [|unfold remove_ac_container; rewrite Hf; auto].
  destruct (remove_container_shape c fe_id f Hf) as [(r & Est & ->)|(d & -> & l & ->)].
  - split; [done|]. intros k Hk. change (delete fe_id (ac_containers c) !! k = None) in Hk. destruct (decide (k = fe_id)); [by left|right]. by rewrite lookup_delete_ne in Hk.
  - set (d := c <| ac_effects := l |>). destruct (terminated_with_frame fe_id TR_FunctionCancelled AFR_ContainerTerminated d f Hf) as (H1 & H2 & _). split; [exact H2|].
    intros k Hk. right. change (ac_containers (terminated_with fe_id TR_FunctionCancelled AFR_ContainerTerminated d) !! k = None) in Hk.
    rewrite H1 in Hk. by apply lookup_insert_None in Hk as [Hk _].
Qed.

(** *** Containers that start *)

Lemma fe_ok_new T c fe_id d st uuids n :
  ac_running_count c !! fe_id = None → running_on c fe_id = 0%nat → 1 ≤ n → (st = FS_Starting → TK_Startup fe_id ∈ T) → fe_ok T c fe_id (MkManagedFE d st n uuids).
Proof. intros Hc Hr Hn Hs. unfold fe_ok. rewrite Hc, Hr. cbn. split_and!; [done|done|lia|done]. Qed.
Lemma create_ac_container_sound E c d : sound E c → ac_containers c !! default "" (cd_id d) = None → 1 ≤ default 1 (cd_max_concurrency d) → running_on c (default "" (cd_id d)) = 0%nat →
  sound E (create_ac_container room d c) ∧ (∀ k, running_on (create_ac_container room d c) k = running_on c k) ∧
  ∀ k, ac_containers (create_ac_container room d c) !! k = None → ac_containers c !! k = None.
Proof.
  intros [K HR] Hn Hm Hr. unfold create_ac_container. set (fe_id := default "" (cd_id d)) in *. set (n := default 1 (cd_max_concurrency d)) in *.
  assert (Hcnt := k_count _ _ _ K _ Hn). pose proof (k_gpus _ _ _ K) as Hg.
  destruct (if bool_decide (0 < gpu_count d) then _ else _) as [[uuids gpus]|] eqn:Ea; cbv zeta.
  - assert (ga_all_gpus gpus = ga_all_gpus (ac_gpus c) ∧ uuids ++ (gi_uuid <$> ga_free_gpus gpus) ≡ₚ gi_uuid <$> ga_free_gpus (ac_gpus c)) as [G1 G2].
    { case_bool_decide as Hc; [eapply allocate_spec; [|done]; lia|]. by injection Ea as <- <-. }
    set (c' := spawn _ _). assert (Ect : ac_containers c' = <[fe_id := MkManagedFE d FS_Starting n uuids]> (ac_containers c)) by done.
    split; [|split; [done|intros k; rewrite Ect; intros Hk; by apply lookup_insert_None in Hk as [Hk _]]]. split.
    + apply (core_container [] [] (E ++ ac_tasks c) _ c c' fe_id (MkManagedFE d FS_Starting n uuids) K); try done.
      * change (ac_tasks c') with (ac_tasks c ++ [TK_Startup fe_id]). set_solver.
      * apply fe_ok_new; try done. change (ac_tasks c') with (ac_tasks c ++ [TK_Startup fe_id]). set_solver.
      * by left.
      * set_solver.
      * intros id a _ _ Hx. split; [done|]. split; [done|]. unfold alive_fe. rewrite Ect. destruct (decide (ma_fe_id a = fe_id)) as [->|Hne]; [by rewrite Hn|by rewrite lookup_insert_ne].
      * change (ac_gpus c') with gpus. rewrite G1. unfold held_gpus in *. rewrite Ect, held_insert, delete_id by done. cbn [mf_allocated_gpu_uuids]. rewrite <-Hg, <-G2, app_assoc. f_equiv. apply Permutation_app_comm.
    + intros k f r. rewrite Ect. intros Hk. apply lookup_insert_Some in Hk as [[_ <-]|[_ Hk]]; [done|by apply (HR k)].
  - set (f' := MkManagedFE d (FS_Terminated TR_StartupFailedInternalError) n []). set (c1 := c <| ac_containers ::= <[fe_id := f']> |>). set (reason := termination_to_failure_reason _).
    destruct (fail_allocations_untouched fe_id reason c1) as [U1 U2 _ _]. assert (Ect : ac_containers c1 = <[fe_id := f']> (ac_containers c)) by done. split; [|split].
    + apply sound_broadcast, sound_try_send. split.
      * eapply (fail_allocations_inv E c c1 fe_id f'); try done; [by apply fe_ok_new|]. unfold held_gpus in *. rewrite Ect, held_insert, delete_id by done. exact Hg.
      * intros k f r. rewrite U1, Ect. intros Hk. apply lookup_insert_Some in Hk as [[_ <-]|[_ Hk]]; [done|by apply (HR k)].
    + intros k. exact (U2 k).
    + intros k Hk. change (ac_containers (fail_allocations_for_fe fe_id reason c1) !! k = None) in Hk. rewrite U1, Ect in Hk. by apply lookup_insert_None in Hk as [Hk _].
Qed.

Definition creatable (added : list ContainerDescription) (c : Controller) : Prop :=
  ∀ d id, d ∈ added → cd_id d = Some id → 1 ≤ default 1 (cd_max_concurrency d) ∧ (ac_containers c !! id = None → running_on c id = 0%nat).
Lemma remove_tracked_sound E removed : ∀ acc, sound E acc.1 →
  let acc' := foldl (remove_tracked room) acc removed in
  sound E acc'.1 ∧ (∀ k, running_on acc'.1 k = running_on acc.1 k) ∧ ∀ k, ac_containers acc'.1 !! k = None → k ∈ removed ∨ ac_containers acc.1 !! k = None.
Proof.
  induction removed as [|id removed IH]; intros [c b] S; [by eauto|]. cbn [foldl]. unfold remove_tracked at 2 4 6. cbn [fst] in *.
  destruct (ac_containers c !! id) as [f|] eqn:Hf.
  - destruct (IH (remove_ac_container room id c, true) (remove_container_sound E c id S)) as (H1 & H2 & H3). destruct (remove_container_frame c id) as [F1 F2]. cbn [fst] in *. split_and!; [done|..].
    + intros k. by rewrite H2, F1.
    + intros k Hk. destruct (H3 k Hk) as [H|H]; [set_solver|]. destruct (F2 k H) as [->|?]; [left; set_solver|by right].
  - destruct (IH (c, b) S) as (H1 & H2 & H3). split_and!; [done|done|]. intros k Hk. destruct (H3 k Hk); [left; set_solver|by right].
Qed.
Lemma create_untracked_sound E added : ∀ acc, sound E acc.1 → creatable added acc.1 → sound E (foldl (create_untracked room) acc added).1.
Proof.
  induction added as [|d added IH]; intros [c b] S Hc; [done|]. cbn [foldl]. unfold create_untracked at 2. cbn [fst] in *.
  assert (creatable added c) as Hc' by (intros d' id Hd; apply Hc; set_solver).
  destruct (cd_id d) as [id|] eqn:Ed; [|by apply IH]. destruct (ac_containers c !! id) as [f|] eqn:Hf; [by apply IH|].
  destruct (Hc d id ltac:(set_solver) Ed) as [H1 H2]. destruct (create_ac_container_sound E c d S) as (C1 & C2 & C3); [by rewrite Ed|done|rewrite Ed; by apply H2|].
  apply IH; [done|]. intros d' id' Hd Hid. destruct (Hc' d' id' Hd Hid) as [H3 H4]. split; [done|]. cbn [fst]. rewrite C2. auto.
Qed.
Lemma reconcile_containers_sound E added removed c : sound E c → admissible added removed c → sound E (reconcile_containers room added removed c).
Proof.
  intros S Ha. unfold reconcile_containers. destruct (remove_tracked_sound E removed (c, false) S) as (H1 & H2 & H3).
  assert (creatable added (foldl (remove_tracked room) (c, false) removed).1) as Hc.
  { intros d id Hd Hid. destruct (Ha d id Hd Hid) as [A1 A2]. split; [done|]. rewrite H2. intros Hn. apply A2. by apply H3. }
  pose proof (create_untracked_sound E added _ H1 Hc) as H. destruct (foldl (create_untracked room) _ added) as [c' changed]. cbn [fst] in H.
  destruct changed; [by apply sound_broadcast|done].
Qed.

(** *** Allocations that arrive and are forgotten *)

Lemma cleanup_sound E ids c : sound E c → sound E (cleanup_done_allocations ids c) ∧ ac_containers (cleanup_done_allocations ids c) = ac_containers c ∧
  ∀ k, running_on (cleanup_done_allocations ids c) k = running_on c k.
Proof.
  intros [K HR]. set (c' := cleanup_done_allocations ids c).
  assert (Hl : ∀ id a, ac_allocations c' !! id = Some a ↔ ac_allocations c !! id = Some a ∧ (is_done a = true → id ∈ ids)).
  { intros id a. unfold c', cleanup_done_allocations. cbn [ac_allocations set_field]. rewrite map_lookup_filter_Some. f_equiv. cbn. unfold is_done.
    destruct (ma_state a); rewrite ?bool_decide_eq_true; naive_solver. }
  assert (Hr : ∀ k, running_on c' k = running_on c k).
  { intros k. unfold running_on. f_equal. apply map_eq. intros id. apply option_eq. intros a. rewrite !map_lookup_filter_Some, Hl. cbn. unfold runs_on, is_running, is_done.
    destruct (ma_state a); rewrite ?andb_false_r; naive_solver. }
  split; [|by split]. split; [|exact HR]. split.
  - intros id a Ha. apply Hl in Ha as [Ha _]. apply (alloc_ok_frame [] [] (E ++ ac_tasks c) _ c); try done; [by apply (k_alloc _ _ _ K)]. 
  - intros k. destruct (k_queue _ _ _ K k) as [H1 H2]. split; [done|]. intros id Hid. destruct (H2 id Hid) as (H3 & a & H4 & H5 & H6). split; [done|].
    exists a. split; [|done]. apply Hl. split; [done|]. unfold is_waiting, is_done in *. by destruct (ma_state a).
  - intros id Hp. destruct (k_prepared _ _ _ K id Hp) as [a Ha]. exists a. apply Hl. split; [done|]. intros Hd. destruct (k_alloc _ _ _ K _ _ Ha) as [_ Ho].
    unfold is_done in Hd. destruct (ma_state a); try done. change (is_Some (ac_prepared_data c !! id)) in Hp. rewrite Ho in Hp. by destruct Hp.
  - intros k f Hf. eapply fe_ok_frame; [by apply (k_fe _ _ _ K)|done|done|done].
  - apply K.
  - apply K.
Qed.
Lemma add_sound E T c c' id a : sound E c → T = ac_tasks c' → ac_tasks c ⊆ T → ac_allocations c !! id = None → default "" (apb_allocation_id (ma_allocation a)) = id →
  (ma_state a = AS_Preparing ∧ TK_Prepare id ∈ T ∨ ma_state a = AS_Done) →
  ac_allocations c' = <[id := a]> (ac_allocations c) → ac_prepared_data c' = ac_prepared_data c → ac_running_count c' = ac_running_count c →
  ac_containers c' = ac_containers c → ac_waiting_queue c' = ac_waiting_queue c → ac_gpus c' = ac_gpus c → sound E c'.
Proof.
  intros [K HR] -> HT Hn Hid Hst Eal Epr Erc Ect Ewq Eg. split; [|unfold returned; by rewrite Ect].
  assert (Hp : ac_prepared_data c !! id = None).
  { destruct (ac_prepared_data c !! id) eqn:Hp; [|done]. destruct (k_prepared _ _ _ K id) as [? ?]; [by rewrite Hp|congruence]. }
  assert (Hr : ∀ k, running_on c' k = running_on c k).
  { intros k. unfold running_on. rewrite Eal, running_insert, delete_id by done. unfold runs_on, is_running. destruct Hst as [[-> _]| ->]; rewrite andb_false_r; lia. }
  split; unfold queue_of, held_gpus; rewrite ?Eal, ?Epr, ?Erc, ?Ect, ?Ewq, ?Eg; try apply K.
  - intros k b Hk. apply lookup_insert_Some in Hk as [[<- <-]|[Hne Hk]].
    + split; [done|]. destruct Hst as [[-> Ht]| ->]; rewrite Epr; [|done]. split; [set_solver|done].
    + apply (alloc_ok_frame [] [] (E ++ ac_tasks c) _ c); [by apply (k_alloc _ _ _ K)|set_solver|by rewrite Epr|]. unfold queue_of, alive_fe. by rewrite Ewq, Ect.
  - intros k. destruct (k_queue _ _ _ K k) as [H1 H2]. split; [done|]. intros x Hx. destruct (H2 x Hx) as (H3 & b & H4 & H5). split; [done|]. exists b. rewrite lookup_insert_ne; [done|]. intros ->. congruence.
  - intros k Hk. destruct (decide (k = id)) as [->|Hne]; [by rewrite lookup_insert_eq|]. rewrite lookup_insert_ne by done. by apply (k_prepared _ _ _ K).
  - intros k f Hf. apply (fe_ok_frame (E ++ ac_tasks c) _ c); [by apply (k_fe _ _ _ K)|set_solver|by rewrite Erc|done].
Qed.
Lemma add_allocation_sound E c x : sound E c → sound E (add_allocation room c x).
Proof.
  destruct x as [[fe_id al] seq]. intros S. unfold add_allocation. set (id := default "" (apb_allocation_id al)). destruct (ac_allocations c !! id) as [a|] eqn:Hn; [done|]. cbv zeta.
  destruct (alive_fe c fe_id).
  - eapply (add_sound E _ c _ id (MkManagedAllocation al fe_id AS_Preparing) S eq_refl); try done; [|left; split; [done|]];
      match goal with |- context [ac_tasks (spawn ?t ?d)] => change (ac_tasks (spawn t d)) with (ac_tasks c ++ [t]) end; set_solver.
  - eapply (add_sound E _ c _ id (MkManagedAllocation al fe_id AS_Done) S eq_refl); try done. by right.
Qed.
Lemma add_allocations_sound E l : ∀ c, sound E c → sound E (add_allocations room l c).
Proof. induction l as [|x l IH]; intros c S; [done|]. cbn. by apply IH, add_allocation_sound. Qed.

(** *** Scheduling *)

(** A candidate runs: it has left the queue and has a slot. *)
Lemma core_run X T T' c c' id a f ctx :
  core (id :: X) T c → id ∉ X → ac_allocations c !! id = Some a → ac_containers c !! ma_fe_id a = Some f → is_waiting a = true → Z.of_nat (running_on c (ma_fe_id a)) < mf_max_concurrency f →
  T ⊆ T' → TK_Execute id ∈ T' → ac_allocations c' = <[id := a <| ma_state := AS_Running ctx |>]> (ac_allocations c) → ac_prepared_data c' = delete id (ac_prepared_data c) →
  ac_containers c' = ac_containers c → ac_gpus c' = ac_gpus c → ac_waiting_queue c' = ac_waiting_queue c →
  ac_running_count c' = <[ma_fe_id a := default 0 (ac_running_count c !! ma_fe_id a) + 1]> (ac_running_count c) →
  core X T' c' ∧ running_on c' (ma_fe_id a) = S (running_on c (ma_fe_id a)) ∧ ∀ k, k ≠ ma_fe_id a → running_on c' k = running_on c k.
Proof.
  intros K Hx Ha Hf Hwt Hslot HT Ht Eal Epr Ect Egp Ewq Erc.
  assert (Eq : ∀ k, queue_of c' k = queue_of c k) by (intros; unfold queue_of; by rewrite Ewq).
  assert (Hr : ∀ k, running_on c' k = (running_on c k + if bool_decide (ma_fe_id a = k) then 1 else 0)%nat).
  { intros k. pose proof (running_on_insert c c' id a _ k Ha Eal) as H. unfold runs_on, is_running in H. cbn in H. unfold is_waiting in Hwt.
    destruct (ma_state a); try done; rewrite ?andb_false_r, ?andb_true_r in H; lia. }
  assert (Hr0 : running_on c' (ma_fe_id a) = S (running_on c (ma_fe_id a))) by (rewrite Hr, bool_decide_eq_true_2 by done; lia).
  assert (Hr1 : ∀ k, k ≠ ma_fe_id a → running_on c' k = running_on c k) by (intros k Hk; rewrite Hr, bool_decide_eq_false_2 by done; lia).
  split; [|done]. split.
  - intros k b Hk. rewrite Eal in Hk. apply lookup_insert_Some in Hk as [[<- <-]|[Hne Hk]].
    + split; [apply (k_alloc _ _ _ K _ _ Ha)|]. cbn. by rewrite Epr, lookup_delete_eq.
    + eapply alloc_ok_frame; [apply (k_alloc _ _ _ K _ _ Hk)|done|by rewrite Epr, lookup_delete_ne|]. intros _ Hkx. split; [by apply not_elem_of_cons|]. unfold alive_fe. by rewrite Eq, Ect.
  - intros k. rewrite Eq. destruct (k_queue _ _ _ K k) as [H1 H2]. split; [done|]. intros y Hy. destruct (H2 y Hy) as (H3 & b & H4 & H5). apply not_elem_of_cons in H3 as [H3 H6]. split; [done|].
    exists b. by rewrite Eal, lookup_insert_ne.
  - intros k. rewrite Epr, Eal. intros [y Hy]. apply lookup_delete_Some in Hy as [Hne Hy]. rewrite lookup_insert_ne by done. apply (k_prepared _ _ _ K). by exists y.
  - intros k g. rewrite Ect. intros Hg. destruct (k_fe _ _ _ K k g Hg) as (F1 & F2 & F3 & F4). destruct (decide (k = ma_fe_id a)) as [->|Hne].
    + replace g with f in * by congruence. unfold fe_ok. rewrite Erc, lookup_insert_eq, Hr0. cbn. split_and!; [done|lia|lia|auto].
    + apply (fe_ok_frame T T' c); [done|done|by rewrite Erc, lookup_insert_ne|by apply Hr1].
  - intros k. rewrite Ect, Erc. intros Hk. rewrite lookup_insert_ne by congruence. by apply (k_count _ _ _ K).
  - unfold held_gpus. rewrite Ect, Egp. apply K.
Qed.
(** What scheduling does to the allocations: those that wait may run. *)
Definition scheduled (c c' : Controller) : Prop :=
  ∀ id, ac_allocations c' !! id = ac_allocations c !! id ∨
    ∃ a ctx, ac_allocations c !! id = Some a ∧ is_waiting a = true ∧ ac_allocations c' !! id = Some (a <| ma_state := AS_Running ctx |>).
Lemma scheduled_trans c1 c2 c3 : scheduled c1 c2 → scheduled c2 c3 → scheduled c1 c3.
Proof.
  intros H1 H2 id. destruct (H1 id) as [E1|(a & ctx & A1 & A2 & A3)], (H2 id) as [E2|(b & ctx' & B1 & B2 & B3)].
  - left. congruence.
  - right. exists b, ctx'. by rewrite <-E1.
  - right. exists a, ctx. by rewrite E2.
  - rewrite A3 in B1. injection B1 as <-. done.
Qed.
Record schedule_frame (fe_id : string) (c c' : Controller) : Prop := {
  sf_containers : ac_containers c' = ac_containers c;
  sf_queue : ∀ k, k ≠ fe_id → queue_of c' k = queue_of c k;
  sf_running : ∀ k, k ≠ fe_id → running_on c' k = running_on c k;
  sf_allocations : scheduled c c';
  sf_outcomes : ac_outcomes c' = ac_outcomes c;
}.
Lemma schedule_frame_refl fe_id c : schedule_frame fe_id c c.
Proof. split; try done. by left. Qed.
Lemma schedule_frame_trans fe_id c1 c2 c3 : schedule_frame fe_id c1 c2 → schedule_frame fe_id c2 c3 → schedule_frame fe_id c1 c3.
Proof.
  intros [A1 A2 A3 A4 A5] [B1 B2 B3 B4 B5]. split; [congruence|intros k Hk; by rewrite B2, A2|intros k Hk; by rewrite B3, A3|by eapply scheduled_trans|congruence].
Qed.
Lemma run_candidate_inv E X c fe_id f id a : inv E (id :: X) c → id ∉ X → ac_allocations c !! id = Some a → ma_fe_id a = fe_id → is_waiting a = true → ac_containers c !! fe_id = Some f →
  Z.of_nat (running_on c fe_id) < mf_max_concurrency f →
  let c' := run_candidate fe_id c id in
  inv E X c' ∧ running_on c' fe_id = S (running_on c fe_id) ∧ schedule_frame fe_id c c' ∧ ac_waiting_queue c' = ac_waiting_queue c ∧ ∀ k, k ≠ id → ac_allocations c' !! k = ac_allocations c !! k.
Proof.
  intros K Hx Ha <- Hw Hf Hslot. destruct (k_alloc _ _ _ K _ _ Ha) as [_ Ho]. assert (is_Some (ac_prepared_data c !! id)) as [[p ctx] Hp] by (unfold is_waiting in Hw; destruct (ma_state a); try done; apply Ho).
  cbv zeta. assert (run_candidate (ma_fe_id a) c id = spawn (TK_Execute id) (set_state id (AS_Running ctx) (c <| ac_prepared_data ::= delete id |>)
    <| ac_running_count ::= λ m, <[ma_fe_id a := default 0 (m !! ma_fe_id a) + 1]> m |>)) as ->.
  { unfold run_candidate. rewrite Ha. unfold is_waiting in Hw. destruct (ma_state a); try done; by rewrite Hp. }
  match goal with |- inv _ _ ?x ∧ _ => set (c' := x) end.
  assert (Eal : ac_allocations c' = <[id := a <| ma_state := AS_Running ctx |>]> (ac_allocations c)) by exact (set_state_insert _ id a _ Ha).
  destruct (core_run X (E ++ ac_tasks c) (E ++ ac_tasks c') c c' id a f ctx K) as (H1 & H2 & H3); try done.
  { change (ac_tasks c') with (ac_tasks c ++ [TK_Execute id]). set_solver. }
  { change (ac_tasks c') with (ac_tasks c ++ [TK_Execute id]). set_solver. }
  split_and!; [done|done| |done|intros k Hk; by rewrite Eal, lookup_insert_ne]. split; try done.
  intros k. rewrite Eal. destruct (decide (k = id)) as [->|Hne]; [right; exists a, ctx; by rewrite lookup_insert_eq|left; by rewrite lookup_insert_ne].
Qed.
Lemma run_candidates_inv E fe_id f ids : ∀ c, inv E ids c → NoDup ids → (∀ id, id ∈ ids → ∃ a, ac_allocations c !! id = Some a ∧ ma_fe_id a = fe_id ∧ is_waiting a = true) →
  ac_containers c !! fe_id = Some f → Z.of_nat (running_on c fe_id) + Z.of_nat (length ids) ≤ mf_max_concurrency f →
  let c' := foldl (run_candidate fe_id) c ids in
  inv E [] c' ∧ running_on c' fe_id = (running_on c fe_id + length ids)%nat ∧ schedule_frame fe_id c c' ∧ ac_waiting_queue c' = ac_waiting_queue c.
Proof.
  induction ids as [|id ids IH]; intros c K Hd Hids Hf Hslots; cbv zeta; [split; [done|]; split; [cbn; lia|]; split; [apply schedule_frame_refl|done]|].
  apply NoDup_cons in Hd as [Hn Hd]. destruct (Hids id ltac:(set_solver)) as (a & Ha & He & Hw). cbn [length foldl] in *.
  destruct (run_candidate_inv E ids c fe_id f id a K Hn Ha He Hw Hf ltac:(lia)) as (H1 & H2 & H3 & H4 & H5).
  destruct (IH (run_candidate fe_id c id) H1 Hd) as (I1 & I2 & I3 & I4).
  - intros k Hk. rewrite H5; [apply Hids; set_solver|]. intros ->. done.
  - by rewrite (sf_containers _ _ _ H3).
  - lia.
  - split_and!; [done|lia|by eapply schedule_frame_trans|congruence].
Qed.

Lemma dequeue_inv E c fe_id q n : inv E [] c → ac_waiting_queue c !! fe_id = Some q → inv E (take n q) (c <| ac_waiting_queue ::= <[fe_id := drop n q]> |>).
Proof.
  intros K Hq. set (c' := c <| ac_waiting_queue ::= <[fe_id := drop n q]> |>). assert (Eq0 : queue_of c fe_id = q) by (unfold queue_of; by rewrite Hq).
  assert (Eq : ∀ k, queue_of c' k = if decide (k = fe_id) then drop n q else queue_of c k).
  { intros k. unfold queue_of. change (ac_waiting_queue c') with (<[fe_id := drop n q]> (ac_waiting_queue c)).
    destruct (decide (k = fe_id)) as [->|Hne]; [by rewrite lookup_insert_eq|by rewrite lookup_insert_ne]. }
  destruct (k_queue _ _ _ K fe_id) as [Hnd Hin]. rewrite Eq0 in Hnd, Hin. rewrite <-(take_drop n q) in Hnd. apply NoDup_app in Hnd as (Hnd1 & Hnd2 & Hnd3).
  split; try apply K.
  - intros id a Ha. eapply alloc_ok_frame; [apply (k_alloc _ _ _ K _ _ Ha)|done|done|]. intros Hw Hx. split; [apply not_elem_of_nil|]. split; [|done]. rewrite Eq.
    destruct (decide (ma_fe_id a = fe_id)) as [->|Hne]; [|done]. rewrite Eq0. intros Hi. rewrite <-(take_drop n q) in Hi. apply elem_of_app in Hi as [Hi|Hi]; [done|done].
  - intros k. rewrite Eq. destruct (decide (k = fe_id)) as [->|Hne].
    + split; [done|]. intros id Hid. split; [intros Hx; by apply (Hnd2 id)|]. apply Hin. rewrite <-(take_drop n q). apply elem_of_app. by right.
    + destruct (k_queue _ _ _ K k) as [H1 H2]. split; [done|]. intros id Hid. destruct (H2 id Hid) as (_ & a & H3 & H4 & H5). split; [|eauto].
      intros Hx. destruct (Hin id) as (_ & b & B1 & B2 & _); [rewrite <-(take_drop n q); apply elem_of_app; by left|]. congruence.
Qed.
Definition busy_at (c : Controller) (fe_id : string) : Prop :=
  ∀ f handle, ac_containers c !! fe_id = Some f → mf_state f = FS_Running handle → queue_of c fe_id = [] ∨ mf_max_concurrency f ≤ Z.of_nat (running_on c fe_id).
Lemma schedule_on_inv E c fe_id : inv E [] c → inv E [] (schedule_on c fe_id) ∧ schedule_frame fe_id c (schedule_on c fe_id) ∧ busy_at (schedule_on c fe_id) fe_id.
Proof.
  intros K. unfold schedule_on. destruct (ac_containers c !! fe_id) as [f|] eqn:Hf.
  2:{ split; [done|]. split; [apply schedule_frame_refl|]. intros f h Hf'. congruence. }
  destruct (mf_state f) as [|h|r] eqn:Est.
  1,3: split; [done|]; split; [apply schedule_frame_refl|]; intros g h' Hg Hs; congruence.
  destruct (ac_waiting_queue c !! fe_id) as [q|] eqn:Hq.
  2:{ split; [done|]. split; [apply schedule_frame_refl|]. intros g h' _ _. left. unfold queue_of. by rewrite Hq. }
  destruct (k_fe _ _ _ K fe_id f Hf) as (F1 & F2 & F3 & F4). set (slots := Z.to_nat _).
  assert (Hs : Z.of_nat slots = mf_max_concurrency f - Z.of_nat (running_on c fe_id)) by (unfold slots; rewrite F2; lia).
  set (c1 := c <| ac_waiting_queue ::= <[fe_id := drop slots q]> |>). destruct (k_queue _ _ _ K fe_id) as [Hnd Hin].
  assert (Eq0 : queue_of c fe_id = q) by (unfold queue_of; by rewrite Hq). rewrite Eq0 in Hnd, Hin.
  destruct (run_candidates_inv E fe_id f (take slots q) c1) as (R1 & R2 & R3 & R4).
  - by apply dequeue_inv.
  - rewrite <-(take_drop slots q) in Hnd. by apply NoDup_app in Hnd as [? _].
  - intros id Hid. destruct (Hin id) as [_ H]; [|exact H]. rewrite <-(take_drop slots q). apply elem_of_app. by left.
  - done.
  - change (running_on c1 fe_id) with (running_on c fe_id). rewrite length_take. lia.
  - assert (Hq1 : ∀ k, k ≠ fe_id → queue_of c1 k = queue_of c k).
    { intros k Hk. unfold queue_of. change (ac_waiting_queue c1) with (<[fe_id := drop slots q]> (ac_waiting_queue c)). by rewrite lookup_insert_ne. }
    split; [done|]. split.
    + eapply schedule_frame_trans; [|exact R3]. split; try done. by left.
    + intros g h' Hg _. rewrite (sf_containers _ _ _ R3) in Hg. change (ac_containers c !! fe_id = Some g) in Hg. replace g with f in * by congruence.
      unfold queue_of. rewrite R4, R2. change (ac_waiting_queue c1) with (<[fe_id := drop slots q]> (ac_waiting_queue c)). rewrite lookup_insert_eq.
      change (running_on c1 fe_id) with (running_on c fe_id). cbn [default]. rewrite length_take. destruct (decide (length q ≤ slots)%nat); [left; by apply drop_ge|right; lia].
Qed.
Lemma busy_at_frame fe_id c c' k : schedule_frame fe_id c c' → k ≠ fe_id → busy_at c k → busy_at c' k.
Proof. intros [F1 F2 F3 _ _] Hk Hb f h. rewrite F1, F2, F3 by done. apply Hb. Qed.
Lemma try_schedule_inv E c : inv E [] c →
  let c' := try_schedule c in inv E [] c' ∧ busy c' ∧ ac_containers c' = ac_containers c ∧ scheduled c c' ∧ ac_outcomes c' = ac_outcomes c.
Proof.
  intros K. unfold try_schedule. assert (∀ ids c1, inv E [] c1 → NoDup ids →
    let c' := foldl schedule_on c1 ids in inv E [] c' ∧ (∀ k, k ∈ ids ∨ busy_at c1 k → busy_at c' k) ∧ ac_containers c' = ac_containers c1 ∧ scheduled c1 c' ∧ ac_outcomes c' = ac_outcomes c1) as H.
  { induction ids as [|id ids IH]; intros c1 K1 Hd; cbv zeta; [split_and!; try done; [set_solver|by left]|]. apply NoDup_cons in Hd as [Hn Hd]. cbn [foldl].
    destruct (schedule_on_inv E c1 id K1) as (S1 & S2 & S3). destruct (IH (schedule_on c1 id) S1 Hd) as (I1 & I2 & I3 & I4 & I5). split_and!; [done|..].
    - intros k Hk. apply I2. destruct (decide (k ∈ ids)) as [Hin|Hin]; [by left|right]. destruct (decide (k = id)) as [->|Hne]; [done|].
      eapply busy_at_frame; [done|done|]. destruct Hk as [Hk|Hk]; [set_solver|done].
    - by rewrite I3, (sf_containers _ _ _ S2).
    - eapply scheduled_trans; [apply (sf_allocations _ _ _ S2)|done].
    - by rewrite I5, (sf_outcomes _ _ _ S2). }
  destruct (H (map_iter (ac_containers c)).*1 c K (NoDup_map_iter_fst _)) as (H1 & H2 & H3 & H4 & H5). cbv zeta in *. split_and!; try done.
  intros k f h Hk. apply (H2 k); [|done]. left. apply list_elem_of_fmap. exists (k, f). split; [done|]. apply elem_of_map_iter. by rewrite H3 in Hk.
Qed.

(** *** Events *)

Lemma not_queued E X c id a : inv E X c → ac_allocations c !! id = Some a → is_waiting a = false → ∀ k, id ∉ queue_of c k.
Proof. intros K Ha Hw k Hk. destruct (proj2 (k_queue _ _ _ K k) id Hk) as (_ & b & Hb & _ & Hwb). congruence. Qed.
Lemma finalize_inv E X c id a r ctx t : inv E X c → ac_allocations c !! id = Some a → (∀ k, id ∉ queue_of c k) → is_running a = false → result_for (ma_allocation a) r →
  inv E X (start_finalization id r ctx t (c <| ac_prepared_data ::= delete id |>)).
Proof.
  intros K Ha Hq Hr Hres. set (c' := start_finalization _ _ _ _ _).
  assert (Eal : ac_allocations c' = <[id := a <| ma_state := AS_Finalizing r t |>]> (ac_allocations c)) by (unfold c'; by rewrite (start_finalization_allocations id _ _ _ _ a)).
  assert (Ec : c' = spawn (TK_Finalize id) (set_state id (AS_Finalizing r t) (c <| ac_prepared_data ::= delete id |>))).
  { unfold c', start_finalization. change (ac_allocations (c <| ac_prepared_data ::= delete id |>)) with (ac_allocations c). by rewrite Ha. }
  apply (core_settle X (E ++ ac_tasks c) (E ++ ac_tasks c') c c' id a (AS_Finalizing r t) K Ha Hq); try done; rewrite Ec.
  - split; [|done]. match goal with |- context [ac_tasks (spawn ?t ?d)] => change (ac_tasks (spawn t d)) with (ac_tasks c ++ [t]) end. set_solver.
  - match goal with |- context [ac_tasks (spawn ?t ?d)] => change (ac_tasks (spawn t d)) with (ac_tasks c ++ [t]) end. set_solver.
  - done.
  - done.
  - done.
  - done.
  - by rewrite Hr.
Qed.
Lemma delete_prepared c id : ac_prepared_data c !! id = None → c <| ac_prepared_data ::= delete id |> = c.
Proof. destruct c. cbn. intros H. by rewrite delete_id. Qed.
(** What a change of allocations that are not running leaves alone. *)
Record quiet (c c' : Controller) : Prop := {
  q_containers : ac_containers c' = ac_containers c;
  q_running : ∀ k, running_on c' k = running_on c k;
  q_queue : ∀ k, queue_of c k = [] → queue_of c' k = [];
}.
Lemma quiet_busy c c' : quiet c c' → busy c → busy c'.
Proof. intros [Q1 Q2 Q3] Hb k f h Hf Hs. rewrite Q1 in Hf. rewrite Q2. destruct (Hb k f h Hf Hs); auto. Qed.
Lemma quiet_returned c c' : quiet c c' → returned c → returned c'.
Proof. intros [Q1 _ _]. unfold returned. by rewrite Q1. Qed.
Lemma finalize_quiet c id a r ctx t : ac_allocations c !! id = Some a → is_running a = false → quiet c (start_finalization id r ctx t (c <| ac_prepared_data ::= delete id |>)).
Proof.
  intros Ha Hr. set (d := c <| ac_prepared_data ::= delete id |>). destruct (start_finalization_frame id r ctx t d) as (F1 & F2 & _). split; [done| |intros k; unfold queue_of; by rewrite F2].
  intros k. pose proof (running_on_insert d _ id a _ k Ha (start_finalization_allocations id r ctx t d a Ha)) as H. unfold runs_on in H. rewrite Hr, !andb_false_r in H. change (running_on d k) with (running_on c k) in H. lia.
Qed.
Lemma unqueue_inv E c id a : inv E [] c → ac_allocations c !! id = Some a → is_waiting a = true →
  let c' := c <| ac_waiting_queue ::= alter (List.filter (λ x, bool_decide (x ≠ id))) (ma_fe_id a) |> in inv E [id] c' ∧ quiet c c'.
Proof.
  intros K Ha Hw c'.
  assert (Eq : ∀ k, queue_of c' k = if decide (k = ma_fe_id a) then List.filter (λ x, bool_decide (x ≠ id)) (queue_of c k) else queue_of c k).
  { intros k. unfold queue_of. change (ac_waiting_queue c') with (alter (List.filter (λ x, bool_decide (x ≠ id))) (ma_fe_id a) (ac_waiting_queue c)).
    destruct (decide (k = ma_fe_id a)) as [->|Hne]; [rewrite lookup_alter_eq; by destruct (ac_waiting_queue c !! _)|by rewrite lookup_alter_ne]. }
  assert (Hin : ∀ k x, x ∈ queue_of c' k ↔ x ∈ queue_of c k ∧ x ≠ id).
  { intros k x. rewrite Eq. destruct (decide (k = ma_fe_id a)) as [->|Hne].
    - rewrite !list_elem_of_In, List.filter_In, bool_decide_eq_true. done.
    - split; [|tauto]. intros Hx. split; [done|]. intros ->. destruct (proj2 (k_queue _ _ _ K k) id Hx) as (_ & b & Hb & He & _). congruence. }
  split; [|split; [done|done|]; intros k Hk; rewrite Eq, Hk; by destruct (decide _)]. split; try apply K.
  - intros k b Hb. eapply alloc_ok_frame; [apply (k_alloc _ _ _ K _ _ Hb)|done|done|]. intros _ Hx. split; [apply not_elem_of_nil|]. split; [|done]. intros Hq. apply Hin. set_solver.
  - intros k. destruct (k_queue _ _ _ K k) as [H1 H2]. split.
    + rewrite Eq. destruct (decide _); [|done]. apply NoDup_ListNoDup, List.NoDup_filter. by apply NoDup_ListNoDup.
    + intros x Hx. apply Hin in Hx as [Hx Hne]. split; [set_solver|]. by apply H2.
Qed.
Lemma cancel_sound E id c : sound E c → busy c → sound E (cancel_ac_allocation id c) ∧ busy (cancel_ac_allocation id c).
Proof.
  intros [K HR] Hb. unfold cancel_ac_allocation. destruct (ac_allocations c !! id) as [a|] eqn:Ha; [|done]. cbv zeta. unfold take_prepared.
  assert (Hres := fail_result_for (ma_allocation a) AFR_AllocationCancelled).
  assert (∀ ctx, is_waiting a = true → let c1 := c <| ac_waiting_queue ::= alter (List.filter (λ x, bool_decide (x ≠ id))) (ma_fe_id a) |> in
    let c' := start_finalization id (make_failure_result (ma_allocation a) AFR_AllocationCancelled) ctx None (c1 <| ac_prepared_data ::= delete id |>) in sound E c' ∧ busy c') as Hwait.
  { intros ctx Hw c1 c'. destruct (unqueue_inv E c id a K Ha Hw) as [H1 H2]. fold c1 in H1, H2.
    assert (is_running a = false) as Hr by (unfold is_waiting, is_running in *; by destruct (ma_state a)).
    pose proof (finalize_quiet c1 id a (make_failure_result (ma_allocation a) AFR_AllocationCancelled) ctx None Ha Hr) as Q. fold c' in Q.
    split; [split|]; [|eapply quiet_returned; [done|]; by eapply quiet_returned|eapply quiet_busy; [done|]; by eapply quiet_busy].
    assert (inv E [id] c') as H3.
    { apply (finalize_inv E [id] c1 id a); try done. eapply inv_exempt_not_queued; [exact H1|set_solver]. }
    apply (core_drop _ _ _ id H3). intros b. unfold c'. rewrite (start_finalization_allocations id _ _ _ _ a) by done. rewrite lookup_insert_eq. by intros [= <-]. }
  destruct (ma_state a) eqn:Est; [|apply Hwait; unfold is_waiting; by rewrite Est..| | |done].
  - set (d := perform (EF_CancelAllocation id) c). assert (is_running a = false) as Hr by (unfold is_running; by rewrite Est).
    match goal with |- context [start_finalization id ?r ?x None _] => pose proof (finalize_quiet d id a r x None Ha Hr) as Q end. split; [split|].
    + apply (finalize_inv E [] d id a); try done; [by apply inv_effect|]. apply (not_queued E [] d id a); [by apply inv_effect|done|]. unfold is_waiting. by rewrite Est.
    + eapply quiet_returned; [exact Q|done].
    + eapply quiet_busy; [exact Q|done].
  - split; [by apply sound_perform|done].
  - done.
Qed.

(** A task is needed while what it works on is in the phase it ends. *)
Definition needed (c : Controller) (t : Task) : Prop :=
  match t with
  | TK_Startup fe_id => ∃ f, ac_containers c !! fe_id = Some f ∧ mf_state f = FS_Starting
  | TK_Prepare id => ∃ a, ac_allocations c !! id = Some a ∧ ma_state a = AS_Preparing
  | TK_Execute id => ∃ a ctx, ac_allocations c !! id = Some a ∧ ma_state a = AS_Running ctx
  | TK_Finalize id => ∃ a r x, ac_allocations c !! id = Some a ∧ ma_state a = AS_Finalizing r x
  | TK_Health _ | TK_Crash _ _ => False
  end.
Lemma release E c t : sound (t :: E) c → ¬ needed c t → sound E c.
Proof.
  intros [K HR] Hn. split; [|done]. split; try apply K.
  - intros id a Ha. destruct (k_alloc _ _ _ K id a Ha) as [Hid Ho]. split; [done|]. destruct (ma_state a) eqn:Est; try done.
    + destruct Ho as [Ho1 Ho2]. split; [|done]. apply elem_of_cons in Ho1 as [<-|?]; [|done]. destruct Hn. cbn. eauto.
    + destruct Ho as [Ho1 Ho2]. split; [|done]. apply elem_of_cons in Ho1 as [<-|?]; [|done]. destruct Hn. cbn. eauto.
    + destruct Ho as [Ho1 Ho2]. split; [|done]. apply elem_of_cons in Ho1 as [<-|?]; [|done]. destruct Hn. cbn. eauto.
  - intros k f Hf. destruct (k_fe _ _ _ K k f Hf) as (F1 & F2 & F3 & F4). split_and!; try done. intros Est. specialize (F4 Est). apply elem_of_cons in F4 as [<-|?]; [|done]. destruct Hn. cbn. eauto.
Qed.
(** The end of a container. *)
Lemma terminated_with_busy fe_id r reason c f : ac_containers c !! fe_id = Some f → busy c → busy (terminated_with fe_id r reason c).
Proof.
  intros Hf Hb k g h. destruct (terminated_with_frame fe_id r reason c f Hf) as (T1 & T2 & T3). rewrite T1, T2, T3. intros Hk Hs.
  apply lookup_insert_Some in Hk as [[<- <-]|[Hne Hk]]; [done|]. rewrite decide_False by done. by apply (Hb k g h).
Qed.
Lemma handle_container_terminated_sound E c fe_id reason : sound E c → busy c → sound E (handle_container_terminated room fe_id reason c) ∧ busy (handle_container_terminated room fe_id reason c).
Proof.
  intros S Hb. unfold handle_container_terminated. destruct (ac_containers c !! fe_id) as [f|] eqn:Hf; [|done]. cbv zeta.
  assert (∀ e d, return_gpus fe_id (perform e d) = perform e (return_gpus fe_id d)) as Hpr.
  { intros e d. unfold return_gpus. change (ac_containers (perform e d)) with (ac_containers d). by destruct (ac_containers d !! fe_id). }
  destruct (mf_state f) as [|h|r]; [|rewrite Hpr|done].
  - split; [apply sound_broadcast, sound_try_send, sound_perform; by apply (terminated_with_sound E c fe_id f)|by apply (terminated_with_busy fe_id _ _ c f)].
  - split; [apply sound_broadcast, sound_try_send, sound_perform, sound_perform; apply (terminated_with_sound E _ fe_id f); [by apply sound_perform|done]|].
    by apply (terminated_with_busy fe_id _ _ (perform (EF_CancelHealth fe_id) c) f).
Qed.
Lemma handle_startup_sound E c fe_id res : sound E c → busy c →
  let c' := handle_container_startup_complete room fe_id res c in sound E c' ∧ busy c' ∧ ¬ needed c' (TK_Startup fe_id).
Proof.
  intros S Hb. unfold handle_container_startup_complete. cbv zeta.
  assert (∀ d, d = match res with Ok handle => perform (EF_Kill handle) c | Err _ => c end → (∀ f, ac_containers c !! fe_id = Some f → mf_state f ≠ FS_Starting) →
    sound E d ∧ busy d ∧ ¬ needed d (TK_Startup fe_id)) as Hkill.
  { intros d -> Hf. destruct res; (split; [by try apply sound_perform|split; [done|]]); intros (f & Hf' & Hs); by apply (Hf f). }
  destruct (ac_containers c !! fe_id) as [f|] eqn:Hf; cbn [fmap option_fmap option_map]; [|apply Hkill; [done|congruence]].
  destruct (mf_state f) as [|h|r] eqn:Est; [|apply Hkill; [done|congruence]..]. destruct res as [handle|e].
  - set (c1 := try_send room _ _). assert (Ect : ac_containers c1 = <[fe_id := f <| mf_state := FS_Running handle |>]> (ac_containers c)) by exact (set_fe_state_insert (spawn (TK_Health fe_id) c) fe_id f _ Hf).
    destruct S as [K HR]. assert (sound E c1) as S1.
    { split.
      - apply (core_container [] [] (E ++ ac_tasks c) _ c c1 fe_id (f <| mf_state := FS_Running handle |>) K); try done.
        + change (ac_tasks c1) with (ac_tasks c ++ [TK_Health fe_id]). set_solver.
        + destruct (k_fe _ _ _ K fe_id f Hf) as (F1 & F2 & F3 & F4). by split_and!.
        + by left.
        + intros. apply not_elem_of_nil.
        + intros id a _ _ Hx. split; [done|]. split; [done|]. unfold alive_fe. rewrite Ect. destruct (decide (ma_fe_id a = fe_id)) as [->|Hne]; [by rewrite lookup_insert_eq|by rewrite lookup_insert_ne].
        + pose proof (k_gpus _ _ _ K) as Hg. unfold held_gpus in *. rewrite Ect, held_insert. rewrite (held_split _ _ _ Hf) in Hg. exact Hg.
      - intros k g r. rewrite Ect. intros Hk. apply lookup_insert_Some in Hk as [[_ <-]|[_ Hk]]; [done|by apply (HR k)]. }
    destruct (try_schedule_inv E c1 (proj1 S1)) as (H1 & H2 & H3 & _). split; [apply sound_broadcast; split; [done|unfold returned; rewrite H3; apply S1]|]. split; [done|].
    intros (g & Hg & Hs). change (ac_containers (try_schedule c1) !! fe_id = Some g) in Hg. rewrite H3, Ect, lookup_insert_eq in Hg. by injection Hg as <-.
  - set (c1 := return_gpus _ _). change c1 with (terminated_with fe_id (startup_reason e) (termination_to_failure_reason (startup_reason e)) c).
    split; [apply sound_broadcast, sound_try_send; by apply (terminated_with_sound E c fe_id f)|]. split; [by apply (terminated_with_busy fe_id _ _ c f)|].
    intros (g & Hg & Hs). change (ac_containers (terminated_with fe_id (startup_reason e) (termination_to_failure_reason (startup_reason e)) c) !! fe_id = Some g) in Hg.
    rewrite (proj1 (terminated_with_frame fe_id _ _ c f Hf)), lookup_insert_eq in Hg. by injection Hg as <-.
Qed.

Definition waiting_for (id : string) (a : ManagedAllocation) (st : AllocationState) (p : PreparedAllocation * FinalizationContext) (c : Controller) : Controller :=
  enqueue (ma_fe_id a) id (set_state id st c) <| ac_prepared_data ::= <[id := p]> |>.
Lemma waiting_for_sound E c id a st p : sound E c → ac_allocations c !! id = Some a → ma_state a = AS_Preparing → (st = AS_WaitingForContainer ∨ st = AS_WaitingForSlot) →
  alive_fe c (ma_fe_id a) = true → sound E (waiting_for id a st p c).
Proof.
  intros [K HR] Ha Est Hst Hal. split; [|exact HR]. set (c' := waiting_for id a st p c). assert (Eal : ac_allocations c' = <[id := a <| ma_state := st |>]> (ac_allocations c)) by exact (set_state_insert c id a st Ha).
  assert (Hnq : ∀ k, id ∉ queue_of c k) by (apply (not_queued E [] c id a); [done|done|unfold is_waiting; by rewrite Est]).
  assert (Eq : ∀ k, queue_of c' k = queue_of c k ++ if decide (k = ma_fe_id a) then [id] else []).
  { intros k. unfold queue_of. change (ac_waiting_queue c') with (<[ma_fe_id a := default [] (ac_waiting_queue c !! ma_fe_id a) ++ [id]]> (ac_waiting_queue c)).
    destruct (decide (k = ma_fe_id a)) as [->|Hne]; [by rewrite lookup_insert_eq|by rewrite lookup_insert_ne, app_nil_r]. }
  assert (Hw : is_waiting (a <| ma_state := st |>) = true) by (by destruct Hst as [-> | ->]).
  assert (Hr : ∀ k, running_on c' k = running_on c k).
  { intros k. pose proof (running_on_insert c c' id a _ k Ha Eal) as H. unfold runs_on, is_running in H. cbn in H. rewrite Est in H. destruct Hst as [-> | ->]; rewrite !andb_false_r in H; lia. }
  assert (Epr : ac_prepared_data c' = <[id := p]> (ac_prepared_data c)) by done. split.
  - intros k b. rewrite Eal. intros Hk. apply lookup_insert_Some in Hk as [[<- <-]|[Hne Hk]].
    + split; [apply (k_alloc _ _ _ K _ _ Ha)|]. assert (is_Some (ac_prepared_data c' !! id) ∧ (id ∉ [] → id ∈ queue_of c' (ma_fe_id a) ∧ alive_fe c' (ma_fe_id a) = true)) as Hok.
      { rewrite Epr, lookup_insert_eq, Eq, decide_True by done. split; [done|]. intros _. split; [set_solver|done]. }
      cbn. by destruct Hst as [-> | ->].
    + eapply alloc_ok_frame; [apply (k_alloc _ _ _ K _ _ Hk)|done|by rewrite Epr, lookup_insert_ne|]. intros _ Hx. split; [done|]. split; [rewrite Eq; set_solver|done].
  - intros k. destruct (k_queue _ _ _ K k) as [H1 H2]. rewrite Eq. split.
    + apply NoDup_app. split; [done|]. split; [destruct (decide _); set_solver|destruct (decide _); [apply NoDup_singleton|apply NoDup_nil_2]].
    + intros x Hx. apply elem_of_app in Hx as [Hx|Hx].
      * destruct (H2 x Hx) as (H3 & b & H4 & H5). split; [done|]. exists b. rewrite Eal, lookup_insert_ne; [done|]. intros ->. by apply (Hnq k).
      * destruct (decide (k = ma_fe_id a)) as [->|Hne]; [|by apply not_elem_of_nil in Hx]. apply list_elem_of_singleton in Hx as ->. split; [apply not_elem_of_nil|].
        exists (a <| ma_state := st |>). by rewrite Eal, lookup_insert_eq.
  - intros k. rewrite Epr, Eal. destruct (decide (k = id)) as [->|Hne]; [intros _; by rewrite lookup_insert_eq|]. rewrite lookup_insert_ne by done. rewrite lookup_insert_ne by done. apply K.
  - intros k f Hf. eapply fe_ok_frame; [by apply (k_fe _ _ _ K)|done|done|done].
  - apply K.
  - apply K.
Qed.
Lemma not_preparing_scheduled c c' id : scheduled c c' → ¬ needed c (TK_Prepare id) → ¬ needed c' (TK_Prepare id).
Proof.
  intros H Hn (a & Ha & Est). apply Hn. destruct (H id) as [E|(b & ctx & _ & _ & E)]; [exists a; by rewrite <-E|]. rewrite E in Ha. by injection Ha as <-.
Qed.
Lemma handle_prepared_sound E c id res : sound E c → busy c →
  let c' := handle_allocation_prepared id res c in sound E c' ∧ busy c' ∧ ¬ needed c' (TK_Prepare id).
Proof.
  intros S Hb. pose proof S as [K HR]. unfold handle_allocation_prepared. destruct (ac_allocations c !! id) as [a|] eqn:Ha; [|split_and!; try done; intros (b & Hb' & _); congruence].
  assert (¬ needed c (TK_Prepare id) ∨ ma_state a = AS_Preparing) as [Hn|Est].
  { destruct (ma_state a) eqn:Est; [by right|left; intros (b & Hb' & Hs); congruence..]. }
  { destruct (ma_state a) eqn:Est; try done. destruct Hn. exists a. done. }
  rewrite Est. assert (Hwf : is_waiting a = false) by (unfold is_waiting; by rewrite Est). assert (Hrf : is_running a = false) by (unfold is_running; by rewrite Est).
  assert (∀ r ctx t, result_for (ma_allocation a) r → let c' := start_finalization id r ctx t c in sound E c' ∧ busy c' ∧ ¬ needed c' (TK_Prepare id)) as Hfin.
  { intros r ctx t Hres c'. destruct (k_alloc _ _ _ K id a Ha) as [_ Ho]. rewrite Est in Ho. destruct Ho as [_ Ho].
    assert (c' = start_finalization id r ctx t (c <| ac_prepared_data ::= delete id |>)) as Ec by (by rewrite delete_prepared).
    pose proof (finalize_quiet c id a r ctx t Ha Hrf) as Q. rewrite <-Ec in Q. split; [split; [rewrite Ec; apply (finalize_inv E [] c id a); try done; by eapply not_queued|by eapply quiet_returned]|].
    split; [by eapply quiet_busy|]. intros (b & Hb' & Hs). unfold c' in Hb'. rewrite (start_finalization_allocations id r ctx t c a Ha), lookup_insert_eq in Hb'. by injection Hb' as <-. }
  destruct res as [prepared|]; [|by apply Hfin]. cbv zeta. set (ctx := MkFinalizationContext _ [] None).
  assert (∀ st, st = AS_WaitingForContainer ∨ st = AS_WaitingForSlot → ¬ needed (waiting_for id a st (prepared, ctx) c) (TK_Prepare id)) as Hnw.
  { intros st Hst (b & Hb' & Hs). change (ac_allocations (set_state id st c) !! id = Some b) in Hb'. rewrite (set_state_insert c id a st Ha), lookup_insert_eq in Hb'. injection Hb' as <-. by destruct Hst as [-> | ->]. }
  destruct (ac_containers c !! ma_fe_id a) as [f|] eqn:Hf; cbn [fmap option_fmap option_map]; [|by apply Hfin]. destruct (mf_state f) as [|h|r] eqn:Efs; [| |by apply Hfin].
  - assert (sound E (waiting_for id a AS_WaitingForContainer (prepared, ctx) c)) as S1 by (apply waiting_for_sound; try done; [by left|unfold alive_fe; by rewrite Hf, Efs]).
    split; [done|]. split; [|apply (Hnw AS_WaitingForContainer); by left].
    intros k g h Hk Hs. change (ac_containers c !! k = Some g) in Hk. destruct (decide (k = ma_fe_id a)) as [->|Hne]; [congruence|].
    destruct (Hb k g h Hk Hs) as [Hq|Hq]; [left|right].
    + unfold queue_of in *. change (ac_waiting_queue _) with (<[ma_fe_id a := default [] (ac_waiting_queue c !! ma_fe_id a) ++ [id]]> (ac_waiting_queue c)). by rewrite lookup_insert_ne.
    + assert (running_on (waiting_for id a AS_WaitingForContainer (prepared, ctx) c) k = running_on c k) as Hr; [|unfold waiting_for in Hr; by rewrite Hr].
      pose proof (running_on_insert c (waiting_for id a AS_WaitingForContainer (prepared, ctx) c) id a _ k Ha (set_state_insert c id a _ Ha)) as H. unfold runs_on, is_running in H. cbn in H. rewrite Est, !andb_false_r in H. lia.
  - assert (sound E (waiting_for id a AS_WaitingForSlot (prepared, ctx) c)) as S1 by (apply waiting_for_sound; try done; [by right|unfold alive_fe; by rewrite Hf, Efs]).
    change (let c' := try_schedule (waiting_for id a AS_WaitingForSlot (prepared, ctx) c) in sound E c' ∧ busy c' ∧ ¬ needed c' (TK_Prepare id)). cbv zeta.
    destruct (try_schedule_inv E _ (proj1 S1)) as (H1 & H2 & H3 & H4 & _). split; [split; [exact H1|unfold returned; rewrite H3; apply S1]|]. split; [exact H2|].
    apply (not_preparing_scheduled _ _ id H4). apply Hnw. by right.
Qed.

Lemma settle_outcome_result c a ctx o : (∀ r fe_result handles, o = RU_Completed r fe_result handles → result_for (ma_allocation a) r) →
  result_for (ma_allocation a) (settle_outcome c a ctx o).1.1.
Proof. intros H. destruct o; cbn; [by eapply H|apply fail_result_for..]. Qed.
Lemma handle_executed_sound E c id o : sound E c → busy c →
  (∀ r fe_result handles a, o = RU_Completed r fe_result handles → ac_allocations c !! id = Some a → result_for (ma_allocation a) r) →
  let c' := handle_allocation_execution_finished id o c in sound E c' ∧ busy c' ∧ ¬ needed c' (TK_Execute id).
Proof.
  intros S Hb Hres. pose proof S as [K HR]. unfold handle_allocation_execution_finished. destruct (ac_allocations c !! id) as [a|] eqn:Ha; [|split_and!; try done; intros (b & x & Hb' & _); congruence].
  destruct (is_running a) eqn:Hrun.
  2:{ assert (¬ needed c (TK_Execute id)) as Hn; [|unfold is_running in Hrun; destruct (ma_state a); done].
      intros (b & x & Hb' & Hs). replace b with a in * by congruence. unfold is_running in Hrun. by rewrite Hs in Hrun. }
  assert (∃ ctx, ma_state a = AS_Running ctx) as [ctx Est] by (unfold is_running in Hrun; destruct (ma_state a); try done; eauto). rewrite Est. cbv zeta.
  set (c1 := c <| ac_running_count ::= alter (λ n, Z.max 0 (n - 1)) (ma_fe_id a) |>).
  pose proof (settle_outcome_result c1 a ctx o ltac:(intros; by eapply Hres)) as Hr. destruct (settle_outcome c1 a ctx o) as [[r ctx'] crash]. cbn [fst] in Hr.
  set (c2 := start_finalization id r ctx' None c1). assert (Ec2 : c2 = spawn (TK_Finalize id) (set_state id (AS_Finalizing r None) c1)).
  { unfold c2, start_finalization. change (ac_allocations c1) with (ac_allocations c). by rewrite Ha. }
  assert (Eal : ac_allocations c2 = <[id := a <| ma_state := AS_Finalizing r None |>]> (ac_allocations c)) by exact (start_finalization_allocations id r ctx' None c1 a Ha).
  assert (sound E c2) as S2.
  { split; [|by rewrite Ec2]. destruct (k_alloc _ _ _ K id a Ha) as [_ Ho]. rewrite Est in Ho. destruct Ho as [_ Ho].
    apply (core_settle [] (E ++ ac_tasks c) (E ++ ac_tasks c2) c c2 id a (AS_Finalizing r None) K Ha); try done.
    - apply (not_queued E [] c id a); [done|done|]. unfold is_waiting. by rewrite Est.
    - split; [|done]. rewrite Ec2. change (ac_tasks (spawn _ _)) with (ac_tasks c ++ [TK_Finalize id]). set_solver.
    - rewrite Ec2. change (ac_tasks (spawn _ _)) with (ac_tasks c ++ [TK_Finalize id]). set_solver.
    - rewrite Ec2. by rewrite delete_id.
    - by rewrite Ec2.
    - by rewrite Ec2.
    - by rewrite Ec2.
    - rewrite Ec2, Hrun. done. }
  set (c3 := match crash with Some reason => spawn (TK_Crash (ma_fe_id a) reason) c2 | None => c2 end).
  assert (sound E c3) as S3 by (unfold c3; destruct crash; [by apply sound_spawn|done]). assert (Eal3 : ac_allocations c3 = ac_allocations c2) by (unfold c3; by destruct crash).
  destruct (try_schedule_inv E c3 (proj1 S3)) as (H1 & H2 & H3 & H4 & _). split; [split; [done|unfold returned; rewrite H3; apply S3]|]. split; [done|].
  intros (b & x & Hb' & Hs). destruct (H4 id) as [E'|(b' & y & B1 & B2 & _)]; rewrite Eal3, Eal, lookup_insert_eq in *; [rewrite E' in Hb'; by injection Hb' as <-|by injection B1 as <-].
Qed.
Lemma handle_finalized_sound E c id ok : sound E c → busy c →
  let c' := handle_allocation_finalization_finished id ok c in sound E c' ∧ busy c' ∧ ¬ needed c' (TK_Finalize id).
Proof.
  intros S Hb. pose proof S as [K HR]. unfold handle_allocation_finalization_finished. destruct (ac_allocations c !! id) as [a|] eqn:Ha; [|split_and!; try done; intros (b & x & y & Hb' & _); congruence].
  destruct (ma_state a) as [| | | |r t|] eqn:Est; try (split_and!; try done; intros (b & x & y & Hb' & Hs); congruence). cbv zeta. set (c' := send_outcome _ _).
  assert (Eal : ac_allocations c' = <[id := a <| ma_state := AS_Done |>]> (ac_allocations c)) by exact (set_state_insert c id a _ Ha).
  assert (Hrun : is_running a = false) by (unfold is_running; by rewrite Est).
  destruct (k_alloc _ _ _ K id a Ha) as [_ Ho]. rewrite Est in Ho. destruct Ho as (_ & Ho & _). split; [split; [|exact HR]|split].
  - apply (core_settle [] (E ++ ac_tasks c) (E ++ ac_tasks c') c c' id a AS_Done K Ha); try done.
    + apply (not_queued E [] c id a); [done|done|]. unfold is_waiting. by rewrite Est.
    + by rewrite delete_id.
    + by rewrite Hrun.
  - apply (quiet_busy c); [|done]. split; [done| |done]. intros k. pose proof (running_on_insert c c' id a _ k Ha Eal) as H. unfold runs_on in H. rewrite Hrun, !andb_false_r in H. lia.
  - intros (b & x & y & Hb' & Hs). rewrite Eal, lookup_insert_eq in Hb'. by injection Hb' as <-.
Qed.
Lemma handle_event_sound c0 c t ev : sound [t] c → busy c → ac_allocations c = ac_allocations c0 → ends_with c0 t ev → sound [] (handle_event room ev c) ∧ busy (handle_event room ev c).
Proof.
  intros S Hb Eal He. destruct t as [x|x|x r|x|x|x], ev as [y res|y r'|y res|y o|y ok]; try done; cbn [handle_event].
  - cbn in He. subst y. destruct (handle_startup_sound [TK_Startup x] c x res S Hb) as (H1 & H2 & H3). split; [by eapply release|done].
  - destruct (handle_container_terminated_sound [TK_Health x] c y r' S Hb) as (H1 & H2). split; [apply (release [] _ (TK_Health x)); [exact H1|cbn; tauto]|done].
  - destruct (handle_container_terminated_sound [TK_Crash x r] c y r' S Hb) as (H1 & H2). split; [apply (release [] _ (TK_Crash x r)); [exact H1|cbn; tauto]|done].
  - cbn in He. subst y. destruct (handle_prepared_sound [TK_Prepare x] c x res S Hb) as (H1 & H2 & H3). split; [by eapply release|done].
  - destruct He as [<- He]. destruct (handle_executed_sound [TK_Execute x] c x o S Hb) as (H1 & H2 & H3); [|split; [by eapply release|done]].
    intros r fe_result handles a -> Ha. apply He. by rewrite <-Eal.
  - cbn in He. subst y. destruct (handle_finalized_sound [TK_Finalize x] c x ok S Hb) as (H1 & H2 & H3). split; [by eapply release|done].
Qed.
Lemma reconcile_sound added removed l c : sound [] c → admissible added removed c → sound [] (reconcile_command room added removed l c) ∧ busy (reconcile_command room added removed l c).
Proof.
  intros S Ha. unfold reconcile_command. set (c1 := match l with [] => c | _ => _ end).
  assert (sound [] c1 ∧ admissible added removed c1) as [S1 A1].
  { unfold c1. destruct l as [|x l]; [done|]. destruct (cleanup_sound [] (allocation_ids (x :: l)) c S) as (H1 & H2 & H3). split; [done|]. unfold admissible. setoid_rewrite H2. by setoid_rewrite H3. }
  pose proof (add_allocations_sound [] l _ (reconcile_containers_sound [] added removed c1 S1 A1)) as S2.
  destruct (try_schedule_inv [] _ (proj1 S2)) as (H1 & H2 & H3 & _). split; [split; [done|unfold returned; rewrite H3; apply S2]|done].
Qed.
Lemma ac_step_sound sent c c' : ac_step sent c c' → sound [] c ∧ busy c → sound [] c' ∧ busy c'.
Proof.
  intros Hs [S Hb]. destruct Hs as [added removed l c Ha|id c|? c' [c l1 l2 t ev Et He|c l1 l2 fe_id Et]].
  - by apply reconcile_sound.
  - by apply cancel_sound.
  - apply (handle_event_sound c (c <| ac_tasks := l1 ++ l2 |>) t ev); try done. destruct S as [K HR]. split; [|exact HR].
    apply (core_same [] (ac_tasks c) _ c); try done. rewrite Et. cbn. intros y. set_solver.
  - split; [|exact Hb]. apply (release [] _ (TK_Health fe_id)); [|cbn; tauto]. destruct S as [K HR]. split; [|exact HR]. apply (core_same [] (ac_tasks c) _ c); try done. rewrite Et. cbn. intros y. set_solver.
Qed.

(** *** Outcomes *)

Definition reported_id (o : Outcome) : string := match o with OC_Completed x => ac_allocation_id x | OC_Failed x => af_allocation_id x end.
Definition reported (c : Controller) : list string := reported_id <$> ac_outcomes c.
(** From [c] to [c'] the outcomes [new] are sent, one for each allocation that ends. *)
Definition moved (new : list Outcome) (c c' : Controller) : Prop :=
  ac_outcomes c' = ac_outcomes c ++ new ∧ NoDup (reported_id <$> new) ∧
  ∀ id, id ∉ reported_id <$> new ∧ ac_allocations c !! id = None ∧ ac_allocations c' !! id = None ∨
    ∃ a a', ac_allocations c !! id = Some a ∧ ac_allocations c' !! id = Some a' ∧ ma_allocation a' = ma_allocation a ∧
      (id ∈ reported_id <$> new ↔ is_done a = false ∧ is_done a' = true) ∧ (is_done a = true → is_done a' = true).
Definition progress (c c' : Controller) : Prop := ∃ new, moved new c c'.
Lemma progress_step c c' new : ac_outcomes c' = ac_outcomes c ++ new → NoDup (reported_id <$> new) →
  (∀ id, ac_allocations c' !! id = ac_allocations c !! id ∧ id ∉ reported_id <$> new ∨
    ∃ a a', ac_allocations c !! id = Some a ∧ ac_allocations c' !! id = Some a' ∧ ma_allocation a' = ma_allocation a ∧ is_done a = false ∧ (id ∈ reported_id <$> new ↔ is_done a' = true)) →
  progress c c'.
Proof.
  intros H1 H2 H3. exists new. split; [done|]. split; [done|]. intros id. destruct (H3 id) as [[E Hn]|(a & a' & A1 & A2 & A3 & A4 & A5)].
  - rewrite E. destruct (ac_allocations c !! id) as [a|]; [right|by left]. exists a, a. destruct (is_done a); naive_solver.
  - right. exists a, a'. rewrite A4, A5. naive_solver.
Qed.
Lemma progress_same c c' : ac_outcomes c' = ac_outcomes c → ac_allocations c' = ac_allocations c → progress c c'.
Proof. intros H1 H2. apply (progress_step c c' []); [by rewrite app_nil_r|apply NoDup_nil_2|]. intros id. left. rewrite H2. split; [done|apply not_elem_of_nil]. Qed.
Lemma progress_trans c1 c2 c3 : progress c1 c2 → progress c2 c3 → progress c1 c3.
Proof.
  intros (n1 & A1 & A2 & A3) (n2 & B1 & B2 & B3). exists (n1 ++ n2). split; [by rewrite B1, A1, app_assoc|]. rewrite fmap_app. split.
  - apply NoDup_app. split; [done|]. split; [|done]. intros id H1 H2. destruct (A3 id) as [(? & _)|(a & a' & _ & A5 & _ & A7 & _)]; [done|].
    destruct (B3 id) as [(? & _)|(b & b' & B4 & _ & _ & B7 & _)]; [done|]. replace b with a' in * by congruence. apply A7 in H1. apply B7 in H2. destruct H1, H2. congruence.
  - intros id. destruct (A3 id) as [(H1 & H2 & H3)|(a & a' & A4 & A5 & A6 & A7 & A8)], (B3 id) as [(H4 & H5 & H6)|(b & b' & B4 & B5 & B6 & B7 & B8)]; try congruence.
    + left. rewrite not_elem_of_app. done.
    + right. replace b with a' in * by congruence. exists a, b'. split_and!; [done|done|congruence| |auto]. rewrite elem_of_app, A7, B7. destruct (is_done a), (is_done a'), (is_done b'); naive_solver.
Qed.
(** An allocation that is not done gets another state. *)
Lemma progress_state c c' id a st : ac_allocations c !! id = Some a → is_done a = false → st ≠ AS_Done → ac_allocations c' = <[id := a <| ma_state := st |>]> (ac_allocations c) →
  ac_outcomes c' = ac_outcomes c → progress c c'.
Proof.
  intros Ha Hd Hst Eal Eo. apply (progress_step c c' []); [by rewrite app_nil_r|apply NoDup_nil_2|]. intros k. rewrite Eal. destruct (decide (k = id)) as [->|Hne].
  - right. exists a, (a <| ma_state := st |>). rewrite lookup_insert_eq. split_and!; try done. split; [intros H; by apply not_elem_of_nil in H|]. by destruct st.
  - left. rewrite lookup_insert_ne by done. split; [done|apply not_elem_of_nil].
Qed.
Lemma progress_done c c' id a o : ac_allocations c !! id = Some a → is_done a = false → reported_id o = id → ac_allocations c' = <[id := a <| ma_state := AS_Done |>]> (ac_allocations c) →
  ac_outcomes c' = ac_outcomes c ++ [o] → progress c c'.
Proof.
  intros Ha Hd Ho Eal Eo. apply (progress_step c c' [o]); [done|apply NoDup_singleton|]. intros k. rewrite Eal. cbn. rewrite Ho. destruct (decide (k = id)) as [->|Hne].
  - right. exists a, (a <| ma_state := AS_Done |>). rewrite lookup_insert_eq. split_and!; try done. split; [done|]. intros _. set_solver.
  - left. rewrite lookup_insert_ne by done. set_solver.
Qed.
Lemma progress_scheduled c c' : scheduled c c' → ac_outcomes c' = ac_outcomes c → progress c c'.
Proof.
  intros Hs Eo. apply (progress_step c c' []); [by rewrite app_nil_r|apply NoDup_nil_2|]. intros id. destruct (Hs id) as [E|(a & ctx & A1 & A2 & A3)]; [left; split; [done|apply not_elem_of_nil]|right].
  exists a, (a <| ma_state := AS_Running ctx |>). split_and!; try done; [unfold is_waiting, is_done in *; by destruct (ma_state a)|]. split; [intros H; by apply not_elem_of_nil in H|done].
Qed.
Lemma finalization_progress id r ctx t c a : ac_allocations c !! id = Some a → is_done a = false → progress c (start_finalization id r ctx t c).
Proof.
  intros Ha Hd. eapply (progress_state c _ id a (AS_Finalizing r t)); try done; [by apply start_finalization_allocations|]. unfold start_finalization. by rewrite Ha.
Qed.
(** Allocations are filed under their ids. *)
Definition filed (c : Controller) : Prop := ∀ id a, ac_allocations c !! id = Some a → default "" (apb_allocation_id (ma_allocation a)) = id.
Lemma inv_filed E X c : inv E X c → filed c.
Proof. intros K id a Ha. apply (k_alloc _ _ _ K id a Ha). Qed.
Lemma progress_filed c c' : progress c c' → filed c → filed c'.
Proof. intros (n & _ & _ & H) Hf id a' Ha'. destruct (H id) as [(_ & _ & ?)|(a & b & A1 & A2 & A3 & _)]; [congruence|]. replace a' with b by congruence. rewrite A3. by apply Hf. Qed.
Lemma fail_allocation_progress fe_id reason id a c : filed c → ac_allocations c !! id = Some a → is_done a = false → progress c (fail_allocation_of_fe fe_id reason id a c).
Proof.
  intros Hf Ha Hd. unfold fail_allocation_of_fe, take_prepared. destruct (no_blobs _).
  - eapply (progress_done c _ id a); [done|done| |exact (set_state_insert _ id a _ Ha)|done]. exact (Hf id a Ha).
  - eapply progress_trans; [|apply (finalization_progress id _ _ _ _ a); done]. by apply progress_same.
Qed.
Lemma fail_one_progress fe_id reason c id : filed c → progress c (fail_one fe_id reason c id).
Proof.
  intros Hf. unfold fail_one. destruct (ac_allocations c !! id) as [a|] eqn:Ha; [|by apply progress_same]. destruct (ma_state a) eqn:Est; try by apply progress_same.
  - eapply (progress_trans _ (perform (EF_CancelAllocation id) c)); [by apply progress_same|]. apply fail_allocation_progress; try done. unfold is_done. by rewrite Est.
  - apply fail_allocation_progress; try done. unfold is_done. by rewrite Est.
  - apply fail_allocation_progress; try done. unfold is_done. by rewrite Est.
Qed.
Lemma fold_progress {A} (P : Controller → Prop) (step : Controller → A → Controller) l : (∀ c x, P c → progress c (step c x) ∧ P (step c x)) → ∀ c, P c → progress c (foldl step c l) ∧ P (foldl step c l).
Proof.
  intros H. induction l as [|x l IH]; intros c Hc; [split; [by apply progress_same|done]|]. cbn. destruct (H c x Hc) as [H1 H2]. destruct (IH _ H2) as [H3 H4]. split; [by eapply progress_trans|done].
Qed.
Lemma fail_allocations_progress fe_id reason c : filed c → progress c (fail_allocations_for_fe fe_id reason c).
Proof.
  intros Hf. unfold fail_allocations_for_fe. eapply (progress_trans _ (c <| ac_waiting_queue ::= delete fe_id |>)); [by apply progress_same|].
  apply (fold_progress filed (fail_one fe_id _)); [|done]. intros d x Hd. pose proof (fail_one_progress fe_id (if is_startup_failure reason then reason else AFR_ContainerTerminated) d x Hd) as H. split; [done|by eapply progress_filed].
Qed.
Lemma terminated_with_progress fe_id r reason c : filed c → progress c (terminated_with fe_id r reason c).
Proof.
  intros Hf. unfold terminated_with. set (d := set_fe_state _ _ _). apply (progress_trans _ d); [by apply progress_same|].
  eapply progress_trans; [apply fail_allocations_progress; exact Hf|]. destruct (return_gpus_frame fe_id (fail_allocations_for_fe fe_id reason d)) as (_ & _ & R3 & _ & R5). by apply progress_same.
Qed.

Lemma run_candidate_progress fe_id c id : progress c (run_candidate fe_id c id).
Proof.
  unfold run_candidate. destruct (ac_allocations c !! id) as [a|] eqn:Ha; [|by apply progress_same].
  destruct (ma_state a) eqn:Est; try by apply progress_same.
  all: assert (Hd : is_done a = false) by (unfold is_done; by rewrite Est).
  all: destruct (ac_prepared_data c !! id) as [[p ctx]|];
    [apply (progress_state c _ id a (AS_Running ctx))|apply (progress_state c _ id a (AS_Finalizing (make_failure_result (ma_allocation a) AFR_InternalError) None))];
    try done; exact (set_state_insert _ id a _ Ha).
Qed.
Lemma try_schedule_progress c : progress c (try_schedule c).
Proof.
  apply (fold_progress (λ _, True) schedule_on); [|done]. intros d fe_id _. split; [|done]. unfold schedule_on.
  destruct (ac_containers d !! fe_id) as [f|]; [|by apply progress_same]. destruct (mf_state f); try by apply progress_same. destruct (ac_waiting_queue d !! fe_id) as [q|]; [|by apply progress_same].
  cbv zeta. eapply progress_trans; [|apply (fold_progress (λ _, True) (run_candidate fe_id)); [intros; split; [apply run_candidate_progress|done]|done]]. by apply progress_same.
Qed.
Lemma remove_container_progress fe_id c : filed c → progress c (remove_ac_container room fe_id c).
Proof.
  intros Hf. destruct (ac_containers c !! fe_id) as [f|] eqn:Hc; [|unfold remove_ac_container; rewrite Hc; by apply progress_same].
  destruct (remove_container_shape c fe_id f Hc) as [(r & _ & ->)|(d & -> & l & ->)]; [by apply progress_same|]. set (d := c <| ac_effects := l |>).
  apply (progress_trans _ d); [by apply progress_same|]. eapply progress_trans; [apply (terminated_with_progress fe_id TR_FunctionCancelled AFR_ContainerTerminated d Hf)|by apply progress_same].
Qed.
Lemma create_container_progress d c : filed c → progress c (create_ac_container room d c).
Proof.
  intros Hf. unfold create_ac_container. destruct (if bool_decide (0 < gpu_count d) then _ else _) as [[uuids gpus]|]; cbv zeta; [by apply progress_same|].
  match goal with |- context [fail_allocations_for_fe ?fe ?r ?x] => apply (progress_trans _ x); [by apply progress_same|]; apply (progress_trans _ (fail_allocations_for_fe fe r x)); [by apply fail_allocations_progress|by apply progress_same] end.
Qed.
Lemma fold_pair_progress {A} (step : Controller * bool → A → Controller * bool) l :
  (∀ acc x, filed acc.1 → progress acc.1 (step acc x).1) → ∀ acc, filed acc.1 → progress acc.1 (foldl step acc l).1.
Proof.
  intros H. induction l as [|x l IH]; intros acc Hf; [by apply progress_same|]. cbn. pose proof (H acc x Hf) as Hp. eapply progress_trans; [exact Hp|]. apply IH. by eapply progress_filed.
Qed.
Lemma reconcile_containers_progress added removed c : filed c → progress c (reconcile_containers room added removed c).
Proof.
  intros Hf. unfold reconcile_containers.
  assert (progress c (foldl (remove_tracked room) (c, false) removed).1) as H1.
  { apply (fold_pair_progress (remove_tracked room) removed); [|done]. intros [d b] id Hd. unfold remove_tracked. cbn [fst]. destruct (ac_containers d !! id); [by apply remove_container_progress|by apply progress_same]. }
  assert (progress c (foldl (create_untracked room) (foldl (remove_tracked room) (c, false) removed) added).1) as H2.
  { eapply progress_trans; [exact H1|]. apply fold_pair_progress; [|by eapply progress_filed]. intros [d b] x Hd. unfold create_untracked. cbn [fst].
    destruct (cd_id x) as [id|]; [|by apply progress_same]. destruct (ac_containers d !! id); [by apply progress_same|by apply create_container_progress]. }
  destruct (foldl (create_untracked room) _ added) as [c' changed]. cbn [fst] in H2. destruct changed; [|done]. eapply progress_trans; [exact H2|by apply progress_same].
Qed.
Lemma cancel_progress id c : progress c (cancel_ac_allocation id c).
Proof.
  unfold cancel_ac_allocation. destruct (ac_allocations c !! id) as [a|] eqn:Ha; [|by apply progress_same]. unfold take_prepared. cbv zeta.
  destruct (ma_state a) eqn:Est; try by apply progress_same.
  all: match goal with |- context [start_finalization _ _ _ _ ?x] => apply (progress_trans _ x); [by apply progress_same|] end.
  all: apply (finalization_progress id _ _ _ _ a); [exact Ha|unfold is_done; by rewrite Est].
Qed.
Lemma handle_prepared_progress id res c : progress c (handle_allocation_prepared id res c).
Proof.
  unfold handle_allocation_prepared. destruct (ac_allocations c !! id) as [a|] eqn:Ha; [|by apply progress_same]. destruct (ma_state a) eqn:Est; try by apply progress_same.
  assert (Hd : is_done a = false) by (unfold is_done; by rewrite Est). assert (∀ r ctx t, progress c (start_finalization id r ctx t c)) as Hfin by (intros; by apply (finalization_progress id _ _ _ c a)).
  destruct res as [prepared|]; [|apply Hfin]. cbv zeta. destruct (mf_state <$> ac_containers c !! ma_fe_id a) as [[|h|r]|]; try apply Hfin.
  - apply (progress_state c _ id a AS_WaitingForContainer); try done. exact (set_state_insert c id a _ Ha).
  - eapply progress_trans; [|apply try_schedule_progress]. apply (progress_state c _ id a AS_WaitingForSlot); try done. exact (set_state_insert c id a _ Ha).
Qed.
Lemma handle_executed_progress id o c : progress c (handle_allocation_execution_finished id o c).
Proof.
  unfold handle_allocation_execution_finished. destruct (ac_allocations c !! id) as [a|] eqn:Ha; [|by apply progress_same]. destruct (ma_state a) as [| | |ctx| |] eqn:Est; try by apply progress_same.
  cbv zeta. set (c1 := c <| ac_running_count ::= alter (λ n, Z.max 0 (n - 1)) (ma_fe_id a) |>). destruct (settle_outcome c1 a ctx o) as [[r ctx'] crash].
  eapply progress_trans; [|apply try_schedule_progress]. apply (progress_trans _ c1); [by apply progress_same|].
  assert (progress c1 (start_finalization id r ctx' None c1)) as H by (apply (finalization_progress id _ _ _ c1 a); [exact Ha|unfold is_done; by rewrite Est]).
  destruct crash; [|done]. eapply progress_trans; [exact H|by apply progress_same].
Qed.
Lemma failure_outcome_id a reason err dur ctn : reported_id (make_allocation_failed_outcome a reason err dur ctn) = default "" (apb_allocation_id a).
Proof. done. Qed.
Lemma result_outcome_id r ctn : reported_id (allocation_result_to_outcome r ctn) = default "" (ar_allocation_id r).
Proof. unfold allocation_result_to_outcome. by case_bool_decide. Qed.
(** Results that are being finalized are those of the allocation. *)
Definition answered (c : Controller) : Prop := ∀ id a r t, ac_allocations c !! id = Some a → ma_state a = AS_Finalizing r t → result_for (ma_allocation a) r.
Lemma inv_answered E X c : inv E X c → answered c.
Proof. intros K id a r t Ha Est. destruct (k_alloc _ _ _ K id a Ha) as [_ Ho]. rewrite Est in Ho. apply Ho. Qed.
Lemma handle_finalized_progress id ok c : filed c → answered c → progress c (handle_allocation_finalization_finished id ok c).
Proof.
  intros Hf Ha'. unfold handle_allocation_finalization_finished. destruct (ac_allocations c !! id) as [a|] eqn:Ha; [|by apply progress_same].
  destruct (ma_state a) as [| | | |r t|] eqn:Est; try by apply progress_same. cbv zeta. eapply (progress_done c _ id a); [done|unfold is_done; by rewrite Est| |exact (set_state_insert c id a _ Ha)|reflexivity].
  destruct (Ha' id a r t Ha Est) as [Hr _]. rewrite result_outcome_id. destruct ok; [rewrite Hr|]; exact (Hf id a Ha).
Qed.
Lemma handle_startup_progress fe_id res c : filed c → progress c (handle_container_startup_complete room fe_id res c).
Proof.
  intros Hf. unfold handle_container_startup_complete. cbv zeta. destruct (mf_state <$> ac_containers c !! fe_id) as [[|h|r]|]; try (destruct res; by apply progress_same).
  destruct res as [handle|e].
  - match goal with |- context [try_schedule ?x] => apply (progress_trans _ x); [by apply progress_same|]; apply (progress_trans _ (try_schedule x)); [apply try_schedule_progress|by apply progress_same] end.
  - eapply progress_trans; [apply (terminated_with_progress fe_id (startup_reason e) (termination_to_failure_reason (startup_reason e)) c Hf)|by apply progress_same].
Qed.
Lemma handle_terminated_progress fe_id reason c : filed c → progress c (handle_container_terminated room fe_id reason c).
Proof.
  intros Hf. unfold handle_container_terminated. destruct (ac_containers c !! fe_id) as [f|]; [|by apply progress_same]. cbv zeta.
  assert (∀ d, filed d → ∀ g, (∀ x, ac_allocations (g x) = ac_allocations x ∧ ac_outcomes (g x) = ac_outcomes x) →
    progress d (broadcast_state (send_container_terminated room fe_id reason (perform (EF_Forget fe_id) (return_gpus fe_id
      (g (fail_allocations_for_fe fe_id (termination_to_failure_reason reason) (set_fe_state fe_id (FS_Terminated reason) d)))))))) as H.
  { intros d Hd g Hg. set (d1 := set_fe_state _ _ _). apply (progress_trans _ d1); [by apply progress_same|]. set (d2 := fail_allocations_for_fe _ _ _).
    apply (progress_trans _ d2); [by apply fail_allocations_progress|]. destruct (Hg d2) as [G1 G2], (return_gpus_frame fe_id (g d2)) as (_ & _ & R3 & _ & R5).
    apply progress_same; [transitivity (ac_outcomes (return_gpus fe_id (g d2)))|transitivity (ac_allocations (return_gpus fe_id (g d2)))]; congruence || done. }
  destruct (mf_state f) as [|h|r]; [by apply (H c Hf id)| |by apply progress_same].
  apply (progress_trans _ (perform (EF_CancelHealth fe_id) c)); [by apply progress_same|]. by apply (H (perform (EF_CancelHealth fe_id) c) Hf (perform (EF_Kill h))).
Qed.
Lemma handle_event_progress E X ev c : inv E X c → progress c (handle_event room ev c).
Proof.
  intros K. pose proof (inv_filed _ _ _ K). destruct ev; cbn [handle_event];
    [by apply handle_startup_progress|by apply handle_terminated_progress|apply handle_prepared_progress|apply handle_executed_progress|apply handle_finalized_progress; [done|by eapply inv_answered]].
Qed.

(** What the server has sent is being worked on or has been reported, once. *)
Record accounted (h : list string) (c : Controller) : Prop := {
  a_once : NoDup (reported c);
  a_reported : ∀ id, id ∈ reported c → id ∈ h ∧ ∀ a, ac_allocations c !! id = Some a → is_done a = true;
  a_sent : ∀ id, id ∈ h → id ∈ reported c ∨ ∃ a, ac_allocations c !! id = Some a ∧ is_done a = false;
  a_tracked : ∀ id, is_Some (ac_allocations c !! id) → id ∈ h;
}.
Lemma progress_accounted h c c' : progress c c' → accounted h c → accounted h c'.
Proof.
  intros (new & Eo & Hnd & Hm) [A1 A2 A3 A4]. assert (Er : reported c' = reported c ++ (reported_id <$> new)) by (unfold reported; by rewrite Eo, fmap_app). split.
  - rewrite Er. apply NoDup_app. split; [done|]. split; [|done]. intros id H1 H2. destruct (Hm id) as [(? & _)|(a & a' & B1 & _ & _ & B4 & _)]; [done|].
    destruct (proj1 B4 H2) as [H3 _]. destruct (A2 id H1) as [_ H4]. rewrite (H4 a B1) in H3. done.
  - intros id. rewrite Er, elem_of_app. intros Hid. destruct (Hm id) as [(B1 & B2 & B3)|(a & a' & B1 & B2 & _ & B4 & B5)].
    + destruct Hid as [Hid|Hid]; [|done]. split; [by apply A2|]. intros b Hb. congruence.
    + split; [apply A4; eauto|]. intros b Hb. replace b with a' by congruence. destruct Hid as [Hid|Hid]; [apply B5; by apply (A2 id Hid)|by apply B4].
  - intros id Hid. rewrite Er, elem_of_app. destruct (A3 id Hid) as [H|(a & Ha & Hd)]; [by left; left|]. destruct (Hm id) as [(_ & ? & _)|(b & a' & B1 & B2 & _ & B4 & _)]; [congruence|].
    replace b with a in * by congruence. destruct (is_done a') eqn:Hd'; [left; right; by apply B4|right; eauto].
  - intros id [a' Ha']. apply A4. destruct (Hm id) as [(_ & _ & ?)|(a & _ & B1 & _)]; [congruence|eauto].
Qed.
Lemma progress_tracked c c' id : progress c c' → is_Some (ac_allocations c !! id) → is_Some (ac_allocations c' !! id).
Proof. intros (new & _ & _ & Hm) [a Ha]. destruct (Hm id) as [(_ & ? & _)|(b & a' & _ & B2 & _)]; [congruence|eauto]. Qed.
Lemma add_accounted h c x : accounted h c → (default "" (apb_allocation_id x.1.2) ∈ h → is_Some (ac_allocations c !! default "" (apb_allocation_id x.1.2))) →
  let id := default "" (apb_allocation_id x.1.2) in let c' := add_allocation room c x in
  accounted (h ++ [id]) c' ∧ is_Some (ac_allocations c' !! id) ∧ ∀ k, is_Some (ac_allocations c !! k) → is_Some (ac_allocations c' !! k).
Proof.
  destruct x as [[fe_id al] seq]. cbn [fst snd]. intros [A1 A2 A3 A4] Hnew. unfold add_allocation. set (id := default "" (apb_allocation_id al)) in *. cbv zeta.
  destruct (ac_allocations c !! id) as [a|] eqn:Ha.
  - assert (id ∈ h) as Hid by (apply A4; eauto). split; [|split; [by rewrite Ha|done]]. split; [done|..].
    + intros k Hk. destruct (A2 k Hk). split; [set_solver|done].
    + intros k Hk. apply A3. set_solver.
    + intros k Hk. apply A4 in Hk. set_solver.
  - assert (id ∉ h) as Hid by (intros H; destruct (Hnew H); congruence).
    assert (id ∉ reported c) as Hnr by (intros H; by apply A2 in H as [H _]).
    assert (∀ c' a o, ac_allocations c' = <[id := a]> (ac_allocations c) → ac_outcomes c' = ac_outcomes c ++ o → (is_done a = false ∧ o = [] ∨ is_done a = true ∧ reported_id <$> o = [id]) →
      accounted (h ++ [id]) c' ∧ is_Some (ac_allocations c' !! id) ∧ ∀ k, is_Some (ac_allocations c !! k) → is_Some (ac_allocations c' !! k)) as H.
    { intros c' a o Eal Eo Hd. assert (Er : reported c' = reported c ++ (reported_id <$> o)) by (unfold reported; by rewrite Eo, fmap_app). split; [split|split].
      - rewrite Er. destruct Hd as [[_ ->]|[_ ->]]; [by rewrite app_nil_r|]. apply NoDup_app. split; [done|]. split; [set_solver|apply NoDup_singleton].
      - intros k. rewrite Er, Eal. intros Hk. apply elem_of_app in Hk as [Hk|Hk].
        + destruct (A2 k Hk) as [H1 H2]. split; [set_solver|]. rewrite lookup_insert_ne; [done|]. intros ->. done.
        + destruct Hd as [[_ ->]|[Hd Ho]]; [by apply not_elem_of_nil in Hk|]. rewrite Ho in Hk. apply list_elem_of_singleton in Hk as ->. rewrite lookup_insert_eq. split; [set_solver|]. by intros b [= <-].
      - intros k Hk. rewrite Er, Eal. destruct (decide (k = id)) as [->|Hne].
        + rewrite lookup_insert_eq. destruct Hd as [[Hd ->]|[Hd ->]]; [right; eauto|left; set_solver].
        + rewrite lookup_insert_ne by done. destruct (A3 k) as [H|H]; [set_solver|left; set_solver|by right].
      - intros k. rewrite Eal. intros Hk. destruct (decide (k = id)) as [->|Hne]; [set_solver|]. rewrite lookup_insert_ne in Hk by done. apply A4 in Hk. set_solver.
      - by rewrite Eal, lookup_insert_eq.
      - intros k Hk. rewrite Eal. destruct (decide (k = id)) as [->|Hne]; [by rewrite lookup_insert_eq|by rewrite lookup_insert_ne]. }
    destruct (alive_fe c fe_id).
    + apply (H _ (MkManagedAllocation al fe_id AS_Preparing) []); [done|by rewrite app_nil_r|by left].
    + eapply (H _ (MkManagedAllocation al fe_id AS_Done)); [done|reflexivity|by right].
Qed.

Lemma add_all_accounted l : ∀ h c, accounted h c → (∀ id, id ∈ allocation_ids l → id ∈ h → is_Some (ac_allocations c !! id)) → accounted (h ++ allocation_ids l) (add_allocations room l c).
Proof.
  induction l as [|x l IH]; intros h c A Hnew; [by rewrite app_nil_r|]. cbn. destruct (add_accounted h c x A) as (B1 & B2 & B3); [intros H; apply Hnew; [cbn; set_solver|done]|].
  rewrite cons_middle, app_assoc. apply IH; [done|]. intros id Hid Hh. apply elem_of_app in Hh as [Hh|Hh]; [apply B3, Hnew; [cbn; set_solver|done]|]. by apply list_elem_of_singleton in Hh as ->.
Qed.
Lemma cleanup_accounted h ids c : accounted h c → accounted h (cleanup_done_allocations ids c) ∧ ∀ id, id ∈ ids → is_Some (ac_allocations c !! id) → is_Some (ac_allocations (cleanup_done_allocations ids c) !! id).
Proof.
  intros [A1 A2 A3 A4]. set (c' := cleanup_done_allocations ids c).
  assert (Hl : ∀ id a, ac_allocations c' !! id = Some a ↔ ac_allocations c !! id = Some a ∧ (is_done a = true → id ∈ ids)).
  { intros id a. unfold c', cleanup_done_allocations. cbn [ac_allocations set_field]. rewrite map_lookup_filter_Some. f_equiv. cbn. unfold is_done.
    destruct (ma_state a); rewrite ?bool_decide_eq_true; naive_solver. }
  split; [|intros id Hid [a Ha]; exists a; by apply Hl]. split; [done|..].
  - intros id Hid. destruct (A2 id Hid) as [H1 H2]. split; [done|]. intros a Ha. apply Hl in Ha as [Ha _]. by apply H2.
  - intros id Hid. destruct (A3 id Hid) as [H|(a & Ha & Hd)]; [by left|right]. exists a. split; [|done]. apply Hl. split; [done|congruence].
  - intros id [a Ha]. apply Hl in Ha as [Ha _]. apply A4. eauto.
Qed.
Lemma ac_step_accounted h sent c c' : ac_step sent c c' → sound [] c → (∀ id, id ∈ sent → id ∈ h → is_Some (ac_allocations c !! id)) → accounted h c → accounted (h ++ sent) c'.
Proof.
  intros Hs S Hnew A. destruct Hs as [added removed l c Ha|id c|? c' [c l1 l2 t ev Et He|c l1 l2 fe_id Et]]; [|rewrite app_nil_r..].
  - unfold reconcile_command. set (c1 := match l with [] => c | _ => _ end).
    assert (accounted h c1 ∧ (∀ id, id ∈ allocation_ids l → id ∈ h → is_Some (ac_allocations c1 !! id)) ∧ filed c1) as (A1 & H1 & F1).
    { unfold c1. destruct l as [|x l]; [split_and!; [done|done|apply (inv_filed [] []), S]|]. destruct (cleanup_accounted h (allocation_ids (x :: l)) c A) as [H1 H2]. split; [done|]. split; [auto|].
      apply (inv_filed [] []). apply (cleanup_sound [] _ c S). }
    pose proof (reconcile_containers_progress added removed c1 F1) as P. eapply progress_accounted; [apply try_schedule_progress|]. apply add_all_accounted; [by eapply progress_accounted|].
    intros id Hi Hh. eapply progress_tracked; [exact P|]. by apply H1.
  - eapply progress_accounted; [apply cancel_progress|done].
  - set (d := c <| ac_tasks := l1 ++ l2 |>). assert (inv [t] [] d) as K by (apply (core_same [] (ac_tasks c) _ c); try done; [apply S|]; rewrite Et; cbn; set_solver).
    apply (progress_accounted h c); [|done]. apply (progress_trans _ d); [by apply progress_same|]. by eapply handle_event_progress.
  - apply (progress_accounted h c); [by apply progress_same|done].
Qed.
(** The states of a controller that has recovered the containers of the previous run and
    has been sent the allocations [h]; with [once], an allocation is not sent again after
    the controller has forgotten it. *)
Inductive reach (gpus : list GpuInfo) (once : bool) : list string → Controller → Prop :=
| reach_new alive connect entries :
    (∀ e d, e ∈ entries → pc_description e = Some d → 1 ≤ default 1 (cd_max_concurrency d)) →
    reach gpus once [] (recover_containers room alive connect entries (new_controller gpus)).1
| reach_step h sent c c' : reach gpus once h c → ac_step sent c c' → (once = true → ∀ id, id ∈ sent → id ∈ h → is_Some (ac_allocations c !! id)) → reach gpus once (h ++ sent) c'.
Lemma new_controller_sound gpus : sound [] (new_controller gpus) ∧ busy (new_controller gpus).
Proof.
  split; [split; [split|]|]; unfold returned, busy, queue_of; cbn; intros; try by (rewrite lookup_empty in *; simplify_eq).
  - rewrite lookup_empty. split; [apply NoDup_nil_2|]. intros id Hid. by apply not_elem_of_nil in Hid.
  - rewrite lookup_empty in *. by destruct H.
  - unfold held_gpus. cbn. rewrite map_to_list_empty, app_nil_r. done.
Qed.
(** A controller without allocations. *)
Definition idle (c : Controller) : Prop :=
  ac_allocations c = ∅ ∧ ac_running_count c = ∅ ∧ ac_waiting_queue c = ∅ ∧ ac_outcomes c = [] ∧ ∀ k f, ac_containers c !! k = Some f → mf_allocated_gpu_uuids f = [].
Lemma idle_busy c : idle c → busy c.
Proof. intros (_ & _ & Hq & _) k f h _ _. left. unfold queue_of. by rewrite Hq, lookup_empty. Qed.
Lemma idle_held c : idle c → held_gpus c = [].
Proof.
  intros (_ & _ & _ & _ & Hg). unfold held_gpus. assert (∀ k f, (k, f) ∈ map_to_list (ac_containers c) → mf_allocated_gpu_uuids f = []) as H by (intros k f Hk; apply elem_of_map_to_list in Hk; by eapply Hg).
  induction (map_to_list (ac_containers c)) as [|[k f] l IH]; [done|]. cbn. rewrite (H k f) by set_solver. apply IH. intros k' f' H'. apply (H k'). set_solver.
Qed.
Lemma recover_single_sound alive connect c e : sound [] c → idle c → (∀ d, pc_description e = Some d → 1 ≤ default 1 (cd_max_concurrency d)) →
  sound [] (recover_single_entry room alive connect c e).1 ∧ idle (recover_single_entry room alive connect c e).1.
Proof.
  intros S I Hd. assert (sound [] (perform (EF_Forget (pc_container_id e)) c) ∧ idle (perform (EF_Forget (pc_container_id e)) c)) as Hskip by (split; [by apply sound_perform|exact I]).
  unfold recover_single_entry. destruct (alive (persisted_handle e)) as [[|]|]; try exact Hskip. destruct (connect (pc_daemon_addr e)); [|exact Hskip]. destruct (pc_description e) as [d|]; [|exact Hskip].
  cbv zeta. set (f := MkManagedFE d _ _ []). set (c' := (_, Some (pc_handle_id e)).1). pose proof I as (I1 & I2 & I3 & I4 & I5). destruct S as [K HR].
  assert (Ect : ac_containers c' = <[pc_container_id e := f]> (ac_containers c)) by done. assert (idle c') as I'.
  { split_and!; try done. intros k g. rewrite Ect. intros Hk. apply lookup_insert_Some in Hk as [[_ <-]|[_ Hk]]; [done|by eapply I5]. }
  split; [|done]. split.
  - apply (core_container [] [] (ac_tasks c) _ c c' (pc_container_id e) f K); try done.
    + change (ac_tasks c') with (ac_tasks c ++ [TK_Health (pc_container_id e)]). cbn. set_solver.
    + apply fe_ok_new; [change (ac_running_count c') with (ac_running_count c); by rewrite I2| |by apply Hd|done]. unfold running_on. change (ac_allocations c') with (ac_allocations c). by rewrite I1.
    + by left.
    + intros. apply not_elem_of_nil.
    + intros id a. by rewrite I1, lookup_empty.
    + pose proof (k_gpus _ _ _ K) as Hg. rewrite (idle_held c I) in Hg. by rewrite (idle_held c' I').
  - intros k g r. rewrite Ect. intros Hk. apply lookup_insert_Some in Hk as [[_ <-]|[_ Hk]]; [done|by apply (HR k)].
Qed.
Lemma recover_sound alive connect gpus entries : (∀ e d, e ∈ entries → pc_description e = Some d → 1 ≤ default 1 (cd_max_concurrency d)) →
  let c := (recover_containers room alive connect entries (new_controller gpus)).1 in sound [] c ∧ idle c.
Proof.
  intros He. unfold recover_containers. assert (∀ acc, sound [] acc.1 ∧ idle acc.1 → sound [] (foldl (recover_entry room alive connect) acc entries).1 ∧ idle (foldl (recover_entry room alive connect) acc entries).1) as H.
  { induction entries as [|e entries IH]; intros acc [S I]; [done|]. cbn. apply IH; [intros e' d' Hin; apply He; set_solver|]. unfold recover_entry at 1 2.
    pose proof (recover_single_sound alive connect acc.1 e S I ltac:(intros d; apply He; set_solver)) as H. by destruct (recover_single_entry room alive connect acc.1 e). }
  specialize (H (new_controller gpus, [])). destruct (foldl _ _ entries) as [c handles]. cbv zeta. cbn [fst] in *.
  destruct H as [S I]; [split; [apply new_controller_sound|]; split_and!; try done; intros k f; cbn; by rewrite lookup_empty|]. destruct handles; [done|]. split; [by apply sound_broadcast|exact I].
Qed.
Lemma reach_sound gpus once h c : reach gpus once h c → sound [] c ∧ busy c.
Proof. induction 1 as [alive connect entries He|h sent c c' Hr IH Hs Hn]; [|by eapply ac_step_sound]. destruct (recover_sound alive connect gpus entries He) as [S I]. split; [done|by apply idle_busy]. Qed.
Lemma reach_accounted gpus h c : reach gpus true h c → accounted h c.
Proof.
  remember true as once. induction 1 as [alive connect entries He|h sent c c' Hr IH Hs Hn]; [|eapply ac_step_accounted; [done|apply (reach_sound gpus once h c Hr)|auto|auto]].
  destruct (recover_sound alive connect gpus entries He) as [_ (I1 & _ & _ & I4 & _)]. split; unfold reported; rewrite ?I1, ?I4; cbn; [apply NoDup_nil_2|..]; intros id Hid; try by apply not_elem_of_nil in Hid.
  rewrite lookup_empty in Hid. by destruct Hid.
Qed.

(** *** Quiescence *)

(** All that is left to wait for is the health of the containers. *)
Definition quiescent (c : Controller) : Prop := ∀ t, t ∈ ac_tasks c → match t with TK_Health _ | TK_Crash _ _ => True | _ => False end.
Lemma quiescent_done c : sound [] c → busy c → quiescent c → ∀ id a, ac_allocations c !! id = Some a → is_done a = true.
Proof.
  intros [K _] Hb Hq id a Ha. assert (∀ k b, ac_allocations c !! k = Some b → is_running b = false) as Hnr.
  { intros k b Hk. destruct (k_alloc _ _ _ K k b Hk) as [_ Ho]. unfold is_running. destruct (ma_state b); try done. destruct Ho as [Ho _]. by apply Hq in Ho. }
  destruct (k_alloc _ _ _ K id a Ha) as [_ Ho]. assert (is_waiting a = false) as Hw.
  { destruct (is_waiting a) eqn:Hw; [|done]. assert (id ∈ queue_of c (ma_fe_id a) ∧ alive_fe c (ma_fe_id a) = true) as [H1 H2].
    { unfold is_waiting in Hw. destruct (ma_state a); try done; apply (proj2 Ho), not_elem_of_nil. }
    unfold alive_fe in H2. destruct (ac_containers c !! ma_fe_id a) as [f|] eqn:Hf; [|done]. destruct (k_fe _ _ _ K _ f Hf) as (F1 & _ & _ & F4).
    destruct (mf_state f) as [|h|r] eqn:Est; [by specialize (F4 eq_refl); apply Hq in F4| |done].
    destruct (Hb _ f h Hf Est) as [E|E]; [by rewrite E in H1; apply not_elem_of_nil in H1|]. destruct (running_on_some c (ma_fe_id a)) as (k & b & B1 & _ & B3); [lia|]. by rewrite (Hnr k b B1) in B3. }
  specialize (Hnr id a Ha). unfold is_waiting, is_running, is_done in *. destruct (ma_state a); try done; destruct Ho as [Ho _]; by apply Hq in Ho.
Qed.

(** The events that are still to come, at most. *)
Definition task_weight (t : Task) : nat := match t with TK_Startup _ => 2 | _ => 1 end.
Definition alloc_weight (a : ManagedAllocation) : nat :=
  match ma_state a with AS_Preparing | AS_WaitingForContainer | AS_WaitingForSlot => 3 | AS_Running _ => 2 | AS_Finalizing _ _ | AS_Done => 0 end.
Definition total_weight (m : gmap string ManagedAllocation) : nat := map_fold (λ _ a n, alloc_weight a + n)%nat 0%nat m.
Definition potential (c : Controller) : nat := (sum_list_with task_weight (ac_tasks c) + total_weight (ac_allocations c))%nat.
Lemma total_weight_insert m id a : m !! id = None → total_weight (<[id := a]> m) = (alloc_weight a + total_weight m)%nat.
Proof. intros H. unfold total_weight. rewrite map_fold_insert_L; [done| |done]. intros. lia. Qed.
Lemma total_weight_replace m id a a' : m !! id = Some a → (total_weight (<[id := a']> m) + alloc_weight a = total_weight m + alloc_weight a')%nat.
Proof.
  intros H. rewrite <-(insert_delete_id m id a H) at 2. rewrite <-insert_delete_eq, !total_weight_insert by apply lookup_delete_eq. lia.
Qed.
Lemma potential_same c c' : ac_tasks c' = ac_tasks c → ac_allocations c' = ac_allocations c → potential c' = potential c.
Proof. unfold potential. by intros -> ->. Qed.
Lemma potential_state c c' id a st l : ac_allocations c !! id = Some a → ac_allocations c' = <[id := a <| ma_state := st |>]> (ac_allocations c) → ac_tasks c' = ac_tasks c ++ l →
  (potential c' + alloc_weight a = potential c + alloc_weight (a <| ma_state := st |>) + sum_list_with task_weight l)%nat.
Proof. intros Ha Eal Et. unfold potential. rewrite Eal, Et, sum_list_with_app. pose proof (total_weight_replace _ id a (a <| ma_state := st |>) Ha). lia. Qed.
Lemma potential_state_le c c' id a st l : ac_allocations c !! id = Some a → ac_allocations c' = <[id := a <| ma_state := st |>]> (ac_allocations c) → ac_tasks c' = ac_tasks c ++ l →
  (alloc_weight (a <| ma_state := st |>) + sum_list_with task_weight l ≤ alloc_weight a)%nat → (potential c' ≤ potential c)%nat.
Proof. intros Ha Eal Et Hw. pose proof (potential_state c c' id a st l Ha Eal Et). lia. Qed.
Lemma finalization_potential id r ctx t c a : ac_allocations c !! id = Some a → (potential (start_finalization id r ctx t c) + alloc_weight a = potential c + 1)%nat.
Proof.
  intros Ha. pose proof (potential_state c (start_finalization id r ctx t c) id a (AS_Finalizing r t) [TK_Finalize id] Ha) as H. rewrite H; [cbn; lia|by apply start_finalization_allocations|].
  unfold start_finalization. by rewrite Ha.
Qed.
Lemma fail_one_potential fe_id reason c id : (potential (fail_one fe_id reason c id) ≤ potential c)%nat.
Proof.
  unfold fail_one. destruct (ac_allocations c !! id) as [a|] eqn:Ha; [|done].
  assert (∀ d, ac_tasks d = ac_tasks c → ac_allocations d = ac_allocations c → alloc_weight a = 3%nat → (potential (fail_allocation_of_fe fe_id reason id a d) ≤ potential c)%nat) as H.
  { intros d Et Eal Hw. rewrite <-(potential_same c d Et Eal). rewrite <-Eal in Ha. unfold fail_allocation_of_fe, take_prepared. destruct (no_blobs _).
    - apply (potential_state_le d _ id a AS_Done [] Ha); [exact (set_state_insert _ id a _ Ha)|by rewrite app_nil_r|rewrite Hw; cbn; lia].
    - match goal with |- context [start_finalization ?i ?r ?x ?t ?y] => pose proof (finalization_potential i r x t y a Ha) as H; change (potential y) with (potential d) in H end. lia. }
  destruct (ma_state a) eqn:Est; try done; apply H; try done; unfold alloc_weight; by rewrite Est.
Qed.
Lemma fold_potential {A} (step : Controller → A → Controller) l : (∀ c x, potential (step c x) ≤ potential c)%nat → ∀ c, (potential (foldl step c l) ≤ potential c)%nat.
Proof. intros H. induction l as [|x l IH]; intros c; [done|]. cbn. etransitivity; [apply IH|apply H]. Qed.
Lemma fail_allocations_potential fe_id reason c : (potential (fail_allocations_for_fe fe_id reason c) ≤ potential c)%nat.
Proof. unfold fail_allocations_for_fe. etransitivity; [apply fold_potential; intros; apply fail_one_potential|done]. Qed.
Lemma terminated_with_potential fe_id r reason c : (potential (terminated_with fe_id r reason c) ≤ potential c)%nat.
Proof.
  unfold terminated_with. set (d := set_fe_state _ _ _). destruct (return_gpus_frame fe_id (fail_allocations_for_fe fe_id reason d)) as (_ & _ & R3 & R4 & _).
  rewrite (potential_same _ _ R4 R3). exact (fail_allocations_potential fe_id reason d).
Qed.
Lemma try_schedule_potential c : (potential (try_schedule c) ≤ potential c)%nat.
Proof.
  apply fold_potential. intros d fe_id. unfold schedule_on. destruct (ac_containers d !! fe_id) as [f|]; [|done]. destruct (mf_state f); try done. destruct (ac_waiting_queue d !! fe_id) as [q|]; [|done].
  cbv zeta. etransitivity; [apply fold_potential|done]. intros c1 id. unfold run_candidate. destruct (ac_allocations c1 !! id) as [a|] eqn:Ha; [|done].
  destruct (ma_state a) eqn:Est; try done.
  all: assert (Hw : alloc_weight a = 3%nat) by (unfold alloc_weight; by rewrite Est).
  all: destruct (ac_prepared_data c1 !! id) as [[p ctx]|];
    (eapply (potential_state_le c1 _ id a _ [_] Ha); [exact (set_state_insert _ id a _ Ha)|reflexivity|rewrite Hw; cbn; lia]).
Qed.

Lemma handle_startup_potential fe_id res c : (potential (handle_container_startup_complete room fe_id res c) ≤ potential c + 1)%nat.
Proof.
  unfold handle_container_startup_complete. cbv zeta.
  destruct (mf_state <$> ac_containers c !! fe_id) as [[|h|r]|]; try (rewrite (potential_same c); [lia|by destruct res..]). destruct res as [handle|e].
  - match goal with |- context [try_schedule ?x] => pose proof (try_schedule_potential x) as H; change (potential (broadcast_state (try_schedule x))) with (potential (try_schedule x));
      assert (potential x = potential c + 1)%nat end; [|lia].
    unfold potential. change (ac_tasks _) with (ac_tasks c ++ [TK_Health fe_id]) at 1. rewrite sum_list_with_app. cbn [sum_list_with task_weight]. change (ac_allocations _) with (ac_allocations c) at 1. lia.
  - pose proof (terminated_with_potential fe_id (startup_reason e) (termination_to_failure_reason (startup_reason e)) c) as H. unfold terminated_with in H.
    etransitivity; [|etransitivity; [exact H|lia]]. by apply Nat.eq_le_incl, potential_same.
Qed.
Lemma handle_terminated_potential fe_id reason c : (potential (handle_container_terminated room fe_id reason c) ≤ potential c)%nat.
Proof.
  unfold handle_container_terminated. destruct (ac_containers c !! fe_id) as [f|]; [|done]. cbv zeta.
  assert (∀ d g, (∀ x, ac_allocations (g x) = ac_allocations x ∧ ac_tasks (g x) = ac_tasks x) →
    potential (broadcast_state (send_container_terminated room fe_id reason (perform (EF_Forget fe_id) (return_gpus fe_id
      (g (fail_allocations_for_fe fe_id (termination_to_failure_reason reason) (set_fe_state fe_id (FS_Terminated reason) d))))))) ≤ potential d)%nat as H.
  { intros d g Hg. set (d2 := fail_allocations_for_fe _ _ _). destruct (Hg d2) as [G1 G2], (return_gpus_frame fe_id (g d2)) as (_ & _ & R3 & R4 & _).
    assert (potential (return_gpus fe_id (g d2)) = potential d2) as E by (apply potential_same; congruence). etransitivity; [|apply (fail_allocations_potential fe_id (termination_to_failure_reason reason) (set_fe_state fe_id (FS_Terminated reason) d))].
    fold d2. rewrite <-E. by apply Nat.eq_le_incl, potential_same. }
  destruct (mf_state f) as [|h|r]; [by apply (H c id)| |done]. by apply (H (perform (EF_CancelHealth fe_id) c) (perform (EF_Kill h))).
Qed.
Lemma handle_prepared_potential id res c : (potential (handle_allocation_prepared id res c) ≤ potential c)%nat.
Proof.
  unfold handle_allocation_prepared. destruct (ac_allocations c !! id) as [a|] eqn:Ha; [|done]. destruct (ma_state a) eqn:Est; try done.
  assert (Hw : alloc_weight a = 3%nat) by (unfold alloc_weight; by rewrite Est).
  assert (∀ r ctx t, potential (start_finalization id r ctx t c) ≤ potential c)%nat as Hfin by (intros r ctx t; pose proof (finalization_potential id r ctx t c a Ha); lia).
  destruct res as [prepared|]; [|apply Hfin]. cbv zeta. destruct (mf_state <$> ac_containers c !! ma_fe_id a) as [[|h|r]|]; try apply Hfin.
  - apply (potential_state_le c _ id a AS_WaitingForContainer [] Ha); [exact (set_state_insert c id a _ Ha)|by rewrite app_nil_r|rewrite Hw; cbn; lia].
  - etransitivity; [apply try_schedule_potential|]. apply (potential_state_le c _ id a AS_WaitingForSlot [] Ha); [exact (set_state_insert c id a _ Ha)|by rewrite app_nil_r|rewrite Hw; cbn; lia].
Qed.
Lemma handle_executed_potential id o c : (potential (handle_allocation_execution_finished id o c) ≤ potential c)%nat.
Proof.
  unfold handle_allocation_execution_finished. destruct (ac_allocations c !! id) as [a|] eqn:Ha; [|done]. destruct (ma_state a) as [| | |ctx| |] eqn:Est; try done. cbv zeta.
  set (c1 := c <| ac_running_count ::= alter (λ n, Z.max 0 (n - 1)) (ma_fe_id a) |>). destruct (settle_outcome c1 a ctx o) as [[r ctx'] crash].
  etransitivity; [apply try_schedule_potential|]. assert (Hw : alloc_weight a = 2%nat) by (unfold alloc_weight; by rewrite Est).
  pose proof (finalization_potential id r ctx' None c1 a Ha) as H. change (potential c1) with (potential c) in H. destruct crash as [reason|]; [|lia].
  unfold potential at 1. cbn [spawn ac_tasks set_field ac_allocations]. rewrite sum_list_with_app. cbn [sum_list_with task_weight]. unfold potential in H at 1. lia.
Qed.
Lemma handle_finalized_potential id ok c : (potential (handle_allocation_finalization_finished id ok c) ≤ potential c)%nat.
Proof.
  unfold handle_allocation_finalization_finished. destruct (ac_allocations c !! id) as [a|] eqn:Ha; [|done]. destruct (ma_state a) as [| | | |r t|] eqn:Est; try done. cbv zeta.
  apply (potential_state_le c _ id a AS_Done [] Ha); [exact (set_state_insert c id a _ Ha)|by rewrite app_nil_r|cbn; lia].
Qed.
Lemma ev_step_potential c c' : ev_step c c' → (potential c' < potential c)%nat.
Proof.
  assert (∀ d l1 t l2, ac_tasks d = l1 ++ t :: l2 → potential d = potential (d <| ac_tasks := l1 ++ l2 |>) + task_weight t)%nat as Hp.
  { intros d l1 t l2 E. unfold potential. rewrite E. cbn [ac_tasks set_field ac_allocations]. rewrite !sum_list_with_app. cbn. lia. }
  intros [d l1 l2 t ev Et He|d l1 l2 fe_id Et]; rewrite (Hp _ _ _ _ Et); [|cbn; lia]. generalize (d <| ac_tasks := l1 ++ l2 |>). intros e.
  destruct t, ev; try done; cbn [handle_event task_weight].
  - pose proof (handle_startup_potential fe_id0 res e). lia.
  - pose proof (handle_terminated_potential fe_id0 reason e). lia.
  - pose proof (handle_terminated_potential fe_id0 reason0 e). lia.
  - pose proof (handle_prepared_potential allocation_id0 res e). lia.
  - pose proof (handle_executed_potential allocation_id0 res e). lia.
  - pose proof (handle_finalized_potential allocation_id0 is_success e). lia.
Qed.
Lemma ev_steps_bounded n : ∀ c c', nsteps ev_step n c c' → (n + potential c' ≤ potential c)%nat.
Proof. induction n as [|n IH]; intros c c' H; inversion H; subst; [lia|]. pose proof (ev_step_potential _ _ H1). pose proof (IH _ _ H2). lia. Qed.
(** Every task can end, so the events run out only when the tasks have. *)
Lemma ev_step_enabled c : ac_tasks c = [] ∨ ∃ c', ev_step c c'.
Proof.
  destruct (ac_tasks c) as [|t l] eqn:Et; [by left|right]. assert (∃ ev, ends_with c t ev) as [ev He].
  { destruct t as [x|x|x r|x|x|x].
    - by exists (EV_ContainerStartupComplete x (Err SE_Other)).
    - by exists (EV_ContainerTerminated x TR_Unknown).
    - by exists (EV_ContainerTerminated x r).
    - by exists (EV_AllocationPrepared x None).
    - by exists (EV_AllocationExecutionFinished x (RU_Cancelled [])).
    - by exists (EV_AllocationFinalizationFinished x true). }
  eexists. by apply (es_event c [] l t ev).
Qed.
Lemma ev_steps_quiesce n : ∀ c, (potential c ≤ n)%nat → ∃ c', rtc ev_step c c' ∧ ac_tasks c' = [].
Proof.
  induction n as [|n IH]; intros c Hn; destruct (ev_step_enabled c) as [E|[c1 H1]]; try (exists c; split; [done|done]); pose proof (ev_step_potential _ _ H1); [lia|].
  destruct (IH c1 ltac:(lia)) as (c' & H2 & H3). exists c'. split; [by eapply rtc_l|done].
Qed.
Lemma reach_events gpus h c c' : reach gpus true h c → rtc ev_step c c' → reach gpus true h c'.
Proof.
  intros Hr Hs. induction Hs as [|c c1 c' H1 _ IH]; [done|]. apply IH. rewrite <-(app_nil_r h). eapply reach_step; [exact Hr|by apply as_event|]. intros _ id Hid. by apply not_elem_of_nil in Hid.
Qed.

(** *** Shutdown *)

Definition closed (a : ManagedAllocation) : Prop := match ma_state a with AS_Finalizing r _ => result_for (ma_allocation a) r | AS_Done => True | _ => False end.
Lemma fold_same_progress {A} (step : Controller → A → Controller) l : (∀ c x, ac_outcomes (step c x) = ac_outcomes c ∧ ac_allocations (step c x) = ac_allocations c) →
  ∀ c, ac_outcomes (foldl step c l) = ac_outcomes c ∧ ac_allocations (foldl step c l) = ac_allocations c.
Proof. intros H. induction l as [|x l IH]; intros c; [done|]. cbn. destruct (IH (step c x)) as [H1 H2], (H c x) as [H3 H4]. split; congruence. Qed.
Lemma fail_for_shutdown_spec c id : answered c →
  progress c (fail_for_shutdown c id) ∧ answered (fail_for_shutdown c id) ∧ (∀ k, k ≠ id → ac_allocations (fail_for_shutdown c id) !! k = ac_allocations c !! k) ∧
  ∀ a, ac_allocations (fail_for_shutdown c id) !! id = Some a → closed a.
Proof.
  intros Hans. unfold fail_for_shutdown. destruct (ac_allocations c !! id) as [a|] eqn:Ha; [|split_and!; [by apply progress_same|done|done|congruence]].
  destruct (match ma_state a with AS_Finalizing _ _ | AS_Done => true | _ => false end) eqn:Hc.
  { assert (closed a) as Hcl by (unfold closed; destruct (ma_state a) eqn:E; try done; by eapply Hans).
    destruct (ma_state a); try done; (split_and!; [by apply progress_same|done|done|]; intros b Hb; by replace b with a by congruence). }
  assert (∃ x, ma_state a = x ∧ match x with AS_Finalizing _ _ | AS_Done => False | _ => True end) as (st & Est & Hst) by (eexists; split; [reflexivity|]; by destruct (ma_state a)).
  assert (Hd : is_done a = false) by (unfold is_done; rewrite Est; by destruct st).
  match goal with |- progress c ?x ∧ _ => assert (ac_outcomes x = ac_outcomes c ∧ ac_allocations x = <[id := a <| ma_state := AS_Finalizing (make_failure_result (ma_allocation a) AFR_AllocationCancelled) None |>]> (ac_allocations c)) as [Eo Eal] end.
  { assert (∀ d b x, ac_outcomes d = ac_outcomes c → ac_allocations d = <[id := b]> (ac_allocations c) → ma_allocation b = ma_allocation a → ma_fe_id b = ma_fe_id a →
      let y := start_finalization id (make_failure_result (ma_allocation a) AFR_AllocationCancelled) x None d in
      ac_outcomes y = ac_outcomes c ∧ ac_allocations y = <[id := a <| ma_state := AS_Finalizing (make_failure_result (ma_allocation a) AFR_AllocationCancelled) None |>]> (ac_allocations c)) as H.
    { intros d b x Eo Eal E1 E2. assert (ac_allocations d !! id = Some b) as Hb by (by rewrite Eal, lookup_insert_eq). cbv zeta. rewrite (start_finalization_allocations id _ x None d b Hb), Eal, insert_insert_eq. split.
      - unfold start_finalization. by rewrite Hb.
      - f_equal. destruct a, b. cbn in *. by subst. }
    rewrite Est. destruct (ac_prepared_data c !! id) as [[p ctx]|]; destruct st; try done; cbv zeta.
    1-4: by apply (H _ a); [done|symmetry; by apply insert_id|done|done].
    all: eapply (H _ (a <| ma_state := AS_Done |>)); [done|exact (set_state_insert c id a _ Ha)|done|done]. }
  split_and!.
  - by apply (progress_state c _ id a (AS_Finalizing (make_failure_result (ma_allocation a) AFR_AllocationCancelled) None)).
  - intros k b r t. rewrite Eal. intros Hk. apply lookup_insert_Some in Hk as [[<- <-]|[_ Hk]]; [cbn; by intros [= <- _]|by eapply Hans].
  - intros k Hk. by rewrite Eal, lookup_insert_ne.
  - intros b. rewrite Eal, lookup_insert_eq. by intros [= <-].
Qed.
Lemma fail_all_for_shutdown ids : ∀ c, answered c → (∀ k a, ac_allocations c !! k = Some a → k ∈ ids ∨ closed a) →
  let c' := foldl fail_for_shutdown c ids in progress c c' ∧ answered c' ∧ ∀ k a, ac_allocations c' !! k = Some a → closed a.
Proof.
  induction ids as [|id ids IH]; intros c Ha Hc; cbv zeta; [split_and!; [by apply progress_same|done|]; intros k a Hk; destruct (Hc k a Hk) as [H|]; [by apply not_elem_of_nil in H|done]|].
  cbn. destruct (fail_for_shutdown_spec c id Ha) as (H1 & H2 & H3 & H4). destruct (IH (fail_for_shutdown c id) H2) as (I1 & I2 & I3).
  - intros k a Hk. destruct (decide (k = id)) as [->|Hne]; [right; by apply H4|]. rewrite H3 in Hk by done. destruct (Hc k a Hk) as [H|H]; [left; set_solver|by right].
  - split_and!; [by eapply progress_trans|done|done].
Qed.
Lemma drain_spec events : ∀ c, filed c → (∀ k a, ac_allocations c !! k = Some a → closed a) →
  let c' := foldl drain_event c events in progress c c' ∧ filed c' ∧ ∀ k a, ac_allocations c' !! k = Some a → closed a.
Proof.
  induction events as [|ev events IH]; intros c Hf Hc; cbv zeta; [split_and!; [by apply progress_same|done|done]|]. cbn.
  assert (progress c (drain_event c ev) ∧ ∀ k a, ac_allocations (drain_event c ev) !! k = Some a → closed a) as [H1 H2].
  { unfold drain_event. destruct ev as [| | | |id ok]; try (split; [by apply progress_same|done]). split.
    - apply handle_finalized_progress; [done|]. intros k a r t Hk Est. pose proof (Hc k a Hk) as H. unfold closed in H. by rewrite Est in H.
    - intros k a. unfold handle_allocation_finalization_finished. destruct (ac_allocations c !! id) as [b|] eqn:Hb; [|apply Hc]. destruct (ma_state b) eqn:Est; try apply Hc. cbv zeta.
      intros Hk. change (ac_allocations (set_state id AS_Done c) !! k = Some a) in Hk. rewrite (set_state_insert c id b _ Hb) in Hk. apply lookup_insert_Some in Hk as [[_ <-]|[_ Hk]]; [done|by apply (Hc k)]. }
  destruct (IH (drain_event c ev)) as (I1 & I2 & I3); [by eapply progress_filed|done|]. split_and!; [by eapply progress_trans|done|done].
Qed.
Lemma send_remaining_reported l : ∀ c, (∀ k a, (k, a) ∈ l → default "" (apb_allocation_id (ma_allocation a)) = k ∧ closed a) →
  reported (foldl send_remaining c l) = reported c ++ (filter (λ ka, is_done ka.2 = false) l).*1.
Proof.
  induction l as [|[k a] l IH]; intros c Hl; [by rewrite app_nil_r|]. cbn [foldl]. rewrite IH by (intros k' a' H; apply Hl; set_solver). destruct (Hl k a ltac:(set_solver)) as [H1 H2].
  rewrite filter_cons. unfold send_remaining, closed, is_done in *. cbn [snd fst]. destruct (ma_state a) as [| | | |r t|]; try done. rewrite decide_True by done.
  unfold reported. change (ac_outcomes (send_outcome ?o ?d)) with (ac_outcomes d ++ [o]). rewrite fmap_app, <-app_assoc. cbn. f_equal. rewrite result_outcome_id. by destruct H2 as [-> _]; rewrite H1.
Qed.
Lemma shutdown_accounted events h c : accounted h c → filed c → answered c → NoDup (reported (shutdown_all events c)) ∧ ∀ id, id ∈ reported (shutdown_all events c) ↔ id ∈ h.
Proof.
  intros A Hf Ha. unfold shutdown_all. cbv zeta.
  destruct (fold_same_progress cancel_health (map_iter (ac_containers c)) (λ c x, ltac:(unfold cancel_health; by destruct (mf_state x.2))) c) as [C1 C2]. set (c1 := foldl cancel_health _ _) in *.
  destruct (fold_same_progress cancel_token (map_iter (ac_allocations c1)) (λ c x, ltac:(unfold cancel_token; by destruct (ma_state x.2))) c1) as [D1 D2]. set (c2 := foldl cancel_token _ _) in *.
  assert (P2 : progress c c2) by (apply progress_same; congruence). assert (answered c2) as Ha2 by (unfold answered; rewrite D2, C2; exact Ha).
  destruct (fail_all_for_shutdown (map_iter (ac_allocations c2)).*1 c2 Ha2) as (P3 & _ & Hc3); [|cbv zeta in *].
  { intros k a Hk. left. apply list_elem_of_fmap. exists (k, a). split; [done|]. by apply elem_of_map_iter. }
  set (c3 := foldl fail_for_shutdown _ _) in *.
  destruct (fold_same_progress (λ c fe_id, return_gpus fe_id c) (map_iter (ac_containers c3)).*1 (λ c x, conj (proj2 (proj2 (proj2 (proj2 (return_gpus_frame x c))))) (proj1 (proj2 (proj2 (return_gpus_frame x c))))) c3) as [E1 E2].
  set (c4 := foldl (λ c fe_id, return_gpus fe_id c) _ _) in *. assert (P4 : progress c c4) by (eapply progress_trans; [exact P2|]; eapply progress_trans; [exact P3|by apply progress_same]).
  destruct (drain_spec events c4) as (P5 & Hf5 & Hc5); [by eapply progress_filed|intros k a; rewrite E2; apply Hc3|]. cbv zeta in *. set (c5 := foldl drain_event _ _) in *.
  assert (accounted h c5) as [A1 A2 A3 A4] by (eapply progress_accounted; [exact P5|]; by eapply progress_accounted).
  rewrite send_remaining_reported by (intros k a Hk; apply elem_of_map_iter in Hk; split; [by apply Hf5|by eapply Hc5]). change (reported (c5 <| ac_allocations := ∅ |>)) with (reported c5).
  assert (Hrest : ∀ id, id ∈ (filter (λ ka, is_done ka.2 = false) (map_iter (ac_allocations c5))).*1 ↔ ∃ a, ac_allocations c5 !! id = Some a ∧ is_done a = false).
  { intros id. rewrite list_elem_of_fmap. split.
    - intros ([k a] & -> & Hk). apply list_elem_of_filter in Hk as [H1 H2]. apply elem_of_map_iter in H2. eauto.
    - intros (a & H1 & H2). exists (id, a). split; [done|]. apply list_elem_of_filter. split; [done|]. by apply elem_of_map_iter. }
  split.
  - apply NoDup_app. split; [done|]. split.
    2:{ apply NoDup_fmap_fst; [|apply NoDup_filter; rewrite map_iter_perm; apply NoDup_map_to_list]. intros k a1 a2 H1 H2.
        apply list_elem_of_filter in H1 as [_ H1]. apply list_elem_of_filter in H2 as [_ H2]. apply elem_of_map_iter in H1, H2. congruence. }
    intros id H1 H2. apply Hrest in H2 as (a & H2 & H3). destruct (A2 id H1) as [_ H4]. rewrite (H4 a H2) in H3. done.
  - intros id. rewrite elem_of_app, Hrest. split; [intros [H|(a & H & _)]; [by apply A2|apply A4; eauto]|apply A3].
Qed.

(** *** What holds of every run *)

(** C16: Every state the allocation controller reaches keeps its books: a container runs no
    more allocations than its concurrency and its counter is exact; the queue of a
    container holds exactly the allocations that wait for it, once each, and such a
    container is alive; no slot of a running container is free while an allocation waits
    for it; every GPU is either free or held by one container that is not terminated. *)
Theorem controller_keeps_books gpus once h c : reach gpus once h c →
  (∀ fe_id f, ac_containers c !! fe_id = Some f →
     default 0 (ac_running_count c !! fe_id) = Z.of_nat (running_on c fe_id) ∧ Z.of_nat (running_on c fe_id) ≤ mf_max_concurrency f) ∧
  (∀ fe_id, NoDup (queue_of c fe_id) ∧
     ∀ id, id ∈ queue_of c fe_id ↔ ∃ a, ac_allocations c !! id = Some a ∧ ma_fe_id a = fe_id ∧ is_waiting a = true) ∧
  (∀ id a, ac_allocations c !! id = Some a → is_waiting a = true → alive_fe c (ma_fe_id a) = true) ∧
  busy c ∧
  (gi_uuid <$> ga_free_gpus (ac_gpus c)) ++ held_gpus c ≡ₚ gi_uuid <$> ga_all_gpus (ac_gpus c) ∧
  (∀ fe_id f r, ac_containers c !! fe_id = Some f → mf_state f = FS_Terminated r → mf_allocated_gpu_uuids f = []).
Proof.
  intros Hr. destruct (reach_sound gpus once h c Hr) as [[K HR] Hb].
  assert (∀ id a, ac_allocations c !! id = Some a → is_waiting a = true → id ∈ queue_of c (ma_fe_id a) ∧ alive_fe c (ma_fe_id a) = true) as Hw.
  { intros id a Ha Hw. destruct (k_alloc _ _ _ K id a Ha) as [_ Ho]. unfold is_waiting in Hw. destruct (ma_state a); try done; apply (proj2 Ho), not_elem_of_nil. }
  split_and!; [..|done|exact (k_gpus _ _ _ K)|exact HR].
  - intros fe_id f Hf. by destruct (k_fe _ _ _ K fe_id f Hf) as (_ & F2 & F3 & _).
  - intros fe_id. destruct (k_queue _ _ _ K fe_id) as [H1 H2]. split; [done|]. intros id. split; [intros Hid; by apply H2|]. intros (a & Ha & <- & Hwt). by apply Hw.
  - intros id a Ha Hwt. exact (proj2 (Hw id a Ha Hwt)).
Qed.
(** C15: The allocation controller answers every allocation exactly once.  As long as the
    server does not send an allocation again that the controller has forgotten: no
    allocation is reported twice and only allocations that were sent are reported; without
    further commands the controller handles a bounded number of events, some sequence of
    them leaves no task, and when only the health of containers is left to wait for, every
    allocation the server sent has been reported. *)
Theorem every_allocation_reported_once gpus h c : reach gpus true h c →
  NoDup (reported c) ∧ (∀ id, id ∈ reported c → id ∈ h) ∧
  (∀ n c', nsteps ev_step n c c' → (n ≤ potential c)%nat) ∧ (∃ c', rtc ev_step c c' ∧ ac_tasks c' = []) ∧
  (∀ c', rtc ev_step c c' → quiescent c' → NoDup (reported c') ∧ ∀ id, id ∈ h ↔ id ∈ reported c').
Proof.
  intros Hr. destruct (reach_accounted gpus h c Hr) as [A1 A2 _ _]. split_and!; [done|intros id Hid; by apply A2| | |].
  - intros n c' Hn. pose proof (ev_steps_bounded n c c' Hn). lia.
  - by apply (ev_steps_quiesce (potential c)).
  - intros c' Hs Hq. pose proof (reach_events gpus h c c' Hr Hs) as Hr'. destruct (reach_sound gpus true h c' Hr') as [S Hb]. destruct (reach_accounted gpus h c' Hr') as [B1 B2 B3 _].
    split; [done|]. intros id. split; [|intros Hid; by apply B2]. intros Hid. destruct (B3 id Hid) as [H|(a & Ha & Hd)]; [done|]. rewrite (quiescent_done c' S Hb Hq id a Ha) in Hd. done.
Qed.
(** C17: A shutdown loses no allocation, at whatever point it comes.  As long as the
    server has not sent an allocation again that the controller had reported and forgotten
    (such an allocation would run and be reported again, [forgotten_allocation_runs_again]):
    whatever events arrive before the deadline, afterwards every allocation that was sent,
    and no other, has been reported, once. *)
Theorem shutdown_reports_every_allocation gpus h c events : reach gpus true h c →
  NoDup (reported (shutdown_all events c)) ∧ ∀ id, id ∈ reported (shutdown_all events c) ↔ id ∈ h.
Proof.
  intros Hr. destruct (reach_sound gpus true h c Hr) as [[K _] _]. apply shutdown_accounted; [by eapply reach_accounted|by eapply inv_filed|by eapply inv_answered].
Qed.

(** *** An example *)

(** The [n]-th task ends with [ev]. *)
Definition after_event (n : nat) (ev : ACEvent) (c : Controller) : Controller := handle_event room ev (c <| ac_tasks := take n (ac_tasks c) ++ drop (S n) (ac_tasks c) |>).
Lemma after_event_step c n t ev : ac_tasks c !! n = Some t → ends_with c t ev → ev_step c (after_event n ev c).
Proof. intros Hn He. apply (es_event c _ _ t ev); [|done]. symmetry. by apply take_drop_middle. Qed.
Lemma reach_after_event gpus once h c n t ev : reach gpus once h c → ac_tasks c !! n = Some t → ends_with c t ev → reach gpus once h (after_event n ev c).
Proof.
  intros Hr Hn He. rewrite <-(app_nil_r h). eapply reach_step; [exact Hr|apply as_event; by eapply after_event_step|]. intros _ id Hid. by apply not_elem_of_nil in Hid.
Qed.
End steps.

Section example.
Definition room_ex (n : nat) : bool := true.
Definition ref_ex : FunctionRef := MkFunctionRef (Some "ns") (Some "app") (Some "f") (Some "v").
Definition description_ex : ContainerDescription :=
  MkContainerDescription (Some "c1") (Some ref_ex) [] (Some 1000) None (Some (MkContainerResourcesPb (Some 1000) (Some 1) (Some 1) (Some (MkGpuResourcesPb (Some 1) None)))) (Some 1) (Some 1000) None None None.
Definition sent_ex (id : string) : AllocationPb := MkAllocationPb (Some ref_ex) (Some id) (Some id) (Some "r1") [] None None (Some "c1") None None None.
Definition handle_ex : ProcessHandle := MkProcessHandle "h1" None None "".
Definition success_ex (id : string) : RunnerOutcome :=
  RU_Completed (MkAllocationResult (Some ref_ex) (Some id) (Some id) (Some "r1") (Some OUTCOME_SUCCESS) None None None None) None [].
Definition gpus_ex : list GpuInfo := [MkGpuInfo "g1" "gpu"; MkGpuInfo "g2" "gpu"].
Definition send_ex (id : string) (c : Controller) : Controller := @reconcile_command canonical_order room_ex [] [] [("c1", sent_ex id, 1)] c.
Definition end_ex (n : nat) (ev : ACEvent) (c : Controller) : Controller := @after_event canonical_order room_ex n ev c.
(** The container starts; an allocation runs to its end. *)
Definition started_ex : Controller :=
  end_ex 0 (EV_ContainerStartupComplete "c1" (Ok handle_ex)) (@reconcile_command canonical_order room_ex [description_ex] [] [] (@recover_containers canonical_order room_ex (λ _, None) (λ _, false) [] (new_controller gpus_ex)).1).
Definition run_ex (id : string) (c : Controller) : Controller :=
  let c := send_ex id c in
  let c := end_ex (length (ac_tasks c) - 1) (EV_AllocationPrepared id (Some (MkPreparedAllocation "" None))) c in
  let c := end_ex (length (ac_tasks c) - 1) (EV_AllocationExecutionFinished id (success_ex id)) c in
  end_ex (length (ac_tasks c) - 1) (EV_AllocationFinalizationFinished id true) c.
Lemma reach_started once : @reach canonical_order room_ex gpus_ex once [] started_ex.
Proof.
  unfold started_ex, end_ex. eapply (@reach_after_event canonical_order room_ex gpus_ex once [] _ 0); [|vm_compute; reflexivity|reflexivity].
  eapply (@reach_step canonical_order room_ex gpus_ex once [] []); [apply reach_new; intros e d He; by apply not_elem_of_nil in He| |intros _ id Hid; by apply not_elem_of_nil in Hid].
  apply (@as_reconcile canonical_order room_ex [description_ex] [] []). intros d id Hd Hid. apply list_elem_of_singleton in Hd as ->. split; [vm_compute; congruence|]. intros _. vm_compute. reflexivity.
Qed.
Lemma reach_send once h c id : @reach canonical_order room_ex gpus_ex once h c → (once = true → id ∈ h → is_Some (ac_allocations c !! id)) →
  @reach canonical_order room_ex gpus_ex once (h ++ [id]) (send_ex id c).
Proof.
  intros Hr Hid. eapply (@reach_step canonical_order room_ex gpus_ex once h (allocation_ids [("c1", sent_ex id, 1)])); [exact Hr|apply as_reconcile; intros d k Hd; by apply not_elem_of_nil in Hd|].
  intros Ho k Hk. apply list_elem_of_singleton in Hk as ->. by apply Hid.
Qed.
Definition last_task (c : Controller) : option Task := ac_tasks c !! (length (ac_tasks c) - 1)%nat.
Lemma reach_run once h c id :
  let c1 := send_ex id c in
  let c2 := end_ex (length (ac_tasks c1) - 1) (EV_AllocationPrepared id (Some (MkPreparedAllocation "" None))) c1 in
  let c3 := end_ex (length (ac_tasks c2) - 1) (EV_AllocationExecutionFinished id (success_ex id)) c2 in
  @reach canonical_order room_ex gpus_ex once h c → (once = true → id ∈ h → is_Some (ac_allocations c !! id)) →
  last_task c1 = Some (TK_Prepare id) → last_task c2 = Some (TK_Execute id) → last_task c3 = Some (TK_Finalize id) →
  ma_allocation <$> ac_allocations c2 !! id = Some (sent_ex id) →
  @reach canonical_order room_ex gpus_ex once (h ++ [id]) (run_ex id c).
Proof.
  intros c1 c2 c3 Hr Hid T1 T2 T3 Ha. eapply reach_after_event; [|exact T3|done]. eapply reach_after_event; [|exact T2|].
  - eapply reach_after_event; [|exact T1|done]. by apply reach_send.
  - split; [reflexivity|]. change (∀ a, ac_allocations c2 !! id = Some a → result_for (ma_allocation a) (MkAllocationResult (Some ref_ex) (Some id) (Some id) (Some "r1") (Some OUTCOME_SUCCESS) None None None None)).
    intros a Ha'. rewrite Ha' in Ha. injection Ha as ->. done.
Qed.
(** An allocation that ran is forgotten when another arrives; sent again it runs again, and
    is reported twice. *)
Lemma forgotten_allocation_runs_again : ∃ h c, @reach canonical_order room_ex gpus_ex false h c ∧ reported c = ["a1"; "a1"].
Proof.
  exists ([] ++ ["a1"] ++ ["a2"] ++ ["a1"]), (run_ex "a1" (send_ex "a2" (run_ex "a1" started_ex))). split; [|vm_compute; reflexivity]. rewrite !app_assoc.
  apply reach_run; [|discriminate|vm_compute; reflexivity..]. apply reach_send; [|discriminate]. apply reach_run; [apply reach_started|discriminate|vm_compute; reflexivity..].
Qed.
Lemma controller_keeps_books_witness :
  busy (send_ex "a1" (send_ex "a2" started_ex)) ∧
  (gi_uuid <$> ga_free_gpus (ac_gpus (send_ex "a1" (send_ex "a2" started_ex)))) ++ held_gpus (send_ex "a1" (send_ex "a2" started_ex)) ≡ₚ ["g1"; "g2"].
Proof.
  destruct (@controller_keeps_books canonical_order room_ex gpus_ex false (([] ++ ["a2"]) ++ ["a1"]) (send_ex "a1" (send_ex "a2" started_ex))) as (_ & _ & _ & H4 & H5 & _); [|split; [exact H4|exact H5]].
  apply reach_send; [|discriminate]. apply reach_send; [apply reach_started|discriminate].
Defined.
Lemma every_allocation_reported_once_witness :
  NoDup (reported (run_ex "a1" started_ex)) ∧ reported (run_ex "a1" started_ex) = ["a1"] ∧
  ∀ c', rtc (@ev_step canonical_order room_ex) (run_ex "a1" started_ex) c' → quiescent c' → "a1" ∈ reported c'.
Proof.
  destruct (@every_allocation_reported_once canonical_order room_ex gpus_ex ([] ++ ["a1"]) (run_ex "a1" started_ex)) as (H1 & _ & _ & _ & H5).
  - apply reach_run; [apply reach_started|intros _ H; by apply not_elem_of_nil in H|vm_compute; reflexivity..].
  - split; [exact H1|]. split; [vm_compute; reflexivity|]. intros c' Hs Hq. apply (H5 c' Hs Hq). apply list_elem_of_here.
Defined.
Lemma shutdown_reports_every_allocation_witness : reported (@shutdown_all canonical_order [] (send_ex "a1" started_ex)) = ["a1"] ∧
  ("a1" ∈ reported (@shutdown_all canonical_order [] (send_ex "a1" started_ex)) ↔ "a1" ∈ [] ++ ["a1"]).
Proof.
  split; [vm_compute; reflexivity|]. apply (@shutdown_reports_every_allocation canonical_order room_ex gpus_ex ([] ++ ["a1"]) (send_ex "a1" started_ex) []).
  apply reach_send; [apply reach_started|]. intros _ H. by apply not_elem_of_nil in H.
Defined.
End example.
