(* ===== verification/CommandHandling.v ===== *)
(** * Commands at the dataplane

    [dataplane/src/service.rs] ([handle_command], [record_malformed_command]),
    [validation.rs] and [state_reconciler.rs], with the recovery of containers at startup
    in [function_container_manager.rs] and [state_file.rs]: how a command of the server
    is checked and reaches the allocation controller or the manager of sandbox
    containers.  The manager itself is not modelled: what it is told is in
    [sr_manager]. *)
From S2P Require Import Prelude DataModel Resources Updates InMemoryState SchedulerState Placement ContainerScheduler FunctionRuns ProtoConvert CommandEmission ResultRouting ExecutorApi AllocationController.
From stdpp Require Import pretty.
Open Scope string_scope.
Open Scope list_scope.
Open Scope Z_scope.
Open Scope result_scope.

(** ** Messages *)

Inductive Cmd :=
| CM_AddContainer (container : option ContainerDescription)
| CM_RemoveContainer (container_id : string) (reason : option Z)
| CM_RunAllocation (allocation : option AllocationPb)
| CM_KillAllocation (allocation_id : string)
| CM_UpdateContainerDescription (container_id : string) (sandbox_metadata : option SandboxMetadataPb)
| CM_SnapshotContainer (container_id snapshot_id upload_uri : string).
Record CommandMessage := MkCommandMessage { cm_seq : Z; cm_command : option Cmd }.
(** The message of a command the server emits. *)
Definition command_message (seq : Z) (b : CommandBody) : CommandMessage :=
  MkCommandMessage seq (Some match b with
    | CB_AddContainer d => CM_AddContainer (Some d)
    | CB_RemoveContainer id reason => CM_RemoveContainer id reason
    | CB_RunAllocation a => CM_RunAllocation (Some a)
    | CB_KillAllocation id => CM_KillAllocation id
    | CB_UpdateContainerDescription id md => CM_UpdateContainerDescription id md
    | CB_SnapshotContainer cid sid uri => CM_SnapshotContainer cid sid uri
    end).

(** ** Validation *)

Definition require {A} (x : option A) (e : string) : result string unit := match x with Some _ => Ok tt | None => Err e end.
Definition validate_function_ref (f : FunctionRef) : result string unit :=
  _ ?<- require (ref_namespace f) "function: missing namespace";;
  _ ?<- require (ref_application_name f) "function: missing application_name";;
  require (ref_function_name f) "function: missing function_name".
Definition validate_data_payload (dp : DataPayloadPb) : result string unit :=
  _ ?<- require (dpb_uri dp) "data_payload: missing uri";;
  _ ?<- require (dpb_encoding dp) "data_payload: missing encoding";;
  _ ?<- require (dpb_encoding_version dp) "data_payload: missing encoding_version";;
  _ ?<- require (dpb_size dp) "data_payload: missing size";;
  require (dpb_sha256_hash dp) "data_payload: missing sha256_hash".
Definition is_sandbox_type (t : option Z) : bool :=
  match t with Some n => match enum_try_from container_types n with Some CTy_Sandbox => true | _ => false end | None => false end.
Definition validate_fe_description (d : ContainerDescription) : result string unit :=
  _ ?<- require (cd_id d) "missing id";;
  if is_sandbox_type (cd_container_type d) then Ok tt else
  f ?<- ok_or (cd_function d) "missing function";;
  _ ?<- validate_function_ref f;;
  _ ?<- require (cd_initialization_timeout_ms d) "missing initialization_timeout_ms";;
  app ?<- ok_or (cd_application d) "missing application";;
  _ ?<- validate_data_payload app;;
  _ ?<- require (cd_max_concurrency d) "missing max_concurrency";;
  require (cd_allocation_timeout_ms d) "missing allocation_timeout_ms".
Fixpoint validate_args (i : nat) (args : list DataPayloadPb) : result string unit :=
  match args with
  | [] => Ok tt
  | arg :: args =>
      match validate_data_payload arg with
      | Err e => Err ("args[" +:+ pretty (N.of_nat i) +:+ "]: " +:+ e)
      | Ok _ => validate_args (S i) args
      end
  end.
Definition validate_allocation (a : AllocationPb) : result string unit :=
  f ?<- ok_or (apb_function a) "missing function";;
  _ ?<- validate_function_ref f;;
  _ ?<- require (apb_allocation_id a) "missing allocation_id";;
  _ ?<- require (apb_function_call_id a) "missing function_call_id";;
  _ ?<- require (apb_request_id a) "missing request_id";;
  _ ?<- require (apb_container_id a) "missing container_id";;
  _ ?<- require (apb_request_data_payload_uri_prefix a) "missing request_data_payload_uri_prefix";;
  _ ?<- require (apb_request_error_payload_uri_prefix a) "missing request_error_payload_uri_prefix";;
  validate_args 0 (apb_args a).

(** ** The state reconciler *)

Inductive ContainerOwner := CO_Function | CO_Sandbox.
(** What is sent to the controller, and what the manager of sandboxes is asked for. *)
Inductive ACCommand :=
| AC_Reconcile (added_or_updated_fes : list ContainerDescription) (removed_fe_ids : list string) (new_allocations : list (string * AllocationPb * Z))
| AC_KillAllocation (allocation_id : string)
| AC_Recover
| AC_Shutdown.
Inductive ManagerCall :=
| MC_AddOrUpdate (d : ContainerDescription)
| MC_Remove (id : string)
| MC_UpdateDescription (container_id : string) (sandbox_metadata : option SandboxMetadataPb)
| MC_Snapshot (container_id snapshot_id upload_uri : string).
Record StateReconciler := MkStateReconciler {
  sr_container_owners : gmap string ContainerOwner;
  sr_controller : list ACCommand;
  sr_controller_running : bool;
  sr_manager : list ManagerCall;
}.
#[export] Instance eta_StateReconciler : Eta StateReconciler := λ r,
  MkStateReconciler (sr_container_owners r) (sr_controller r) (sr_controller_running r) (sr_manager r).
Definition container_type_of (d : ContainerDescription) : ContainerTypePb := enum_get container_types CTy_Unknown (cd_container_type d).
(** A send fails when the controller has stopped. *)
Definition send_command (cmd : ACCommand) (r : StateReconciler) : bool * StateReconciler :=
  if sr_controller_running r then (true, r <| sr_controller ::= λ l, l ++ [cmd] |>) else (false, r).
Definition call_manager (m : ManagerCall) (r : StateReconciler) : StateReconciler := r <| sr_manager ::= λ l, l ++ [m] |>.
Definition own (id : option string) (o : ContainerOwner) (r : StateReconciler) : StateReconciler :=
  match id with Some id => r <| sr_container_owners ::= <[id := o]> |> | None => r end.
Definition route_added (acc : StateReconciler * list ContainerDescription) (d : ContainerDescription) : StateReconciler * list ContainerDescription :=
  match container_type_of d with
  | CTy_Function => (own (cd_id d) CO_Function acc.1, acc.2 ++ [d])
  | CTy_Sandbox | CTy_Unknown => (call_manager (MC_AddOrUpdate d) (own (cd_id d) CO_Sandbox acc.1), acc.2)
  end.
Definition route_removed (acc : StateReconciler * list string) (id : string) : StateReconciler * list string :=
  let r := acc.1 <| sr_container_owners ::= delete id |> in
  match sr_container_owners acc.1 !! id with
  | Some CO_Sandbox => (call_manager (MC_Remove id) r, acc.2)
  | Some CO_Function => (r, acc.2 ++ [id])
  | None => (r, acc.2)
  end.
(** [StateReconciler::reconcile_containers]. *)
Definition route_containers (added : list ContainerDescription) (removed : list string) (r : StateReconciler) : bool * StateReconciler :=
  let '(r, function_fes) := foldl route_added (r, []) added in
  let '(r, function_removed) := foldl route_removed (r, []) removed in
  match function_fes, function_removed with
  | [], [] => (true, r)
  | _, _ => send_command (AC_Reconcile function_fes function_removed []) r
  end.
Definition reconcile_allocations (l : list (string * AllocationPb * Z)) (r : StateReconciler) : bool * StateReconciler :=
  match l with [] => (true, r) | _ => send_command (AC_Reconcile [] [] l) r end.
Definition kill_allocation (id : string) (r : StateReconciler) : bool * StateReconciler :=
  if bool_decide (id = "") then (false, r) else send_command (AC_KillAllocation id) r.

Definition shutdown (r : StateReconciler) : StateReconciler := (send_command AC_Shutdown r).2.

(** ** [handle_command] *)

Record CommandService := MkCommandService { csv_reconciler : StateReconciler; csv_malformed : list (Z * string * string) }.
Definition record_malformed_command (seq : Z) (command_type reason : string) (s : CommandService) : CommandService :=
  MkCommandService (csv_reconciler s) (csv_malformed s ++ [(seq, command_type, reason)]).
Definition with_reconciler (f : StateReconciler → bool * StateReconciler) (s : CommandService) : bool * CommandService :=
  let '(ok, r) := f (csv_reconciler s) in (ok, MkCommandService r (csv_malformed s)).
(** Whether the cursor advances. *)
Definition handle_command (m : CommandMessage) (s : CommandService) : bool * CommandService :=
  let seq := cm_seq m in
  let drop command_type reason := (true, record_malformed_command seq command_type reason s) in
  match cm_command m with
  | None => drop "Unknown" "missing_command_payload"
  | Some (CM_AddContainer container) =>
      match container with
      | Some d =>
          match validate_fe_description d with
          | Err _ => drop "AddContainer" "invalid_add_container"
          | Ok _ => with_reconciler (route_containers [d] []) s
          end
      | None => drop "AddContainer" "missing_container_payload"
      end
  | Some (CM_RemoveContainer id _) => with_reconciler (route_containers [] [id]) s
  | Some (CM_RunAllocation allocation) =>
      match allocation with
      | Some a =>
          match validate_allocation a with
          | Err _ => drop "RunAllocation" "invalid_run_allocation"
          | Ok _ =>
              match apb_container_id a with
              | Some fe_id => with_reconciler (reconcile_allocations [(fe_id, a, seq)]) s
              | None => drop "RunAllocation" "missing_container_id"
              end
          end
      | None => drop "RunAllocation" "missing_allocation_payload"
      end
  | Some (CM_KillAllocation id) =>
      if bool_decide (id = "") then drop "KillAllocation" "missing_allocation_id" else with_reconciler (kill_allocation id) s
  | Some (CM_UpdateContainerDescription id md) => with_reconciler (λ r, (true, call_manager (MC_UpdateDescription id md) r)) s
  | Some (CM_SnapshotContainer cid sid uri) => with_reconciler (λ r, (true, call_manager (MC_Snapshot cid sid uri) r)) s
  end.

(** ** Recovery at startup *)

Section recovery.
Context `{HO : HashOrder} (room : nat → bool) (alive : ProcessHandle → option bool) (connect_daemon connect_fe : string → bool).

(** [FunctionContainerManager::recover]: the containers it adopts, with their description
    and the state file it leaves. *)
Definition fcm_recover_entry (acc : gmap string ContainerDescription * gmap string PersistedContainer) (e : PersistedContainer)
    : gmap string ContainerDescription * gmap string PersistedContainer :=
  let skip := (acc.1, delete (pc_container_id e) acc.2) in
  match alive (persisted_handle e) with
  | Some true =>
      if connect_daemon (pc_daemon_addr e)
      then match pc_description e with Some d => (<[pc_container_id e := d]> acc.1, acc.2) | None => skip end
      else skip
  | _ => skip
  end.
Definition fcm_recover (file : gmap string PersistedContainer) : gmap string ContainerDescription * gmap string PersistedContainer :=
  foldl fcm_recover_entry (∅, file) (map_iter file).*2.
(** [recover_ac_containers], [managed] being what the manager tracks. *)
Definition recover_ac_containers (managed : gmap string ContainerDescription) (file : gmap string PersistedContainer) (c : Controller) (r : StateReconciler)
    : Controller * list string * StateReconciler :=
  let '(c, handles) := recover_containers room alive connect_fe (map_iter file).*2 c in
  let owners := foldl (λ m id, <[id := CO_Function]> m) (sr_container_owners r) handles in
  let owners := foldl (λ m d, match cd_id d with
                              | Some id => match m !! id with Some _ => m | None => <[id := CO_Sandbox]> m end
                              | None => m
                              end) owners (map_iter managed).*2 in
  (c, handles, r <| sr_container_owners := owners |>).
(** The startup of the service. *)
Definition startup (file : gmap string PersistedContainer) (c : Controller) (r : StateReconciler) : gmap string ContainerDescription * Controller * StateReconciler :=
  let '(managed, file) := fcm_recover file in
  let '(c, _, r) := recover_ac_containers managed file c r in
  (managed, c, r).
End recovery.

(** ** What the commands of the server do *)

(** The specification: what a command of the server does to the reconciler. *)
Definition applied (seq : Z) (b : CommandBody) (r : StateReconciler) : StateReconciler :=
  let tell cmd (r : StateReconciler) := r <| sr_controller ::= λ l, l ++ [cmd] |> in
  match b with
  | CB_AddContainer d =>
      let id := default "" (cd_id d) in
      if is_sandbox_type (cd_container_type d)
      then call_manager (MC_AddOrUpdate d) (r <| sr_container_owners ::= <[id := CO_Sandbox]> |>)
      else tell (AC_Reconcile [d] [] []) (r <| sr_container_owners ::= <[id := CO_Function]> |>)
  | CB_RemoveContainer id _ =>
      let r' := r <| sr_container_owners ::= delete id |> in
      match sr_container_owners r !! id with
      | Some CO_Function => tell (AC_Reconcile [] [id] []) r'
      | Some CO_Sandbox => call_manager (MC_Remove id) r'
      | None => r'
      end
  | CB_RunAllocation a => tell (AC_Reconcile [] [] [(default "" (apb_container_id a), a, seq)]) r
  | CB_KillAllocation id => tell (AC_KillAllocation id) r
  | CB_UpdateContainerDescription id md => call_manager (MC_UpdateDescription id md) r
  | CB_SnapshotContainer cid sid uri => call_manager (MC_Snapshot cid sid uri) r
  end.
(** Commands the dataplane has no reason to refuse. *)
Definition accepted_command (b : CommandBody) : Prop :=
  match b with
  | CB_AddContainer d =>
      validate_fe_description d = Ok tt ∧ is_Some (cd_id d) ∧ container_type_of d = if is_sandbox_type (cd_container_type d) then CTy_Sandbox else CTy_Function
  | CB_RunAllocation a => validate_allocation a = Ok tt ∧ is_Some (apb_container_id a)
  | CB_KillAllocation id => id ≠ ""
  | _ => True
  end.
Lemma handle_acceptable seq b s : accepted_command b → sr_controller_running (csv_reconciler s) = true →
  handle_command (command_message seq b) s = (true, MkCommandService (applied seq b (csv_reconciler s)) (csv_malformed s)).
Proof.
  intros Hb Hr. destruct s as [r l]. cbn [csv_reconciler csv_malformed] in *. destruct b as [d|id reason|a|id|id md|cid sid uri]; unfold handle_command, command_message; cbn [cm_command cm_seq].
  - destruct Hb as (Hv & [id Hid] & Ht). rewrite Hv. unfold with_reconciler, route_containers. cbn [csv_reconciler foldl]. unfold route_added. rewrite Ht. unfold applied. rewrite Hid. cbn [default own fst snd].
    destruct (is_sandbox_type (cd_container_type d)); cbn [foldl app]; [done|]. unfold send_command. cbn. by rewrite Hr.
  - unfold with_reconciler, route_containers. cbn [csv_reconciler foldl]. unfold route_removed, applied. cbn [fst snd]. destruct (sr_container_owners r !! id) as [[|]|]; cbn; [|done|done]. unfold send_command. cbn. by rewrite Hr.
  - destruct Hb as [Hv [id Hid]]. rewrite Hv, Hid. unfold with_reconciler, reconcile_allocations, send_command. cbn. by rewrite Hr, Hid.
  - cbn in Hb. rewrite bool_decide_eq_false_2 by done. unfold with_reconciler, kill_allocation, send_command. cbn [csv_reconciler]. rewrite bool_decide_eq_false_2 by done. by rewrite Hr.
  - done.
  - done.
Qed.
Lemma applied_running seq b r : sr_controller_running (applied seq b r) = sr_controller_running r.
Proof. destruct b; cbn; try done; [by destruct (is_sandbox_type _)|by destruct (sr_container_owners r !! _) as [[|]|]]. Qed.

(** *** The server emits such commands *)

Section emitted.
Context `{HO : HashOrder} (url_host : string → option (option string)) (blob_store : string → string * string).

(** Its application has been uploaded. *)
Definition has_code (im : InMemoryState) (meta : ContainerServerMetadata) : Prop :=
  ctr_container_type (csm_function_container meta) = CT_Function → is_Some (container_version im (csm_function_container meta) ≫= av_code).
Lemma type_number_sandbox t : is_sandbox_type (Some (container_type_number t)) = bool_decide (t = CT_Sandbox).
Proof. by destruct t. Qed.
Lemma type_number_get t : enum_get container_types CTy_Unknown (Some (container_type_number t)) = if is_sandbox_type (Some (container_type_number t)) then CTy_Sandbox else CTy_Function.
Proof. by destruct t. Qed.
Lemma description_acceptable im meta d : build_container_description_from_meta url_host blob_store im meta = Some d → has_code im meta → accepted_command (CB_AddContainer d).
Proof.
  unfold build_container_description_from_meta, has_code. intros Hd Hc. destruct (cres_to_pb _); [|done]. injection Hd as <-. unfold accepted_command, container_type_of. cbn [cd_id cd_container_type].
  split; [|split; [done|apply type_number_get]]. unfold validate_fe_description. cbn [cd_id cd_container_type cd_function cd_initialization_timeout_ms cd_application cd_max_concurrency cd_allocation_timeout_ms require result_bind].
  rewrite type_number_sandbox. case_bool_decide as Ht; [done|]. destruct Hc as [code ->]; [by destruct (ctr_container_type _)|]. done.
Qed.
Lemma desired_acceptable im meta d : desired_description url_host blob_store (desired_fe im meta) = Some d → has_code im meta → accepted_command (CB_AddContainer d).
Proof.
  unfold desired_description, desired_fe, has_code. cbn [dfe_function_executor dfe_resources dfe_code_payload]. intros Hd Hc. destruct (cres_to_pb _); [|done]. injection Hd as <-. unfold accepted_command, container_type_of. cbn [cd_id cd_container_type].
  split; [|split; [done|apply type_number_get]]. unfold validate_fe_description. cbn [cd_id cd_container_type cd_function cd_initialization_timeout_ms cd_application cd_max_concurrency cd_allocation_timeout_ms require result_bind].
  rewrite type_number_sandbox. case_bool_decide as Ht; [done|]. destruct Hc as [code ->]; [by destruct (ctr_container_type _)|]. done.
Qed.
Lemma args_valid ns args : ∀ i, validate_args i (arg_to_proto url_host blob_store ns <$> args) = Ok tt.
Proof. induction args as [|a args IH]; intros i; [done|]. cbn. apply IH. Qed.
Lemma allocation_acceptable a : accepted_command (CB_RunAllocation (allocation_to_proto url_host blob_store a)).
Proof. split; [|done]. unfold validate_allocation, allocation_to_proto. cbn [apb_function apb_allocation_id apb_function_call_id apb_request_id apb_container_id apb_request_data_payload_uri_prefix apb_request_error_payload_uri_prefix apb_args ok_or result_bind require]. apply args_valid. Qed.
Lemma desired_allocation_acceptable cid a : accepted_command (CB_RunAllocation (desired_allocation url_host blob_store cid a)).
Proof. split; [|done]. unfold validate_allocation, desired_allocation. cbn [apb_function apb_allocation_id apb_function_call_id apb_request_id apb_container_id apb_request_data_payload_uri_prefix apb_request_error_payload_uri_prefix apb_args ok_or result_bind require]. apply args_valid. Qed.
Lemma update_commands_acceptable im u e b : (∀ cid meta, su_containers u !! cid = Some meta → has_code im meta) → (e, b) ∈ update_commands url_host blob_store im u → accepted_command b.
Proof.
  intros Hc. unfold update_commands. rewrite !elem_of_app. intros [H|[H|H]].
  - unfold container_commands in H. apply list_elem_of_omap in H as ([cid meta] & Hm & H). rewrite merge_sort_Permutation in Hm. apply elem_of_map_iter in Hm.
    unfold container_command in H. destruct (is_terminated _); [by injection H as <- <-|]. case_bool_decide.
    + destruct (build_container_description_from_meta url_host blob_store im meta) as [d|] eqn:Hd; [|done]. injection H as <- <-. eapply description_acceptable; [exact Hd|by eapply Hc].
    + destruct (_ && _); [|done]. destruct (build_container_description_from_meta url_host blob_store im meta); [|done]. by injection H as <- <-.
  - apply list_elem_of_fmap in H as (a & [= -> ->] & _). apply allocation_acceptable.
  - apply list_elem_of_omap in H as (s & _ & H). unfold snapshot_command in H. repeat case_match; try done; simplify_option_eq; done.
Qed.
Lemma full_sync_acceptable im s e b : (∀ cid meta, cs_function_containers s !! cid = Some meta → has_code im meta) → b ∈ full_sync_commands url_host blob_store im s e → accepted_command b.
Proof.
  intros Hc. unfold full_sync_commands, get_executor_state. destruct (desired_state im s e) as [d|] eqn:Hd; cbn [mbind option_bind]; [|intros H; by apply not_elem_of_nil in H].
  unfold commands_from_full_snapshot. cbn [ess_containers ess_allocations ess_pending_snapshots]. rewrite !elem_of_app. intros [H|[H|H]].
  - apply list_elem_of_fmap in H as (x & -> & H). apply list_elem_of_omap in H as (fe & Hfe & H). unfold desired_state in Hd. apply bind_Some in Hd as (ex & _ & Hd). destruct (em_tombstoned ex); [done|].
    apply bind_Some in Hd as (st & _ & Hd). injection Hd as <-. cbn [des_containers] in Hfe.
    apply list_elem_of_fmap in Hfe as (meta & -> & Hm). apply list_elem_of_omap in Hm as (cid & _ & Hm). eapply desired_acceptable; [exact H|]. case_match eqn:E; [|done]. case_match; [done|]. injection Hm as ->. by eapply Hc.
  - apply list_elem_of_fmap in H as (x & -> & H). rewrite list_elem_of_In in H. apply in_flat_map in H as ([cid l] & _ & H). apply list_elem_of_In in H. apply list_elem_of_fmap in H as (a & -> & _). apply desired_allocation_acceptable.
  - by apply list_elem_of_fmap in H as (x & -> & _).
Qed.
(** C18: Every command of the server, of an update or of a full synchronisation, is accepted by
    the dataplane when the applications of the function containers have been uploaded: it
    passes the validation, the cursor advances, nothing is recorded as malformed, and it
    does to the controller and to the manager of sandboxes exactly what it says. *)
Theorem emitted_commands_applied im u s e b seq sv :
  (∀ cid meta, su_containers u !! cid = Some meta → has_code im meta) →
  (∀ cid meta, cs_function_containers s !! cid = Some meta → has_code im meta) →
  (e, b) ∈ update_commands url_host blob_store im u ∨ b ∈ full_sync_commands url_host blob_store im s e →
  sr_controller_running (csv_reconciler sv) = true →
  handle_command (command_message seq b) sv = (true, MkCommandService (applied seq b (csv_reconciler sv)) (csv_malformed sv)).
Proof.
  intros H1 H2 Hb Hr. apply handle_acceptable; [|done]. destruct Hb as [Hb|Hb]; [by eapply update_commands_acceptable|by eapply full_sync_acceptable].
Qed.
End emitted.

(** *** Ownership *)

(** Commands in order, with their sequence numbers. *)
Definition handle_all (l : list (Z * CommandBody)) (s : CommandService) : CommandService := foldl (λ s x, (handle_command (command_message x.1 x.2) s).2) s l.
Definition concerns (id : string) (b : CommandBody) : bool :=
  match b with
  | CB_AddContainer d => bool_decide (cd_id d = Some id)
  | CB_RemoveContainer id' _ => bool_decide (id' = id)
  | _ => false
  end.
Lemma applied_owner seq b r id : accepted_command b → concerns id b = false → sr_container_owners (applied seq b r) !! id = sr_container_owners r !! id.
Proof.
  intros Ha Hc. destruct b as [d|id' reason|a|id'|id' md|cid sid uri]; cbn in *; try done.
  - destruct Ha as (_ & [id' Hid] & _). rewrite Hid in *. apply bool_decide_eq_false_1 in Hc. cbn. destruct (is_sandbox_type _); cbn; rewrite lookup_insert_ne; done || congruence.
  - apply bool_decide_eq_false_1 in Hc. destruct (sr_container_owners r !! id') as [[|]|]; cbn; by rewrite lookup_delete_ne.
Qed.
Lemma handle_all_spec l : ∀ s, Forall (λ x, accepted_command x.2) l → sr_controller_running (csv_reconciler s) = true →
  sr_controller_running (csv_reconciler (handle_all l s)) = true ∧
  ∀ id, Forall (λ x, concerns id x.2 = false) l → sr_container_owners (csv_reconciler (handle_all l s)) !! id = sr_container_owners (csv_reconciler s) !! id.
Proof.
  induction l as [|[seq b] l IH]; intros s Ha Hr; [done|]. apply Forall_cons in Ha as [Hb Ha]. cbn in Hb. unfold handle_all. cbn [foldl fst snd]. rewrite (handle_acceptable seq b s Hb Hr). cbn [snd].
  destruct (IH (MkCommandService (applied seq b (csv_reconciler s)) (csv_malformed s)) Ha) as [H1 H2]; [cbn; by rewrite applied_running|]. split; [exact H1|].
  intros id Hc. apply Forall_cons in Hc as [Hc Hcl]. cbn in Hc. unfold handle_all in H2. rewrite H2 by done. cbn [csv_reconciler]. by apply applied_owner.
Qed.
Lemma handle_all_app l1 l2 s : handle_all (l1 ++ l2) s = handle_all l2 (handle_all l1 s).
Proof. apply foldl_app. Qed.
(** The removal of a container goes to the one that was told to create it: to the manager
    for a sandbox and to the controller for a function, and to nobody else, whatever
    commands for other containers and allocations came before and in between. *)
Theorem removal_reaches_creator l1 l2 d id seq seq' reason s :
  Forall (λ x, accepted_command x.2) (l1 ++ (seq, CB_AddContainer d) :: l2) → cd_id d = Some id → Forall (λ x, concerns id x.2 = false) l2 →
  sr_controller_running (csv_reconciler s) = true →
  let s1 := handle_all (l1 ++ (seq, CB_AddContainer d) :: l2) s in
  let '(advance, s2) := handle_command (command_message seq' (CB_RemoveContainer id reason)) s1 in
  let r1 := csv_reconciler s1 in let r2 := csv_reconciler s2 in
  advance = true ∧ sr_container_owners r2 !! id = None ∧
  (sr_controller r2, sr_manager r2) =
    if is_sandbox_type (cd_container_type d) then (sr_controller r1, sr_manager r1 ++ [MC_Remove id]) else (sr_controller r1 ++ [AC_Reconcile [] [id] []], sr_manager r1).
Proof.
  intros Ha Hid Hc Hr. cbv zeta. apply Forall_app in Ha as [Ha1 Ha]. apply Forall_cons in Ha as [Hd Ha2]. cbn in Hd.
  destruct (handle_all_spec l1 s Ha1 Hr) as [Hr1 _]. set (s0 := handle_all l1 s) in *.
  set (s0' := MkCommandService (applied seq (CB_AddContainer d) (csv_reconciler s0)) (csv_malformed s0)).
  assert (E : handle_all (l1 ++ (seq, CB_AddContainer d) :: l2) s = handle_all l2 s0').
  { rewrite handle_all_app. fold s0. unfold handle_all at 1. cbn [foldl fst snd]. by rewrite (handle_acceptable seq (CB_AddContainer d) s0 Hd Hr1). }
  rewrite E. destruct (handle_all_spec l2 s0' Ha2) as [Hr2 Ho]; [cbn [csv_reconciler s0']; by rewrite applied_running|]. specialize (Ho id Hc).
  assert (Hown : sr_container_owners (csv_reconciler s0') !! id = Some (if is_sandbox_type (cd_container_type d) then CO_Sandbox else CO_Function)).
  { cbn [s0' csv_reconciler applied]. rewrite Hid. cbn [default]. destruct (is_sandbox_type _); cbn; by rewrite lookup_insert_eq. }
  rewrite Hown in Ho. rewrite (handle_acceptable seq' (CB_RemoveContainer id reason) _ I Hr2). cbn [csv_reconciler applied]. rewrite Ho.
  destruct (is_sandbox_type (cd_container_type d)); cbn; rewrite lookup_delete_eq; done.
Qed.

(** *** Recovered containers *)

Section recovered.
Context `{HO : HashOrder} (room : nat → bool) (alive : ProcessHandle → option bool) (connect_daemon connect_fe : string → bool).

(** A function container that survives a restart is adopted twice, by the manager of
    sandboxes and by the controller, and its removal goes to the manager only: the state
    file does not say which path a container belongs to, and the controller's containers
    are recorded under their handles. *)
Lemma recovered_container_removed_by_manager gpus e d id reason seq :
  let r0 := MkStateReconciler ∅ [] true [] in
  alive (persisted_handle e) = Some true → connect_daemon (pc_daemon_addr e) = true → connect_fe (pc_daemon_addr e) = true → pc_description e = Some d →
  pc_container_id e = id → cd_id d = Some id → container_type_of d = CTy_Function → pc_handle_id e ≠ id →
  let '(managed, c, r) := startup room alive connect_daemon connect_fe {[id := e]} (new_controller gpus) r0 in
  managed !! id = Some d ∧ mf_state <$> ac_containers c !! id = Some (FS_Running (persisted_handle e)) ∧
  let r' := csv_reconciler (handle_command (command_message seq (CB_RemoveContainer id reason)) (MkCommandService r [])).2 in
  sr_manager r' = [MC_Remove id] ∧ sr_controller r' = [].
Proof.
  intros r0 Ha Hcd Hcf Hd Hid Hcid _ Hne.
  assert (∀ {A} (v : A), map_iter ({[id := v]} : gmap string A) = [(id, v)]) as Hs by (intros A v; apply Permutation_singleton_r; rewrite map_iter_perm; by rewrite map_to_list_singleton).
  unfold startup, fcm_recover. rewrite Hs. cbn [fmap list_fmap foldl snd]. unfold fcm_recover_entry at 1. rewrite Ha, Hcd, Hd, Hid. cbn [fst snd].
  unfold recover_ac_containers, recover_containers. rewrite Hs. cbn [fmap list_fmap foldl snd]. unfold recover_entry, recover_single_entry. cbn [fst snd]. rewrite Ha, Hcf, Hd, Hid. cbn [option_list app foldl].
  rewrite insert_empty, Hs. change (option_list (Some (pc_handle_id e))) with [pc_handle_id e]. cbn [fmap list_fmap foldl snd]. rewrite Hcid.
  assert (Hl : (<[pc_handle_id e := CO_Function]> (sr_container_owners r0)) !! id = None) by (rewrite lookup_insert_ne by done; apply lookup_empty). rewrite Hl.
  split; [apply lookup_singleton_eq|]. split; [cbn; by rewrite lookup_insert_eq|]. rewrite (handle_acceptable seq (CB_RemoveContainer id reason)) by done. cbn [snd csv_reconciler applied].
  cbn [sr_container_owners set_field]. rewrite lookup_insert_eq. done.
Qed.
End recovered.

Section example.
Definition update_ex : SchedulerUpdateRequest := empty_update <| su_new_allocations := [FunctionRuns.allocation_ex] |>.
Definition command_service_ex : CommandService := MkCommandService (MkStateReconciler ∅ [] true []) [].
Definition no_url (s : string) : option (option string) := None.
Definition no_store (ns : string) : string * string := ("", "file:///blobs").
Definition run_command_ex : CommandBody := CB_RunAllocation (allocation_to_proto no_url no_store FunctionRuns.allocation_ex).
Definition sandbox_description_ex (id : string) : ContainerDescription := MkContainerDescription (Some id) None [] None None None None None None (Some 2) None.
Lemma emitted_commands_applied_witness :
  handle_command (command_message 1 run_command_ex) command_service_ex = (true, MkCommandService (applied 1 run_command_ex (csv_reconciler command_service_ex)) []).
Proof.
  apply (@emitted_commands_applied canonical_order no_url no_store empty_state update_ex empty_scheduler (at_executor_id (al_target FunctionRuns.allocation_ex)) run_command_ex 1 command_service_ex).
  - intros cid meta H. vm_compute in H. destruct cid; discriminate H.
  - intros cid meta H. vm_compute in H. destruct cid; discriminate H.
  - left. unfold update_commands. apply elem_of_app. right. apply elem_of_app. left. apply list_elem_of_here.
  - reflexivity.
Defined.
Lemma removal_reaches_creator_witness :
  let s1 := handle_all ([] ++ (1, CB_AddContainer (sandbox_description_ex "s1")) :: [(2, CB_AddContainer (sandbox_description_ex "s2"))]) command_service_ex in
  sr_manager (csv_reconciler (handle_command (command_message 3 (CB_RemoveContainer "s1" None)) s1).2) = sr_manager (csv_reconciler s1) ++ [MC_Remove "s1"].
Proof.
  pose proof (removal_reaches_creator [] [(2, CB_AddContainer (sandbox_description_ex "s2"))] (sandbox_description_ex "s1") "s1" 1 3 None command_service_ex
    ltac:(repeat constructor; cbn; eauto) eq_refl ltac:(repeat constructor) eq_refl) as H. cbv zeta in H |- *.
  set (s1 := handle_all _ _) in H |- *. destruct (handle_command (command_message 3 (CB_RemoveContainer "s1" None)) s1) as [adv s2]. destruct H as (_ & _ & H). exact (f_equal snd H).
Defined.
End example.
